(* ===== verification/_CoqProject ===== *)
-Q . S2P
Prelude.v
Types.v
Monad.v
Sched.v
Ring.v
Bio.v
BioSpec.v
Log.v
LogSpec.v
Crash.v
BioProps.v
KString.v
TxSpec.v
Fs.v
FsDir.v
FsBlocks.v
Demo.v
FsBlocksProps.v
FsInode.v
FsInodeOps.v
FsFile.v
FsFileOps.v
FsFileProps.v
Mem.v
Kalloc.v
Vm.v
VmSpec.v
VmProps.v
VmCopy.v
VmFree.v
Pipe.v
File.v
Proc.v
Syscall.v
Calm.v
Exec.v
Sysfile.v
FdProps.v
Port.v
Print.v
Irq.v
Console.v
CalmDev.v
Ide.v
IdeProps.v
Trap.v
Spinlock.v
ProcWait.v
ProcSched.v
SyscallProps.v
ConsoleProps.v
FsDirProps.v
FsPath.v
Ulib.v
PrintProps.v
Grep.v
Sh.v
ShProps.v
ShPrint.v
ShRun.v
Utils.v
UserProcs.v
UserTests.v
UserTestsProps.v
Umalloc.v
UmallocProps.v
Mkfs.v
MkfsImage.v
MkfsProps.v
Mp.v
Main.v
Boot.v
