(* ===== verification/Prelude.v ===== *)
(** * xv6-x86-exercises: a verification library

    The repository is xv6 for x86-64: a kernel (kernel/), its C library and programs (ulib/, user/), and the program that
    builds the file-system image (tools/mkfs.c). This library translates that code into executable definitions and proves
    what each part promises. Paths below are relative to src/.

    ** The parts and how they interact

    A user program enters the kernel through [trap], which calls [syscall], a device handler, or [yield]. The system calls use
    open files ([File]), which are inodes, pipes or the console. Inodes live in the file system, which reads and writes blocks
    through the buffer cache, and writes them inside a transaction of the log. The buffer cache calls a disk driver: the IDE
    driver, or the disk in memory. Processes have page tables, made of pages of the page allocator, and a kernel stack.
    mkfs writes the image that the kernel then reads.

    ** How the code is translated

    - A C integer is a [Z]; [u8], [u16], [u32], [u64], [s16], [s32] are the conversions, written where the code can leave
      the range of its type.
    - Kernel code is a function in the monad [K] of Monad.v over the record [kstate] of the kernel's globals (Types.v). It
      returns ([Ret]), panics ([Panic]), gives up the CPU ([Sched]), accesses memory outside an object ([Fault]) or exhausts
      its fuel ([NoFuel]). [runs m s Q] is total correctness: [m] returns from [s], in [Q].
    - User code, mkfs and the user allocator use the same monad over a state of their own.
    - A pointer into a table (buffers, inodes, files, processes) is an index of the table. Pages, page tables, trap frames and
      user memory are bytes at addresses (Mem.v).
    - A device is a function of the history of the accesses (Port.v), a disk driver is an instance of the class [DiskDriver]
      (Bio.v), the system calls a user program makes are an instance of [Syscalls] (Ulib.v) or [ProcCalls] (UserProcs.v), and
      for the tests [TestCalls] and [MemCalls] (UserTests.v). Theorems hold for every instance; the laws they use are fields
      of the class or hypotheses.

    ** The files

    - Foundations: Prelude.v (integers, bytes in blocks, lists), Types.v (the structures and constants of include/ and the
      record of globals), Monad.v (the monad and its rules), Ring.v (doubly linked rings), Demo.v (a small file system for the
      witnesses).
    - Sched.v: [acquire], [release], [sleep], [wakeup], [sched], [yield] of kernel/spinlock.c and kernel/proc.c, on one CPU.
      Spinlock.v: the same locks access by access on several CPUs.
    - Buffer cache, kernel/bio.c and kernel/memide.c: Bio.v, BioSpec.v, BioProps.v. IDE driver, kernel/ide.c: Ide.v,
      IdeProps.v.
    - Log, kernel/log.c: Log.v, LogSpec.v, Crash.v. TxSpec.v is the interface [txf] that the file system is verified against.
    - kernel/string.c: KString.v.
    - File system, kernel/fs.c: Fs.v (blocks and inodes), FsDir.v (directories and paths), FsBlocks.v and FsBlocksProps.v (the
      block allocator), FsInode.v and FsInodeOps.v (inodes), FsFile.v, FsFileOps.v and FsFileProps.v (contents),
      FsDirProps.v (directories), FsPath.v (paths).
    - Memory: Mem.v (bytes), Kalloc.v (kernel/kalloc.c), Vm.v, VmSpec.v, VmProps.v, VmCopy.v, VmFree.v (kernel/vm.c,
      kernel/vm64.c).
    - Open files and pipes: Pipe.v (kernel/pipe.c), File.v (kernel/file.c).
    - Processes: Proc.v, ProcWait.v, ProcSched.v (kernel/proc.c), Exec.v (kernel/exec.c).
    - System calls and traps: Syscall.v, SyscallProps.v (kernel/syscall.c), Sysfile.v (kernel/sysfile.c), Trap.v
      (kernel/sysproc.c, kernel/trap.c, the table of kernel/syscall.c). Calm.v, CalmDev.v and FdProps.v follow the
      descriptors through all of them.
    - Devices: Port.v (include/x86.h), Print.v, Console.v, ConsoleProps.v (kernel/console.c, kbd.c, uart.c), Irq.v
      (kernel/picirq.c, timer.c, ioapic.c, lapic.c), Mp.v (kernel/mp.c, acpi.c).
    - Start: Boot.v (kernel/bootmain.c), Main.v (kernel/main.c).
    - User: Ulib.v and PrintProps.v (ulib/ulib.c, printf.c), Umalloc.v and UmallocProps.v (ulib/umalloc.c), Grep.v
      (user/grep.c), Sh.v, ShProps.v, ShPrint.v, ShRun.v (user/sh.c), Utils.v (cat, wc, echo, ls, ln, mkdir, rm, kill),
      UserProcs.v (init, schedtest, forktest, stressfs, zombie), UserTests.v and UserTestsProps.v (user/usertests.c).
    - mkfs, tools/mkfs.c: Mkfs.v, MkfsImage.v, MkfsProps.v.

    ** What is proved

    - Log: a crash at any write leaves all or nothing of a transaction, and recovery can itself be interrupted
      ([transaction_atomic], [recovery_restartable]).
    - Buffer cache: it refines a map of blocks over any driver, and recycles the least recently used buffer
      ([cache_refines_map], [bget_lru]). IDE driver: the queued requests are served in order and each completes, if the
      device answers as a disk does ([iderw_completes]).
    - File system: the block and inode allocators are first fit and exact ([balloc_first_fit], [balloc_bfree_roundtrip],
      [ialloc_first_fit]); the inode cache has no duplicates and agrees with the disk ([iget_unique], [iupdate_ilock]); [readi]
      and [writei] refine an array of bytes and touch no other file ([readi_contents], [writei_contents], [writei_isolated],
      [writei_readi]); directories refine a list of names ([dirlookup_finds], [dirlink_adds]); paths are walked
      component by component without losing or keeping a reference ([namex_resolves]).
    - mkfs: the kernel reads back from its image the files it was given, by inode and, when their names are distinct and
      their entries do not fill the last directory block exactly, by name ([mkfs_readable], [mkfs_lookup]).
    - Memory: pages are neither lost nor handed out twice ([kalloc_conserves], [kinit1_pages]); page tables refine a map from
      pages to entries ([mappages_maps]); a copied address space has its own equal pages ([copyuvm_copies]), and a freed one
      returns its directory, tables and user pages, but not the two upper tables of [setupkvm] (the lemmas [freevm_frees] and
      [freevm_leaks]).
    - Processes and synchronisation: mutual exclusion on several CPUs ([mutual_exclusion]); [exit] and [wait] on every branch,
      with the slot and the memory of the child that [wait] reaps, and no missed wakeup ([exit_wait_cases],
      [wait_misses_no_exit]); in a pass of the scheduler every runnable process gets the CPU or is taken by another CPU, if the
      processes it switches to come back ([scheduler_serves]); pipes are queues, and no wakeup is lost while the read end is open
      and nobody is killed ([pipe_fifo], [pipe_no_lost_wakeup]).
    - System calls: arguments are fetched from inside the process ([fetch_in_process]); reference counts and types of open
      files agree with the descriptors ([descriptors_typed]).
    - Console: the line discipline refines an editor of lines ([console_lines]); numbers are printed inside the buffer, and
      [atoi] reads those that are not negative back ([printint_bounds]).
    - User programs: the allocator is safe and, below 2GB, fails only when it must ([allocator_safe], [malloc_cases]); grep
      decides its regular expressions and prints the lines that match of a small input in a fresh buffer
      ([match_decides_re], [grep_prints]); the shell parses what is
      printed, always ends, and starts the programs of the command with the right descriptors ([parse_print],
      [parsecmd_total], [runcmd_refines]). The kernel's tests accept a reference file system ([fs_tests_pass]), a pipe that
      delivers the bytes ([pipe1_reader_exact]) and a [wait] that returns the child ([exitwait_passes]).

    A concrete input at which the hypotheses hold follows each theorem that has some.

    ** Fuel and bounds

    A loop that is not structural takes fuel. Where the code bounds the loop, the fuel is computed from that bound and the
    theorem says the loop returns: [copy_fuel] and [dir_fuel] (the file size), the length of the line in the shell's parser,
    the length of the data in [iappend], four steps per call in the user allocator. A loop around [sleep] leaves in
    [sleep], so one test after it is enough on one CPU. A loop that waits for a device or for input, or that serves
    for ever, takes its fuel as an argument: the number of polls, reads, lines or rounds.

    The constants of include/param.h are those of the code (10 buffers, 50 inodes, 64 processes, 16 descriptors, a log of 10
    blocks). [txf F] is about transactions that write the blocks [F], at most seven, which with the buffers held at once fit
    the cache.

    ** What is not modelled

    - The assembly files (entry, boot, context switch, trap entry, the system-call stubs): machine code below the meaning of C.
      [swtch] and [trapret] are the points where a run ends or starts. vectors.S is generated.
    - The variants for 32 bits of setupkvm, seginit and switchuvm in kernel/vm.c and of tvinit and idtinit in kernel/trap.c:
      the build is for 64 bits.
    - Loads of control registers, descriptor tables and flags in include/x86.h: no modelled code reads them back.
    - include/defs.h and include/user.h: declarations only.
    - [mem] and [main] of user/usertests.c: [mem] works on the blocks of the allocator, whose model has a state of its own.
      user/lotteryschedtest.c calls [settickets], which the kernel does not have, and is not built.
    - mpbcpu of kernel/mp.c, memcpy of kernel/string.c, tss_set_ist: nothing modelled calls them. ideinit of memide.c records
      the address of the image.
    - In the allocator of the user library the system call [sbrk] is an interface: the break moves as [growproc] moves
      it, up to a limit of the heap's state that stands for the pages the kernel has left. In the shell, which files can be
      opened is given, and [wait] returns nothing: children run to their end where they are started, so what the parent
      closes is not seen by them. In the scheduler, what happens from the switch to a process to the switch back, by that
      process and by the other CPUs, is an argument of the pass; [sti] and [hlt] between passes have no effect on the state.
    - What [panic] prints: a panic is an outcome with its message. What the CPUs' caches do: memory is sequentially
      consistent, as [xchg] makes it for the locks.

    One-line definitions of register, flag and interrupt numbers, of array sizes and of field offsets are in the files that
    use them, but have no entry of their own in the map from definitions to source lines. *)

From stdpp Require Export base gmap list strings numbers sets fin_maps.
From Stdlib Require Export ZArith Lia.

#[global] Open Scope Z_scope.

(** ** Machine integers

    A w-bit C integer is a [Z]; every operation that can leave its range is
    followed by the conversion of its type. *)

Definition u8 (x : Z) : Z := x mod 256.
Definition u16 (x : Z) : Z := x mod 65536.
Definition u32 (x : Z) : Z := x mod 4294967296.
Definition u64 (x : Z) : Z := x mod 18446744073709551616.
Definition s16 (x : Z) : Z := (x + 32768) mod 65536 - 32768.
Definition s32 (x : Z) : Z := (x + 2147483648) mod 4294967296 - 2147483648.

Lemma u8_small x : 0 <= x < 256 -> u8 x = x.
Proof. apply Z.mod_small. Qed.
Lemma u16_small x : 0 <= x < 65536 -> u16 x = x.
Proof. apply Z.mod_small. Qed.
Lemma u32_small x : 0 <= x < 4294967296 -> u32 x = x.
Proof. apply Z.mod_small. Qed.
Lemma u64_small x : 0 <= x < 18446744073709551616 -> u64 x = x.
Proof. apply Z.mod_small. Qed.
Lemma s16_small x : -32768 <= x < 32768 -> s16 x = x.
Proof. intros ?. unfold s16. rewrite Z.mod_small; lia. Qed.
Lemma s32_small x : -2147483648 <= x < 2147483648 -> s32 x = x.
Proof. intros ?. unfold s32. rewrite Z.mod_small; lia. Qed.
Lemma u32_bound x : 0 <= u32 x < 4294967296.
Proof. apply Z.mod_pos_bound; lia. Qed.
Lemma s32_bound x : -2147483648 <= s32 x < 2147483648.
Proof. unfold s32. pose proof (Z.mod_pos_bound (x + 2147483648) 4294967296). lia. Qed.

(** Automation database for the routine width conversions. *)
Create Rewrite HintDb width.
#[export] Hint Rewrite u8_small u16_small u32_small u64_small s16_small s32_small
  using lia : width.

Ltac width := autorewrite with width; try lia.

(** ** Flag words

    [has f m] is C's [(f & m) != 0]; [f | m] and [f & ~m] are [set_flag] and
    [clr_flag]. *)

Definition has (f m : Z) : bool := negb (Z.land f m =? 0).
Definition set_flag (f m : Z) : Z := Z.lor f m.
Definition clr_flag (f m : Z) : Z := Z.land f (Z.lnot m).

Lemma has_testbit f k : 0 <= k -> has f (2 ^ k) = Z.testbit f k.
Proof.
  intros Hk. unfold has.
  destruct (Z.testbit f k) eqn:E.
  - apply negb_true_iff, Z.eqb_neq. intros H0.
    assert (Z.testbit (Z.land f (2 ^ k)) k = false) as Hb by (rewrite H0; apply Z.bits_0).
    rewrite Z.land_spec, E, Z.pow2_bits_true in Hb; done.
  - apply negb_false_iff, Z.eqb_eq. apply Z.bits_inj'. intros n Hn.
    rewrite Z.land_spec, Z.bits_0.
    destruct (decide (n = k)) as [->|Hne]; [by rewrite E|].
    rewrite Z.pow2_bits_false by lia. apply andb_false_r.
Qed.

Lemma has_set_same f k : 0 <= k -> has (set_flag f (2 ^ k)) (2 ^ k) = true.
Proof.
  intros. unfold set_flag.
  by rewrite has_testbit, Z.lor_spec, Z.pow2_bits_true, orb_true_r by lia.
Qed.
Lemma has_set_other f k j :
  0 <= k -> 0 <= j -> j <> k -> has (set_flag f (2 ^ k)) (2 ^ j) = has f (2 ^ j).
Proof.
  intros. unfold set_flag.
  by rewrite !has_testbit, Z.lor_spec, Z.pow2_bits_false, orb_false_r by lia.
Qed.
Lemma has_clr_same f k : 0 <= k -> has (clr_flag f (2 ^ k)) (2 ^ k) = false.
Proof.
  intros. unfold clr_flag.
  by rewrite has_testbit, Z.land_spec, Z.lnot_spec, Z.pow2_bits_true, andb_false_r by lia.
Qed.
Lemma has_clr_other f k j :
  0 <= k -> 0 <= j -> j <> k -> has (clr_flag f (2 ^ k)) (2 ^ j) = has f (2 ^ j).
Proof.
  intros. unfold clr_flag.
  by rewrite !has_testbit, Z.land_spec, Z.lnot_spec, Z.pow2_bits_false, andb_true_r by lia.
Qed.

(** ** Byte arrays *)

Definition byte_at (d : list Z) (i : nat) : Z := default 0 (d !! i).

(** [splice d off bs]: the array [d] with [bs] stored from index [off] on. *)
Definition splice {A} (d : list A) (off : nat) (bs : list A) : list A :=
  take off d ++ bs ++ drop (off + length bs) d.

Section splice.
Context {A : Type}.
Implicit Types d bs : list A.

Lemma length_splice d off bs :
  (off + length bs <= length d)%nat -> length (splice d off bs) = length d.
Proof. intros. unfold splice. rewrite !length_app, length_take, length_drop. lia. Qed.

Lemma lookup_splice_in d off bs i :
  (off + length bs <= length d)%nat -> (off <= i < off + length bs)%nat ->
  splice d off bs !! i = bs !! (i - off)%nat.
Proof.
  intros. unfold splice.
  rewrite lookup_app_r by (rewrite length_take; lia).
  rewrite lookup_app_l by (rewrite length_take; lia).
  f_equal. rewrite length_take. lia.
Qed.

Lemma lookup_splice_out d off bs i :
  (off + length bs <= length d)%nat -> ~ (off <= i < off + length bs)%nat ->
  splice d off bs !! i = d !! i.
Proof.
  intros. unfold splice. destruct (decide (i < off)%nat).
  - rewrite lookup_app_l by (rewrite length_take; lia). by rewrite lookup_take_lt.
  - rewrite lookup_app_r by (rewrite length_take; lia).
    rewrite lookup_app_r by (rewrite length_take; lia).
    rewrite lookup_drop, length_take. f_equal. lia.
Qed.

Lemma splice_id d off bs :
  (off + length bs <= length d)%nat -> take (length bs) (drop off d) = bs ->
  splice d off bs = d.
Proof.
  intros Hlen Heq. apply list_eq. intros i.
  destruct (decide (off <= i < off + length bs)%nat).
  - rewrite lookup_splice_in by lia.
    rewrite <- Heq at 1. rewrite lookup_take_lt by lia.
    rewrite lookup_drop. f_equal. lia.
  - by rewrite lookup_splice_out by lia.
Qed.

Lemma splice_read d off bs :
  (off + length bs <= length d)%nat -> take (length bs) (drop off (splice d off bs)) = bs.
Proof.
  intros. unfold splice. rewrite drop_app_length' by (rewrite length_take; lia).
  apply take_app_length.
Qed.
End splice.

(** Little-endian words inside a byte array. *)
Definition le16 (v : Z) : list Z := [v mod 256; v / 256 mod 256].
Definition le32 (v : Z) : list Z :=
  [v mod 256; v / 256 mod 256; v / 65536 mod 256; v / 16777216 mod 256].
Definition get16 (d : list Z) (off : nat) : Z :=
  byte_at d off + 256 * byte_at d (off + 1).
Definition get32 (d : list Z) (off : nat) : Z :=
  byte_at d off + 256 * byte_at d (off + 1) + 65536 * byte_at d (off + 2)
  + 16777216 * byte_at d (off + 3).
Definition put16 (d : list Z) (off : nat) (v : Z) : list Z := splice d off (le16 v).
Definition put32 (d : list Z) (off : nat) (v : Z) : list Z := splice d off (le32 v).

Lemma length_put32 d off v :
  (off + 4 <= length d)%nat -> length (put32 d off v) = length d.
Proof. intros. unfold put32. by rewrite length_splice. Qed.
Lemma length_put16 d off v :
  (off + 2 <= length d)%nat -> length (put16 d off v) = length d.
Proof. intros. unfold put16. by rewrite length_splice. Qed.

Lemma get32_put32_same d off v :
  (off + 4 <= length d)%nat -> get32 (put32 d off v) off = u32 v.
Proof.
  intros Hlen. unfold get32, put32, byte_at.
  rewrite !lookup_splice_in by (simpl; lia).
  replace (off - off)%nat with 0%nat by lia.
  replace (off + 1 - off)%nat with 1%nat by lia.
  replace (off + 2 - off)%nat with 2%nat by lia.
  replace (off + 3 - off)%nat with 3%nat by lia.
  simpl. unfold u32. Z.div_mod_to_equations. lia.
Qed.

Lemma get32_put32_other d off off' v :
  (off + 4 <= length d)%nat -> (off' + 4 <= off \/ off + 4 <= off')%nat ->
  get32 (put32 d off v) off' = get32 d off'.
Proof.
  intros Hlen Hdis. unfold get32, put32, byte_at.
  by rewrite !lookup_splice_out by (simpl; lia).
Qed.

Lemma get16_put16_same d off v :
  (off + 2 <= length d)%nat -> get16 (put16 d off v) off = u16 v.
Proof.
  intros Hlen. unfold get16, put16, byte_at.
  rewrite !lookup_splice_in by (simpl; lia).
  replace (off - off)%nat with 0%nat by lia.
  replace (off + 1 - off)%nat with 1%nat by lia.
  simpl. unfold u16. Z.div_mod_to_equations. lia.
Qed.

(** Stores elsewhere do not change a word. *)
Lemma get16_splice_other d off bs off' :
  (off + length bs <= length d)%nat -> (off' + 2 <= off \/ off + length bs <= off')%nat ->
  get16 (splice d off bs) off' = get16 d off'.
Proof.
  intros Hlen Hdis. unfold get16, byte_at. by rewrite !lookup_splice_out by lia.
Qed.
Lemma get32_splice_other d off bs off' :
  (off + length bs <= length d)%nat -> (off' + 4 <= off \/ off + length bs <= off')%nat ->
  get32 (splice d off bs) off' = get32 d off'.
Proof.
  intros Hlen Hdis. unfold get32, byte_at. by rewrite !lookup_splice_out by lia.
Qed.

Lemma s16_u16 v : s16 (u16 v) = s16 v.
Proof. unfold s16, u16. rewrite Zplus_mod_idemp_l. done. Qed.
Lemma s32_u32 v : s32 (u32 v) = s32 v.
Proof. unfold s32, u32. rewrite Zplus_mod_idemp_l. done. Qed.

(** ** Lists as tables *)

Lemma alter_lookup_ne {A} (f : A -> A) (l : list A) i j :
  i <> j -> alter f i l !! j = l !! j.
Proof. apply list_lookup_alter_ne. Qed.

Lemma map_insert_out {A} (l : list A) i x :
  (length l <= i)%nat -> <[i:=x]> l = l.
Proof. apply list_insert_ge. Qed.

Lemma NoDup_take {A} (l : list A) n : NoDup l -> NoDup (take n l).
Proof. intros Hl. rewrite <- (take_drop n l) in Hl. by apply NoDup_app in Hl as [? _]. Qed.

Lemma elem_of_take_1 {A} (l : list A) n x : x ∈ take n l -> x ∈ l.
Proof. intros Hx. rewrite <- (take_drop n l). apply elem_of_app. by left. Qed.

(** [findi p l]: the index of the first element of [l] that satisfies [p]. *)
Fixpoint findi {A} (p : A -> bool) (l : list A) : option nat :=
  match l with
  | [] => None
  | x :: l' => if p x then Some 0%nat else S <$> findi p l'
  end.

Lemma findi_Some {A} (p : A -> bool) l i :
  findi p l = Some i <->
  (exists x, l !! i = Some x /\ p x = true) /\
  (forall j x, (j < i)%nat -> l !! j = Some x -> p x = false).
Proof.
  revert i. induction l as [|y l IH]; intros i; simpl.
  - split; [done|]. intros [[x [Hx _]] _]. done.
  - destruct (p y) eqn:Ep.
    + split.
      * intros [= <-]. split; [eauto|]. intros j x Hj. lia.
      * intros [_ Hmin]. destruct i as [|i]; [done|].
        specialize (Hmin 0%nat y ltac:(lia) eq_refl). congruence.
    + rewrite fmap_Some. split.
      * intros (k & Hk & ->). apply IH in Hk as [Hx Hmin]. split; [done|].
        intros [|j] x Hj Hx'; simpl in *; [congruence|]. eapply Hmin; [|done]. lia.
      * intros [(x & Hx & Hp) Hmin]. destruct i as [|i]; simpl in *; [congruence|].
        exists i. split; [|done]. apply IH. split; [eauto|].
        intros j x' Hj Hx'. apply (Hmin (S j) x'); [lia|done].
Qed.

Lemma findi_None {A} (p : A -> bool) l :
  findi p l = None <-> forall i x, l !! i = Some x -> p x = false.
Proof.
  induction l as [|y l IH]; simpl.
  - split; [|done]. intros _ i x Hx. done.
  - destruct (p y) eqn:Ep.
    + split; [done|]. intros H. specialize (H 0%nat y eq_refl). congruence.
    + rewrite fmap_None, IH. split.
      * intros H [|i] x Hx; simpl in *; [congruence|eauto].
      * intros H i x Hx. apply (H (S i) x Hx).
Qed.

(** ** Tactics of the development *)

(** Case analysis on the scrutinee of the [match] or [if] of the goal. *)
Ltac split_match :=
  match goal with
  | |- context [match ?x with _ => _ end] =>
      first [ is_var x; destruct x | let E := fresh "E" in destruct x eqn:E ]
  end.

(** Turn boolean tests on integers in the context into propositions. *)
Ltac boolify :=
  repeat match goal with
  | H : (_ =? _) = true |- _ => apply Z.eqb_eq in H
  | H : (_ =? _) = false |- _ => apply Z.eqb_neq in H
  | H : (_ <? _) = true |- _ => apply Z.ltb_lt in H
  | H : (_ <? _) = false |- _ => apply Z.ltb_ge in H
  | H : (_ <=? _) = true |- _ => apply Z.leb_le in H
  | H : (_ <=? _) = false |- _ => apply Z.leb_gt in H
  | H : (_ && _)%bool = true |- _ => apply andb_true_iff in H; destruct H
  | H : (_ || _)%bool = false |- _ => apply orb_false_iff in H; destruct H
  | H : negb _ = true |- _ => apply negb_true_iff in H
  | H : negb _ = false |- _ => apply negb_false_iff in H
  end.

(** Nothing is in the empty list or set. *)
Ltac void :=
  repeat intro;
  match goal with
  | H : _ ∈ [] |- _ => by apply not_elem_of_nil in H
  | H : _ ∈ ∅ |- _ => by apply not_elem_of_empty in H
  end.
