(* ===== verification/Types.v ===== *)
(** * Kernel data: include/*.h and the kernel's global variables

    The C structures as records, the enumerations as inductive types, the
    constants of include/param.h, buf.h, file.h, fs.h, stat.h, mmu.h and
    memlayout.h, and the record [kstate] of the kernel's globals. *)

From S2P Require Import Prelude.

(** ** Constants *)

Definition NPROC : nat := 64.
Definition KSTACKSIZE : Z := 4096.
Definition NOFILE : nat := 16.
Definition NFILE : nat := 100.
Definition NBUF : nat := 10.
Definition NINODE : nat := 50.
Definition NDEV : Z := 10.
Definition ROOTDEV : Z := 1.
Definition LOGSIZE : Z := 10.

Definition BSIZE : Z := 512.
Definition B_BUSY : Z := 1.
Definition B_VALID : Z := 2.
Definition B_DIRTY : Z := 4.
Definition I_BUSY : Z := 1.
Definition I_VALID : Z := 2.

Definition T_DIR : Z := 1.
Definition T_FILE : Z := 2.
Definition T_DEV : Z := 3.

Definition PGSIZE : Z := 4096.

(** ** Names of locks and sleep channels *)

(** The kernel's spinlocks. A pipe's lock is named by the pipe's address. *)
Inductive lockid :=
| LPtable | LBcache | LIcache | LLog | LFtable | LKmem | LIde | LTicks | LCons | LInput
| LPipe (a : Z).

#[export] Instance lockid_eq_dec : EqDecision lockid.
Proof. solve_decision. Defined.

(** The addresses the kernel sleeps on: a buffer, an inode, [&log], [&ticks], a
    process, the [nread] and [nwrite] fields of a pipe, [&input.r]. *)
Inductive channel :=
| ChBuf (i : nat) | ChInode (i : nat) | ChLog | ChTicks | ChProc (i : nat)
| ChNread (a : Z) | ChNwrite (a : Z) | ChInput.

#[export] Instance channel_eq_dec : EqDecision channel.
Proof. solve_decision. Defined.

(** [enum procstate] (include/proc.h). *)
Inductive procstate := UNUSED | EMBRYO | SLEEPING | RUNNABLE | RUNNING | ZOMBIE.

#[export] Instance procstate_eq_dec : EqDecision procstate.
Proof. solve_decision. Defined.

(** The [type] of [struct file] (include/file.h). *)
Inductive filetype := FD_NONE | FD_PIPE | FD_INODE.

#[export] Instance filetype_eq_dec : EqDecision filetype.
Proof. solve_decision. Defined.

(** ** Structures *)

(** [struct buf] (include/buf.h). Pointers between buffers are indices of [k_bufs]. *)
Record buf := Buf {
  b_flags : Z;
  b_dev : Z;
  b_sector : Z;
  b_prev : nat;
  b_next : nat;
  b_qnext : option nat;
  b_data : list Z
}.

Definition bset_flags (x : Z) (b : buf) : buf :=
  Buf x (b_dev b) (b_sector b) (b_prev b) (b_next b) (b_qnext b) (b_data b).
Definition bset_dev (x : Z) (b : buf) : buf :=
  Buf (b_flags b) x (b_sector b) (b_prev b) (b_next b) (b_qnext b) (b_data b).
Definition bset_sector (x : Z) (b : buf) : buf :=
  Buf (b_flags b) (b_dev b) x (b_prev b) (b_next b) (b_qnext b) (b_data b).
Definition bset_prev (x : nat) (b : buf) : buf :=
  Buf (b_flags b) (b_dev b) (b_sector b) x (b_next b) (b_qnext b) (b_data b).
Definition bset_next (x : nat) (b : buf) : buf :=
  Buf (b_flags b) (b_dev b) (b_sector b) (b_prev b) x (b_qnext b) (b_data b).
Definition bset_qnext (x : option nat) (b : buf) : buf :=
  Buf (b_flags b) (b_dev b) (b_sector b) (b_prev b) (b_next b) x (b_data b).
Definition bset_data (x : list Z) (b : buf) : buf :=
  Buf (b_flags b) (b_dev b) (b_sector b) (b_prev b) (b_next b) (b_qnext b) x.

(** The disk the driver serves: its sectors, how many there are, and (ghost) every
    sector write in the order it reached the disk. *)
Record disk := Disk {
  d_blocks : gmap Z (list Z);
  d_size : Z;
  d_writes : list (Z * list Z)
}.

(** [struct log] of kernel/log.c, with its [struct logheader] as [l_n] and [l_sector]. *)
Record log := Log {
  l_start : Z;
  l_size : Z;
  l_busy : Z;
  l_dev : Z;
  l_n : Z;
  l_sector : list Z
}.

Definition lset_start (x : Z) (l : log) : log :=
  Log x (l_size l) (l_busy l) (l_dev l) (l_n l) (l_sector l).
Definition lset_size (x : Z) (l : log) : log :=
  Log (l_start l) x (l_busy l) (l_dev l) (l_n l) (l_sector l).
Definition lset_busy (x : Z) (l : log) : log :=
  Log (l_start l) (l_size l) x (l_dev l) (l_n l) (l_sector l).
Definition lset_dev (x : Z) (l : log) : log :=
  Log (l_start l) (l_size l) (l_busy l) x (l_n l) (l_sector l).
Definition lset_n (x : Z) (l : log) : log :=
  Log (l_start l) (l_size l) (l_busy l) (l_dev l) x (l_sector l).
Definition lset_sector (x : list Z) (l : log) : log :=
  Log (l_start l) (l_size l) (l_busy l) (l_dev l) (l_n l) x.

(** [struct inode] (include/file.h), the in-memory copy of an inode. *)
Record inode := Inode {
  i_dev : Z;
  i_inum : Z;
  i_ref : Z;
  i_flags : Z;
  i_type : Z;
  i_major : Z;
  i_minor : Z;
  i_nlink : Z;
  i_size : Z;
  i_addrs : list Z
}.

Definition iset_dev (x : Z) (ip : inode) : inode :=
  Inode x (i_inum ip) (i_ref ip) (i_flags ip) (i_type ip) (i_major ip) (i_minor ip) (i_nlink ip) (i_size ip) (i_addrs ip).
Definition iset_inum (x : Z) (ip : inode) : inode :=
  Inode (i_dev ip) x (i_ref ip) (i_flags ip) (i_type ip) (i_major ip) (i_minor ip) (i_nlink ip) (i_size ip) (i_addrs ip).
Definition iset_ref (x : Z) (ip : inode) : inode :=
  Inode (i_dev ip) (i_inum ip) x (i_flags ip) (i_type ip) (i_major ip) (i_minor ip) (i_nlink ip) (i_size ip) (i_addrs ip).
Definition iset_flags (x : Z) (ip : inode) : inode :=
  Inode (i_dev ip) (i_inum ip) (i_ref ip) x (i_type ip) (i_major ip) (i_minor ip) (i_nlink ip) (i_size ip) (i_addrs ip).
Definition iset_type (x : Z) (ip : inode) : inode :=
  Inode (i_dev ip) (i_inum ip) (i_ref ip) (i_flags ip) x (i_major ip) (i_minor ip) (i_nlink ip) (i_size ip) (i_addrs ip).
Definition iset_major (x : Z) (ip : inode) : inode :=
  Inode (i_dev ip) (i_inum ip) (i_ref ip) (i_flags ip) (i_type ip) x (i_minor ip) (i_nlink ip) (i_size ip) (i_addrs ip).
Definition iset_minor (x : Z) (ip : inode) : inode :=
  Inode (i_dev ip) (i_inum ip) (i_ref ip) (i_flags ip) (i_type ip) (i_major ip) x (i_nlink ip) (i_size ip) (i_addrs ip).
Definition iset_nlink (x : Z) (ip : inode) : inode :=
  Inode (i_dev ip) (i_inum ip) (i_ref ip) (i_flags ip) (i_type ip) (i_major ip) (i_minor ip) x (i_size ip) (i_addrs ip).
Definition iset_size (x : Z) (ip : inode) : inode :=
  Inode (i_dev ip) (i_inum ip) (i_ref ip) (i_flags ip) (i_type ip) (i_major ip) (i_minor ip) (i_nlink ip) x (i_addrs ip).
Definition iset_addrs (x : list Z) (ip : inode) : inode :=
  Inode (i_dev ip) (i_inum ip) (i_ref ip) (i_flags ip) (i_type ip) (i_major ip) (i_minor ip) (i_nlink ip) (i_size ip) x.

(** [struct file] (include/file.h). [f_pipe] is the address of the pipe, [f_ip] the index
    of the inode in the inode cache. *)
Record file := File {
  f_type : filetype;
  f_ref : Z;
  f_readable : bool;
  f_writable : bool;
  f_pipe : Z;
  f_ip : option nat;
  f_off : Z
}.

Definition fset_type (x : filetype) (f : file) : file :=
  File x (f_ref f) (f_readable f) (f_writable f) (f_pipe f) (f_ip f) (f_off f).
Definition fset_ref (x : Z) (f : file) : file :=
  File (f_type f) x (f_readable f) (f_writable f) (f_pipe f) (f_ip f) (f_off f).
Definition fset_readable (x : bool) (f : file) : file :=
  File (f_type f) (f_ref f) x (f_writable f) (f_pipe f) (f_ip f) (f_off f).
Definition fset_writable (x : bool) (f : file) : file :=
  File (f_type f) (f_ref f) (f_readable f) x (f_pipe f) (f_ip f) (f_off f).
Definition fset_pipe (x : Z) (f : file) : file :=
  File (f_type f) (f_ref f) (f_readable f) (f_writable f) x (f_ip f) (f_off f).
Definition fset_ip (x : option nat) (f : file) : file :=
  File (f_type f) (f_ref f) (f_readable f) (f_writable f) (f_pipe f) x (f_off f).
Definition fset_off (x : Z) (f : file) : file :=
  File (f_type f) (f_ref f) (f_readable f) (f_writable f) (f_pipe f) (f_ip f) x.

(** [struct pipe] of kernel/pipe.c (its spinlock is [LPipe] of its address). *)
Record pipe := Pipe {
  pi_data : list Z;
  pi_nread : Z;
  pi_nwrite : Z;
  pi_readopen : Z;
  pi_writeopen : Z
}.

Definition piset_data (x : list Z) (p : pipe) : pipe :=
  Pipe x (pi_nread p) (pi_nwrite p) (pi_readopen p) (pi_writeopen p).
Definition piset_nread (x : Z) (p : pipe) : pipe :=
  Pipe (pi_data p) x (pi_nwrite p) (pi_readopen p) (pi_writeopen p).
Definition piset_nwrite (x : Z) (p : pipe) : pipe :=
  Pipe (pi_data p) (pi_nread p) x (pi_readopen p) (pi_writeopen p).
Definition piset_readopen (x : Z) (p : pipe) : pipe :=
  Pipe (pi_data p) (pi_nread p) (pi_nwrite p) x (pi_writeopen p).
Definition piset_writeopen (x : Z) (p : pipe) : pipe :=
  Pipe (pi_data p) (pi_nread p) (pi_nwrite p) (pi_readopen p) x.

(** [struct proc] (include/proc.h). [p_parent] is an index of the process table, [p_ofile]
    holds indices of the file table, [p_cwd] one of the inode cache; [p_kstack],
    [p_pgdir], [p_tf] and [p_context] are kernel addresses. *)
Record proc := Proc {
  p_sz : Z;
  p_pgdir : Z;
  p_kstack : Z;
  p_state : procstate;
  p_pid : Z;
  p_parent : option nat;
  p_tf : Z;
  p_context : Z;
  p_chan : option channel;
  p_killed : Z;
  p_ofile : list (option nat);
  p_cwd : option nat;
  p_name : list Z;
  p_inuse : Z;
  p_ticks : Z;
  p_tickets : Z
}.

Definition pset_sz (x : Z) (p : proc) : proc :=
  Proc x (p_pgdir p) (p_kstack p) (p_state p) (p_pid p) (p_parent p) (p_tf p) (p_context p) (p_chan p) (p_killed p) (p_ofile p) (p_cwd p) (p_name p) (p_inuse p) (p_ticks p) (p_tickets p).
Definition pset_pgdir (x : Z) (p : proc) : proc :=
  Proc (p_sz p) x (p_kstack p) (p_state p) (p_pid p) (p_parent p) (p_tf p) (p_context p) (p_chan p) (p_killed p) (p_ofile p) (p_cwd p) (p_name p) (p_inuse p) (p_ticks p) (p_tickets p).
Definition pset_kstack (x : Z) (p : proc) : proc :=
  Proc (p_sz p) (p_pgdir p) x (p_state p) (p_pid p) (p_parent p) (p_tf p) (p_context p) (p_chan p) (p_killed p) (p_ofile p) (p_cwd p) (p_name p) (p_inuse p) (p_ticks p) (p_tickets p).
Definition pset_state (x : procstate) (p : proc) : proc :=
  Proc (p_sz p) (p_pgdir p) (p_kstack p) x (p_pid p) (p_parent p) (p_tf p) (p_context p) (p_chan p) (p_killed p) (p_ofile p) (p_cwd p) (p_name p) (p_inuse p) (p_ticks p) (p_tickets p).
Definition pset_pid (x : Z) (p : proc) : proc :=
  Proc (p_sz p) (p_pgdir p) (p_kstack p) (p_state p) x (p_parent p) (p_tf p) (p_context p) (p_chan p) (p_killed p) (p_ofile p) (p_cwd p) (p_name p) (p_inuse p) (p_ticks p) (p_tickets p).
Definition pset_parent (x : option nat) (p : proc) : proc :=
  Proc (p_sz p) (p_pgdir p) (p_kstack p) (p_state p) (p_pid p) x (p_tf p) (p_context p) (p_chan p) (p_killed p) (p_ofile p) (p_cwd p) (p_name p) (p_inuse p) (p_ticks p) (p_tickets p).
Definition pset_tf (x : Z) (p : proc) : proc :=
  Proc (p_sz p) (p_pgdir p) (p_kstack p) (p_state p) (p_pid p) (p_parent p) x (p_context p) (p_chan p) (p_killed p) (p_ofile p) (p_cwd p) (p_name p) (p_inuse p) (p_ticks p) (p_tickets p).
Definition pset_context (x : Z) (p : proc) : proc :=
  Proc (p_sz p) (p_pgdir p) (p_kstack p) (p_state p) (p_pid p) (p_parent p) (p_tf p) x (p_chan p) (p_killed p) (p_ofile p) (p_cwd p) (p_name p) (p_inuse p) (p_ticks p) (p_tickets p).
Definition pset_chan (x : option channel) (p : proc) : proc :=
  Proc (p_sz p) (p_pgdir p) (p_kstack p) (p_state p) (p_pid p) (p_parent p) (p_tf p) (p_context p) x (p_killed p) (p_ofile p) (p_cwd p) (p_name p) (p_inuse p) (p_ticks p) (p_tickets p).
Definition pset_killed (x : Z) (p : proc) : proc :=
  Proc (p_sz p) (p_pgdir p) (p_kstack p) (p_state p) (p_pid p) (p_parent p) (p_tf p) (p_context p) (p_chan p) x (p_ofile p) (p_cwd p) (p_name p) (p_inuse p) (p_ticks p) (p_tickets p).
Definition pset_ofile (x : list (option nat)) (p : proc) : proc :=
  Proc (p_sz p) (p_pgdir p) (p_kstack p) (p_state p) (p_pid p) (p_parent p) (p_tf p) (p_context p) (p_chan p) (p_killed p) x (p_cwd p) (p_name p) (p_inuse p) (p_ticks p) (p_tickets p).
Definition pset_cwd (x : option nat) (p : proc) : proc :=
  Proc (p_sz p) (p_pgdir p) (p_kstack p) (p_state p) (p_pid p) (p_parent p) (p_tf p) (p_context p) (p_chan p) (p_killed p) (p_ofile p) x (p_name p) (p_inuse p) (p_ticks p) (p_tickets p).
Definition pset_name (x : list Z) (p : proc) : proc :=
  Proc (p_sz p) (p_pgdir p) (p_kstack p) (p_state p) (p_pid p) (p_parent p) (p_tf p) (p_context p) (p_chan p) (p_killed p) (p_ofile p) (p_cwd p) x (p_inuse p) (p_ticks p) (p_tickets p).
Definition pset_inuse (x : Z) (p : proc) : proc :=
  Proc (p_sz p) (p_pgdir p) (p_kstack p) (p_state p) (p_pid p) (p_parent p) (p_tf p) (p_context p) (p_chan p) (p_killed p) (p_ofile p) (p_cwd p) (p_name p) x (p_ticks p) (p_tickets p).
Definition pset_ticks (x : Z) (p : proc) : proc :=
  Proc (p_sz p) (p_pgdir p) (p_kstack p) (p_state p) (p_pid p) (p_parent p) (p_tf p) (p_context p) (p_chan p) (p_killed p) (p_ofile p) (p_cwd p) (p_name p) (p_inuse p) x (p_tickets p).
Definition pset_tickets (x : Z) (p : proc) : proc :=
  Proc (p_sz p) (p_pgdir p) (p_kstack p) (p_state p) (p_pid p) (p_parent p) (p_tf p) (p_context p) (p_chan p) (p_killed p) (p_ofile p) (p_cwd p) (p_name p) (p_inuse p) (p_ticks p) x.

(** [kmem] of kernel/kalloc.c, with the bytes of the pages it manages. *)
Record kmem := Kmem {
  m_freelist : Z;
  m_use_lock : Z;
  m_mem : gmap Z Z
}.

Definition mset_freelist (x : Z) (m : kmem) : kmem :=
  Kmem x (m_use_lock m) (m_mem m).
Definition mset_use_lock (x : Z) (m : kmem) : kmem :=
  Kmem (m_freelist m) x (m_mem m).
Definition mset_mem (x : gmap Z Z) (m : kmem) : kmem :=
  Kmem (m_freelist m) (m_use_lock m) x.

(** An access to an I/O port and its value. *)
Inductive ioev := IoIn (port v : Z) | IoOut (port v : Z).

(** The console: [cons.locking], [panicked], the line buffer [input] with its read, write and edit
    indices and the screen memory [crt] of kernel/console.c; [shift] of kernel/kbd.c; [uart] of
    kernel/uart.c. *)
Record console := Cons {
  c_locking : Z;
  c_panicked : Z;
  c_buf : list Z;
  c_r : Z;
  c_w : Z;
  c_e : Z;
  c_shift : Z;
  c_uart : Z;
  c_crt : list Z
}.

Definition cset_locking (x : Z) (c : console) : console :=
  Cons x (c_panicked c) (c_buf c) (c_r c) (c_w c) (c_e c) (c_shift c) (c_uart c) (c_crt c).
Definition cset_panicked (x : Z) (c : console) : console :=
  Cons (c_locking c) x (c_buf c) (c_r c) (c_w c) (c_e c) (c_shift c) (c_uart c) (c_crt c).
Definition cset_buf (x : list Z) (c : console) : console :=
  Cons (c_locking c) (c_panicked c) x (c_r c) (c_w c) (c_e c) (c_shift c) (c_uart c) (c_crt c).
Definition cset_r (x : Z) (c : console) : console :=
  Cons (c_locking c) (c_panicked c) (c_buf c) x (c_w c) (c_e c) (c_shift c) (c_uart c) (c_crt c).
Definition cset_w (x : Z) (c : console) : console :=
  Cons (c_locking c) (c_panicked c) (c_buf c) (c_r c) x (c_e c) (c_shift c) (c_uart c) (c_crt c).
Definition cset_e (x : Z) (c : console) : console :=
  Cons (c_locking c) (c_panicked c) (c_buf c) (c_r c) (c_w c) x (c_shift c) (c_uart c) (c_crt c).
Definition cset_shift (x : Z) (c : console) : console :=
  Cons (c_locking c) (c_panicked c) (c_buf c) (c_r c) (c_w c) (c_e c) x (c_uart c) (c_crt c).
Definition cset_uart (x : Z) (c : console) : console :=
  Cons (c_locking c) (c_panicked c) (c_buf c) (c_r c) (c_w c) (c_e c) (c_shift c) x (c_crt c).
Definition cset_crt (x : list Z) (c : console) : console :=
  Cons (c_locking c) (c_panicked c) (c_buf c) (c_r c) (c_w c) (c_e c) (c_shift c) (c_uart c) x.

(** [idequeue] and [havedisk1] of kernel/ide.c. *)
Record ide := Ide {
  e_queue : option nat;
  e_havedisk1 : Z
}.

Definition eset_queue (x : option nat) (e : ide) : ide :=
  Ide x (e_havedisk1 e).
Definition eset_havedisk1 (x : Z) (e : ide) : ide :=
  Ide (e_queue e) x.

(** The devices: their drivers' variables and every port access so far, latest first. [v_irqmask] is
    [irqmask] of kernel/picirq.c; [v_lapic] is [lapic] of kernel/lapic.c; [v_ismp], [v_ioapicid] and
    [v_ncpu] are the variables kernel/mp.c and kernel/acpi.c set. *)
Record devs := Devs {
  v_cons : console;
  v_ide : ide;
  v_io : list ioev;
  v_irqmask : Z;
  v_lapic : Z;
  v_ismp : Z;
  v_ioapicid : Z;
  v_ncpu : Z
}.

Definition vset_cons (x : console) (v : devs) : devs :=
  Devs x (v_ide v) (v_io v) (v_irqmask v) (v_lapic v) (v_ismp v) (v_ioapicid v) (v_ncpu v).
Definition vset_ide (x : ide) (v : devs) : devs :=
  Devs (v_cons v) x (v_io v) (v_irqmask v) (v_lapic v) (v_ismp v) (v_ioapicid v) (v_ncpu v).
Definition vset_io (x : list ioev) (v : devs) : devs :=
  Devs (v_cons v) (v_ide v) x (v_irqmask v) (v_lapic v) (v_ismp v) (v_ioapicid v) (v_ncpu v).
Definition vset_irqmask (x : Z) (v : devs) : devs :=
  Devs (v_cons v) (v_ide v) (v_io v) x (v_lapic v) (v_ismp v) (v_ioapicid v) (v_ncpu v).
Definition vset_lapic (x : Z) (v : devs) : devs :=
  Devs (v_cons v) (v_ide v) (v_io v) (v_irqmask v) x (v_ismp v) (v_ioapicid v) (v_ncpu v).
Definition vset_ismp (x : Z) (v : devs) : devs :=
  Devs (v_cons v) (v_ide v) (v_io v) (v_irqmask v) (v_lapic v) x (v_ioapicid v) (v_ncpu v).
Definition vset_ioapicid (x : Z) (v : devs) : devs :=
  Devs (v_cons v) (v_ide v) (v_io v) (v_irqmask v) (v_lapic v) (v_ismp v) x (v_ncpu v).
Definition vset_ncpu (x : Z) (v : devs) : devs :=
  Devs (v_cons v) (v_ide v) (v_io v) (v_irqmask v) (v_lapic v) (v_ismp v) (v_ioapicid v) x.

(** The kernel's globals, as seen by one CPU. *)
Record kstate := KState {
  k_held : list lockid;
  k_bufs : list buf;
  k_disk : disk;
  k_log : log;
  k_inodes : list inode;
  k_files : list file;
  k_pipes : gmap Z pipe;
  k_procs : list proc;
  k_nextpid : Z;
  k_initproc : option nat;
  k_cur : option nat;
  k_ticks : Z;
  k_kmem : kmem;
  k_dev : devs
}.

Definition set_held (x : list lockid) (s : kstate) : kstate :=
  KState x (k_bufs s) (k_disk s) (k_log s) (k_inodes s) (k_files s) (k_pipes s) (k_procs s) (k_nextpid s) (k_initproc s) (k_cur s) (k_ticks s) (k_kmem s) (k_dev s).
Definition set_bufs (x : list buf) (s : kstate) : kstate :=
  KState (k_held s) x (k_disk s) (k_log s) (k_inodes s) (k_files s) (k_pipes s) (k_procs s) (k_nextpid s) (k_initproc s) (k_cur s) (k_ticks s) (k_kmem s) (k_dev s).
Definition set_disk (x : disk) (s : kstate) : kstate :=
  KState (k_held s) (k_bufs s) x (k_log s) (k_inodes s) (k_files s) (k_pipes s) (k_procs s) (k_nextpid s) (k_initproc s) (k_cur s) (k_ticks s) (k_kmem s) (k_dev s).
Definition set_log (x : log) (s : kstate) : kstate :=
  KState (k_held s) (k_bufs s) (k_disk s) x (k_inodes s) (k_files s) (k_pipes s) (k_procs s) (k_nextpid s) (k_initproc s) (k_cur s) (k_ticks s) (k_kmem s) (k_dev s).
Definition set_inodes (x : list inode) (s : kstate) : kstate :=
  KState (k_held s) (k_bufs s) (k_disk s) (k_log s) x (k_files s) (k_pipes s) (k_procs s) (k_nextpid s) (k_initproc s) (k_cur s) (k_ticks s) (k_kmem s) (k_dev s).
Definition set_files (x : list file) (s : kstate) : kstate :=
  KState (k_held s) (k_bufs s) (k_disk s) (k_log s) (k_inodes s) x (k_pipes s) (k_procs s) (k_nextpid s) (k_initproc s) (k_cur s) (k_ticks s) (k_kmem s) (k_dev s).
Definition set_pipes (x : gmap Z pipe) (s : kstate) : kstate :=
  KState (k_held s) (k_bufs s) (k_disk s) (k_log s) (k_inodes s) (k_files s) x (k_procs s) (k_nextpid s) (k_initproc s) (k_cur s) (k_ticks s) (k_kmem s) (k_dev s).
Definition set_procs (x : list proc) (s : kstate) : kstate :=
  KState (k_held s) (k_bufs s) (k_disk s) (k_log s) (k_inodes s) (k_files s) (k_pipes s) x (k_nextpid s) (k_initproc s) (k_cur s) (k_ticks s) (k_kmem s) (k_dev s).
Definition set_nextpid (x : Z) (s : kstate) : kstate :=
  KState (k_held s) (k_bufs s) (k_disk s) (k_log s) (k_inodes s) (k_files s) (k_pipes s) (k_procs s) x (k_initproc s) (k_cur s) (k_ticks s) (k_kmem s) (k_dev s).
Definition set_initproc (x : option nat) (s : kstate) : kstate :=
  KState (k_held s) (k_bufs s) (k_disk s) (k_log s) (k_inodes s) (k_files s) (k_pipes s) (k_procs s) (k_nextpid s) x (k_cur s) (k_ticks s) (k_kmem s) (k_dev s).
Definition set_cur (x : option nat) (s : kstate) : kstate :=
  KState (k_held s) (k_bufs s) (k_disk s) (k_log s) (k_inodes s) (k_files s) (k_pipes s) (k_procs s) (k_nextpid s) (k_initproc s) x (k_ticks s) (k_kmem s) (k_dev s).
Definition set_ticks (x : Z) (s : kstate) : kstate :=
  KState (k_held s) (k_bufs s) (k_disk s) (k_log s) (k_inodes s) (k_files s) (k_pipes s) (k_procs s) (k_nextpid s) (k_initproc s) (k_cur s) x (k_kmem s) (k_dev s).
Definition set_kmem (x : kmem) (s : kstate) : kstate :=
  KState (k_held s) (k_bufs s) (k_disk s) (k_log s) (k_inodes s) (k_files s) (k_pipes s) (k_procs s) (k_nextpid s) (k_initproc s) (k_cur s) (k_ticks s) x (k_dev s).
Definition set_dev (x : devs) (s : kstate) : kstate :=
  KState (k_held s) (k_bufs s) (k_disk s) (k_log s) (k_inodes s) (k_files s) (k_pipes s) (k_procs s) (k_nextpid s) (k_initproc s) (k_cur s) (k_ticks s) (k_kmem s) x.

(** Writing back the held locks that are already there changes nothing. *)
Lemma set_held_held s : set_held (k_held s) s = s.
Proof. by destruct s. Qed.
Lemma set_held_set_held h h' s : set_held h (set_held h' s) = set_held h s.
Proof. done. Qed.

(** Normal form of a sequence of updates: the locks innermost, one update per field. *)
Lemma set_held_bufs h x s : set_held h (set_bufs x s) = set_bufs x (set_held h s).
Proof. done. Qed.
Lemma set_bufs_bufs x y s : set_bufs x (set_bufs y s) = set_bufs x s.
Proof. done. Qed.
Lemma set_bufs_id s : set_bufs (k_bufs s) s = s.
Proof. by destruct s. Qed.
Lemma set_held_disk h x s : set_held h (set_disk x s) = set_disk x (set_held h s).
Proof. done. Qed.
Lemma set_disk_disk x y s : set_disk x (set_disk y s) = set_disk x s.
Proof. done. Qed.
Lemma set_disk_id s : set_disk (k_disk s) s = s.
Proof. by destruct s. Qed.
Lemma set_held_log h x s : set_held h (set_log x s) = set_log x (set_held h s).
Proof. done. Qed.
Lemma set_log_log x y s : set_log x (set_log y s) = set_log x s.
Proof. done. Qed.
Lemma set_log_id s : set_log (k_log s) s = s.
Proof. by destruct s. Qed.
Lemma set_held_inodes h x s : set_held h (set_inodes x s) = set_inodes x (set_held h s).
Proof. done. Qed.
Lemma set_inodes_inodes x y s : set_inodes x (set_inodes y s) = set_inodes x s.
Proof. done. Qed.
Lemma set_inodes_id s : set_inodes (k_inodes s) s = s.
Proof. by destruct s. Qed.
Lemma set_held_files h x s : set_held h (set_files x s) = set_files x (set_held h s).
Proof. done. Qed.
Lemma set_files_files x y s : set_files x (set_files y s) = set_files x s.
Proof. done. Qed.
Lemma set_files_id s : set_files (k_files s) s = s.
Proof. by destruct s. Qed.
Lemma set_held_pipes h x s : set_held h (set_pipes x s) = set_pipes x (set_held h s).
Proof. done. Qed.
Lemma set_pipes_pipes x y s : set_pipes x (set_pipes y s) = set_pipes x s.
Proof. done. Qed.
Lemma set_pipes_id s : set_pipes (k_pipes s) s = s.
Proof. by destruct s. Qed.
Lemma set_held_procs h x s : set_held h (set_procs x s) = set_procs x (set_held h s).
Proof. done. Qed.
Lemma set_procs_procs x y s : set_procs x (set_procs y s) = set_procs x s.
Proof. done. Qed.
Lemma set_procs_id s : set_procs (k_procs s) s = s.
Proof. by destruct s. Qed.
Lemma set_held_nextpid h x s : set_held h (set_nextpid x s) = set_nextpid x (set_held h s).
Proof. done. Qed.
Lemma set_nextpid_nextpid x y s : set_nextpid x (set_nextpid y s) = set_nextpid x s.
Proof. done. Qed.
Lemma set_nextpid_id s : set_nextpid (k_nextpid s) s = s.
Proof. by destruct s. Qed.
Lemma set_held_initproc h x s : set_held h (set_initproc x s) = set_initproc x (set_held h s).
Proof. done. Qed.
Lemma set_initproc_initproc x y s : set_initproc x (set_initproc y s) = set_initproc x s.
Proof. done. Qed.
Lemma set_initproc_id s : set_initproc (k_initproc s) s = s.
Proof. by destruct s. Qed.
Lemma set_held_cur h x s : set_held h (set_cur x s) = set_cur x (set_held h s).
Proof. done. Qed.
Lemma set_cur_cur x y s : set_cur x (set_cur y s) = set_cur x s.
Proof. done. Qed.
Lemma set_cur_id s : set_cur (k_cur s) s = s.
Proof. by destruct s. Qed.
Lemma set_held_ticks h x s : set_held h (set_ticks x s) = set_ticks x (set_held h s).
Proof. done. Qed.
Lemma set_ticks_ticks x y s : set_ticks x (set_ticks y s) = set_ticks x s.
Proof. done. Qed.
Lemma set_ticks_id s : set_ticks (k_ticks s) s = s.
Proof. by destruct s. Qed.
Lemma set_held_kmem h x s : set_held h (set_kmem x s) = set_kmem x (set_held h s).
Proof. done. Qed.
Lemma set_kmem_kmem x y s : set_kmem x (set_kmem y s) = set_kmem x s.
Proof. done. Qed.
Lemma set_kmem_id s : set_kmem (k_kmem s) s = s.
Proof. by destruct s. Qed.
Lemma set_held_dev h x s : set_held h (set_dev x s) = set_dev x (set_held h s).
Proof. done. Qed.
Lemma set_dev_dev x y s : set_dev x (set_dev y s) = set_dev x s.
Proof. done. Qed.
Lemma set_dev_id s : set_dev (k_dev s) s = s.
Proof. by destruct s. Qed.

Create Rewrite HintDb kset.
#[export] Hint Rewrite set_held_held set_held_set_held
  set_held_bufs set_bufs_bufs set_bufs_id set_held_disk set_disk_disk set_disk_id set_held_log 
  set_log_log set_log_id set_held_inodes set_inodes_inodes set_inodes_id set_held_files 
  set_files_files set_files_id set_held_pipes set_pipes_pipes set_pipes_id set_held_procs 
  set_procs_procs set_procs_id set_held_nextpid set_nextpid_nextpid set_nextpid_id 
  set_held_initproc set_initproc_initproc set_initproc_id set_held_cur set_cur_cur set_cur_id 
  set_held_ticks set_ticks_ticks set_ticks_id set_held_kmem set_kmem_kmem set_kmem_id
  set_held_dev set_dev_dev set_dev_id : kset.

(** ** The kernel's globals at boot: zero-initialised memory *)

Definition zero_block : list Z := replicate 512 0.
Definition zero_buf : buf := Buf 0 0 0 0 0 None zero_block.
Definition zero_log : log := Log 0 0 0 0 0 (replicate (Z.to_nat LOGSIZE) 0).
Definition zero_inode : inode := Inode 0 0 0 0 0 0 0 0 0 (replicate 13 0).
Definition zero_proc : proc :=
  Proc 0 0 0 UNUSED 0 None 0 0 None 0 (replicate NOFILE None) None (replicate 16 0) 0 0 0.
Definition zero_file : file := File FD_NONE 0 false false 0 None 0.

Definition zero_devs : devs :=
  Devs (Cons 0 0 (replicate 128 0) 0 0 0 0 0 (replicate 2000 0)) (Ide None 0) [] 65531 0 0 0 0.

Definition boot_state (d : disk) : kstate :=
  KState [] (replicate (S NBUF) zero_buf) d zero_log (replicate NINODE zero_inode)
    (replicate NFILE zero_file) ∅ (replicate NPROC zero_proc) 1 None None 0 (Kmem 0 0 ∅) zero_devs.
