(* ===== verification/Monad.v ===== *)
(** * The kernel monad

    Kernel code runs on one CPU and either returns, or stops in one of the ways
    kernel code stops: [panic], giving up the CPU in [sched], an access outside
    an object (undefined in C), or a loop that exhausts its fuel. *)

From S2P Require Import Prelude Types.

(** [Sched s] is control passed to the scheduler by [sched()] with the kernel in
    state [s]: what the caller does next, it does in a state the other processes
    have changed. *)
Inductive outcome (S A : Type) :=
| Ret (a : A) (s : S)
| Panic (msg : string) (s : S)
| Sched (s : S)
| Fault (s : S)
| NoFuel.
Arguments Ret {S A} a s.
Arguments Panic {S A} msg s.
Arguments Sched {S A} s.
Arguments Fault {S A} s.
Arguments NoFuel {S A}.

Definition M (S A : Type) : Type := S -> outcome S A.

Definition ret {S A} (a : A) : M S A := fun s => Ret a s.
Definition bind {S A B} (m : M S A) (f : A -> M S B) : M S B :=
  fun s => match m s with
           | Ret a s' => f a s'
           | Panic msg s' => Panic msg s'
           | Sched s' => Sched s'
           | Fault s' => Fault s'
           | NoFuel => NoFuel
           end.
Definition panic {S A} (msg : string) : M S A := fun s => Panic msg s.
Definition fault {S A} : M S A := fun s => Fault s.
Definition nofuel {S A} : M S A := fun _ => NoFuel.
Definition gets {S A} (f : S -> A) : M S A := fun s => Ret (f s) s.
Definition modify {S} (f : S -> S) : M S unit := fun s => Ret tt (f s).

Declare Scope kernel_scope.
Delimit Scope kernel_scope with kernel.
Notation "x <- m ;; k" := (bind m (fun x => k))
  (at level 100, m at next level, right associativity) : kernel_scope.
Notation "'let*' p := m 'in' k" := (bind m (fun x => match x with p => k end))
  (at level 100, p pattern, m at level 99, k at level 100, right associativity) : kernel_scope.
Notation "m ;; k" := (bind m (fun _ => k))
  (at level 100, right associativity) : kernel_scope.
Notation "'when' c 'do' m" := (if c then m else ret tt)
  (at level 60, c at level 200, m at level 60) : kernel_scope.
#[global] Open Scope kernel_scope.

(** Reading element [i] of a table; out of range is a fault. *)
Definition nth_or_fault {S A} (get : S -> list A) (i : nat) : M S A :=
  fun s => match get s !! i with Some x => Ret x s | None => Fault s end.

(** [for (x in l) f x], in order. *)
Fixpoint foreach {S A} (f : A -> M S unit) (l : list A) : M S unit :=
  match l with
  | [] => ret tt
  | x :: l' => f x ;; foreach f l'
  end.

(** ** Total correctness

    [runs m s Q]: from [s], [m] returns, with a result and a state in [Q]. *)
Definition runs {S A} (m : M S A) (s : S) (Q : A -> S -> Prop) : Prop :=
  exists a s', m s = Ret a s' /\ Q a s'.

Section runs.
Context {S : Type}.

Lemma runs_ret {A} (a : A) (s : S) Q : Q a s -> runs (ret a) s Q.
Proof. intros H. by exists a, s. Qed.

Lemma runs_bind {A B} (m : M S A) (f : A -> M S B) s Q :
  runs m s (fun a s' => runs (f a) s' Q) -> runs (bind m f) s Q.
Proof. intros (a & s' & Hm & Hf). unfold runs, bind. by rewrite Hm. Qed.

Lemma runs_mono {A} (m : M S A) s (P Q : A -> S -> Prop) :
  runs m s P -> (forall a s', P a s' -> Q a s') -> runs m s Q.
Proof. intros (a & s' & Hm & HP) HPQ. exists a, s'. auto. Qed.

Lemma runs_step {A B} (m : M S A) (f : A -> M S B) s P Q :
  runs m s P -> (forall a s', P a s' -> runs (f a) s' Q) -> runs (bind m f) s Q.
Proof. intros Hm Hf. apply runs_bind. by eapply runs_mono. Qed.

Lemma runs_eq {A B} (m : M S A) (f : A -> M S B) a s s' Q :
  m s = Ret a s' -> runs (f a) s' Q -> runs (bind m f) s Q.
Proof. intros Hm Hf. apply runs_bind. by exists a, s'. Qed.

Lemma runs_gets {A} (f : S -> A) s Q : Q (f s) s -> runs (gets f) s Q.
Proof. intros H. by exists (f s), s. Qed.

Lemma runs_modify (f : S -> S) s (Q : unit -> S -> Prop) : Q tt (f s) -> runs (modify f) s Q.
Proof. intros H. by exists tt, (f s). Qed.

Lemma runs_nth {A} (get : S -> list A) i x s (Q : A -> S -> Prop) :
  get s !! i = Some x -> Q x s -> runs (nth_or_fault get i) s Q.
Proof. intros Hi HQ. exists x, s. unfold nth_or_fault. by rewrite Hi. Qed.

Lemma runs_when (c : bool) (m : M S unit) s Q :
  (c = true -> runs m s Q) -> (c = false -> Q tt s) ->
  runs (when c do m) s Q.
Proof. destruct c; intros H1 H2; [auto|]. apply runs_ret; auto. Qed.

Lemma runs_if {A} (c : bool) (m1 m2 : M S A) s Q :
  (c = true -> runs m1 s Q) -> (c = false -> runs m2 s Q) ->
  runs (if c then m1 else m2) s Q.
Proof. destruct c; auto. Qed.

Lemma runs_if_true {A} (c : bool) (m1 m2 : M S A) s Q :
  c = true -> runs m1 s Q -> runs (if c then m1 else m2) s Q.
Proof. by intros ->. Qed.

Lemma runs_if_false {A} (c : bool) (m1 m2 : M S A) s Q :
  c = false -> runs m2 s Q -> runs (if c then m1 else m2) s Q.
Proof. by intros ->. Qed.

Lemma runs_assoc {A B C} (m : M S A) (f : A -> M S B) (g : B -> M S C) s Q :
  runs (bind m (fun a => bind (f a) g)) s Q -> runs (bind (bind m f) g) s Q.
Proof. unfold runs, bind. by destruct (m s). Qed.

Lemma runs_bind_if {A B} (c : bool) (m1 m2 : M S A) (f : A -> M S B) s Q :
  runs (if c then bind m1 f else bind m2 f) s Q -> runs (bind (if c then m1 else m2) f) s Q.
Proof. by destruct c. Qed.

Lemma runs_eq_last {A} (m : M S A) a s s' (Q : A -> S -> Prop) :
  m s = Ret a s' -> Q a s' -> runs m s Q.
Proof. intros Hm HQ. by exists a, s'. Qed.
End runs.

(** From [s], [m] panics with [msg]. *)
Definition panics {S A} (m : M S A) (s : S) (msg : string) : Prop :=
  exists s', m s = Panic msg s'.

Section panics.
Context {S : Type}.

Lemma panics_step {A B} (m : M S A) (f : A -> M S B) s P msg :
  runs m s P -> (forall a s', P a s' -> panics (f a) s' msg) -> panics (bind m f) s msg.
Proof.
  intros (a & s' & Hm & HP) Hf. destruct (Hf a s' HP) as [s2 Hs2].
  exists s2. unfold bind. by rewrite Hm.
Qed.

Lemma panics_bind {A B} (m : M S A) (f : A -> M S B) s msg :
  panics m s msg -> panics (bind m f) s msg.
Proof. intros [s' Hm]. exists s'. unfold bind. by rewrite Hm. Qed.

Lemma panics_now {A} (s : S) msg : panics (panic (A := A) msg) s msg.
Proof. by exists s. Qed.
End panics.

(** One step of a [runs] goal. *)
Ltac rstep :=
  lazymatch goal with
  | |- runs (bind (bind _ _) _) _ _ => apply runs_assoc
  | |- runs (bind (if _ then _ else _) _) _ _ => apply runs_bind_if
  | |- runs (bind (ret _) _) _ _ => apply runs_bind, runs_ret
  | |- runs (bind (gets _) _) _ _ => apply runs_bind, runs_gets
  | |- runs (bind (modify _) _) _ _ => apply runs_bind, runs_modify
  | |- runs (bind (nth_or_fault _ _) _) _ _ => eapply runs_bind, runs_nth; [eassumption|]
  | |- runs (ret _) _ _ => apply runs_ret
  | |- runs (modify _) _ _ => apply runs_modify
  | |- runs (gets _) _ _ => apply runs_gets
  | |- runs (match ?x with _ => _ end) _ _ =>
      match goal with
      | H : x = _ |- _ => rewrite H; cbv beta iota
      end
  end.

Abbreviation K := (M kstate).
