(* ===== verification/Sched.v ===== *)
(** * Sleeping, waking and giving up the CPU (kernel/spinlock.c, kernel/proc.c)

    [k_held] is the list of the spinlocks the CPU holds, latest first: [acquire]
    and [release] keep it (Spinlock.v relates it to the lock words and the
    interrupt state). The part of kernel/proc.c that every other component calls
    is here; process creation and exit are in Proc.v. *)

From S2P Require Import Prelude Types Monad.

(** ** Spinlocks *)

Definition holding (l : lockid) (s : kstate) : bool := bool_decide (l ∈ k_held s).

Definition acquire (l : lockid) : K unit :=
  fun s => if holding l s then Panic "acquire" s
           else Ret tt (set_held (l :: k_held s) s).

Definition unlock (l : lockid) (h : list lockid) : list lockid :=
  filter (fun l' => l' <> l) h.

Definition release (l : lockid) : K unit :=
  fun s => if holding l s then Ret tt (set_held (unlock l (k_held s)) s)
           else Panic "release" s.

(** [initlock] leaves the lock free. *)
Definition initlock (l : lockid) : K unit :=
  modify (fun s => set_held (unlock l (k_held s)) s).

Lemma acquire_free l s :
  l ∉ k_held s -> acquire l s = Ret tt (set_held (l :: k_held s) s).
Proof. intros H. unfold acquire, holding. by rewrite bool_decide_eq_false_2. Qed.

Lemma unlock_notin l h : l ∉ h -> unlock l h = h.
Proof.
  unfold unlock. induction h as [|x h IH]; intros Hn; [done|].
  rewrite filter_cons_True by set_solver. f_equal. apply IH. set_solver.
Qed.

Lemma unlock_cons l h : l ∉ h -> unlock l (l :: h) = h.
Proof.
  intros H. unfold unlock. rewrite filter_cons_False by (intros ?; done).
  by apply unlock_notin.
Qed.

Lemma release_top l h s :
  k_held s = l :: h -> l ∉ h -> release l s = Ret tt (set_held h s).
Proof.
  intros Hh Hn. unfold release, holding. rewrite Hh, bool_decide_eq_true_2 by set_solver.
  by rewrite unlock_cons.
Qed.

(** ** wakeup *)

(** [wakeup1]: every process sleeping on [c] becomes RUNNABLE. *)
Definition wake (c : channel) (p : proc) : proc :=
  if bool_decide (p_state p = SLEEPING) && bool_decide (p_chan p = Some c)
  then pset_state RUNNABLE p else p.

Definition wakeup1 (c : channel) : K unit :=
  modify (fun s => set_procs (map (wake c) (k_procs s)) s).

Definition wakeup (c : channel) : K unit :=
  acquire LPtable ;; wakeup1 c ;; release LPtable.

Lemma wakeup_eq c s :
  LPtable ∉ k_held s -> wakeup c s = Ret tt (set_procs (map (wake c) (k_procs s)) s).
Proof.
  intros H. unfold wakeup, bind. rewrite acquire_free by done.
  unfold wakeup1, modify. rewrite (release_top _ (k_held s)) by done.
  by destruct s.
Qed.

(** ** sched and sleep *)

Definition cur_proc : K nat :=
  fun s => match k_cur s with Some i => Ret i s | None => Fault s end.

Definition upd_proc (i : nat) (f : proc -> proc) : K unit :=
  fun s => match k_procs s !! i with
           | Some p => Ret tt (set_procs (<[i := f p]> (k_procs s)) s)
           | None => Fault s
           end.

(** [swtch(&proc->context, cpu->scheduler)]: control leaves this process. *)
Definition swtch_to_scheduler : K unit := fun s => Sched s.

Definition sched : K unit :=
  fun s =>
    if negb (holding LPtable s) then Panic "sched ptable.lock" s
    else if negb (length (k_held s) =? 1)%nat then Panic "sched locks" s
    else (i <- cur_proc ;;
          p <- nth_or_fault k_procs i ;;
          if bool_decide (p_state p = RUNNING) then panic "sched running"
          else swtch_to_scheduler) s.

Definition yield : K unit :=
  acquire LPtable ;;
  i <- cur_proc ;;
  upd_proc i (pset_state RUNNABLE) ;;
  sched ;;
  release LPtable.

Definition sleep (c : channel) (lk : lockid) : K unit :=
  fun s => match k_cur s with
  | None => Panic "sleep" s
  | Some i =>
      ((if bool_decide (lk <> LPtable) then acquire LPtable ;; release lk else ret tt) ;;
       upd_proc i (fun p => pset_state SLEEPING (pset_chan (Some c) p)) ;;
       sched ;;
       upd_proc i (pset_chan None) ;;
       (if bool_decide (lk <> LPtable) then release LPtable ;; acquire lk else ret tt)) s
  end.

(** [sleep] with one lock held: the lock is released under [ptable.lock], the process
    is marked SLEEPING on the channel, and control goes to the scheduler. *)
Definition asleep (c : channel) (p : proc) : proc := pset_state SLEEPING (pset_chan (Some c) p).

Lemma sleep_eq c lk s i p :
  k_cur s = Some i -> k_procs s !! i = Some p -> k_held s = [lk] -> lk <> LPtable ->
  sleep c lk s = Sched (set_held [LPtable] (set_procs (<[i := asleep c p]> (k_procs s)) s)).
Proof.
  intros Hcur Hp Hh Hlk. unfold sleep. rewrite Hcur. unfold bind at 1.
  rewrite bool_decide_eq_true_2 by done. unfold bind at 1.
  rewrite acquire_free by (rewrite Hh; set_solver). rewrite Hh.
  unfold release, holding. simpl. rewrite bool_decide_eq_true_2 by set_solver.
  replace (unlock lk [LPtable; lk]) with [LPtable].
  2:{ unfold unlock. rewrite filter_cons_True, filter_cons_False by (intros ?; done). done. }
  unfold bind at 1, upd_proc. simpl. rewrite Hp. unfold bind at 1, sched, holding. simpl.
  unfold bind, cur_proc, nth_or_fault. simpl. rewrite Hcur.
  cbn [k_procs set_procs]. rewrite list_lookup_insert_eq by by eapply lookup_lt_Some.
  rewrite bool_decide_eq_false_2 by done. by destruct s.
Qed.

(** ** What other components see of [wakeup]

    A call that only wakes processes leaves every process as it was, except that
    a sleeping one may have become runnable. *)
Definition woken (p p' : proc) : Prop :=
  p' = p \/ (p_state p = SLEEPING /\ p' = pset_state RUNNABLE p).

Definition procs_woken : relation (list proc) := Forall2 woken.

#[export] Instance woken_preorder : PreOrder woken.
Proof.
  split; [by left|]. intros p q r [->|[Hp ->]] [->|[Hq ->]]; unfold woken; auto.
Qed.

#[export] Instance procs_woken_preorder : PreOrder procs_woken.
Proof.
  split.
  - intros l. unfold procs_woken. induction l; constructor; [reflexivity|done].
  - intros l1 l2 l3 H12. revert l3. induction H12 as [|x y l1 l2 Hxy H12 IH]; intros l3 H23.
    + inversion H23. constructor.
    + inversion H23 as [|? z ? l3' Hyz H23']; subst. constructor; [by etrans|]. by apply IH.
Qed.

Lemma wake_woken c ps : procs_woken ps (map (wake c) ps).
Proof.
  unfold procs_woken. induction ps as [|p ps IH]; simpl; constructor; [|done].
  unfold wake, woken. destruct (bool_decide_reflect (p_state p = SLEEPING)); simpl; [|by left].
  destruct (bool_decide _); [by right|by left].
Qed.
