(* ===== verification/Ring.v ===== *)
(** * Doubly linked rings

    The buffer cache threads its buffers on a circular list through [prev] and
    [next] fields. [chain N P p l e] says that following [N] from [p] visits the
    nodes of [l] and then [e], and that [P] goes back the same way. *)

From S2P Require Import Prelude.

Section chain.
Implicit Types N P : nat -> option nat.
Implicit Types l : list nat.

Definition linked N P (a b : nat) : Prop := N a = Some b /\ P b = Some a.

Fixpoint chain N P (p : nat) l (e : nat) : Prop :=
  match l with
  | [] => linked N P p e
  | x :: l' => linked N P p x /\ chain N P x l' e
  end.

(** First node of the list [l] that ends at [e], and last node of the one that starts at [p]. *)
Definition first l (e : nat) : nat := match l with [] => e | x :: _ => x end.
Definition final (p : nat) l : nat := default p (last l).

Lemma chain_app N P p l1 x l2 e :
  chain N P p (l1 ++ x :: l2) e <-> chain N P p l1 x /\ chain N P x l2 e.
Proof. revert p. induction l1 as [|y l1 IH]; intros p; simpl; [done|]. rewrite IH. tauto. Qed.

Lemma chain_first N P p l e : chain N P p l e -> N p = Some (first l e).
Proof. destruct l; simpl; unfold linked; tauto. Qed.

Lemma chain_final N P p l e : chain N P p l e -> P e = Some (final p l).
Proof.
  unfold final. revert p. induction l as [|x l IH]; intros p; simpl.
  - by intros [_ ?].
  - intros [_ H]. rewrite (IH _ H). f_equal. rewrite last_cons. by destruct (last l).
Qed.

Lemma chain_agree N P N' P' p l e :
  (forall a, a = p \/ a ∈ l -> N' a = N a) ->
  (forall b, b = e \/ b ∈ l -> P' b = P b) ->
  chain N P p l e -> chain N' P' p l e.
Proof.
  revert p. induction l as [|x l IH]; intros p HN HP; simpl; unfold linked.
  - rewrite HN, HP by auto. done.
  - rewrite HN, HP by set_solver. intros [? H]. split; [done|].
    apply IH; [| |done]; intros; [apply HN|apply HP]; set_solver.
Qed.

Definition fupd (f : nat -> option nat) (i v : nat) : nat -> option nat :=
  fun j => if decide (j = i) then Some v else f j.

Lemma fupd_eq f i v : fupd f i v i = Some v.
Proof. unfold fupd. by rewrite decide_True. Qed.
Lemma fupd_ne f i v j : j <> i -> fupd f i v j = f j.
Proof. intros. unfold fupd. by rewrite decide_False. Qed.

Lemma final_cons p x l : final p (x :: l) = final x l.
Proof. unfold final. rewrite last_cons. by destruct (last l). Qed.

Lemma final_in p l : final p l = p \/ final p l ∈ l.
Proof.
  revert p. induction l as [|x l IH]; intros p; [by left|].
  rewrite final_cons. destruct (IH x) as [->|]; set_solver.
Qed.
Lemma first_in l e : first l e = e \/ first l e ∈ l.
Proof. destruct l; simpl; set_solver. Qed.

(** Redirecting the last link of a chain to another end. *)
Lemma chain_retarget N P p l e e' :
  e' ∉ l -> NoDup (p :: l) -> chain N P p l e ->
  chain (fupd N (final p l) e') (fupd P e' (final p l)) p l e'.
Proof.
  revert p. induction l as [|x l IH]; intros p He Hnd; simpl.
  - intros _. unfold linked, final; simpl. by rewrite !fupd_eq.
  - intros [[HN HP] H]. rewrite final_cons. apply NoDup_cons in Hnd as [Hp Hnd].
    split.
    + unfold linked. rewrite (fupd_ne P) by set_solver. rewrite fupd_ne; [done|].
      destruct (final_in x l) as [->|]; set_solver.
    + apply IH; [set_solver|done|done].
Qed.

(** Taking node [x] out of a ring. *)
Lemma chain_unlink N P h l1 x l2 :
  NoDup (h :: l1 ++ x :: l2) -> chain N P h (l1 ++ x :: l2) h ->
  let a := final h l1 in let b := first l2 h in
  chain (fupd N a b) (fupd P b a) h (l1 ++ l2) h.
Proof.
  intros Hnd Hc a b. apply chain_app in Hc as [H1 H2].
  assert (NoDup (h :: l1) /\ x ∉ l1 /\ x ∉ l2 /\ h <> x /\ h ∉ l2 /\
          (forall z, z ∈ l1 -> z ∉ l2)) as (Hn1 & Hx1 & Hx2 & Hhx & Hh2 & Hdis).
  { apply NoDup_cons in Hnd as [Hh Hnd]. apply NoDup_app in Hnd as (Hn1 & Hd & Hn2).
    apply NoDup_cons in Hn2 as [Hx Hn2]. split_and!; [|set_solver..].
    constructor; [set_solver|done]. }
  destruct l2 as [|y l2].
  - subst a b. simpl. rewrite app_nil_r. apply (chain_retarget N P h l1 x h); [|done|done].
    inversion Hn1; done.
  - simpl in b. subst b. destruct H2 as [_ H2]. apply chain_app. split.
    + apply (chain_retarget N P h l1 x y); [|done|done]. intros Hy. apply (Hdis y); set_solver.
    + eapply chain_agree; [| |exact H2].
      * intros z Hz. apply fupd_ne. unfold a.
        destruct (final_in h l1) as [->|Hin]; [set_solver|].
        intros ->. apply (Hdis _ Hin). set_solver.
      * intros z Hz. apply fupd_ne. intros ->.
        apply NoDup_cons in Hnd as [Hh Hnd].
        apply NoDup_app in Hnd as (_ & _ & Hnd). apply NoDup_cons in Hnd as [_ Hnd].
        apply NoDup_cons in Hnd as [Hy _]. set_solver.
Qed.

(** Putting node [x] at the front of a ring. *)
Lemma chain_push N P h x l :
  NoDup (h :: x :: l) -> chain N P h l h ->
  let f := first l h in
  chain (fupd (fupd N x f) h x) (fupd (fupd P x h) f x) h (x :: l) h.
Proof.
  intros Hnd Hc f. apply NoDup_cons in Hnd as [Hh Hnd]. apply NoDup_cons in Hnd as [Hx Hnd].
  assert (h <> x) as Hhx by set_solver. assert (f <> x) as Hfx.
  { unfold f. destruct (first_in l h) as [->|]; [done|]. set_solver. }
  simpl. split.
  - split; [apply fupd_eq|]. rewrite fupd_ne by done. apply fupd_eq.
  - destruct l as [|y l]; simpl in f; subst f; simpl.
    + split; [|apply fupd_eq]. rewrite fupd_ne by done. apply fupd_eq.
    + destruct Hc as [_ Hc]. split.
      * split; [|apply fupd_eq]. rewrite fupd_ne by done. apply fupd_eq.
      * eapply chain_agree; [| |exact Hc].
        -- intros z Hz. rewrite !fupd_ne; set_solver.
        -- intros z Hz. apply NoDup_cons in Hnd as [Hy Hnd].
           rewrite !fupd_ne; set_solver.
Qed.
End chain.
