(* ===== verification/Bio.v ===== *)
(** * The buffer cache (kernel/bio.c) over a disk driver

    [k_bufs] is [bcache.buf] followed by [bcache.head]. [DiskDriver] is what the
    cache relies on of [iderw], the contract that kernel/ide.c and
    kernel/memide.c state in the same words above their [iderw]. *)

From S2P Require Import Prelude Types Monad Sched Ring.

(** Index of [bcache.head] in [k_bufs]. *)
Definition HEAD : nat := NBUF.

Definition getb (i : nat) : K buf := nth_or_fault k_bufs i.
Definition updb (i : nat) (f : buf -> buf) : K unit :=
  fun s => match k_bufs s !! i with
           | Some _ => Ret tt (set_bufs (alter f i (k_bufs s)) s)
           | None => Fault s
           end.

Definition busy (b : buf) : bool := has (b_flags b) B_BUSY.
Definition valid (b : buf) : bool := has (b_flags b) B_VALID.
Definition dirty (b : buf) : bool := has (b_flags b) B_DIRTY.

(** ** The disk *)

Definition dblk (d : disk) (sec : Z) : list Z := default zero_block (d_blocks d !! sec).
Definition disk_write (d : disk) (sec : Z) (blk : list Z) : disk :=
  Disk (<[sec := blk]> (d_blocks d)) (d_size d) (d_writes d ++ [(sec, blk)]).

(** What a driver does to buffer [b]: "If B_DIRTY is set, write buf to disk, clear
    B_DIRTY, set B_VALID. Else if B_VALID is not set, read buf from disk, set B_VALID." *)
Record synced (d : disk) (b : buf) (d' : disk) (b' : buf) : Prop := {
  sync_busy : busy b' = busy b;
  sync_valid : valid b' = true;
  sync_dirty : dirty b' = false;
  sync_id : b_dev b' = b_dev b /\ b_sector b' = b_sector b /\
            b_prev b' = b_prev b /\ b_next b' = b_next b;
  sync_data : if dirty b then b_data b' = b_data b /\ d' = disk_write d (b_sector b) (b_data b)
              else b_data b' = dblk d (b_sector b) /\ d' = d
}.

Class DiskDriver := {
  iderw : nat -> K unit;
  iderw_sync : forall s i b,
    k_bufs s !! i = Some b ->
    busy b = true -> negb (valid b) || dirty b = true ->
    b_dev b = ROOTDEV -> 0 <= b_sector b < d_size (k_disk s) ->
    LIde ∉ k_held s -> LPtable ∉ k_held s ->
    runs (iderw i) s (fun _ s' => exists b' d' ps,
      s' = set_procs ps (set_disk d' (set_bufs (<[i := b']> (k_bufs s)) s))
      /\ synced (k_disk s) b d' b' /\ procs_woken (k_procs s) ps)
}.

(** ** bio.c *)

(** [binit]: the loop body for buffer [i], and the whole function. *)
Definition binit_buf (i : nat) : K unit :=
  h <- getb HEAD ;;
  updb i (bset_next (b_next h)) ;;
  updb i (bset_prev HEAD) ;;
  updb i (bset_dev (u32 (-1))) ;;
  h <- getb HEAD ;;
  updb (b_next h) (bset_prev i) ;;
  updb HEAD (bset_next i).

Definition binit : K unit :=
  initlock LBcache ;;
  updb HEAD (bset_prev HEAD) ;;
  updb HEAD (bset_next HEAD) ;;
  foreach binit_buf (seq 0 NBUF).

(** [bget]'s first loop, from node [i]: is the sector cached? *)
Fixpoint bget_find (fuel : nat) (dev sector : Z) (i : nat) : K (option nat) :=
  match fuel with
  | O => nofuel
  | S fuel =>
      if (i =? HEAD)%nat then ret None else
      b <- getb i ;;
      if (b_dev b =? dev) && (b_sector b =? sector) then ret (Some i)
      else bget_find fuel dev sector (b_next b)
  end.

(** [bget]'s second loop, from node [i]: the least recently used clean buffer. *)
Fixpoint bget_victim (fuel : nat) (i : nat) : K (option nat) :=
  match fuel with
  | O => nofuel
  | S fuel =>
      if (i =? HEAD)%nat then ret None else
      b <- getb i ;;
      if negb (busy b) && negb (dirty b) then ret (Some i)
      else bget_victim fuel (b_prev b)
  end.

Definition recycle (dev sector : Z) (b : buf) : buf :=
  bset_flags B_BUSY (bset_sector sector (bset_dev dev b)).

(** [goto loop] after [sleep] runs the body again; [retries] bounds how often. *)
Fixpoint bget_loop (retries : nat) (dev sector : Z) : K nat :=
  match retries with
  | O => nofuel
  | S retries =>
      h <- getb HEAD ;;
      o <- bget_find (S NBUF) dev sector (b_next h) ;;
      match o with
      | Some i =>
          b <- getb i ;;
          if negb (busy b) then
            updb i (fun b => bset_flags (set_flag (b_flags b) B_BUSY) b) ;;
            release LBcache ;;
            ret i
          else
            sleep (ChBuf i) LBcache ;;
            bget_loop retries dev sector
      | None =>
          h <- getb HEAD ;;
          o <- bget_victim (S NBUF) (b_prev h) ;;
          match o with
          | Some i =>
              updb i (recycle dev sector) ;;
              release LBcache ;;
              ret i
          | None => panic "bget: no buffers"
          end
      end
  end.

Definition bget (dev sector : Z) : K nat :=
  acquire LBcache ;; bget_loop 2 dev sector.

Section bio.
Context {drv : DiskDriver}.

Definition bread (dev sector : Z) : K nat :=
  i <- bget dev sector ;;
  b <- getb i ;;
  (when negb (valid b) do iderw i) ;;
  ret i.

Definition bwrite (i : nat) : K unit :=
  b <- getb i ;;
  if negb (busy b) then panic "bwrite" else
  updb i (fun b => bset_flags (set_flag (b_flags b) B_DIRTY) b) ;;
  iderw i.
End bio.

Definition brelse (i : nat) : K unit :=
  b <- getb i ;;
  if negb (busy b) then panic "brelse" else
  acquire LBcache ;;
  b <- getb i ;;
  updb (b_next b) (bset_prev (b_prev b)) ;;
  b <- getb i ;;
  updb (b_prev b) (bset_next (b_next b)) ;;
  h <- getb HEAD ;;
  updb i (bset_next (b_next h)) ;;
  updb i (bset_prev HEAD) ;;
  h <- getb HEAD ;;
  updb (b_next h) (bset_prev i) ;;
  updb HEAD (bset_next i) ;;
  updb i (fun b => bset_flags (clr_flag (b_flags b) B_BUSY) b) ;;
  wakeup (ChBuf i) ;;
  release LBcache.

(** ** kernel/memide.c: the driver whose disk is in memory *)

Definition memide_iderw (i : nat) : K unit :=
  b <- getb i ;;
  if negb (busy b) then panic "iderw: buf not busy" else
  if Z.land (b_flags b) (Z.lor B_VALID B_DIRTY) =? B_VALID then panic "iderw: nothing to do" else
  if negb (b_dev b =? 1) then panic "iderw: request not for disk 1" else
  n <- gets (fun s => d_size (k_disk s)) ;;
  if n <=? b_sector b then panic "iderw: sector out of range" else
  (if dirty b then
     updb i (fun b => bset_flags (clr_flag (b_flags b) B_DIRTY) b) ;;
     modify (fun s => set_disk (disk_write (k_disk s) (b_sector b) (b_data b)) s)
   else
     d <- gets (fun s => dblk (k_disk s) (b_sector b)) ;;
     updb i (bset_data d)) ;;
  updb i (fun b => bset_flags (set_flag (b_flags b) B_VALID) b).

(** ** Flags *)

Lemma busy_set_busy b : busy (bset_flags (set_flag (b_flags b) B_BUSY) b) = true.
Proof. apply (has_set_same _ 0). lia. Qed.
Lemma valid_set_busy b : valid (bset_flags (set_flag (b_flags b) B_BUSY) b) = valid b.
Proof. apply (has_set_other _ 0 1); lia. Qed.
Lemma dirty_set_busy b : dirty (bset_flags (set_flag (b_flags b) B_BUSY) b) = dirty b.
Proof. apply (has_set_other _ 0 2); lia. Qed.
Lemma busy_set_valid b : busy (bset_flags (set_flag (b_flags b) B_VALID) b) = busy b.
Proof. apply (has_set_other _ 1 0); lia. Qed.
Lemma valid_set_valid b : valid (bset_flags (set_flag (b_flags b) B_VALID) b) = true.
Proof. apply (has_set_same _ 1); lia. Qed.
Lemma dirty_set_valid b : dirty (bset_flags (set_flag (b_flags b) B_VALID) b) = dirty b.
Proof. apply (has_set_other _ 1 2); lia. Qed.
Lemma busy_set_dirty b : busy (bset_flags (set_flag (b_flags b) B_DIRTY) b) = busy b.
Proof. apply (has_set_other _ 2 0); lia. Qed.
Lemma valid_set_dirty b : valid (bset_flags (set_flag (b_flags b) B_DIRTY) b) = valid b.
Proof. apply (has_set_other _ 2 1); lia. Qed.
Lemma dirty_set_dirty b : dirty (bset_flags (set_flag (b_flags b) B_DIRTY) b) = true.
Proof. apply (has_set_same _ 2); lia. Qed.
Lemma busy_clr_busy b : busy (bset_flags (clr_flag (b_flags b) B_BUSY) b) = false.
Proof. apply (has_clr_same _ 0); lia. Qed.
Lemma valid_clr_busy b : valid (bset_flags (clr_flag (b_flags b) B_BUSY) b) = valid b.
Proof. apply (has_clr_other _ 0 1); lia. Qed.
Lemma dirty_clr_busy b : dirty (bset_flags (clr_flag (b_flags b) B_BUSY) b) = dirty b.
Proof. apply (has_clr_other _ 0 2); lia. Qed.
Lemma busy_clr_dirty b : busy (bset_flags (clr_flag (b_flags b) B_DIRTY) b) = busy b.
Proof. apply (has_clr_other _ 2 0); lia. Qed.
Lemma valid_clr_dirty b : valid (bset_flags (clr_flag (b_flags b) B_DIRTY) b) = valid b.
Proof. apply (has_clr_other _ 2 1); lia. Qed.
Lemma dirty_clr_dirty b : dirty (bset_flags (clr_flag (b_flags b) B_DIRTY) b) = false.
Proof. apply (has_clr_same _ 2); lia. Qed.

Create Rewrite HintDb bflags.
#[export] Hint Rewrite busy_set_busy valid_set_busy dirty_set_busy busy_set_valid
  valid_set_valid dirty_set_valid busy_set_dirty valid_set_dirty dirty_set_dirty
  busy_clr_busy valid_clr_busy dirty_clr_busy busy_clr_dirty valid_clr_dirty
  dirty_clr_dirty : bflags.

(** [(flags & (B_VALID|B_DIRTY)) == B_VALID]. *)
Lemma clean_flags b :
  (Z.land (b_flags b) (Z.lor B_VALID B_DIRTY) =? B_VALID) = valid b && negb (dirty b).
Proof.
  unfold valid, dirty. change B_VALID with (2 ^ 1). change B_DIRTY with (2 ^ 2).
  rewrite !has_testbit by lia.
  assert (forall k, 0 <= k -> Z.testbit (Z.land (b_flags b) (Z.lor (2 ^ 1) (2 ^ 2))) k =
    Z.testbit (b_flags b) k && (bool_decide (k = 1) || bool_decide (k = 2))) as Hk.
  { intros k Hk. rewrite Z.land_spec, Z.lor_spec, !Z.pow2_bits_eqb by lia. f_equal. f_equal;
      rewrite (Z.eqb_sym _ k); by case_bool_decide; subst; [apply Z.eqb_refl|apply Z.eqb_neq]. }
  destruct (Z.testbit (b_flags b) 1 && negb (Z.testbit (b_flags b) 2)) eqn:E.
  - apply Z.eqb_eq. apply Z.bits_inj'. intros k Hk0. rewrite Hk by done.
    apply andb_true_iff in E as [E1 E2%negb_true_iff].
    destruct (decide (k = 1)) as [->|]; [by rewrite E1|].
    destruct (decide (k = 2)) as [->|]; [by rewrite E2|].
    rewrite !bool_decide_eq_false_2 by done. rewrite andb_false_r, Z.pow2_bits_false by done. done.
  - apply Z.eqb_neq. intros Heq.
    pose proof (Hk 1 ltac:(lia)) as H1. pose proof (Hk 2 ltac:(lia)) as H2.
    rewrite Heq, Z.pow2_bits_true in H1 by lia.
    rewrite Heq, Z.pow2_bits_false in H2 by lia.
    rewrite (bool_decide_eq_true_2 (1 = 1)), andb_true_r in H1 by done.
    rewrite (bool_decide_eq_true_2 (2 = 2)), orb_true_r, andb_true_r in H2 by done.
    by rewrite <- H1, <- H2 in E.
Qed.

(** ** Single steps on buffers *)

Lemma alter_insert {A} (f : A -> A) i x (l : list A) :
  l !! i = Some x -> alter f i l = <[i := f x]> l.
Proof.
  intros Hx. apply list_eq. intros j. rewrite list_lookup_alter. case_decide; subst.
  - rewrite Hx. simpl. rewrite list_lookup_insert_eq; [done|]. by eapply lookup_lt_Some.
  - by rewrite list_lookup_insert_ne.
Qed.

Lemma runs_getb {A} i b s (f : buf -> K A) Q :
  k_bufs s !! i = Some b -> runs (f b) s Q -> runs (bind (getb i) f) s Q.
Proof. intros Hb Hf. by eapply runs_bind, runs_nth. Qed.

Lemma runs_updb i g b s (Q : unit -> kstate -> Prop) :
  k_bufs s !! i = Some b -> Q tt (set_bufs (<[i := g b]> (k_bufs s)) s) ->
  runs (updb i g) s Q.
Proof.
  intros Hb HQ. eexists _, _. unfold updb. rewrite Hb. split; [done|].
  by rewrite (alter_insert _ _ b).
Qed.

Ltac bstep :=
  lazymatch goal with
  | |- runs (bind (getb _) _) _ _ => eapply runs_getb; [simpl; eassumption|]
  | |- runs (bind (updb _ _) _) _ _ => eapply runs_bind, runs_updb; [simpl; eassumption|]
  | |- runs (updb _ _) _ _ => eapply runs_updb; [simpl; eassumption|]
  | |- _ => rstep
  end.

(** memide.c keeps the driver's contract. *)
Lemma memide_sync s i b :
  k_bufs s !! i = Some b ->
  busy b = true -> negb (valid b) || dirty b = true ->
  b_dev b = ROOTDEV -> 0 <= b_sector b < d_size (k_disk s) ->
  runs (memide_iderw i) s (fun _ s' => exists b' d',
    s' = set_disk d' (set_bufs (<[i := b']> (k_bufs s)) s) /\ synced (k_disk s) b d' b').
Proof.
  intros Hb Hbusy Hwork Hdev Hsec.
  assert (i < length (k_bufs s))%nat as Hi by by eapply lookup_lt_Some.
  unfold memide_iderw. bstep.
  apply runs_if_false; [by rewrite Hbusy|].
  apply runs_if_false.
  { rewrite clean_flags. by destruct (valid b), (dirty b). }
  apply runs_if_false; [by rewrite Hdev|]. bstep.
  apply runs_if_false; [lia|]. bstep. apply runs_if; intros Ed; repeat bstep.
  - eapply runs_updb; [by apply list_lookup_insert_eq|].
    eexists _, _. split.
    { simpl k_bufs. rewrite list_insert_insert_eq. reflexivity. }
    split; rewrite ?Ed; autorewrite with bflags; done.
  - eapply runs_updb; [by apply list_lookup_insert_eq|]. simpl.
    rewrite list_insert_insert_eq. exists (bset_flags (set_flag (b_flags b) B_VALID)
      (bset_data (dblk (k_disk s) (b_sector b)) b)), (k_disk s). split; [by destruct s|].
    split; try done.
    + exact (busy_set_valid b).
    + exact (valid_set_valid b).
    + etrans; [exact (dirty_set_valid b)|done].
    + by rewrite Ed.
Qed.

#[export] Program Instance memide : DiskDriver := {| iderw := memide_iderw |}.
Next Obligation.
  intros s i b Hb Hbusy Hw Hd Hs _ _.
  eapply runs_mono; [by eapply memide_sync|]. intros [] s' (b' & d' & -> & Hsync).
  exists b', d', (k_procs s). split; [by destruct s|]. by split.
Qed.
