(* ===== verification/BioSpec.v ===== *)
(** * The buffer cache as a block store

    [ring] is the shape of the list through [prev] and [next]; [bstore s V D H]
    is what a client of bio.c may rely on: [V] gives the current contents of every
    block, [D] the blocks whose newest contents are only in the cache, and [H] the
    buffers handed out by [bread] and not yet given to [brelse]. *)

From S2P Require Import Prelude Types Monad Sched Ring Bio.

(** ** The ring *)

Definition nextof (bs : list buf) (i : nat) : option nat := b_next <$> bs !! i.
Definition prevof (bs : list buf) (i : nat) : option nat := b_prev <$> bs !! i.

(** [l] lists the buffers from most to least recently used. *)
Definition ring (bs : list buf) (l : list nat) : Prop :=
  chain (nextof bs) (prevof bs) HEAD l HEAD /\ l ≡ₚ seq 0 NBUF /\ length bs = S NBUF.

Lemma ring_lt bs l i : ring bs l -> i ∈ l -> (i < NBUF)%nat.
Proof. intros (_ & Hl & _) Hi. rewrite Hl in Hi. apply elem_of_seq in Hi. lia. Qed.
Lemma ring_in bs l i : ring bs l -> (i < NBUF)%nat -> i ∈ l.
Proof. intros (_ & Hl & _) Hi. rewrite Hl. apply elem_of_seq. lia. Qed.
Lemma ring_nodup bs l : ring bs l -> NoDup (HEAD :: l).
Proof.
  intros (_ & Hl & _). constructor.
  - rewrite Hl. intros Hi%elem_of_seq. unfold HEAD in Hi. lia.
  - rewrite Hl. apply NoDup_seq.
Qed.
Lemma ring_is_Some bs l i : ring bs l -> (i <= NBUF)%nat -> is_Some (bs !! i).
Proof. intros (_ & _ & Hlen) Hi. apply lookup_lt_is_Some. lia. Qed.

(** Updates of the links, and updates that leave them alone. *)
Lemma nextof_set bs i b v a :
  bs !! i = Some b -> nextof (<[i := bset_next v b]> bs) a = fupd (nextof bs) i v a.
Proof.
  intros Hb. unfold nextof, fupd. case_decide; subst.
  - by rewrite list_lookup_insert_eq by by eapply lookup_lt_Some.
  - by rewrite list_lookup_insert_ne.
Qed.
Lemma prevof_set bs i b v a :
  bs !! i = Some b -> prevof (<[i := bset_prev v b]> bs) a = fupd (prevof bs) i v a.
Proof.
  intros Hb. unfold prevof, fupd. case_decide; subst.
  - by rewrite list_lookup_insert_eq by by eapply lookup_lt_Some.
  - by rewrite list_lookup_insert_ne.
Qed.
Lemma nextof_same bs i b b' a :
  bs !! i = Some b -> b_next b' = b_next b -> nextof (<[i := b']> bs) a = nextof bs a.
Proof.
  intros Hb Hn. unfold nextof. rewrite list_lookup_insert. case_decide as Hd; [|done].
  destruct Hd as [-> _]. rewrite Hb. simpl. by rewrite Hn.
Qed.
Lemma prevof_same bs i b b' a :
  bs !! i = Some b -> b_prev b' = b_prev b -> prevof (<[i := b']> bs) a = prevof bs a.
Proof.
  intros Hb Hn. unfold prevof. rewrite list_lookup_insert. case_decide as Hd; [|done].
  destruct Hd as [-> _]. rewrite Hb. simpl. by rewrite Hn.
Qed.

Lemma ring_same bs l i b b' :
  ring bs l -> bs !! i = Some b -> b_next b' = b_next b -> b_prev b' = b_prev b ->
  ring (<[i := b']> bs) l.
Proof.
  intros (Hc & Hl & Hlen) Hb Hn Hp. split_and!; [|done|by rewrite length_insert].
  eapply chain_agree; [| |exact Hc]; intros.
  - by eapply nextof_same. 
  - by eapply prevof_same.
Qed.

(** ** Cells: a buffer without its links *)

Record cell := Cell {
  c_busy : bool; c_valid : bool; c_dirty : bool;
  c_dev : Z; c_sector : Z; c_data : list Z
}.

Definition cell_of (b : buf) : cell :=
  Cell (busy b) (valid b) (dirty b) (b_dev b) (b_sector b) (b_data b).

Definition cells (bs : list buf) : list cell := map cell_of (take NBUF bs).

Lemma cells_lookup bs i b :
  (i < NBUF)%nat -> bs !! i = Some b -> cells bs !! i = Some (cell_of b).
Proof.
  intros Hi Hb. unfold cells. change (map cell_of) with (fmap (M := list) cell_of).
  rewrite list_lookup_fmap.
  rewrite lookup_take_lt by done. by rewrite Hb.
Qed.

Lemma cells_lookup_inv bs i c :
  cells bs !! i = Some c -> (i < NBUF)%nat /\ exists b, bs !! i = Some b /\ c = cell_of b.
Proof.
  unfold cells. change (map cell_of) with (fmap (M := list) cell_of).
  rewrite list_lookup_fmap. intros (b & Hb & ->)%fmap_Some.
  apply lookup_take_Some in Hb as [Hb Hi]. eauto.
Qed.

Lemma cells_insert bs i b :
  (i < NBUF)%nat -> cells (<[i := b]> bs) = <[i := cell_of b]> (cells bs).
Proof.
  intros Hi. unfold cells. change (map cell_of) with (fmap (M := list) cell_of).
  by rewrite take_insert_lt, list_fmap_insert by done.
Qed.

Lemma cells_same bs i b b' :
  bs !! i = Some b -> cell_of b' = cell_of b -> cells (<[i := b']> bs) = cells bs.
Proof.
  intros Hb Hc. destruct (decide (i < NBUF)%nat).
  - rewrite cells_insert, Hc by done. apply list_insert_id. by apply cells_lookup.
  - unfold cells. by rewrite take_insert_ge by lia.
Qed.

(** ** The two scans of [bget] *)

Definition matches (cs : list cell) (dev sector : Z) (i : nat) : bool :=
  match cs !! i with
  | Some c => (c_dev c =? dev) && (c_sector c =? sector)
  | None => false
  end.
Definition evictable (cs : list cell) (i : nat) : bool :=
  match cs !! i with Some c => negb (c_busy c) && negb (c_dirty c) | None => false end.

Lemma bget_find_eq dev sector s l p fuel :
  chain (nextof (k_bufs s)) (prevof (k_bufs s)) p l HEAD ->
  (forall i, i ∈ l -> (i < NBUF)%nat) -> length (k_bufs s) = S NBUF -> (length l < fuel)%nat ->
  bget_find fuel dev sector (first l HEAD) s
  = Ret (find (matches (cells (k_bufs s)) dev sector) l) s.
Proof.
  revert p l. induction fuel as [|fuel IH]; intros p l Hc Hl Hlen Hf; [lia|].
  destruct l as [|i l]; [done|]. destruct Hc as [_ Hc]. simpl first.
  assert (i < NBUF)%nat as Hi by (apply Hl; set_solver).
  assert (is_Some (k_bufs s !! i)) as [b Hb] by (apply lookup_lt_is_Some; lia).
  cbn [bget_find]. replace (i =? HEAD)%nat with false
    by (symmetry; apply Nat.eqb_neq; unfold HEAD; lia).
  unfold bind, getb, nth_or_fault. rewrite Hb. cbn [find].
  unfold matches at 1. rewrite (cells_lookup _ _ _ Hi Hb). simpl.
  destruct (_ && _); [done|].
  apply chain_first in Hc as Hn. unfold nextof in Hn. rewrite Hb in Hn.
  injection Hn as Hn. rewrite Hn. eapply IH; [done|set_solver|done|simpl in Hf; lia].
Qed.

Lemma bget_victim_eq s l e fuel :
  chain (nextof (k_bufs s)) (prevof (k_bufs s)) HEAD l e ->
  (forall i, i ∈ l -> (i < NBUF)%nat) -> length (k_bufs s) = S NBUF -> (length l < fuel)%nat ->
  bget_victim fuel (final HEAD l) s
  = Ret (find (evictable (cells (k_bufs s))) (rev l)) s.
Proof.
  revert l e. induction fuel as [|fuel IH]; intros l e Hc Hl Hlen Hf; [lia|].
  destruct l as [|i l _] using rev_ind; [done|].
  apply chain_app in Hc as [Hc _].
  assert (i < NBUF)%nat as Hi by (apply Hl; set_solver).
  assert (is_Some (k_bufs s !! i)) as [b Hb] by (apply lookup_lt_is_Some; lia).
  unfold final. rewrite last_snoc. change (default HEAD (Some i)) with i. cbn [bget_victim].
  replace (i =? HEAD)%nat with false
    by (symmetry; apply Nat.eqb_neq; unfold HEAD; lia).
  unfold bind, getb, nth_or_fault. rewrite Hb. rewrite rev_app_distr. cbn [rev app find].
  unfold evictable at 1. rewrite (cells_lookup _ _ _ Hi Hb). simpl.
  destruct (_ && _); [done|].
  apply chain_final in Hc as Hp. unfold prevof in Hp. rewrite Hb in Hp.
  injection Hp as Hp. rewrite Hp. eapply IH; [done|set_solver|done|].
  rewrite length_app in Hf. simpl in Hf. lia.
Qed.

(** [bget] up to the point where the two scans have decided. *)
Lemma bget_scan s l dev sector :
  ring (k_bufs s) l -> LBcache ∉ k_held s ->
  let s1 := set_held (LBcache :: k_held s) s in
  bget dev sector s =
  match find (matches (cells (k_bufs s)) dev sector) l with
  | Some i =>
      (b <- getb i ;;
       if negb (busy b) then
         updb i (fun b => bset_flags (set_flag (b_flags b) B_BUSY) b) ;;
         release LBcache ;;
         ret i
       else sleep (ChBuf i) LBcache ;; bget_loop 1 dev sector) s1
  | None =>
      match find (evictable (cells (k_bufs s))) (rev l) with
      | Some i => (updb i (recycle dev sector) ;; release LBcache ;; ret i) s1
      | None => Panic "bget: no buffers" s1
      end
  end.
Proof.
  intros Hr Hlk s1. pose proof Hr as (Hc & Hl & Hlen).
  destruct (ring_is_Some _ _ HEAD Hr ltac:(done)) as [h Hh].
  apply chain_first in Hc as Hn. unfold nextof in Hn. rewrite Hh in Hn. injection Hn as Hn.
  apply chain_final in Hc as Hp. unfold prevof in Hp. rewrite Hh in Hp. injection Hp as Hp.
  assert (forall i, i ∈ l -> (i < NBUF)%nat) as Hlt by (intros; by eapply ring_lt).
  assert (length l < S NBUF)%nat as Hll by (rewrite Hl, length_seq; lia).
  unfold bget, bind at 1. rewrite acquire_free by done. fold s1. cbn [bget_loop].
  unfold bind at 1. unfold getb at 1, nth_or_fault. change (k_bufs s1) with (k_bufs s). rewrite Hh, Hn.
  unfold bind at 1. rewrite (bget_find_eq dev sector s1 l HEAD) by done.
  change (k_bufs s1) with (k_bufs s). destruct (find (matches _ _ _) l) as [i|]; [done|].
  unfold bind at 1. unfold getb at 1, nth_or_fault. change (k_bufs s1) with (k_bufs s). rewrite Hh, Hp.
  unfold bind at 1. rewrite (bget_victim_eq s1 l HEAD) by done.
  change (k_bufs s1) with (k_bufs s). by destruct (find (evictable _) _).
Qed.

(** [bget] on a cached sector, and on one that is not: the buffer recycled is the last
    one of the ring that is neither busy nor dirty. *)
Lemma bget_hit s l dev sector i b :
  ring (k_bufs s) l -> LBcache ∉ k_held s ->
  find (matches (cells (k_bufs s)) dev sector) l = Some i ->
  k_bufs s !! i = Some b -> busy b = false ->
  bget dev sector s
  = Ret i (set_bufs (<[i := bset_flags (set_flag (b_flags b) B_BUSY) b]> (k_bufs s)) s).
Proof.
  intros Hr Hlk Hf Hb Hbusy. rewrite (bget_scan s l) by done. rewrite Hf.
  unfold bind, getb, nth_or_fault, updb. cbn [k_bufs set_held]. rewrite Hb, Hbusy.
  cbn [negb k_bufs set_held]. rewrite Hb, (alter_insert _ _ b) by done.
  rewrite (release_top _ (k_held s)) by done. by destruct s.
Qed.

Lemma bget_busy s l dev sector i b p pr :
  ring (k_bufs s) l -> k_held s = [] -> k_cur s = Some p -> k_procs s !! p = Some pr ->
  find (matches (cells (k_bufs s)) dev sector) l = Some i ->
  k_bufs s !! i = Some b -> busy b = true ->
  bget dev sector s
  = Sched (set_held [LPtable] (set_procs (<[p := asleep (ChBuf i) pr]> (k_procs s)) s)).
Proof.
  intros Hr Hh Hcur Hp Hf Hb Hbusy. rewrite (bget_scan s l) by (rewrite ?Hh; done || void).
  rewrite Hf, Hh. unfold bind, getb, nth_or_fault. cbn [k_bufs set_held]. rewrite Hb, Hbusy.
  cbn [negb]. by rewrite (sleep_eq _ _ _ p pr).
Qed.

Lemma bget_miss s l dev sector i b :
  ring (k_bufs s) l -> LBcache ∉ k_held s ->
  find (matches (cells (k_bufs s)) dev sector) l = None ->
  find (evictable (cells (k_bufs s))) (rev l) = Some i ->
  k_bufs s !! i = Some b ->
  bget dev sector s = Ret i (set_bufs (<[i := recycle dev sector b]> (k_bufs s)) s).
Proof.
  intros Hr Hlk Hf Hv Hb. rewrite (bget_scan s l) by done. rewrite Hf, Hv.
  unfold bind, updb. cbn [k_bufs set_held]. rewrite Hb. rewrite (alter_insert _ _ b) by done.
  rewrite (release_top _ (k_held s)) by done. by destruct s.
Qed.

(** ** The block store *)

Definition upd (V : Z -> list Z) (sec : Z) (d : list Z) : Z -> list Z :=
  fun x => if decide (x = sec) then d else V x.

Lemma upd_eq V sec d : upd V sec d sec = d.
Proof. unfold upd. by rewrite decide_True. Qed.
Lemma upd_ne V sec d x : x <> sec -> upd V sec d x = V x.
Proof. intros. unfold upd. by rewrite decide_False. Qed.

Abbreviation hold := (nat * Z * list Z)%type.
Definition h_buf (h : hold) : nat := h.1.1.
Definition h_sec (h : hold) : Z := h.1.2.
Definition h_data (h : hold) : list Z := h.2.

Record cstore (cs : list cell) (dk : disk) (V : Z -> list Z) (D : gset Z) (H : list hold) : Prop := {
  cs_len : length cs = NBUF;
  cs_uniq : forall i j ci cj, cs !! i = Some ci -> cs !! j = Some cj ->
    c_dev ci = ROOTDEV -> c_dev cj = ROOTDEV -> c_sector ci = c_sector cj -> i = j;
  cs_idle : forall i c, cs !! i = Some c -> c_dev c <> ROOTDEV ->
    c_busy c = false /\ c_dirty c = false;
  cs_valid : forall i c, cs !! i = Some c -> c_dev c = ROOTDEV -> c_valid c = true;
  cs_busy : forall i c, cs !! i = Some c -> c_busy c = true -> (i, c_sector c, c_data c) ∈ H;
  cs_held : forall i sec d, (i, sec, d) ∈ H -> exists c, cs !! i = Some c /\
    c_busy c = true /\ c_dev c = ROOTDEV /\ c_sector c = sec /\ c_data c = d;
  cs_nodup : NoDup (map h_buf H);
  cs_hlen : forall i sec d, (i, sec, d) ∈ H -> length d = 512%nat /\ 0 <= sec < d_size dk;
  cs_dirty : forall i c, cs !! i = Some c -> c_dev c = ROOTDEV ->
    (c_dirty c = true <-> c_sector c ∈ D);
  cs_pinned : forall sec, sec ∈ D -> exists i c, cs !! i = Some c /\
    c_dev c = ROOTDEV /\ c_sector c = sec;
  cs_view : forall i c, cs !! i = Some c -> c_dev c = ROOTDEV -> c_busy c = false ->
    c_data c = V (c_sector c);
  cs_disk : forall sec, 0 <= sec < d_size dk -> sec ∉ D -> dblk dk sec = V sec;
  cs_vlen : forall sec, 0 <= sec < d_size dk -> length (V sec) = 512%nat
}.

Definition bio_unlocked (s : kstate) : Prop :=
  (LBcache ∉ k_held s) /\ (LPtable ∉ k_held s) /\ (LIde ∉ k_held s).

Lemma bio_unlocked_nil s : k_held s = [] -> bio_unlocked s.
Proof. intros Hs. unfold bio_unlocked. rewrite Hs. split_and!; void. Qed.

Record bstore (s : kstate) (V : Z -> list Z) (D : gset Z) (H : list hold) : Prop := {
  bs_ring : exists l, ring (k_bufs s) l;
  bs_cells : cstore (cells (k_bufs s)) (k_disk s) V D H;
  bs_locks : bio_unlocked s
}.

(** The part of the kernel's state that bio.c does not touch. *)
Definition bframe (s s' : kstate) : Prop :=
  exists bs dk ps, s' = set_bufs bs (set_disk dk (set_procs ps s)) /\
    procs_woken (k_procs s) ps /\ d_size dk = d_size (k_disk s).

#[export] Instance bframe_preorder : PreOrder bframe.
Proof.
  split.
  - intros s. exists (k_bufs s), (k_disk s), (k_procs s). split; [by destruct s|done].
  - intros s1 s2 s3 (b2 & d2 & p2 & -> & Hp2 & Hd2) (b3 & d3 & p3 & -> & Hp3 & Hd3).
    exists b3, d3, p3. split; [by destruct s1|]. split; [by etrans|]. simpl in Hd3. congruence.
Qed.

Definition pinned (D : gset Z) (H : list hold) : gset Z := D ∪ list_to_set (map h_sec H).

Ltac insert_cases :=
  repeat match goal with
  | H : <[_ := _]> _ !! _ = Some _ |- _ =>
      apply list_lookup_insert_Some in H as [(? & ? & ?)|(? & H)]; subst; simpl in *
  end.

Section cstore.
Implicit Types cs : list cell.
Context (cs : list cell) (dk : disk) (V : Z -> list Z) (D : gset Z) (H : list hold).

Lemma cstore_lt i c : cstore cs dk V D H -> cs !! i = Some c -> (i < NBUF)%nat.
Proof. intros Hc Hi. rewrite <- (cs_len _ _ _ _ _ Hc). by eapply lookup_lt_Some. Qed.

(** [bread] of a cached, free block. *)
Lemma cstore_take i c :
  cstore cs dk V D H -> cs !! i = Some c -> c_dev c = ROOTDEV -> c_busy c = false ->
  0 <= c_sector c < d_size dk ->
  cstore (<[i := Cell true true (c_dirty c) ROOTDEV (c_sector c) (c_data c)]> cs)
    dk V D ((i, c_sector c, V (c_sector c)) :: H).
Proof.
  intros Hc Hi Hdev Hfree Hrange.
  pose proof (cs_view _ _ _ _ _ Hc _ _ Hi Hdev Hfree) as Hdata.
  pose proof (cstore_lt _ _ Hc Hi) as Hlt.
  assert (forall sec d, (i, sec, d) ∉ H) as Hni.
  { intros sec d Hin. destruct (cs_held _ _ _ _ _ Hc _ _ _ Hin) as (c' & Hc' & Hb & _).
    congruence. }
  destruct Hc as [Hlen Huniq Hidle Hval Hbusy Hheld Hnd Hhlen Hdirty Hpin Hview Hdisk Hvlen].
  split; try done.
  - by rewrite length_insert.
  - intros j k cj ck Hj Hk Hdj Hdk Heq. insert_cases; try done; eauto.
  - intros j c' Hj Hd. insert_cases; [done|eauto].
  - intros j c' Hj Hd. insert_cases; [done|eauto].
  - intros j c' Hj Hb. insert_cases; [rewrite Hdata; set_solver|]. right. eauto.
  - intros j sec d [[= -> -> ->]|Hin]%elem_of_cons.
    + eexists. split; [apply list_lookup_insert_eq; lia|]. done.
    + destruct (Hheld _ _ _ Hin) as (c' & Hc' & Hb & Hd' & Hs & Hda).
      exists c'. split; [|done]. rewrite list_lookup_insert_ne; [done|]. intros ->. by eapply Hni.
  - simpl. constructor; [|done]. intros Hin. apply list_elem_of_fmap in Hin as ([[j sec] d] & Heq & Hin).
    cbn in Heq. subst j. by eapply Hni.
  - intros j sec d [[= -> -> ->]|Hin]%elem_of_cons; [|eauto]. split; [by apply Hvlen|done].
  - intros j c' Hj Hd. insert_cases; eauto.
  - intros sec Hs. destruct (Hpin _ Hs) as (j & cj & Hj & Hdj & Hsj).
    destruct (decide (i = j)) as [->|Hne].
    + eexists j, _. split; [apply list_lookup_insert_eq; lia|]. simpl. split; [done|]. congruence.
    + exists j, cj. by rewrite list_lookup_insert_ne.
  - intros j c' Hj Hd Hb. insert_cases; [done|eauto].
Qed.

(** [bread] of a block that is not cached, into a clean free buffer. *)
Lemma cstore_fill i c sec :
  cstore cs dk V D H -> cs !! i = Some c -> c_busy c = false -> c_dirty c = false ->
  0 <= sec < d_size dk ->
  (forall j cj, cs !! j = Some cj -> c_dev cj = ROOTDEV -> c_sector cj <> sec) ->
  cstore (<[i := Cell true true false ROOTDEV sec (V sec)]> cs) dk V D ((i, sec, V sec) :: H).
Proof.
  intros Hc Hi Hfree Hclean Hrange Hmiss.
  pose proof (cstore_lt _ _ Hc Hi) as Hlt.
  assert (forall sec d, (i, sec, d) ∉ H) as Hni.
  { intros sec' d Hin. destruct (cs_held _ _ _ _ _ Hc _ _ _ Hin) as (c' & Hc' & Hb & _).
    congruence. }
  destruct Hc as [Hlen Huniq Hidle Hval Hbusy Hheld Hnd Hhlen Hdirty Hpin Hview Hdisk Hvlen].
  split; try done.
  - by rewrite length_insert.
  - intros j k cj ck Hj Hk Hdj Hdk Heq. insert_cases; try done; eauto;
      exfalso; eapply Hmiss; eauto.
  - intros j c' Hj Hd. insert_cases; [done|eauto].
  - intros j c' Hj Hd. insert_cases; [done|eauto].
  - intros j c' Hj Hb. insert_cases; [set_solver|]. right. eauto.
  - intros j sec' d [[= -> -> ->]|Hin]%elem_of_cons.
    + eexists. split; [apply list_lookup_insert_eq; lia|]. done.
    + destruct (Hheld _ _ _ Hin) as (c' & Hc' & Hb & Hd' & Hs & Hda).
      exists c'. split; [|done]. rewrite list_lookup_insert_ne; [done|]. intros ->. by eapply Hni.
  - simpl. constructor; [|done]. intros Hin. apply list_elem_of_fmap in Hin as ([[j s'] d] & Heq & Hin).
    cbn in Heq. subst j. by eapply Hni.
  - intros j sec' d [[= -> -> ->]|Hin]%elem_of_cons; [|eauto]. split; [by apply Hvlen|done].
  - intros j c' Hj Hd. insert_cases; [|eauto]. split; [done|]. intros Hs.
    destruct (Hpin _ Hs) as (k & ck & Hk & Hdk & Hsk). exfalso. by eapply Hmiss.
  - intros sec' Hs. destruct (Hpin _ Hs) as (j & cj & Hj & Hdj & Hsj).
    exists j, cj. split; [|done]. rewrite list_lookup_insert_ne; [done|]. intros ->.
    assert (cj = c) as -> by congruence. apply Hdirty in Hi as Hd; [|done].
    rewrite Hclean in Hd. naive_solver.
  - intros j c' Hj Hd Hb. insert_cases; [done|eauto].
Qed.
End cstore.

Section cstore_held.
Context (cs : list cell) (dk : disk) (V : Z -> list Z) (D : gset Z) (H : list hold).
Context (i : nat) (sec : Z) (d : list Z) (c : cell).
Context (Hc : cstore cs dk V D ((i, sec, d) :: H)) (Hi : cs !! i = Some c).

Lemma cstore_own :
  c_busy c = true /\ c_dev c = ROOTDEV /\ c_sector c = sec /\ c_data c = d /\
  c_valid c = true /\ (i < NBUF)%nat /\ 0 <= sec < d_size dk /\ length d = 512%nat /\
  (forall sec' d', (i, sec', d') ∉ H) /\ (forall j d', (j, sec, d') ∉ H).
Proof.
  destruct (cs_held _ _ _ _ _ Hc i sec d) as (c' & Hc' & Hb & Hdev & Hs & Hd); [set_solver|].
  assert (c' = c) as -> by congruence.
  destruct (cs_hlen _ _ _ _ _ Hc i sec d) as [Hlen Hr]; [set_solver|].
  pose proof (cs_valid _ _ _ _ _ Hc _ _ Hi Hdev).
  pose proof (cs_nodup _ _ _ _ _ Hc) as Hnd. simpl in Hnd. apply NoDup_cons in Hnd as [Hni _].
  assert (forall sec' d', (i, sec', d') ∉ H) as Hni'.
  { intros sec' d' Hin. apply Hni. apply list_elem_of_fmap. by exists (i, sec', d'). }
  split_and!; try done.
  - by eapply cstore_lt.
  - lia.
  - lia.
  - intros j d' Hin. destruct (cs_held _ _ _ _ _ Hc j sec d') as (cj & Hcj & _ & Hdj & Hsj & _);
      [set_solver|]. assert (i = j) as -> by (eapply (cs_uniq _ _ _ _ _ Hc); eauto; congruence).
    by eapply Hni'.
Qed.

(** [brelse] of a block whose contents are the store's. *)
Lemma cstore_put :
  d = V sec ->
  cstore (<[i := Cell false (c_valid c) (c_dirty c) (c_dev c) (c_sector c) (c_data c)]> cs) dk V D H.
Proof.
  intros Hd. destruct cstore_own as (Ob & Odev & Os & Oda & Ov & Hlt & Hr & Hl & Hni & _).
  destruct Hc as [Hlen Huniq Hidle Hval Hbusy Hheld Hnd Hhlen Hdirty Hpin Hview Hdisk Hvlen].
  split; try done.
  - by rewrite length_insert.
  - intros j k cj ck Hj Hk Hdj Hdk Heq. insert_cases; try done; eauto.
  - intros j c' Hj Hd'. insert_cases; [done|eauto].
  - intros j c' Hj Hd'. insert_cases; [done|eauto].
  - intros j c' Hj Hb. insert_cases; [done|]. pose proof (Hbusy _ _ Hj Hb) as [Heq|Hin]%elem_of_cons; [|done].
    congruence.
  - intros j sec' d' Hin. destruct (Hheld j sec' d') as (c' & Hc' & Hrest); [set_solver|].
    exists c'. split; [|done]. rewrite list_lookup_insert_ne; [done|]. intros ->. by eapply Hni.
  - simpl in Hnd. by apply NoDup_cons in Hnd as [_ Hnd].
  - intros j sec' d' Hin. eapply (Hhlen j). set_solver.
  - intros j c' Hj Hd'. insert_cases; eauto.
  - intros sec' Hs. destruct (Hpin _ Hs) as (j & cj & Hj & Hdj & Hsj).
    destruct (decide (i = j)) as [->|Hne].
    + eexists j, _. split; [apply list_lookup_insert_eq; lia|]. simpl. split; [done|]. congruence.
    + exists j, cj. by rewrite list_lookup_insert_ne.
  - intros j c' Hj Hd' Hb. insert_cases; [congruence|eauto].
Qed.

(** Changing the data of a held buffer. *)
Lemma cstore_set d' :
  length d' = 512%nat ->
  cstore (<[i := Cell (c_busy c) (c_valid c) (c_dirty c) (c_dev c) (c_sector c) d']> cs)
    dk V D ((i, sec, d') :: H).
Proof.
  intros Hd'. destruct cstore_own as (Ob & Odev & Os & Oda & Ov & Hlt & Hr & Hl & Hni & _).
  destruct Hc as [Hlen Huniq Hidle Hval Hbusy Hheld Hnd Hhlen Hdirty Hpin Hview Hdisk Hvlen].
  split; try done.
  - by rewrite length_insert.
  - intros j k cj ck Hj Hk Hdj Hdk Heq. insert_cases; try done; eauto.
  - intros j c' Hj Hdev'. insert_cases; [done|eauto].
  - intros j c' Hj Hdev'. insert_cases; [done|eauto].
  - intros j c' Hj Hb. insert_cases; [set_solver|].
    pose proof (Hbusy _ _ Hj Hb) as [Heq|Hin]%elem_of_cons; [congruence|set_solver].
  - intros j sec' e [[= -> -> ->]|Hin]%elem_of_cons.
    + eexists. split; [apply list_lookup_insert_eq; lia|]. done.
    + destruct (Hheld j sec' e) as (c' & Hc' & Hrest); [set_solver|].
      exists c'. split; [|done]. rewrite list_lookup_insert_ne; [done|]. intros ->. by eapply Hni.
  - intros j sec' e [[= -> -> ->]|Hin]%elem_of_cons; [done|]. eapply (Hhlen j). set_solver.
  - intros j c' Hj Hdev'. insert_cases; eauto.
  - intros sec' Hs. destruct (Hpin _ Hs) as (j & cj & Hj & Hdj & Hsj).
    destruct (decide (i = j)) as [->|Hne].
    + eexists j, _. split; [apply list_lookup_insert_eq; lia|]. simpl. split; [done|]. congruence.
    + exists j, cj. by rewrite list_lookup_insert_ne.
  - intros j c' Hj Hdev' Hb. insert_cases; [congruence|eauto].
Qed.

(** The held contents become the store's, in the cache only ([b->flags |= B_DIRTY]). *)
Lemma cstore_mark :
  cstore (<[i := Cell (c_busy c) (c_valid c) true (c_dev c) (c_sector c) (c_data c)]> cs)
    dk (upd V sec d) ({[sec]} ∪ D) ((i, sec, d) :: H).
Proof.
  destruct cstore_own as (Ob & Odev & Os & Oda & Ov & Hlt & Hr & Hl & Hni & _).
  destruct Hc as [Hlen Huniq Hidle Hval Hbusy Hheld Hnd Hhlen Hdirty Hpin Hview Hdisk Hvlen].
  split; try done.
  - by rewrite length_insert.
  - intros j k cj ck Hj Hk Hdj Hdk Heq. insert_cases; try done; eauto.
  - intros j c' Hj Hdev'. insert_cases; [done|eauto].
  - intros j c' Hj Hdev'. insert_cases; [done|eauto].
  - intros j c' Hj Hb. insert_cases; eauto.
  - intros j sec' e Hin. destruct (Hheld _ _ _ Hin) as (c' & Hc' & Hrest).
    destruct (decide (i = j)) as [->|Hne].
    + eexists. split; [apply list_lookup_insert_eq; lia|]. simpl. by simplify_eq.
    + exists c'. by rewrite list_lookup_insert_ne.
  - intros j c' Hj Hdev'. insert_cases; [set_solver|].
    rewrite (Hdirty j c') by done. split; [set_solver|].
    intros [Heq%elem_of_singleton|?]%elem_of_union; [|done].
    exfalso. apply H0. eapply (Huniq i j c c'); eauto; congruence.
  - intros sec' [->%elem_of_singleton|Hs]%elem_of_union.
    + eexists i, _. split; [apply list_lookup_insert_eq; lia|]. done.
    + destruct (Hpin _ Hs) as (j & cj & Hj & Hdj & Hsj).
      destruct (decide (i = j)) as [->|Hne].
      * eexists j, _. split; [apply list_lookup_insert_eq; lia|]. simpl. split; [done|]. congruence.
      * exists j, cj. by rewrite list_lookup_insert_ne.
  - intros j c' Hj Hdev' Hb. insert_cases; [congruence|].
    rewrite upd_ne; [eauto|]. intros Heq. apply H0. eapply (Huniq i j c c'); eauto; congruence.
  - intros sec' Hr' Hs. rewrite upd_ne by set_solver. apply Hdisk; set_solver.
  - intros sec' Hr'. unfold upd. case_decide; [done|auto].
Qed.

(** The held contents become the store's and the disk's ([bwrite]). *)
Lemma cstore_sync :
  cstore (<[i := Cell (c_busy c) true false (c_dev c) (c_sector c) (c_data c)]> cs)
    (disk_write dk sec d) (upd V sec d) (D ∖ {[sec]}) ((i, sec, d) :: H).
Proof.
  destruct cstore_own as (Ob & Odev & Os & Oda & Ov & Hlt & Hr & Hl & Hni & _).
  destruct Hc as [Hlen Huniq Hidle Hval Hbusy Hheld Hnd Hhlen Hdirty Hpin Hview Hdisk Hvlen].
  split; try done.
  - by rewrite length_insert.
  - intros j k cj ck Hj Hk Hdj Hdk Heq. insert_cases; try done; eauto.
  - intros j c' Hj Hdev'. insert_cases; [done|eauto].
  - intros j c' Hj Hdev'. insert_cases; [done|eauto].
  - intros j c' Hj Hb. insert_cases; eauto.
  - intros j sec' e Hin. destruct (Hheld _ _ _ Hin) as (c' & Hc' & Hrest).
    destruct (decide (i = j)) as [->|Hne].
    + eexists. split; [apply list_lookup_insert_eq; lia|]. simpl. by simplify_eq.
    + exists c'. by rewrite list_lookup_insert_ne.
  - intros j c' Hj Hdev'. insert_cases; [set_solver|].
    rewrite (Hdirty j c') by done. split; [|set_solver]. intros Hin.
    apply elem_of_difference. split; [done|]. intros Heq%elem_of_singleton.
    apply H0. eapply (Huniq i j c c'); eauto; congruence.
  - intros sec' [Hs Hne]%elem_of_difference.
    destruct (Hpin _ Hs) as (j & cj & Hj & Hdj & Hsj).
    exists j, cj. split; [|done]. rewrite list_lookup_insert_ne; [done|]. intros ->.
    set_solver.
  - intros j c' Hj Hdev' Hb. insert_cases; [congruence|].
    rewrite upd_ne; [eauto|]. intros Heq. apply H0. eapply (Huniq i j c c'); eauto; congruence.
  - intros sec' Hr' Hs. unfold dblk, disk_write, upd. simpl. rewrite lookup_insert.
    destruct (decide (sec' = sec)) as [->|Hne].
    + by rewrite decide_True.
    + rewrite decide_False by done. apply Hdisk; [done|set_solver].
  - intros sec' Hr'. unfold upd. case_decide; [done|auto].
Qed.
End cstore_held.

(** When fewer than NBUF blocks are pinned, [bget] finds a buffer to recycle. *)
Lemma cstore_victim cs dk V D H l :
  cstore cs dk V D H -> l ≡ₚ seq 0 NBUF -> (size (pinned D H) < NBUF)%nat ->
  exists i c, find (evictable cs) l = Some i /\ cs !! i = Some c /\
    c_busy c = false /\ c_dirty c = false.
Proof.
  intros Hc Hl Hsz. destruct (find (evictable cs) l) as [i|] eqn:Ef.
  - apply find_some in Ef as [_ He]. exists i. unfold evictable in He.
    destruct (cs !! i) as [c|] eqn:Ei; [|done]. boolify. eauto.
  - exfalso.
    assert (forall i c, cs !! i = Some c -> c_dev c = ROOTDEV /\ c_sector c ∈ pinned D H) as Hall.
    { intros i c Hi. assert (In i l) as Hin.
      { apply list_elem_of_In. rewrite Hl. apply elem_of_seq.
        pose proof (cstore_lt _ _ _ _ _ _ _ Hc Hi). lia. }
      pose proof (find_none _ _ Ef _ Hin) as He. unfold evictable in He. rewrite Hi in He.
      destruct (decide (c_dev c = ROOTDEV)) as [Hdev|Hdev].
      - split; [done|]. unfold pinned. destruct (c_busy c) eqn:Eb.
        + apply elem_of_union_r, elem_of_list_to_set, list_elem_of_fmap.
          exists (i, c_sector c, c_data c). split; [done|]. by eapply cs_busy.
        + apply elem_of_union_l. eapply (cs_dirty _ _ _ _ _ Hc); eauto.
          simpl in He. by destruct (c_dirty c).
      - destruct (cs_idle _ _ _ _ _ Hc _ _ Hi Hdev) as [Hb Hd]. by rewrite Hb, Hd in He. }
    assert (NoDup (c_sector <$> cs)) as Hnd.
    { apply NoDup_alt. intros i j x Hi Hj. rewrite list_lookup_fmap in Hi, Hj.
      apply fmap_Some in Hi as (ci & Hi & ->). apply fmap_Some in Hj as (cj & Hj & Heq).
      destruct (Hall _ _ Hi), (Hall _ _ Hj). eapply (cs_uniq _ _ _ _ _ Hc); eauto. }
    assert (list_to_set (c_sector <$> cs) ⊆ pinned D H) as Hsub.
    { intros x. rewrite elem_of_list_to_set, list_elem_of_fmap. intros (c & -> & Hin).
      apply list_elem_of_lookup in Hin as [i Hi]. by eapply Hall. }
    apply subseteq_size in Hsub. rewrite size_list_to_set, length_fmap in Hsub by done.
    rewrite (cs_len _ _ _ _ _ Hc) in Hsub. lia.
Qed.

Lemma bstore_ring_cells s V D H i sec d :
  bstore s V D ((i, sec, d) :: H) ->
  exists l b, ring (k_bufs s) l /\ (i < NBUF)%nat /\ k_bufs s !! i = Some b /\
    busy b = true /\ valid b = true /\ b_dev b = ROOTDEV /\ b_sector b = sec /\ b_data b = d /\
    0 <= sec < d_size (k_disk s).
Proof.
  intros [[l Hr] Hc _]. destruct (cs_held _ _ _ _ _ Hc i sec d) as (c & Hi & _); [set_solver|].
  apply cells_lookup_inv in Hi as Hb. destruct Hb as [Hlt (b & Hb & ->)].
  destruct (cstore_own _ _ _ _ _ _ _ _ _ Hc Hi) as (? & ? & ? & ? & ? & ? & ? & ?).
  exists l, b. done.
Qed.

Section specs.
Context {drv : DiskDriver}.

(** Rebuilding [bstore] after an update of one buffer that keeps its links. *)
Lemma bstore_update s s' V D H V' D' H' i b b' :
  bstore s V D H ->
  k_bufs s !! i = Some b -> k_bufs s' = <[i := b']> (k_bufs s) ->
  (i < NBUF)%nat -> b_next b' = b_next b -> b_prev b' = b_prev b -> k_held s' = k_held s ->
  cstore (<[i := cell_of b']> (cells (k_bufs s))) (k_disk s') V' D' H' ->
  bstore s' V' D' H'.
Proof.
  intros [[l Hr] Hc Hlk] Hb Hs' Hi Hn Hp Hh Hc'. split.
  - exists l. rewrite Hs'. by eapply ring_same.
  - by rewrite Hs', cells_insert.
  - unfold bio_unlocked in *. by rewrite Hh.
Qed.

(** [bread]: the buffer it returns holds the current contents of the block. *)
Lemma bread_spec s V D H sec :
  bstore s V D H -> 0 <= sec < d_size (k_disk s) ->
  (forall i d, (i, sec, d) ∉ H) ->
  (sec ∈ D \/ size (pinned D H) < NBUF)%nat ->
  runs (bread ROOTDEV sec) s (fun i s' =>
    bstore s' V D ((i, sec, V sec) :: H) /\ bframe s s' /\ k_disk s' = k_disk s).
Proof.
  intros Hst Hrange Hfree Hroom. pose proof Hst as [[l Hr] Hc (Hlk1 & Hlk2 & Hlk3)].
  unfold bread.
  destruct (find (matches (cells (k_bufs s)) ROOTDEV sec) l) as [i|] eqn:Ef.
  - pose proof Ef as Em. apply find_some in Em as [Hin Hm%Is_true_true]. unfold matches in Hm.
    destruct (cells (k_bufs s) !! i) as [c|] eqn:Ei; [|done].
    apply Is_true_true, andb_true_iff in Hm as [Hdev%Z.eqb_eq Hsec%Z.eqb_eq].
    apply cells_lookup_inv in Ei as Hb. destruct Hb as [Hlt (b & Hb & ->)].
    assert (busy b = false) as Hnb.
    { destruct (busy b) eqn:Eb; [|done]. exfalso.
      apply (Hfree i (b_data b)). pose proof (cs_busy _ _ _ _ _ Hc _ _ Ei Eb) as Hin'.
      simpl in *. congruence. }
    pose proof (cs_valid _ _ _ _ _ Hc _ _ Ei ltac:(done)) as Hv. simpl in Hv.
    eapply runs_eq; [by eapply bget_hit|].
    eapply runs_getb; [simpl; apply list_lookup_insert_eq; by eapply lookup_lt_Some|].
    rewrite valid_set_busy, Hv. cbn [negb]. rstep. rstep.
    split_and!; [|by exists (<[i:=bset_flags (set_flag (b_flags b) B_BUSY) b]> (k_bufs s)),
      (k_disk s), (k_procs s); destruct s|done].
    eapply bstore_update; [exact Hst|exact Hb|reflexivity|..]; try done.
    unfold cell_of at 1. autorewrite with bflags. rewrite Hv.
    simpl in *. subst sec. rewrite Hdev.
    by apply (cstore_take _ _ _ _ _ i (cell_of b)).
  - assert (forall j cj, cells (k_bufs s) !! j = Some cj -> c_dev cj = ROOTDEV ->
      c_sector cj <> sec) as Hmiss.
    { intros j cj Hj Hdj Hsj.
      assert (In j l) as Hin.
      { apply list_elem_of_In. eapply ring_in; [done|]. by eapply cstore_lt. }
      pose proof (find_none _ _ Ef _ Hin) as Hno. unfold matches in Hno.
      rewrite Hj, Hdj, Hsj, !Z.eqb_refl in Hno. done. }
    destruct Hroom as [HinD|Hroom].
    { exfalso. destruct (cs_pinned _ _ _ _ _ Hc _ HinD) as (j & cj & Hj & Hdj & Hsj).
      by eapply Hmiss. }
    destruct (cstore_victim _ _ _ _ _ (rev l) Hc) as (i & c & Hv & Hi & Hbu & Hdi); [|done|].
    { destruct Hr as (_ & Hl & _). rewrite <- Hl. symmetry. apply Permutation_rev. }
    apply cells_lookup_inv in Hi as Hb. destruct Hb as [Hlt (b & Hb & ->)].
    assert (i < length (k_bufs s))%nat as Hlen by by eapply lookup_lt_Some.
    eapply runs_eq; [by eapply bget_miss|].
    eapply runs_getb; [simpl; by apply list_lookup_insert_eq|].
    change (valid (recycle ROOTDEV sec b)) with false. cbn [negb].
    eapply runs_step.
    { eapply (iderw_sync _ i (recycle ROOTDEV sec b)); simpl;
        [by apply list_lookup_insert_eq|done..]. }
    intros [] s' (b' & d' & ps & -> & [Sb Sv Sd (Sdev & Ssec & Sp & Sn) Sdata] & Hps).
    change (dirty (recycle ROOTDEV sec b)) with false in Sdata. destruct Sdata as [Sdata ->].
    simpl in *. rstep. rewrite list_insert_insert_eq. split_and!.
    + eapply bstore_update; [exact Hst|exact Hb|reflexivity|..]; try done. simpl.
      unfold cell_of at 1. rewrite Sb, Sv, Sd, Sdev, Ssec, Sdata.
      replace (dblk (k_disk s) sec) with (V sec).
      2:{ symmetry. apply (cs_disk _ _ _ _ _ Hc); [done|]. intros HinD.
          destruct (cs_pinned _ _ _ _ _ Hc _ HinD) as (j & cj & Hj & Hdj & Hsj). by eapply Hmiss. }
      by apply (cstore_fill _ _ _ _ _ i (cell_of b)).
    + eexists _, _, _. split; [by destruct s|done].
    + done.
Qed.

(** [bwrite]: the block's contents reach the disk. *)
Lemma bwrite_spec s V D H i sec d :
  bstore s V D ((i, sec, d) :: H) ->
  runs (bwrite i) s (fun _ s' =>
    bstore s' (upd V sec d) (D ∖ {[sec]}) ((i, sec, d) :: H) /\ bframe s s' /\
    k_disk s' = disk_write (k_disk s) sec d).
Proof.
  intros Hst. pose proof Hst as [_ Hc (Hlk1 & Hlk2 & Hlk3)].
  destruct (bstore_ring_cells _ _ _ _ _ _ _ Hst)
    as (l & b & Hr & Hi & Hb & Hbu & Hv & Hdev & Hsec & Hd & Hrange).
  assert (i < length (k_bufs s))%nat as Hlen by by eapply lookup_lt_Some.
  unfold bwrite. bstep. apply runs_if_false; [by rewrite Hbu|]. bstep.
  eapply runs_mono.
  { eapply (iderw_sync _ i (bset_flags (set_flag (b_flags b) B_DIRTY) b)); simpl;
      autorewrite with bflags; [by apply list_lookup_insert_eq| |apply orb_true_r|..]; try done.
    by rewrite Hsec. }
  intros [] s' (b' & d' & ps & -> & [Sb Sv Sd (Sdev & Ssec & Sp & Sn) Sdata] & Hps).
  autorewrite with bflags in *. destruct Sdata as [Sdata ->]. simpl in *.
  rewrite list_insert_insert_eq. split_and!.
  - eapply bstore_update; [exact Hst|exact Hb|reflexivity|..]; try done. simpl.
    unfold cell_of at 1. rewrite Sb, Sv, Sd, Sdev, Ssec, Sdata, Hsec, Hd.
    pose proof (cells_lookup _ _ _ Hi Hb) as Hcell.
    pose proof (cstore_sync _ _ _ _ _ _ _ _ _ Hc Hcell) as Hs. simpl in Hs.
    by rewrite Hsec, Hd in Hs.
  - eexists _, _, _. split; [by destruct s|done].
  - by rewrite Hsec, Hd.
Qed.

(** Storing into the data of a held buffer. *)
Lemma bset_spec s V D H i sec d d' :
  bstore s V D ((i, sec, d) :: H) -> length d' = 512%nat ->
  runs (updb i (bset_data d')) s (fun _ s' =>
    bstore s' V D ((i, sec, d') :: H) /\ bframe s s' /\ k_disk s' = k_disk s).
Proof.
  intros Hst Hlen. pose proof Hst as [_ Hc _].
  destruct (bstore_ring_cells _ _ _ _ _ _ _ Hst)
    as (l & b & Hr & Hi & Hb & Hbu & Hv & Hdev & Hsec & Hd & Hrange).
  bstep. split_and!; [| |done].
  - eapply bstore_update; [exact Hst|exact Hb|reflexivity|..]; try done.
    pose proof (cells_lookup _ _ _ Hi Hb) as Hcell.
    by pose proof (cstore_set _ _ _ _ _ _ _ _ _ Hc Hcell d' Hlen).
  - eexists _, (k_disk s), (k_procs s). split; [by destruct s|done].
Qed.

(** Marking a held buffer dirty: its contents are the block's from now on. *)
Lemma bmark_spec s V D H i sec d :
  bstore s V D ((i, sec, d) :: H) ->
  runs (updb i (fun b => bset_flags (set_flag (b_flags b) B_DIRTY) b)) s (fun _ s' =>
    bstore s' (upd V sec d) ({[sec]} ∪ D) ((i, sec, d) :: H) /\ bframe s s' /\
    k_disk s' = k_disk s).
Proof.
  intros Hst. pose proof Hst as [_ Hc _].
  destruct (bstore_ring_cells _ _ _ _ _ _ _ Hst)
    as (l & b & Hr & Hi & Hb & Hbu & Hv & Hdev & Hsec & Hd & Hrange).
  bstep. split_and!; [| |done].
  - eapply bstore_update; [exact Hst|exact Hb|reflexivity|..]; try done.
    pose proof (cells_lookup _ _ _ Hi Hb) as Hcell.
    pose proof (cstore_mark _ _ _ _ _ _ _ _ _ Hc Hcell) as Hm.
    unfold cell_of at 1. autorewrite with bflags. exact Hm.
  - eexists _, (k_disk s), (k_procs s). split; [by destruct s|done].
Qed.
End specs.

(** ** [brelse] moves the buffer to the front of the ring *)

Section links.
Context {A : Type}.

Lemma runs_next s i x (f : buf -> K A) Q :
  nextof (k_bufs s) i = Some x ->
  (forall b, b_next b = x -> runs (f b) s Q) -> runs (bind (getb i) f) s Q.
Proof.
  unfold nextof. intros (b & Hb & ->)%fmap_Some Hf. eapply runs_getb; [done|]. by apply Hf.
Qed.

Lemma runs_links s i x y (f : buf -> K A) Q :
  nextof (k_bufs s) i = Some x -> prevof (k_bufs s) i = Some y ->
  (forall b, b_next b = x -> b_prev b = y -> runs (f b) s Q) -> runs (bind (getb i) f) s Q.
Proof.
  unfold nextof, prevof. intros (b & Hb & ->)%fmap_Some (b' & Hb' & ->)%fmap_Some Hf.
  eapply runs_getb; [done|]. apply Hf; congruence.
Qed.

Lemma runs_set_next s i v (k : unit -> K A) Q :
  (i <= NBUF)%nat -> length (k_bufs s) = S NBUF ->
  (forall bs, length bs = S NBUF -> cells bs = cells (k_bufs s) ->
     (forall a, nextof bs a = fupd (nextof (k_bufs s)) i v a) ->
     (forall a, prevof bs a = prevof (k_bufs s) a) ->
     runs (k tt) (set_bufs bs s) Q) ->
  runs (bind (updb i (bset_next v)) k) s Q.
Proof.
  intros Hi Hlen Hk. assert (is_Some (k_bufs s !! i)) as [b Hb].
  { apply lookup_lt_is_Some. lia. }
  eapply runs_bind, runs_updb; [exact Hb|]. apply Hk.
  - by rewrite length_insert.
  - by eapply cells_same.
  - intros a. by apply nextof_set.
  - intros a. by eapply prevof_same.
Qed.

Lemma runs_set_prev s i v (k : unit -> K A) Q :
  (i <= NBUF)%nat -> length (k_bufs s) = S NBUF ->
  (forall bs, length bs = S NBUF -> cells bs = cells (k_bufs s) ->
     (forall a, nextof bs a = nextof (k_bufs s) a) ->
     (forall a, prevof bs a = fupd (prevof (k_bufs s)) i v a) ->
     runs (k tt) (set_bufs bs s) Q) ->
  runs (bind (updb i (bset_prev v)) k) s Q.
Proof.
  intros Hi Hlen Hk. assert (is_Some (k_bufs s !! i)) as [b Hb].
  { apply lookup_lt_is_Some. lia. }
  eapply runs_bind, runs_updb; [exact Hb|]. apply Hk.
  - by rewrite length_insert.
  - by eapply cells_same.
  - intros a. by eapply nextof_same.
  - intros a. by apply prevof_set.
Qed.
End links.

(** The pointer surgery of [brelse]: unlink buffer [i], then push it at the head. *)
Definition relink (i : nat) (k : K unit) : K unit :=
  b <- getb i ;;
  updb (b_next b) (bset_prev (b_prev b)) ;;
  b <- getb i ;;
  updb (b_prev b) (bset_next (b_next b)) ;;
  h <- getb HEAD ;;
  updb i (bset_next (b_next h)) ;;
  updb i (bset_prev HEAD) ;;
  h <- getb HEAD ;;
  updb (b_next h) (bset_prev i) ;;
  updb HEAD (bset_next i) ;;
  k.

Lemma relink_spec s l1 i l2 k Q :
  ring (k_bufs s) (l1 ++ i :: l2) ->
  (forall bs, ring bs (i :: l1 ++ l2) -> cells bs = cells (k_bufs s) ->
     runs k (set_bufs bs s) Q) ->
  runs (relink i k) s Q.
Proof.
  intros Hr Hk. pose proof Hr as (Hc & Hperm & Hlen).
  pose proof (ring_nodup _ _ Hr) as Hnd.
  pose proof Hc as Hc'. apply chain_app in Hc' as [H1 H2].
  set (a := final HEAD l1). set (b := first l2 HEAD).
  assert (nextof (k_bufs s) i = Some b) as Hn by (by eapply chain_first).
  assert (prevof (k_bufs s) i = Some a) as Hp by (by eapply chain_final).
  assert (forall x, x ∈ l1 ++ i :: l2 -> (x < NBUF)%nat) as Hlt by (intros; by eapply ring_lt).
  assert (i < NBUF)%nat as Hi by (apply Hlt; set_solver).
  assert (b <= NBUF)%nat as Hb.
  { unfold b. destruct (first_in l2 HEAD) as [->|]; [done|]. apply Nat.lt_le_incl, Hlt. set_solver. }
  assert (a <= NBUF)%nat as Ha.
  { unfold a. destruct (final_in HEAD l1) as [->|]; [done|]. apply Nat.lt_le_incl, Hlt. set_solver. }
  assert (i ∉ l1 /\ i ∉ l2 /\ i <> HEAD) as (Hi1 & Hi2 & Hih).
  { apply NoDup_cons in Hnd as [? Hnd]. apply NoDup_app in Hnd as (? & Hd & Hnd2).
    apply NoDup_cons in Hnd2 as [? ?]. set_solver. }
  assert (i <> b) as Hib by (unfold b; destruct (first_in l2 HEAD); set_solver).
  assert (i <> a) as Hia by (unfold a; destruct (final_in HEAD l1); set_solver).
  pose proof (chain_unlink _ _ _ _ _ _ Hnd Hc) as Hu. cbv zeta in Hu. fold a b in Hu.
  assert (NoDup (HEAD :: i :: l1 ++ l2)) as Hnd'.
  { eapply (NoDup_Permutation_proper _ (HEAD :: l1 ++ i :: l2)); [|done].
    f_equiv. apply Permutation_middle. }
  pose proof (chain_push _ _ _ _ _ Hnd' Hu) as Hpu. cbv zeta in Hpu.
  set (f := first (l1 ++ l2) HEAD) in *.
  assert (f <= NBUF)%nat as Hf.
  { unfold f. destruct (first_in (l1 ++ l2) HEAD) as [->|]; [done|].
    apply Nat.lt_le_incl, Hlt. set_solver. }
  unfold relink.
  eapply runs_links; [done..|]. intros b0 -> ->.
  apply runs_set_prev; [done..|]. intros bs1 L1 C1 N1 P1.
  eapply (runs_links _ _ b a); simpl; [by rewrite N1|by rewrite P1, fupd_ne|]. intros b1 -> ->.
  apply runs_set_next; [done..|]. simpl. intros bs2 L2 C2 N2 P2.
  assert (nextof bs2 HEAD = Some f) as Hf2.
  { pose proof (chain_first _ _ _ _ _ Hu) as Hu1. fold f in Hu1. rewrite <- Hu1, N2.
    unfold fupd. by rewrite N1. }
  eapply (runs_next _ _ f); simpl; [done|]. intros h1 ->.
  apply runs_set_next; simpl; [lia|done|]. intros bs3 L3 C3 N3 P3.
  apply runs_set_prev; simpl; [lia|done|]. intros bs4 L4 C4 N4 P4.
  eapply (runs_next _ _ f); simpl; [by rewrite N4, N3, fupd_ne|]. intros h2 ->.
  apply runs_set_prev; simpl; [done..|]. intros bs5 L5 C5 N5 P5.
  apply runs_set_next; simpl; [done..|]. intros bs6 L6 C6 N6 P6.
  simpl. eapply (Hk bs6); [|congruence]. split_and!; [| |done].
  - eapply chain_agree; [| |exact Hpu]; intros x _; unfold fupd.
    + rewrite N6. unfold fupd. rewrite N5, N4, N3. unfold fupd. rewrite N2. unfold fupd. by rewrite N1.
    + rewrite P6, P5. unfold fupd. rewrite P4. unfold fupd. by rewrite P3, P2, P1.
  - rewrite <- Hperm. by rewrite Permutation_middle.
Qed.

Lemma runs_brelse s l1 i l2 b Q :
  ring (k_bufs s) (l1 ++ i :: l2) -> k_bufs s !! i = Some b -> busy b = true ->
  LBcache ∉ k_held s -> LPtable ∉ k_held s ->
  (forall bs, ring bs (i :: l1 ++ l2) ->
     cells bs = <[i := Cell false (valid b) (dirty b) (b_dev b) (b_sector b) (b_data b)]>
                  (cells (k_bufs s)) ->
     Q tt (set_bufs bs (set_procs (map (wake (ChBuf i)) (k_procs s)) s))) ->
  runs (brelse i) s Q.
Proof.
  intros Hr Hb Hbu Hl1 Hl2 HQ. unfold brelse. bstep. apply runs_if_false; [by rewrite Hbu|].
  eapply runs_eq; [by apply acquire_free|]. apply (relink_spec _ l1 i l2); [done|].
  intros bs Hbs Hcs. simpl in Hcs.
  assert (i < NBUF)%nat as Hi by (eapply ring_lt; [exact Hr|set_solver]).
  assert (is_Some (bs !! i)) as [b' Hb'] by (eapply ring_is_Some; [done|lia]).
  assert (cell_of b' = cell_of b) as Hcell.
  { pose proof (cells_lookup _ _ _ Hi Hb). pose proof (cells_lookup _ _ _ Hi Hb'). congruence. }
  unfold cell_of in Hcell. injection Hcell as E1 E2 E3 E4 E5 E6.
  eapply runs_bind, runs_updb; [exact Hb'|]. 
  eapply runs_eq; [apply wakeup_eq; simpl; set_solver|].
  eapply runs_eq_last; [by apply (release_top _ (k_held s))|].
  match goal with |- Q tt ?x => replace x with
    (set_bufs (<[i := bset_flags (clr_flag (b_flags b') B_BUSY) b']> bs)
       (set_procs (map (wake (ChBuf i)) (k_procs s)) s)) by by destruct s end.
  apply HQ.
  - by eapply ring_same.
  - rewrite cells_insert by done. rewrite Hcs. f_equal. unfold cell_of.
    autorewrite with bflags. simpl. congruence.
Qed.

Lemma brelse_spec s V D H i sec d :
  bstore s V D ((i, sec, d) :: H) -> d = V sec ->
  runs (brelse i) s (fun _ s' =>
    bstore s' V D H /\ bframe s s' /\ k_disk s' = k_disk s).
Proof.
  intros Hst Hd. pose proof Hst as [_ Hc (Hlk1 & Hlk2 & Hlk3)].
  destruct (bstore_ring_cells _ _ _ _ _ _ _ Hst)
    as (l & b & Hr & Hi & Hb & Hbu & Hv & Hdev & Hsec & Hda & Hrange).
  destruct (list_elem_of_split l i) as (l1 & l2 & ->); [by eapply ring_in|].
  eapply runs_brelse; [done..|]. intros bs Hbs Hcs. split_and!; [|  |done].
  - split; [by eexists| |done]. simpl. rewrite Hcs.
    pose proof (cells_lookup _ _ _ Hi Hb) as Hcell.
    exact (cstore_put _ _ _ _ _ _ _ _ _ Hc Hcell Hd).
  - exists bs, (k_disk s), (map (wake (ChBuf i)) (k_procs s)).
    split; [by destruct s|]. split; [apply wake_woken|done].
Qed.

(** ** Derived rules *)

Lemma pinned_nil D : pinned D [] = D.
Proof. unfold pinned. simpl. by rewrite union_empty_r_L. Qed.

Lemma pinned_cons D h H : (size (pinned D (h :: H)) <= S (size (pinned D H)))%nat.
Proof.
  replace (pinned D (h :: H)) with ({[h_sec h]} ∪ pinned D H)
    by (unfold pinned; simpl; set_solver).
  rewrite size_union_alt, size_singleton.
  assert (size (pinned D H ∖ {[h_sec h]}) <= size (pinned D H))%nat;
    [apply subseteq_size; set_solver|lia].
Qed.

Lemma pinned_bound D H : (size (pinned D H) <= size D + length H)%nat.
Proof.
  induction H as [|h H IH]; simpl; [rewrite pinned_nil; lia|].
  pose proof (pinned_cons D h H). lia.
Qed.

Lemma cstore_perm cs dk V D H H' : H ≡ₚ H' -> cstore cs dk V D H -> cstore cs dk V D H'.
Proof.
  intros Hp [Hlen Huniq Hidle Hval Hbusy Hheld Hnd Hhlen Hdirty Hpin Hview Hdisk Hvlen].
  split; try done.
  - intros i c Hi Hb. rewrite <- Hp. eauto.
  - intros i sec d. rewrite <- Hp. eauto.
  - change (NoDup (h_buf <$> H')). by rewrite <- Hp.
  - intros i sec d. rewrite <- Hp. eauto.
Qed.

Lemma bstore_perm s V D H H' : H ≡ₚ H' -> bstore s V D H -> bstore s V D H'.
Proof. intros Hp [Hr Hc Hl]. split; [done| |done]. by eapply cstore_perm. Qed.

Lemma bstore_swap s V D h1 h2 H : bstore s V D (h1 :: h2 :: H) -> bstore s V D (h2 :: h1 :: H).
Proof. apply bstore_perm. apply Permutation_swap. Qed.

Lemma bstore_ext s V V' D H : (forall x, V x = V' x) -> bstore s V D H -> bstore s V' D H.
Proof.
  intros HV [Hr [Hlen Huniq Hidle Hval Hbusy Hheld Hnd Hhlen Hdirty Hpin Hview Hdisk Hvlen] Hl].
  split; [done| |done]. split; try done.
  - intros i c Hi Hd Hb. rewrite <- HV. eauto.
  - intros sec H1 H2. rewrite <- HV. eauto.
  - intros sec H1. rewrite <- HV. eauto.
Qed.

(** The store ignores the state outside the cache, the disk and the locks. *)
Lemma bstore_same s s' V D H :
  k_bufs s' = k_bufs s -> k_disk s' = k_disk s -> k_held s' = k_held s ->
  bstore s V D H -> bstore s' V D H.
Proof.
  intros Hb Hd Hh [Hr Hc Hl]. split; [by rewrite Hb|by rewrite Hb, Hd|].
  unfold bio_unlocked in *. by rewrite Hh.
Qed.

Lemma bstore_held_len s V D H i sec d :
  bstore s V D H -> (i, sec, d) ∈ H -> length d = 512%nat /\ 0 <= sec < d_size (k_disk s).
Proof. intros [_ Hc _]. apply (cs_hlen _ _ _ _ _ Hc). Qed.

Lemma bstore_top_len s V D H i sec d :
  bstore s V D ((i, sec, d) :: H) -> length d = 512%nat /\ 0 <= sec < d_size (k_disk s).
Proof. intros Hst. eapply bstore_held_len; [done|]. left. Qed.

Lemma bstore_vlen s V D H sec :
  bstore s V D H -> 0 <= sec < d_size (k_disk s) -> length (V sec) = 512%nat.
Proof. intros [_ Hc _]. apply (cs_vlen _ _ _ _ _ Hc). Qed.

Lemma bstore_disk s V D H sec :
  bstore s V D H -> 0 <= sec < d_size (k_disk s) -> sec ∉ D -> dblk (k_disk s) sec = V sec.
Proof. intros [_ Hc _]. apply (cs_disk _ _ _ _ _ Hc). Qed.

Lemma held_getb {A} s V D H i sec d (f : buf -> K A) Q :
  bstore s V D H -> (i, sec, d) ∈ H ->
  (forall b, b_dev b = ROOTDEV -> b_sector b = sec -> b_data b = d -> runs (f b) s Q) ->
  runs (bind (getb i) f) s Q.
Proof.
  intros [_ Hc _] Hin Hf.
  destruct (cs_held _ _ _ _ _ Hc _ _ _ Hin) as (c & Hi & _ & Hdev & Hsec & Hd).
  apply cells_lookup_inv in Hi as (_ & b & Hb & ->).
  eapply runs_getb; [done|]. by apply Hf.
Qed.

Lemma bset_fun_spec s V D H i sec d f :
  bstore s V D ((i, sec, d) :: H) -> length (f d) = 512%nat ->
  runs (updb i (fun b => bset_data (f (b_data b)) b)) s (fun _ s' =>
    bstore s' V D ((i, sec, f d) :: H) /\ bframe s s' /\ k_disk s' = k_disk s).
Proof.
  intros Hst Hlen.
  destruct (bstore_ring_cells _ _ _ _ _ _ _ Hst) as (l & b & _ & _ & Hb & _ & _ & _ & _ & Hd & _).
  pose proof (bset_spec _ _ _ _ _ _ _ (f d) Hst Hlen) as (a & s' & Hm & HQ).
  exists a, s'. split; [|done]. rewrite <- Hm. unfold updb. rewrite Hb.
  rewrite !(alter_insert _ _ b) by done. by rewrite Hd.
Qed.

Lemma bframe_log s s' : bframe s s' -> k_log s' = k_log s.
Proof. by intros (bs & dk & ps & -> & _). Qed.
Lemma bframe_dsize s s' : bframe s s' -> d_size (k_disk s') = d_size (k_disk s).
Proof. by intros (bs & dk & ps & -> & _ & ?). Qed.
Lemma bframe_held s s' : bframe s s' -> k_held s' = k_held s.
Proof. by intros (bs & dk & ps & -> & _). Qed.

(** [runs_step] with one of the specifications above. *)
Tactic Notation "bcall" uconstr(spec) "as" simple_intropattern(p) :=
  eapply runs_step; [eapply spec; eauto|intros ? ? p].

(** Chains of frame conditions. *)
Ltac frames :=
  first [eassumption | reflexivity | etrans; [eassumption|]; frames].
