(* ===== verification/Log.v ===== *)
(** * The write-ahead log (kernel/log.c), and [readsb] of kernel/fs.c *)

From S2P Require Import Prelude Types Monad Sched Bio.

(** ** The superblock (include/fs.h) *)

Record superblock := Superblock {
  sb_size : Z; sb_nblocks : Z; sb_ninodes : Z; sb_nlog : Z
}.

Definition superblock_of (d : list Z) : superblock :=
  Superblock (get32 d 0) (get32 d 4) (get32 d 8) (get32 d 12).

(** ** In-memory log *)

Definition sizeof_logheader : Z := 4 + 4 * LOGSIZE.

Definition set_logged (f : log -> log) : K unit := modify (fun s => set_log (f (k_log s)) s).

(** [log.lh.sector[i] = v], and reading it. *)
Definition log_sector (i : nat) : K Z := nth_or_fault (fun s => l_sector (k_log s)) i.
Definition set_log_sector (i : nat) (v : Z) : K unit :=
  _ <- log_sector i ;;
  set_logged (fun l => lset_sector (<[i := v]> (l_sector l)) l).

Section log.
Context {drv : DiskDriver}.

Definition readsb (dev : Z) : K superblock :=
  i <- bread (u32 dev) 1 ;;
  b <- getb i ;;
  let sb := superblock_of (b_data b) in
  brelse i ;;
  ret sb.

(** The body of [install_trans]' loop. *)
Definition install_one (tail : nat) : K unit :=
  l <- gets k_log ;;
  lbuf <- bread (u32 (l_dev l)) (u32 (l_start l + Z.of_nat tail + 1)) ;;
  sec <- log_sector tail ;;
  dbuf <- bread (u32 (l_dev l)) (u32 sec) ;;
  lb <- getb lbuf ;;
  updb dbuf (bset_data (b_data lb)) ;;
  bwrite dbuf ;;
  brelse lbuf ;;
  brelse dbuf.

Definition install_trans : K unit :=
  l <- gets k_log ;;
  foreach install_one (seq 0 (Z.to_nat (l_n l))).

Definition read_head : K unit :=
  l <- gets k_log ;;
  buf <- bread (u32 (l_dev l)) (u32 (l_start l)) ;;
  b <- getb buf ;;
  set_logged (lset_n (s32 (get32 (b_data b) 0))) ;;
  l <- gets k_log ;;
  foreach (fun i => set_log_sector i (s32 (get32 (b_data b) (4 + 4 * i))))
    (seq 0 (Z.to_nat (l_n l))) ;;
  brelse buf.

Definition write_head : K unit :=
  l <- gets k_log ;;
  buf <- bread (u32 (l_dev l)) (u32 (l_start l)) ;;
  updb buf (fun b => bset_data (put32 (b_data b) 0 (l_n l)) b) ;;
  foreach (fun i =>
      sec <- log_sector i ;;
      updb buf (fun b => bset_data (put32 (b_data b) (4 + 4 * i) sec) b))
    (seq 0 (Z.to_nat (l_n l))) ;;
  bwrite buf ;;
  brelse buf.

Definition recover_from_log : K unit :=
  read_head ;;
  install_trans ;;
  set_logged (lset_n 0) ;;
  write_head.

Definition initlog : K unit :=
  if BSIZE <=? sizeof_logheader then panic "initlog: too big logheader" else
  initlock LLog ;;
  sb <- readsb ROOTDEV ;;
  set_logged (lset_start (s32 (sb_size sb - sb_nlog sb))) ;;
  set_logged (lset_size (s32 (sb_nlog sb))) ;;
  set_logged (lset_dev ROOTDEV) ;;
  recover_from_log.

(** [while (log.busy) sleep(&log, &log.lock)]; [fuel] bounds the iterations. *)
Fixpoint wait_log (fuel : nat) : K unit :=
  match fuel with
  | O => nofuel
  | S fuel =>
      l <- gets k_log ;;
      if l_busy l =? 0 then ret tt else
      sleep ChLog LLog ;;
      wait_log fuel
  end.

Definition begin_trans : K unit :=
  acquire LLog ;;
  wait_log 2 ;;
  set_logged (lset_busy 1) ;;
  release LLog.

Definition commit_trans : K unit :=
  l <- gets k_log ;;
  (if 0 <? l_n l then
     write_head ;;
     install_trans ;;
     set_logged (lset_n 0) ;;
     write_head
   else ret tt) ;;
  acquire LLog ;;
  set_logged (lset_busy 0) ;;
  wakeup ChLog ;;
  release LLog.

(** The index [log_write]'s loop stops at: the entry for the sector, or [n]. *)
Definition absorb (sectors : list Z) (n : Z) (sector : Z) : nat :=
  match findi (fun x => u32 x =? sector) (take (Z.to_nat n) sectors) with
  | Some k => k
  | None => Z.to_nat n
  end.

Definition log_write (i : nat) : K unit :=
  l <- gets k_log ;;
  if (LOGSIZE <=? l_n l) || (l_size l - 1 <=? l_n l) then panic "too big a transaction" else
  if l_busy l =? 0 then panic "write outside of trans" else
  b <- getb i ;;
  let k := absorb (l_sector l) (l_n l) (b_sector b) in
  set_log_sector k (s32 (b_sector b)) ;;
  lbuf <- bread (b_dev b) (u32 (l_start l + Z.of_nat k + 1)) ;;
  b <- getb i ;;
  updb lbuf (bset_data (b_data b)) ;;
  bwrite lbuf ;;
  brelse lbuf ;;
  (when Z.of_nat k =? l_n l do set_logged (fun l => lset_n (l_n l + 1) l)) ;;
  updb i (fun b => bset_flags (set_flag (b_flags b) B_DIRTY) b).
End log.
