(* ===== verification/LogSpec.v ===== *)
(** * What the log promises (kernel/log.c)

    Functional specifications of the log's operations over the block store of
    BioSpec.v: the header block's encoding, installation, commit and recovery,
    and the transaction view [tx] that the file system works against. *)

From S2P Require Import Prelude Types Monad Sched Bio BioSpec Log.

(** ** The shape of the log *)

Record log_geom (s : kstate) : Prop := {
  lg_dev : l_dev (k_log s) = ROOTDEV;
  lg_start : 1 < l_start (k_log s);
  lg_size : 0 < l_size (k_log s);
  lg_end : l_start (k_log s) + l_size (k_log s) <= d_size (k_disk s);
  lg_dsize : d_size (k_disk s) < 2147483648;
  lg_len : length (l_sector (k_log s)) = Z.to_nat LOGSIZE
}.

(** The in-memory header lists the sectors [L]. *)
Definition log_list (s : kstate) (L : list Z) : Prop :=
  l_n (k_log s) = Z.of_nat (length L) /\ take (length L) (l_sector (k_log s)) = L.

Lemma log_geom_same s s' :
  k_log s' = k_log s -> d_size (k_disk s') = d_size (k_disk s) -> log_geom s -> log_geom s'.
Proof. intros Hl Hd []. by split; rewrite ?Hl, ?Hd. Qed.

Lemma bframe_geom s s' : bframe s s' -> log_geom s -> log_geom s'.
Proof. intros Hf. apply log_geom_same; [by apply bframe_log|by apply bframe_dsize]. Qed.

Lemma bframe_list s s' L : bframe s s' -> log_list s L -> log_list s' L.
Proof. intros Hf. unfold log_list. by rewrite (bframe_log _ _ Hf). Qed.

Lemma log_list_lookup s L k x :
  log_list s L -> L !! k = Some x -> l_sector (k_log s) !! k = Some x.
Proof.
  intros [_ HL] Hk. rewrite <- HL in Hk. by apply lookup_take_Some in Hk as [? _].
Qed.

(** ** The header block *)

(** [hb->sector[i..] = L]. *)
Fixpoint put_sectors (d : list Z) (i : nat) (L : list Z) : list Z :=
  match L with
  | [] => d
  | x :: L => put_sectors (put32 d (4 + 4 * i) x) (S i) L
  end.

Definition header (d : list Z) (L : list Z) : list Z :=
  put_sectors (put32 d 0 (Z.of_nat (length L))) 0 L.

(** What [read_head] makes of a header block. *)
Definition head_n (d : list Z) : Z := s32 (get32 d 0).
Definition head_sectors (d : list Z) : list Z :=
  map (fun i => s32 (get32 d (4 + 4 * i))) (seq 0 (Z.to_nat (head_n d))).

Lemma length_put_sectors d i L :
  length d = 512%nat -> (i + length L <= 10)%nat -> length (put_sectors d i L) = 512%nat.
Proof.
  revert d i. induction L as [|x L IH]; intros d i Hd Hi; simpl in *; [done|].
  apply IH; [|lia]. rewrite length_put32; lia.
Qed.

Lemma put_sectors_below d i L off :
  length d = 512%nat -> (i + length L <= 10)%nat -> (off + 4 <= 4 + 4 * i)%nat ->
  get32 (put_sectors d i L) off = get32 d off.
Proof.
  revert d i. induction L as [|x L IH]; intros d i Hd Hi Hoff; simpl in *; [done|].
  rewrite IH; [|rewrite length_put32; lia|lia|lia]. by rewrite get32_put32_other by lia.
Qed.

Lemma put_sectors_at d i L k x :
  length d = 512%nat -> (i + length L <= 10)%nat -> L !! k = Some x ->
  get32 (put_sectors d i L) (4 + 4 * (i + k)) = u32 x.
Proof.
  revert d i k. induction L as [|y L IH]; intros d i k Hd Hi Hk; [done|].
  cbn [put_sectors length] in *. destruct k as [|k].
  - injection Hk as ->. rewrite Nat.add_0_r.
    rewrite put_sectors_below; [|rewrite length_put32; lia|lia|lia].
    rewrite get32_put32_same by lia. done.
  - replace (i + S k)%nat with (S i + k)%nat by lia. apply IH; [|lia|done].
    rewrite length_put32; lia.
Qed.

Section header.
Context (d : list Z) (L : list Z).
Context (Hd : length d = 512%nat) (HL : (length L <= 10)%nat).
Context (Hrange : forall x, x ∈ L -> 0 <= x < 2147483648).

Lemma length_header : length (header d L) = 512%nat.
Proof using Hd HL. apply length_put_sectors; [rewrite length_put32; lia|lia]. Qed.

Lemma head_n_header : head_n (header d L) = Z.of_nat (length L).
Proof using Hd HL.
  unfold head_n, header. rewrite put_sectors_below; [|rewrite length_put32; lia|lia|lia].
  rewrite get32_put32_same by lia. by width.
Qed.

(** Reading back a header gives the sectors written to it. *)
Lemma head_sectors_header : head_sectors (header d L) = L.
Proof using Hd HL Hrange.
  unfold head_sectors. rewrite head_n_header, Nat2Z.id. apply list_eq. intros k.
  change (map ?f ?l) with (f <$> l). rewrite list_lookup_fmap.
  destruct (L !! k) as [x|] eqn:Ek.
  - pose proof (lookup_lt_Some _ _ _ Ek). rewrite lookup_seq_lt by lia.
    rewrite fmap_Some. exists (0 + k)%nat. split; [done|]. unfold header.
    rewrite (put_sectors_at _ 0 L k x); [|rewrite length_put32; lia|lia|done].
    specialize (Hrange x (list_elem_of_lookup_2 _ _ _ Ek)). by width.
  - apply lookup_ge_None in Ek. by rewrite lookup_seq_ge by lia.
Qed.
End header.

(** ** Sequences of block writes *)

Abbreviation writes := (list (Z * list Z)).

Definition apply_writes (V : Z -> list Z) (ws : writes) : Z -> list Z :=
  foldl (fun W w => upd W w.1 w.2) V ws.
Definition replay (d : disk) (ws : writes) : disk :=
  foldl (fun d w => disk_write d w.1 w.2) d ws.

(** The writes of [install_trans] for the sectors [L], the first of which has its
    copy in log block [k]. *)
Fixpoint install_writes (V : Z -> list Z) (start : Z) (k : nat) (L : list Z) : writes :=
  match L with
  | [] => []
  | sec :: L => (sec, V (start + Z.of_nat k + 1)) :: install_writes V start (S k) L
  end.

Lemma apply_writes_app V ws ws' :
  apply_writes V (ws ++ ws') = apply_writes (apply_writes V ws) ws'.
Proof. apply foldl_app. Qed.
Lemma replay_app d ws ws' : replay d (ws ++ ws') = replay (replay d ws) ws'.
Proof. apply foldl_app. Qed.

Lemma apply_writes_notin V ws x : x ∉ ws.*1 -> apply_writes V ws x = V x.
Proof.
  revert V. induction ws as [|[sec d] ws IH]; intros V Hx; [done|].
  simpl in *. rewrite IH by set_solver. apply upd_ne. set_solver.
Qed.

Lemma apply_writes_ext V V' ws x : V x = V' x -> apply_writes V ws x = apply_writes V' ws x.
Proof.
  revert V V'. induction ws as [|[sec d] ws IH]; intros V V' Hx; [done|].
  simpl. apply IH. unfold upd. by case_decide.
Qed.

Lemma apply_writes_at V ws k sec d :
  NoDup ws.*1 -> ws !! k = Some (sec, d) -> apply_writes V ws sec = d.
Proof.
  revert V k. induction ws as [|[sec' d'] ws IH]; intros V k Hnd Hk; [done|].
  simpl in *. apply NoDup_cons in Hnd as [Hni Hnd]. destruct k as [|k]; simpl in Hk.
  - injection Hk as -> ->. rewrite apply_writes_notin by done. apply upd_eq.
  - by eapply IH.
Qed.

Lemma dblk_disk_write d sec b x : dblk (disk_write d sec b) x = upd (dblk d) sec b x.
Proof.
  unfold dblk, disk_write, upd. simpl. rewrite lookup_insert.
  by repeat case_decide; subst.
Qed.

Lemma dblk_replay d ws x : dblk (replay d ws) x = apply_writes (dblk d) ws x.
Proof.
  revert d. induction ws as [|[sec b] ws IH]; intros d; [done|].
  simpl. rewrite IH. apply apply_writes_ext. apply dblk_disk_write.
Qed.

Lemma d_size_replay d ws : d_size (replay d ws) = d_size d.
Proof. revert d. induction ws as [|w ws IH]; intros d; [done|]. simpl. by rewrite IH. Qed.

Lemma d_writes_replay d ws : d_writes (replay d ws) = d_writes d ++ ws.
Proof.
  revert d. induction ws as [|[sec b] ws IH]; intros d; simpl; [by rewrite app_nil_r|].
  rewrite IH. simpl. by rewrite <- app_assoc.
Qed.

Lemma install_writes_fst V start k L : (install_writes V start k L).*1 = L.
Proof. revert k. induction L as [|x L IH]; intros k; simpl; [done|]. by rewrite IH. Qed.

Lemma install_writes_lookup V start k L j sec :
  L !! j = Some sec ->
  install_writes V start k L !! j = Some (sec, V (start + Z.of_nat (k + j) + 1)).
Proof.
  revert k j. induction L as [|x L IH]; intros k j Hj; [done|]. destruct j as [|j]; simpl in *.
  - injection Hj as ->. by rewrite Nat.add_0_r.
  - rewrite IH by done. do 4 f_equal. lia.
Qed.

Lemma install_writes_inv V start k L j sec d :
  install_writes V start k L !! j = Some (sec, d) ->
  L !! j = Some sec /\ d = V (start + Z.of_nat (k + j) + 1).
Proof.
  intros Hj. assert (L !! j = Some sec) as HL.
  { rewrite <- (install_writes_fst V start k L), list_lookup_fmap. by rewrite Hj. }
  split; [done|]. rewrite (install_writes_lookup _ _ _ _ _ _ HL) in Hj. by injection Hj.
Qed.

Lemma install_writes_ext V V' start k L :
  (forall x, start < x -> V x = V' x) ->
  install_writes V start k L = install_writes V' start k L.
Proof.
  intros HV. revert k. induction L as [|x L IH]; intros k; simpl; [done|].
  by rewrite IH, HV by lia.
Qed.

(** ** The operations on the header and the log area *)

(** Widths: every block number of a well-shaped log fits an [int] and a [uint]. *)
Lemma u32_dev : u32 ROOTDEV = ROOTDEV.
Proof. done. Qed.

Section ops.
Context {drv : DiskDriver}.

Lemma write_sectors_spec s V D buf start d i L :
  bstore s V D [(buf, start, d)] -> (i + length L <= 10)%nat ->
  (forall k x, L !! k = Some x -> l_sector (k_log s) !! (i + k)%nat = Some x) ->
  runs (foreach (fun i =>
      sec <- log_sector i ;;
      updb buf (fun b => bset_data (put32 (b_data b) (4 + 4 * i) sec) b))
    (seq i (length L))) s (fun _ s' =>
      bstore s' V D [(buf, start, put_sectors d i L)] /\ bframe s s' /\ k_disk s' = k_disk s).
Proof.
  revert s d i. induction L as [|x L IH]; intros s d i Hst Hi HL; cbn [seq length foreach].
  - apply runs_ret. by split_and!.
  - cbn [length] in Hi.
    destruct (bstore_top_len _ _ _ _ _ _ _ Hst) as [Hd _].
    apply runs_assoc. eapply runs_bind, runs_nth.
    { rewrite <- (Nat.add_0_r i). by apply HL. }
    eapply runs_step; [apply (bset_fun_spec _ _ _ _ _ _ _ (fun d => put32 d (4 + 4 * i) x) Hst)|].
    { rewrite length_put32; lia. }
    intros [] s1 (Hst1 & Hf1 & Hd1). eapply runs_mono; [apply (IH s1 _ (S i) Hst1)|].
    + lia.
    + intros k y Hk. rewrite (bframe_log _ _ Hf1), <- (HL (S k)) by done. f_equal. lia.
    + intros [] s2 (Hst2 & Hf2 & Hd2). split; [done|]. split; [by etrans|congruence].
Qed.

Lemma write_head_spec s V D L :
  bstore s V D [] -> log_geom s -> log_list s L -> (length L <= 10)%nat ->
  l_start (k_log s) ∉ D -> (size D < NBUF)%nat ->
  let start := l_start (k_log s) in
  let h := header (V start) L in
  runs write_head s (fun _ s' =>
    bstore s' (upd V start h) D [] /\ bframe s s' /\ k_disk s' = disk_write (k_disk s) start h).
Proof.
  intros Hst [Hdev Hs0 Hsz Hend Hds Hlen] [Hn HL] Hlt HnD Hroom start h.
  unfold write_head. rstep. rewrite Hdev, u32_dev, (u32_small (l_start _)), Hn, Nat2Z.id by lia.
  bcall bread_spec as (Hst1 & Hf1 & Hd1).
  { lia. }
  { void. }
  { right. by rewrite pinned_nil. }
  destruct (bstore_top_len _ _ _ _ _ _ _ Hst1) as [Hl1 _].
  eapply runs_step; [apply (bset_fun_spec _ _ _ _ _ _ _ (fun d => put32 d 0 _) Hst1)|].
  { rewrite length_put32; lia. }
  intros [] s2 (Hst2 & Hf2 & Hd2).
  eapply runs_step; [eapply (write_sectors_spec _ _ _ _ _ _ 0 L Hst2)|].
  { lia. }
  { intros k x Hk. rewrite (bframe_log _ _ Hf2), (bframe_log _ _ Hf1). simpl.
    by eapply log_list_lookup. }
  intros [] s3 (Hst3 & Hf3 & Hd3).
  bcall bwrite_spec as (Hst4 & Hf4 & Hd4). fold start h in Hst4, Hd4.
  eapply runs_mono; [apply (brelse_spec _ _ _ _ _ _ _ Hst4); by rewrite upd_eq|].
  intros [] s5 (Hst5 & Hf5 & Hd5). split_and!.
  - by rewrite difference_disjoint_L in Hst5 by set_solver.
  - frames.
  - by rewrite Hd5, Hd4, Hd3, Hd2, Hd1.
Qed.

Lemma install_one_spec s V D k sec :
  bstore s V D [] -> log_geom s -> l_sector (k_log s) !! k = Some sec ->
  0 <= sec < l_start (k_log s) -> Z.of_nat k < l_size (k_log s) - 1 ->
  (size D < NBUF)%nat -> (sec ∈ D \/ S (size D) < NBUF)%nat ->
  let d := V (l_start (k_log s) + Z.of_nat k + 1) in
  runs (install_one k) s (fun _ s' =>
    bstore s' (upd V sec d) (D ∖ {[sec]}) [] /\ bframe s s' /\
    k_disk s' = disk_write (k_disk s) sec d).
Proof.
  intros Hst [Hdev Hs0 Hsz Hend Hds Hlen] Hk Hsec Hksz Hroom Hroom2 d.
  unfold install_one. rstep. rewrite Hdev, u32_dev, u32_small by lia.
  bcall bread_spec as (Hst1 & Hf1 & Hd1).
  { lia. }
  { void. }
  { right. by rewrite pinned_nil. }
  unfold log_sector. eapply runs_bind, runs_nth; [by rewrite (bframe_log _ _ Hf1)|].
  rewrite (u32_small sec) by lia. destruct (bstore_top_len _ _ _ _ _ _ _ Hst1) as [Hl1 _].
  bcall bread_spec as (Hst2 & Hf2 & Hd2).
  { rewrite Hd1. lia. }
  { intros i e [[= -> ? _]|?]%elem_of_cons; [lia|set_solver]. }
  { destruct Hroom2; [by left|right]. eapply Nat.le_lt_trans; [apply pinned_bound|].
    simpl. lia. }
  eapply held_getb; [exact Hst2|right; left|]. intros b _ _ Hb. rewrite Hb.
  bcall bset_spec as (Hst3 & Hf3 & Hd3). clear b Hb.
  bcall bwrite_spec as (Hst4 & Hf4 & Hd4).
  apply bstore_swap in Hst4.
  eapply runs_step; [apply (brelse_spec _ _ _ _ _ _ _ Hst4); by rewrite upd_ne by lia|].
  intros [] s5 (Hst5 & Hf5 & Hd5).
  eapply runs_mono; [apply (brelse_spec _ _ _ _ _ _ _ Hst5); by rewrite upd_eq|].
  intros [] s6 (Hst6 & Hf6 & Hd6).
  split; [done|]. split; [frames|]. by rewrite Hd6, Hd5, Hd4, Hd3, Hd2, Hd1.
Qed.

Lemma install_spec s V D k L :
  bstore s V D [] -> log_geom s -> NoDup L ->
  (forall j x, L !! j = Some x -> l_sector (k_log s) !! (k + j)%nat = Some x) ->
  (forall x, x ∈ L -> 0 <= x < l_start (k_log s) /\ (x ∈ D \/ S (size D) < NBUF)%nat) ->
  Z.of_nat (k + length L) <= l_size (k_log s) - 1 -> (size D < NBUF)%nat ->
  let ws := install_writes V (l_start (k_log s)) k L in
  runs (foreach install_one (seq k (length L))) s (fun _ s' =>
    bstore s' (apply_writes V ws) (D ∖ list_to_set L) [] /\ bframe s s' /\
    k_disk s' = replay (k_disk s) ws).
Proof.
  revert s V D k. induction L as [|x L IH]; intros s V D k Hst Hg Hnd Hlk Hin Hsz Hroom ws.
  { apply runs_ret. simpl. rewrite difference_empty_L. by split_and!. }
  cbn [seq length foreach] in *. apply NoDup_cons in Hnd as [Hni Hnd].
  destruct (Hin x ltac:(set_solver)) as [Hx1 Hx2].
  eapply runs_step; [apply (install_one_spec s V D k x)|]; try done.
  { rewrite <- (Nat.add_0_r k). by apply Hlk. }
  { lia. }
  intros [] s1 (Hst1 & Hf1 & Hd1). pose proof (bframe_log _ _ Hf1) as Hlog.
  assert (size (D ∖ {[x]}) <= size D)%nat as Hsize by (apply subseteq_size; set_solver).
  eapply runs_mono; [apply (IH s1 _ _ (S k) Hst1)|]; rewrite ?Hlog.
  - by eapply bframe_geom.
  - done.
  - intros j y Hj. rewrite <- (Hlk (S j)) by done. f_equal. lia.
  - intros y Hy. destruct (Hin y ltac:(set_solver)) as [? [?|?]]; split; try done; [left|right; lia].
    set_solver.
  - lia.
  - lia.
  - intros [] s2 (Hst2 & Hf2 & Hd2).
    rewrite (install_writes_ext _ V) in Hst2, Hd2 by (intros y Hy; apply upd_ne; lia).
    subst ws. simpl. split_and!; [|frames|congruence].
    by replace (D ∖ ({[x]} ∪ list_to_set L)) with (D ∖ {[x]} ∖ list_to_set L) by set_solver.
Qed.

(** [for (i = i0; i < i0 + m; i++) log.lh.sector[i] = f(i)]. *)
Lemma set_sectors_eq (f : nat -> Z) s i m :
  (i + m <= length (l_sector (k_log s)))%nat ->
  foreach (fun i => set_log_sector i (f i)) (seq i m) s
  = Ret tt (set_log (lset_sector (splice (l_sector (k_log s)) i (map f (seq i m))) (k_log s)) s).
Proof.
  revert s i. induction m as [|m IH]; intros s i Hi; cbn [seq map foreach].
  - unfold splice. simpl. rewrite Nat.add_0_r, take_drop. by destruct s as [? ? ? []].
  - unfold bind at 1. unfold set_log_sector, log_sector, nth_or_fault, bind.
    destruct (lookup_lt_is_Some_2 (l_sector (k_log s)) i ltac:(lia)) as [x Hx]. rewrite Hx.
    unfold set_logged, modify. rewrite IH by (simpl; rewrite length_insert; lia).
    f_equal. destruct s as [? ? ? []]. unfold lset_sector, set_log. simpl in *. do 2 f_equal.
    unfold splice. simpl. rewrite length_map, length_seq.
    rewrite (take_S_r _ _ (f i)) by (apply list_lookup_insert_eq; lia).
    rewrite take_insert_ge by lia. rewrite <- app_assoc. simpl. do 3 f_equal.
    rewrite drop_insert_lt by lia. f_equal. lia.
Qed.

(** [read_head]: the in-memory header becomes what block [log.start] says. *)
Lemma read_head_spec s V D :
  bstore s V D [] -> log_geom s -> (size D < NBUF)%nat ->
  let h := V (l_start (k_log s)) in
  head_n h <= LOGSIZE ->
  runs read_head s (fun _ s' =>
    let n := Z.to_nat (head_n h) in
    let sectors := head_sectors h ++ drop n (l_sector (k_log s)) in
    bstore s' V D [] /\ k_disk s' = k_disk s /\
    bframe (set_log (lset_sector sectors (lset_n (head_n h) (k_log s))) s) s').
Proof.
  intros Hst [Hdev Hs0 Hsz Hend Hds Hlen] Hroom h Hn.
  unfold read_head. rstep. rewrite Hdev, u32_dev, (u32_small (l_start _)) by lia.
  bcall bread_spec as (Hst1 & Hf1 & Hd1).
  { lia. }
  { void. }
  { right. by rewrite pinned_nil. }
  eapply held_getb; [exact Hst1|left|]. intros b _ _ Hb. rewrite Hb. fold h. clear b Hb.
  unfold set_logged at 1. rstep. rstep. cbn [k_log set_log l_n lset_n]. fold (head_n h).
  eapply runs_eq; [apply set_sectors_eq|].
  { simpl. rewrite (bframe_log _ _ Hf1), Hlen. lia. }
  match goal with |- runs _ ?x _ => set (s2 := x) end.
  assert (bstore s2 V D [(a, l_start (k_log s), h)]) as Hst2 by (by eapply bstore_same, Hst1).
  eapply runs_mono; [by apply (brelse_spec _ _ _ _ _ _ _ Hst2)|].
  intros [] s3 (Hst3 & Hf3 & Hd3). split_and!; [done|by rewrite Hd3|].
  etrans; [|exact Hf3]. destruct Hf1 as (bs & dk & ps & -> & Hp & Hs).
  exists bs, dk, ps. split; [|done]. subst s2. destruct s as [? ? ? []].
  unfold splice, head_sectors. simpl. rewrite length_map, length_seq. done.
Qed.
End ops.

(** ** Transactions *)

(** What the log's operations leave alone. *)
Definition lframe (s s' : kstate) : Prop :=
  exists l, bframe (set_log l s) s' /\ l_start l = l_start (k_log s) /\
    l_size l = l_size (k_log s) /\ l_dev l = l_dev (k_log s).

Lemma bframe_set_log l s s' : bframe s s' -> bframe (set_log l s) (set_log l s').
Proof.
  intros (bs & dk & ps & -> & Hp & Hd). exists bs, dk, ps. by split; [destruct s|].
Qed.

Lemma bframe_wake c s s' :
  bframe s s' -> bframe s (set_procs (map (wake c) (k_procs s')) s').
Proof.
  intros Hf. etrans; [exact Hf|].
  exists (k_bufs s'), (k_disk s'), (map (wake c) (k_procs s')).
  split; [by destruct s'|]. split; [apply wake_woken|done].
Qed.

#[export] Instance lframe_preorder : PreOrder lframe.
Proof.
  split.
  - intros s. exists (k_log s). split; [|done]. by destruct s.
  - intros s1 s2 s3 (l2 & H2 & ? & ? & ?) (l3 & H3 & ? & ? & ?).
    pose proof (bframe_log _ _ H2) as Hl. simpl in Hl. rewrite Hl in *.
    exists l3. split_and!; [|congruence..]. etrans; [|exact H3].
    apply (bframe_set_log l3) in H2. by destruct s1.
Qed.

Lemma bframe_lframe s s' : bframe s s' -> lframe s s'.
Proof. intros Hf. exists (k_log s). split; [|done]. by destruct s. Qed.

Lemma lframe_set l s :
  l_start l = l_start (k_log s) -> l_size l = l_size (k_log s) -> l_dev l = l_dev (k_log s) ->
  lframe s (set_log l s).
Proof. intros. exists l. by split. Qed.

Lemma lframe_start s s' : lframe s s' -> l_start (k_log s') = l_start (k_log s).
Proof. intros (l & Hf & H1 & _). by rewrite (bframe_log _ _ Hf). Qed.
Lemma lframe_size s s' : lframe s s' -> l_size (k_log s') = l_size (k_log s).
Proof. intros (l & Hf & _ & H1 & _). by rewrite (bframe_log _ _ Hf). Qed.
Lemma lframe_dsize s s' : lframe s s' -> d_size (k_disk s') = d_size (k_disk s).
Proof. intros (l & Hf & _). by rewrite (bframe_dsize _ _ Hf). Qed.
Lemma lframe_held s s' : lframe s s' -> k_held s' = k_held s.
Proof. intros (l & Hf & _). by rewrite (bframe_held _ _ Hf). Qed.

#[export] Hint Resolve bframe_lframe : core.

(** Within a transaction the disk changes in the log's data blocks only, and the
    transaction stays open. *)
Definition log_only (start size : Z) (ws : writes) : Prop :=
  Forall (fun w => start < w.1 < start + size /\ length w.2 = 512%nat) ws.

Definition tframe (s s' : kstate) : Prop :=
  lframe s s' /\ l_busy (k_log s') = l_busy (k_log s) /\ exists ws, k_disk s' = replay (k_disk s) ws /\
    log_only (l_start (k_log s)) (l_size (k_log s)) ws.

#[export] Instance tframe_preorder : PreOrder tframe.
Proof.
  split.
  - intros s. split; [reflexivity|]. split; [done|]. exists []. split; [done|constructor].
  - intros s1 s2 s3 (Hl2 & Hb2 & ws2 & Hd2 & Ho2) (Hl3 & Hb3 & ws3 & Hd3 & Ho3).
    split; [by etrans|]. split; [congruence|]. exists (ws2 ++ ws3). rewrite replay_app, <- Hd2. split; [done|].
    rewrite (lframe_start _ _ Hl2), (lframe_size _ _ Hl2) in Ho3. by apply Forall_app.
Qed.

Lemma tframe_clean s s' : bframe s s' -> k_disk s' = k_disk s -> tframe s s'.
Proof.
  intros Hf Hd. split; [by apply bframe_lframe|]. split; [by rewrite (bframe_log _ _ Hf)|].
  exists []. split; [done|constructor].
Qed.

Lemma tframe_start s s' : tframe s s' -> l_start (k_log s') = l_start (k_log s).
Proof. intros [Hl _]. by apply lframe_start. Qed.
Lemma tframe_busy s s' : tframe s s' -> l_busy (k_log s') = l_busy (k_log s).
Proof. by intros (_ & ? & _). Qed.
Lemma tframe_size s s' : tframe s s' -> l_size (k_log s') = l_size (k_log s).
Proof. intros [Hl _]. by apply lframe_size. Qed.

(** The log between [initlog] and the next commit, when the open transaction, if any,
    has logged the sectors [D], in the order of the log: [W] is the block store, in which the home blocks are those of [V], the log's
    copies are current, and the header on disk says that nothing is committed. *)
Record txinv (s : kstate) (W V : Z -> list Z) (D : list Z) (H : list hold) : Prop := {
  tx_store : bstore s W (list_to_set D) H;
  tx_geom : log_geom s;
  tx_list : log_list s D;
  tx_unlocked : LLog ∉ k_held s;
  tx_nodup : NoDup D;
  tx_home : forall x, x ∈ D -> 0 <= x < l_start (k_log s);
  tx_cap : (length D < NBUF)%nat /\ Z.of_nat (length D) <= l_size (k_log s) - 1;
  tx_view : forall x, 0 <= x < l_start (k_log s) -> W x = V x;
  tx_copy : forall k x, D !! k = Some x -> W (l_start (k_log s) + Z.of_nat k + 1) = V x;
  tx_clear : head_n (W (l_start (k_log s))) = 0;
  tx_held : forall i sec d, (i, sec, d) ∈ H -> 0 <= sec < l_start (k_log s)
}.

Definition tx (s : kstate) (V : Z -> list Z) (D : list Z) (H : list hold) : Prop :=
  exists W, txinv s W V D H.

(** Between transactions. *)
Record idleinv (s : kstate) (W V : Z -> list Z) : Prop := {
  id_store : bstore s W ∅ [];
  id_geom : log_geom s;
  id_n : l_n (k_log s) = 0;
  id_busy : l_busy (k_log s) = 0;
  id_unlocked : LLog ∉ k_held s;
  id_view : forall x, 0 <= x < l_start (k_log s) -> W x = V x;
  id_clear : head_n (W (l_start (k_log s))) = 0
}.

Definition idle (s : kstate) (V : Z -> list Z) : Prop := exists W, idleinv s W V.

Section tx.
Context {drv : DiskDriver}.

Lemma wait_log_free fuel s : l_busy (k_log s) = 0 -> wait_log (S fuel) s = Ret tt s.
Proof. intros Hb. simpl. unfold bind, gets. by rewrite Hb. Qed.

Lemma begin_trans_eq s :
  l_busy (k_log s) = 0 -> LLog ∉ k_held s ->
  begin_trans s = Ret tt (set_log (lset_busy 1 (k_log s)) s).
Proof.
  intros Hb Hl. unfold begin_trans, bind at 1. rewrite acquire_free by done.
  unfold bind at 1. rewrite wait_log_free by done.
  unfold bind, set_logged, modify. rewrite (release_top _ (k_held s)) by done.
  by destruct s.
Qed.

Lemma begin_trans_inv s W V :
  idleinv s W V ->
  runs begin_trans s (fun _ s' =>
    txinv s' W V [] [] /\ l_busy (k_log s') <> 0 /\ lframe s s' /\ k_disk s' = k_disk s).
Proof.
  intros [Hst Hg Hn Hb Hu Hv Hc]. eapply runs_eq_last; [by apply begin_trans_eq|].
  split_and!; [|done|by apply lframe_set|done].
  split; simpl; try done; try void.
  - by eapply bstore_same, Hst.
  - destruct Hg. by split.
  - constructor.
  - destruct Hg. split; [unfold NBUF; lia|lia].
Qed.

Lemma tx_room s W V D H : txinv s W V D H -> size (list_to_set D : gset Z) = length D.
Proof. intros Hx. apply size_list_to_set, (tx_nodup _ _ _ _ _ Hx). Qed.

(** Operations that leave the log and the set of logged sectors as they are. *)
Lemma txinv_frame s s' W V D H H' :
  txinv s W V D H -> bstore s' W (list_to_set D) H' -> bframe s s' ->
  (forall i sec d, (i, sec, d) ∈ H' -> 0 <= sec < l_start (k_log s)) -> txinv s' W V D H'.
Proof.
  intros [Hst Hg Hl Hu Hnd Hh Hc Hv Hcp Hcl Hhe] Hst' Hf Hhe'.
  pose proof (bframe_log _ _ Hf) as Hlog.
  split; rewrite ?Hlog; try done.
  - by eapply bframe_geom.
  - by eapply bframe_list.
  - by rewrite (bframe_held _ _ Hf).
Qed.

Lemma tx_bread s V D H sec :
  tx s V D H -> 0 <= sec < l_start (k_log s) -> (forall i d, (i, sec, d) ∉ H) ->
  (sec ∈ D \/ size (pinned (list_to_set D) H) < NBUF)%nat ->
  runs (bread ROOTDEV sec) s (fun i s' =>
    tx s' V D ((i, sec, V sec) :: H) /\ tframe s s').
Proof.
  intros [W Hx] Hsec Hfree Hroom. pose proof Hx as [Hst Hg _ _ _ _ _ Hv _ _ Hhe].
  pose proof Hg as [_ _ Hsz Hend _ _].
  eapply runs_mono; [apply (bread_spec _ _ _ _ sec Hst)|]; [lia|done| |].
  { destruct Hroom; [left; set_solver|by right]. }
  intros i s' (Hst' & Hf & Hd). split; [|by apply tframe_clean]. exists W. rewrite <- Hv by done.
  eapply txinv_frame; [done..|]. intros j sec' d [[= -> -> ->]|Hin]%elem_of_cons; eauto.
Qed.

Lemma tx_brelse s V D H i sec d :
  tx s V D ((i, sec, d) :: H) -> d = V sec ->
  runs (brelse i) s (fun _ s' => tx s' V D H /\ tframe s s').
Proof.
  intros [W Hx] Hd. pose proof Hx as [Hst Hg _ _ _ _ _ Hv _ _ Hhe].
  eapply runs_mono; [apply (brelse_spec _ _ _ _ _ _ _ Hst)|].
  { rewrite Hv; [done|]. eapply Hhe. left. }
  intros [] s' (Hst' & Hf & Hdk). split; [|by apply tframe_clean]. exists W.
  eapply txinv_frame; [done..|]. intros j sec' d' Hin. eapply Hhe. by right.
Qed.

Lemma tx_bset s V D H i sec d d' :
  tx s V D ((i, sec, d) :: H) -> length d' = 512%nat ->
  runs (updb i (bset_data d')) s (fun _ s' =>
    tx s' V D ((i, sec, d') :: H) /\ tframe s s').
Proof.
  intros [W Hx] Hd. pose proof Hx as [Hst Hg _ _ _ _ _ Hv _ _ Hhe].
  eapply runs_mono; [by apply (bset_spec _ _ _ _ _ _ _ d' Hst)|].
  intros [] s' (Hst' & Hf & Hdk). split; [|by apply tframe_clean]. exists W.
  eapply txinv_frame; [done..|].
  intros j sec' d1 [[= -> -> ->]|Hin]%elem_of_cons; eapply Hhe; [left|by right].
Qed.

Lemma tx_bset_fun s V D H i sec d f :
  tx s V D ((i, sec, d) :: H) -> length (f d) = 512%nat ->
  runs (updb i (fun b => bset_data (f (b_data b)) b)) s (fun _ s' =>
    tx s' V D ((i, sec, f d) :: H) /\ tframe s s').
Proof.
  intros [W Hx] Hd. pose proof Hx as [Hst Hg _ _ _ _ _ Hv _ _ Hhe].
  eapply runs_mono; [by apply (bset_fun_spec _ _ _ _ _ _ _ f Hst)|].
  intros [] s' (Hst' & Hf & Hdk). split; [|by apply tframe_clean]. exists W.
  eapply txinv_frame; [done..|].
  intros j sec' d1 [[= -> -> ->]|Hin]%elem_of_cons; eapply Hhe; [left|by right].
Qed.

Lemma tx_getb {A} s V D H i sec d (f : buf -> K A) Q :
  tx s V D H -> (i, sec, d) ∈ H ->
  (forall b, b_dev b = ROOTDEV -> b_sector b = sec -> b_data b = d -> runs (f b) s Q) ->
  runs (bind (getb i) f) s Q.
Proof. intros [W [Hst _ _ _ _ _ _ _ _ _ _]]. by eapply held_getb. Qed.

(** ** log_write *)

Definition log_add (D : list Z) (sec : Z) : list Z :=
  if decide (sec ∈ D) then D else D ++ [sec].

(** Log absorption: a sector that is in the log keeps its slot. *)
Lemma absorb_spec l D sec :
  l_n l = Z.of_nat (length D) -> take (length D) (l_sector l) = D ->
  (forall x, x ∈ D -> 0 <= x < 2147483648) ->
  let k := absorb (l_sector l) (l_n l) sec in
  (D !! k = Some sec /\ (k < length D)%nat) \/ (sec ∉ D /\ k = length D).
Proof.
  intros Hn HD Hr k. subst k. unfold absorb. rewrite Hn, Nat2Z.id, HD.
  destruct (findi _ D) as [j|] eqn:Ef.
  - left. apply findi_Some in Ef as [(x & Hx & Heq%Z.eqb_eq) _].
    specialize (Hr x (list_elem_of_lookup_2 _ _ _ Hx)).
    rewrite u32_small in Heq by lia. subst x. split; [done|]. by eapply lookup_lt_Some.
  - right. split; [|done]. intros [j Hj]%list_elem_of_lookup.
    rewrite findi_None in Ef. specialize (Ef _ _ Hj). specialize (Hr sec).
    apply Z.eqb_neq in Ef. rewrite u32_small in Ef; [done|].
    assert (sec ∈ D) by by eapply list_elem_of_lookup_2. specialize (Hr ltac:(done)). lia.
Qed.

Lemma set_log_sector_eq k x s :
  (k < length (l_sector (k_log s)))%nat ->
  set_log_sector k x s
  = Ret tt (set_log (lset_sector (<[k := x]> (l_sector (k_log s))) (k_log s)) s).
Proof.
  intros [y Hy]%lookup_lt_is_Some. unfold set_log_sector, log_sector, nth_or_fault, bind.
  by rewrite Hy.
Qed.

(** The in-memory header after [log_write]. *)
Lemma log_add_list l D sec k :
  l_n l = Z.of_nat (length D) -> take (length D) (l_sector l) = D ->
  (k < length (l_sector l))%nat ->
  (D !! k = Some sec /\ (k < length D)%nat) \/ (sec ∉ D /\ k = length D) ->
  let n := if Z.of_nat k =? l_n l then l_n l + 1 else l_n l in
  n = Z.of_nat (length (log_add D sec)) /\
  take (length (log_add D sec)) (<[k := sec]> (l_sector l)) = log_add D sec /\
  log_add D sec !! k = Some sec.
Proof.
  intros Hn HD Hlen [[Hk Hlt]|[Hni ->]] n; subst n; unfold log_add.
  - rewrite decide_True by by eapply list_elem_of_lookup_2.
    destruct (Z.eqb_spec (Z.of_nat k) (l_n l)); [lia|]. split_and!; try done.
    rewrite list_insert_id; [done|]. rewrite <- HD in Hk. by apply lookup_take_Some in Hk as [? _].
  - rewrite decide_False, length_app by done. simpl.
    destruct (Z.eqb_spec (Z.of_nat (length D)) (l_n l)); [|lia]. split_and!; [lia| |].
    + rewrite Nat.add_1_r, (take_S_r _ _ sec) by (by apply list_lookup_insert_eq).
      by rewrite take_insert_ge, HD by lia.
    + rewrite lookup_app_r, Nat.sub_diag by lia. done.
Qed.

Lemma log_add_home (D : list Z) sec (P : Z -> Prop) :
  (forall x, x ∈ D -> P x) -> P sec -> forall x, x ∈ log_add D sec -> P x.
Proof. unfold log_add. intros HD Hs x. case_decide; set_solver. Qed.

Lemma log_add_nodup D sec : NoDup D -> NoDup (log_add D sec).
Proof.
  unfold log_add. intros Hnd. case_decide; [done|].
  apply NoDup_app. split_and!; [done|set_solver|apply NoDup_singleton].
Qed.

Lemma log_add_set D sec : {[sec]} ∪ list_to_set D =@{gset Z} list_to_set (log_add D sec).
Proof. unfold log_add. case_decide; set_solver. Qed.

Lemma log_add_length D sec :
  length (log_add D sec) = (if decide (sec ∈ D) then length D else S (length D)).
Proof. unfold log_add. case_decide; [done|]. rewrite length_app. simpl. lia. Qed.

(** The invariant after a block is added at slot [k]. *)
Lemma txinv_add s s' W V D H i sec d k :
  let start := l_start (k_log s) in
  let D' := log_add D sec in
  txinv s W V D ((i, sec, d) :: H) ->
  (D !! k = Some sec /\ (k < length D)%nat) \/ (sec ∉ D /\ k = length D) ->
  Z.of_nat (length D) < l_size (k_log s) - 1 -> (length D' < NBUF)%nat ->
  bstore s' (upd (upd W (start + Z.of_nat k + 1) d) sec d) ({[sec]} ∪ list_to_set D)
    ((i, sec, d) :: H) ->
  (exists l, k_log s' = l /\ l_start l = start /\ l_size l = l_size (k_log s) /\
     l_dev l = ROOTDEV /\
     length (l_sector l) = length (l_sector (k_log s))) ->
  log_list s' D' -> D' !! k = Some sec ->
  d_size (k_disk s') = d_size (k_disk s) -> k_held s' = k_held s ->
  txinv s' (upd (upd W (start + Z.of_nat k + 1) d) sec d) (upd V sec d) D' ((i, sec, d) :: H).
Proof.
  intros start D' [Hst Hg Hl Hu Hnd Hh Hc Hv Hcp Hcl Hhe] Hk Hsz Hcap Hst'
    (l & Hlog & El1 & El2 & El3 & El5) Hl' HDk Hds Hhold.
  assert (0 <= sec < start) as Hsec by (eapply Hhe; left).
  destruct Hg as [Hdev Hs0 Hs Hend Hdsz Hlen].
  assert (Hnd' : NoDup D') by by apply log_add_nodup.
  split; rewrite ?Hlog, ?El1, ?El2, ?Hhold; try done.
  - unfold D'. by rewrite <- log_add_set.
  - by split; rewrite ?Hlog, ?El1, ?El2, ?Hds, ?El5.
  - by apply log_add_home.
  - split; [done|]. subst D'. rewrite log_add_length. case_decide; lia.
  - intros x Hx. unfold upd. repeat case_decide; try done; [lia|]. by apply Hv.
  - intros j x Hj. destruct (decide (j = k)) as [->|Hne].
    + assert (x = sec) as -> by congruence. rewrite (upd_ne _ _ _ (_ + _)) by lia. by rewrite !upd_eq.
    + assert (x <> sec) as Hx by (intros ->; by apply Hne, (NoDup_lookup D' j k sec)).
      rewrite !upd_ne by lia. apply Hcp. subst D'. unfold log_add in Hj.
      case_decide; [done|]. apply lookup_app_Some in Hj as [?|[? [= ]%list_elem_of_lookup_2%list_elem_of_singleton]]; done.
  - rewrite !upd_ne by lia. done.
Qed.

Lemma runs_when_log {A} (c : bool) f (k : K A) s Q :
  runs k (set_log (if c then f (k_log s) else k_log s) s) Q ->
  runs (bind (when c do set_logged f) (fun _ => k)) s Q.
Proof.
  destruct c; intros Hk; [by apply runs_bind, runs_modify|].
  apply runs_bind, runs_ret. by replace (set_log (k_log s) s) with s in Hk by by destruct s.
Qed.

Lemma pinned_fresh (D : list Z) i sec d H :
  NoDup D -> sec ∉ D -> (S (length D) <= size (pinned (list_to_set D) ((i, sec, d) :: H)))%nat.
Proof.
  intros Hnd Hni. change (S (length D)) with (length (sec :: D)).
  rewrite <- (size_list_to_set (C := gset Z) (sec :: D)) by by constructor.
  apply subseteq_size. unfold pinned. simpl. set_solver.
Qed.

(** The copy of the held block [sec] into the log block [lblk]. *)
Lemma log_copy_spec {A} s W D H i sec d lblk (rest : K A) Q :
  bstore s W D ((i, sec, d) :: H) -> 0 <= lblk < d_size (k_disk s) -> lblk ∉ D ->
  (forall j e, (j, lblk, e) ∉ (i, sec, d) :: H) ->
  (size (pinned D ((i, sec, d) :: H)) < NBUF)%nat ->
  (forall s', bstore s' (upd W lblk d) D ((i, sec, d) :: H) -> bframe s s' ->
     k_disk s' = disk_write (k_disk s) lblk d -> runs rest s' Q) ->
  runs (lbuf <- bread ROOTDEV lblk ;;
        b <- getb i ;;
        updb lbuf (bset_data (b_data b)) ;;
        bwrite lbuf ;;
        brelse lbuf ;;
        rest) s Q.
Proof.
  intros Hst Hl HnD Hnh Hroom Hrest. destruct (bstore_top_len _ _ _ _ _ _ _ Hst) as [Hdl _].
  bcall bread_spec as (Hst1 & Hf1 & Hd1).
  eapply held_getb; [exact Hst1|right; left|]. intros b _ _ ->.
  bcall bset_spec as (Hst2 & Hf2 & Hd2). bcall bwrite_spec as (Hst3 & Hf3 & Hd3).
  eapply runs_step; [apply (brelse_spec _ _ _ _ _ _ _ Hst3); by rewrite upd_eq|].
  intros [] s4 (Hst4 & Hf4 & Hd4). apply Hrest; [|frames|congruence].
  by rewrite difference_disjoint_L in Hst4 by set_solver.
Qed.

Lemma log_write_inv s W V D H i sec d :
  txinv s W V D ((i, sec, d) :: H) -> l_busy (k_log s) <> 0 ->
  (length D < 10)%nat -> Z.of_nat (length D) < l_size (k_log s) - 1 ->
  (size (pinned (list_to_set D) ((i, sec, d) :: H)) < NBUF)%nat ->
  runs (log_write i) s (fun _ s' => exists k,
    let lblk := l_start (k_log s) + Z.of_nat k + 1 in
    txinv s' (upd (upd W lblk d) sec d) (upd V sec d) (log_add D sec) ((i, sec, d) :: H) /\
    lframe s s' /\ l_busy (k_log s') = l_busy (k_log s) /\ Z.of_nat k < l_size (k_log s) - 1 /\
    k_disk s' = disk_write (k_disk s) lblk d).
Proof.
  intros Hx Hb Hlt Hsz Hroom. pose proof Hx as [Hst Hg [Hn HL] Hu Hnd Hh Hc Hv Hcp Hcl Hhe].
  pose proof Hg as [Hdev Hs0 Hs Hend Hdsz Hlen].
  assert (0 <= sec < l_start (k_log s)) as Hsec by (eapply Hhe; left).
  unfold log_write. rstep. apply runs_if_false; [unfold LOGSIZE; lia|]. apply runs_if_false; [lia|].
  eapply held_getb; [exact Hst|left|]. intros b Hbd Hbs _. rewrite Hbd, Hbs.
  set (k := absorb _ _ _).
  assert ((D !! k = Some sec /\ (k < length D)%nat) \/ (sec ∉ D /\ k = length D)) as Hk.
  { apply absorb_spec; [done..|]. intros x Hin%Hh. lia. }
  assert (k <= length D)%nat as Hkn by (destruct Hk as [[_ ?]|[_ ?]]; lia).
  assert (k < length (l_sector (k_log s)))%nat as Hkl by (rewrite Hlen; unfold LOGSIZE; lia).
  destruct (log_add_list (k_log s) D sec k) as (En & Et & Elk); [done..|].
  eapply runs_eq; [by apply set_log_sector_eq|]. rewrite s32_small, u32_small by lia.
  eapply (log_copy_spec _ W (list_to_set D)); simpl; [by eapply bstore_same, Hst|lia| | |done|].
  { intros Hin%elem_of_list_to_set%Hh. lia. }
  { intros j e Hin%Hhe. lia. }
  intros s4 Hst4 Hf4 Hd4. apply runs_when_log. rewrite (bframe_log _ _ Hf4). cbn [k_log set_log].
  match goal with |- context [set_log ?l s4] => set (l2 := l) end.
  assert (bstore (set_log l2 s4) (upd W (l_start (k_log s) + Z.of_nat k + 1) d) (list_to_set D)
    ((i, sec, d) :: H)) as Hst5 by (by eapply bstore_same, Hst4).
  eapply runs_mono; [apply (bmark_spec _ _ _ _ _ _ _ Hst5)|].
  intros [] s6 (Hst6 & Hf6 & Hd6). exists k. pose proof (bframe_log _ _ Hf6) as Hlog6.
  assert (l_start l2 = l_start (k_log s) /\ l_size l2 = l_size (k_log s) /\
    l_dev l2 = l_dev (k_log s) /\ l_busy l2 = l_busy (k_log s) /\
    l_sector l2 = <[k := sec]> (l_sector (k_log s))) as (E1 & E2 & E3 & E4 & E5)
    by (subst l2; by destruct (_ =? _)).
  assert (lframe s s6) as Hlf.
  { etrans; [apply (lframe_set (lset_sector (<[k := sec]> (l_sector (k_log s))) (k_log s))); done|].
    etrans; [by apply bframe_lframe|]. etrans; [|by apply bframe_lframe].
    apply lframe_set; by rewrite (bframe_log _ _ Hf4). }
  split_and!; [|done|by rewrite Hlog6|lia|by rewrite Hd6; simpl; rewrite Hd4].
  eapply txinv_add; try done.
  - rewrite log_add_length. case_decide as Hin; [lia|].
    eapply Nat.le_lt_trans; [|exact Hroom]. by apply pinned_fresh.
  - exists l2. rewrite Hlog6, E5, length_insert. split_and!; try done. congruence.
  - unfold log_list. rewrite Hlog6. cbn [k_log set_log]. rewrite E5. split; [|done].
    rewrite <- En. subst l2. by destruct (_ =? _).
  - by rewrite (lframe_dsize _ _ Hlf).
  - by rewrite (lframe_held _ _ Hlf).
Qed.

Lemma tx_log_write s V D H i sec d :
  tx s V D ((i, sec, d) :: H) -> l_busy (k_log s) <> 0 ->
  (length D < 10)%nat -> Z.of_nat (length D) < l_size (k_log s) - 1 ->
  (size (pinned (list_to_set D) ((i, sec, d) :: H)) < NBUF)%nat ->
  runs (log_write i) s (fun _ s' =>
    tx s' (upd V sec d) (log_add D sec) ((i, sec, d) :: H) /\ tframe s s').
Proof.
  intros [W Hx] H0 H1 H2 H3. eapply runs_mono; [by apply (log_write_inv _ _ _ _ _ _ _ _ Hx)|].
  intros [] s' (k & Hx' & Hf & Hb & Hk & Hd). split; [by eexists|].
  split; [done|]. split; [done|]. exists [(l_start (k_log s) + Z.of_nat k + 1, d)]. split; [exact Hd|]. constructor; [|constructor]. simpl.
  split; [lia|]. by eapply bstore_top_len, tx_store.
Qed.

(** ** commit_trans *)

(** The disk writes of a commit: the header (the commit point), the home blocks,
    the erased header. *)
Definition commit_writes (W : Z -> list Z) (start : Z) (D : list Z) : writes :=
  match D with
  | [] => []
  | _ => (start, header (W start) D) :: install_writes W start 0 D
           ++ [(start, header (header (W start) D) [])]
  end.

(** Contents of the blocks once the logged sectors are installed. *)
Lemma install_view W W0 V start D :
  NoDup D -> (forall x, x ∈ D -> 0 <= x < start) ->
  (forall k x, D !! k = Some x -> W (start + Z.of_nat k + 1) = V x) ->
  (forall x, 0 <= x < start -> x ∉ D -> W0 x = V x) ->
  forall x, 0 <= x < start -> apply_writes W0 (install_writes W start 0 D) x = V x.
Proof.
  intros Hnd Hh Hcp Hv x Hx. destruct (decide (x ∈ D)) as [Hin|Hni].
  - apply list_elem_of_lookup in Hin as [j Hj]. rewrite <- (Hcp j x Hj).
    eapply apply_writes_at; [by rewrite install_writes_fst|].
    by apply (install_writes_lookup W start 0 D j x).
  - rewrite apply_writes_notin by by rewrite install_writes_fst. by apply Hv.
Qed.

Lemma commit_view s W V D H :
  txinv s W V D H ->
  let start := l_start (k_log s) in
  let W' := apply_writes W (commit_writes W start D) in
  (forall x, 0 <= x < start -> W' x = V x) /\ head_n (W' start) = 0.
Proof.
  intros Hx start W'. pose proof Hx as [Hst Hg Hl Hu Hnd Hh [Hc1 Hc2] Hv Hcp Hcl Hhe].
  subst W'. unfold commit_writes. destruct D as [|x0 D0] eqn:ED; [by split|]. rewrite <- ED in *.
  clear ED x0 D0. rewrite app_comm_cons, apply_writes_app. simpl. split.
  - intros x Hx0. rewrite upd_ne by lia. eapply install_view; try done.
    intros y Hy _. rewrite upd_ne by lia. by apply Hv.
  - rewrite upd_eq. destruct Hg as [_ ? ? ? _ _].
    assert (length (W start) = 512%nat) as Hlen by (eapply bstore_vlen; [done|unfold start; lia]).
    unfold NBUF in Hc1. rewrite head_n_header; [done| |simpl; lia]. apply length_header; lia.
Qed.

Lemma commit_end_eq s :
  LLog ∉ k_held s -> LPtable ∉ k_held s ->
  (acquire LLog ;; set_logged (lset_busy 0) ;; wakeup ChLog ;; release LLog) s
  = Ret tt (set_procs (map (wake ChLog) (k_procs s)) (set_log (lset_busy 0 (k_log s)) s)).
Proof.
  intros H1 H2. unfold bind at 1. rewrite acquire_free by done.
  unfold bind, set_logged, modify. rewrite wakeup_eq by (simpl; set_solver).
  rewrite (release_top _ (k_held s)) by done. by destruct s.
Qed.

(** [write_head(); install_trans(); log.lh.n = 0; write_head();] *)
Lemma commit_log_spec s W V D :
  txinv s W V D [] -> D <> [] ->
  let start := l_start (k_log s) in
  let ws := commit_writes W start D in
  runs (write_head ;; install_trans ;; set_logged (lset_n 0) ;; write_head) s (fun _ s' =>
    bstore s' (apply_writes W ws) ∅ [] /\ k_disk s' = replay (k_disk s) ws /\
    bframe (set_log (lset_n 0 (k_log s)) s) s').
Proof.
  intros Hx Hne start ws. pose proof (tx_room _ _ _ _ _ Hx) as Hroom.
  pose proof Hx as [Hst Hg Hl Hu Hnd Hh [Hc1 Hc2] Hv Hcp Hcl Hhe].
  assert (start ∉ D) as HsD by (intros Hin%Hh; unfold start in Hin; lia).
  eapply runs_step; [apply (write_head_spec s W (list_to_set D) D)|]; try done.
  { unfold NBUF in Hc1. lia. }
  { set_solver. }
  { by rewrite Hroom. }
  fold start. intros [] s1 (Hst1 & Hf1 & Hd1). pose proof (bframe_log _ _ Hf1) as Hlog1.
  unfold install_trans. apply runs_assoc. rstep. rewrite Hlog1, (proj1 Hl), Nat2Z.id.
  eapply runs_step; [apply (install_spec s1 _ _ 0 D Hst1)|]; rewrite ?Hlog1; try done.
  { by eapply bframe_geom. }
  { intros j x Hj. by eapply log_list_lookup. }
  { intros x Hin. split; [by apply Hh|left; set_solver]. }
  { by rewrite Hroom. }
  fold start. intros [] s2 (Hst2 & Hf2 & Hd2).
  rewrite difference_diag_L in Hst2.
  rewrite (install_writes_ext _ W) in Hst2, Hd2 by (intros; apply upd_ne; lia).
  apply runs_bind, runs_modify. pose proof (bframe_log _ _ Hf2) as Hlog2.
  assert (bframe (set_log (lset_n 0 (k_log s)) s) (set_log (lset_n 0 (k_log s2)) s2)) as Hf.
  { rewrite Hlog2, Hlog1. apply bframe_set_log. frames. }
  eapply runs_mono; [apply (write_head_spec _ (apply_writes (upd W start (header (W start) D))
    (install_writes W start 0 D)) ∅ [])|].
  - by eapply bstore_same, Hst2.
  - eapply bframe_geom; [exact Hf|]. by destruct Hg.
  - by split.
  - simpl. lia.
  - void.
  - rewrite size_empty. unfold NBUF. lia.
  - simpl k_log. cbn [l_start lset_n]. rewrite Hlog2, Hlog1. fold start.
    rewrite (apply_writes_notin _ _ start) by by rewrite install_writes_fst. rewrite upd_eq.
    intros [] s3 (Hst3 & Hf3 & Hd3). subst ws. unfold commit_writes. destruct D as [|x0 D0]; [done|].
    rewrite app_comm_cons, apply_writes_app, replay_app. split_and!; [done| |rewrite Hlog2, Hlog1 in Hf; etrans; [exact Hf|exact Hf3]].
    rewrite Hd3. simpl k_disk. by rewrite Hd2, Hd1.
Qed.

Lemma commit_inv s W V D :
  txinv s W V D [] ->
  let ws := commit_writes W (l_start (k_log s)) D in
  runs commit_trans s (fun _ s' =>
    idleinv s' (apply_writes W ws) V /\ lframe s s' /\ k_disk s' = replay (k_disk s) ws).
Proof.
  intros Hx ws. pose proof Hx as [Hst Hg Hl Hu Hnd Hh [Hc1 Hc2] Hv Hcp Hcl Hhe].
  unfold commit_trans. rstep.
  eapply (runs_step _ _ _ (fun _ s' => bstore s' (apply_writes W ws) ∅ [] /\
    k_disk s' = replay (k_disk s) ws /\ bframe (set_log (lset_n 0 (k_log s)) s) s')).
  { apply runs_if; intros Hn.
    - apply (commit_log_spec s W V D Hx). intros ->. destruct Hl as [Hl _]. rewrite Hl in Hn. done.
    - apply runs_ret. destruct Hl as [Hl _]. rewrite Hl in Hn.
      assert (D = []) as -> by (boolify; destruct D; [done|simpl in Hn; lia]).
      split_and!; [done..|]. replace (lset_n 0 (k_log s)) with (k_log s)
        by (simpl in Hl; by destruct (k_log s); simpl in Hl; subst). by destruct s. }
  intros [] s1 (Hst1 & Hd1 & Hf1). pose proof (bframe_log _ _ Hf1) as Hlog.
  pose proof (bs_locks _ _ _ _ Hst) as (? & ? & ?).
  eapply runs_eq_last; [apply commit_end_eq; by rewrite (bframe_held _ _ Hf1)|].
  split_and!; [|exists (lset_busy 0 (lset_n 0 (k_log s)))|done].
  - destruct (commit_view _ _ _ _ _ Hx) as [Hview Hhead].
    split; simpl; rewrite ?Hlog; try done.
    + by eapply bstore_same, Hst1.
    + destruct Hg. split; simpl; rewrite ?Hlog, ?(bframe_dsize _ _ Hf1); done.
    + by rewrite (bframe_held _ _ Hf1).
  - split_and!; [|done..]. rewrite Hlog.
    apply (bframe_wake ChLog _ (set_log (lset_busy 0 (lset_n 0 (k_log s))) s1)).
    exact (bframe_set_log (lset_busy 0 (lset_n 0 (k_log s))) _ _ Hf1).
Qed.
End tx.

(** ** Recovery *)

(** The on-disk superblock describes a log at the end of the disk. *)
Record sb_ok (V : Z -> list Z) (dsize start nlog : Z) : Prop := {
  sb_start : sb_size (superblock_of (V 1)) - sb_nlog (superblock_of (V 1)) = start;
  sb_log : sb_nlog (superblock_of (V 1)) = nlog;
  sb_geom : 1 < start /\ 0 < nlog /\ start + nlog <= dsize /\ dsize < 2147483648
}.

(** A header block as a transaction leaves it. *)
Record head_ok (h : list Z) (start nlog : Z) : Prop := {
  hd_n : 0 <= head_n h < Z.of_nat NBUF /\ head_n h <= nlog - 1;
  hd_nodup : NoDup (head_sectors h);
  hd_home : forall x, x ∈ head_sectors h -> 0 <= x < start
}.

(** The disk writes of recovery from the blocks [V]. *)
Definition recovery_writes (V : Z -> list Z) (start : Z) : writes :=
  install_writes V start 0 (head_sectors (V start)) ++ [(start, header (V start) [])].

Lemma length_head_sectors h : length (head_sectors h) = Z.to_nat (head_n h).
Proof. unfold head_sectors. by rewrite length_map, length_seq. Qed.

Section recovery.
Context {drv : DiskDriver}.

Lemma readsb_spec s V D :
  bstore s V D [] -> 1 < d_size (k_disk s) -> (size D < NBUF)%nat ->
  runs (readsb ROOTDEV) s (fun sb s' =>
    sb = superblock_of (V 1) /\ bstore s' V D [] /\ bframe s s' /\ k_disk s' = k_disk s).
Proof.
  intros Hst Hd Hroom. unfold readsb. rewrite u32_dev.
  bcall bread_spec as (Hst1 & Hf1 & Hd1).
  { lia. }
  { void. }
  { right. by rewrite pinned_nil. }
  eapply held_getb; [exact Hst1|left|]. intros b _ _ ->.
  eapply runs_step; [by apply (brelse_spec _ _ _ _ _ _ _ Hst1)|].
  intros [] s2 (Hst2 & Hf2 & Hd2). apply runs_ret. split_and!; [done..|frames|congruence].
Qed.

Lemma recover_spec s V :
  bstore s V ∅ [] -> log_geom s ->
  let start := l_start (k_log s) in
  let ws := recovery_writes V start in
  head_ok (V start) start (l_size (k_log s)) ->
  runs recover_from_log s (fun _ s' => exists sectors,
    bstore s' (apply_writes V ws) ∅ [] /\ k_disk s' = replay (k_disk s) ws /\
    length sectors = Z.to_nat LOGSIZE /\
    bframe (set_log (lset_n 0 (lset_sector sectors (k_log s))) s) s').
Proof.
  intros Hst Hg start ws [[Hn1 Hn2] Hnd Hh]. unfold NBUF in Hn1.
  pose proof Hg as [Hdev Hs0 Hs Hend Hdsz Hlen]. pose proof (length_head_sectors (V start)) as Hll.
  unfold recover_from_log.
  eapply runs_step; [apply (read_head_spec _ _ _ Hst Hg)|].
  { rewrite size_empty. unfold NBUF. lia. }
  { fold start. unfold LOGSIZE. lia. }
  fold start. intros [] s1 (Hst1 & Hd1 & Hf1). set (l1 := lset_sector _ _) in Hf1.
  pose proof (bframe_log _ _ Hf1) as Hlog1. simpl in Hlog1.
  assert (length (l_sector l1) = Z.to_nat LOGSIZE) as Hlen1.
  { simpl. rewrite length_app, length_drop, Hlen, Hll. unfold LOGSIZE. lia. }
  assert (log_geom s1) as Hg1.
  { eapply bframe_geom; [exact Hf1|]. by split. }
  unfold install_trans. apply runs_assoc. rstep. rewrite Hlog1. simpl l_n. rewrite <- Hll.
  eapply runs_step; [apply (install_spec s1 V ∅ 0 (head_sectors (V start)) Hst1 Hg1 Hnd)|];
    rewrite ?Hlog1.
  { intros j x Hj. simpl. rewrite lookup_app_l; [done|]. by eapply lookup_lt_Some. }
  { intros x Hin. split; [by apply Hh|]. right. rewrite size_empty. unfold NBUF. lia. }
  { rewrite Hll. simpl. lia. }
  { rewrite size_empty. unfold NBUF. lia. }
  fold start. intros [] s2 (Hst2 & Hf2 & Hd2).
  rewrite subseteq_empty_difference_L in Hst2 by apply empty_subseteq.
  apply runs_bind, runs_modify. pose proof (bframe_log _ _ Hf2) as Hlog2. rewrite Hlog1 in Hlog2.
  rewrite Hlog2.
  eapply runs_mono; [apply (write_head_spec _
    (apply_writes V (install_writes V start 0 (head_sectors (V start)))) ∅ [])|].
  - by eapply bstore_same, Hst2.
  - split; simpl; rewrite ?(bframe_dsize _ _ Hf2), ?Hd1; done.
  - by split.
  - simpl. lia.
  - void.
  - rewrite size_empty. unfold NBUF. lia.
  - cbn [k_log set_log lset_n l_start l1 lset_sector k_disk]. fold start.
    rewrite (apply_writes_notin _ _ start)
      by (rewrite install_writes_fst; intros Hin%Hh; lia).
    intros [] s3 (Hst3 & Hf3 & Hd3). exists (l_sector l1).
    subst ws. unfold recovery_writes. rewrite apply_writes_app, replay_app.
    split_and!; [done| |done|].
    + by rewrite Hd3, Hd2, Hd1.
    + etrans; [|exact Hf3]. replace (lset_n 0 (lset_sector (l_sector l1) (k_log s))) with (lset_n 0 l1)
        by (by destruct s as [? ? ? []]).
      apply (bframe_set_log (lset_n 0 l1)) in Hf1, Hf2. etrans; [|exact Hf2].
      by destruct s.
Qed.

(** [initlog] on a disk whose header block is [V start]: the log is empty and idle, the
    committed sectors are installed. *)
Lemma initlog_inv s V start nlog :
  bstore s V ∅ [] -> sb_ok V (d_size (k_disk s)) start nlog -> head_ok (V start) start nlog ->
  LLog ∉ k_held s -> l_busy (k_log s) = 0 -> length (l_sector (k_log s)) = Z.to_nat LOGSIZE ->
  let ws := recovery_writes V start in
  runs initlog s (fun _ s' =>
    idleinv s' (apply_writes V ws) (apply_writes V ws) /\ k_disk s' = replay (k_disk s) ws /\
    l_start (k_log s') = start /\ l_size (k_log s') = nlog).
Proof.
  intros Hst [Hs1 Hs2 (Hg1 & Hg2 & Hg3 & Hg4)] Hhd Hu Hb Hlen ws.
  unfold initlog. apply runs_if_false; [done|].
  apply runs_bind, runs_modify. rewrite unlock_notin by done.
  replace (set_held (k_held s) s) with s by by destruct s.
  eapply runs_step; [apply (readsb_spec _ _ _ Hst); [lia|]|].
  { rewrite size_empty. unfold NBUF. lia. }
  intros sb s1 (-> & Hst1 & Hf1 & Hd1). pose proof (bframe_log _ _ Hf1) as Hlog1.
  unfold set_logged. do 3 rstep. cbn [k_log set_log]. rewrite Hs1, Hs2, !s32_small by lia.
  eapply runs_mono; [apply recover_spec|].
  - by eapply bstore_same, Hst1.
  - split; simpl; rewrite ?Hd1, ?Hlog1; try done; lia.
  - done.
  - intros [] s2 (sectors & Hst2 & Hd2 & Hsl & Hf2). pose proof (bframe_log _ _ Hf2) as Hlog2.
    cbn [k_log set_log lset_n lset_sector lset_dev lset_size lset_start l_start l_size] in *.
    split_and!; [|by rewrite Hd2; simpl; rewrite Hd1|by rewrite Hlog2..].
    split; rewrite ?Hlog2; simpl; try done.
    + split; rewrite ?Hlog2, ?Hd2, ?d_size_replay; simpl; rewrite ?Hd1; try done; lia.
    + by rewrite Hlog1.
    + by rewrite (bframe_held _ _ Hf2); simpl; rewrite (bframe_held _ _ Hf1).
    + unfold ws, recovery_writes. rewrite apply_writes_app. simpl. rewrite upd_eq. apply head_n_header; [|simpl; lia].
      eapply bstore_vlen; [exact Hst|lia].
Qed.
End recovery.
