(* ===== verification/Crash.v ===== *)
(** * Crash safety of the log

    A crash can stop the machine between any two disk writes. [crash_disk] is the
    disk it leaves; [recovers] boots the kernel on such a disk and runs [binit] and
    [initlog]. The theorems say that a transaction is atomic and durable: whatever
    the crash point, recovery ends with every block as before the transaction, or
    with every block as after it; and with the new ones once it has returned. *)

From S2P Require Import Prelude Types Monad Sched Ring Bio BioSpec Log LogSpec.

(** ** Booting the buffer cache *)

(** [bcache] after [binit], most recently used first: buffers 9, 8, ..., 0. *)
Definition booted_bufs : list buf :=
  map (fun i => Buf 0 (u32 (-1)) 0 (S i) (match i with O => HEAD | S j => j end) None zero_block)
    (seq 0 NBUF) ++ [Buf 0 0 0 0 9 None zero_block].

Lemma binit_eq s :
  k_bufs s = replicate (S NBUF) zero_buf -> k_held s = [] -> binit s = Ret tt (set_bufs booted_bufs s).
Proof. destruct s. simpl. intros -> ->. vm_compute. reflexivity. Qed.

Lemma booted_ring : ring booted_bufs (rev (seq 0 NBUF)).
Proof.
  split; [|split; [symmetry; apply Permutation_rev|done]].
  vm_compute. repeat split.
Qed.

Lemma booted_cells i c :
  cells booted_bufs !! i = Some c ->
  c_busy c = false /\ c_dirty c = false /\ c_dev c <> ROOTDEV.
Proof.
  intros (Hi & b & Hb & ->)%cells_lookup_inv. unfold booted_bufs in Hb.
  rewrite lookup_app_l in Hb by (by rewrite length_map, length_seq).
  change (map ?f ?l) with (f <$> l) in Hb.
  rewrite list_lookup_fmap, lookup_seq_lt in Hb by done. by injection Hb as <-.
Qed.

Lemma booted_store s :
  k_bufs s = booted_bufs -> bio_unlocked s ->
  (forall sec, 0 <= sec < d_size (k_disk s) -> length (dblk (k_disk s) sec) = 512%nat) ->
  bstore s (dblk (k_disk s)) ∅ [].
Proof.
  intros Hb Hu Hlen. split; rewrite ?Hb; [eexists; apply booted_ring| |done].
  split; try done; try void.
  - intros i j ci cj Hi Hj Hd. by apply booted_cells in Hi as (_ & _ & ?).
  - intros i c Hi _. by apply booted_cells in Hi as (? & ? & _).
  - intros i c Hi Hd. by apply booted_cells in Hi as (_ & _ & ?).
  - intros i c Hi Hd. apply booted_cells in Hi as (? & _ & _). congruence.
  - constructor.
  - intros i c Hi Hd. by apply booted_cells in Hi as (_ & _ & ?).
  - intros i c Hi Hd. by apply booted_cells in Hi as (_ & _ & ?).
Qed.

(** The kernel at the point [main] and [forkret] call [binit] and [initlog]: its
    globals are zero and no lock is held. *)
Record rebooted (d : disk) (s : kstate) : Prop := {
  rb_disk : k_disk s = d;
  rb_bufs : k_bufs s = replicate (S NBUF) zero_buf;
  rb_log : k_log s = zero_log;
  rb_held : k_held s = []
}.

Section crash.
Context {drv : DiskDriver}.

Definition recover : K unit := binit ;; initlog.

(** Recovery on the disk [d] reaches an idle log at [start] over the blocks [V]. *)
Definition recovers (d : disk) (start : Z) (V : Z -> list Z) : Prop :=
  forall s, rebooted d s ->
    runs recover s (fun _ s' => idle s' V /\ l_start (k_log s') = start).

Lemma recovers_spec d V start nlog :
  (forall sec, 0 <= sec < d_size d -> length (dblk d sec) = 512%nat) ->
  sb_ok (dblk d) (d_size d) start nlog -> head_ok (dblk d start) start nlog ->
  (forall x, 0 <= x < start ->
     apply_writes (dblk d) (install_writes (dblk d) start 0 (head_sectors (dblk d start))) x = V x) ->
  recovers d start V.
Proof.
  intros Hlen Hsb Hhd HV s [Hd Hb Hl Hh].
  unfold recover. eapply runs_eq; [by apply binit_eq|].
  assert (bstore (set_bufs booted_bufs s) (dblk d) ∅ []) as Hst.
  { subst d. apply (booted_store (set_bufs booted_bufs s)); [done|by apply bio_unlocked_nil|done]. }
  eapply runs_mono; [apply (initlog_inv _ _ start nlog Hst)|]; simpl; rewrite ?Hd, ?Hl; try done.
  { rewrite Hh. void. }
  intros [] s' (Hid & _ & Hs & _). split; [|done]. eexists. destruct Hid as [Hst' Hg Hn Hbu Hu _ Hc].
  split; try done. rewrite Hs. intros x Hx. rewrite <- HV by done.
  unfold recovery_writes. rewrite apply_writes_app. simpl. apply upd_ne. lia.
Qed.

(** ** The disk during a transaction *)

(** The disk before the transaction, [d0]; the writes [lw] of its body, to the log's
    data blocks; the sectors [D] it logged; and the blocks [V] before, [V'] after. *)
Record tx_disk (d0 : disk) (lw : writes) (W V V' : Z -> list Z) (start nlog : Z) (D : list Z)
    : Prop := {
  td_len : forall sec, 0 <= sec < d_size d0 -> length (dblk d0 sec) = 512%nat;
  td_old : forall x, 0 <= x < start -> dblk d0 x = V x;
  td_head : head_n (dblk d0 start) = 0;
  td_sb : sb_ok V (d_size d0) start nlog /\ V' 1 = V 1;
  td_log : log_only start nlog lw;
  td_nodup : NoDup D;
  td_home : forall x, x ∈ D -> 0 <= x < start;
  td_cap : (length D < NBUF)%nat /\ Z.of_nat (length D) <= nlog - 1;
  td_copy : forall k x, D !! k = Some x ->
    dblk (replay d0 lw) (start + Z.of_nat k + 1) = V' x;
  td_same : forall x, 0 <= x < start -> x ∉ D -> V x = V' x;
  td_W : length (W start) = 512%nat /\
    forall k, Z.of_nat k < nlog - 1 -> W (start + Z.of_nat k + 1) = dblk (replay d0 lw) (start + Z.of_nat k + 1)
}.

Lemma log_only_home start nlog lw x : log_only start nlog lw -> x <= start -> x ∉ lw.*1.
Proof.
  intros Ho Hx (w & -> & Hw)%list_elem_of_fmap.
  unfold log_only in Ho. rewrite Forall_forall in Ho. specialize (Ho w Hw). lia.
Qed.

Lemma log_only_take start nlog lw m : log_only start nlog lw -> log_only start nlog (take m lw).
Proof. apply Forall_take. Qed.

Lemma replay_length d ws :
  (forall sec, 0 <= sec < d_size d -> length (dblk d sec) = 512%nat) ->
  Forall (fun w : Z * list Z => length w.2 = 512%nat) ws ->
  forall sec, 0 <= sec < d_size (replay d ws) -> length (dblk (replay d ws) sec) = 512%nat.
Proof.
  revert d. induction ws as [|[x b] ws IH]; intros d Hd Hws; [done|].
  apply Forall_cons in Hws as [Hb Hws]. simpl. apply IH; [|done].
  intros sec Hsec. rewrite dblk_disk_write. unfold upd. case_decide; [done|]. by apply Hd.
Qed.

Lemma commit_writes_cons W start D :
  D <> [] -> commit_writes W start D =
    (start, header (W start) D) :: install_writes W start 0 D
      ++ [(start, header (header (W start) D) [])].
Proof. by destruct D. Qed.

Section tx_disk.
Context (d0 : disk) (lw : writes) (W V V' : Z -> list Z) (start nlog : Z) (D : list Z).
Context (Htd : tx_disk d0 lw W V V' start nlog D).

(** A crash before the commit point. *)
Lemma crash_before m : recovers (replay d0 (take m lw)) start V.
Proof using Htd.
  destruct Htd as [Hlen Hold Hhead [Hsb _] Hlog _ _ _ _ _ _].
  set (d := replay d0 (take m lw)).
  assert (forall x, x <= start -> dblk d x = dblk d0 x) as Hsame.
  { intros x Hx. unfold d. rewrite dblk_replay, apply_writes_notin; [done|].
    eapply log_only_home; [by apply log_only_take|done]. }
  destruct Hsb as [Hs1 Hs2 (Hg1 & Hg2 & Hg3 & Hg4)].
  assert (head_sectors (dblk d start) = []) as Hnil.
  { apply length_zero_iff_nil. rewrite length_head_sectors, Hsame, Hhead by lia. done. }
  apply (recovers_spec _ _ start nlog).
  - apply replay_length; [done|]. eapply Forall_impl; [by apply Forall_take|]. by intros w [_ ?].
  - unfold d. rewrite d_size_replay. fold d. split; [|rewrite Hsame, Hold by lia; done|done].
    by rewrite Hsame, Hold by lia.
  - split; [rewrite Hsame, Hhead by lia; unfold NBUF; lia|..]; rewrite Hnil; [constructor|void].
  - intros x Hx. rewrite Hnil. simpl. rewrite Hsame by lia. by apply Hold.
Qed.

Let d1 : disk := replay d0 lw.
Let iw : writes := install_writes W start 0 D.
Let hd : list Z := header (W start) D.

Lemma td_base x : 0 <= x < start -> dblk d1 x = V x.
Proof using Htd.
  intros Hx. destruct Htd as [_ Hold _ _ Hlog _ _ _ _ _ _]. unfold d1.
  rewrite dblk_replay, apply_writes_notin; [by apply Hold|].
  eapply log_only_home; [done|lia].
Qed.

Lemma td_len1 ws : Forall (fun w : Z * list Z => length w.2 = 512%nat) ws ->
  forall sec, 0 <= sec < d_size (replay d1 ws) -> length (dblk (replay d1 ws) sec) = 512%nat.
Proof using Htd.
  intros Hws. destruct Htd as [Hlen _ _ _ Hlog _ _ _ _ _ _].
  unfold d1. rewrite <- replay_app. apply replay_length; [done|]. apply Forall_app. split; [|done].
  eapply Forall_impl; [exact Hlog|]. by intros w [_ ?].
Qed.

Lemma td_iw_lookup k x d : iw !! k = Some (x, d) -> D !! k = Some x /\ d = V' x.
Proof using Htd.
  intros [HD ->]%install_writes_inv. destruct Htd as [_ _ _ _ _ _ _ [_ Hcap] Hcp _ [_ HW]].
  split; [done|]. pose proof (lookup_lt_Some _ _ _ HD). rewrite HW by lia. by apply Hcp.
Qed.

Lemma td_iw_len : Forall (fun w : Z * list Z => length w.2 = 512%nat) iw.
Proof using Htd.
  apply Forall_forall. intros [x d] [k Hk]%list_elem_of_lookup. simpl.
  apply td_iw_lookup in Hk as [HD ->].
  pose proof Htd as [_ _ _ [[_ _ (? & ? & ? & ?)] _] _ _ _ [_ Hcap] Hcp _ _].
  rewrite <- (Hcp _ _ HD). pose proof (lookup_lt_Some _ _ _ HD).
  apply (td_len1 [] ltac:(constructor)). unfold d1. simpl. rewrite d_size_replay. lia.
Qed.

Lemma td_hd : length hd = 512%nat /\ head_n hd = Z.of_nat (length D) /\ head_sectors hd = D.
Proof using Htd.
  destruct Htd as [_ _ _ [[_ _ (? & ? & ? & ?)] _] _ _ Hh [Hc _] _ _ [HW _]].
  unfold NBUF in Hc. split_and!.
  - by apply length_header; lia.
  - by apply head_n_header; lia.
  - apply head_sectors_header; [done|lia|]. intros x Hx%Hh. lia.
Qed.

(** The blocks after a crash between the commit point and the end of installation. *)
Lemma partial_view j x :
  dblk (replay d1 ((start, hd) :: take j iw)) x =
  if decide (x = start) then hd
  else if decide (x ∈ take j D) then V' x else dblk d1 x.
Proof using Htd.
  pose proof Htd as [_ _ _ _ _ Hnd Hh _ _ _ _].
  rewrite dblk_replay. simpl.
  assert ((take j iw).*1 = take j D) as Hfst.
  { rewrite fmap_take. f_equal. apply install_writes_fst. }
  destruct (decide (x ∈ take j D)) as [Hin|Hni].
  - pose proof Hin as Hin'. rewrite <- Hfst in Hin.
    apply list_elem_of_fmap in Hin as ([x' d] & -> & [k Hk]%list_elem_of_lookup).
    rewrite decide_False.
    2:{ intros Heq. apply elem_of_take_1, Hh in Hin'. lia. }
    erewrite (apply_writes_at _ _ k x' d); [|rewrite Hfst; by apply NoDup_take|done].
    apply lookup_take_Some in Hk as [Hk _]. by apply td_iw_lookup in Hk as [_ Hd].
  - rewrite apply_writes_notin by by rewrite Hfst. unfold upd. by case_decide.
Qed.

Lemma crash_during j : recovers (replay d1 ((start, hd) :: take j iw)) start V'.
Proof using Htd.
  pose proof td_hd as (Hh1 & Hh2 & Hh3).
  pose proof Htd as [_ _ _ [[Hs1 Hs2 (Hg1 & Hg2 & Hg3 & Hg4)] Hsb'] _ Hnd Hh [Hc1 Hc2] Hcp Hsame _].
  set (d := replay d1 _). pose proof (partial_view j) as Hview. fold d in Hview.
  assert (dblk d start = hd) as Hstart by (rewrite Hview; by rewrite decide_True).
  assert (dblk d 1 = V 1) as H1.
  { rewrite Hview, decide_False by lia. case_decide; [done|]. apply td_base. lia. }
  assert (forall k x, D !! k = Some x -> dblk d (start + Z.of_nat k + 1) = V' x) as Hcopy.
  { intros k x Hk. rewrite Hview, decide_False by lia. rewrite decide_False; [by apply Hcp|].
    intros Hin%elem_of_take_1%Hh. lia. }
  apply (recovers_spec _ _ start nlog); rewrite ?Hstart, ?Hh3.
  - apply td_len1. constructor; [done|]. apply Forall_take, td_iw_len.
  - split; rewrite ?H1; try done. split_and!; try done; unfold d, d1; by rewrite !d_size_replay.
  - split; rewrite ?Hh2, ?Hh3; try done. lia.
  - apply (install_view (dblk d)); try done. intros x Hx Hni. rewrite Hview.
    rewrite !decide_False; [|by intros ?%elem_of_take_1|lia].
    rewrite td_base by done. by apply Hsame.
Qed.

Lemma crash_done : recovers (replay d1 ((start, hd) :: iw ++ [(start, header hd [])])) start V'.
Proof using Htd.
  pose proof td_hd as (Hh1 & Hh2 & Hh3).
  pose proof Htd as [_ _ _ [[Hs1 Hs2 (Hg1 & Hg2 & Hg3 & Hg4)] Hsb'] _ Hnd Hh [Hc1 Hc2] Hcp Hsame _].
  set (d := replay d1 _).
  assert (forall x, dblk d x = if decide (x = start) then header hd []
            else if decide (x ∈ D) then V' x else dblk d1 x) as Hview.
  { intros x. unfold d. rewrite app_comm_cons, replay_app. simpl. rewrite dblk_disk_write. unfold upd.
    case_decide; [done|]. pose proof (partial_view (length D) x) as Hp.
    assert (length iw = length D) as Hl
      by (rewrite <- (length_fmap fst); unfold iw; by rewrite install_writes_fst).
    rewrite !firstn_all2 in Hp by lia.
    simpl in Hp. rewrite Hp. by rewrite decide_False by done. }
  assert (dblk d start = header hd []) as Hstart by (rewrite Hview; by rewrite decide_True).
  assert (head_n (header hd []) = 0) as Hn by (apply head_n_header; simpl; lia).
  assert (head_sectors (header hd []) = []) as Hnil.
  { apply length_zero_iff_nil. by rewrite length_head_sectors, Hn. }
  assert (forall x, 0 <= x < start -> dblk d x = V' x) as Hhome.
  { intros x Hx. rewrite Hview, decide_False by lia. case_decide; [done|].
    rewrite td_base by done. by apply Hsame. }
  apply (recovers_spec _ _ start nlog); rewrite ?Hstart, ?Hnil.
  - apply td_len1. constructor; [done|]. apply Forall_app. split; [apply td_iw_len|].
    constructor; [|constructor]. apply length_header; simpl; lia.
  - split; rewrite ?Hhome, ?Hsb' by lia; try done. split_and!; try done;
    unfold d, d1; by rewrite !d_size_replay.
  - split; rewrite ?Hn, ?Hnil; [unfold NBUF; lia|constructor|void].
  - done.
Qed.

(** Every crash point. *)
Lemma crash_any m :
  let ws := lw ++ commit_writes W start D in
  recovers (replay d0 (take m ws)) start V \/ recovers (replay d0 (take m ws)) start V'.
Proof using Htd.
  intros ws. subst ws. rewrite take_app. destruct (decide (m <= length lw)%nat) as [Hm|Hm].
  { left. replace (m - length lw)%nat with 0%nat by lia. rewrite take_0, app_nil_r.
    apply crash_before. }
  rewrite replay_app, (firstn_all2 lw) by lia. fold d1.
  destruct (m - length lw)%nat as [|j] eqn:Ej; [lia|].
  destruct (decide (D = [])) as [HD|HD].
  { left. replace (commit_writes W start D) with ([] : writes) by (by rewrite HD). simpl. pose proof (crash_before (length lw)) as Hb. by rewrite firstn_all in Hb. }
  right. rewrite commit_writes_cons by done. cbn [take]. fold iw hd. rewrite take_app.
  destruct (decide (j <= length iw)%nat).
  - replace (j - length iw)%nat with 0%nat by lia. rewrite take_0, app_nil_r. apply crash_during.
  - rewrite (firstn_all2 iw), (firstn_all2 [_]) by (simpl; lia). apply crash_done.
Qed.

Lemma crash_end : recovers (replay d0 (lw ++ commit_writes W start D)) start V'.
Proof using Htd.
  rewrite replay_app. fold d1. destruct (decide (D = [])) as [HD|HD].
  - replace (commit_writes W start D) with ([] : writes) by (by rewrite HD). simpl. pose proof (crash_before (length lw)) as Hb. rewrite firstn_all in Hb.
    intros s Hs. eapply runs_mono; [by apply Hb|]. intros _ s' [[W' [? ? ? ? ? Hv ?]] Hs'].
    split; [|done]. exists W'. split; try done. intros x Hx. rewrite Hv by done.
    destruct Htd as [_ _ _ _ _ _ _ _ _ Hsame _]. rewrite Hs' in Hx. apply Hsame; [done|].
    rewrite HD. void.
  - rewrite commit_writes_cons by done. apply crash_done.
Qed.
End tx_disk.

(** ** Transactions *)

Lemma tx_disk_intro s W0 s1 W V V' D lw :
  let start := l_start (k_log s) in
  let nlog := l_size (k_log s) in
  idleinv s W0 V -> sb_ok V (d_size (k_disk s)) start nlog -> V' 1 = V 1 ->
  txinv s1 W V' D [] -> k_disk s1 = replay (k_disk s) lw -> log_only start nlog lw ->
  l_start (k_log s1) = start -> l_size (k_log s1) = nlog ->
  tx_disk (k_disk s) lw W V V' start nlog D.
Proof.
  intros start nlog [Hst0 Hg0 _ _ _ Hv0 Hc0] Hsb HV1
    [Hst Hg Hl Hu Hnd Hh [Hc1 Hc2] Hv Hcp Hcl _] Hd Hlo Es En. rewrite Es, En in *.
  destruct Hg0 as [_ G1 G2 G3 G4 _]. fold start nlog in G1, G2, G3, Hc0, Hv0.
  assert (forall x, 0 <= x < d_size (k_disk s) -> dblk (k_disk s) x = W0 x) as E0
    by (intros; by eapply bstore_disk; [exact Hst0|..]).
  assert (forall x, 0 <= x < d_size (k_disk s) -> x ∉ D -> dblk (replay (k_disk s) lw) x = W x) as E1.
  { intros x Hx Hni. rewrite <- Hd. eapply bstore_disk; [exact Hst| |set_solver].
    by rewrite Hd, d_size_replay. }
  assert (forall k, start + Z.of_nat k + 1 ∉ D) as Hlogblk by (intros k Hin%Hh; lia).
  split; try done.
  - intros x Hx. rewrite E0 by done. by eapply bstore_vlen.
  - intros x Hx. rewrite E0 by lia. by apply Hv0.
  - by rewrite E0 by lia.
  - intros k x Hk. pose proof (lookup_lt_Some _ _ _ Hk). rewrite E1 by (done || lia). by apply Hcp.
  - intros x Hx Hni. rewrite <- Hv, <- E1 by (done || lia).
    rewrite dblk_replay, apply_writes_notin by (eapply log_only_home; [done|lia]).
    rewrite E0 by lia. symmetry. by apply Hv0.
  - split.
    + eapply bstore_vlen; [exact Hst|]. rewrite Hd, d_size_replay. lia.
    + intros k Hk. symmetry. apply E1; [lia|done].
Qed.

(** Any body that keeps the transaction view makes an atomic transaction. *)
Lemma transaction_crash (body : K unit) s V V' :
  let start := l_start (k_log s) in
  idle s V -> sb_ok V (d_size (k_disk s)) start (l_size (k_log s)) -> V' 1 = V 1 ->
  (forall s0, tx s0 V [] [] -> l_busy (k_log s0) <> 0 -> lframe s s0 ->
     runs body s0 (fun _ s1 => (exists D, tx s1 V' D []) /\ tframe s0 s1)) ->
  runs (begin_trans ;; body ;; commit_trans) s (fun _ s' =>
    idle s' V' /\ exists ws, k_disk s' = replay (k_disk s) ws /\
      (forall m, recovers (replay (k_disk s) (take m ws)) start V \/
                 recovers (replay (k_disk s) (take m ws)) start V') /\
      recovers (k_disk s') start V').
Proof.
  intros start [W0 Hid] Hsb HV1 Hbody.
  eapply runs_step; [by apply begin_trans_inv|]. intros [] s0 (Hx0 & Hb0 & Hf0 & Hd0).
  eapply runs_step; [apply Hbody; [by eexists|done..]|].
  intros [] s1 ([D [W Hx1]] & Hf1 & _ & lw & Hlw & Hlo).
  eapply runs_mono; [by apply commit_inv|]. intros [] s2 (Hid2 & Hf2 & Hd2).
  rewrite (lframe_start _ _ Hf0), (lframe_size _ _ Hf0), Hd0 in *.
  rewrite (lframe_start _ _ Hf1), (lframe_start _ _ Hf0) in Hd2, Hid2. fold start in Hid2, Hd2, Hlo.
  assert (tx_disk (k_disk s) lw W V V' start (l_size (k_log s)) D) as Htd.
  { eapply (tx_disk_intro s W0 s1); try done; [by rewrite (lframe_start _ _ Hf1), (lframe_start _ _ Hf0)|
      by rewrite (lframe_size _ _ Hf1), (lframe_size _ _ Hf0)]. }
  split; [by eexists|]. exists (lw ++ commit_writes W start D).
  assert (k_disk s2 = replay (k_disk s) (lw ++ commit_writes W start D)) as Hd
    by (rewrite replay_app; congruence).
  split_and!; [done| |].
  - intros m. eapply crash_any; eauto.
  - rewrite Hd. eapply crash_end; eauto.
Qed.

(** The use of the log that the comment above [log_write] gives: read a block, modify
    it, log it, release it; and a system call that does so for a list of blocks. *)
Definition log_block (sec : Z) (d : list Z) : K unit :=
  i <- bread ROOTDEV sec ;;
  updb i (bset_data d) ;;
  log_write i ;;
  brelse i.

Definition transaction (ws : writes) : K unit :=
  begin_trans ;;
  foreach (fun w => log_block w.1 w.2) ws ;;
  commit_trans.

Lemma log_block_spec s V D sec d :
  tx s V D [] -> l_busy (k_log s) <> 0 -> 0 <= sec < l_start (k_log s) -> length d = 512%nat ->
  (length D < 9)%nat -> Z.of_nat (length D) < l_size (k_log s) - 1 ->
  runs (log_block sec d) s (fun _ s' => tx s' (upd V sec d) (log_add D sec) [] /\ tframe s s').
Proof.
  intros Hx Hb Hsec Hd HD1 HD2. unfold log_block. unfold NBUF in *.
  assert (size (list_to_set D : gset Z) = length D) as Hsz
    by (destruct Hx as [W Hx]; by eapply tx_room).
  eapply runs_step; [apply (tx_bread _ _ _ _ sec Hx Hsec)|].
  { void. }
  { right. rewrite pinned_nil, Hsz. unfold NBUF. lia. }
  intros i s1 (Hx1 & Hf1).
  eapply runs_step; [by apply (tx_bset _ _ _ _ _ _ _ d Hx1)|]. intros [] s2 (Hx2 & Hf2).
  eapply runs_step; [apply (tx_log_write _ _ _ _ _ _ _ Hx2)|].
  { by rewrite (tframe_busy _ _ Hf2), (tframe_busy _ _ Hf1). }
  { lia. }
  { by rewrite (tframe_size _ _ Hf2), (tframe_size _ _ Hf1). }
  { eapply Nat.le_lt_trans; [apply pinned_bound|]. rewrite Hsz. unfold NBUF. simpl. lia. }
  intros [] s3 (Hx3 & Hf3).
  eapply runs_mono; [apply (tx_brelse _ _ _ _ _ _ _ Hx3); by rewrite upd_eq|].
  intros [] s4 (Hx4 & Hf4). split; [done|]. frames.
Qed.

Lemma log_blocks_spec s V D ws :
  tx s V D [] -> l_busy (k_log s) <> 0 ->
  Forall (fun w => 0 <= w.1 < l_start (k_log s) /\ length w.2 = 512%nat) ws ->
  (length D + length ws <= 9)%nat -> Z.of_nat (length D + length ws) <= l_size (k_log s) - 1 ->
  runs (foreach (fun w => log_block w.1 w.2) ws) s (fun _ s' =>
    tx s' (apply_writes V ws) (foldl log_add D ws.*1) [] /\ tframe s s').
Proof.
  revert s V D. induction ws as [|[sec d] ws IH]; intros s V D Hx Hb Hws H1 H2.
  - apply runs_ret. by split.
  - apply Forall_cons in Hws as [[Hs Hd] Hws]. cbn [foreach length fst snd] in *.
    eapply runs_step; [apply (log_block_spec _ _ _ _ _ Hx Hb Hs Hd); lia|].
    intros [] s1 (Hx1 & Hf1).
    assert (length (log_add D sec) <= S (length D))%nat
      by (rewrite log_add_length; case_decide; lia).
    eapply runs_mono; [apply (IH _ _ _ Hx1)|]; rewrite ?(tframe_start _ _ Hf1), ?(tframe_size _ _ Hf1),
      ?(tframe_busy _ _ Hf1); try done; try lia.
    intros [] s2 (Hx2 & Hf2). split; [done|]. frames.
Qed.

(** C1. A transaction is atomic across a crash, and durable. From an idle log, a
    transaction that logs at most nine home blocks returns; the blocks it logged
    have their new contents; and if the machine stops after any number [m] of its
    disk writes, rebooting and running recovery gives all of the old blocks or all of
    the new ones; the new ones when the transaction had returned. *)
Theorem transaction_atomic s V ws :
  idle s V ->
  sb_ok V (d_size (k_disk s)) (l_start (k_log s)) (l_size (k_log s)) ->
  Forall (fun w => 1 < w.1 < l_start (k_log s) /\ length w.2 = 512%nat) ws ->
  (length ws <= 9)%nat -> Z.of_nat (length ws) <= l_size (k_log s) - 1 ->
  let start := l_start (k_log s) in
  let V' := apply_writes V ws in
  runs (transaction ws) s (fun _ s' =>
    idle s' V' /\ exists trace, k_disk s' = replay (k_disk s) trace /\
      (forall m, recovers (replay (k_disk s) (take m trace)) start V \/
                 recovers (replay (k_disk s) (take m trace)) start V') /\
      recovers (k_disk s') start V').
Proof.
  intros Hid Hsb Hws H1 H2 start V'. apply transaction_crash; try done.
  - apply apply_writes_notin. intros (w & Hw1 & Hw)%list_elem_of_fmap.
    rewrite Forall_forall in Hws. specialize (Hws w Hw). lia.
  - intros s0 Hx Hb Hf. eapply runs_mono; [apply (log_blocks_spec _ _ _ ws Hx Hb)|]; simpl;
      rewrite ?(lframe_start _ _ Hf), ?(lframe_size _ _ Hf); try done.
    2:{ intros [] s1 [Hx1 Hf1]. eauto. }
    eapply Forall_impl; [exact Hws|]. intros w [? ?]. split; [lia|done].
Qed.

(** ** Crashes during recovery *)

Lemma apply_writes_again V ws j x :
  NoDup ws.*1 -> apply_writes (apply_writes V (take j ws)) ws x = apply_writes V ws x.
Proof.
  intros Hnd. destruct (decide (x ∈ ws.*1)) as [Hin|Hni].
  - apply list_elem_of_fmap in Hin as ([x' d] & -> & [k Hk]%list_elem_of_lookup).
    by rewrite !(apply_writes_at _ ws k x' d).
  - rewrite !apply_writes_notin; try done. rewrite fmap_take. by intros ?%elem_of_take_1.
Qed.

Section restart.
Context (d : disk) (V : Z -> list Z) (start nlog : Z).
Context (Hlen : forall sec, 0 <= sec < d_size d -> length (dblk d sec) = 512%nat).
Context (Hsb : sb_ok (dblk d) (d_size d) start nlog).
Context (Hhd : head_ok (dblk d start) start nlog).
Context (Hsb1 : 1 ∉ head_sectors (dblk d start)).
Let iw : writes := install_writes (dblk d) start 0 (head_sectors (dblk d start)).
Context (HV : forall x, 0 <= x < start -> apply_writes (dblk d) iw x = V x).

Lemma restart_iw_len : Forall (fun w : Z * list Z => length w.2 = 512%nat) iw.
Proof using Hlen Hsb Hhd.
  apply Forall_forall. intros [x b] [k Hk]%list_elem_of_lookup. simpl.
  apply install_writes_inv in Hk as [HD ->]. apply lookup_lt_Some in HD. rewrite length_head_sectors in HD.
  destruct Hhd as [[Hn1 Hn2] _ _]. destruct Hsb as [_ _ (? & ? & ? & ?)]. apply Hlen. lia.
Qed.

Lemma restart_high j x : start <= x -> apply_writes (dblk d) (take j iw) x = dblk d x.
Proof using Hhd.
  intros Hx. apply apply_writes_notin. unfold iw. rewrite fmap_take, install_writes_fst.
  intros Hin%elem_of_take_1. apply (hd_home _ _ _ Hhd) in Hin. lia.
Qed.

Lemma restart_sb j : apply_writes (dblk d) (take j iw) 1 = dblk d 1.
Proof using Hsb1.
  apply apply_writes_notin. unfold iw. rewrite fmap_take, install_writes_fst.
  by intros ?%elem_of_take_1.
Qed.

(** While blocks are being installed. *)
Lemma restart_during j : recovers (replay d (take j iw)) start V.
Proof using Hlen Hsb Hhd Hsb1 HV.
  set (d' := replay d (take j iw)).
  assert (forall x, dblk d' x = apply_writes (dblk d) (take j iw) x) as Hd'
    by (intros x; apply dblk_replay).
  assert (dblk d' start = dblk d start) as Hh by (rewrite Hd'; by apply restart_high).
  pose proof Hsb as [Hs1 Hs2 Hs3].
  apply (recovers_spec _ _ start nlog); rewrite ?Hh.
  - apply replay_length; [done|]. apply Forall_take, restart_iw_len.
  - split; unfold d'; rewrite ?d_size_replay; try done; fold d'; by rewrite Hd', restart_sb.
  - done.
  - intros x Hx. rewrite <- HV by done.
    rewrite (install_writes_ext _ (dblk d)) by (intros y Hy; rewrite Hd'; apply restart_high; lia).
    fold iw. rewrite (apply_writes_ext _ _ _ _ (Hd' x)). apply apply_writes_again.
    unfold iw. rewrite install_writes_fst. apply Hhd.
Qed.

(** Once the header is erased. *)
Lemma restart_done : recovers (replay d (iw ++ [(start, header (dblk d start) [])])) start V.
Proof using Hlen Hsb Hhd Hsb1 HV.
  pose proof Hsb as [Hs1 Hs2 (G1 & G2 & G3 & G4)].
  assert (length (dblk d start) = 512%nat) as Hl by (apply Hlen; lia).
  set (h0 := header (dblk d start) []). set (d' := replay d _).
  assert (forall x, dblk d' x = upd (apply_writes (dblk d) iw) start h0 x) as Hd'.
  { intros x. unfold d'. rewrite dblk_replay, apply_writes_app. done. }
  assert (head_n h0 = 0) as Hn by (apply head_n_header; simpl; lia).
  assert (head_sectors h0 = []) as Hnil.
  { apply length_zero_iff_nil. by rewrite length_head_sectors, Hn. }
  assert (dblk d' 1 = dblk d 1) as H1.
  { rewrite Hd', upd_ne by lia. pose proof (restart_sb (length iw)) as Hr. by rewrite firstn_all in Hr. }
  apply (recovers_spec _ _ start nlog); rewrite ?(Hd' start), ?upd_eq, ?Hnil.
  - apply replay_length; [done|]. apply Forall_app. split; [apply restart_iw_len|].
    constructor; [|constructor]. apply length_header; simpl; lia.
  - split; unfold d'; rewrite ?d_size_replay; try done; fold d'; by rewrite H1.
  - split; rewrite ?Hn, ?Hnil; [unfold NBUF; lia|constructor|void].
  - intros x Hx. simpl. rewrite Hd', upd_ne by lia. by apply HV.
Qed.
End restart.

Lemma recover_trace d start nlog s :
  (forall sec, 0 <= sec < d_size d -> length (dblk d sec) = 512%nat) ->
  sb_ok (dblk d) (d_size d) start nlog -> head_ok (dblk d start) start nlog ->
  rebooted d s ->
  runs recover s (fun _ s' => k_disk s' = replay d (recovery_writes (dblk d) start)).
Proof.
  intros Hlen Hsb Hhd [Hd Hb Hl Hh]. unfold recover. eapply runs_eq; [by apply binit_eq|].
  assert (bstore (set_bufs booted_bufs s) (dblk d) ∅ []) as Hst.
  { subst d. apply (booted_store (set_bufs booted_bufs s)); [done|by apply bio_unlocked_nil|done]. }
  eapply runs_mono; [apply (initlog_inv _ _ start nlog Hst)|]; simpl; rewrite ?Hd, ?Hl; try done.
  { rewrite Hh. void. }
  by intros [] s' (_ & Hd' & _).
Qed.

(** C2. Recovery can be interrupted and run again. On a disk whose header lists
    committed home blocks, [binit] and [initlog] write the disk by a fixed sequence of
    writes; if the machine stops after any number of them, the next recovery reaches the same
    blocks [V], those with every committed block installed. *)
Theorem recovery_restartable d V start nlog :
  (forall sec, 0 <= sec < d_size d -> length (dblk d sec) = 512%nat) ->
  sb_ok (dblk d) (d_size d) start nlog -> head_ok (dblk d start) start nlog ->
  1 ∉ head_sectors (dblk d start) ->
  (forall x, 0 <= x < start ->
     apply_writes (dblk d) (install_writes (dblk d) start 0 (head_sectors (dblk d start))) x = V x) ->
  exists trace,
    (forall s, rebooted d s -> runs recover s (fun _ s' => k_disk s' = replay d trace)) /\
    forall m, recovers (replay d (take m trace)) start V.
Proof.
  intros Hlen Hsb Hhd H1 HV. exists (recovery_writes (dblk d) start). split.
  { intros s. by eapply recover_trace. }
  intros m. unfold recovery_writes. rewrite take_app.
  set (iw := install_writes _ _ _ _). destruct (decide (m <= length iw)%nat).
  - replace (m - length iw)%nat with 0%nat by lia. rewrite take_0, app_nil_r.
    by apply (restart_during d V start nlog).
  - rewrite (firstn_all2 iw), (firstn_all2 [_]) by (simpl; lia).
    by apply (restart_done d V start nlog).
Qed.
End crash.

(** ** Booted states *)

(** The kernel after [binit] and [initlog] on a disk whose log is empty. *)
Definition booted (d : disk) (start nlog : Z) : kstate :=
  set_log (Types.Log start nlog 0 ROOTDEV 0 (replicate (Z.to_nat LOGSIZE) 0))
    (set_bufs booted_bufs (boot_state d)).

Lemma booted_idle d start nlog :
  (forall sec, 0 <= sec < d_size d -> length (dblk d sec) = 512%nat) ->
  1 < start -> 0 < nlog -> start + nlog <= d_size d -> d_size d < 2147483648 ->
  head_n (dblk d start) = 0 ->
  idle (booted d start nlog) (dblk d).
Proof.
  intros Hlen H1 H2 H3 H4 Hn. exists (dblk d). split; try done.
  - apply (booted_store (booted d start nlog)); [done|by apply bio_unlocked_nil|done].
  - simpl. void.
Qed.

(** A disk of thirty blocks, of which the last ten are the log. *)
Definition tiny_sb : list Z := put32 (put32 zero_block 0 30) 12 10.
Definition tiny_disk : disk := Disk (<[1 := tiny_sb]> ∅) 30 [].
Definition tiny : kstate := booted tiny_disk 20 10.

Lemma tiny_len sec : length (dblk tiny_disk sec) = 512%nat.
Proof.
  unfold dblk, tiny_disk. cbn [d_blocks]. rewrite lookup_insert, lookup_empty. by case_decide.
Qed.

Lemma tiny_idle : idle tiny (dblk tiny_disk).
Proof. apply booted_idle; simpl; try lia; [intros; apply tiny_len|by vm_compute]. Qed.

Definition tiny_ws : writes := [(5, replicate 512 7); (6, replicate 512 8); (5, replicate 512 9)].

Lemma tiny_sb_ok : sb_ok (dblk tiny_disk) 30 20 10.
Proof.
  split; [vm_compute; reflexivity|vm_compute; reflexivity|]. split_and!; lia.
Qed.

Lemma tiny_ws_ok : Forall (fun w => 1 < w.1 < 20 /\ length w.2 = 512%nat) tiny_ws.
Proof.
  unfold tiny_ws. repeat (apply Forall_cons; split; [split; [simpl; lia|apply length_replicate]|]).
  constructor.
Qed.

Lemma transaction_atomic_witness :
  exists s', transaction (drv := memide) tiny_ws tiny = Ret tt s' /\
    idle s' (apply_writes (dblk tiny_disk) tiny_ws).
Proof.
  destruct (transaction_atomic (drv := memide) tiny (dblk tiny_disk) tiny_ws)
    as ([] & s' & Hrun & Hid & _).
  - apply tiny_idle.
  - apply tiny_sb_ok.
  - apply tiny_ws_ok.
  - simpl. lia.
  - simpl. lia.
  - exists s'. split; [exact Hrun|exact Hid].
Defined.

(** The small disk with a committed transaction that is not installed yet: block 5 is to
    become the contents of log block 0. *)
Definition tiny_committed : disk :=
  replay tiny_disk [(21, replicate 512 7); (20, header zero_block [5])].

Lemma recovery_restartable_witness :
  exists trace,
    (forall s, rebooted tiny_committed s ->
       runs (recover (drv := memide)) s (fun _ s' => k_disk s' = replay tiny_committed trace)) /\
    forall m, recovers (drv := memide) (replay tiny_committed (take m trace)) 20
                (upd (dblk tiny_disk) 5 (replicate 512 7)).
Proof.
  apply (recovery_restartable (drv := memide) tiny_committed _ 20 10).
  - apply replay_length; [|repeat (apply Forall_cons; split; [vm_compute; reflexivity|]); constructor].
    intros sec _. apply tiny_len.
  - split; [vm_compute; reflexivity|vm_compute; reflexivity|]. split_and!; simpl; lia.
  - split.
    + replace (head_n _) with 1 by (vm_compute; reflexivity). unfold NBUF. lia.
    + replace (head_sectors _) with [5] by (vm_compute; reflexivity). apply NoDup_singleton.
    + replace (head_sectors _) with [5] by (vm_compute; reflexivity). intros x Hx. apply list_elem_of_singleton in Hx as ->. lia.
  - replace (head_sectors _) with [5] by (vm_compute; reflexivity).
    rewrite list_elem_of_singleton. lia.
  - intros x Hx. replace (head_sectors _) with [5] by (vm_compute; reflexivity).
    cbn [install_writes]. replace (dblk tiny_committed (20 + Z.of_nat 0 + 1)) with (replicate 512 7)
      by (vm_compute; reflexivity).
    simpl. unfold upd. case_decide; [done|]. unfold tiny_committed.
    rewrite dblk_replay, apply_writes_notin; [done|]. simpl.
    rewrite !elem_of_cons, elem_of_nil. lia.
Defined.
