(* ===== verification/BioProps.v ===== *)
(** * Properties of the buffer cache and of the memory disk

    The cache is a block store: any sequence of reads and writes through it returns
    what the blocks hold and leaves the disk up to date. Replacement is LRU. *)

From S2P Require Import Prelude Types Monad Sched Ring Bio BioSpec Crash.

(** ** The cache refines a map from block numbers to contents *)

(** A client of bio.c: read a block, or read it, change it and write it. *)
Inductive block_op := GetBlock (sec : Z) | PutBlock (sec : Z) (d : list Z).

Section client.
Context {drv : DiskDriver}.

Definition run_op (op : block_op) : K (list Z) :=
  match op with
  | GetBlock sec =>
      i <- bread ROOTDEV sec ;;
      b <- getb i ;;
      brelse i ;;
      ret (b_data b)
  | PutBlock sec d =>
      i <- bread ROOTDEV sec ;;
      b <- getb i ;;
      updb i (bset_data d) ;;
      bwrite i ;;
      brelse i ;;
      ret (b_data b)
  end.

Fixpoint run_ops (ops : list block_op) : K (list (list Z)) :=
  match ops with
  | [] => ret []
  | op :: ops => x <- run_op op ;; xs <- run_ops ops ;; ret (x :: xs)
  end.

(** The specification: a function from block numbers to contents. *)
Definition op_block (op : block_op) : Z :=
  match op with GetBlock sec => sec | PutBlock sec _ => sec end.
Definition op_ok (size : Z) (op : block_op) : Prop :=
  0 <= op_block op < size /\
  match op with GetBlock _ => True | PutBlock _ d => length d = 512%nat end.
Definition spec_op (V : Z -> list Z) (op : block_op) : Z -> list Z :=
  match op with GetBlock _ => V | PutBlock sec d => upd V sec d end.

Fixpoint spec_ops (V : Z -> list Z) (ops : list block_op) : list (list Z) * (Z -> list Z) :=
  match ops with
  | [] => ([], V)
  | op :: ops => let '(xs, V') := spec_ops (spec_op V op) ops in (V (op_block op) :: xs, V')
  end.

Lemma run_op_spec s V op :
  bstore s V ∅ [] -> op_ok (d_size (k_disk s)) op ->
  runs (run_op op) s (fun x s' =>
    x = V (op_block op) /\ bstore s' (spec_op V op) ∅ [] /\ bframe s s').
Proof.
  intros Hst [Hr Hlen]. assert (size (pinned ∅ []) < NBUF)%nat as Hroom
    by (rewrite pinned_nil, size_empty; unfold NBUF; lia).
  destruct op as [sec|sec d]; simpl in *.
  - eapply runs_step; [apply (bread_spec _ _ _ _ sec Hst Hr); [void|by right]|].
    intros i s1 (Hst1 & Hf1 & _). eapply held_getb; [exact Hst1|left|]. intros b _ _ Hb.
    eapply runs_step; [by apply (brelse_spec _ _ _ _ _ _ _ Hst1)|]. intros [] s2 (Hst2 & Hf2 & _).
    apply runs_ret. split_and!; [done..|frames].
  - eapply runs_step; [apply (bread_spec _ _ _ _ sec Hst Hr); [void|by right]|].
    intros i s1 (Hst1 & Hf1 & _). eapply held_getb; [exact Hst1|left|]. intros b _ _ Hb.
    bcall bset_spec as (Hst2 & Hf2 & _). bcall bwrite_spec as (Hst3 & Hf3 & _).
    eapply runs_step; [apply (brelse_spec _ _ _ _ _ _ _ Hst3); by rewrite upd_eq|].
    intros [] s4 (Hst4 & Hf4 & _). apply runs_ret. split_and!; [done| |frames].
    by rewrite subseteq_empty_difference_L in Hst4 by apply empty_subseteq.
Qed.

(** C3. The buffer cache over any driver that keeps its contract refines a map from
    block numbers to contents: every sequence of block reads and synchronous writes
    returns exactly what the map returns, and ends with the disk equal to the map,
    whatever was cached or recycled on the way. *)
Theorem cache_refines_map s V ops :
  bstore s V ∅ [] -> Forall (op_ok (d_size (k_disk s))) ops ->
  runs (run_ops ops) s (fun xs s' =>
    xs = (spec_ops V ops).1 /\ bstore s' (spec_ops V ops).2 ∅ [] /\
    forall sec, 0 <= sec < d_size (k_disk s) -> dblk (k_disk s') sec = (spec_ops V ops).2 sec).
Proof.
  revert s V. induction ops as [|op ops IH]; intros s V Hst Hops; simpl.
  - apply runs_ret. split_and!; [done..|]. intros sec Hs. eapply bstore_disk; [done..|void].
  - apply Forall_cons in Hops as [Hop Hops].
    eapply runs_step; [by apply run_op_spec|]. intros x s1 (-> & Hst1 & Hf1).
    rewrite <- (bframe_dsize _ _ Hf1) in *.
    eapply runs_step; [by apply IH|]. intros xs s2 (-> & Hst2 & Hd2).
    apply runs_ret. destruct (spec_ops _ ops) as [ys V']. by split_and!.
Qed.
End client.

Definition demo_ops : list block_op :=
  [GetBlock 1; PutBlock 2 (replicate 512 5); GetBlock 2; GetBlock 3].

Lemma cache_refines_map_witness :
  exists s', run_ops (drv := memide) demo_ops tiny
    = Ret [tiny_sb; zero_block; replicate 512 5; zero_block] s'.
Proof.
  destruct (cache_refines_map (drv := memide) tiny (dblk tiny_disk) demo_ops)
    as (xs & s' & Hrun & Hxs & _).
  - apply (booted_store tiny); [done|by apply bio_unlocked_nil|]. intros sec _. apply tiny_len.
  - unfold demo_ops. repeat (apply Forall_cons; split; [split; [simpl; lia|by vm_compute]|]).
    constructor.
  - exists s'. rewrite Hrun, Hxs. reflexivity.
Defined.

(** ** Replacement *)

(** The state in which [bget] goes to sleep for buffer [i]. *)
Definition waiting_for (i p : nat) (s : kstate) : kstate :=
  set_held [LPtable] (set_procs (alter (asleep (ChBuf i)) p (k_procs s)) s).

(** What [bget] does with the cache in the order [l], most recently used first. *)
Definition bget_spec (l : list nat) (p : nat) (dev sector : Z) (s : kstate) : outcome kstate nat :=
  match find (matches (cells (k_bufs s)) dev sector) l with
  | Some i =>
      match k_bufs s !! i with
      | Some b =>
          if busy b then Sched (waiting_for i p s)
          else Ret i (set_bufs (<[i := bset_flags (set_flag (b_flags b) B_BUSY) b]> (k_bufs s)) s)
      | None => Fault s
      end
  | None =>
      match find (evictable (cells (k_bufs s))) (rev l) with
      | Some i =>
          match k_bufs s !! i with
          | Some b => Ret i (set_bufs (<[i := recycle dev sector b]> (k_bufs s)) s)
          | None => Fault s
          end
      | None => Panic "bget: no buffers" (set_held [LBcache] s)
      end
  end.

(** C4. [bget] on every branch. A cached sector: its buffer, marked busy, or, if it is
    busy, the process sleeps on it. Otherwise the buffer recycled is the least
    recently used one that is neither busy nor dirty, and without one [bget]
    panics. *)
Theorem bget_lru s l p pr dev sector :
  ring (k_bufs s) l -> k_held s = [] -> k_cur s = Some p -> k_procs s !! p = Some pr ->
  bget dev sector s = bget_spec l p dev sector s.
Proof.
  intros Hr Hh Hcur Hp. assert (LBcache ∉ k_held s) as Hlk by (rewrite Hh; void).
  unfold bget_spec.
  destruct (find (matches _ dev sector) l) as [i|] eqn:Ef.
  - pose proof Ef as [Hin _]%find_some.
    destruct (ring_is_Some _ _ i Hr) as [b Hb].
    { pose proof (ring_lt _ _ _ Hr (proj2 (list_elem_of_In _ _) Hin)). lia. }
    rewrite Hb. destruct (busy b) eqn:Eb; [|by eapply bget_hit].
    rewrite (bget_busy s l dev sector i b p pr) by done.
    unfold waiting_for. by rewrite (alter_insert _ _ pr).
  - destruct (find (evictable _) (rev l)) as [i|] eqn:Ev.
    + pose proof Ev as [Hin%in_rev _]%find_some.
      destruct (ring_is_Some _ _ i Hr) as [b Hb].
      { pose proof (ring_lt _ _ _ Hr (proj2 (list_elem_of_In _ _) Hin)). lia. }
      rewrite Hb. by eapply bget_miss.
    + rewrite (bget_scan s l), Ef, Ev, Hh by done. done.
Qed.

Lemma bget_lru_witness :
  bget ROOTDEV 7 (set_cur (Some 0%nat) tiny)
  = bget_spec (rev (seq 0 NBUF)) 0 ROOTDEV 7 (set_cur (Some 0%nat) tiny).
Proof. by apply (bget_lru _ _ _ zero_proc); [apply booted_ring|..]. Defined.

(** [brelse] puts the buffer first in the order of use, with its contents, identity
    and dirtiness, not busy; the order of the others and what they hold stay; the
    processes that wait for the buffer are woken. *)
Theorem brelse_mru s l1 i l2 b :
  ring (k_bufs s) (l1 ++ i :: l2) -> k_bufs s !! i = Some b -> busy b = true ->
  LBcache ∉ k_held s -> LPtable ∉ k_held s ->
  runs (brelse i) s (fun _ s' =>
    ring (k_bufs s') (i :: l1 ++ l2) /\
    cells (k_bufs s') = <[i := Cell false (valid b) (dirty b) (b_dev b) (b_sector b) (b_data b)]>
                          (cells (k_bufs s)) /\
    s' = set_bufs (k_bufs s') (set_procs (map (wake (ChBuf i)) (k_procs s)) s)).
Proof.
  intros Hr Hb Hbusy H1 H2. eapply runs_brelse; [done..|]. intros bs Hbs Hcs. done.
Qed.

(** The small state with buffer 0, the least recently used, in use. *)
Definition busy_buf : buf := Buf B_BUSY (u32 (-1)) 0 1 HEAD None zero_block.
Definition tiny_busy : kstate := set_bufs (<[0%nat := busy_buf]> booted_bufs) tiny.

Lemma brelse_mru_witness :
  exists s', brelse 0 tiny_busy = Ret tt s' /\ ring (k_bufs s') (0%nat :: rev (seq 1 9)).
Proof.
  destruct (brelse_mru tiny_busy (rev (seq 1 9)) 0 [] busy_buf) as ([] & s' & Hrun & Hring & _).
  - eapply ring_same; [apply booted_ring|done..].
  - done.
  - done.
  - simpl. void.
  - simpl. void.
  - exists s'. by rewrite app_nil_r in Hring.
Defined.

(** ** The memory disk *)

(** kernel/memide.c's [iderw] on every branch: it panics for a buffer that is not
    busy, that needs no transfer, that is not of disk 1, or whose sector is out of range;
    otherwise it writes the disk if the buffer is dirty, reads it if not, and leaves the
    buffer valid and clean, and nothing else changed. *)
Theorem memide_iderw_cases s i b :
  k_bufs s !! i = Some b -> 0 <= b_sector b ->
  let d := k_disk s in
  if negb (busy b) then memide_iderw i s = Panic "iderw: buf not busy" s
  else if valid b && negb (dirty b) then memide_iderw i s = Panic "iderw: nothing to do" s
  else if negb (b_dev b =? 1) then memide_iderw i s = Panic "iderw: request not for disk 1" s
  else if d_size d <=? b_sector b then memide_iderw i s = Panic "iderw: sector out of range" s
  else runs (memide_iderw i) s (fun _ s' => exists b' d',
         s' = set_disk d' (set_bufs (<[i := b']> (k_bufs s)) s) /\
         busy b' = true /\ valid b' = true /\ dirty b' = false /\
         b_dev b' = b_dev b /\ b_sector b' = b_sector b /\
         if dirty b then b_data b' = b_data b /\ d' = disk_write d (b_sector b) (b_data b)
         else b_data b' = dblk d (b_sector b) /\ d' = d).
Proof.
  intros Hb Hsec d.
  destruct (negb (busy b)) eqn:Ebusy; [by unfold memide_iderw, bind, getb, nth_or_fault; rewrite Hb, Ebusy|].
  destruct (valid b && negb (dirty b)) eqn:Ework;
    [by unfold memide_iderw, bind, getb, nth_or_fault; rewrite Hb, Ebusy, clean_flags, Ework|].
  destruct (negb (b_dev b =? 1)) eqn:Edev;
    [by unfold memide_iderw, bind, getb, nth_or_fault; rewrite Hb, Ebusy, clean_flags, Ework, Edev|].
  destruct (d_size d <=? b_sector b) eqn:Erange;
    [by unfold memide_iderw, bind, getb, nth_or_fault, gets;
        rewrite Hb, Ebusy, clean_flags, Ework, Edev; unfold d in Erange; rewrite Erange|].
  boolify. eapply runs_mono; [eapply memide_sync; try done|].
  - by destruct (valid b), (dirty b).
  - intros [] s' (b' & d' & -> & [H1 H2 H3 (H4 & H5 & _ & _) H6]). exists b', d'.
    split_and!; try done. congruence.
Qed.

Lemma memide_iderw_cases_witness :
  memide_iderw 0 tiny_busy = Panic "iderw: request not for disk 1" tiny_busy.
Proof. by apply (memide_iderw_cases tiny_busy 0 busy_buf). Defined.
