(* ===== verification/KString.v ===== *)
(** * kernel/string.c

    A byte array is a [list Z] and a pointer into it an index; an access outside the
    array gives [None]. The functions that write return the array they leave. *)

From S2P Require Import Prelude.

Definition load (m : list Z) (a : nat) : option Z := m !! a.
Definition store (m : list Z) (a : nat) (v : Z) : option (list Z) :=
  if decide (a < length m)%nat then Some (<[a := v]> m) else None.

(** ** memset: the [rep stosl] and [rep stosb] branches *)

Fixpoint stosb (m : list Z) (a : nat) (c : Z) (n : nat) : option (list Z) :=
  match n with
  | O => Some m
  | S n => m' ← store m a (u8 c); stosb m' (S a) c n
  end.

Fixpoint stosl (m : list Z) (a : nat) (w : Z) (n : nat) : option (list Z) :=
  match n with
  | O => Some m
  | S n => if decide (a + 4 <= length m)%nat then stosl (put32 m a w) (a + 4) w n else None
  end.

Definition memset (m : list Z) (dst : nat) (c : Z) (n : nat) : option (list Z) :=
  if (dst mod 4 =? 0)%nat && (n mod 4 =? 0)%nat then
    let c := Z.land c 255 in
    stosl m dst (Z.lor (Z.lor (Z.lor (Z.shiftl c 24) (Z.shiftl c 16)) (Z.shiftl c 8)) c) (n / 4)
  else stosb m dst c n.

(** ** memcmp, memmove *)

Fixpoint memcmp (m : list Z) (s1 s2 : nat) (n : nat) : option Z :=
  match n with
  | O => Some 0
  | S n =>
      x ← load m s1; y ← load m s2;
      if decide (x = y) then memcmp m (S s1) (S s2) n else Some (x - y)
  end.

(** [while(n-- > 0) *--d = *--s], with [d] and [s] one past the last byte. *)
Fixpoint copy_down (m : list Z) (d s : nat) (n : nat) : option (list Z) :=
  match n with
  | O => Some m
  | S n => x ← load m (s - 1); m' ← store m (d - 1) x; copy_down m' (d - 1) (s - 1) n
  end.

(** [while(n-- > 0) *d++ = *s++]. *)
Fixpoint copy_up (m : list Z) (d s : nat) (n : nat) : option (list Z) :=
  match n with
  | O => Some m
  | S n => x ← load m s; m' ← store m d x; copy_up m' (S d) (S s) n
  end.

Definition memmove (m : list Z) (dst src : nat) (n : nat) : option (list Z) :=
  if decide (src < dst)%nat then
    if decide (dst < src + n)%nat then copy_down m (dst + n) (src + n) n
    else copy_up m dst src n
  else copy_up m dst src n.

(** ** Strings. A string argument is the array from the pointer on. *)

Fixpoint strncmp (p q : list Z) (n : nat) : option Z :=
  match n with
  | O => Some 0
  | S n =>
      x ← head p; y ← head q;
      if negb (x =? 0) && (x =? y) then strncmp (tail p) (tail q) n
      else Some (u8 x - u8 y)
  end.

(** The two loops of [strncpy]: copy, then pad. *)
Fixpoint strncpy_pad (s : list Z) (a : nat) (n : nat) : option (list Z) :=
  match n with
  | O => Some s
  | S n => s' ← store s a 0; strncpy_pad s' (S a) n
  end.

Fixpoint strncpy_from (s : list Z) (a : nat) (t : list Z) (n : nat) : option (list Z) :=
  match n with
  | O => Some s
  | S n =>
      x ← head t; s' ← store s a x;
      if x =? 0 then strncpy_pad s' (S a) n else strncpy_from s' (S a) (tail t) n
  end.

Definition strncpy (s t : list Z) (n : nat) : option (list Z) := strncpy_from s 0 t n.

(** [safestrcpy]: [n] is the remaining count of [while(--n > 0 && ...)]. *)
Fixpoint safestrcpy_from (s : list Z) (a : nat) (t : list Z) (n : nat) : option (list Z) :=
  match n with
  | O => Some s
  | S O => store s a 0
  | S n =>
      x ← head t; s' ← store s a x;
      if x =? 0 then store s' (S a) 0 else safestrcpy_from s' (S a) (tail t) n
  end.

Definition safestrcpy (s t : list Z) (n : Z) : option (list Z) :=
  if n <=? 0 then Some s else safestrcpy_from s 0 t (Z.to_nat n).

(** [strlen]: the loop stops at the first NUL, or runs off the array. *)
Fixpoint strlen (s : list Z) : option nat :=
  match s with
  | [] => None
  | x :: s => if x =? 0 then Some O else S <$> strlen s
  end.

(** ** Lemmas on single stores *)

Lemma store_Some m a v : (a < length m)%nat -> store m a v = Some (<[a := v]> m).
Proof. intros. unfold store. by rewrite decide_True. Qed.

Lemma insert_splice (m : list Z) a v : (a < length m)%nat -> <[a := v]> m = splice m a [v].
Proof. intros. unfold splice. simpl. rewrite Nat.add_1_r. by apply insert_take_drop. Qed.

Lemma splice_app (m : list Z) a l1 l2 :
  (a + length l1 + length l2 <= length m)%nat ->
  splice (splice m a l1) (a + length l1) l2 = splice m a (l1 ++ l2).
Proof.
  intros Hlen. apply list_eq. intros i.
  assert (length (splice m a l1) = length m) as Hl by (rewrite length_splice; lia).
  destruct (decide (a + length l1 <= i < a + length l1 + length l2)%nat).
  - rewrite lookup_splice_in by lia. rewrite lookup_splice_in by (rewrite ?length_app; lia).
    rewrite lookup_app_r by lia. f_equal. lia.
  - rewrite lookup_splice_out by lia. destruct (decide (a <= i < a + length l1)%nat).
    + rewrite !lookup_splice_in by (rewrite ?length_app; lia). by rewrite lookup_app_l by lia.
    + by rewrite !lookup_splice_out by (rewrite ?length_app; lia).
Qed.

(** ** memset fills, by words or by bytes *)

Lemma stosb_eq m a c n :
  (a + n <= length m)%nat -> stosb m a c n = Some (splice m a (replicate n (u8 c))).
Proof.
  revert m a. induction n as [|n IH]; intros m a Hn; simpl.
  - unfold splice. simpl. by rewrite Nat.add_0_r, take_drop.
  - rewrite store_Some by lia. simpl. rewrite IH by (rewrite length_insert; lia).
    f_equal. rewrite insert_splice by lia.
    replace (S a) with (a + length [u8 c])%nat by (simpl; lia).
    rewrite splice_app by (simpl; rewrite length_replicate; lia). done.
Qed.

Lemma length_words w n : length (concat (replicate n (le32 w))) = (4 * n)%nat.
Proof. induction n as [|n IH]; [done|]. cbn [replicate concat]. rewrite length_app, IH. simpl. lia. Qed.

Lemma stosl_eq m a w n :
  (a + 4 * n <= length m)%nat -> stosl m a w n = Some (splice m a (concat (replicate n (le32 w)))).
Proof.
  revert m a. induction n as [|n IH]; intros m a Hn; cbn [stosl replicate].
  - unfold splice. simpl. by rewrite Nat.add_0_r, take_drop.
  - rewrite decide_True by lia. rewrite IH by (rewrite length_put32; lia). f_equal.
    unfold put32. replace (a + 4)%nat with (a + length (le32 w))%nat by (simpl; lia).
    rewrite splice_app by (rewrite length_words; simpl; lia). done.
Qed.

(** The four bytes of the word that [stosl] stores are the low byte of [c]. *)
Lemma fill_word c :
  0 <= c < 256 ->
  le32 (Z.lor (Z.lor (Z.lor (Z.shiftl c 24) (Z.shiftl c 16)) (Z.shiftl c 8)) c) = replicate 4 c.
Proof.
  intros Hc.
  assert (Forall (fun c => le32 (Z.lor (Z.lor (Z.lor (Z.shiftl c 24) (Z.shiftl c 16))
    (Z.shiftl c 8)) c) = replicate 4 c) (seqZ 0 256)) as Hall
    by (apply (bool_decide_unpack _); vm_compute; exact I).
  rewrite Forall_forall in Hall. apply Hall, elem_of_seqZ. lia.
Qed.

Lemma concat_replicate (c : Z) n : concat (replicate n (replicate 4 c)) = replicate (4 * n) c.
Proof.
  induction n as [|n IH]; [done|].
  change (concat (replicate (S n) (replicate 4 c)))
    with (replicate 4 c ++ concat (replicate n (replicate 4 c))).
  rewrite IH, <- replicate_add. f_equal. lia.
Qed.

(** [memset] fills the range with the low byte of [c], whether its alignment test
    takes the word branch or the byte branch, and touches nothing else. *)
Theorem memset_fills m dst c n :
  (dst + n <= length m)%nat -> memset m dst c n = Some (splice m dst (replicate n (u8 c))).
Proof.
  intros Hn. unfold memset. destruct (_ && _) eqn:E; [|by apply stosb_eq].
  apply andb_true_iff in E as [_ En%Nat.eqb_eq].
  pose proof (Nat.div_mod_eq n 4) as Hdiv. rewrite En in Hdiv.
  rewrite stosl_eq by lia. change 255 with (Z.ones 8). rewrite Z.land_ones by lia.
  change (c mod 2 ^ 8) with (u8 c).
  rewrite fill_word by (unfold u8; apply Z.mod_pos_bound; lia). rewrite concat_replicate.
  do 3 f_equal. lia.
Qed.

Lemma memset_fills_witness :
  memset (replicate 12 9) 4 (-2) 8 = Some (splice (replicate 12 9) 4 (replicate 8 254)).
Proof. apply (memset_fills (replicate 12 9) 4 (-2) 8). simpl. lia. Defined.

(** ** memmove *)

Lemma copy_up_eq m0 m d s n :
  length m = length m0 -> (d + n <= length m)%nat -> (s + n <= length m)%nat ->
  (s + n <= d \/ d <= s)%nat -> (forall i, (s <= i < s + n)%nat -> m !! i = m0 !! i) ->
  copy_up m d s n = Some (splice m d (take n (drop s m0))).
Proof.
  revert m d s. induction n as [|n IH]; intros m d s Hl Hd Hs Hov Hm; cbn [copy_up].
  - unfold splice. simpl. by rewrite Nat.add_0_r, take_drop.
  - destruct (lookup_lt_is_Some_2 m s ltac:(lia)) as [x Hx]. unfold load. rewrite Hx. simpl.
    rewrite store_Some by lia. simpl.
    rewrite IH; rewrite ?length_insert; try lia.
    + f_equal. rewrite (drop_S m0 x s) by (rewrite <- Hm by lia; done). simpl.
      rewrite insert_splice by lia. replace (S d) with (d + length [x])%nat by (simpl; lia).
      rewrite splice_app; [done|]. rewrite length_take, length_drop. simpl. lia.
    + intros i Hi. rewrite list_lookup_insert_ne by lia. apply Hm. lia.
Qed.

(** Copying down: the bytes at [d .. d + k) are still to be written. *)
Lemma copy_down_eq m0 m d s n :
  length m = length m0 -> (d + n <= length m)%nat -> (s + n <= length m)%nat -> (s < d)%nat ->
  (forall i, (s <= i < s + n)%nat -> m !! i = m0 !! i) ->
  copy_down m (d + n) (s + n) n = Some (splice m d (take n (drop s m0))).
Proof.
  revert m. induction n as [|n IH]; intros m Hl Hd Hs Hov Hm; cbn [copy_down].
  - unfold splice. simpl. by rewrite Nat.add_0_r, take_drop.
  - destruct (lookup_lt_is_Some_2 m0 (s + n) ltac:(lia)) as [x Hx].
    replace (s + S n - 1)%nat with (s + n)%nat by lia. replace (d + S n - 1)%nat with (d + n)%nat by lia.
    unfold load. rewrite Hm, Hx by lia. simpl. rewrite store_Some by lia. simpl.
    rewrite IH; rewrite ?length_insert; try lia.
    + f_equal. rewrite (take_S_r _ _ x) by (by rewrite lookup_drop).
      apply list_eq. intros i. assert (length (take n (drop s m0)) = n) as Ht
        by (rewrite length_take, length_drop; lia).
      destruct (decide (d <= i < d + n)%nat).
      * rewrite !lookup_splice_in by (rewrite ?length_insert, ?length_app; simpl; lia).
        by rewrite lookup_app_l by lia.
      * rewrite lookup_splice_out by (rewrite ?length_insert; lia).
        destruct (decide (i = d + n)%nat) as [->|].
        { rewrite list_lookup_insert_eq by lia.
          rewrite lookup_splice_in by (rewrite ?length_app; simpl; lia).
          rewrite lookup_app_r by lia. replace (d + n - d - length (take n (drop s m0)))%nat with 0%nat by lia.
          done. }
        rewrite list_lookup_insert_ne by lia.
        by rewrite lookup_splice_out by (rewrite ?length_app; simpl; lia).
    + intros i Hi. rewrite list_lookup_insert_ne by lia. apply Hm. lia.
Qed.

(** [memmove] copies correctly for overlapping ranges too: the destination gets
    the bytes the source had before the call, and nothing else changes. *)
Theorem memmove_overlap m dst src n :
  (dst + n <= length m)%nat -> (src + n <= length m)%nat ->
  memmove m dst src n = Some (splice m dst (take n (drop src m))).
Proof.
  intros Hd Hs. unfold memmove. repeat case_decide;
    (apply copy_down_eq || apply copy_up_eq); done || lia.
Qed.

Lemma memmove_overlap_witness :
  memmove [1; 2; 3; 4; 5] 1 0 4 = Some [1; 1; 2; 3; 4].
Proof. apply (memmove_overlap [1; 2; 3; 4; 5] 1 0 4); simpl; lia. Defined.

(** ** Strings *)

(** The string in at most [n] bytes of [p]: up to the first NUL. *)
Fixpoint cstr (n : nat) (p : list Z) : list Z :=
  match n, p with
  | S n, x :: p => if x =? 0 then [] else x :: cstr n p
  | _, _ => []
  end.

(** Reading at most [n] bytes of [p] as a string stays inside the array. *)
Definition bounded (n : nat) (p : list Z) : Prop := (n <= length p)%nat \/ 0 ∈ p.

Definition is_byte (x : Z) : Prop := 0 <= x < 256.

Lemma bounded_cons n x p : x <> 0 -> bounded (S n) (x :: p) -> bounded n p.
Proof.
  intros Hx [Hl|Hin]; [left; simpl in Hl; lia|right].
  apply elem_of_cons in Hin as [Heq|?]; [congruence|done].
Qed.

Lemma bounded_nil n : ~ bounded (S n) [].
Proof. intros [H|H]; [simpl in H; lia|by apply not_elem_of_nil in H]. Qed.

Lemma length_cstr n p : (length (cstr n p) <= n)%nat.
Proof.
  revert p. induction n as [|n IH]; intros [|x p]; simpl; try lia.
  destruct (x =? 0); simpl; [lia|]. specialize (IH p). lia.
Qed.

(** [strncmp] compares the strings. *)
Lemma strncmp_total p q n :
  bounded n p -> bounded n q -> is_Some (strncmp p q n).
Proof.
  revert p q. induction n as [|n IH]; intros p q Hp Hq; [done|].
  destruct p as [|x p]; [by apply bounded_nil in Hp|].
  destruct q as [|y q]; [by apply bounded_nil in Hq|].
  simpl. destruct (Z.eqb_spec x 0); simpl; [done|]. destruct (Z.eqb_spec x y) as [<-|]; [|done].
  apply IH; by eapply bounded_cons.
Qed.

Lemma strncmp_zero p q n :
  Forall is_byte p -> Forall is_byte q -> bounded n p -> bounded n q ->
  strncmp p q n = Some 0 <-> cstr n p = cstr n q.
Proof.
  revert p q. induction n as [|n IH]; intros p q Bp Bq Hp Hq; [done|].
  destruct p as [|x p]; [by apply bounded_nil in Hp|].
  destruct q as [|y q]; [by apply bounded_nil in Hq|].
  apply Forall_cons in Bp as [Bx Bp]. apply Forall_cons in Bq as [By Bq]. unfold is_byte in *.
  simpl. destruct (Z.eqb_spec x 0) as [->|Hx]; simpl.
  - destruct (Z.eqb_spec y 0) as [->|Hy]; [done|]. rewrite !u8_small by lia.
    split; [intros [= ?]; lia|done].
  - destruct (Z.eqb_spec x y) as [<-|Hxy].
    + destruct (Z.eqb_spec x 0); [done|]. rewrite IH by (done || by eapply bounded_cons).
      split; [by intros ->|by intros [= ->]].
    + rewrite !u8_small by lia. split; [intros [= ?]; lia|].
      destruct (Z.eqb_spec y 0); [done|]. intros [= ? _]. lia.
Qed.

Lemma strncpy_pad_eq s a n :
  (a + n <= length s)%nat -> strncpy_pad s a n = Some (splice s a (replicate n 0)).
Proof.
  revert s a. induction n as [|n IH]; intros s a Hn; simpl.
  - unfold splice. simpl. by rewrite Nat.add_0_r, take_drop.
  - rewrite store_Some by lia. simpl. rewrite IH by (rewrite length_insert; lia).
    f_equal. rewrite insert_splice by lia. replace (S a) with (a + length [0%Z])%nat by (simpl; lia).
    rewrite splice_app by (simpl; rewrite length_replicate; lia). done.
Qed.

(** [strncpy] writes the string and pads it with NULs to [n] bytes. *)
Definition padded (n : nat) (t : list Z) : list Z :=
  cstr n t ++ replicate (n - length (cstr n t)) 0.

Lemma length_padded n t : length (padded n t) = n.
Proof. unfold padded. pose proof (length_cstr n t). rewrite length_app, length_replicate. lia. Qed.

Lemma strncpy_from_eq s a t n :
  (a + n <= length s)%nat -> bounded n t ->
  strncpy_from s a t n = Some (splice s a (padded n t)).
Proof.
  revert s a t. induction n as [|n IH]; intros s a t Hn Ht; cbn [strncpy_from].
  - unfold splice. simpl. by rewrite Nat.add_0_r, take_drop.
  - destruct t as [|x t]; [by apply bounded_nil in Ht|]. simpl.
    rewrite store_Some by lia. simpl. unfold padded. cbn [cstr].
    assert (<[a := x]> s = splice s a [x]) as -> by (apply insert_splice; lia).
    assert (length (splice s a [x]) = length s) as Hl by (apply length_splice; simpl; lia).
    destruct (Z.eqb_spec x 0) as [->|Hx].
    + rewrite strncpy_pad_eq by lia. f_equal. replace (S a) with (a + length [0%Z])%nat by (simpl; lia).
      rewrite splice_app by (simpl; rewrite length_replicate; lia). done.
    + rewrite IH by (lia || by eapply bounded_cons). f_equal.
      replace (S a) with (a + length [x])%nat by (simpl; lia).
      rewrite splice_app by (rewrite length_padded; simpl; lia). done.
Qed.

Lemma cstr_padded n t rest : cstr n (padded n t ++ rest) = cstr n t.
Proof.
  unfold padded. revert t. induction n as [|n IH]; intros t; [done|].
  destruct t as [|x t]; [done|]. simpl. destruct (Z.eqb_spec x 0); simpl; [done|].
  destruct (Z.eqb_spec x 0); [done|]. by rewrite IH.
Qed.

Lemma padded_bytes n t : Forall is_byte t -> Forall is_byte (padded n t).
Proof.
  intros Ht. unfold padded. apply Forall_app. split.
  - revert t Ht. induction n as [|n IH]; intros [|x t] Ht; simpl; try constructor.
    apply Forall_cons in Ht as [? ?]. destruct (x =? 0); constructor; auto.
  - apply Forall_replicate. unfold is_byte. lia.
Qed.

(** A name stored with [strncpy] is found with [strncmp], and only that name is:
    comparing the stored field with a name gives 0 exactly when the names are equal up to
    [n] bytes (the file system stores and compares names with [n] = 14, without a NUL for
    names of that length). *)
Theorem strncmp_strncpy s t t' n :
  (n <= length s)%nat -> Forall is_byte s -> Forall is_byte t -> Forall is_byte t' ->
  bounded n t -> bounded n t' ->
  exists s', strncpy s t n = Some s' /\ length s' = length s /\
    (strncmp t' s' n = Some 0 <-> cstr n t' = cstr n t).
Proof.
  intros Hn Bs Bt Bt' Ht Ht'. unfold strncpy. rewrite strncpy_from_eq by (simpl; lia || done).
  pose proof (length_padded n t) as Hp.
  eexists. split; [done|]. split; [apply length_splice; lia|].
  unfold splice. rewrite take_0, app_nil_l. rewrite strncmp_zero; try done.
  - by rewrite cstr_padded.
  - apply Forall_app. split; [by apply padded_bytes|by apply Forall_drop].
  - left. rewrite length_app. lia.
Qed.

Lemma strncmp_strncpy_witness :
  exists s', strncpy (replicate 4 7) [97; 98; 0] 3 = Some s' /\ length s' = 4%nat /\
    (strncmp [97; 98; 0] s' 3 = Some 0 <-> cstr 3 [97; 98; 0] = cstr 3 [97; 98; 0]).
Proof.
  apply (strncmp_strncpy (replicate 4 7) [97; 98; 0] [97; 98; 0] 3);
    try (simpl; lia); try (left; simpl; lia); repeat constructor; unfold is_byte; lia.
Defined.

Lemma strlen_app s rest : 0 ∉ s -> strlen (s ++ 0 :: rest) = Some (length s).
Proof.
  induction s as [|x s IH]; intros Hs; simpl; [done|].
  rewrite not_elem_of_cons in Hs. destruct Hs as [Hx Hs].
  destruct (Z.eqb_spec x 0); [congruence|]. by rewrite IH.
Qed.

Lemma cstr_no_nul n p : 0 ∉ cstr n p.
Proof.
  revert p. induction n as [|n IH]; intros [|x p]; simpl; try apply not_elem_of_nil.
  destruct (Z.eqb_spec x 0); [apply not_elem_of_nil|]. apply not_elem_of_cons. split; [done|apply IH].
Qed.

Lemma safestrcpy_step s a x t n :
  (a < length s)%nat ->
  safestrcpy_from s a (x :: t) (S (S n)) =
  if x =? 0 then store (<[a := x]> s) (S a) 0 else safestrcpy_from (<[a := x]> s) (S a) t (S n).
Proof.
  intros Ha. change (safestrcpy_from s a (x :: t) (S (S n))) with
    (s' ← store s a x; if x =? 0 then store s' (S a) 0 else safestrcpy_from s' (S a) t (S n)).
  by rewrite store_Some.
Qed.

Lemma safestrcpy_from_eq s a t n :
  (a + S n <= length s)%nat -> bounded n t ->
  exists rest, safestrcpy_from s a t (S n) = Some (take a s ++ cstr n t ++ 0 :: rest) /\
    length (take a s ++ cstr n t ++ 0 :: rest) = length s.
Proof.
  revert s a t. induction n as [|n IH]; intros s a t Hn Ht.
  - exists (drop (S a) s). simpl. rewrite store_Some, insert_take_drop by lia. split; [done|].
    rewrite length_app, length_take. simpl. rewrite length_drop. lia.
  - destruct t as [|x t]; [by apply bounded_nil in Ht|].
    rewrite safestrcpy_step by lia. cbn [cstr].
    destruct (Z.eqb_spec x 0) as [->|Hx].
    + rewrite store_Some by (rewrite length_insert; lia).
      exists (0 :: drop (S (S a)) s). simpl.
      rewrite insert_take_drop by (rewrite length_insert; lia).
      rewrite (take_S_r _ _ 0) by (apply list_lookup_insert_eq; lia).
      rewrite take_insert_ge, drop_insert_lt by lia. rewrite <- app_assoc. split; [done|].
      rewrite length_app, length_take. simpl. rewrite length_drop. lia.
    + destruct (IH (<[a := x]> s) (S a) t) as (rest & Hr & Hl).
      { rewrite length_insert. lia. }
      { by eapply bounded_cons. }
      exists rest. rewrite Hr. rewrite (take_S_r _ _ x) in Hl |- * by (apply list_lookup_insert_eq; lia).
      rewrite take_insert_ge in Hl |- * by lia. rewrite <- app_assoc in Hl |- *. simpl in Hl |- *.
      rewrite length_insert in Hl. done.
Qed.

(** [safestrcpy] always leaves a NUL-terminated string of the size it is told: the
    first [n - 1] bytes of the source's string. *)
Theorem safestrcpy_terminates s t n :
  0 < n -> (Z.to_nat n <= length s)%nat -> bounded (Z.to_nat n - 1) t ->
  exists s', safestrcpy s t n = Some s' /\ length s' = length s /\
    strlen s' = Some (length (cstr (Z.to_nat n - 1) t)) /\
    take (length (cstr (Z.to_nat n - 1) t)) s' = cstr (Z.to_nat n - 1) t.
Proof.
  intros Hn Hs Ht. unfold safestrcpy. destruct (Z.leb_spec n 0); [lia|].
  replace (Z.to_nat n) with (S (Z.to_nat n - 1)) in Hs |- * by lia. 
  replace (S (Z.to_nat n - 1) - 1)%nat with (Z.to_nat n - 1)%nat by lia.
  destruct (safestrcpy_from_eq s 0 t (Z.to_nat n - 1)) as (rest & Hr & Hl); [simpl; lia|done|].
  rewrite take_0, app_nil_l in Hr, Hl. eexists. split; [exact Hr|]. split_and!; [done| |].
  - apply strlen_app, cstr_no_nul.
  - apply take_app_length.
Qed.

Lemma safestrcpy_terminates_witness :
  exists s', safestrcpy (replicate 3 7) [97; 98; 99; 100; 0] 3 = Some s' /\ length s' = 3%nat /\
    strlen s' = Some 2%nat /\ take 2 s' = [97; 98].
Proof.
  apply (safestrcpy_terminates (replicate 3 7) [97; 98; 99; 100; 0] 3); simpl; [lia..|].
  left. simpl. lia.
Defined.
