(* ===== verification/TxSpec.v ===== *)
(** * The transaction interface the file system is verified against

    [txf F s V H]: the blocks read [V], the buffers [H] are held, and the open
    transaction, if there is one, has logged only blocks of the footprint [F], which fits the log
    and the buffer cache: at most seven blocks, so that two more buffers can be in use.
    The rules of [bread], [brelse] and [log_write] on it are all that the specifications
    of kernel/fs.c use. *)

From S2P Require Import Prelude Types Monad Sched Bio BioSpec Log LogSpec.

Definition txf (F : gset Z) (s : kstate) (V : Z -> list Z) (H : list hold) : Prop :=
  exists D, tx s V D H /\ list_to_set D ⊆ F /\ (size F <= 7)%nat /\
    Z.of_nat (size F) < l_size (k_log s) - 1.

Definition in_trans (s : kstate) : Prop := l_busy (k_log s) <> 0.

Lemma tframe_trans s s' : tframe s s' -> in_trans s -> in_trans s'.
Proof. intros Hf. unfold in_trans. by rewrite (tframe_busy _ _ Hf). Qed.

(** Blocks of the file system proper: before the log. *)
Definition home (s : kstate) (sec : Z) : Prop := 0 <= sec < l_start (k_log s).

Lemma tframe_home s s' sec : tframe s s' -> home s sec -> home s' sec.
Proof. intros Hf. unfold home. by rewrite (tframe_start _ _ Hf). Qed.

Section rules.
Context {drv : DiskDriver}.

Lemma txf_pinned (F : gset Z) (D : list Z) (H : list hold) :
  list_to_set D ⊆ F -> (size F <= 7)%nat -> (length H <= 2)%nat ->
  (size (pinned (list_to_set D) H) < NBUF)%nat.
Proof.
  intros HD HF HH. eapply Nat.le_lt_trans; [apply pinned_bound|].
  apply subseteq_size in HD. unfold NBUF. lia.
Qed.

Lemma txf_bread F s V H sec :
  txf F s V H -> home s sec -> (forall i d, (i, sec, d) ∉ H) -> (length H <= 2)%nat ->
  runs (bread ROOTDEV sec) s (fun i s' => txf F s' V ((i, sec, V sec) :: H) /\ tframe s s').
Proof.
  intros (D & Hx & HD & HF & HL) Hsec Hfree HH.
  eapply runs_mono; [apply (tx_bread _ _ _ _ _ Hx Hsec Hfree)|].
  { right. by eapply txf_pinned. }
  intros i s' (Hx' & Hf). split; [|done]. exists D. by rewrite (tframe_size _ _ Hf).
Qed.

Lemma txf_brelse F s V H i sec d :
  txf F s V ((i, sec, d) :: H) -> d = V sec ->
  runs (brelse i) s (fun _ s' => txf F s' V H /\ tframe s s').
Proof.
  intros (D & Hx & HD & HF & HL) Hd.
  eapply runs_mono; [by apply (tx_brelse _ _ _ _ _ _ _ Hx)|].
  intros [] s' (Hx' & Hf). split; [|done]. exists D. by rewrite (tframe_size _ _ Hf).
Qed.

Lemma txf_set F s V H i sec d f :
  txf F s V ((i, sec, d) :: H) -> length (f d) = 512%nat ->
  runs (updb i (fun b => bset_data (f (b_data b)) b)) s (fun _ s' =>
    txf F s' V ((i, sec, f d) :: H) /\ tframe s s').
Proof.
  intros (D & Hx & HD & HF & HL) Hd.
  eapply runs_mono; [by apply (tx_bset_fun _ _ _ _ _ _ _ f Hx)|].
  intros [] s' (Hx' & Hf). split; [|done]. exists D. by rewrite (tframe_size _ _ Hf).
Qed.

Lemma txf_getb {A} F s V H i sec d (f : buf -> K A) Q :
  txf F s V H -> (i, sec, d) ∈ H ->
  (forall b, b_dev b = ROOTDEV -> b_sector b = sec -> b_data b = d -> runs (f b) s Q) ->
  runs (bind (getb i) f) s Q.
Proof. intros (D & Hx & _). by eapply tx_getb. Qed.

Lemma txf_getb_runs F s V H i sec d :
  txf F s V H -> (i, sec, d) ∈ H ->
  runs (getb i) s (fun b s' => s' = s /\ b_dev b = ROOTDEV /\ b_sector b = sec /\ b_data b = d).
Proof.
  intros Hx Hin.
  destruct (txf_getb F s V H i sec d ret (fun b s' => s' = s /\ b_dev b = ROOTDEV /\
    b_sector b = sec /\ b_data b = d) Hx Hin) as (a & s' & Hm & HQ).
  - intros b H1 H2 H3. by apply runs_ret.
  - exists a, s'. split; [|done]. unfold bind in Hm. by destruct (getb i s).
Qed.

Lemma txf_log_write F s V H i sec d :
  txf F s V ((i, sec, d) :: H) -> in_trans s -> sec ∈ F -> (length H <= 1)%nat ->
  runs (log_write i) s (fun _ s' => txf F s' (upd V sec d) ((i, sec, d) :: H) /\ tframe s s').
Proof.
  intros (D & Hx & HD & HF & HL) Ht Hsec HH.
  assert (length D <= size F)%nat as HDF.
  { destruct Hx as [W Hx]. rewrite <- (tx_room _ _ _ _ _ Hx). by apply subseteq_size. }
  eapply runs_mono; [apply (tx_log_write _ _ _ _ _ _ _ Hx Ht)|]; [lia|lia| |].
  { eapply txf_pinned; [done..|]. simpl. lia. }
  intros [] s' (Hx' & Hf). split; [|done]. exists (log_add D sec).
  rewrite <- log_add_set, (tframe_size _ _ Hf). split_and!; [done| |done..]. set_solver.
Qed.

Lemma txf_len F s V H sec : txf F s V H -> home s sec -> length (V sec) = 512%nat.
Proof.
  intros (D & [W Hx] & _) Hsec. pose proof (tx_geom _ _ _ _ _ Hx) as [_ ? ? ? _ _].
  rewrite <- (tx_view _ _ _ _ _ Hx) by done. eapply bstore_vlen; [by eapply tx_store|].
  unfold home in Hsec. lia.
Qed.

Lemma txf_home_bound F s V H sec : txf F s V H -> home s sec -> 0 <= sec < 2147483648.
Proof.
  intros (D & [W Hx] & _) Hsec. pose proof (tx_geom _ _ _ _ _ Hx) as [_ ? ? ? ? _].
  unfold home in Hsec. lia.
Qed.

Lemma txf_start F s V H : txf F s V H -> 1 < l_start (k_log s).
Proof. intros (D & [W Hx] & _). apply (tx_geom _ _ _ _ _ Hx). Qed.

Lemma txf_ext F s V V' H :
  (forall x, home s x -> V x = V' x) -> txf F s V H -> txf F s V' H.
Proof.
  intros HV (D & [W Hx] & HD). exists D. split; [|done]. exists W.
  pose proof (tx_home _ _ _ _ _ Hx) as Hh.
  destruct Hx as [? ? ? ? ? ? ? Hv Hc ? ?]. split; try done.
  - intros x Hx. rewrite <- HV by done. by apply Hv.
  - intros k x Hk. rewrite <- HV; [by apply Hc|]. by eapply Hh, list_elem_of_lookup_2.
Qed.

Lemma idle_txf s V : idle s V -> 1 < l_size (k_log s) -> txf ∅ s V [].
Proof.
  intros [W [Hst Hg Hn Hb Hu Hv Hc]] Hsz. exists []. split; [|rewrite size_empty; split_and!; [done|lia..]].
  exists W. split; try done; try void.
  - constructor.
  - destruct Hg. split; [unfold NBUF; simpl; lia|simpl; lia].
Qed.

Lemma tx_txf F s V :
  tx s V [] [] -> (size F <= 7)%nat -> Z.of_nat (size F) < l_size (k_log s) - 1 -> txf F s V [].
Proof. intros Hx HF HL. exists []. split; [done|]. split; [apply empty_subseteq|done]. Qed.

(** ** The parts of the state that these operations keep *)

Lemma tframe_parts s s' :
  tframe s s' -> k_inodes s' = k_inodes s /\ k_held s' = k_held s /\ k_cur s' = k_cur s /\
    k_files s' = k_files s /\ k_pipes s' = k_pipes s /\ procs_woken (k_procs s) (k_procs s').
Proof. intros [(l & (bs & dk & ps & -> & Hp & _) & _) _]. done. Qed.

Lemma tframe_inodes s s' : tframe s s' -> k_inodes s' = k_inodes s.
Proof. by intros (? & _)%tframe_parts. Qed.
Lemma tframe_held s s' : tframe s s' -> k_held s' = k_held s.
Proof. by intros (_ & ? & _)%tframe_parts. Qed.
End rules.

(** [runs_step] with one of the rules, and the frame condition pushed to the facts about the
    earlier state. *)
Tactic Notation "tcall" uconstr(spec) "as" simple_intropattern(p) :=
  eapply runs_step; [eapply spec; eauto|intros ? ? p].
