(* ===== verification/Fs.v ===== *)
(** * The file system (kernel/fs.c)

    Blocks, inodes, directories and paths over the buffer cache and the log. An inode
    pointer is an index of [k_inodes]; a string is the list of its bytes before the NUL;
    what a function copies to its caller is part of its result. [devsw] (kernel/file.c,
    filled by kernel/console.c) is an argument of the two functions that call through it. *)

From S2P Require Import Prelude Types Monad Sched Bio KString Log.

(** ** On-disk format (include/fs.h) *)

Definition ROOTINO : Z := 1.
Definition NDIRECT : Z := 12.
Definition NINDIRECT : Z := 128.
Definition MAXFILE : Z := NDIRECT + NINDIRECT.
Definition IPB : Z := 8.
Definition BPB : Z := BSIZE * 8.
Definition DIRSIZ : nat := 14.
Definition IBLOCK (i : Z) : Z := i / IPB + 2.
Definition BBLOCK (b ninodes : Z) : Z := b / BPB + ninodes / IPB + 3.

(** [struct dinode] and its place in a block: 64 bytes, at [(inum % IPB) * 64]. *)
Record dinode := Dinode {
  di_type : Z; di_major : Z; di_minor : Z; di_nlink : Z; di_size : Z; di_addrs : list Z
}.

Definition dinode_off (inum : Z) : nat := Z.to_nat (inum mod IPB) * 64.

Definition get_dinode (d : list Z) (o : nat) : dinode :=
  Dinode (s16 (get16 d o)) (s16 (get16 d (o + 2))) (s16 (get16 d (o + 4)))
    (s16 (get16 d (o + 6))) (get32 d (o + 8))
    (map (fun k => get32 d (o + 12 + 4 * k)) (seq 0 13)).

Fixpoint put_words (d : list Z) (o : nat) (ws : list Z) : list Z :=
  match ws with
  | [] => d
  | w :: ws => put_words (put32 d o w) (o + 4) ws
  end.

Definition put_dinode (d : list Z) (o : nat) (x : dinode) : list Z :=
  let d := put16 d o (di_type x) in
  let d := put16 d (o + 2) (di_major x) in
  let d := put16 d (o + 4) (di_minor x) in
  let d := put16 d (o + 6) (di_nlink x) in
  let d := put32 d (o + 8) (di_size x) in
  put_words d (o + 12) (di_addrs x).

Definition dinode_of (i : inode) : dinode :=
  Dinode (i_type i) (i_major i) (i_minor i) (i_nlink i) (i_size i) (i_addrs i).
Definition load_dinode (x : dinode) (i : inode) : inode :=
  Inode (i_dev i) (i_inum i) (i_ref i) (i_flags i)
    (di_type x) (di_major x) (di_minor x) (di_nlink x) (di_size x) (di_addrs x).

(** Inode cache entries. *)
Definition geti (i : nat) : K inode := nth_or_fault k_inodes i.
Definition updi (i : nat) (f : inode -> inode) : K unit :=
  fun s => match k_inodes s !! i with
           | Some _ => Ret tt (set_inodes (alter f i (k_inodes s)) s)
           | None => Fault s
           end.
(** [ip->addrs[k]]. *)
Definition get_addr (i : inode) (k : nat) : K Z :=
  fun s => match i_addrs i !! k with Some a => Ret a s | None => Fault s end.
Definition set_addr (ip k : nat) (a : Z) : K unit :=
  updi ip (fun i => iset_addrs (<[k := a]> (i_addrs i)) i).

(** ** Blocks *)

(** Bit [bi] of a bitmap block: [bp->data[bi/8] & (1 << (bi % 8))]. *)
Definition bit_mask (bi : nat) : Z := Z.shiftl 1 (Z.of_nat (bi mod 8)).
Definition bit_set (d : list Z) (bi : nat) : bool :=
  negb (Z.land (byte_at d (bi / 8)) (bit_mask bi) =? 0).
Definition set_bit (d : list Z) (bi : nat) : list Z :=
  <[(bi / 8)%nat := Z.lor (byte_at d (bi / 8)) (bit_mask bi)]> d.
Definition clear_bit (d : list Z) (bi : nat) : list Z :=
  <[(bi / 8)%nat := Z.land (byte_at d (bi / 8)) (Z.lnot (bit_mask bi))]> d.

(** [balloc]'s inner loop: the first clear bit from [bi] on, within the block and the disk. *)
Fixpoint balloc_scan (n : nat) (d : list Z) (b size : Z) (bi : nat) : option nat :=
  match n with
  | O => None
  | S n =>
      if b + Z.of_nat bi <? size then
        if bit_set d bi then balloc_scan n d b size (S bi) else Some bi
      else None
  end.

Section fs.
Context {drv : DiskDriver}.

Definition bzero (dev bno : Z) : K unit :=
  bp <- bread (u32 dev) (u32 bno) ;;
  updb bp (bset_data (replicate 512 0)) ;;
  log_write bp ;;
  brelse bp.

Fixpoint balloc_loop (fuel : nat) (dev : Z) (sb : superblock) (b : Z) : K Z :=
  match fuel with
  | O => nofuel
  | S fuel =>
      if b <? sb_size sb then
        bp <- bread dev (u32 (BBLOCK b (sb_ninodes sb))) ;;
        bb <- getb bp ;;
        match balloc_scan (Z.to_nat BPB) (b_data bb) b (sb_size sb) 0 with
        | Some bi =>
            updb bp (fun x => bset_data (set_bit (b_data x) bi) x) ;;
            log_write bp ;;
            brelse bp ;;
            bzero (s32 dev) (b + Z.of_nat bi) ;;
            ret (b + Z.of_nat bi)
        | None =>
            brelse bp ;;
            balloc_loop fuel dev sb (b + BPB)
        end
      else panic "balloc: out of blocks"
  end.

(** One iteration per bitmap block, and the last test of the loop. *)
Definition balloc (dev : Z) : K Z :=
  sb <- readsb (s32 dev) ;;
  balloc_loop (S (S (Z.to_nat (sb_size sb / BPB)))) dev sb 0.

Definition bfree (dev b : Z) : K unit :=
  sb <- readsb dev ;;
  bp <- bread (u32 dev) (u32 (BBLOCK b (sb_ninodes sb))) ;;
  let bi := Z.to_nat (b mod BPB) in
  bb <- getb bp ;;
  if negb (bit_set (b_data bb) bi) then panic "freeing free block" else
  updb bp (fun x => bset_data (clear_bit (b_data x) bi) x) ;;
  log_write bp ;;
  brelse bp.

(** ** The inode cache *)

Definition iinit : K unit := initlock LIcache.

(** [iget]'s scan: the entry that matches, or the first free one. *)
Fixpoint iget_scan (l : list inode) (k : nat) (dev inum : Z) (empty : option nat)
    : option nat * option nat :=
  match l with
  | [] => (None, empty)
  | ip :: l =>
      if (0 <? i_ref ip) && (i_dev ip =? dev) && (i_inum ip =? inum) then (Some k, empty)
      else iget_scan l (S k) dev inum
             (match empty with
              | None => if i_ref ip =? 0 then Some k else None
              | Some e => Some e
              end)
  end.

Definition iget (dev inum : Z) : K nat :=
  acquire LIcache ;;
  r <- gets (fun s => iget_scan (k_inodes s) 0 dev inum None) ;;
  match r with
  | (Some k, _) =>
      updi k (fun ip => iset_ref (i_ref ip + 1) ip) ;;
      release LIcache ;;
      ret k
  | (None, None) => panic "iget: no inodes"
  | (None, Some k) =>
      updi k (iset_dev dev) ;;
      updi k (iset_inum inum) ;;
      updi k (iset_ref 1) ;;
      updi k (iset_flags 0) ;;
      release LIcache ;;
      ret k
  end.

Definition idup (ip : nat) : K nat :=
  acquire LIcache ;;
  updi ip (fun i => iset_ref (i_ref i + 1) i) ;;
  release LIcache ;;
  ret ip.

(** [ialloc]'s loop, from inode number [inum] on. *)
Fixpoint ialloc_loop (fuel : nat) (dev type : Z) (sb : superblock) (inum : Z) : K nat :=
  match fuel with
  | O => nofuel
  | S fuel =>
      if inum <? sb_ninodes sb then
        bp <- bread dev (u32 (IBLOCK inum)) ;;
        b <- getb bp ;;
        let o := dinode_off inum in
        if s16 (get16 (b_data b) o) =? 0 then
          updb bp (fun x => bset_data (splice (b_data x) o (replicate 64 0)) x) ;;
          updb bp (fun x => bset_data (put16 (b_data x) o type) x) ;;
          log_write bp ;;
          brelse bp ;;
          iget dev (u32 inum)
        else
          brelse bp ;;
          ialloc_loop fuel dev type sb (inum + 1)
      else panic "ialloc: no inodes"
  end.

Definition ialloc (dev type : Z) : K nat :=
  sb <- readsb (s32 dev) ;;
  ialloc_loop (S (Z.to_nat (sb_ninodes sb))) dev type sb 1.

Definition iupdate (ip : nat) : K unit :=
  i <- geti ip ;;
  bp <- bread (i_dev i) (u32 (IBLOCK (i_inum i))) ;;
  updb bp (fun x => bset_data (put_dinode (b_data x) (dinode_off (i_inum i)) (dinode_of i)) x) ;;
  log_write bp ;;
  brelse bp.

(** [while(ip->flags & I_BUSY) sleep(ip, &icache.lock)]. *)
Fixpoint wait_inode (fuel : nat) (ip : nat) : K unit :=
  match fuel with
  | O => nofuel
  | S fuel =>
      i <- geti ip ;;
      if has (i_flags i) I_BUSY then sleep (ChInode ip) LIcache ;; wait_inode fuel ip
      else ret tt
  end.

Definition ilock (ip : nat) : K unit :=
  i <- geti ip ;;
  if i_ref i <? 1 then panic "ilock" else
  acquire LIcache ;;
  wait_inode 2 ip ;;
  updi ip (fun i => iset_flags (set_flag (i_flags i) I_BUSY) i) ;;
  release LIcache ;;
  i <- geti ip ;;
  if negb (has (i_flags i) I_VALID) then
    bp <- bread (i_dev i) (u32 (IBLOCK (i_inum i))) ;;
    b <- getb bp ;;
    updi ip (load_dinode (get_dinode (b_data b) (dinode_off (i_inum i)))) ;;
    brelse bp ;;
    updi ip (fun i => iset_flags (set_flag (i_flags i) I_VALID) i) ;;
    i <- geti ip ;;
    if i_type i =? 0 then panic "ilock: no type" else ret tt
  else ret tt.

Definition iunlock (ip : nat) : K unit :=
  i <- geti ip ;;
  if negb (has (i_flags i) I_BUSY) || (i_ref i <? 1) then panic "iunlock" else
  acquire LIcache ;;
  updi ip (fun i => iset_flags (clr_flag (i_flags i) I_BUSY) i) ;;
  wakeup (ChInode ip) ;;
  release LIcache.

(** ** Inode content *)

(** [if((addr = ip->addrs[k]) == 0) ip->addrs[k] = addr = balloc(ip->dev)]. *)
Definition bmap_slot (ip k : nat) : K Z :=
  i <- geti ip ;;
  addr <- get_addr i k ;;
  if addr =? 0 then
    addr <- balloc (i_dev i) ;;
    set_addr ip k addr ;;
    ret addr
  else ret addr.

Definition bmap (ip : nat) (bn : Z) : K Z :=
  if bn <? NDIRECT then bmap_slot ip (Z.to_nat bn) else
  let bn := bn - NDIRECT in
  if bn <? NINDIRECT then
    addr <- bmap_slot ip (Z.to_nat NDIRECT) ;;
    i <- geti ip ;;
    bp <- bread (i_dev i) addr ;;
    b <- getb bp ;;
    let addr := get32 (b_data b) (4 * Z.to_nat bn) in
    addr <- (if addr =? 0 then
               addr <- balloc (i_dev i) ;;
               updb bp (fun x => bset_data (put32 (b_data x) (4 * Z.to_nat bn) addr) x) ;;
               log_write bp ;;
               ret addr
             else ret addr) ;;
    brelse bp ;;
    ret addr
  else panic "bmap: out of range".

Definition itrunc (ip : nat) : K unit :=
  foreach (fun k =>
      i <- geti ip ;;
      a <- get_addr i k ;;
      if negb (a =? 0) then
        bfree (s32 (i_dev i)) a ;;
        set_addr ip k 0
      else ret tt)
    (seq 0 (Z.to_nat NDIRECT)) ;;
  i <- geti ip ;;
  a <- get_addr i (Z.to_nat NDIRECT) ;;
  (if negb (a =? 0) then
     bp <- bread (i_dev i) a ;;
     foreach (fun j =>
         b <- getb bp ;;
         let aj := get32 (b_data b) (4 * j) in
         if negb (aj =? 0) then bfree (s32 (i_dev i)) aj else ret tt)
       (seq 0 (Z.to_nat NINDIRECT)) ;;
     brelse bp ;;
     bfree (s32 (i_dev i)) a ;;
     set_addr ip (Z.to_nat NDIRECT) 0
   else ret tt) ;;
  updi ip (iset_size 0) ;;
  iupdate ip.

Definition iput (ip : nat) : K unit :=
  acquire LIcache ;;
  i <- geti ip ;;
  (if (i_ref i =? 1) && has (i_flags i) I_VALID && (i_nlink i =? 0) then
     if has (i_flags i) I_BUSY then panic "iput busy" else
     updi ip (fun i => iset_flags (set_flag (i_flags i) I_BUSY) i) ;;
     release LIcache ;;
     itrunc ip ;;
     updi ip (iset_type 0) ;;
     iupdate ip ;;
     acquire LIcache ;;
     updi ip (iset_flags 0) ;;
     wakeup (ChInode ip)
   else ret tt) ;;
  updi ip (fun i => iset_ref (i_ref i - 1) i) ;;
  release LIcache.

Definition iunlockput (ip : nat) : K unit := iunlock ip ;; iput ip.

(** [stati]: what it stores in the caller's [struct stat] (dev, ino, type, nlink, size). *)
Definition stati (ip : nat) : K (Z * Z * Z * Z * Z) :=
  i <- geti ip ;;
  ret (i_dev i, i_inum i, i_type i, i_nlink i, i_size i).

(** [struct devsw] (include/file.h): the device's read and write functions, by major
    number. [read ip n] returns the count and the bytes it stored. *)
Record devsw := Devsw {
  dev_read : Z -> option (nat -> Z -> K (Z * list Z));
  dev_write : Z -> option (nat -> list Z -> Z -> K Z)
}.

(** The copy loop of [readi]: [tot] bytes are done, [acc] holds them. *)
Fixpoint readi_loop (fuel : nat) (ip : nat) (tot n off : Z) (acc : list Z) : K (list Z) :=
  match fuel with
  | O => nofuel
  | S fuel =>
      if tot <? n then
        a <- bmap ip (off / BSIZE) ;;
        i <- geti ip ;;
        bp <- bread (i_dev i) a ;;
        let m := Z.min (n - tot) (BSIZE - off mod BSIZE) in
        b <- getb bp ;;
        let bytes := take (Z.to_nat m) (drop (Z.to_nat (off mod BSIZE)) (b_data b)) in
        brelse bp ;;
        readi_loop fuel ip (tot + m) n (off + m) (acc ++ bytes)
      else ret acc
  end.

(** Iterations of the copy loops: one per block touched, and the last test. *)
Definition copy_fuel (n : Z) : nat := Z.to_nat (n / BSIZE + 3).

Definition readi (dv : devsw) (ip : nat) (off n : Z) : K (Z * list Z) :=
  i <- geti ip ;;
  if i_type i =? T_DEV then
    if (i_major i <? 0) || (NDEV <=? i_major i) then ret (-1, [])
    else match dev_read dv (i_major i) with
         | None => ret (-1, [])
         | Some read => read ip (s32 n)
         end
  else
  if (i_size i <? off) || (u32 (off + n) <? off) then ret (-1, []) else
  let n := if i_size i <? u32 (off + n) then i_size i - off else n in
  bytes <- readi_loop (copy_fuel n) ip 0 n off [] ;;
  ret (s32 n, bytes).

(** The copy loop of [writei]; it returns the final [off]. *)
Fixpoint writei_loop (fuel : nat) (ip : nat) (src : list Z) (tot n off : Z) : K Z :=
  match fuel with
  | O => nofuel
  | S fuel =>
      if tot <? n then
        a <- bmap ip (off / BSIZE) ;;
        i <- geti ip ;;
        bp <- bread (i_dev i) a ;;
        let m := Z.min (n - tot) (BSIZE - off mod BSIZE) in
        let bytes := take (Z.to_nat m) (drop (Z.to_nat tot) src) in
        updb bp (fun x => bset_data (splice (b_data x) (Z.to_nat (off mod BSIZE)) bytes) x) ;;
        log_write bp ;;
        brelse bp ;;
        writei_loop fuel ip src (tot + m) n (off + m)
      else ret off
  end.

Definition writei (dv : devsw) (ip : nat) (src : list Z) (off n : Z) : K Z :=
  i <- geti ip ;;
  if i_type i =? T_DEV then
    if (i_major i <? 0) || (NDEV <=? i_major i) then ret (-1)
    else match dev_write dv (i_major i) with
         | None => ret (-1)
         | Some write => write ip src (s32 n)
         end
  else
  if (i_size i <? off) || (u32 (off + n) <? off) then ret (-1) else
  if MAXFILE * BSIZE <? u32 (off + n) then ret (-1) else
  off <- writei_loop (copy_fuel n) ip src 0 n off ;;
  i <- geti ip ;;
  (if (0 <? n) && (i_size i <? off) then
     updi ip (iset_size off) ;;
     iupdate ip
   else ret tt) ;;
  ret (s32 n).
End fs.
