(* ===== verification/FsDir.v ===== *)
(** * Directories and path names (kernel/fs.c, the last two layers) *)

From S2P Require Import Prelude Types Monad Sched Bio KString Log Fs.

(** Accesses outside an array are faults. *)
Definition lift {S A} (o : option A) : M S A :=
  match o with Some x => ret x | None => fault end.

(** ** Directories *)

(** [struct dirent]: a 16-bit inode number and a 14-byte name. *)
Definition sizeof_dirent : Z := 16.
Definition de_inum (de : list Z) : Z := get16 de 0.
Definition de_name (de : list Z) : list Z := drop 2 de.

Definition namecmp (s t : list Z) : option Z := strncmp s t DIRSIZ.

Section dirs.
Context {drv : DiskDriver} (dv : devsw).

(** [dirlookup]'s loop from offset [off]: the entry's offset and inode number. *)
Fixpoint dirlookup_loop (fuel : nat) (dp : nat) (name : list Z) (off : Z)
    : K (option (Z * Z)) :=
  match fuel with
  | O => nofuel
  | S fuel =>
      d <- geti dp ;;
      if off <? i_size d then
        let* (r, de) := readi dv dp off sizeof_dirent in
        if negb (r =? sizeof_dirent) then panic "dirlink read" else
        if de_inum de =? 0 then dirlookup_loop fuel dp name (off + sizeof_dirent) else
        c <- lift (namecmp name (de_name de)) ;;
        if c =? 0 then ret (Some (off, de_inum de))
        else dirlookup_loop fuel dp name (off + sizeof_dirent)
      else ret None
  end.

Definition dir_fuel (size : Z) : nat := Z.to_nat (size / sizeof_dirent + 2).

(** The inode of the entry, if there is one, and the offset stored in [*poff]. *)
Definition dirlookup (dp : nat) (name : list Z) : K (option (nat * Z)) :=
  d <- geti dp ;;
  if negb (i_type d =? T_DIR) then panic "dirlookup not DIR" else
  o <- dirlookup_loop (dir_fuel (i_size d)) dp name 0 ;;
  match o with
  | Some (off, inum) => ip <- iget (i_dev d) inum ;; ret (Some (ip, off))
  | None => ret None
  end.

(** [dirlink]'s loop: the offset of the first empty entry, or the end. *)
Fixpoint dirlink_loop (fuel : nat) (dp : nat) (off : Z) : K Z :=
  match fuel with
  | O => nofuel
  | S fuel =>
      d <- geti dp ;;
      if off <? i_size d then
        let* (r, de) := readi dv dp off sizeof_dirent in
        if negb (r =? sizeof_dirent) then panic "dirlink read" else
        if de_inum de =? 0 then ret off
        else dirlink_loop fuel dp (off + sizeof_dirent)
      else ret off
  end.

(** The entry [dirlink] writes: [strncpy] into the name field, then the number. [junk] is what
    the local [struct dirent] holds before. *)
Definition make_dirent (junk name : list Z) (inum : Z) : option (list Z) :=
  n ← strncpy (de_name junk) name DIRSIZ;
  Some (le16 (u16 inum) ++ n).

Definition dirlink (dp : nat) (name : list Z) (inum : Z) : K Z :=
  o <- dirlookup dp name ;;
  match o with
  | Some (ip, _) => iput ip ;; ret (-1)
  | None =>
      d <- geti dp ;;
      off <- dirlink_loop (dir_fuel (i_size d)) dp 0 ;;
      de <- lift (make_dirent (replicate 16 0) name inum) ;;
      r <- writei dv dp de (u32 off) sizeof_dirent ;;
      if negb (r =? sizeof_dirent) then panic "dirlink" else
      ret 0
  end.

(** ** Paths *)

Definition SLASH : Z := 47.

Fixpoint skip_slashes (path : list Z) : list Z :=
  match path with
  | x :: rest => if x =? SLASH then skip_slashes rest else path
  | [] => []
  end.

(** [while( *path != '/' && *path != 0) path++]: how far it goes. *)
Fixpoint elem_len (path : list Z) : nat :=
  match path with
  | x :: rest => if (x =? SLASH) || (x =? 0) then O else S (elem_len rest)
  | [] => O
  end.

(** The rest of the path and the name buffer, or [None] for "no name to remove". *)
Definition skipelem (path name : list Z) : option (list Z * list Z) :=
  let path := skip_slashes path in
  if byte_at path 0 =? 0 then None else
  let len := elem_len path in
  let name :=
    if (DIRSIZ <=? len)%nat then splice name 0 (take DIRSIZ path)
    else splice name 0 (take len path ++ [0]) in
  Some (skip_slashes (drop len path), name).

Fixpoint namex_loop (fuel : nat) (ip : nat) (path : list Z) (nameiparent : bool) (name : list Z)
    : K (option nat * list Z) :=
  match fuel with
  | O => nofuel
  | S fuel =>
      match skipelem path name with
      | None =>
          if nameiparent then iput ip ;; ret (None, name)
          else ret (Some ip, name)
      | Some (path, name) =>
          ilock ip ;;
          i <- geti ip ;;
          if negb (i_type i =? T_DIR) then iunlockput ip ;; ret (None, name) else
          if nameiparent && (byte_at path 0 =? 0) then iunlock ip ;; ret (Some ip, name) else
          o <- dirlookup ip name ;;
          match o with
          | None => iunlockput ip ;; ret (None, name)
          | Some (next, _) =>
              iunlockput ip ;;
              namex_loop fuel next path nameiparent name
          end
      end
  end.

(** [proc->cwd]. *)
Definition cwd : K nat :=
  p <- cur_proc ;;
  pr <- nth_or_fault k_procs p ;;
  match p_cwd pr with Some ip => ret ip | None => fault end.

Definition namex (path : list Z) (nameiparent : bool) (name : list Z) : K (option nat * list Z) :=
  ip <- (if byte_at path 0 =? SLASH then iget ROOTDEV ROOTINO
         else (c <- cwd ;; idup c)) ;;
  namex_loop (S (length path)) ip path nameiparent name.

Definition namei (path : list Z) : K (option nat) :=
  let* (r, _) := namex path false (replicate DIRSIZ 0) in
  ret r.

Definition nameiparent (path name : list Z) : K (option nat * list Z) :=
  namex path true name.
End dirs.
