(* ===== verification/FsBlocks.v ===== *)
(** * The block allocator of kernel/fs.c *)

From S2P Require Import Prelude Types Monad Sched Bio BioSpec Log LogSpec TxSpec Fs.

(** ** Bits of a bitmap block *)

Lemma bit_set_testbit d bi :
  bit_set d bi = Z.testbit (byte_at d (bi / 8)) (Z.of_nat (bi mod 8)).
Proof.
  unfold bit_set, bit_mask. rewrite Z.shiftl_1_l. apply has_testbit. lia.
Qed.

Lemma byte_at_insert d k v j :
  (k < length d)%nat -> byte_at (<[k := v]> d) j = if decide (j = k) then v else byte_at d j.
Proof.
  intros Hk. unfold byte_at. case_decide; subst.
  - by rewrite list_lookup_insert_eq.
  - by rewrite list_lookup_insert_ne.
Qed.

Lemma same_bit bi bj : (bi / 8 = bj / 8)%nat -> (bi mod 8 = bj mod 8)%nat -> bi = bj.
Proof. intros H1 H2. rewrite (Nat.div_mod_eq bi 8), (Nat.div_mod_eq bj 8). lia. Qed.

Lemma bit_set_set d bi bj :
  (bi / 8 < length d)%nat ->
  bit_set (set_bit d bi) bj = if decide (bj = bi) then true else bit_set d bj.
Proof.
  intros Hl. rewrite !bit_set_testbit. unfold set_bit. rewrite byte_at_insert by done.
  destruct (decide (bj / 8 = bi / 8)%nat) as [E|E].
  - unfold bit_mask. rewrite Z.shiftl_1_l, Z.lor_spec, Z.pow2_bits_eqb, E by lia.
    destruct (decide (bj = bi)) as [->|Hne]; [by rewrite Z.eqb_refl, orb_true_r|].
    destruct (Z.eqb_spec (Z.of_nat (bi mod 8)) (Z.of_nat (bj mod 8))) as [E2|E2]; [|by rewrite orb_false_r].
    exfalso. apply Hne, same_bit; lia.
  - rewrite decide_False; [done|]. by intros ->.
Qed.

Lemma bit_set_clear d bi bj :
  (bi / 8 < length d)%nat ->
  bit_set (clear_bit d bi) bj = if decide (bj = bi) then false else bit_set d bj.
Proof.
  intros Hl. rewrite !bit_set_testbit. unfold clear_bit. rewrite byte_at_insert by done.
  destruct (decide (bj / 8 = bi / 8)%nat) as [E|E].
  - unfold bit_mask. rewrite Z.shiftl_1_l, Z.land_spec, Z.lnot_spec, Z.pow2_bits_eqb, E by lia.
    destruct (decide (bj = bi)) as [->|Hne]; [by rewrite Z.eqb_refl, andb_false_r|].
    destruct (Z.eqb_spec (Z.of_nat (bi mod 8)) (Z.of_nat (bj mod 8))) as [E2|E2]; [|by rewrite andb_true_r].
    exfalso. apply Hne, same_bit; lia.
  - rewrite decide_False; [done|]. by intros ->.
Qed.

Lemma length_set_bit d bi : length (set_bit d bi) = length d.
Proof. apply length_insert. Qed.
Lemma length_clear_bit d bi : length (clear_bit d bi) = length d.
Proof. apply length_insert. Qed.

Lemma scan_found n d b size bi k :
  (bi <= k < bi + n)%nat -> b + Z.of_nat k < size -> bit_set d k = false ->
  (forall j, (bi <= j < k)%nat -> bit_set d j = true) ->
  balloc_scan n d b size bi = Some k.
Proof.
  revert bi. induction n as [|n IH]; intros bi Hk Hs Hc Hset; [lia|]. simpl.
  destruct (Z.ltb_spec (b + Z.of_nat bi) size); [|lia].
  destruct (decide (bi = k)) as [->|]; [by rewrite Hc|].
  rewrite Hset by lia. apply IH; [lia|done|done|]. intros j Hj. apply Hset. lia.
Qed.

Lemma scan_none n d b size bi :
  (forall j, (bi <= j < bi + n)%nat -> b + Z.of_nat j < size -> bit_set d j = true) ->
  balloc_scan n d b size bi = None.
Proof.
  revert bi. induction n as [|n IH]; intros bi Hset; [done|]. simpl.
  destruct (Z.ltb_spec (b + Z.of_nat bi) size); [|done].
  rewrite Hset by lia. apply IH. intros j Hj. apply Hset. lia.
Qed.

(** ** The free map as the blocks [V] hold it *)

Definition sb_of (V : Z -> list Z) : superblock := superblock_of (V 1).
Definition bitmap_block (V : Z -> list Z) (b : Z) : Z := BBLOCK b (sb_ninodes (sb_of V)).
Definition used (V : Z -> list Z) (b : Z) : bool :=
  bit_set (V (bitmap_block V b)) (Z.to_nat (b mod BPB)).

(** A well-formed superblock: the bitmap blocks lie between the superblock and the log. *)
Record fs_ok (s : kstate) (V : Z -> list Z) : Prop := {
  fs_size : 0 < sb_size (sb_of V) < 2147483648;
  fs_ninodes : 0 <= sb_ninodes (sb_of V);
  fs_bitmap : bitmap_block V (sb_size (sb_of V) - 1) < l_start (k_log s)
}.

Lemma bitmap_home s V b :
  fs_ok s V -> 0 <= b < sb_size (sb_of V) ->
  2 < bitmap_block V b < l_start (k_log s).
Proof.
  intros [Hs Hn Hb] Hr. unfold bitmap_block, BBLOCK, BPB, BSIZE, IPB in *.
  assert (b / (512 * 8) <= (sb_size (sb_of V) - 1) / (512 * 8)) by (apply Z.div_le_mono; lia).
  assert (0 <= b / (512 * 8)) by (apply Z.div_pos; lia).
  assert (0 <= sb_ninodes (sb_of V) / 8) by (apply Z.div_pos; lia). lia.
Qed.

Lemma tframe_fs_ok s s' V : tframe s s' -> fs_ok s V -> fs_ok s' V.
Proof. intros Hf []. by split; rewrite ?(tframe_start _ _ Hf). Qed.

Section blocks.
Context {drv : DiskDriver}.

Lemma readsb_txf F s V H :
  txf F s V H -> (forall i d, (i, 1, d) ∉ H) -> (length H <= 2)%nat ->
  runs (readsb ROOTDEV) s (fun sb s' => sb = sb_of V /\ txf F s' V H /\ tframe s s').
Proof.
  intros Hx Hh HH. pose proof (txf_start _ _ _ _ Hx). unfold readsb. rewrite u32_dev.
  tcall txf_bread as (Hx1 & Hf1).
  { unfold home. lia. }
  eapply txf_getb; [exact Hx1|left|]. intros b _ _ ->.
  tcall txf_brelse as (Hx2 & Hf2). apply runs_ret. split_and!; [done..|frames].
Qed.

(** [bread], change, [log_write], [brelse]: a block update inside a transaction. *)
Lemma update_txf {A} F s V H sec f (k : K A) Q :
  txf F s V H -> in_trans s -> home s sec -> sec ∈ F -> (forall i d, (i, sec, d) ∉ H) ->
  (length H <= 1)%nat -> length (f (V sec)) = 512%nat ->
  (forall s', txf F s' (upd V sec (f (V sec))) H -> tframe s s' -> runs k s' Q) ->
  runs (bp <- bread ROOTDEV sec ;;
        updb bp (fun x => bset_data (f (b_data x)) x) ;;
        log_write bp ;;
        brelse bp ;;
        k) s Q.
Proof.
  intros Hx Ht Hs HF Hh HH Hlen Hk.
  tcall txf_bread as (Hx1 & Hf1).
  eapply runs_step; [by apply (txf_set _ _ _ _ _ _ _ f Hx1)|]. intros [] s2 (Hx2 & Hf2).
  tcall txf_log_write as (Hx3 & Hf3).
  { by eapply tframe_trans, tframe_trans. }
  eapply runs_step; [apply (txf_brelse _ _ _ _ _ _ _ Hx3); by rewrite upd_eq|].
  intros [] s4 (Hx4 & Hf4). apply Hk; [done|]. frames.
Qed.

Lemma bzero_txf F s V H b :
  txf F s V H -> in_trans s -> home s b -> b ∈ F -> (forall i d, (i, b, d) ∉ H) ->
  (length H <= 1)%nat ->
  runs (bzero ROOTDEV b) s (fun _ s' => txf F s' (upd V b zero_block) H /\ tframe s s').
Proof.
  intros Hx Ht Hb HF Hh HH. pose proof (txf_home_bound _ _ _ _ _ Hx Hb).
  unfold bzero. rewrite u32_dev, u32_small by lia.
  tcall txf_bread as (Hx1 & Hf1).
  eapply runs_step; [by apply (txf_set _ _ _ _ _ _ _ (fun _ => zero_block) Hx1)|].
  intros [] s2 (Hx2 & Hf2). tcall txf_log_write as (Hx3 & Hf3).
  { by eapply tframe_trans, tframe_trans. }
  eapply runs_mono; [apply (txf_brelse _ _ _ _ _ _ _ Hx3); by rewrite upd_eq|].
  intros [] s4 (Hx4 & Hf4). split; [done|]. frames.
Qed.

(** [b] is the first free block. *)
Definition first_free (V : Z -> list Z) (b : Z) : Prop :=
  0 <= b < sb_size (sb_of V) /\ used V b = false /\ forall b', 0 <= b' < b -> used V b' = true.

(** The blocks after allocating [b]. *)
Definition allocated (V : Z -> list Z) (b : Z) : Z -> list Z :=
  upd (upd V (bitmap_block V b) (set_bit (V (bitmap_block V b)) (Z.to_nat (b mod BPB)))) b zero_block.

(** All bits below [b] in the bitmap block at [b0], or all of them, in terms of [used]. *)
Lemma used_in_block V b0 j :
  0 <= b0 -> b0 mod BPB = 0 -> 0 <= j < BPB ->
  used V (b0 + j) = bit_set (V (bitmap_block V b0)) (Z.to_nat j) /\
  bitmap_block V (b0 + j) = bitmap_block V b0.
Proof.
  intros H0 Hm Hj. unfold used, bitmap_block, BBLOCK.
  assert (0 < BPB) as Hp by done.
  assert ((b0 + j) / BPB = b0 / BPB) as ->.
  { rewrite (Z.div_mod b0 BPB) at 1 by lia. rewrite Hm, Z.add_0_r.
    rewrite (Z.mul_comm BPB), Z.div_add_l by lia. rewrite (Z.div_small j) by lia. lia. }
  split; [|done]. do 2 f_equal. rewrite Z.add_mod, Hm, Z.add_0_l, Z.mod_mod, Z.mod_small by lia.
  done.
Qed.

Lemma bpb_pos : 0 < BPB.
Proof. done. Qed.

Lemma bit_in_block V b :
  length (V (bitmap_block V b)) = 512%nat ->
  (Z.to_nat (b mod BPB) / 8 < length (V (bitmap_block V b)))%nat.
Proof.
  intros ->. pose proof (Z.mod_pos_bound b BPB bpb_pos) as Hm. unfold BPB, BSIZE in *.
  apply Nat.Div0.div_lt_upper_bound. lia.
Qed.

(** What [balloc] needs of its caller: the block and its bitmap block are in the
    footprint, and no bitmap block is in use. *)
Record balloc_pre (F : gset Z) (s : kstate) (V : Z -> list Z) (H : list hold) (b : Z) : Prop := {
  bp_trans : in_trans s;
  bp_fs : fs_ok s V;
  bp_home : home s b /\ b <> bitmap_block V b;
  bp_foot : b ∈ F /\ bitmap_block V b ∈ F;
  bp_free : (forall i d, (i, b, d) ∉ H) /\ (forall i d, (i, 1, d) ∉ H) /\
    forall i x d, 0 <= x < sb_size (sb_of V) -> (i, bitmap_block V x, d) ∉ H;
  bp_held : (length H <= 1)%nat
}.

Lemma balloc_pre_frame F s s' V H b :
  balloc_pre F s V H b -> tframe s s' -> balloc_pre F s' V H b.
Proof.
  intros [Ht Hfs [Hhome Hne] ? ? ?] Hf. split; try done.
  - by eapply tframe_trans.
  - by eapply tframe_fs_ok.
  - split; [by eapply tframe_home|done].
Qed.

(** Taking the block whose free bit was found in the held bitmap block [bp]. *)
Lemma balloc_take F s V H b bp bi :
  let bm := bitmap_block V b in
  balloc_pre F s V H b -> 0 <= b < sb_size (sb_of V) ->
  txf F s V ((bp, bm, V bm) :: H) -> bi = Z.to_nat (b mod BPB) ->
  runs (updb bp (fun x => bset_data (set_bit (b_data x) bi) x) ;;
        log_write bp ;;
        brelse bp ;;
        bzero (s32 ROOTDEV) b ;;
        ret b) s (fun r s' => r = b /\ txf F s' (allocated V b) H /\ tframe s s').
Proof.
  intros bm [Ht Hfs [Hhome Hne] [HbF HmF] (Hh1 & Hh2 & Hh3) HH] Hb Hx ->.
  pose proof (bitmap_home _ _ b Hfs Hb) as Hbm.
  assert (length (V bm) = 512%nat) as Hlen by (eapply txf_len; [exact Hx|unfold home, bm; lia]).
  eapply runs_step; [apply (txf_set _ _ _ _ _ _ _ (fun d => set_bit d (Z.to_nat (b mod BPB))) Hx)|].
  { by rewrite length_set_bit. }
  intros [] s2 (Hx2 & Hf2). tcall txf_log_write as (Hx3 & Hf3).
  { by eapply tframe_trans. }
  eapply runs_step; [apply (txf_brelse _ _ _ _ _ _ _ Hx3); by rewrite upd_eq|].
  intros [] s4 (Hx4 & Hf4). assert (tframe s s4) as Hf04 by frames.
  change (s32 ROOTDEV) with ROOTDEV.
  eapply runs_step; [apply (bzero_txf _ _ _ _ b Hx4)|]; [|by eapply tframe_home|done..|].
  { by eapply tframe_trans. }
  intros [] s5 (Hx5 & Hf5). apply runs_ret. split_and!; [done|done|frames].
Qed.

(** Reading the bitmap block of [b0]. *)
Lemma balloc_read {A} F s V H b b0 (f : buf -> nat -> K A) Q :
  balloc_pre F s V H b -> txf F s V H -> 0 <= b0 < sb_size (sb_of V) ->
  (forall bp bb s', b_data bb = V (bitmap_block V b0) ->
     txf F s' V ((bp, bitmap_block V b0, V (bitmap_block V b0)) :: H) -> tframe s s' ->
     runs (f bb bp) s' Q) ->
  runs (bp <- bread ROOTDEV (u32 (BBLOCK b0 (sb_ninodes (sb_of V)))) ;;
        bb <- getb bp ;;
        f bb bp) s Q.
Proof.
  intros [Ht Hfs _ _ (_ & _ & Hh3) HH] Hx H0 Hf.
  pose proof (bitmap_home _ _ b0 Hfs ltac:(lia)) as Hbm.
  pose proof (txf_home_bound _ _ _ _ (bitmap_block V b0) Hx ltac:(unfold home; lia)) as Hbnd.
  change (BBLOCK b0 (sb_ninodes (sb_of V))) with (bitmap_block V b0). rewrite u32_small by lia.
  eapply runs_step; [apply (txf_bread _ _ _ _ (bitmap_block V b0) Hx)|].
  { unfold home. lia. }
  { intros i d. apply Hh3. lia. }
  { lia. }
  intros bp s1 (Hx1 & Hf1). eapply txf_getb; [exact Hx1|left|]. intros bb _ _ Hbb. by apply Hf.
Qed.

Lemma balloc_loop_found F s V H b fuel b0 :
  balloc_pre F s V H b -> txf F s V H -> first_free V b ->
  0 <= b0 <= b -> b0 mod BPB = 0 -> (b - b0) / BPB < Z.of_nat fuel ->
  runs (balloc_loop fuel ROOTDEV (sb_of V) b0) s (fun r s' =>
    r = b /\ txf F s' (allocated V b) H /\ tframe s s').
Proof.
  intros Hpre Hx (Hb & Hfree & Hbelow). pose proof bpb_pos as Hpos. revert s b0 Hpre Hx.
  induction fuel as [|fuel IH]; intros s b0 Hpre Hx H0 Hm Hf.
  { pose proof (Z.div_pos (b - b0) BPB). lia. }
  cbn [balloc_loop]. apply runs_if_true; [lia|]. eapply balloc_read; [done|done|lia|].
  intros bp bb s1 -> Hx1 Hf1.
  destruct (decide (b < b0 + BPB)) as [Hin|Hout].
  - destruct (used_in_block V b0 (b - b0)) as [Hu Heq]; [lia..|].
    replace (b0 + (b - b0)) with b in Hu, Heq by lia.
    rewrite (scan_found _ _ _ _ 0 (Z.to_nat (b - b0))); [|lia|lia|by rewrite <- Hu|].
    2:{ intros j Hj. destruct (used_in_block V b0 (Z.of_nat j)) as [Hu' _]; [lia..|].
        rewrite Nat2Z.id in Hu'. rewrite <- Hu'. apply Hbelow. lia. }
    replace (b0 + Z.of_nat (Z.to_nat (b - b0))) with b by lia. rewrite <- Heq in Hx1.
    eapply runs_mono; [eapply balloc_take; [|done|exact Hx1|]|].
    + by eapply balloc_pre_frame.
    + f_equal. replace b with (b0 + (b - b0)) at 2 by lia.
      rewrite Z.add_mod, Hm, Z.add_0_l, Z.mod_mod, Z.mod_small by lia. done.
    + intros r s2 (-> & Hx2 & Hf2). split_and!; [done..|]. by etrans.
  - rewrite scan_none.
    2:{ intros j Hj _. destruct (used_in_block V b0 (Z.of_nat j)) as [Hu' _]; [lia..|].
        rewrite Nat2Z.id in Hu'. rewrite <- Hu'. apply Hbelow. lia. }
    tcall txf_brelse as (Hx2 & Hf2). assert (tframe s s') as Hf02 by (by etrans).
    eapply runs_mono; [apply (IH s' (b0 + BPB))|].
    + by eapply balloc_pre_frame.
    + done.
    + lia.
    + rewrite Z.add_mod, Hm, Z_mod_same_full, Z.mod_0_l by lia. done.
    + replace (b - b0) with (b - (b0 + BPB) + 1 * BPB) in Hf by lia.
      rewrite Z.div_add in Hf by lia. lia.
    + intros r s3 (-> & Hx3 & Hf3). split_and!; [done..|]. by etrans.
Qed.

Lemma balloc_txf F s V H b :
  balloc_pre F s V H b -> txf F s V H -> first_free V b ->
  runs (balloc ROOTDEV) s (fun r s' => r = b /\ txf F s' (allocated V b) H /\ tframe s s').
Proof.
  intros Hpre Hx Hfree. unfold balloc. change (s32 ROOTDEV) with ROOTDEV.
  eapply runs_step; [apply (readsb_txf _ _ _ _ Hx)|].
  { apply Hpre. }
  { pose proof (bp_held _ _ _ _ _ Hpre). lia. }
  intros sb s1 (-> & Hx1 & Hf1).
  pose proof Hfree as ([Hb0 Hb1] & _). pose proof bpb_pos.
  eapply runs_mono; [apply (balloc_loop_found F s1 V H b _ 0); [by eapply balloc_pre_frame|done..| | |]|].
  - lia.
  - done.
  - rewrite Z.sub_0_r. assert (b / BPB <= sb_size (sb_of V) / BPB) by (apply Z.div_le_mono; lia). lia.
  - intros r s2 (-> & Hx2 & Hf2). split_and!; [done..|]. frames.
Qed.

(** [balloc] with every block in use panics. *)
Lemma balloc_loop_full F s V fuel b0 :
  txf F s V [] -> fs_ok s V ->
  (forall x, 0 <= x < sb_size (sb_of V) -> used V x = true) ->
  0 <= b0 -> b0 mod BPB = 0 -> sb_size (sb_of V) <= b0 + BPB * (Z.of_nat fuel - 1) ->
  (0 < fuel)%nat ->
  panics (balloc_loop fuel ROOTDEV (sb_of V) b0) s "balloc: out of blocks".
Proof.
  intros Hx Hfs Hall. pose proof bpb_pos as Hpos. revert s b0 Hx Hfs.
  induction fuel as [|fuel IH]; intros s b0 Hx Hfs H0 Hm Hf Hpos'; [lia|]. cbn [balloc_loop].
  destruct (Z.ltb_spec b0 (sb_size (sb_of V))) as [Hlt|Hge]; [|apply panics_now].
  pose proof (bitmap_home _ _ b0 Hfs ltac:(lia)) as Hbm.
  pose proof (txf_home_bound _ _ _ _ (bitmap_block V b0) Hx ltac:(unfold home; lia)) as Hbnd.
  change (BBLOCK b0 (sb_ninodes (sb_of V))) with (bitmap_block V b0). rewrite u32_small by lia.
  eapply panics_step; [apply (txf_bread _ _ _ _ (bitmap_block V b0) Hx); [unfold home; lia|void|simpl; lia]|].
  intros bp s1 (Hx1 & Hf1).
  eapply panics_step; [eapply txf_getb_runs; [exact Hx1|left]|]. intros bb ? (-> & _ & _ & ->).
  rewrite scan_none.
  2:{ intros j Hj Hsz. destruct (used_in_block V b0 (Z.of_nat j)) as [Hu _]; [lia..|].
      rewrite Nat2Z.id in Hu. rewrite <- Hu. apply Hall. lia. }
  eapply panics_step; [by apply (txf_brelse _ _ _ _ _ _ _ Hx1)|]. intros [] s2 (Hx2 & Hf2).
  apply IH; [done|by eapply tframe_fs_ok, tframe_fs_ok|lia| | |].
  - rewrite Z.add_mod, Hm, Z_mod_same_full, Z.mod_0_l by lia. done.
  - lia.
  - destruct fuel; [lia|lia].
Qed.

(** ** bfree *)

Definition freed (V : Z -> list Z) (b : Z) : Z -> list Z :=
  upd V (bitmap_block V b) (clear_bit (V (bitmap_block V b)) (Z.to_nat (b mod BPB))).

Lemma bfree_txf F s V H b :
  balloc_pre F s V H b -> txf F s V H -> 0 <= b < sb_size (sb_of V) -> used V b = true ->
  runs (bfree ROOTDEV b) s (fun _ s' => txf F s' (freed V b) H /\ tframe s s').
Proof.
  intros Hpre Hx Hb Hu. unfold bfree.
  pose proof Hpre as [_ _ _ _ (_ & Hh1 & _) HH].
  eapply runs_step; [apply (readsb_txf _ _ _ _ Hx Hh1); lia|]. intros sb s1 (-> & Hx1 & Hf1).
  rewrite u32_dev. eapply balloc_read; [by eapply balloc_pre_frame|done|done|].
  intros bp bb s2 Hbb Hx2 Hf2. rewrite Hbb.
  unfold used in Hu. rewrite Hu. simpl negb. cbv iota.
  assert (balloc_pre F s2 V H b) as [Ht Hfs _ [_ HmF] _ _]
    by (eapply balloc_pre_frame; [exact Hpre|frames]).
  pose proof (bitmap_home _ _ b Hfs Hb) as Hbm.
  pose proof (txf_len _ _ _ _ (bitmap_block V b) Hx2 ltac:(unfold home; lia)) as Hlen.
  eapply runs_step; [apply (txf_set _ _ _ _ _ _ _ (fun d => clear_bit d _) Hx2)|].
  { by rewrite length_clear_bit. }
  intros [] s3 (Hx3 & Hf3). tcall txf_log_write as (Hx4 & Hf4).
  { by eapply tframe_trans. }
  eapply runs_mono; [apply (txf_brelse _ _ _ _ _ _ _ Hx4); by rewrite upd_eq|].
  intros [] s5 (Hx5 & Hf5). split; [done|]. frames.
Qed.

Lemma bfree_free F s V b :
  balloc_pre F s V [] b -> txf F s V [] -> 0 <= b < sb_size (sb_of V) -> used V b = false ->
  panics (bfree ROOTDEV b) s "freeing free block".
Proof.
  intros Hpre Hx Hb Hu. unfold bfree.
  eapply panics_step; [apply (readsb_txf _ _ _ _ Hx); [void|simpl; lia]|]. intros sb s1 (-> & Hx1 & Hf1).
  assert (balloc_pre F s1 V [] b) as [_ Hfs _ _ _ _] by by eapply balloc_pre_frame.
  pose proof (bitmap_home _ _ b Hfs Hb) as Hbm.
  pose proof (txf_home_bound _ _ _ _ (bitmap_block V b) Hx1 ltac:(unfold home; lia)) as Hbnd.
  change (BBLOCK b (sb_ninodes (sb_of V))) with (bitmap_block V b). rewrite u32_dev, u32_small by lia.
  eapply panics_step; [apply (txf_bread _ _ _ _ (bitmap_block V b) Hx1); [unfold home; lia|void|simpl; lia]|].
  intros bp s2 (Hx2 & Hf2).
  eapply panics_step; [eapply txf_getb_runs; [exact Hx2|left]|]. intros bb ? (-> & _ & _ & ->).
  unfold used in Hu. rewrite Hu. apply panics_now.
Qed.
End blocks.

(** ** The free map as an invariant *)

(** The first block after the bitmap. *)
Definition data_start (V : Z -> list Z) : Z := bitmap_block V (sb_size (sb_of V) - 1) + 1.

(** Blocks that hold file contents: after the bitmap, before the log. *)
Definition data_block (s : kstate) (V : Z -> list Z) (b : Z) : Prop :=
  data_start V <= b < l_start (k_log s).

(** The blocks before the data blocks are marked in use, and the log is where [initlog] puts it. Nothing marks the blocks
    of the log: mkfs does not. *)
Record free_map_ok (s : kstate) (V : Z -> list Z) : Prop := {
  fm_fs : fs_ok s V;
  fm_len : forall x, home s x -> length (V x) = 512%nat;
  fm_size : l_start (k_log s) <= sb_size (sb_of V);
  fm_meta : forall x, 0 <= x < data_start V -> used V x = true;
  fm_start : l_start (k_log s) = sb_size (sb_of V) - sb_nlog (sb_of V)
}.

Lemma data_block_ne s V b :
  fs_ok s V -> data_block s V b ->
  home s b /\ b <> 1 /\ forall x, 0 <= x < sb_size (sb_of V) -> b <> bitmap_block V x.
Proof.
  intros Hfs [H1 H2]. pose proof Hfs as [Hsz Hn _]. unfold data_start in H1.
  assert (forall x, 0 <= x < sb_size (sb_of V) ->
    bitmap_block V x <= bitmap_block V (sb_size (sb_of V) - 1)) as Hmono.
  { intros x Hx. unfold bitmap_block, BBLOCK.
    assert (x / BPB <= (sb_size (sb_of V) - 1) / BPB) by (apply Z.div_le_mono; [done|lia]). lia. }
  pose proof (bitmap_home _ _ (sb_size (sb_of V) - 1) Hfs ltac:(lia)).
  split_and!; [unfold home; lia|lia|]. intros x Hx. specialize (Hmono x Hx). lia.
Qed.

(** Inode blocks are not data blocks. *)
Lemma data_block_iblock s V b n :
  fs_ok s V -> data_block s V b -> 0 <= n < sb_ninodes (sb_of V) -> b <> IBLOCK n.
Proof.
  intros [Hsz Hni _] [H1 _] Hn. unfold data_start, bitmap_block, BBLOCK, IBLOCK, IPB in *.
  assert (n / 8 <= sb_ninodes (sb_of V) / 8) by (apply Z.div_le_mono; lia).
  assert (0 <= (sb_size (sb_of V) - 1) / BPB) by (apply Z.div_pos; [lia|done]). lia.
Qed.

Section free_map.
Context (s : kstate) (V : Z -> list Z) (b : Z) (Hfm : free_map_ok s V).
Context (Hb : 0 <= b < sb_size (sb_of V)).

Lemma bitmap_ne_1 x : 0 <= x < sb_size (sb_of V) -> bitmap_block V x <> 1.
Proof using Hfm. intros Hx. clear Hb. pose proof (bitmap_home _ _ _ (fm_fs _ _ Hfm) Hx). lia. Qed.

(** Blocks that share a bitmap block and a bit are the same. *)
Lemma bitmap_inj x :
  0 <= x < sb_size (sb_of V) -> bitmap_block V x = bitmap_block V b -> x mod BPB = b mod BPB -> x = b.
Proof using Hb.
  intros Hx Heq Hm. unfold bitmap_block, BBLOCK in Heq.
  rewrite (Z.div_mod x BPB), (Z.div_mod b BPB) by (pose proof bpb_pos; lia). rewrite Hm.
  f_equal. f_equal. lia.
Qed.

(** Setting or clearing the bit of [b] changes [used] at [b] only. *)
Lemma used_upd_bitmap (f : list Z -> nat -> list Z) v x :
  (forall bj, bit_set (f (V (bitmap_block V b)) (Z.to_nat (b mod BPB))) bj
     = if decide (bj = Z.to_nat (b mod BPB)) then v else bit_set (V (bitmap_block V b)) bj) ->
  0 <= x < sb_size (sb_of V) ->
  used (upd V (bitmap_block V b) (f (V (bitmap_block V b)) (Z.to_nat (b mod BPB)))) x
  = if decide (x = b) then v else used V x.
Proof using Hfm Hb.
  intros Hf Hx. set (V' := upd _ _ _).
  assert (V' 1 = V 1) as H1 by (apply upd_ne; by apply not_eq_sym, bitmap_ne_1).
  unfold used. assert (bitmap_block V' x = bitmap_block V x) as ->.
  { unfold bitmap_block, sb_of. by rewrite H1. }
  subst V'. destruct (decide (bitmap_block V x = bitmap_block V b)) as [E|E].
  - rewrite E, upd_eq, Hf. pose proof bpb_pos.
    pose proof (Z.mod_pos_bound x BPB). pose proof (Z.mod_pos_bound b BPB).
    destruct (decide (x = b)) as [->|Hne]; [by rewrite decide_True|].
    rewrite decide_False; [done|]. intros Heq. apply Hne, bitmap_inj; [done..|lia].
  - rewrite upd_ne by done. rewrite decide_False; [done|]. by intros ->.
Qed.
End free_map.

Lemma free_not_meta s V b :
  free_map_ok s V -> home s b -> used V b = false -> data_block s V b.
Proof.
  intros [_ _ _ Hm _] [Hb Hl] Hu. split; [|done].
  destruct (decide (data_start V <= b)); [done|]. rewrite Hm in Hu; [done|lia].
Qed.

(** Writing a block that is not part of the map leaves the map as it is. *)
Lemma used_upd_data V b d x :
  b <> 1 -> b <> bitmap_block V x ->
  used (upd V b d) x = used V x /\ bitmap_block (upd V b d) x = bitmap_block V x /\
  sb_of (upd V b d) = sb_of V.
Proof.
  intros H1 Hb. assert (sb_of (upd V b d) = sb_of V) as E by (unfold sb_of; by rewrite upd_ne by done).
  assert (bitmap_block (upd V b d) x = bitmap_block V x) as E2 by (unfold bitmap_block; by rewrite E).
  split_and!; try done. unfold used. rewrite E2. by rewrite upd_ne by done.
Qed.

Lemma sb_upd V b d : b <> 1 -> sb_of (upd V b d) = sb_of V.
Proof. intros H1. unfold sb_of. by rewrite upd_ne by done. Qed.

Lemma bitmap_upd V b d x : b <> 1 -> bitmap_block (upd V b d) x = bitmap_block V x.
Proof. intros H1. unfold bitmap_block. by rewrite sb_upd. Qed.

(** The marks of the metadata stay set when only marks of data blocks are cleared. *)
Lemma free_map_keep s s' V V' :
  free_map_ok s V -> l_start (k_log s') = l_start (k_log s) -> sb_of V' = sb_of V ->
  (forall x, home s x -> length (V' x) = 512%nat) ->
  (forall x, 0 <= x < sb_size (sb_of V) -> used V x = true ->
     used V' x = true \/ data_block s V x) ->
  free_map_ok s' V'.
Proof.
  intros [Hfs _ Hsz Hm Hlog] Hst Hsb Hlen Hu.
  assert (forall x, bitmap_block V' x = bitmap_block V x) as Eb
    by (intros x; unfold bitmap_block; by rewrite Hsb).
  assert (data_start V' = data_start V) as Ed by (unfold data_start; by rewrite Eb, Hsb).
  pose proof (fs_size _ _ Hfs).
  pose proof (bitmap_home _ _ (sb_size (sb_of V) - 1) Hfs ltac:(lia)) as H0.
  split.
  - destruct Hfs. split; rewrite ?Hsb, ?Eb, ?Hst; done.
  - intros x Hx. apply Hlen. unfold home in *. by rewrite <- Hst.
  - by rewrite Hsb, Hst.
  - intros x Hx. rewrite Ed in Hx. unfold data_start in Hx.
    destruct (Hu x) as [?|[? _]]; [lia|by apply Hm|done|]. unfold data_start in *. lia.
  - by rewrite Hsb, Hst.
Qed.

(** The buffers in use are not those of the free map. *)
Definition held_data (s : kstate) (V : Z -> list Z) (H : list hold) : Prop :=
  forall i sec d, (i, sec, d) ∈ H -> data_block s V sec.

Lemma held_data_free s V H :
  fs_ok s V -> held_data s V H -> (forall i d, (i, 1, d) ∉ H) /\
    forall i x d, 0 <= x < sb_size (sb_of V) -> (i, bitmap_block V x, d) ∉ H.
Proof.
  intros Hfs Hh. split.
  - intros i d Hin. by destruct (data_block_ne _ _ _ Hfs (Hh _ _ _ Hin)) as (_ & ? & _).
  - intros i x d Hx Hin. destruct (data_block_ne _ _ _ Hfs (Hh _ _ _ Hin)) as (_ & _ & Hne).
    by destruct (Hne x).
Qed.

Section alloc.
Context (s : kstate) (V : Z -> list Z) (Hfm : free_map_ok s V).

Lemma alloc_pre F H b :
  in_trans s -> held_data s V H -> (length H <= 1)%nat ->
  data_block s V b -> b ∈ F -> bitmap_block V b ∈ F ->
  (forall i d, (i, b, d) ∉ H) -> 0 <= b < sb_size (sb_of V) -> balloc_pre F s V H b.
Proof using Hfm.
  intros Ht Hheld HH Hd H2 H3 H4 Hb. pose proof (fm_fs _ _ Hfm) as Hfs.
  destruct (data_block_ne _ _ _ Hfs Hd) as (Hh & H1 & Hne).
  destruct (held_data_free _ _ _ Hfs Hheld). split; try done. split; [done|]. by apply Hne.
Qed.

Lemma bitmap_len b :
  0 <= b < sb_size (sb_of V) -> length (V (bitmap_block V b)) = 512%nat.
Proof using Hfm.
  intros Hb. apply (fm_len _ _ Hfm). pose proof (bitmap_home _ _ _ (fm_fs _ _ Hfm) Hb).
  unfold home. lia.
Qed.

(** The free map after [balloc]. *)
Lemma used_allocated b x :
  0 <= b < sb_size (sb_of V) -> data_block s V b -> 0 <= x < sb_size (sb_of V) ->
  used (allocated V b) x = if decide (x = b) then true else used V x.
Proof using Hfm.
  intros Hb Hd Hr. unfold allocated.
  destruct (data_block_ne _ _ _ (fm_fs _ _ Hfm) Hd) as (Hh & H1 & Hne).
  assert (bitmap_block V b <> 1) as Hb1 by by eapply bitmap_ne_1.
  destruct (used_upd_data (upd V (bitmap_block V b) (set_bit (V (bitmap_block V b)) (Z.to_nat (b mod BPB))))
    b zero_block x) as [-> _]; [done| |].
  { rewrite bitmap_upd by done. by apply Hne. }
  eapply (used_upd_bitmap s V b); [done..| |done].
  intros bj. by apply bit_set_set, bit_in_block, bitmap_len.
Qed.

Lemma used_freed b x :
  0 <= b < sb_size (sb_of V) -> 0 <= x < sb_size (sb_of V) ->
  used (freed V b) x = if decide (x = b) then false else used V x.
Proof using Hfm.
  intros Hb Hr. unfold freed. eapply (used_upd_bitmap s V b); [done..| |done].
  intros bj. by apply bit_set_clear, bit_in_block, bitmap_len.
Qed.

Lemma sb_allocated b : 0 <= b < sb_size (sb_of V) -> data_block s V b -> sb_of (allocated V b) = sb_of V.
Proof using Hfm.
  intros Hb Hd. unfold allocated. rewrite !sb_upd; [done|by eapply bitmap_ne_1|].
  by eapply data_block_ne; [apply Hfm|].
Qed.
Lemma sb_freed b : 0 <= b < sb_size (sb_of V) -> sb_of (freed V b) = sb_of V.
Proof using Hfm. intros Hb. unfold freed. rewrite sb_upd; [done|by eapply bitmap_ne_1]. Qed.

(** Lengths. *)
Lemma upd_len (W : Z -> list Z) a d :
  (forall x, home s x -> length (W x) = 512%nat) -> length d = 512%nat ->
  forall x, home s x -> length (upd W a d x) = 512%nat.
Proof. intros HW Hd x Hx. unfold upd. case_decide; [done|by apply HW]. Qed.

Lemma free_map_allocated s' b :
  l_start (k_log s') = l_start (k_log s) -> 0 <= b < sb_size (sb_of V) -> data_block s V b ->
  free_map_ok s' (allocated V b).
Proof using Hfm.
  intros Hst Hb Hd. eapply free_map_keep; [exact Hfm|done|by apply sb_allocated| |].
  - apply upd_len; [|done]. apply upd_len; [apply Hfm|]. by rewrite length_set_bit, bitmap_len.
  - intros x Hr Hu. left. rewrite used_allocated by done. by case_decide.
Qed.

Lemma free_map_freed s' b :
  l_start (k_log s') = l_start (k_log s) -> 0 <= b < sb_size (sb_of V) -> data_block s V b ->
  free_map_ok s' (freed V b).
Proof using Hfm.
  intros Hst Hb Hd. eapply free_map_keep; [exact Hfm|done|by apply sb_freed| |].
  - apply upd_len; [apply Hfm|]. by rewrite length_clear_bit, bitmap_len.
  - intros x Hr Hu. rewrite used_freed by done. case_decide; [right; by subst|by left].
Qed.
End alloc.
