(* ===== verification/Demo.v ===== *)
(** * A small file system for the witnesses

    Thirty blocks: superblock 1, inodes in block 2, bitmap in block 4, the root directory's
    entries in block 5, the file "a" with the bytes "hello" in block 6, log from block 20. *)

From S2P Require Import Prelude Types Monad Sched Bio BioSpec Log LogSpec Crash TxSpec Fs.

Definition demo_sb : list Z :=
  put32 (put32 (put32 (put32 zero_block 0 30) 4 15) 8 8) 12 10.
Definition demo_addrs (a : Z) : list Z := a :: replicate 12 0.
Definition demo_root : dinode := Dinode T_DIR 0 0 1 48 (demo_addrs 5).
Definition demo_file : dinode := Dinode T_FILE 0 0 1 5 (demo_addrs 6).
Definition demo_inodes : list Z :=
  put_dinode (put_dinode zero_block (dinode_off 1) demo_root) (dinode_off 2) demo_file.
Definition demo_bitmap : list Z :=
  foldl set_bit zero_block ([0; 1; 2; 3; 4; 5; 6]%nat ++ seq 20 10).
Definition demo_dir : list Z :=
  splice zero_block 0
    ((le16 1 ++ [46] ++ replicate 13 0) ++ (le16 1 ++ [46; 46] ++ replicate 12 0) ++
     (le16 2 ++ [97] ++ replicate 13 0)).
Definition demo_text : list Z := splice zero_block 0 [104; 101; 108; 108; 111].

Definition demo_disk : disk :=
  Disk (<[1 := demo_sb]> (<[2 := demo_inodes]> (<[4 := demo_bitmap]>
         (<[5 := demo_dir]> (<[6 := demo_text]> ∅))))) 30 [].
Definition demo_V : Z -> list Z := dblk demo_disk.

Lemma demo_len sec : length (demo_V sec) = 512%nat.
Proof.
  unfold demo_V, dblk, demo_disk. cbn [d_blocks]. rewrite !lookup_insert, lookup_empty.
  by repeat case_decide.
Qed.

(** Idle, and inside a transaction. *)
Definition demo : kstate := booted demo_disk 20 10.
Definition demo_tx : kstate := set_log (lset_busy 1 (k_log demo)) demo.

Lemma demo_idle : idle demo demo_V.
Proof. apply booted_idle; simpl; try lia; [intros; apply demo_len|by vm_compute]. Qed.

Lemma demo_trans : in_trans demo_tx.
Proof. done. Qed.

Lemma demo_txf F :
  (size F <= 7)%nat -> txf F demo_tx demo_V [].
Proof.
  intros HF. apply tx_txf; [|done|simpl; lia].
  destruct demo_idle as [W Hid]. destruct (begin_trans_inv _ _ _ Hid) as ([] & s' & Hrun & Hx & _).
  rewrite begin_trans_eq in Hrun by apply Hid. injection Hrun as <-. by exists W.
Qed.
