(* ===== verification/FsBlocksProps.v ===== *)
(** * Properties of the block allocator of kernel/fs.c *)

From S2P Require Import Prelude Types Monad Sched Bio BioSpec Log LogSpec TxSpec Fs FsBlocks Demo.

Section props.
Context {drv : DiskDriver}.

(** The specification of [balloc], in the form the other components use. *)
Lemma balloc_alloc F s V H b :
  txf F s V H -> in_trans s -> free_map_ok s V -> held_data s V H -> (length H <= 1)%nat ->
  first_free V b -> home s b -> b ∈ F -> bitmap_block V b ∈ F -> (forall i d, (i, b, d) ∉ H) ->
  runs (balloc ROOTDEV) s (fun r s' =>
    r = b /\ txf F s' (allocated V b) H /\ tframe s s' /\ free_map_ok s' (allocated V b)).
Proof.
  intros Hx Ht Hfm Hheld HH Hff Hh HbF HmF Hnh. pose proof Hff as (Hb & Hu & _).
  pose proof (free_not_meta _ _ _ Hfm Hh Hu) as Hdata.
  eapply runs_mono; [apply (balloc_txf F s V H b); [by apply alloc_pre|done..]|].
  intros r s' (-> & Hx' & Hf). split_and!; [done..|].
  by apply (free_map_allocated s V); [|apply tframe_start|..].
Qed.

(** C11. [balloc] is first fit: it returns the first block whose bit is clear, sets that bit
    and no other, zeroes the block, and changes no other block; the marks of the superblock, the inodes and
    the bitmap stay set, so none of these is ever handed out. The block has to lie before the log: [balloc] looks
    at every block of the disk, and mkfs does not mark the log's (MkfsProps.v). *)
Theorem balloc_first_fit F s V H b :
  txf F s V H -> in_trans s -> free_map_ok s V -> held_data s V H -> (length H <= 1)%nat ->
  first_free V b -> home s b -> b ∈ F -> bitmap_block V b ∈ F -> (forall i d, (i, b, d) ∉ H) ->
  runs (balloc ROOTDEV) s (fun r s' => r = b /\ exists V',
    txf F s' V' H /\ free_map_ok s' V' /\ V' b = zero_block /\
    (forall x, 0 <= x < sb_size (sb_of V) -> used V' x = if decide (x = b) then true else used V x) /\
    (forall x, x <> b -> x <> bitmap_block V b -> V' x = V x)).
Proof.
  intros Hx Ht Hfm Hheld HH Hff Hh HbF HmF Hnh. pose proof Hff as (Hb & Hu & _).
  pose proof (free_not_meta _ _ _ Hfm Hh Hu) as Hdata.
  eapply runs_mono; [by apply (balloc_alloc F s V H b)|].
  intros r s' (-> & Hx' & Hf & Hfm'). split; [done|]. exists (allocated V b). split_and!; try done.
  - unfold allocated. by rewrite upd_eq.
  - intros x Hr. by apply (used_allocated s V).
  - intros x H1 H2. unfold allocated. by rewrite !upd_ne.
Qed.

(** [bfree] on both branches: a block in use is marked free, and no other block or mark
    changes; freeing a free block panics. *)
Theorem bfree_cases F s V b :
  txf F s V [] -> in_trans s -> free_map_ok s V -> 0 <= b < sb_size (sb_of V) ->
  data_block s V b -> b ∈ F -> bitmap_block V b ∈ F ->
  if used V b then
    runs (bfree ROOTDEV b) s (fun _ s' => exists V',
      txf F s' V' [] /\ free_map_ok s' V' /\
      (forall x, 0 <= x < sb_size (sb_of V) -> used V' x = if decide (x = b) then false else used V x) /\
      (forall x, x <> bitmap_block V b -> V' x = V x))
  else panics (bfree ROOTDEV b) s "freeing free block".
Proof.
  intros Hx Ht Hfm Hb Hdata HbF HmF.
  assert (balloc_pre F s V [] b) as Hpre by (apply (alloc_pre s V); simpl; try done; try lia; void).
  destruct (used V b) eqn:Hu; [|by eapply bfree_free].
  eapply runs_mono; [by apply (bfree_txf F s V [] b)|]. intros [] s' (Hx' & Hf).
  exists (freed V b). split_and!; [done| | |].
  - by apply (free_map_freed s V); [|apply tframe_start|..].
  - intros x Hr. by apply (used_freed s V).
  - intros x H1. unfold freed. by rewrite upd_ne.
Qed.

(** C13. Freeing what was just allocated restores the free map exactly, and the disk
    outside the block and its bitmap block. *)
Theorem balloc_bfree_roundtrip F s V b :
  txf F s V [] -> in_trans s -> free_map_ok s V -> first_free V b -> home s b -> b ∈ F -> bitmap_block V b ∈ F ->
  runs (r <- balloc ROOTDEV ;; bfree ROOTDEV r ;; ret r) s (fun r s' => r = b /\ exists V',
    txf F s' V' [] /\
    (forall x, 0 <= x < sb_size (sb_of V) -> used V' x = used V x) /\
    (forall x, x <> b -> x <> bitmap_block V b -> V' x = V x)).
Proof.
  intros Hx Ht Hfm Hff Hh HbF HmF. pose proof Hff as (Hb & Hu & _).
  pose proof (free_not_meta _ _ _ Hfm Hh Hu) as Hdata.
  eapply runs_step; [apply (balloc_alloc F s V [] b); try done; [void|simpl; lia|void]|].
  intros r s1 (-> & Hx1 & Hf1 & Hfm1).
  assert (sb_of (allocated V b) = sb_of V) as Hsb 
    by (by apply (sb_allocated s)).
  assert (bitmap_block (allocated V b) b = bitmap_block V b) as Hbm by (unfold bitmap_block; by rewrite Hsb).
  assert (data_block s1 (allocated V b) b) as Hdata1.
  { unfold data_block, data_start, bitmap_block in *. by rewrite Hsb, (tframe_start _ _ Hf1). }
  eapply runs_step; [apply (bfree_txf F s1 (allocated V b) [] b)|]; rewrite ?Hsb; try done.
  { apply alloc_pre; rewrite ?Hsb, ?Hbm; simpl; try done; try lia; try void. by eapply tframe_trans. }
  { rewrite (used_allocated s V) by done. by rewrite decide_True. }
  intros [] s2 (Hx2 & Hf2). apply runs_ret. split; [done|]. eexists. split_and!; [exact Hx2| |].
  - intros x Hr. rewrite (used_freed s1) by (rewrite ?Hsb; done).
    rewrite (used_allocated s V) by done. by repeat case_decide; subst.
  - intros x H1 H2. unfold freed. rewrite Hbm, upd_ne by done. unfold allocated. by rewrite !upd_ne.
Qed.
End props.

(** ** Witnesses on the small file system: the first free block is 7 *)

Definition demo_F : gset Z := {[7; 4]}.

Lemma demo_F_size : (size demo_F <= 7)%nat.
Proof. vm_compute. lia. Qed.

Lemma demo_sb_of : sb_of demo_V = Superblock 30 15 8 10.
Proof. vm_compute. reflexivity. Qed.

(** Checking a property of the blocks of the small disk one by one. *)
Lemma demo_blocks (P : Z -> bool) :
  forallb P (seqZ 0 30) = true -> forall x, 0 <= x < 30 -> P x = true.
Proof.
  intros Hall x Hx. rewrite forallb_forall in Hall. apply Hall.
  apply list_elem_of_In, elem_of_seqZ. lia.
Qed.

Lemma demo_free_map : free_map_ok demo_tx demo_V.
Proof.
  assert (forall x, bitmap_block demo_V x = x / 4096 + 4) as Eb.
  { intros x. unfold bitmap_block, BBLOCK. rewrite demo_sb_of. change BPB with 4096.
    change (sb_ninodes _ / IPB) with 1. lia. }
  split.
  - split; rewrite ?Eb, demo_sb_of; [simpl; lia|simpl; lia|vm_compute; reflexivity].
  - intros x _. apply demo_len.
  - rewrite demo_sb_of. simpl. lia.
  - intros x Hx. unfold data_start in Hx. rewrite demo_sb_of in Hx. rewrite Eb in Hx.
    change ((sb_size (Superblock 30 15 8 10) - 1) / 4096 + 4 + 1) with 5 in Hx.
    pose proof (demo_blocks (fun x => (5 <=? x) || used demo_V x) ltac:(vm_compute; reflexivity) x) as Hu.
    simpl in Hu. destruct (Z.leb_spec 5 x); [lia|]. apply Hu. lia.
  - by rewrite demo_sb_of.
Qed.

Lemma demo_home7 : home demo_tx 7.
Proof. by split. Qed.

Lemma demo_first_free : first_free demo_V 7.
Proof.
  split; [rewrite demo_sb_of; simpl; lia|]. split; [vm_compute; reflexivity|].
  intros x Hx. pose proof (demo_blocks (fun x => (7 <=? x) || used demo_V x) ltac:(vm_compute; reflexivity) x) as Hu.
  simpl in Hu. destruct (Z.leb_spec 7 x); [lia|]. apply Hu. lia.
Qed.

Lemma balloc_first_fit_witness :
  exists s', balloc (drv := memide) ROOTDEV demo_tx = Ret 7 s'.
Proof.
  destruct (balloc_first_fit (drv := memide) demo_F demo_tx demo_V [] 7) as (r & s' & Hrun & -> & _).
  - apply demo_txf, demo_F_size.
  - apply demo_trans.
  - apply demo_free_map.
  - void.
  - simpl. lia.
  - apply demo_first_free.
  - apply demo_home7.
  - set_solver.
  - replace (bitmap_block demo_V 7) with 4 by (vm_compute; reflexivity). set_solver.
  - void.
  - exists s'. exact Hrun.
Defined.

Lemma demo_data_block : data_block demo_tx demo_V 7.
Proof.
  apply (free_not_meta demo_tx demo_V 7 demo_free_map demo_home7). apply demo_first_free.
Qed.

Lemma bfree_cases_witness : panics (bfree (drv := memide) ROOTDEV 7) demo_tx "freeing free block".
Proof.
  pose proof (bfree_cases (drv := memide) demo_F demo_tx demo_V 7) as Hc.
  replace (used demo_V 7) with false in Hc by (vm_compute; reflexivity). apply Hc.
  - apply demo_txf, demo_F_size.
  - apply demo_trans.
  - apply demo_free_map.
  - apply demo_first_free.
  - apply demo_data_block.
  - set_solver.
  - replace (bitmap_block demo_V 7) with 4 by (vm_compute; reflexivity). set_solver.
Defined.

Lemma balloc_bfree_roundtrip_witness :
  exists s', (r <- balloc (drv := memide) ROOTDEV ;; bfree (drv := memide) ROOTDEV r ;; ret r) demo_tx
    = Ret 7 s'.
Proof.
  destruct (balloc_bfree_roundtrip (drv := memide) demo_F demo_tx demo_V 7) as (r & s' & Hrun & -> & _).
  - apply demo_txf, demo_F_size.
  - apply demo_trans.
  - apply demo_free_map.
  - apply demo_first_free.
  - apply demo_home7.
  - set_solver.
  - replace (bitmap_block demo_V 7) with 4 by (vm_compute; reflexivity). set_solver.
  - exists s'. exact Hrun.
Defined.
