(* ===== verification/FsInode.v ===== *)
(** * On-disk inodes and the inode cache (kernel/fs.c) *)

From S2P Require Import Prelude Types Monad Sched Bio BioSpec Log LogSpec TxSpec Fs FsBlocks.

(** ** Encoding of on-disk inodes *)

Lemma length_put_words d o ws :
  (o + 4 * length ws <= length d)%nat -> length (put_words d o ws) = length d.
Proof.
  revert d o. induction ws as [|w ws IH]; intros d o Hl; simpl in *; [done|].
  rewrite IH; rewrite length_put32; lia.
Qed.

Lemma get32_put_words_other d o ws o' :
  (o + 4 * length ws <= length d)%nat -> (o' + 4 <= o \/ o + 4 * length ws <= o')%nat ->
  get32 (put_words d o ws) o' = get32 d o'.
Proof.
  revert d o. induction ws as [|w ws IH]; intros d o Hl Ho; simpl in *; [done|].
  rewrite IH; [|rewrite length_put32; lia|lia]. apply get32_splice_other; simpl; lia.
Qed.

Lemma get16_put_words_other d o ws o' :
  (o + 4 * length ws <= length d)%nat -> (o' + 2 <= o \/ o + 4 * length ws <= o')%nat ->
  get16 (put_words d o ws) o' = get16 d o'.
Proof.
  revert d o. induction ws as [|w ws IH]; intros d o Hl Ho; simpl in *; [done|].
  rewrite IH; [|rewrite length_put32; lia|lia]. apply get16_splice_other; simpl; lia.
Qed.

Lemma get32_put_words d o ws k w :
  (o + 4 * length ws <= length d)%nat -> ws !! k = Some w ->
  get32 (put_words d o ws) (o + 4 * k) = u32 w.
Proof.
  revert d o k. induction ws as [|w' ws IH]; intros d o k Hl Hk; [done|].
  cbn [put_words length] in *. destruct k as [|k].
  - injection Hk as ->. rewrite Nat.add_0_r.
    rewrite get32_put_words_other; [|rewrite length_put32; lia|lia].
    apply get32_put32_same. lia.
  - replace (o + 4 * S k)%nat with (o + 4 + 4 * k)%nat by lia.
    apply IH; [rewrite length_put32; lia|done].
Qed.

(** Fields in the range of their types. *)
Record dinode_ok (x : dinode) : Prop := {
  dk_type : -32768 <= di_type x < 32768;
  dk_major : -32768 <= di_major x < 32768;
  dk_minor : -32768 <= di_minor x < 32768;
  dk_nlink : -32768 <= di_nlink x < 32768;
  dk_size : 0 <= di_size x < 4294967296;
  dk_addrs : length (di_addrs x) = 13%nat /\ Forall (fun a => 0 <= a < 4294967296) (di_addrs x)
}.

(** Lengths and reads through a chain of stores. *)
Ltac len := repeat first [rewrite length_put_words by len | rewrite length_put32 by len
                         | rewrite length_put16 by len]; simpl; lia.

Lemma get32_put16_other d off off' v :
  (off + 2 <= length d)%nat -> (off' + 4 <= off \/ off + 2 <= off')%nat ->
  get32 (put16 d off v) off' = get32 d off'.
Proof. intros. apply get32_splice_other; done. Qed.
Lemma get16_put16_other d off off' v :
  (off + 2 <= length d)%nat -> (off' + 2 <= off \/ off + 2 <= off')%nat ->
  get16 (put16 d off v) off' = get16 d off'.
Proof. intros. apply get16_splice_other; done. Qed.
Lemma get16_put32_other d off off' v :
  (off + 4 <= length d)%nat -> (off' + 2 <= off \/ off + 4 <= off')%nat ->
  get16 (put32 d off v) off' = get16 d off'.
Proof. intros. apply get16_splice_other; done. Qed.

Lemma length_put_dinode d o x :
  (o + 64 <= length d)%nat -> length (di_addrs x) = 13%nat ->
  length (put_dinode d o x) = length d.
Proof.
  intros Hl Ha. unfold put_dinode.
  by rewrite length_put_words, length_put32, !length_put16 by len.
Qed.

(** An inode written to a block reads back. *)
Lemma get_put_dinode d o x :
  (o + 64 <= length d)%nat -> dinode_ok x -> get_dinode (put_dinode d o x) o = x.
Proof.
  intros Hl [Hty Hma Hmi Hnl Hsz [Hla Had]]. destruct x as [ty ma mi nl sz ad]. simpl in *.
  unfold get_dinode, put_dinode. cbn [di_type di_major di_minor di_nlink di_size di_addrs]. f_equal.
  - rewrite get16_put_words_other, get16_put32_other, !get16_put16_other, get16_put16_same, s16_u16 by len.
    by width.
  - rewrite get16_put_words_other, get16_put32_other, !get16_put16_other, get16_put16_same, s16_u16 by len.
    by width.
  - rewrite get16_put_words_other, get16_put32_other, !get16_put16_other, get16_put16_same, s16_u16 by len.
    by width.
  - rewrite get16_put_words_other, get16_put32_other, get16_put16_same, s16_u16 by len. by width.
  - rewrite get32_put_words_other, get32_put32_same by len. by width.
  - apply list_eq. intros k. change (map ?f ?l) with (f <$> l). rewrite list_lookup_fmap.
    destruct (ad !! k) as [a|] eqn:Ek.
    + pose proof (lookup_lt_Some _ _ _ Ek). rewrite lookup_seq_lt by lia. cbn [fmap option_fmap option_map].
      rewrite (get32_put_words _ _ _ _ a) by (done || len).
      rewrite Forall_forall in Had. specialize (Had a (list_elem_of_lookup_2 _ _ _ Ek)).
      simpl in Had. by rewrite u32_small by lia.
    + apply lookup_ge_None in Ek. by rewrite lookup_seq_ge by lia.
Qed.

(** And the other inodes of the block are unchanged. *)
Lemma get_put_dinode_other d o x o' :
  (o + 64 <= length d)%nat -> length (di_addrs x) = 13%nat -> (o' + 64 <= o \/ o + 64 <= o')%nat ->
  get_dinode (put_dinode d o x) o' = get_dinode d o'.
Proof.
  intros Hl Ha Ho. unfold get_dinode, put_dinode. f_equal.
  - by rewrite get16_put_words_other, get16_put32_other, !get16_put16_other by len.
  - by rewrite get16_put_words_other, get16_put32_other, !get16_put16_other by len.
  - by rewrite get16_put_words_other, get16_put32_other, !get16_put16_other by len.
  - by rewrite get16_put_words_other, get16_put32_other, !get16_put16_other by len.
  - by rewrite get32_put_words_other, get32_put32_other, !get32_put16_other by len.
  - apply map_ext_in. intros k Hk%in_seq.
    by rewrite get32_put_words_other, get32_put32_other, !get32_put16_other by len.
Qed.

(** ** Frames with inode updates *)

Definition fframe (s s' : kstate) : Prop := exists l, tframe (set_inodes l s) s'.

Lemma tframe_set_inodes l s s' : tframe s s' -> tframe (set_inodes l s) (set_inodes l s').
Proof.
  intros [(lg & (bs & dk & ps & -> & Hp & Hd) & Hl) Hr]. split; [|done].
  exists lg. split; [|done]. exists bs, dk, ps. split; [by destruct s|done].
Qed.

#[export] Instance fframe_preorder : PreOrder fframe.
Proof.
  split.
  - intros s. exists (k_inodes s). by replace (set_inodes (k_inodes s) s) with s by by destruct s.
  - intros s1 s2 s3 [l2 H2] [l3 H3]. exists l3. etrans; [|exact H3].
    apply (tframe_set_inodes l3) in H2. by destruct s1.
Qed.

Lemma tframe_fframe s s' : tframe s s' -> fframe s s'.
Proof.
  intros Hf. exists (k_inodes s). by replace (set_inodes (k_inodes s) s) with s by by destruct s.
Qed.

Lemma fframe_set_inodes l s : fframe s (set_inodes l s).
Proof. by exists l. Qed.

Lemma fframe_log s s' :
  fframe s s' -> l_start (k_log s') = l_start (k_log s) /\
    l_size (k_log s') = l_size (k_log s) /\ l_busy (k_log s') = l_busy (k_log s).
Proof.
  intros [l Hf]. pose proof (tframe_start _ _ Hf). pose proof (tframe_size _ _ Hf).
  by pose proof (tframe_busy _ _ Hf).
Qed.
Lemma fframe_held s s' : fframe s s' -> k_held s' = k_held s.
Proof. intros [l Hf]. by rewrite (tframe_held _ _ Hf). Qed.
Lemma fframe_trans s s' : fframe s s' -> in_trans s -> in_trans s'.
Proof. intros (_ & _ & Hb)%fframe_log. unfold in_trans. by rewrite Hb. Qed.
Lemma fframe_home s s' sec : fframe s s' -> home s sec -> home s' sec.
Proof. intros (Hs & _)%fframe_log. unfold home. by rewrite Hs. Qed.
Lemma fframe_fs_ok s s' V : fframe s s' -> fs_ok s V -> fs_ok s' V.
Proof. intros (Hs & _)%fframe_log []. by split; rewrite ?Hs. Qed.
Lemma fframe_free_map s s' V : fframe s s' -> free_map_ok s V -> free_map_ok s' V.
Proof.
  intros Hf Hfm. pose proof (fframe_log _ _ Hf) as (Hs & _).
  apply (free_map_keep s s' V V Hfm Hs); [done|apply Hfm|by left].
Qed.

(** [txf] ignores the inode cache and the process table. *)
Lemma txf_same F s s' V H :
  k_bufs s' = k_bufs s -> k_disk s' = k_disk s -> k_held s' = k_held s -> k_log s' = k_log s ->
  txf F s V H -> txf F s' V H.
Proof.
  intros Hb Hd Hh Hl (D & [W Hx] & HD & HF & Hs). exists D. split; [|by rewrite Hl].
  exists W. destruct Hx as [Hst Hg Hlist Hu Hnd Hho Hc Hv Hcp Hcl Hhe].
  split; rewrite ?Hl; try done.
  - by eapply bstore_same.
  - destruct Hg. by split; rewrite ?Hl, ?Hd.
  - unfold log_list. by rewrite Hl.
  - by rewrite Hh.
Qed.

Lemma txf_set_inodes F s V H l : txf F s V H -> txf F (set_inodes l s) V H.
Proof. by apply txf_same. Qed.

(** ** Steps on inode cache entries *)

Lemma runs_geti {A} i ip s (f : inode -> K A) Q :
  k_inodes s !! i = Some ip -> runs (f ip) s Q -> runs (bind (geti i) f) s Q.
Proof. intros Hi Hf. by eapply runs_bind, runs_nth. Qed.

Lemma runs_updi {A} i g ip s (k : K A) Q :
  k_inodes s !! i = Some ip ->
  runs k (set_inodes (<[i := g ip]> (k_inodes s)) s) Q ->
  runs (bind (updi i g) (fun _ => k)) s Q.
Proof.
  intros Hi Hk. eapply runs_eq; [|exact Hk]. unfold updi. rewrite Hi.
  by rewrite (alter_insert _ _ ip).
Qed.

Lemma updi_eq i g ip s :
  k_inodes s !! i = Some ip -> updi i g s = Ret tt (set_inodes (<[i := g ip]> (k_inodes s)) s).
Proof. intros Hi. unfold updi. rewrite Hi. by rewrite (alter_insert _ _ ip). Qed.

(** ** iget *)

Definition imatch (dev inum : Z) (ip : inode) : bool :=
  (0 <? i_ref ip) && (i_dev ip =? dev) && (i_inum ip =? inum).
Definition ifree (ip : inode) : bool := i_ref ip =? 0.

Lemma iget_scan_eq l k dev inum e :
  iget_scan l k dev inum e =
  match findi (imatch dev inum) l with
  | Some j => (Some (k + j)%nat, (iget_scan l k dev inum e).2)
  | None => (None, match e with
                   | Some x => Some x
                   | None => (fun j => (k + j)%nat) <$> findi ifree l
                   end)
  end.
Proof.
  revert k e. induction l as [|ip l IH]; intros k e; cbn [iget_scan findi].
  - by destruct e.
  - fold (imatch dev inum ip). destruct (imatch dev inum ip) eqn:Em.
    + by rewrite Nat.add_0_r.
    + rewrite IH. fold (ifree ip). destruct (findi (imatch dev inum) l) as [j|]; simpl.
      * f_equal. f_equal. lia.
      * f_equal. destruct e; [done|]. destruct (ifree ip) eqn:Ei; simpl.
        { by rewrite Nat.add_0_r. }
        destruct (findi ifree l); simpl; [|done]. f_equal. lia.
Qed.

(** A cache entry as [iget] sets it up. *)
Definition fresh (dev inum : Z) (ip : inode) : inode :=
  iset_flags 0 (iset_ref 1 (iset_inum inum (iset_dev dev ip))).

Lemma iget_eq dev inum s :
  LIcache ∉ k_held s ->
  iget dev inum s =
  match findi (imatch dev inum) (k_inodes s) with
  | Some j => Ret j (set_inodes (alter (fun ip => iset_ref (i_ref ip + 1) ip) j (k_inodes s)) s)
  | None =>
      match findi ifree (k_inodes s) with
      | Some j => Ret j (set_inodes (alter (fresh dev inum) j (k_inodes s)) s)
      | None => Panic "iget: no inodes" (set_held (LIcache :: k_held s) s)
      end
  end.
Proof.
  intros Hl. unfold iget, bind at 1. rewrite acquire_free by done. unfold bind at 1, gets.
  cbn [k_inodes set_held]. rewrite iget_scan_eq.
  destruct (findi (imatch dev inum) (k_inodes s)) as [j|] eqn:Ef.
  - apply findi_Some in Ef as [(ip & Hip & _) _].
    unfold bind. simpl Nat.add. erewrite updi_eq by (simpl; exact Hip).
    rewrite (release_top _ (k_held s)) by done. rewrite (alter_insert _ _ ip) by done. by destruct s.
  - destruct (findi ifree (k_inodes s)) as [j|] eqn:Ee; cbn [fmap option_fmap option_map]; [|done].
    apply findi_Some in Ee as [(ip & Hip & _) _]. pose proof (lookup_lt_Some _ _ _ Hip) as Hlt.
    change (0 + j)%nat with j. unfold bind. erewrite updi_eq by (simpl; exact Hip).
    do 3 (erewrite updi_eq by (simpl; by apply list_lookup_insert_eq);
          cbn [k_inodes set_inodes set_held]; rewrite list_insert_insert_eq).
    rewrite (release_top _ (k_held s)) by done. rewrite (alter_insert _ _ ip) by done. by destruct s.
Qed.

(** The cache entry [iget] returns and the cache it leaves; [None] when it panics. *)
Definition iget_result (dev inum : Z) (l : list inode) : option (nat * list inode) :=
  match findi (imatch dev inum) l with
  | Some j => Some (j, alter (fun ip => iset_ref (i_ref ip + 1) ip) j l)
  | None =>
      match findi ifree l with
      | Some j => Some (j, alter (fresh dev inum) j l)
      | None => None
      end
  end.

Lemma iget_ret dev inum s j l :
  LIcache ∉ k_held s -> iget_result dev inum (k_inodes s) = Some (j, l) ->
  iget dev inum s = Ret j (set_inodes l s).
Proof.
  intros Hl Hr. rewrite iget_eq by done. unfold iget_result in Hr.
  destruct (findi (imatch dev inum) _); [by injection Hr as <- <-|].
  destruct (findi ifree _); [|done]. by injection Hr as <- <-.
Qed.

(** ** The inode cache's invariant *)

Record icache_ok (l : list inode) : Prop := {
  ic_len : length l = NINODE;
  ic_ref : forall k ip, l !! k = Some ip -> 0 <= i_ref ip;
  ic_uniq : forall j k ip iq, l !! j = Some ip -> l !! k = Some iq ->
    0 < i_ref ip -> 0 < i_ref iq -> i_dev ip = i_dev iq -> i_inum ip = i_inum iq -> j = k
}.

(** Replacing one entry. *)
Lemma icache_insert l k ip ip' :
  icache_ok l -> l !! k = Some ip -> 0 <= i_ref ip' ->
  (0 < i_ref ip' -> forall j iq, j <> k -> l !! j = Some iq -> 0 < i_ref iq ->
     i_dev iq = i_dev ip' -> i_inum iq = i_inum ip' -> False) ->
  icache_ok (<[k := ip']> l).
Proof.
  intros [Hlen Href Huniq] Hk Hr Hne. split.
  - by rewrite length_insert.
  - intros j iq [(-> & <- & _)|[_ Hj]]%list_lookup_insert_Some; [done|eauto].
  - intros i j iq ir Hi Hj H1 H2 H3 H4.
    apply list_lookup_insert_Some in Hi as [(<- & <- & _)|[Hni Hi]];
      apply list_lookup_insert_Some in Hj as [(<- & <- & _)|[Hnj Hj]]; [done| | |eauto].
    + exfalso. eapply Hne; [done|by apply not_eq_sym|exact Hj|done..].
    + exfalso. eapply Hne; [done|by apply not_eq_sym|exact Hi|done..].
Qed.

Lemma imatch_true dev inum ip :
  imatch dev inum ip = true <-> 0 < i_ref ip /\ i_dev ip = dev /\ i_inum ip = inum.
Proof. unfold imatch. rewrite !andb_true_iff, Z.ltb_lt, !Z.eqb_eq. tauto. Qed.

(** C14. [iget] keeps the cache free of duplicates: it returns the one entry for the inode with
    its count incremented, or takes a free entry and gives it count 1; nothing else in the kernel
    changes; and it panics exactly when the inode is not cached and no entry is free. *)
Theorem iget_unique s dev inum :
  LIcache ∉ k_held s -> icache_ok (k_inodes s) ->
  match iget dev inum s with
  | Ret k s' => exists ip ip',
      k_inodes s !! k = Some ip /\ s' = set_inodes (<[k := ip']> (k_inodes s)) s /\
      i_dev ip' = dev /\ i_inum ip' = inum /\ icache_ok (k_inodes s') /\
      (if imatch dev inum ip then i_ref ip' = i_ref ip + 1 /\ dinode_of ip' = dinode_of ip
       else i_ref ip = 0 /\ i_ref ip' = 1 /\ i_flags ip' = 0 /\
            forall j iq, k_inodes s !! j = Some iq -> imatch dev inum iq = false)
  | Panic msg _ => msg = "iget: no inodes" /\
      forall j iq, k_inodes s !! j = Some iq -> imatch dev inum iq = false /\ 0 < i_ref iq
  | _ => False
  end.
Proof.
  intros Hl Hic. rewrite iget_eq by done. pose proof Hic as [_ Href Huniq].
  destruct (findi (imatch dev inum) (k_inodes s)) as [j|] eqn:Ef.
  - apply findi_Some in Ef as [(ip & Hip & Hm) _]. pose proof Hm as (Hr & Hd & Hi)%imatch_true.
    exists ip, (iset_ref (i_ref ip + 1) ip). rewrite (alter_insert _ _ ip), Hm by done.
    split_and!; try done. simpl. eapply icache_insert; [done..| |].
    + simpl. lia.
    + simpl. intros _ k iq Hne Hk Hrk Hdk Hik. apply Hne. by eapply Huniq.
  - assert (forall k iq, k_inodes s !! k = Some iq -> imatch dev inum iq = false) as Hno
      by (by rewrite findi_None in Ef).
    destruct (findi ifree (k_inodes s)) as [j|] eqn:Ee.
    + apply findi_Some in Ee as [(ip & Hip & Hz%Z.eqb_eq) _].
      exists ip, (fresh dev inum ip). rewrite (alter_insert _ _ ip), (Hno _ _ Hip) by done.
      split_and!; try done. simpl. eapply icache_insert; [done..|].
      simpl. intros _ k iq Hne Hk Hrk Hdk Hik.
      specialize (Hno _ _ Hk). assert (imatch dev inum iq = true) by (by apply imatch_true). congruence.
    + split; [done|]. intros k iq Hk. split; [by eapply Hno|].
      rewrite findi_None in Ee. specialize (Ee _ _ Hk). apply Z.eqb_neq in Ee.
      specialize (Href _ _ Hk). lia.
Qed.

(** A reference taken with [idup] and dropped with [iput] leaves the kernel exactly as it was,
    for any inode that is referenced, whatever its link count. *)
Theorem idup_iput {drv : DiskDriver} s ip i :
  LIcache ∉ k_held s -> k_inodes s !! ip = Some i -> 1 <= i_ref i ->
  (r <- idup ip ;; iput r) s = Ret tt s.
Proof.
  intros Hl Hi Hr. pose proof (lookup_lt_Some _ _ _ Hi) as Hlt.
  unfold idup, iput, bind. rewrite acquire_free by done.
  erewrite updi_eq by (simpl; exact Hi). rewrite (release_top _ (k_held s)) by done.
  unfold ret. rewrite acquire_free by done.
  unfold geti, nth_or_fault. cbn [k_inodes set_inodes set_held].
  rewrite list_lookup_insert_eq by done. cbn [i_ref iset_ref].
  destruct (Z.eqb_spec (i_ref i + 1) 1); [lia|]. cbn [andb].
  erewrite updi_eq by (simpl; by apply list_lookup_insert_eq).
  rewrite (release_top _ (k_held s)) by done. cbn [k_inodes set_inodes set_held k_held].
  rewrite list_insert_insert_eq, list_insert_id; [by autorewrite with kset|].
  rewrite Hi. f_equal. destruct i. unfold iset_ref. simpl. f_equal. lia.
Qed.
