(* ===== verification/FsInodeOps.v ===== *)
(** * Locking, updating and allocating inodes (kernel/fs.c) *)

From S2P Require Import Prelude Types Monad Sched Bio BioSpec Log LogSpec TxSpec Fs FsBlocks FsInode Demo.

(** ** The inode blocks *)

Definition iblock (inum : Z) : Z := IBLOCK inum.

(** Inode [inum] as the blocks [V] hold it. *)
Definition disk_inode (V : Z -> list Z) (inum : Z) : dinode :=
  get_dinode (V (iblock inum)) (dinode_off inum).

Lemma dinode_off_bound inum : (dinode_off inum + 64 <= 512)%nat.
Proof.
  unfold dinode_off, IPB. pose proof (Z.mod_pos_bound inum 8 ltac:(lia)). lia.
Qed.

Lemma dinode_off_disjoint i j :
  0 <= i -> 0 <= j -> iblock i = iblock j -> i <> j ->
  (dinode_off i + 64 <= dinode_off j \/ dinode_off j + 64 <= dinode_off i)%nat.
Proof.
  unfold iblock, IBLOCK, dinode_off, IPB. intros Hi Hj Hb Hne.
  pose proof (Z.mod_pos_bound i 8 ltac:(lia)). pose proof (Z.mod_pos_bound j 8 ltac:(lia)).
  assert (i mod 8 <> j mod 8); [|lia].
  intros Hm. apply Hne. rewrite (Z.div_mod i 8), (Z.div_mod j 8) by lia. lia.
Qed.

(** Writing inode [n] changes what is read for [n] only. *)
Definition write_inode (V : Z -> list Z) (n : Z) (x : dinode) : Z -> list Z :=
  upd V (iblock n) (put_dinode (V (iblock n)) (dinode_off n) x).

Lemma disk_inode_same V n x :
  length (V (iblock n)) = 512%nat -> dinode_ok x -> disk_inode (write_inode V n x) n = x.
Proof.
  intros Hl Hx. unfold disk_inode, write_inode. rewrite upd_eq.
  apply get_put_dinode; [|done]. rewrite Hl. apply dinode_off_bound.
Qed.

Lemma disk_inode_other V n m x :
  length (V (iblock n)) = 512%nat -> length (di_addrs x) = 13%nat -> 0 <= n -> 0 <= m -> m <> n ->
  disk_inode (write_inode V n x) m = disk_inode V m.
Proof.
  intros Hl Hx Hn Hm Hne. unfold disk_inode, write_inode, upd. case_decide as E; [|done].
  rewrite E. apply get_put_dinode_other; [rewrite Hl; apply dinode_off_bound|done|].
  by apply dinode_off_disjoint.
Qed.

(** ** Flags of cached inodes *)

Lemma ivalid_set_busy f : has (set_flag f I_BUSY) I_VALID = has f I_VALID.
Proof. apply (has_set_other _ 0 1); lia. Qed.
Lemma ibusy_set_busy f : has (set_flag f I_BUSY) I_BUSY = true.
Proof. apply (has_set_same _ 0). lia. Qed.
Lemma ibusy_set_valid f : has (set_flag f I_VALID) I_BUSY = has f I_BUSY.
Proof. apply (has_set_other _ 1 0); lia. Qed.
Lemma ivalid_set_valid f : has (set_flag f I_VALID) I_VALID = true.
Proof. apply (has_set_same _ 1). lia. Qed.
Lemma ibusy_clr_busy f : has (clr_flag f I_BUSY) I_BUSY = false.
Proof. apply (has_clr_same _ 0). lia. Qed.
Lemma ivalid_clr_busy f : has (clr_flag f I_BUSY) I_VALID = has f I_VALID.
Proof. apply (has_clr_other _ 0 1); lia. Qed.

Create Rewrite HintDb iflags.
#[export] Hint Rewrite ivalid_set_busy ibusy_set_busy ibusy_set_valid ivalid_set_valid
  ibusy_clr_busy ivalid_clr_busy : iflags.

(** The entry [ilock] leaves. *)
Definition mark_busy (i : inode) : inode := iset_flags (set_flag (i_flags i) I_BUSY) i.
Definition mark_valid (i : inode) : inode := iset_flags (set_flag (i_flags i) I_VALID) i.
Definition locked (V : Z -> list Z) (i : inode) : inode :=
  if has (i_flags i) I_VALID then mark_busy i
  else mark_valid (load_dinode (disk_inode V (i_inum i)) (mark_busy i)).

(** An inode of the root device whose block is in the file system. *)
Definition on_disk (s : kstate) (i : inode) : Prop :=
  i_dev i = ROOTDEV /\ 0 <= i_inum i /\ home s (iblock (i_inum i)).

Lemma on_disk_u32 F s V H i :
  txf F s V H -> on_disk s i -> u32 (IBLOCK (i_inum i)) = iblock (i_inum i).
Proof.
  intros Hx (_ & _ & Hh). pose proof (txf_home_bound _ _ _ _ _ Hx Hh) as Hb.
  change (IBLOCK (i_inum i)) with (iblock (i_inum i)). apply u32_small. lia.
Qed.

Lemma fframe_on_disk s s' i : fframe s s' -> on_disk s i -> on_disk s' i.
Proof. intros Hf (? & ? & Hh). split_and!; [done..|]. by eapply fframe_home. Qed.

Section ops.
Context {drv : DiskDriver}.

Lemma wait_inode_free fuel ip i s :
  k_inodes s !! ip = Some i -> has (i_flags i) I_BUSY = false -> wait_inode (S fuel) ip s = Ret tt s.
Proof.
  intros Hi Hb. cbn [wait_inode]. unfold bind, geti, nth_or_fault. by rewrite Hi, Hb.
Qed.

(** The part of [ilock] under [icache.lock]. *)
Lemma ilock_enter {A} s ip i (k : K A) Q :
  k_inodes s !! ip = Some i -> 1 <= i_ref i -> has (i_flags i) I_BUSY = false ->
  LIcache ∉ k_held s ->
  runs k (set_inodes (<[ip := mark_busy i]> (k_inodes s)) s) Q ->
  runs (acquire LIcache ;; wait_inode 2 ip ;;
        updi ip (fun i => iset_flags (set_flag (i_flags i) I_BUSY) i) ;;
        release LIcache ;; k) s Q.
Proof.
  intros Hi Hr Hb Hl Hk. eapply runs_eq; [by apply acquire_free|].
  eapply runs_eq; [by eapply wait_inode_free|]. eapply runs_updi; [exact Hi|].
  eapply runs_eq; [by apply (release_top _ (k_held s))|].
  autorewrite with kset. exact Hk.
Qed.

Lemma ilock_txf F s V H ip i :
  txf F s V H -> k_inodes s !! ip = Some i -> 1 <= i_ref i -> has (i_flags i) I_BUSY = false ->
  LIcache ∉ k_held s -> on_disk s i -> (forall j d, (j, iblock (i_inum i), d) ∉ H) ->
  (length H <= 2)%nat -> i_type (locked V i) <> 0 \/ has (i_flags i) I_VALID = true ->
  runs (ilock ip) s (fun _ s' => txf F s' V H /\ fframe s s' /\
    k_inodes s' = <[ip := locked V i]> (k_inodes s)).
Proof.
  intros Hx Hi Hr Hb Hl Hd Hnh HH Hty. pose proof (lookup_lt_Some _ _ _ Hi) as Hlt.
  unfold ilock. eapply runs_geti; [exact Hi|]. apply runs_if_false; [lia|].
  eapply ilock_enter; [done..|]. set (s1 := set_inodes _ s).
  assert (k_inodes s1 !! ip = Some (mark_busy i)) as Hi1 by by apply list_lookup_insert_eq.
  assert (txf F s1 V H) as Hx1 by by apply txf_set_inodes.
  eapply runs_geti; [exact Hi1|]. cbn [i_flags mark_busy iset_flags]. rewrite ivalid_set_busy.
  unfold locked in *. destruct (has (i_flags i) I_VALID) eqn:Ev; cbn [negb].
  { apply runs_ret. split_and!; [done|apply fframe_set_inodes|done]. }
  destruct Hty as [Hty|]; [|done]. destruct Hd as (Hdev & Hin & Hhome).
  cbn [i_dev i_inum mark_busy iset_flags]. rewrite Hdev, (on_disk_u32 _ _ _ _ _ Hx) by done.
  eapply runs_step; [by apply (txf_bread _ _ _ _ (iblock (i_inum i)) Hx1)|]. intros bp s2 (Hx2 & Hf2).
  eapply txf_getb; [exact Hx2|left|]. intros b _ _ ->.
  eapply runs_updi; [by rewrite (tframe_inodes _ _ Hf2)|].
  eapply runs_step; [by eapply txf_brelse; [eapply txf_set_inodes, Hx2|]|]. intros [] s3 (Hx3 & Hf3).
  eapply runs_updi.
  { rewrite (tframe_inodes _ _ Hf3). simpl. apply list_lookup_insert_eq.
    rewrite (tframe_inodes _ _ Hf2). simpl. by rewrite length_insert. }
  eapply runs_geti; [simpl; apply list_lookup_insert_eq; by rewrite (tframe_inodes _ _ Hf3); simpl;
    rewrite length_insert, (tframe_inodes _ _ Hf2); simpl; rewrite length_insert|].
  apply runs_if_false; [by apply Z.eqb_neq|]. apply runs_ret. split_and!.
  - by apply txf_set_inodes.
  - etrans; [apply fframe_set_inodes|]. etrans; [by apply tframe_fframe|].
    etrans; [apply fframe_set_inodes|]. etrans; [by apply tframe_fframe|]. apply fframe_set_inodes.
  - simpl. rewrite (tframe_inodes _ _ Hf3). simpl. rewrite (tframe_inodes _ _ Hf2). simpl.
    by rewrite !list_insert_insert_eq.
Qed.

Lemma iunlock_eq s ip i :
  k_inodes s !! ip = Some i -> 1 <= i_ref i -> has (i_flags i) I_BUSY = true ->
  LIcache ∉ k_held s -> LPtable ∉ k_held s ->
  iunlock ip s = Ret tt (set_procs (map (wake (ChInode ip)) (k_procs s))
    (set_inodes (<[ip := iset_flags (clr_flag (i_flags i) I_BUSY) i]> (k_inodes s)) s)).
Proof.
  intros Hi Hr Hb Hl1 Hl2. unfold iunlock, bind, geti, nth_or_fault. rewrite Hi, Hb.
  destruct (Z.ltb_spec (i_ref i) 1); [lia|]. cbn [negb orb]. rewrite acquire_free by done.
  erewrite updi_eq by (simpl; exact Hi).
  rewrite wakeup_eq by (simpl; rewrite not_elem_of_cons; done).
  rewrite (release_top _ (k_held s)) by done. autorewrite with kset. done.
Qed.

(** [iupdate] writes the cached inode to its place on disk. *)
Lemma iupdate_txf F s V H ip i :
  txf F s V H -> in_trans s -> k_inodes s !! ip = Some i -> on_disk s i ->
  iblock (i_inum i) ∈ F -> (forall j d, (j, iblock (i_inum i), d) ∉ H) -> (length H <= 1)%nat ->
  length (i_addrs i) = 13%nat ->
  runs (iupdate ip) s (fun _ s' =>
    txf F s' (write_inode V (i_inum i) (dinode_of i)) H /\ tframe s s').
Proof.
  intros Hx Ht Hi Hd HF Hnh HH Ha. pose proof Hd as (Hdev & Hin & Hhome).
  unfold iupdate. eapply runs_geti; [exact Hi|]. rewrite Hdev, (on_disk_u32 _ _ _ _ _ Hx) by done.
  pose proof (txf_len _ _ _ _ _ Hx Hhome) as Hlen.
  tcall txf_bread as (Hx1 & Hf1).
  eapply runs_step; [apply (txf_set _ _ _ _ _ _ _
    (fun d => put_dinode d (dinode_off (i_inum i)) (dinode_of i)) Hx1)|].
  { rewrite length_put_dinode; [done| |done]. rewrite Hlen. apply dinode_off_bound. }
  intros [] s2 (Hx2 & Hf2). tcall txf_log_write as (Hx3 & Hf3).
  { by eapply tframe_trans, tframe_trans. }
  eapply runs_mono; [apply (txf_brelse _ _ _ _ _ _ _ Hx3); by rewrite upd_eq|].
  intros [] s4 (Hx4 & Hf4). split; [done|]. frames.
Qed.

(** ** ialloc *)

Definition free_inode (V : Z -> list Z) (n : Z) : bool := di_type (disk_inode V n) =? 0.

Definition first_free_inode (V : Z -> list Z) (n : Z) : Prop :=
  1 <= n < sb_ninodes (sb_of V) /\ free_inode V n = true /\
  forall m, 1 <= m < n -> free_inode V m = false.

(** The inode [ialloc] writes: zero but for the type. *)
Definition new_dinode (type : Z) : dinode := Dinode type 0 0 0 0 (replicate 13 0).

Definition alloc_bytes (type : Z) (o : nat) (d : list Z) : list Z :=
  put16 (splice d o (replicate 64 0)) o type.

Lemma get_alloc_bytes type o d :
  (o + 64 <= length d)%nat -> -32768 <= type < 32768 ->
  get_dinode (alloc_bytes type o d) o = new_dinode type.
Proof.
  intros Hl Ht. unfold alloc_bytes. set (d0 := splice d o (replicate 64 0)).
  assert (length d0 = length d) as Hl0 by (by apply length_splice; rewrite length_replicate).
  assert (forall k, (o <= k < o + 64)%nat -> byte_at d0 k = 0) as Hz.
  { intros k Hk. unfold byte_at, d0. rewrite lookup_splice_in by (rewrite length_replicate; lia).
    by rewrite lookup_replicate_2 by lia. }
  assert (forall k, (o <= k)%nat -> (k + 2 <= o + 64)%nat -> get16 d0 k = 0) as Hz16
    by (intros; unfold get16; rewrite !Hz by lia; done).
  assert (forall k, (o <= k)%nat -> (k + 4 <= o + 64)%nat -> get32 d0 k = 0) as Hz32
    by (intros; unfold get32; rewrite !Hz by lia; done).
  unfold get_dinode, new_dinode. f_equal.
  - rewrite get16_put16_same, s16_u16 by lia. by width.
  - by rewrite get16_put16_other, Hz16 by lia.
  - by rewrite get16_put16_other, Hz16 by lia.
  - by rewrite get16_put16_other, Hz16 by lia.
  - by rewrite get32_put16_other, Hz32 by lia.
  - change (replicate 13 0) with (map (fun _ : nat => 0) (seq 0 13)). apply map_ext_in.
    intros k Hk%in_seq. by rewrite get32_put16_other, Hz32 by lia.
Qed.

Lemma get_alloc_bytes_other type o d o' :
  (o + 64 <= length d)%nat -> (o' + 64 <= o \/ o + 64 <= o')%nat ->
  get_dinode (alloc_bytes type o d) o' = get_dinode d o'.
Proof.
  intros Hl Ho. unfold alloc_bytes.
  assert (length (splice d o (replicate 64 0)) = length d) as Hl0
    by (by apply length_splice; rewrite length_replicate).
  unfold get_dinode. f_equal.
  1-4: by rewrite get16_put16_other, get16_splice_other by (rewrite ?Hl0, ?length_replicate; lia).
  - by rewrite get32_put16_other, get32_splice_other by (rewrite ?Hl0, ?length_replicate; lia).
  - apply map_ext_in. intros k Hk%in_seq.
    by rewrite get32_put16_other, get32_splice_other by (rewrite ?Hl0, ?length_replicate; lia).
Qed.

Lemma length_alloc_bytes type o d :
  (o + 64 <= length d)%nat -> length (alloc_bytes type o d) = length d.
Proof.
  intros Hl. unfold alloc_bytes.
  rewrite length_put16; rewrite length_splice; rewrite ?length_replicate; lia.
Qed.

Definition allocated_inode (V : Z -> list Z) (type n : Z) : Z -> list Z :=
  upd V (iblock n) (alloc_bytes type (dinode_off n) (V (iblock n))).

(** The inode blocks are in the file system. *)
Definition inodes_home (s : kstate) (V : Z -> list Z) : Prop :=
  forall n, 1 <= n < sb_ninodes (sb_of V) -> home s (iblock n).

Lemma ialloc_loop_found F s V n type fuel m r l :
  txf F s V [] -> in_trans s -> inodes_home s V -> first_free_inode V n -> iblock n ∈ F ->
  sb_ninodes (sb_of V) < 2147483648 -> 1 <= m <= n -> n - m < Z.of_nat fuel ->
  LIcache ∉ k_held s -> iget_result ROOTDEV n (k_inodes s) = Some (r, l) ->
  runs (ialloc_loop fuel ROOTDEV type (sb_of V) m) s (fun r' s' =>
    r' = r /\ k_inodes s' = l /\ txf F s' (allocated_inode V type n) [] /\ fframe s s').
Proof.
  intros Hx Ht Hih (Hn & Hfree & Hbelow) HF Hni Hm Hf Hlk Hget. revert s m Hx Ht Hih Hm Hf Hlk Hget.
  induction fuel as [|fuel IH]; intros s m Hx Ht Hih Hm Hf Hlk Hget; [lia|].
  cbn [ialloc_loop]. apply runs_if_true; [lia|].
  assert (home s (iblock m)) as Hhome by (apply Hih; lia).
  pose proof (txf_home_bound _ _ _ _ _ Hx Hhome) as Hbnd.
  pose proof (txf_len _ _ _ _ _ Hx Hhome) as Hlen.
  change (IBLOCK m) with (iblock m). rewrite u32_small by lia.
  eapply runs_step; [apply (txf_bread _ _ _ _ (iblock m) Hx Hhome); [void|simpl; lia]|].
  intros bp s1 (Hx1 & Hf1). eapply txf_getb; [exact Hx1|left|]. intros b _ _ ->.
  change (s16 (get16 (V (iblock m)) (dinode_off m)) =? 0) with (free_inode V m).
  destruct (decide (m = n)) as [->|Hne].
  - apply runs_if_true; [done|]. pose proof (dinode_off_bound n).
    eapply runs_step; [apply (txf_set _ _ _ _ _ _ _ (fun d => splice d (dinode_off n) (replicate 64 0)) Hx1)|].
    { rewrite length_splice; rewrite ?length_replicate; lia. }
    intros [] s2 (Hx2 & Hf2).
    eapply runs_step; [apply (txf_set _ _ _ _ _ _ _ (fun d => put16 d (dinode_off n) type) Hx2)|].
    { rewrite length_put16; rewrite length_splice; rewrite ?length_replicate; lia. }
    intros [] s3 (Hx3 & Hf3). tcall txf_log_write as (Hx4 & Hf4).
    { by eapply tframe_trans, tframe_trans, tframe_trans. }
    eapply runs_step; [apply (txf_brelse _ _ _ _ _ _ _ Hx4); by rewrite upd_eq|].
    intros [] s5 (Hx5 & Hf5). fold (alloc_bytes type (dinode_off n) (V (iblock n))) in Hx5.
    fold (allocated_inode V type n) in Hx5. assert (tframe s s5) as Hf05 by frames.
    rewrite u32_small by lia.
    eapply runs_eq_last; [apply iget_ret; [by rewrite (tframe_held _ _ Hf05)|
      by rewrite (tframe_inodes _ _ Hf05)]|].
    split_and!; [done..|by apply txf_set_inodes|].
    etrans; [by apply tframe_fframe|apply fframe_set_inodes].
  - apply runs_if_false; [apply Hbelow; lia|].
    tcall txf_brelse as (Hx2 & Hf2). assert (tframe s s') as Hf02 by (by etrans).
    eapply runs_mono; [apply (IH s' (m + 1) Hx2)|].
    + by eapply tframe_trans.
    + intros k Hk. eapply tframe_home; [done|by apply Hih].
    + lia.
    + lia.
    + by rewrite (tframe_held _ _ Hf02).
    + by rewrite (tframe_inodes _ _ Hf02).
    + intros r' s3 (-> & Hl3 & Hx3 & Hf3). split_and!; [done..|]. etrans; [by apply tframe_fframe|done].
Qed.
End ops.

(** ** Properties *)

Section props.
Context {drv : DiskDriver}.

(** C16. What [iupdate] writes is what [ilock] reads: after [iupdate] of a cached inode, locking
    another cache entry that is not valid loads the same type, device, link count, size and block
    addresses if it is for the same inode number, and what was on disk for it if not. *)
Theorem iupdate_ilock F s V ip i jp j :
  txf F s V [] -> in_trans s -> LIcache ∉ k_held s ->
  k_inodes s !! ip = Some i -> on_disk s i -> iblock (i_inum i) ∈ F -> dinode_ok (dinode_of i) ->
  k_inodes s !! jp = Some j -> on_disk s j -> i_flags j = 0 -> 1 <= i_ref j ->
  let x := if decide (i_inum j = i_inum i) then dinode_of i else disk_inode V (i_inum j) in
  di_type x <> 0 ->
  runs (iupdate ip ;; ilock jp) s (fun _ s' => exists j',
    k_inodes s' = <[jp := j']> (k_inodes s) /\ dinode_of j' = x /\
    i_dev j' = i_dev j /\ i_inum j' = i_inum j /\ i_ref j' = i_ref j /\
    has (i_flags j') I_BUSY = true /\ has (i_flags j') I_VALID = true).
Proof.
  intros Hx Ht Hl Hi Hdi HF Hok Hj Hdj Hfl Hr x Hty.
  pose proof (dk_addrs _ Hok) as [Hlen _].
  eapply runs_step; [apply (iupdate_txf F s V [] ip i); try done; [void|simpl; lia]|].
  intros [] s1 (Hx1 & Hf1). set (V1 := write_inode _ _ _) in Hx1.
  assert (disk_inode V1 (i_inum j) = x) as Hdisk.
  { assert (length (V (iblock (i_inum i))) = 512%nat) by (eapply txf_len; [exact Hx|apply Hdi]).
    subst x V1. case_decide as E; [rewrite E; by apply disk_inode_same|].
    apply disk_inode_other; try done; [apply Hdi|apply Hdj]. }
  assert (locked V1 j = mark_valid (load_dinode x (mark_busy j))) as Hlocked.
  { unfold locked. rewrite Hfl. change (has 0 I_VALID) with false. by rewrite Hdisk. }
  eapply runs_mono; [apply (ilock_txf F s1 V1 [] jp j Hx1)|]; try done.
  - by rewrite (tframe_inodes _ _ Hf1).
  - by rewrite Hfl.
  - by rewrite (tframe_held _ _ Hf1).
  - by eapply fframe_on_disk; [apply tframe_fframe|].
  - void.
  - simpl. lia.
  - left. by rewrite Hlocked.
  - intros [] s2 (Hx2 & Hf2 & Hl2). exists (locked V1 j). rewrite Hl2, (tframe_inodes _ _ Hf1), Hlocked.
    split; [done|]. rewrite <- Hlocked. split_and!; rewrite Hlocked; try done.
    + by destruct x.
    + simpl. rewrite Hfl. done.
    + simpl. rewrite Hfl. done.
Qed.

(** C17. [ialloc] is first fit over the inode numbers from 1: the first inode of type 0 becomes
    an inode of the given type with every other field zero, no other inode and no other block
    changes, and the cache entry returned is the one [iget] gives for it. *)
Theorem ialloc_first_fit F s V n type r l :
  txf F s V [] -> in_trans s -> inodes_home s V -> first_free_inode V n -> iblock n ∈ F ->
  sb_ninodes (sb_of V) < 2147483648 -> -32768 <= type < 32768 ->
  LIcache ∉ k_held s -> iget_result ROOTDEV n (k_inodes s) = Some (r, l) ->
  runs (ialloc ROOTDEV type) s (fun r' s' => r' = r /\ k_inodes s' = l /\ exists V',
    txf F s' V' [] /\ disk_inode V' n = new_dinode type /\
    (forall m, 0 <= m -> m <> n -> disk_inode V' m = disk_inode V m) /\
    (forall x, x <> iblock n -> V' x = V x)).
Proof.
  intros Hx Ht Hih Hff HF Hni Hty Hlk Hget. pose proof Hff as (Hn & _ & _).
  unfold ialloc. change (s32 ROOTDEV) with ROOTDEV.
  eapply runs_step; [apply (readsb_txf _ _ _ _ Hx); [void|simpl; lia]|].
  intros sb s1 (-> & Hx1 & Hf1).
  eapply runs_mono; [apply (ialloc_loop_found F s1 V n type _ 1 r l Hx1)|]; try done.
  - by eapply tframe_trans.
  - intros k Hk. eapply tframe_home; [done|by apply Hih].
  - lia.
  - lia.
  - by rewrite (tframe_held _ _ Hf1).
  - by rewrite (tframe_inodes _ _ Hf1).
  - intros r' s2 (-> & Hl2 & Hx2 & _). split_and!; [done..|].
    assert (length (V (iblock n)) = 512%nat) as Hlen by (eapply txf_len; [exact Hx|by apply Hih]).
    pose proof (dinode_off_bound n) as Hob.
    exists (allocated_inode V type n). split_and!; [done| | |].
    + unfold disk_inode, allocated_inode. rewrite upd_eq. apply get_alloc_bytes; [lia|done].
    + intros m Hm Hne. unfold disk_inode, allocated_inode, upd. case_decide as E; [|done]. rewrite E.
      apply get_alloc_bytes_other; [lia|]. apply dinode_off_disjoint; done || lia.
    + intros x Hxn. unfold allocated_inode. by rewrite upd_ne.
Qed.
End props.

(** ** Witnesses on the small file system *)

Lemma zero_icache_ok : icache_ok (replicate NINODE zero_inode).
Proof.
  split.
  - apply length_replicate.
  - intros k ip [-> _]%lookup_replicate_1. done.
  - intros j k ip iq [-> _]%lookup_replicate_1. simpl. lia.
Qed.

Lemma iget_unique_witness :
  exists k s', iget ROOTDEV 1 demo = Ret k s' /\ icache_ok (k_inodes s').
Proof.
  pose proof (iget_unique demo ROOTDEV 1) as Hu.
  assert (LIcache ∉ k_held demo) as Hl by (simpl; void).
  specialize (Hu Hl zero_icache_ok).
  destruct (iget ROOTDEV 1 demo) as [k s'|msg s'| | |]; try done.
  - destruct Hu as (ip & ip' & _ & _ & _ & _ & Hic & _). by exists k, s'.
  - destruct Hu as [_ Hall]. destruct (Hall 0%nat zero_inode) as [_ Hr]; [done|]. simpl in Hr. lia.
Defined.

(** Cached inodes: "a", in use and valid, and the root directory, not yet read. *)
Definition demo_cached : inode := load_dinode demo_file (Inode ROOTDEV 2 1 I_VALID 0 0 0 0 0 []).
Definition demo_unread : inode := Inode ROOTDEV 1 1 0 0 0 0 0 0 (replicate 13 0).
Definition demo_icache : list inode :=
  <[0%nat := demo_cached]> (<[1%nat := demo_unread]> (replicate NINODE zero_inode)).
Definition demo_i : kstate := set_inodes demo_icache demo_tx.

Lemma idup_iput_witness :
  (r <- idup 0 ;; iput (drv := memide) r) demo_i = Ret tt demo_i.
Proof. apply (idup_iput demo_i 0 demo_cached); [simpl; void|done|simpl; lia]. Defined.

Lemma demo_i_txf F : (size F <= 7)%nat -> txf F demo_i demo_V [].
Proof. intros HF. by apply txf_set_inodes, demo_txf. Qed.

Lemma demo_file_ok : dinode_ok demo_file.
Proof.
  split; cbn; unfold T_FILE; try lia. split; [done|]. repeat (apply Forall_cons; split; [lia|]). apply Forall_nil_2.
Qed.

Definition inode_F : gset Z := {[2]}.
Lemma inode_F_size : (size inode_F <= 7)%nat.
Proof. vm_compute. lia. Qed.

Lemma iupdate_ilock_witness :
  exists s', (iupdate (drv := memide) 0 ;; ilock (drv := memide) 1) demo_i = Ret tt s'.
Proof.
  destruct (iupdate_ilock (drv := memide) inode_F demo_i demo_V 0 demo_cached 1 demo_unread)
    as ([] & s' & Hrun & _).
  - apply demo_i_txf, inode_F_size.
  - done.
  - simpl. void.
  - done.
  - split_and!; [done|simpl; lia|]. split; by vm_compute.
  - by apply elem_of_singleton.
  - apply demo_file_ok.
  - done.
  - split_and!; [done|simpl; lia|]. split; by vm_compute.
  - done.
  - simpl. lia.
  - by vm_compute.
  - exists s'. exact Hrun.
Defined.

Lemma ialloc_first_fit_witness :
  exists r s', ialloc (drv := memide) ROOTDEV T_FILE demo_i = Ret r s'.
Proof.
  destruct (ialloc_first_fit (drv := memide) inode_F demo_i demo_V 3 T_FILE 2
    (alter (fresh ROOTDEV 3) 2%nat demo_icache)) as (r & s' & Hrun & _).
  - apply demo_i_txf, inode_F_size.
  - done.
  - intros n Hn. replace (sb_ninodes (sb_of demo_V)) with 8 in Hn by (vm_compute; reflexivity).
    unfold home, iblock, IBLOCK, IPB. rewrite Z.div_small by lia. split; by vm_compute.
  - split; [replace (sb_ninodes (sb_of demo_V)) with 8 by (vm_compute; reflexivity); lia|].
    split; [vm_compute; reflexivity|]. intros m Hm.
    assert (m = 1 \/ m = 2) as [-> | ->] by lia; vm_compute; reflexivity.
  - by apply elem_of_singleton.
  - replace (sb_ninodes (sb_of demo_V)) with 8 by (vm_compute; reflexivity). lia.
  - unfold T_FILE. lia.
  - simpl. void.
  - vm_compute. reflexivity.
  - by exists r, s'.
Defined.
