(* ===== verification/FsFile.v ===== *)
(** * File contents: a reference model of [bmap] and of the loop of [writei]

    The functions [r_slot], [r_bmap] and [r_write] compute on the blocks alone what kernel/fs.c
    computes through the buffer cache and the log: the new blocks, the new inode, and the blocks
    written. FsFileOps.v shows that the code refines them; here they are shown to keep the
    file well formed and to change its contents as a write should. *)

From S2P Require Import Prelude Types Bio BioSpec Log LogSpec TxSpec Fs FsBlocks.

(** ** The blocks of a file *)

(** The 141 block slots of an inode: 12 direct blocks, the indirect block, its 128 entries. *)
Definition nslots : nat := 141.
Definition ind_block (i : inode) : Z := default 0 (i_addrs i !! 12%nat).
Definition slot (V : Z -> list Z) (i : inode) (n : nat) : Z :=
  if (n <? 13)%nat then default 0 (i_addrs i !! n)
  else if ind_block i =? 0 then 0 else get32 (V (ind_block i)) (4 * (n - 13)).

(** The slot of the [bn]th block of the file's contents. *)
Definition bslot (bn : Z) : nat := if bn <? NDIRECT then Z.to_nat bn else Z.to_nat (bn + 1).
Definition baddr (V : Z -> list Z) (i : inode) (bn : Z) : Z := slot V i (bslot bn).

(** A block that a file may own. *)
Definition own_block (s : kstate) (V : Z -> list Z) (b : Z) : Prop :=
  data_block s V b /\ used V b = true.

Record file_ok (s : kstate) (V : Z -> list Z) (i : inode) : Prop := {
  fo_dev : i_dev i = ROOTDEV;
  fo_len : length (i_addrs i) = 13%nat;
  fo_own : forall n, (n < nslots)%nat -> slot V i n <> 0 -> own_block s V (slot V i n);
  fo_inj : forall n m, (n < nslots)%nat -> (m < nslots)%nat ->
    slot V i n = slot V i m -> slot V i n <> 0 -> n = m
}.

(** ** The reference model *)

(** The first free block before the log. *)
Definition find_free (V : Z -> list Z) : option Z :=
  Z.of_nat <$> findi (fun b => negb (used V b)) (seqZ 0 (sb_size (sb_of V) - sb_nlog (sb_of V))).

Definition set_slot (n : nat) (b : Z) (i : inode) : inode :=
  iset_addrs (<[n := b]> (i_addrs i)) i.

(** Result of a step: the blocks, the inode, the block number, the blocks written. *)
Abbreviation step := ((Z -> list Z) * inode * Z * list Z)%type.

Definition r_slot (V : Z -> list Z) (i : inode) (n : nat) : option step :=
  if slot V i n =? 0 then
    b ← find_free V;
    Some (allocated V b, set_slot n b i, b, [bitmap_block V b; b])
  else Some (V, i, slot V i n, []).

Definition r_bmap (V : Z -> list Z) (i : inode) (bn : Z) : option step :=
  if bn <? NDIRECT then r_slot V i (Z.to_nat bn)
  else if bn - NDIRECT <? NINDIRECT then
    '(V1, i1, a, fp) ← r_slot V i (Z.to_nat NDIRECT);
    let o := (4 * Z.to_nat (bn - NDIRECT))%nat in
    let e := get32 (V1 a) o in
    if e =? 0 then
      b ← find_free V1;
      Some (upd (allocated V1 b) a (put32 (V1 a) o b), i1, b, fp ++ [bitmap_block V1 b; b; a])
    else Some (V1, i1, e, fp)
  else None.

(** The loop of [writei]: [src] is what is left to write, at [off]. *)
Fixpoint r_write (fuel : nat) (V : Z -> list Z) (i : inode) (src : list Z) (off : Z)
    : option (((Z -> list Z) * inode * Z) * list Z) :=
  match fuel with
  | O => None
  | S fuel =>
      if (length src =? 0)%nat then Some ((V, i, off), []) else
      '(V1, i1, a, fp) ← r_bmap V i (off / BSIZE);
      let m := Nat.min (length src) (Z.to_nat (BSIZE - off mod BSIZE)) in
      let V2 := upd V1 a (splice (V1 a) (Z.to_nat (off mod BSIZE)) (take m src)) in
      '(r, fp') ← r_write fuel V2 i1 (drop m src) (off + Z.of_nat m);
      Some (r, fp ++ a :: fp')
  end.

(** ** Free blocks *)

Lemma find_free_first s V b : free_map_ok s V -> find_free V = Some b -> first_free V b /\ home s b.
Proof.
  intros Hfm. pose proof (fm_start _ _ Hfm) as Hst. pose proof (fm_size _ _ Hfm) as Hsz.
  unfold find_free. intros (k & Hk & ->)%fmap_Some.
  apply findi_Some in Hk as [(x & Hx & Hu%negb_true_iff) Hmin].
  apply lookup_seqZ in Hx as [-> Hk]. rewrite Z.add_0_l in Hu. split; [|unfold home; lia]. split; [lia|]. split; [done|].
  intros b' Hb'. specialize (Hmin (Z.to_nat b') b').
  apply negb_false_iff, Hmin; [lia|]. apply lookup_seqZ. lia.
Qed.


(** ** Changing blocks that are not metadata *)

Lemma used_data s V b d x :
  fs_ok s V -> data_block s V b -> 0 <= x < sb_size (sb_of V) ->
  used (upd V b d) x = used V x.
Proof.
  intros Hfs Hb Hx. destruct (data_block_ne _ _ _ Hfs Hb) as (_ & H1 & Hne).
  by apply used_upd_data; [|apply Hne].
Qed.

Lemma sb_data s V b d : fs_ok s V -> data_block s V b -> sb_of (upd V b d) = sb_of V.
Proof. intros Hfs Hb. apply sb_upd. by eapply data_block_ne. Qed.

Lemma free_map_data s V b d :
  free_map_ok s V -> data_block s V b -> length d = 512%nat -> free_map_ok s (upd V b d).
Proof.
  intros Hfm Hb Hd. pose proof (fm_fs _ _ Hfm) as Hfs.
  eapply free_map_keep; [exact Hfm|done|by eapply sb_data|apply upd_len; [apply Hfm|done]|].
  intros x Hx Hu. left. by rewrite (used_data s).
Qed.

(** Ownership depends on the superblock and the free map only. *)
Lemma own_block_mono s V V' b :
  sb_of V' = sb_of V -> (used V b = true -> used V' b = true) -> own_block s V b -> own_block s V' b.
Proof.
  intros Hsb Hu [Hd Hub]. split; [|auto]. unfold data_block, data_start, bitmap_block in *.
  by rewrite Hsb.
Qed.

Lemma data_range s V b :
  free_map_ok s V -> data_block s V b -> 0 <= b < sb_size (sb_of V).
Proof.
  intros [Hfs _ Hsz _ _] [H1 H2]. destruct Hfs as [Hs Hn Hb]. unfold data_start in H1.
  assert (0 <= bitmap_block V (sb_size (sb_of V) - 1)).
  { unfold bitmap_block, BBLOCK, IPB.
    assert (0 <= (sb_size (sb_of V) - 1) / BPB) by (apply Z.div_pos; [lia|done]).
    assert (0 <= sb_ninodes (sb_of V) / 8) by (apply Z.div_pos; lia). lia. }
  lia.
Qed.

Lemma own_block_data s V a b d :
  free_map_ok s V -> data_block s V a -> own_block s V b -> own_block s (upd V a d) b.
Proof.
  intros Hfm Ha Hb. pose proof (fm_fs _ _ Hfm) as Hfs. eapply own_block_mono; [by eapply sb_data| |done].
  intros Hu. rewrite (used_data s); [done..|]. eapply data_range; [done|apply Hb].
Qed.

(** ** A fresh block *)

Section fresh.
Context (s : kstate) (V : Z -> list Z) (b : Z).
Context (Hfm : free_map_ok s V) (Hfree : find_free V = Some b).

Lemma fresh_data : data_block s V b /\ used V b = false /\ 0 <= b < sb_size (sb_of V).
Proof using Hfm Hfree.
  destruct (find_free_first _ _ _ Hfm Hfree) as [(Hb & Hu & _) Hh]. split; [by eapply free_not_meta|done].
Qed.

Lemma fresh_ne x : own_block s V x -> x <> b.
Proof using Hfm Hfree. intros [_ Hx] ->. destruct fresh_data as (_ & Hu & _). congruence. Qed.

Lemma fresh_nz : b <> 0.
Proof using Hfm Hfree.
  destruct fresh_data as (Hd & _). destruct (fm_fs _ _ Hfm) as [Hs Hn _].
  destruct Hd as [Hd _]. unfold data_start, bitmap_block, BBLOCK, IPB in Hd.
  assert (0 <= (sb_size (sb_of V) - 1) / BPB) by (apply Z.div_pos; [lia|done]).
  assert (0 <= sb_ninodes (sb_of V) / 8) by (apply Z.div_pos; lia). lia.
Qed.

(** Blocks in use that are not in the bitmap are unchanged by allocation. *)
Lemma fresh_keep x : own_block s V x -> allocated V b x = V x.
Proof using Hfm Hfree.
  intros Hx. pose proof (fresh_ne x Hx) as Hne. destruct fresh_data as (_ & _ & Hb).
  destruct (data_block_ne _ _ _ (fm_fs _ _ Hfm) (proj1 Hx)) as (_ & _ & Hnb).
  unfold allocated. rewrite !upd_ne; [done|by apply Hnb|done].
Qed.

Lemma fresh_own x : own_block s V x -> own_block s (allocated V b) x.
Proof using Hfm Hfree.
  intros Hx. destruct fresh_data as (Hd & _ & Hb).
  eapply own_block_mono; [by apply (sb_allocated s)| |done].
  intros Hu. assert (0 <= x < sb_size (sb_of V)) as Hr by (eapply data_range; [done|apply Hx]).
  rewrite (used_allocated s V) by done. by case_decide.
Qed.

Lemma fresh_owned : own_block s (allocated V b) b.
Proof using Hfm Hfree.
  destruct fresh_data as (Hd & _ & Hb). split.
  - unfold data_block, data_start, bitmap_block in *. by rewrite (sb_allocated s) by done.
  - rewrite (used_allocated s V) by done. by rewrite decide_True.
Qed.

Lemma fresh_map : free_map_ok s (allocated V b).
Proof using Hfm Hfree. destruct fresh_data as (Hd & _ & Hb). by apply (free_map_allocated s V). Qed.

Lemma fresh_zero : allocated V b b = zero_block.
Proof. unfold allocated. apply upd_eq. Qed.
End fresh.

(** ** Well-formed files under a new slot *)

Lemma file_ok_set s V i V' i' n b :
  file_ok s V i -> i_dev i' = i_dev i -> length (i_addrs i') = 13%nat -> (n < nslots)%nat ->
  (forall m, (m < nslots)%nat -> slot V' i' m = if decide (m = n) then b else slot V i m) ->
  (forall x, own_block s V x -> own_block s V' x) -> own_block s V' b ->
  (forall m, (m < nslots)%nat -> slot V i m <> 0 -> slot V i m <> b) ->
  file_ok s V' i'.
Proof.
  intros [Hdev Hlen Hown Hinj] Hd Hl Hn Hs Ho Hb Hf. split.
  - congruence.
  - done.
  - intros m Hm. rewrite Hs by done. case_decide; [done|]. intros Hnz. by apply Ho, Hown.
  - intros m k Hm Hk. rewrite !Hs by done. repeat case_decide; subst; try done.
    + intros E Hnz. exfalso. by apply (Hf k Hk); [congruence|].
    + intros E Hnz. exfalso. by apply (Hf m Hm); [congruence|].
    + by apply Hinj.
Qed.

(** Other blocks' contents do not matter to a file. *)
Lemma slot_agree V V' i m :
  (ind_block i <> 0 -> V' (ind_block i) = V (ind_block i)) -> slot V' i m = slot V i m.
Proof.
  intros HV. unfold slot. destruct (m <? 13)%nat; [done|].
  destruct (Z.eqb_spec (ind_block i) 0); [done|]. by rewrite HV.
Qed.

Lemma file_ok_agree s V V' i :
  file_ok s V i -> (ind_block i <> 0 -> V' (ind_block i) = V (ind_block i)) ->
  (forall x, own_block s V x -> own_block s V' x) -> file_ok s V' i.
Proof.
  intros [Hdev Hlen Hown Hinj] HV Ho.
  assert (forall m, slot V' i m = slot V i m) as E by (intros m; by apply slot_agree).
  split; try done.
  - intros n Hn. rewrite E. intros Hz. by apply Ho, Hown.
  - intros n m Hn Hm. rewrite !E. by apply Hinj.
Qed.

Lemma ind_slot V i : slot V i 12 = ind_block i.
Proof. done. Qed.

Lemma ind_own s V i : file_ok s V i -> ind_block i <> 0 -> own_block s V (ind_block i).
Proof. intros Hok Hnz. rewrite <- (ind_slot V). apply (fo_own _ _ _ Hok); [unfold nslots; lia|done]. Qed.

Lemma get32_zero_block o : get32 zero_block o = 0.
Proof.
  assert (forall k, byte_at zero_block k = 0) as Hz.
  { intros k. unfold byte_at, zero_block. destruct (decide (k < 512)%nat).
    - by rewrite lookup_replicate_2.
    - rewrite lookup_ge_None_2; [done|]. rewrite length_replicate. lia. }
  unfold get32. by rewrite !Hz.
Qed.

(** The slots after a direct slot, or the indirect block's slot, is set to a fresh block. *)
Lemma slot_set_direct V V' i n b m :
  (n < 13)%nat -> length (i_addrs i) = 13%nat -> (m < nslots)%nat ->
  (ind_block i <> 0 -> V' (ind_block i) = V (ind_block i)) ->
  (n = 12%nat -> ind_block i = 0 /\ V' b = zero_block) ->
  slot V' (set_slot n b i) m = if decide (m = n) then b else slot V i m.
Proof.
  intros Hn Hl Hm HV H12. unfold slot, ind_block, set_slot. cbn [i_addrs iset_addrs].
  destruct (Nat.ltb_spec m 13).
  - case_decide as E; [subst; by rewrite list_lookup_insert_eq by lia|].
    by rewrite list_lookup_insert_ne by done.
  - rewrite decide_False by lia. destruct (decide (n = 12%nat)) as [->|Hne].
    + destruct (H12 eq_refl) as [H0 Hz]. unfold ind_block in H0.
      rewrite list_lookup_insert_eq by lia. simpl. rewrite H0, Z.eqb_refl.
      destruct (b =? 0); [done|]. by rewrite Hz, get32_zero_block.
    + rewrite list_lookup_insert_ne by done. unfold ind_block in HV.
      destruct (Z.eqb_spec (default 0 (i_addrs i !! 12%nat)) 0) as [E0|Hnz]; [done|].
      by rewrite HV.
Qed.

(** ** What mapping slot [n] does to a file *)

Record grown (s : kstate) (V : Z -> list Z) (i : inode) (V' : Z -> list Z) (i' : inode)
    (n : nat) (a : Z) (fp : list Z) : Prop := {
  gr_file : file_ok s V' i';
  gr_map : free_map_ok s V';
  gr_sb : sb_of V' = sb_of V;
  gr_own : forall x, own_block s V x -> own_block s V' x;
  gr_inode : i' = iset_addrs (i_addrs i') i;
  gr_at : slot V' i' n = a /\ a <> 0;
  gr_hit : own_block s V a -> slot V i n = a;
  gr_mapped : slot V i n <> 0 -> a = slot V i n;
  gr_other : forall m, (m < nslots)%nat -> m <> n -> m <> 12%nat -> slot V' i' m = slot V i m;
  gr_new : V' a = if slot V i n =? 0 then zero_block else V a;
  gr_fp : forall x, x ∉ fp -> V' x = V x;
  gr_fp_own : forall x, x ∈ fp -> own_block s V x -> x = ind_block i;
  gr_fp_kind : forall x, x ∈ fp -> data_block s V x \/
    exists b, 0 <= b < sb_size (sb_of V) /\ x = bitmap_block V b
}.

(** Nothing to do for a slot that is mapped. *)
Lemma grown_refl s V i n :
  file_ok s V i -> free_map_ok s V -> slot V i n <> 0 -> grown s V i V i n (slot V i n) [].
Proof.
  intros Hok Hfm Hnz. split; try done; try void.
  - by destruct i.
  - by destruct (Z.eqb_spec (slot V i n) 0).
Qed.

Lemma grown_fresh s V i n b :
  file_ok s V i -> free_map_ok s V -> (n < 13)%nat -> slot V i n = 0 -> find_free V = Some b ->
  grown s V i (allocated V b) (set_slot n b i) n b [bitmap_block V b; b].
Proof.
  intros Hok Hfm Hn H0 Hff.
  pose proof (fresh_data s V b Hfm Hff) as (Hd & Hu & Hb).
  pose proof (fo_len _ _ _ Hok) as Hlen.
  assert (ind_block i <> 0 -> allocated V b (ind_block i) = V (ind_block i)) as Hind.
  { intros Hnz. by eapply fresh_keep, ind_own. }
  assert (forall m, (m < nslots)%nat -> slot (allocated V b) (set_slot n b i) m
    = if decide (m = n) then b else slot V i m) as Hslot.
  { intros m Hm. apply slot_set_direct; try done. intros ->. split; [|apply fresh_zero].
    by rewrite <- (ind_slot V). }
  assert (n < nslots)%nat as Hns by (unfold nslots; lia).
  split.
  - eapply file_ok_set; [exact Hok|done| |exact Hns|exact Hslot| | |].
    + simpl. by rewrite length_insert.
    + intros x. by eapply fresh_own.
    + by eapply fresh_owned.
    + intros m Hm Hnz. by eapply fresh_ne, (fo_own _ _ _ Hok).
  - by eapply fresh_map.
  - by apply (sb_allocated s).
  - intros x. by eapply fresh_own.
  - by destruct i.
  - split; [rewrite Hslot by done; by rewrite decide_True|by eapply fresh_nz].
  - intros Hox. by destruct (fresh_ne s V b Hfm Hff b).
  - done.
  - intros m Hm Hne _. rewrite Hslot by done. by rewrite decide_False.
  - rewrite H0, Z.eqb_refl. apply fresh_zero.
  - intros x. rewrite !not_elem_of_cons. intros (H1 & H2 & _). unfold allocated. by rewrite !upd_ne.
  - intros x Hx Hox. exfalso. apply elem_of_cons in Hx as [->|Hx].
    + destruct (data_block_ne _ _ _ (fm_fs _ _ Hfm) (proj1 Hox)) as (_ & _ & Hnb). by apply (Hnb b).
    + apply list_elem_of_singleton in Hx as ->. by eapply fresh_ne.
  - intros x [->|Hx]%elem_of_cons; [right; by exists b|].
    apply list_elem_of_singleton in Hx as ->. by left.
Qed.

Lemma r_slot_grown s V i n V' i' a fp :
  file_ok s V i -> free_map_ok s V -> (n < 13)%nat -> r_slot V i n = Some (V', i', a, fp) ->
  grown s V i V' i' n a fp.
Proof.
  intros Hok Hfm Hn. unfold r_slot. destruct (Z.eqb_spec (slot V i n) 0) as [H0|Hnz].
  - destruct (find_free V) as [b|] eqn:Hff; [|done]. intros [= <- <- <- <-]. by apply grown_fresh.
  - intros [= <- <- <- <-]. by apply grown_refl.
Qed.

(** Setting an entry of the indirect block to a fresh block. *)
Lemma grown_entry s V i k b :
  let a := ind_block i in
  let V' := upd (allocated V b) a (put32 (V a) (4 * k) b) in
  file_ok s V i -> free_map_ok s V -> (k < 128)%nat -> a <> 0 ->
  get32 (V a) (4 * k) = 0 -> find_free V = Some b ->
  grown s V i V' i (13 + k) b [bitmap_block V b; b; a].
Proof.
  intros a V' Hok Hfm Hk Ha H0 Hff.
  pose proof (fresh_data s V b Hfm Hff) as (Hd & Hu & Hb).
  pose proof (ind_own _ _ _ Hok Ha) as Hao. fold a in Hao.
  pose proof (fresh_ne s V b Hfm Hff a Hao) as Hab.
  assert (length (V a) = 512%nat) as Hla.
  { apply (fm_len _ _ Hfm). by eapply data_block_ne; [apply Hfm|apply Hao]. }
  assert (length (put32 (V a) (4 * k) b) = 512%nat) as Hlp by (rewrite length_put32; lia).
  assert (data_block s (allocated V b) a) as Hda by (eapply fresh_own; [done..|exact Hao]).
  assert (slot V i (13 + k) = 0) as Hs0.
  { unfold slot. destruct (Nat.ltb_spec (13 + k) 13); [lia|]. fold a. destruct (Z.eqb_spec a 0); [done|].
    by replace (4 * (13 + k - 13))%nat with (4 * k)%nat by lia. }
  assert (forall x, own_block s V x -> own_block s V' x) as Hown.
  { intros x Hx. apply own_block_data; [by eapply fresh_map|done|by eapply fresh_own]. }
  assert (forall m, (m < nslots)%nat -> slot V' i m = if decide (m = (13 + k)%nat) then b else slot V i m) as Hslot.
  { intros m Hm. unfold slot. destruct (Nat.ltb_spec m 13); [by rewrite decide_False by lia|].
    fold a. destruct (Z.eqb_spec a 0); [done|]. unfold V'. rewrite upd_eq. unfold nslots in Hm.
    destruct (decide (m = (13 + k)%nat)) as [->|Hne].
    - replace (4 * (13 + k - 13))%nat with (4 * k)%nat by lia. rewrite get32_put32_same by lia.
      apply u32_small. pose proof (fs_size _ _ (fm_fs _ _ Hfm)). lia.
    - apply get32_put32_other; lia. }
  split.
  - eapply file_ok_set; [exact Hok|done|by apply Hok| |exact Hslot|exact Hown| |].
    + unfold nslots. lia.
    + apply own_block_data; [by eapply fresh_map|done|by eapply fresh_owned].
    + intros m Hm Hnz. by eapply fresh_ne, (fo_own _ _ _ Hok).
  - apply free_map_data; [by eapply fresh_map|done..].
  - unfold V'. erewrite sb_data; [by apply (sb_allocated s)|by eapply fm_fs, fresh_map|done].
  - done.
  - by destruct i.
  - split; [|by eapply fresh_nz]. rewrite Hslot by (unfold nslots; lia). by rewrite decide_True.
  - intros Hox. by destruct (fresh_ne s V b Hfm Hff b).
  - by rewrite Hs0.
  - intros m Hm Hne _. rewrite Hslot by done. by rewrite decide_False.
  - rewrite Hs0, Z.eqb_refl. unfold V'. rewrite upd_ne by done. apply fresh_zero.
  - intros x. rewrite !not_elem_of_cons. intros (H1 & H2 & H3 & _). unfold V', allocated. by rewrite !upd_ne.
  - intros x Hx Hox. apply elem_of_cons in Hx as [->|Hx].
    { destruct (data_block_ne _ _ _ (fm_fs _ _ Hfm) (proj1 Hox)) as (_ & _ & Hnb). by destruct (Hnb b). }
    apply elem_of_cons in Hx as [->|Hx]; [by destruct (fresh_ne s V b Hfm Hff b Hox)|].
    by apply list_elem_of_singleton in Hx.
  - intros x [->|Hx]%elem_of_cons; [right; by exists b|]. left.
    apply elem_of_cons in Hx as [->|Hx]; [done|]. apply list_elem_of_singleton in Hx as ->. apply Hao.
Qed.

(** Mapping the indirect block first, then an entry of it. *)
Lemma grown_trans s V i V1 i1 V2 i2 n a1 a fp1 fp2 :
  file_ok s V i -> (13 <= n < nslots)%nat ->
  grown s V i V1 i1 12 a1 fp1 -> grown s V1 i1 V2 i2 n a fp2 ->
  grown s V i V2 i2 n a (fp1 ++ fp2).
Proof.
  intros Hok Hn [F1 M1 B1 O1 I1 [A1 Z1] T1 K1 S1 N1 P1 Q1 R1]
    [F2 M2 B2 O2 I2 [A2 Z2] T2 K2 S2 N2 P2 Q2 R2].
  assert (slot V1 i1 n = slot V i n) as En by (apply S1; lia).
  assert (ind_block i1 = a1) as Ei by (by rewrite <- (ind_slot V1)).
  split; try done.
  - congruence.
  - auto.
  - rewrite I2, I1. by destruct i.
  - intros Hox. rewrite <- En. auto.
  - rewrite <- En. done.
  - intros m Hm H1 H2. rewrite S2 by done. by apply S1.
  - rewrite N2, En. destruct (Z.eqb_spec (slot V i n) 0) as [?|Hnz]; [done|].
    assert (own_block s V (slot V i n)) as Hox by (apply (fo_own _ _ _ Hok); [lia|done]).
    rewrite (K2 ltac:(by rewrite En)), En. apply P1. intros Hin. apply (Q1 _ Hin) in Hox.
    rewrite <- (ind_slot V) in Hox. apply (fo_inj _ _ _ Hok) in Hox; [lia|lia|unfold nslots; lia|done].
  - intros x. rewrite not_elem_of_app. intros [H1 H2]. rewrite P2 by done. by apply P1.
  - intros x [Hx|Hx]%elem_of_app Hox; [by apply Q1|].
    pose proof (Q2 x Hx (O1 x Hox)) as E. rewrite Ei in E. subst x.
    rewrite <- (ind_slot V). symmetry. by apply T1.
  - intros x [Hx|Hx]%elem_of_app; [by apply R1|]. destruct (R2 x Hx) as [Hd|(b & Hb & ->)].
    + left. unfold data_block, data_start, bitmap_block in *. by rewrite B1 in Hd.
    + right. rewrite B1 in Hb. exists b. split; [done|]. unfold bitmap_block. by rewrite B1.
Qed.

Lemma bslot_lt bn : 0 <= bn < MAXFILE -> (bslot bn < nslots)%nat /\ bslot bn <> 12%nat.
Proof.
  unfold bslot, MAXFILE, NDIRECT, NINDIRECT, nslots. intros Hbn. destruct (Z.ltb_spec bn 12); lia.
Qed.

Lemma bslot_inj bn bn' : 0 <= bn -> 0 <= bn' -> bslot bn = bslot bn' -> bn = bn'.
Proof.
  unfold bslot, NDIRECT. intros H1 H2. destruct (Z.ltb_spec bn 12), (Z.ltb_spec bn' 12); lia.
Qed.

(** The reference model of [bmap] maps the block's slot. *)
Lemma r_bmap_grown s V i bn V' i' a fp :
  file_ok s V i -> free_map_ok s V -> 0 <= bn < MAXFILE ->
  r_bmap V i bn = Some (V', i', a, fp) -> grown s V i V' i' (bslot bn) a fp.
Proof.
  intros Hok Hfm Hbn. unfold r_bmap, bslot. destruct (Z.ltb_spec bn NDIRECT) as [Hlt|Hge].
  { apply r_slot_grown; [done..|]. unfold NDIRECT in Hlt. lia. }
  destruct (Z.ltb_spec (bn - NDIRECT) NINDIRECT) as [Hlt|]; [|done].
  destruct (r_slot V i (Z.to_nat NDIRECT)) as [[[[V1 i1] a1] fp1]|] eqn:E1; [|done].
  cbn [mbind option_bind]. cbv zeta.
  apply (r_slot_grown s) in E1; [|done|done|unfold NDIRECT; lia].
  change (Z.to_nat NDIRECT) with 12%nat in E1. unfold NDIRECT, NINDIRECT in *.
  set (k := Z.to_nat (bn - 12)). replace (Z.to_nat (bn + 1)) with (13 + k)%nat by lia.
  pose proof E1 as [F1 M1 _ _ _ [A1 Z1] _ _ _ _ _ _ _]. rewrite ind_slot in A1. rewrite <- A1 in *.
  assert (get32 (V1 (ind_block i1)) (4 * k) = slot V1 i1 (13 + k)) as Es.
  { unfold slot. destruct (Nat.ltb_spec (13 + k) 13); [lia|]. destruct (Z.eqb_spec (ind_block i1) 0); [done|].
    by replace (4 * (13 + k - 13))%nat with (4 * k)%nat by lia. }
  destruct (Z.eqb_spec (get32 (V1 (ind_block i1)) (4 * k)) 0) as [H0|Hnz].
  - destruct (find_free V1) as [b|] eqn:Hff; [|done].
    cbn [mbind option_bind]. intros [= <- <- <- <-].
    eapply grown_trans; [done|unfold nslots; lia|exact E1|]. apply grown_entry; [done|done|lia|done..].
  - rewrite Es in *. intros [= <- <- <- <-]. rewrite <- (app_nil_r fp1).
    eapply grown_trans; [done|unfold nslots; lia|exact E1|]. by apply grown_refl.
Qed.

(** ** Contents *)

(** Byte [x] of the file. *)
Definition fbyte (V : Z -> list Z) (i : inode) (x : Z) : Z :=
  byte_at (V (baddr V i (x / BSIZE))) (Z.to_nat (x mod BSIZE)).

Definition file_bytes (V : Z -> list Z) (i : inode) (off : Z) (n : nat) : list Z :=
  map (fun k => fbyte V i (off + Z.of_nat k)) (seq 0 n).

Lemma block_of x : 0 <= x < MAXFILE * BSIZE -> 0 <= x / BSIZE < MAXFILE /\ 0 <= x mod BSIZE < BSIZE.
Proof.
  intros Hx. unfold BSIZE in *. split; [|apply Z.mod_pos_bound; lia].
  split; [apply Z.div_pos; lia|apply Z.div_lt_upper_bound; lia].
Qed.

Section grown_facts.
Context (s : kstate) (V : Z -> list Z) (i : inode) (V' : Z -> list Z) (i' : inode).
Context (n : nat) (a : Z) (fp : list Z).
Context (Hok : file_ok s V i) (Hg : grown s V i V' i' n a fp).

(** The blocks a file has stay in place. *)
Lemma grown_slot m :
  (m < nslots)%nat -> m <> 12%nat -> slot V i m <> 0 -> slot V' i' m = slot V i m.
Proof using Hg.
  intros Hm H12 Hnz. destruct (decide (m = n)) as [->|Hne]; [|by apply (gr_other _ _ _ _ _ _ _ _ Hg)].
  rewrite (proj1 (gr_at _ _ _ _ _ _ _ _ Hg)). by apply (gr_mapped _ _ _ _ _ _ _ _ Hg).
Qed.

(** And their contents. *)
Lemma grown_data m :
  (m < nslots)%nat -> m <> 12%nat -> slot V i m <> 0 -> V' (slot V i m) = V (slot V i m).
Proof using Hok Hg.
  intros Hm H12 Hnz. apply (gr_fp _ _ _ _ _ _ _ _ Hg). intros Hin.
  assert (own_block s V (slot V i m)) as Ho by by apply (fo_own _ _ _ Hok).
  apply (gr_fp_own _ _ _ _ _ _ _ _ Hg _ Hin) in Ho. rewrite <- (ind_slot V) in Ho.
  apply H12, (fo_inj _ _ _ Hok); try done. unfold nslots. lia.
Qed.
End grown_facts.

(** Storing into the block of slot [n] keeps the file well formed and all its slots. *)
Lemma store_slot s V i n d :
  file_ok s V i -> free_map_ok s V -> (n < nslots)%nat -> n <> 12%nat -> slot V i n <> 0 ->
  length d = 512%nat ->
  let V' := upd V (slot V i n) d in
  file_ok s V' i /\ free_map_ok s V' /\ (forall m, slot V' i m = slot V i m) /\
  (forall x, own_block s V x -> own_block s V' x) /\ sb_of V' = sb_of V.
Proof.
  intros Hok Hfm Hn H12 Hnz Hd V'.
  assert (own_block s V (slot V i n)) as Ho by by apply (fo_own _ _ _ Hok).
  assert (slot V i n <> ind_block i) as Hne.
  { rewrite <- (ind_slot V). intros E. apply H12, (fo_inj _ _ _ Hok); try done. unfold nslots. lia. }
  assert (ind_block i <> 0 -> V' (ind_block i) = V (ind_block i)) as Hind
    by (intros _; unfold V'; by rewrite upd_ne by congruence).
  assert (forall x, own_block s V x -> own_block s V' x) as Hown
    by (intros x Hx; apply own_block_data; [done|apply Ho|done]).
  split_and!; try done.
  - by eapply file_ok_agree.
  - apply free_map_data; [done|apply Ho|done].
  - intros m. by apply slot_agree.
  - eapply sb_data; [apply Hfm|apply Ho].
Qed.

(** ** The effect of [r_write] *)

Record written (s : kstate) (V : Z -> list Z) (i : inode) (V' : Z -> list Z) (i' : inode)
    (off : Z) (src : list Z) : Prop := {
  wr_file : file_ok s V' i';
  wr_map : free_map_ok s V';
  wr_sb : sb_of V' = sb_of V;
  wr_own : forall x, own_block s V x -> own_block s V' x;
  wr_inode : i' = iset_addrs (i_addrs i') i;
  wr_in : forall x, off <= x < off + Z.of_nat (length src) ->
    baddr V' i' (x / BSIZE) <> 0 /\ Some (fbyte V' i' x) = src !! Z.to_nat (x - off);
  wr_out : forall x, 0 <= x < MAXFILE * BSIZE -> ~ off <= x < off + Z.of_nat (length src) ->
    baddr V i (x / BSIZE) <> 0 ->
    baddr V' i' (x / BSIZE) <> 0 /\ fbyte V' i' x = fbyte V i x
}.

Lemma same_block off x len :
  0 <= off -> off mod BSIZE + len <= BSIZE -> off <= x < off + len ->
  x / BSIZE = off / BSIZE /\ x mod BSIZE = off mod BSIZE + (x - off).
Proof.
  intros Ho Hl Hx. unfold BSIZE in *. pose proof (Z.mod_pos_bound off 512 ltac:(lia)).
  assert (x = 512 * (off / 512) + (off mod 512 + (x - off))) as E
    by (pose proof (Z.div_mod off 512); lia).
  split.
  - symmetry. apply (Z.div_unique _ _ _ (off mod 512 + (x - off))); [lia|done].
  - symmetry. apply (Z.mod_unique _ _ (off / 512)); [lia|done].
Qed.

Section chunk.
Context (s : kstate) (V : Z -> list Z) (i : inode) (off : Z) (bytes : list Z).
Context (V1 : Z -> list Z) (i1 : inode) (a : Z) (fp : list Z).
Context (Hok : file_ok s V i) (Hfm : free_map_ok s V).
Context (H0 : 0 <= off) (Hmax : off < MAXFILE * BSIZE).
Context (Hlen : off mod BSIZE + Z.of_nat (length bytes) <= BSIZE).
Context (Hg : grown s V i V1 i1 (bslot (off / BSIZE)) a fp).
Let d : list Z := splice (V1 a) (Z.to_nat (off mod BSIZE)) bytes.

Lemma chunk_len : length (V1 a) = 512%nat /\ length d = 512%nat.
Proof using Hg Hlen H0 Hmax.
  destruct (block_of off ltac:(lia)) as [Hb Hm]. destruct (bslot_lt _ Hb) as [Hns _].
  assert (length (V1 a) = 512%nat) as Hl.
  { apply (fm_len _ _ (gr_map _ _ _ _ _ _ _ _ Hg)).
    destruct (gr_at _ _ _ _ _ _ _ _ Hg) as [<- Hz].
    eapply data_block_ne; [apply (gr_map _ _ _ _ _ _ _ _ Hg)|].
    apply (fo_own _ _ _ (gr_file _ _ _ _ _ _ _ _ Hg)); done. }
  split; [done|]. unfold d. rewrite length_splice; [done|]. unfold BSIZE in *. lia.
Qed.

(** One iteration of the loop of [writei]. *)
Lemma chunk_written : written s V i (upd V1 a d) i1 off bytes.
Proof using Hok Hg Hlen H0 Hmax.
  pose proof chunk_len as [Hla Hld]. destruct (block_of off ltac:(lia)) as [Hb Hm].
  destruct (bslot_lt _ Hb) as [Hns H12].
  pose proof Hg as [F1 M1 B1 O1 I1 [A1 Z1] T1 K1 S1 N1 P1 Q1 R1].
  destruct (store_slot s V1 i1 (bslot (off / BSIZE)) d) as (F2 & M2 & S2 & O2 & B2); try done.
  { by rewrite A1. }
  rewrite A1 in F2, M2, S2, O2, B2. split; try done; [congruence|auto|..].
  - intros x Hx. destruct (same_block off x (Z.of_nat (length bytes))) as [Eb Em]; [done..|].
    unfold fbyte, baddr. rewrite !S2, Eb, A1, upd_eq. split; [done|].
    unfold byte_at, d. rewrite lookup_splice_in by (unfold BSIZE in *; lia). rewrite Em.
    replace (Z.to_nat (off mod BSIZE + (x - off)) - Z.to_nat (off mod BSIZE))%nat
      with (Z.to_nat (x - off)) by lia.
    destruct (lookup_lt_is_Some_2 bytes (Z.to_nat (x - off)) ltac:(lia)) as [y ->]. done.
  - intros x Hx Hout Hnz. destruct (block_of x Hx) as [Hbx Hmx]. destruct (bslot_lt _ Hbx) as [Hnsx H12x].
    assert (slot V1 i1 (bslot (x / BSIZE)) = slot V i (bslot (x / BSIZE))) as Es by by eapply grown_slot.
    unfold fbyte, baddr in *. rewrite !S2, Es. split; [done|].
    pose proof (grown_data s V i V1 i1 _ a fp Hok Hg _ Hnsx H12x Hnz) as Ed.
    destruct (decide (x / BSIZE = off / BSIZE)) as [E|E].
    + rewrite E in *. rewrite A1 in Es. rewrite <- Es in *. rewrite upd_eq, <- Ed.
      unfold byte_at, d. f_equal. apply lookup_splice_out; [unfold BSIZE in *; lia|].
      intros Hin. apply Hout. unfold BSIZE in *.
      rewrite (Z.div_mod x 512), (Z.div_mod off 512) by lia. rewrite E. lia.
    + rewrite upd_ne; [by rewrite Ed|]. intros Ea. apply E. apply bslot_inj; [lia|lia|].
      apply (fo_inj _ _ _ F1); try done; rewrite ?Es, ?A1; done.
Qed.
End chunk.

Lemma written_nil s V i off : file_ok s V i -> free_map_ok s V -> written s V i V i off [].
Proof.
  intros Hok Hfm. split; try done.
  - by destruct i.
  - intros x Hx. simpl in Hx. lia.
Qed.

Lemma written_app s V i V1 i1 V2 i2 off src1 src2 :
  written s V i V1 i1 off src1 ->
  written s V1 i1 V2 i2 (off + Z.of_nat (length src1)) src2 ->
  0 <= off -> off + Z.of_nat (length src1) <= MAXFILE * BSIZE ->
  written s V i V2 i2 off (src1 ++ src2).
Proof.
  intros [F1 M1 B1 O1 I1 W1 N1] [F2 M2 B2 O2 I2 W2 N2] H0 Hmax.
  split; try done; rewrite ?length_app; [congruence|auto|by rewrite I2, I1; destruct i|..].
  - intros x Hx. destruct (decide (x < off + Z.of_nat (length src1))).
    + destruct (W1 x ltac:(lia)) as [Hz Hv]. destruct (N2 x ltac:(lia) ltac:(lia) Hz) as [Hz2 Hv2].
      split; [done|]. rewrite Hv2, Hv. by rewrite lookup_app_l by lia.
    + destruct (W2 x ltac:(lia)) as [Hz Hv]. split; [done|]. rewrite Hv, lookup_app_r by lia.
      f_equal. lia.
  - intros x Hx Hout Hz. destruct (N1 x Hx ltac:(lia) Hz) as [Hz1 Hv1].
    destruct (N2 x Hx ltac:(lia) Hz1) as [Hz2 Hv2]. split; [done|]. congruence.
Qed.

(** The loop of [writei] writes [src] at [off] and nothing else of the file. *)
Lemma r_write_written s fuel V i src off V' i' off' fp :
  file_ok s V i -> free_map_ok s V -> 0 <= off -> off + Z.of_nat (length src) <= MAXFILE * BSIZE ->
  r_write fuel V i src off = Some ((V', i', off'), fp) ->
  written s V i V' i' off src /\ off' = off + Z.of_nat (length src).
Proof.
  revert V i src off fp. induction fuel as [|fuel IH]; intros V i src off fp Hok Hfm H0 Hmax; [done|].
  cbn [r_write]. destruct (Nat.eqb_spec (length src) 0) as [E|E].
  { intros [= <- <- <- <-]. destruct src; [|done]. split; [by apply written_nil|]. simpl. lia. }
  destruct (block_of off ltac:(lia)) as [Hb Hm].
  destruct (r_bmap V i (off / BSIZE)) as [[[[V1 i1] a] fp1]|] eqn:Eb; [|done].
  cbn [mbind option_bind]. cbv zeta. apply (r_bmap_grown s) in Eb; [|done..].
  set (m := Nat.min _ _). set (V2 := upd V1 a _).
  destruct (r_write fuel V2 i1 (drop m src) (off + Z.of_nat m)) as [[[[V3 i3] off3] fp3]|] eqn:Er; [|done].
  cbn [mbind option_bind]. intros [= <- <- <- <-].
  assert (length (take m src) = m) as Hlt by (rewrite length_take; lia).
  assert (written s V i V2 i1 off (take m src)) as Hw.
  { eapply chunk_written; [done..|lia| |done]. rewrite Hlt. unfold m. lia. }
  apply IH in Er as [Hw3 ->]; [|apply Hw|apply Hw|lia|rewrite length_drop; lia].
  split; [|rewrite length_drop; lia]. rewrite <- (take_drop m src).
  eapply written_app; [exact Hw|by rewrite Hlt|done|]. rewrite Hlt. lia.
Qed.

(** ** The blocks a write touches *)

Lemma r_slot_ind s V i n V' i' a fp :
  free_map_ok s V -> length (i_addrs i) = 13%nat -> r_slot V i n = Some (V', i', a, fp) ->
  own_block s V (ind_block i') -> ind_block i' = ind_block i.
Proof.
  intros Hfm Hl. unfold r_slot. destruct (slot V i n =? 0); [|by intros [= <- <- <- <-]].
  destruct (find_free V) as [b|] eqn:Eb; [|done]. intros [= <- <- <- <-].
  unfold ind_block, set_slot. cbn [i_addrs iset_addrs]. destruct (decide (n = 12%nat)) as [->|Hn].
  - rewrite list_lookup_insert_eq by lia. intros Ho. by destruct (fresh_ne s V b Hfm Eb b Ho).
  - by rewrite list_lookup_insert_ne.
Qed.

Lemma r_bmap_ind s V i bn V' i' a fp :
  free_map_ok s V -> length (i_addrs i) = 13%nat -> r_bmap V i bn = Some (V', i', a, fp) ->
  own_block s V (ind_block i') -> ind_block i' = ind_block i.
Proof.
  intros Hfm Hl. unfold r_bmap. destruct (bn <? NDIRECT); [by apply r_slot_ind|].
  destruct (bn - NDIRECT <? NINDIRECT); [|done].
  destruct (r_slot V i (Z.to_nat NDIRECT)) as [[[[V1 i1] a1] fp1]|] eqn:Es; [|done].
  cbn [mbind option_bind]. cbv zeta. intros Hr.
  assert (i' = i1) as ->; [|by eapply r_slot_ind].
  destruct (_ =? 0); [|congruence]. destruct (find_free V1); [|done].
  cbn [mbind option_bind] in Hr. congruence.
Qed.

(** A block in use before that a slot has after [r_bmap] was in that slot before. *)
Lemma r_bmap_slot_back s V i bn V' i' a fp m :
  file_ok s V i -> free_map_ok s V -> 0 <= bn < MAXFILE ->
  r_bmap V i bn = Some (V', i', a, fp) -> (m < nslots)%nat ->
  own_block s V (slot V' i' m) -> slot V i m = slot V' i' m.
Proof.
  intros Hok Hfm Hbn Hr Hm Ho. pose proof Hr as Hg. apply (r_bmap_grown s) in Hg; [|done..].
  destruct (decide (m = bslot bn)) as [->|Hne].
  - rewrite (proj1 (gr_at _ _ _ _ _ _ _ _ Hg)) in *. by apply (gr_hit _ _ _ _ _ _ _ _ Hg).
  - destruct (decide (m = 12%nat)) as [->|H12].
    + rewrite ind_slot in Ho. rewrite !ind_slot. symmetry.
      eapply r_bmap_ind; [done|apply Hok|done..].
    + symmetry. by apply (gr_other _ _ _ _ _ _ _ _ Hg).
Qed.

(** Of the blocks in use, [r_write] changes only those of its file; and it writes only data blocks
    and blocks of the bitmap. *)
Record footprint (s : kstate) (V : Z -> list Z) (i : inode) (V' : Z -> list Z) (fp : list Z) : Prop := {
  fp_out : forall x, x ∉ fp -> V' x = V x;
  fp_own : forall x, x ∈ fp -> own_block s V x -> exists n, (n < nslots)%nat /\ slot V i n = x;
  fp_kind : forall x, x ∈ fp -> data_block s V x \/
    exists b, 0 <= b < sb_size (sb_of V) /\ x = bitmap_block V b
}.

Lemma sb_same_kind s V V' x :
  sb_of V' = sb_of V ->
  data_block s V' x \/ (exists b, 0 <= b < sb_size (sb_of V') /\ x = bitmap_block V' b) ->
  data_block s V x \/ (exists b, 0 <= b < sb_size (sb_of V) /\ x = bitmap_block V b).
Proof. unfold data_block, data_start, bitmap_block. by intros ->. Qed.

Lemma footprint_step s V i off V1 i1 a fp1 d V3 fp3 :
  file_ok s V i -> free_map_ok s V -> 0 <= off < MAXFILE * BSIZE -> length d = 512%nat ->
  r_bmap V i (off / BSIZE) = Some (V1, i1, a, fp1) ->
  footprint s (upd V1 a d) i1 V3 fp3 -> footprint s V i V3 (fp1 ++ a :: fp3).
Proof.
  intros Hok Hfm Ho Hd Hr [O3 W3 K3]. destruct (block_of off Ho) as [Hb _].
  destruct (bslot_lt _ Hb) as [Hns H12]. pose proof Hr as Hg. apply (r_bmap_grown s) in Hg; [|done..].
  pose proof Hg as [F1 M1 B1 O1 I1 [A1 Z1] T1 K1 S1 N1 P1 Q1 R1].
  destruct (store_slot s V1 i1 (bslot (off / BSIZE)) d) as (F2 & M2 & S2 & O2 & B2); try done.
  { by rewrite A1. }
  rewrite A1 in *. split.
  - intros x (Hx1 & [Hx2 Hx3]%not_elem_of_cons)%not_elem_of_app. rewrite O3, upd_ne by done. by apply P1.
  - intros x [Hx|[->|Hx]%elem_of_cons]%elem_of_app Hown.
    + exists 12%nat. split; [unfold nslots; lia|]. rewrite ind_slot. symmetry. by apply Q1.
    + exists (bslot (off / BSIZE)). split; [done|]. by apply T1.
    + destruct (W3 x Hx) as (n & Hn & En); [by apply O2, O1|]. exists n. split; [done|].
      rewrite S2 in En. subst x. by eapply r_bmap_slot_back.
  - intros x [Hx|[->|Hx]%elem_of_cons]%elem_of_app.
    + by apply R1.
    + left. assert (own_block s V1 a) as [Ha _] by (rewrite <- A1; apply F1; [done|by rewrite A1]).
      unfold data_block, data_start, bitmap_block in *. by rewrite B1 in Ha.
    + eapply sb_same_kind, K3; [congruence|done].
Qed.

Lemma r_write_footprint s fuel V i src off V' i' off' fp :
  file_ok s V i -> free_map_ok s V -> 0 <= off -> off + Z.of_nat (length src) <= MAXFILE * BSIZE ->
  r_write fuel V i src off = Some ((V', i', off'), fp) -> footprint s V i V' fp.
Proof.
  revert V i src off fp. induction fuel as [|fuel IH]; intros V i src off fp Hok Hfm H0 Hmax; [done|].
  cbn [r_write]. destruct (Nat.eqb_spec (length src) 0) as [E|E].
  { intros [= <- <- <- <-]. split; [done|void|void]. }
  destruct (block_of off ltac:(lia)) as [Hb Hm].
  destruct (r_bmap V i (off / BSIZE)) as [[[[V1 i1] a] fp1]|] eqn:Eb; [|done].
  cbn [mbind option_bind]. cbv zeta. pose proof Eb as Hg. apply (r_bmap_grown s) in Hg; [|done..].
  set (m := Nat.min _ _). set (d := splice _ _ _).
  destruct (r_write fuel _ i1 (drop m src) (off + Z.of_nat m)) as [[[[V3 i3] off3] fp3]|] eqn:Er; [|done].
  cbn [mbind option_bind]. intros [= <- <- <- <-].
  assert (length (take m src) = m) as Hlt by (rewrite length_take; lia).
  destruct (chunk_len s V i off (take m src) V1 i1 a fp1) as [_ Hld]; [lia..|done|].
  assert (written s V i (upd V1 a d) i1 off (take m src)) as Hw.
  { eapply chunk_written; [done..|lia| |done]. lia. }
  eapply (footprint_step s V i off); [done|done|lia|exact Hld|exact Eb|].
  eapply IH; [apply Hw|apply Hw|..|done]; rewrite ?length_drop; lia.
Qed.
