(* ===== verification/FsFileOps.v ===== *)
(** * The code of [bmap], [readi] and [writei] refines the reference model of FsFile.v *)

From S2P Require Import Prelude Types Monad Sched Bio BioSpec Log LogSpec TxSpec Fs FsBlocks.
From S2P Require Import Demo FsBlocksProps FsInode FsInodeOps FsFile.

Lemma fframe_data s s' V b : fframe s s' -> data_block s V b -> data_block s' V b.
Proof. intros (Hs & _)%fframe_log [? ?]. split; [done|by rewrite Hs]. Qed.
Lemma fframe_own s s' V b : fframe s s' -> own_block s V b -> own_block s' V b.
Proof. intros Hf [? ?]. split; [by eapply fframe_data|done]. Qed.
Lemma fframe_file s s' V i : fframe s s' -> file_ok s V i -> file_ok s' V i.
Proof. intros Hf []. split; try done. intros n Hn Hz. eapply fframe_own; [done|auto]. Qed.

(** The footprint of a step and what it requires of the state. *)
Definition allowed (F : gset Z) (s : kstate) (fp : list Z) : Prop :=
  (fp <> [] -> in_trans s) /\ forall x, x ∈ fp -> x ∈ F.

Lemma allowed_frame F s s' fp : fframe s s' -> allowed F s fp -> allowed F s' fp.
Proof. intros Hf [Ht Hin]. split; [|done]. intros Hne. by eapply fframe_trans, Ht. Qed.

Lemma allowed_app F s fp fp' : allowed F s (fp ++ fp') -> allowed F s fp /\ allowed F s fp'.
Proof.
  intros [Ht Hin]. setoid_rewrite elem_of_app in Hin. split; (split; [|auto]); intros Hne; apply Ht.
  - by destruct fp.
  - intros [_ ?]%app_eq_nil. done.
Qed.

Section ops.
Context {drv : DiskDriver}.

(** [balloc] of the block the reference model picks. *)
Lemma balloc_find F s V H b :
  txf F s V H -> free_map_ok s V -> held_data s V H -> (length H <= 1)%nat ->
  (forall j x d, (j, x, d) ∈ H -> own_block s V x) ->
  find_free V = Some b -> allowed F s [bitmap_block V b; b] ->
  runs (balloc ROOTDEV) s (fun r s' => r = b /\ txf F s' (allocated V b) H /\ tframe s s').
Proof.
  intros Hx Hfm Hheld HH Hown Hfree [Ht Hin]. destruct (find_free_first _ _ _ Hfm Hfree) as [Hff Hh].
  eapply runs_mono; [apply (balloc_alloc F s V H b); try done|].
  - by apply Ht.
  - apply Hin. set_solver.
  - apply Hin. set_solver.
  - intros j d Hj. by apply (fresh_ne s V b Hfm Hfree b); [eapply Hown|].
  - intros r s' (? & ? & ? & _). done.
Qed.

Lemma bmap_slot_txf F s V ip i n V' i' a fp :
  txf F s V [] -> k_inodes s !! ip = Some i -> file_ok s V i -> free_map_ok s V -> (n < 13)%nat ->
  r_slot V i n = Some (V', i', a, fp) -> allowed F s fp ->
  runs (bmap_slot ip n) s (fun r s' => r = a /\ txf F s' V' [] /\ fframe s s' /\
    k_inodes s' = <[ip := i']> (k_inodes s)).
Proof.
  intros Hx Hi Hok Hfm Hn Hr Hal. pose proof (fo_len _ _ _ Hok) as Hlen.
  destruct (lookup_lt_is_Some_2 (i_addrs i) n ltac:(lia)) as [x Ex].
  assert (slot V i n = x) as Es.
  { unfold slot. destruct (Nat.ltb_spec n 13); [|lia]. by rewrite Ex. }
  unfold bmap_slot. eapply runs_geti; [exact Hi|]. unfold get_addr.
  eapply runs_bind, runs_nth; [exact Ex|].
  unfold r_slot in Hr. rewrite Es in Hr. rewrite (fo_dev _ _ _ Hok).
  destruct (Z.eqb_spec x 0).
  - destruct (find_free V) as [b|] eqn:Eb; [|done]. cbn [mbind option_bind] in Hr.
    injection Hr as <- <- <- <-.
    eapply runs_step; [eapply balloc_find; try done; [void|simpl; lia|void]|].
    intros r s1 (-> & Hx1 & Hf1). unfold set_addr.
    eapply runs_updi; [by rewrite (tframe_inodes _ _ Hf1)|]. apply runs_ret.
    split_and!; [done|by apply txf_set_inodes| |].
    + etrans; [by apply tframe_fframe|]. apply fframe_set_inodes.
    + simpl. by rewrite (tframe_inodes _ _ Hf1).
  - injection Hr as <- <- <- <-. apply runs_ret. split_and!; try done.
    by rewrite list_insert_id.
Qed.

(** The entry of the indirect block, and its block when the entry is empty. *)
Lemma bmap_entry_txf {A} F s V a o V' b fp (k : Z -> K A) Q :
  txf F s V [] -> free_map_ok s V -> own_block s V a -> (o + 4 <= 512)%nat ->
  (if get32 (V a) o =? 0 then
     b ← find_free V; Some (upd (allocated V b) a (put32 (V a) o b), b, [bitmap_block V b; b; a])
   else Some (V, get32 (V a) o, [])) = Some (V', b, fp) -> allowed F s fp ->
  (forall s', txf F s' V' [] -> tframe s s' -> runs (k b) s' Q) ->
  runs (bp <- bread ROOTDEV a ;;
        bb <- getb bp ;;
        let addr := get32 (b_data bb) o in
        addr <- (if addr =? 0 then
                   addr <- balloc ROOTDEV ;;
                   updb bp (fun x => bset_data (put32 (b_data x) o addr) x) ;;
                   log_write bp ;;
                   ret addr
                 else ret addr) ;;
        brelse bp ;;
        k addr) s Q.
Proof.
  intros Hx Hfm Hown Ho Hr Hal Hk.
  destruct (data_block_ne _ _ _ (fm_fs _ _ Hfm) (proj1 Hown)) as (Hhome & _).
  eapply runs_step; [apply (txf_bread _ _ _ _ a Hx Hhome); [void|simpl; lia]|].
  intros bp s1 (Hx1 & Hf1). eapply txf_getb; [exact Hx1|left|]. intros bb _ _ ->. cbv zeta.
  pose proof (tframe_fframe _ _ Hf1) as Hff1.
  destruct (get32 (V a) o =? 0).
  - destruct (find_free V) as [b'|] eqn:Eb; [|done]. cbn [mbind option_bind] in Hr.
    injection Hr as <- <- <-. apply runs_assoc.
    assert (allowed F s1 [bitmap_block V b'; b']) as Hal1.
    { apply (allowed_app F s1 [bitmap_block V b'; b'] [a]). by eapply allowed_frame. }
    eapply runs_step; [eapply (balloc_find F s1 V [(bp, a, V a)] b'); try done|].
    + by eapply fframe_free_map.
    + intros j x d [= -> -> ->]%list_elem_of_singleton. eapply fframe_data; [done|apply Hown].
    + intros j x d [= -> -> ->]%list_elem_of_singleton. by eapply fframe_own.
    + intros r s2 (-> & Hx2 & Hf2). apply runs_assoc.
      eapply runs_step; [apply (txf_set _ _ _ _ _ _ _ (fun d => put32 d o b') Hx2)|].
      { rewrite length_put32; rewrite (fm_len _ _ Hfm) by done; done. }
      intros [] s3 (Hx3 & Hf3). apply runs_assoc.
      eapply runs_step; [apply (txf_log_write _ _ _ _ _ _ _ Hx3)|].
      { apply (tframe_trans s); [frames|]. by apply Hal. }
      { apply Hal. set_solver. }
      { simpl. lia. }
      intros [] s4 (Hx4 & Hf4). eapply runs_eq; [done|].
      eapply runs_step; [apply (txf_brelse _ _ _ _ _ _ _ Hx4); by rewrite upd_eq|].
      intros [] s5 (Hx5 & Hf5). apply Hk; [done|frames].
  - injection Hr as <- <- <-. eapply runs_eq; [done|].
    tcall txf_brelse as (Hx2 & Hf2). apply Hk; [done|frames].
Qed.

(** [bmap] refines [r_bmap]. *)
Lemma bmap_txf F s V ip i bn V' i' a fp :
  txf F s V [] -> k_inodes s !! ip = Some i -> file_ok s V i -> free_map_ok s V ->
  0 <= bn < MAXFILE -> r_bmap V i bn = Some (V', i', a, fp) -> allowed F s fp ->
  runs (bmap ip bn) s (fun r s' => r = a /\ txf F s' V' [] /\ fframe s s' /\
    k_inodes s' = <[ip := i']> (k_inodes s)).
Proof.
  intros Hx Hi Hok Hfm Hbn Hr Hal. unfold bmap. unfold r_bmap in Hr.
  destruct (Z.ltb_spec bn NDIRECT).
  { eapply bmap_slot_txf; try done. unfold NDIRECT in *. lia. }
  destruct (Z.ltb_spec (bn - NDIRECT) NINDIRECT); [|done].
  destruct (r_slot V i (Z.to_nat NDIRECT)) as [[[[V1 i1] a1] fp1]|] eqn:Es; [|done].
  cbn [mbind option_bind] in Hr. set (o := (4 * Z.to_nat (bn - NDIRECT))%nat) in *.
  assert (exists fp2, fp = fp1 ++ fp2 /\ i' = i1 /\ (if get32 (V1 a1) o =? 0 then
     b ← find_free V1; Some (upd (allocated V1 b) a1 (put32 (V1 a1) o b), b, [bitmap_block V1 b; b; a1])
   else Some (V1, get32 (V1 a1) o, [])) = Some (V', a, fp2)) as (fp2 & -> & -> & Hr2).
  { destruct (get32 (V1 a1) o =? 0).
    - destruct (find_free V1); [|done]. cbn [mbind option_bind] in *. injection Hr as <- <- <- <-. eauto.
    - injection Hr as <- <- <- <-. exists []. by rewrite app_nil_r. }
  apply allowed_app in Hal as [Hal1 Hal2].
  eapply runs_step; [by eapply bmap_slot_txf; [..|unfold NDIRECT; lia| |]|].
  intros ? s1 (-> & Hx1 & Hf1 & Hi1).
  apply (r_slot_grown s) in Es as [F1 M1 _ _ _ [A1 Z1] _ _ _ _ _ _ _]; [|done|done|unfold NDIRECT; lia].
  eapply runs_geti; [rewrite Hi1; apply list_lookup_insert_eq; by eapply lookup_lt_Some|].
  rewrite (fo_dev _ _ _ F1). eapply bmap_entry_txf; [done|by eapply fframe_free_map| | |done| |].
  - eapply fframe_own; [done|]. rewrite <- A1 in Z1 |- *. apply F1; [unfold NDIRECT, nslots; lia|done].
  - unfold o, NDIRECT, NINDIRECT in *. lia.
  - by eapply allowed_frame.
  - intros s2 Hx2 Hf2. apply runs_ret. split_and!; [done..| |].
    + etrans; [done|]. by apply tframe_fframe.
    + by rewrite (tframe_inodes _ _ Hf2).
Qed.

(** ** The copy loops *)

(** One iteration copies [m] bytes of the [r] that are left at [off]: the bytes stay in one
    block, and the fuel left is enough for the rest. *)
Lemma copy_step off r (f : nat) :
  let m := Z.min r (BSIZE - off mod BSIZE) in
  0 <= off -> 0 < r -> off mod BSIZE + r <= BSIZE * Z.of_nat f ->
  0 < m <= r /\ off mod BSIZE + m <= BSIZE /\ (0 < f)%nat /\
  (0 < r - m -> (off + m) mod BSIZE + (r - m) <= BSIZE * (Z.of_nat f - 1)).
Proof.
  intros m H0 Hr Hf. unfold m, BSIZE in *. pose proof (Z.mod_pos_bound off 512 ltac:(lia)).
  split_and!; [lia..|]. intros Hp.
  replace (Z.min r (512 - off mod 512)) with (512 - off mod 512) by lia.
  replace (off + (512 - off mod 512)) with (0 + (off / 512 + 1) * 512)
    by (pose proof (Z.div_mod off 512); lia).
  rewrite Z.mod_add by lia. change (0 mod 512) with 0. lia.
Qed.

Lemma copy_fuel_enough off n :
  0 <= off -> 0 <= n -> (0 < copy_fuel n)%nat /\
  (0 < n -> off mod BSIZE + n <= BSIZE * (Z.of_nat (copy_fuel n) - 1)).
Proof.
  intros H0 Hn. unfold copy_fuel, BSIZE. pose proof (Z.mod_pos_bound off 512 ltac:(lia)).
  pose proof (Z.div_pos n 512 Hn ltac:(lia)). pose proof (Z.div_mod n 512 ltac:(lia)).
  pose proof (Z.mod_pos_bound n 512 ltac:(lia)). lia.
Qed.

Lemma file_bytes_app V i off n m :
  file_bytes V i off (n + m) = file_bytes V i off n ++ file_bytes V i (off + Z.of_nat n) m.
Proof.
  unfold file_bytes. rewrite seq_app, map_app. f_equal.
  pose proof (fmap_add_seq n 0 m) as E. rewrite Nat.add_0_r in E. rewrite Nat.add_0_l, <- E.
  change (map ?f ?l) with (f <$> l). rewrite <- list_fmap_compose. apply list_fmap_ext.
  intros _ k _. cbn [compose]. f_equal. lia.
Qed.

(** The bytes one iteration of [readi] copies. *)
Lemma file_bytes_block V i off m :
  0 <= off -> off mod BSIZE + Z.of_nat m <= BSIZE -> length (V (baddr V i (off / BSIZE))) = 512%nat ->
  take m (drop (Z.to_nat (off mod BSIZE)) (V (baddr V i (off / BSIZE)))) = file_bytes V i off m.
Proof.
  intros H0 Hm Hl. pose proof (Z.mod_pos_bound off BSIZE ltac:(unfold BSIZE; lia)) as Ho.
  apply list_eq. intros k. unfold file_bytes. change (map ?f ?l) with (f <$> l).
  rewrite list_lookup_fmap. destruct (decide (k < m)%nat) as [Hk|Hk].
  - rewrite lookup_take_lt, lookup_drop, lookup_seq_lt by lia. cbn [fmap option_fmap option_map].
    unfold fbyte. destruct (same_block off (off + Z.of_nat (0 + k)) (Z.of_nat m)) as [-> ->]; [lia..|].
    destruct (lookup_lt_is_Some_2 (V (baddr V i (off / BSIZE))) (Z.to_nat (off mod BSIZE) + k))
      as [y Hy]; [unfold BSIZE in *; lia|].
    rewrite Hy. unfold byte_at.
    replace (Z.to_nat (off mod BSIZE + (off + Z.of_nat (0 + k) - off)))
      with (Z.to_nat (off mod BSIZE) + k)%nat by lia. by rewrite Hy.
  - rewrite lookup_take_ge, lookup_seq_ge by lia. done.
Qed.

(** Every block below the file's size is mapped: files have no holes. *)
Definition mapped (V : Z -> list Z) (i : inode) : Prop :=
  forall x, 0 <= x < i_size i -> baddr V i (x / BSIZE) <> 0.

Lemma r_bmap_mapped s V i bn :
  file_ok s V i -> 0 <= bn < MAXFILE -> baddr V i bn <> 0 ->
  r_bmap V i bn = Some (V, i, baddr V i bn, []).
Proof.
  unfold baddr, r_bmap, bslot. intros Hok Hbn Hnz. destruct (Z.ltb_spec bn NDIRECT).
  { unfold r_slot. by apply Z.eqb_neq in Hnz as ->. }
  rewrite (proj2 (Z.ltb_lt _ _)) by (unfold MAXFILE, NDIRECT, NINDIRECT in *; lia).
  assert (ind_block i <> 0 /\ slot V i (Z.to_nat (bn + 1))
    = get32 (V (ind_block i)) (4 * Z.to_nat (bn - NDIRECT))) as [Hi Es].
  { unfold slot in *. destruct (Nat.ltb_spec (Z.to_nat (bn + 1)) 13); [unfold NDIRECT in *; lia|].
    destruct (Z.eqb_spec (ind_block i) 0); [done|]. split; [done|]. f_equal.
    unfold NDIRECT in *. lia. }
  unfold r_slot. change (Z.to_nat NDIRECT) with 12%nat. rewrite ind_slot.
  destruct (Z.eqb_spec (ind_block i) 0); [done|]. cbn [mbind option_bind]. cbv zeta.
  rewrite <- Es. by apply Z.eqb_neq in Hnz as ->.
Qed.

Lemma fframe_tframe s s' : fframe s s' -> k_inodes s' = k_inodes s -> tframe s s'.
Proof.
  intros [l Hf] Hi. rewrite (tframe_inodes _ _ Hf) in Hi. simpl in Hi. subst l.
  by replace (set_inodes (k_inodes s) s) with s in Hf by by destruct s.
Qed.

(** ** readi *)

(** [bmap] of a mapped block only looks it up; it needs no transaction. *)
Lemma bmap_mapped F s V ip i bn :
  txf F s V [] -> k_inodes s !! ip = Some i -> file_ok s V i -> free_map_ok s V ->
  0 <= bn < MAXFILE -> baddr V i bn <> 0 ->
  runs (bmap ip bn) s (fun r s' => r = baddr V i bn /\ txf F s' V [] /\ tframe s s').
Proof.
  intros Hx Hi Hok Hfm Hbn Hnz.
  eapply runs_mono; [eapply bmap_txf; try done; [by eapply r_bmap_mapped|by split; [|void]]|].
  intros r s' (-> & Hx' & Hf & Hi'). rewrite list_insert_id in Hi' by done.
  split_and!; [done..|]. by apply fframe_tframe.
Qed.

Lemma baddr_home s V i bn :
  file_ok s V i -> free_map_ok s V -> 0 <= bn < MAXFILE -> baddr V i bn <> 0 ->
  own_block s V (baddr V i bn) /\ home s (baddr V i bn) /\ length (V (baddr V i bn)) = 512%nat.
Proof.
  intros Hok Hfm Hbn Hnz. destruct (bslot_lt _ Hbn) as [Hs _].
  assert (own_block s V (baddr V i bn)) as Hown by by apply (fo_own _ _ _ Hok).
  destruct (data_block_ne _ _ _ (fm_fs _ _ Hfm) (proj1 Hown)) as (Hhome & _).
  split_and!; [done..|]. by apply (fm_len _ _ Hfm).
Qed.

Lemma readi_loop_txf F V ip i fuel s tot n off acc :
  txf F s V [] -> k_inodes s !! ip = Some i -> file_ok s V i -> free_map_ok s V ->
  0 <= off -> off + (n - tot) <= MAXFILE * BSIZE ->
  (forall x, off <= x < off + (n - tot) -> baddr V i (x / BSIZE) <> 0) -> (0 < fuel)%nat ->
  (0 < n - tot -> off mod BSIZE + (n - tot) <= BSIZE * (Z.of_nat fuel - 1)) ->
  runs (readi_loop fuel ip tot n off acc) s (fun r s' =>
    r = acc ++ file_bytes V i off (Z.to_nat (n - tot)) /\ txf F s' V [] /\ tframe s s').
Proof.
  revert s tot off acc. induction fuel as [|fuel IH];
    intros s tot off acc Hx Hi Hok Hfm H0 Hmax Hmap Hf0 Hf; [lia|].
  cbn [readi_loop]. destruct (Z.ltb_spec tot n).
  2:{ apply runs_ret. replace (Z.to_nat (n - tot)) with 0%nat by lia. by rewrite app_nil_r. }
  destruct (block_of off ltac:(lia)) as [Hb _].
  destruct (copy_step off (n - tot) fuel) as (Hm & Hm1 & Hf1 & Hf2); [done|lia|lia|].
  set (m := Z.min (n - tot) (BSIZE - off mod BSIZE)) in *.
  destruct (baddr_home s V i (off / BSIZE)) as (_ & Hhome & Hlen); [done..|apply Hmap; lia|].
  eapply runs_step; [by apply (bmap_mapped F s V ip i); [..|apply Hmap; lia]|].
  intros ? s1 (-> & Hx1 & Ht1). eapply runs_geti; [by rewrite (tframe_inodes _ _ Ht1)|].
  rewrite (fo_dev _ _ _ Hok).
  eapply runs_step; [apply (txf_bread _ _ _ _ _ Hx1); [by eapply tframe_home|void|simpl; lia]|].
  intros bp s2 (Hx2 & Ht2). eapply txf_getb; [exact Hx2|left|]. intros b _ _ ->. cbv zeta.
  tcall txf_brelse as (Hx3 & Ht3). assert (tframe s s') as Ht by frames.
  pose proof (tframe_fframe _ _ Ht) as Hff.
  eapply runs_mono; [apply (IH s' (tot + m) (off + m))|].
  - done.
  - by rewrite (tframe_inodes _ _ Ht).
  - by eapply fframe_file.
  - by eapply fframe_free_map.
  - lia.
  - lia.
  - intros x Hxr. apply Hmap. lia.
  - lia.
  - replace (n - (tot + m)) with (n - tot - m) by lia. lia.
  - intros r s4 (-> & Hx4 & Ht4). split_and!; [|done|by etrans].
    replace (Z.to_nat (n - tot)) with (Z.to_nat m + Z.to_nat (n - (tot + m)))%nat by lia.
    rewrite file_bytes_app, file_bytes_block, <- app_assoc by (done || lia).
    by replace (off + Z.of_nat (Z.to_nat m)) with (off + m) by lia.
Qed.

(** A cached regular file or directory: well formed, no holes, size in range. *)
Record regular (s : kstate) (V : Z -> list Z) (i : inode) : Prop := {
  rg_type : i_type i <> T_DEV;
  rg_file : file_ok s V i;
  rg_size : 0 <= i_size i <= MAXFILE * BSIZE;
  rg_mapped : mapped V i
}.

Lemma fframe_regular s s' V i : fframe s s' -> regular s V i -> regular s' V i.
Proof. intros Hf []. split; try done. by eapply fframe_file. Qed.

(** The test [off + n < off] of [readi] and [writei] is exact. *)
Lemma u32_no_wrap off n :
  0 <= off < 4294967296 -> 0 <= n < 4294967296 -> off <= u32 (off + n) -> off + n < 4294967296.
Proof.
  intros Ho Hn Hw. destruct (decide (off + n < 4294967296)); [done|]. exfalso. unfold u32 in Hw.
  rewrite <- (Z.mod_unique (off + n) 4294967296 1 (off + n - 4294967296)) in Hw by lia. lia.
Qed.

(** What [readi] returns. *)
Definition read_result (V : Z -> list Z) (i : inode) (off n : Z) : Z * list Z :=
  if (i_size i <? off) || (u32 (off + n) <? off) then (-1, [])
  else let c := Z.min n (i_size i - off) in (c, file_bytes V i off (Z.to_nat c)).

Lemma readi_txf F dv s V ip i off n :
  txf F s V [] -> k_inodes s !! ip = Some i -> regular s V i -> free_map_ok s V ->
  0 <= off < 4294967296 -> 0 <= n < 4294967296 ->
  runs (readi dv ip off n) s (fun r s' => r = read_result V i off n /\ txf F s' V [] /\ tframe s s').
Proof.
  intros Hx Hi [Hty Hok Hsz Hmap] Hfm Ho Hn. unfold readi, read_result.
  eapply runs_geti; [exact Hi|]. apply runs_if_false; [by apply Z.eqb_neq|].
  destruct (Z.ltb_spec (i_size i) off); [by apply runs_ret|]. cbn [orb].
  destruct (Z.ltb_spec (u32 (off + n)) off) as [|Hw]; [by apply runs_ret|].
  pose proof (u32_no_wrap off n Ho Hn Hw) as Hnw.
  rewrite u32_small by lia. cbv zeta.
  assert ((if i_size i <? off + n then i_size i - off else n) = Z.min n (i_size i - off)) as ->.
  { destruct (Z.ltb_spec (i_size i) (off + n)); lia. }
  set (c := Z.min n (i_size i - off)). assert (0 <= c <= MAXFILE * BSIZE) as Hc by lia.
  destruct (copy_fuel_enough off c) as [Hf1 Hf2]; [lia..|].
  eapply runs_step; [apply (readi_loop_txf F V ip i _ s 0 c off [] Hx Hi Hok Hfm)|].
  - lia.
  - lia.
  - intros x Hxr. apply Hmap. lia.
  - done.
  - rewrite Z.sub_0_r. lia.
  - intros r s' (-> & Hx' & Hf). apply runs_ret. split_and!; [|done..].
    rewrite Z.sub_0_r, s32_small; [done|]. unfold MAXFILE, NDIRECT, NINDIRECT, BSIZE in Hc. lia.
Qed.

(** ** writei *)

Lemma writei_loop_txf F ip fuel s V i src tot n off V' i' off' fp :
  txf F s V [] -> k_inodes s !! ip = Some i -> file_ok s V i -> free_map_ok s V ->
  0 <= off -> 0 <= tot <= n -> n = Z.of_nat (length src) -> off + (n - tot) <= MAXFILE * BSIZE ->
  r_write fuel V i (drop (Z.to_nat tot) src) off = Some ((V', i', off'), fp) -> allowed F s fp ->
  runs (writei_loop fuel ip src tot n off) s (fun r s' => r = off' /\ txf F s' V' [] /\
    fframe s s' /\ k_inodes s' = <[ip := i']> (k_inodes s)).
Proof.
  revert s V i tot off fp. induction fuel as [|fuel IH];
    intros s V i tot off fp Hx Hi Hok Hfm H0 Htot Hn Hmax; [done|].
  cbn [r_write writei_loop]. rewrite length_drop. destruct (Z.ltb_spec tot n).
  2:{ replace (length src - Z.to_nat tot)%nat with 0%nat by lia. simpl Nat.eqb. cbv iota.
      intros [= <- <- <- <-] _. apply runs_ret. split_and!; try done. by rewrite list_insert_id. }
  destruct (Nat.eqb_spec (length src - Z.to_nat tot) 0); [lia|].
  destruct (block_of off ltac:(lia)) as [Hb Hbm]. pose proof (lookup_lt_Some _ _ _ Hi) as Hlt.
  destruct (r_bmap V i (off / BSIZE)) as [[[[V1 i1] a] fp1]|] eqn:Eb; [|done].
  cbn [mbind option_bind]. cbv zeta. rewrite drop_drop.
  set (m := Z.min (n - tot) (BSIZE - off mod BSIZE)).
  replace (Nat.min (length src - Z.to_nat tot) (Z.to_nat (BSIZE - off mod BSIZE)))
    with (Z.to_nat m) by lia.
  replace (off + Z.of_nat (Z.to_nat m)) with (off + m) by lia.
  replace (Z.to_nat tot + Z.to_nat m)%nat with (Z.to_nat (tot + m)) by lia.
  set (bytes := take (Z.to_nat m) (drop (Z.to_nat tot) src)).
  assert (length bytes = Z.to_nat m) as Hbl by (unfold bytes; rewrite length_take, length_drop; lia).
  set (V2 := upd V1 a _).
  destruct (r_write fuel V2 i1 _ _) as [[[[V3 i3] off3] fp3]|] eqn:Er; [|done].
  cbn [mbind option_bind]. intros [= <- <- <- <-] Hal.
  apply allowed_app in Hal as [Hal1 Hal2].
  eapply runs_step; [by eapply (bmap_txf F s V ip i)|]. intros ? s1 (-> & Hx1 & Hf1 & Hi1).
  eapply runs_geti; [rewrite Hi1; by apply list_lookup_insert_eq|].
  apply (r_bmap_grown s) in Eb; [|done..].
  assert (written s V i V2 i1 off bytes) as [F2 M2 _ _ _ _ _].
  { eapply chunk_written; [done..|lia| |done]. lia. }
  destruct (chunk_len s V i off bytes V1 i1 a fp1) as [Hla Hld]; [lia|lia|lia|done|].
  rewrite (fo_dev _ _ _ F2). eapply (update_txf F s1 V1 [] a
    (fun d => splice d (Z.to_nat (off mod BSIZE)) bytes)); [done|..].
  - eapply fframe_trans; [done|]. by apply Hal2.
  - eapply fframe_home; [done|]. destruct (gr_at _ _ _ _ _ _ _ _ Eb) as [<- Hz].
    eapply data_block_ne; [apply (gr_map _ _ _ _ _ _ _ _ Eb)|].
    apply (fo_own _ _ _ (gr_file _ _ _ _ _ _ _ _ Eb)); [by apply bslot_lt|done].
  - apply Hal2. left.
  - void.
  - simpl. lia.
  - done.
  - intros s2 Hx2 Ht2. assert (fframe s s2) as Hf2 by (etrans; [done|]; by apply tframe_fframe).
    eapply runs_mono; [apply (IH s2 V2 i1 (tot + m) (off + m) fp3)|]; try done.
    + rewrite (tframe_inodes _ _ Ht2), Hi1. by apply list_lookup_insert_eq.
    + by eapply fframe_file.
    + by eapply fframe_free_map.
    + lia.
    + lia.
    + lia.
    + eapply allowed_frame; [done|]. by apply (allowed_app F s [a] fp3).
    + intros r s3 (-> & Hx3 & Hf3 & Hi3). split_and!; [done..|by etrans|].
      by rewrite Hi3, (tframe_inodes _ _ Ht2), Hi1, list_insert_insert_eq.
Qed.
End ops.
