(* ===== verification/FsFileProps.v ===== *)
(** * Properties of [readi] and [writei] (kernel/fs.c) *)

From S2P Require Import Prelude Types Monad Sched Bio BioSpec Log LogSpec TxSpec Fs FsBlocks.
From S2P Require Import Demo FsBlocksProps FsInode FsInodeOps FsFile FsFileOps.

(** ** The inode blocks are not touched by writes to contents *)

Lemma footprint_iblock s V i V' fp n :
  fs_ok s V -> footprint s V i V' fp -> 0 <= n < sb_ninodes (sb_of V) -> iblock n ∉ fp.
Proof.
  intros Hfs [_ _ Hk] Hn Hin. destruct (Hk _ Hin) as [Hd|(b & Hb & Eb)].
  - by apply (data_block_iblock s V (iblock n) n).
  - unfold iblock, IBLOCK, bitmap_block, BBLOCK, IPB in Eb.
    assert (n / 8 <= sb_ninodes (sb_of V) / 8) by (apply Z.div_le_mono; lia).
    assert (0 <= b / BPB) by (apply Z.div_pos; [lia|done]). lia.
Qed.

(** Where all blocks of the range are mapped, [r_write] leaves the inode alone. *)
Lemma r_write_mapped s fuel V i src off V' i' off' fp :
  file_ok s V i -> free_map_ok s V -> 0 <= off -> off + Z.of_nat (length src) <= MAXFILE * BSIZE ->
  (forall x, off <= x < off + Z.of_nat (length src) -> baddr V i (x / BSIZE) <> 0) ->
  r_write fuel V i src off = Some ((V', i', off'), fp) -> i' = i.
Proof.
  revert V src off fp. induction fuel as [|fuel IH]; intros V src off fp Hok Hfm H0 Hmax Hmap; [done|].
  cbn [r_write]. destruct (Nat.eqb_spec (length src) 0) as [E|E]; [by intros [= <- <- <- <-]|].
  destruct (block_of off ltac:(lia)) as [Hb Hm]. pose proof (Hmap off ltac:(lia)) as Hnz.
  rewrite (r_bmap_mapped s) by done. cbn [mbind option_bind]. cbv zeta.
  set (a := baddr V i (off / BSIZE)) in *. set (m := Nat.min _ _). set (d := splice _ _ _).
  destruct (r_write fuel _ i (drop m src) (off + Z.of_nat m)) as [[[[V3 i3] off3] fp3]|] eqn:Er; [|done].
  cbn [mbind option_bind]. intros [= <- <- <- <-].
  destruct (bslot_lt _ Hb) as [Hns H12].
  assert (length d = 512%nat) as Hd.
  { destruct (baddr_home s V i _ Hok Hfm Hb Hnz) as (_ & _ & Hl). fold a in Hl.
    unfold d. rewrite length_splice; [done|]. rewrite length_take. unfold m, BSIZE in *. lia. }
  destruct (store_slot s V i (bslot (off / BSIZE)) d) as (F2 & M2 & S2 & _ & _); try done.
  eapply IH; [exact F2|exact M2|..|exact Er]; rewrite ?length_drop; [lia..|].
  intros x Hx. unfold baddr. rewrite S2. apply Hmap. lia.
Qed.

(** ** The contents after a write *)

(** The result of writing [src] at [off]: a regular file with the new bytes, the old ones
    elsewhere, and a size that covers both. *)
Record wrote (s : kstate) (V : Z -> list Z) (i : inode) (V' : Z -> list Z) (i' : inode)
    (off : Z) (src : list Z) : Prop := {
  wt_regular : regular s V' i';
  wt_map : free_map_ok s V';
  wt_size : i_size i' = Z.max (i_size i) (off + Z.of_nat (length src));
  wt_same : i' = iset_size (i_size i') (iset_addrs (i_addrs i') i);
  wt_in : forall x, off <= x < off + Z.of_nat (length src) ->
    Some (fbyte V' i' x) = src !! Z.to_nat (x - off);
  wt_out : forall x, 0 <= x < i_size i -> ~ off <= x < off + Z.of_nat (length src) ->
    fbyte V' i' x = fbyte V i x
}.

Lemma fbyte_size n V i x : fbyte V (iset_size n i) x = fbyte V i x.
Proof. done. Qed.

Lemma written_wrote s V i V' i' off src :
  regular s V i -> written s V i V' i' off src -> 0 <= off <= i_size i ->
  off + Z.of_nat (length src) <= MAXFILE * BSIZE ->
  wrote s V i V' (iset_size (Z.max (i_size i) (off + Z.of_nat (length src))) i') off src.
Proof.
  intros [Hty Hok Hsz Hmap] [F1 M1 B1 O1 I1 W1 N1] Ho Hmax.
  split; try done.
  - split.
    + cbn [i_type iset_size]. rewrite I1. done.
    + destruct F1. by split.
    + cbn [i_size iset_size]. lia.
    + intros x Hx. cbn [i_size iset_size] in Hx. change (baddr V' (iset_size _ i')) with (baddr V' i').
      destruct (decide (off <= x < off + Z.of_nat (length src))) as [Hin|Hout]; [by apply W1|].
      apply N1; [lia|done|]. apply Hmap. lia.
  - rewrite I1. by destruct i.
  - intros x Hx. rewrite fbyte_size. by apply W1.
  - intros x Hx Hout. rewrite fbyte_size. apply N1; [lia|done|]. by apply Hmap.
Qed.

(** Blocks that are not data blocks do not matter. *)
Lemma fbyte_agree s V V' i x :
  file_ok s V i -> 0 <= x < MAXFILE * BSIZE -> (forall b, own_block s V b -> V' b = V b) ->
  baddr V i (x / BSIZE) <> 0 -> baddr V' i (x / BSIZE) = baddr V i (x / BSIZE) /\ fbyte V' i x = fbyte V i x.
Proof.
  intros Hok Hx HV Hnz. destruct (block_of x Hx) as [Hb _]. destruct (bslot_lt _ Hb) as [Hns _].
  assert (forall m, slot V' i m = slot V i m) as Es.
  { intros m. apply slot_agree. intros Hz. by apply HV, ind_own. }
  unfold fbyte, baddr in *. rewrite !Es. split; [done|]. rewrite HV; [done|]. by apply Hok.
Qed.

(** Writing an inode keeps the free map and the blocks of files. *)
Lemma write_inode_keep s V n x :
  free_map_ok s V -> 0 <= n < sb_ninodes (sb_of V) -> home s (iblock n) -> length (di_addrs x) = 13%nat ->
  free_map_ok s (write_inode V n x) /\ sb_of (write_inode V n x) = sb_of V /\
  (forall b, own_block s V b -> write_inode V n x b = V b /\ own_block s (write_inode V n x) b).
Proof.
  intros Hfm Hn Hh Hl. pose proof (fm_fs _ _ Hfm) as Hfs.
  assert (length (put_dinode (V (iblock n)) (dinode_off n) x) = 512%nat) as Hpl.
  { rewrite length_put_dinode; rewrite ?(fm_len _ _ Hfm); try done. apply dinode_off_bound. }
  assert (iblock n <> 1) as H1 by (unfold iblock, IBLOCK, IPB; pose proof (Z.div_pos n 8); lia).
  assert (sb_of (write_inode V n x) = sb_of V) as Hsb by by apply sb_upd.
  assert (forall b, 0 <= b < sb_size (sb_of V) -> used (write_inode V n x) b = used V b) as Hu.
  { intros b Hb. apply used_upd_data; [done|]. intros E.
    unfold iblock, IBLOCK, bitmap_block, BBLOCK, IPB in E.
    assert (n / 8 <= sb_ninodes (sb_of V) / 8) by (apply Z.div_le_mono; lia).
    assert (0 <= b / BPB) by (apply Z.div_pos; [lia|done]). lia. }
  split_and!; [|done|].
  - eapply free_map_keep; [exact Hfm|done|done|by apply upd_len; [apply Hfm|]|].
    intros b Hb Hub. left. by rewrite Hu.
  - intros b Hb. split.
    + unfold write_inode. rewrite upd_ne; [done|]. eapply data_block_iblock; [done|apply Hb|done].
    + eapply own_block_mono; [done| |done]. rewrite Hu; [done|]. eapply data_range; [done|apply Hb].
Qed.

Lemma wrote_inode s V i V' i' off src n x :
  wrote s V i V' i' off src -> 0 <= off -> off + Z.of_nat (length src) <= MAXFILE * BSIZE ->
  0 <= n < sb_ninodes (sb_of V') -> home s (iblock n) -> length (di_addrs x) = 13%nat ->
  wrote s V i (write_inode V' n x) i' off src.
Proof.
  intros [[Hty Hok Hsz Hmap] Hfm Hs Hsame Hin Hout] Ho Hmax Hn Hh Hl.
  destruct (write_inode_keep s V' n x) as (Hfm' & _ & Hk); [done..|].
  assert (forall b, own_block s V' b -> write_inode V' n x b = V' b) as HV by (intros b Hb; by apply Hk).
  split; try done.
  - split; try done.
    + eapply file_ok_agree; [done|by intros Hz; apply HV, ind_own|]. intros b Hb. by apply Hk.
    + intros y Hy. destruct (fbyte_agree s V' (write_inode V' n x) i' y) as [-> _]; auto. lia.
  - intros y Hy. rewrite <- Hin by done. f_equal. eapply fbyte_agree; [done|lia|done|]. apply Hmap. lia.
  - intros y Hy Hne. rewrite <- Hout by done. eapply fbyte_agree; [done|lia|done|]. apply Hmap. lia.
Qed.

(** ** writei *)

(** A write of [src] at [off] inside a transaction whose footprint has room for it. The reference
    model computes the blocks it needs; it is undefined only when the disk is full. *)
Record write_pre (F : gset Z) (s : kstate) (V : Z -> list Z) (ip : nat) (i : inode) (off : Z)
    (src : list Z) (V1 : Z -> list Z) (i1 : inode) (fp : list Z) : Prop := {
  wp_tx : txf F s V [];
  wp_trans : in_trans s;
  wp_entry : k_inodes s !! ip = Some i;
  wp_regular : regular s V i;
  wp_map : free_map_ok s V;
  wp_disk : on_disk s i /\ i_inum i < sb_ninodes (sb_of V);
  wp_off : 0 <= off <= i_size i;
  wp_max : off + Z.of_nat (length src) <= MAXFILE * BSIZE;
  wp_run : r_write (copy_fuel (Z.of_nat (length src))) V i src off
    = Some ((V1, i1, off + Z.of_nat (length src)), fp);
  wp_foot : forall x, x ∈ iblock (i_inum i) :: fp -> x ∈ F
}.

(** The inode on disk is the cached one. *)
Definition synced (V : Z -> list Z) (i : inode) : Prop :=
  dinode_ok (dinode_of i) /\ disk_inode V (i_inum i) = dinode_of i.

(** What [writei] leaves: the contents, the inode on disk, and every other inode and block. *)
Record write_post (s : kstate) (V : Z -> list Z) (i : inode) (off : Z) (src : list Z) (fp : list Z)
    (V' : Z -> list Z) (i' : inode) : Prop := {
  wq_wrote : wrote s V i V' i' off src;
  wq_sync : synced V i -> synced V' i';
  wq_inodes : forall n, 0 <= n < sb_ninodes (sb_of V) -> n <> i_inum i -> disk_inode V' n = disk_inode V n;
  wq_blocks : forall x, x ∉ fp -> x <> iblock (i_inum i) -> V' x = V x;
  wq_own : forall x, x ∈ fp -> own_block s V x -> exists n, (n < nslots)%nat /\ slot V i n = x;
  wq_used : forall x, own_block s V x -> own_block s V' x
}.

Section write.
Context {drv : DiskDriver}.
Context (F : gset Z) (s : kstate) (V : Z -> list Z) (ip : nat) (i : inode) (off : Z) (src : list Z).
Context (V1 : Z -> list Z) (i1 : inode) (fp : list Z).
Context (Hpre : write_pre F s V ip i off src V1 i1 fp).
Let n : Z := Z.of_nat (length src).
Let i2 : inode := iset_size (Z.max (i_size i) (off + n)) i1.

Lemma write_parts :
  written s V i V1 i1 off src /\ footprint s V i V1 fp /\ wrote s V i V1 i2 off src.
Proof using Hpre.
  destruct Hpre as [_ _ _ Hreg Hfm _ Ho Hmax Hrun _]. pose proof (rg_file _ _ _ Hreg) as Hok.
  destruct (r_write_written s _ _ _ _ _ _ _ _ _ Hok Hfm (proj1 Ho) Hmax Hrun) as [Hw _].
  split_and!; [done|by eapply r_write_footprint; [..|exact (proj1 Ho)|exact Hmax|exact Hrun]|]. by apply written_wrote.
Qed.

(** An address fits in 32 bits. *)
Lemma synced_new : dinode_ok (dinode_of i) -> dinode_ok (dinode_of i2).
Proof using Hpre.
  intros [H1 H2 H3 H4 H5 _]. destruct write_parts as ([F1 M1 B1 O1 I1 _ _] & _ & _).
  pose proof (wp_off _ _ _ _ _ _ _ _ _ _ Hpre). pose proof (wp_max _ _ _ _ _ _ _ _ _ _ Hpre) as Hmax.
  pose proof (rg_size _ _ _ (wp_regular _ _ _ _ _ _ _ _ _ _ Hpre)) as Hsz.
  unfold i2. rewrite I1. split; try done.
  - cbn. unfold MAXFILE, NDIRECT, NINDIRECT, BSIZE in *. unfold n. lia.
  - cbn. rewrite (fo_len _ _ _ F1). split; [done|]. apply Forall_forall. intros x Hx.
    apply list_elem_of_lookup in Hx as [k Hk]. destruct (decide (x = 0)); [lia|].
    pose proof (lookup_lt_Some _ _ _ Hk) as Hlt. rewrite (fo_len _ _ _ F1) in Hlt.
    assert (slot V1 i1 k = x) as Es by (unfold slot; destruct (Nat.ltb_spec k 13); [by rewrite Hk|lia]).
    assert (own_block s V1 x) as [[_ Hx] _] by (rewrite <- Es; apply F1; [unfold nslots; lia|by rewrite Es]).
    assert (0 <= x < sb_size (sb_of V1)) as Hr.
    { rewrite <- Es. eapply data_range; [exact M1|]. apply F1; [unfold nslots; lia|by rewrite Es]. }
    pose proof (txf_home_bound _ _ _ _ x (wp_tx _ _ _ _ _ _ _ _ _ _ Hpre) ltac:(unfold home; lia)). lia.
Qed.
Lemma write_inum : 0 <= i_inum i < sb_ninodes (sb_of V) /\ i_inum i2 = i_inum i /\ sb_of V1 = sb_of V.
Proof using Hpre.
  destruct write_parts as ([_ _ B1 _ I1 _ _] & _ & _).
  destruct (wp_disk _ _ _ _ _ _ _ _ _ _ Hpre) as [(_ & ? & _) ?].
  split_and!; [done..| |done]. unfold i2. by rewrite I1.
Qed.

Lemma inode_kept m : 0 <= m < sb_ninodes (sb_of V) -> V1 (iblock m) = V (iblock m).
Proof using Hpre.
  intros Hm. destruct write_parts as (_ & Hfp & _). apply Hfp.
  eapply footprint_iblock; [apply Hpre|done..].
Qed.

(** The file grows: the inode is written. *)
Lemma write_post_grow : write_post s V i off src fp (write_inode V1 (i_inum i) (dinode_of i2)) i2.
Proof using Hpre.
  destruct write_parts as (Hw & Hfp & Hwr). destruct write_inum as (Hin & Hi2 & Hsb).
  pose proof (rg_file _ _ _ (wt_regular _ _ _ _ _ _ _ Hwr)) as Hok2.
  assert (length (di_addrs (dinode_of i2)) = 13%nat) as Hl by apply Hok2.
  destruct (wp_disk _ _ _ _ _ _ _ _ _ _ Hpre) as [(_ & _ & Hh) _].
  assert (length (V1 (iblock (i_inum i))) = 512%nat) as Hlen
    by (apply (fm_len _ _ (wr_map _ _ _ _ _ _ _ Hw)); done).
  destruct (write_inode_keep s V1 (i_inum i) (dinode_of i2)) as (_ & _ & Hk);
    [apply Hw|by rewrite Hsb|done..|].
  split.
  - apply wrote_inode; try done; [apply Hpre..|by rewrite Hsb].
  - intros [Hd _]. split; [by apply synced_new|]. rewrite Hi2. apply disk_inode_same; [done|].
    by apply synced_new.
  - intros m Hm Hne. rewrite disk_inode_other by (done || lia). unfold disk_inode. by rewrite inode_kept.
  - intros x Hx Hne. unfold write_inode. rewrite upd_ne by done. by apply Hfp.
  - apply Hfp.
  - intros x Hx. by apply Hk, Hw.
Qed.

(** It does not: then no block was added, and the inode on disk is still right. *)
Lemma write_post_keep : off + n <= i_size i -> write_post s V i off src fp V1 i2.
Proof using Hpre.
  intros Hle. destruct write_parts as (Hw & Hfp & Hwr). destruct write_inum as (Hin & Hi2 & Hsb).
  pose proof Hpre as [_ _ _ [_ Hok _ Hmap] Hfm _ Ho Hmax Hrun _].
  assert (i1 = i) as E1.
  { eapply r_write_mapped; [exact Hok|exact Hfm|apply Ho|exact Hmax| |exact Hrun].
    intros x Hx. apply Hmap. fold n in Hx. lia. }
  assert (i2 = i) as E2.
  { unfold i2. rewrite E1, Z.max_l by lia. by destruct i. }
  split; try done.
  - intros [Hd Hs]. rewrite E2. split; [done|]. unfold disk_inode. by rewrite inode_kept.
  - intros m Hm Hne. unfold disk_inode. by rewrite inode_kept.
  - intros x Hx _. by apply Hfp.
  - apply Hfp.
  - intros x Hx. by apply Hw.
Qed.

(** The end of [writei] when the file has grown. *)
Lemma writei_grow s1 :
  txf F s1 V1 [] -> fframe s s1 -> k_inodes s1 = <[ip := i1]> (k_inodes s) -> i_size i < off + n ->
  runs (updi ip (iset_size (off + n)) ;; iupdate ip) s1 (fun _ s' =>
    txf F s' (write_inode V1 (i_inum i) (dinode_of i2)) [] /\ fframe s s' /\    k_inodes s' = <[ip := i2]> (k_inodes s)).
Proof using Hpre.
  intros Hx1 Hf1 Hi1 Hg. pose proof Hpre as [Hx Ht Hi _ _ [Hd _] _ _ _ Hfoot].
  destruct write_parts as (Hw & Hfp & Hwr). destruct write_inum as (Hin & Hi2 & Hsb).
  pose proof (lookup_lt_Some _ _ _ Hi) as Hlt.
  eapply runs_updi; [rewrite Hi1; by apply list_lookup_insert_eq|].
  assert (iset_size (off + n) i1 = i2) as -> by (unfold i2; by rewrite Z.max_r by lia).
  set (s2 := set_inodes _ s1).
  assert (fframe s s2) as Hf2 by (etrans; [exact Hf1|]; apply fframe_set_inodes).
  eapply runs_mono; [eapply (iupdate_txf F s2 V1 [] ip i2)|].
  - by apply txf_set_inodes.
  - by apply (fframe_trans s).
  - simpl. rewrite Hi1. apply list_lookup_insert_eq. by rewrite length_insert.
  - unfold on_disk. rewrite Hi2. unfold i2. rewrite (wr_inode _ _ _ _ _ _ _ Hw).
    by apply (fframe_on_disk s s2 i).
  - rewrite Hi2. apply Hfoot. left.
  - void.
  - simpl. lia.
  - apply (wt_regular _ _ _ _ _ _ _ Hwr).
  - intros [] s3 (Hx3 & Hf3). rewrite Hi2 in Hx3. split_and!; [done| |].
    + etrans; [exact Hf2|]. by apply tframe_fframe.
    + rewrite (tframe_inodes _ _ Hf3). simpl. by rewrite Hi1, list_insert_insert_eq.
Qed.

Lemma writei_txf dv :
  runs (writei dv ip src off n) s (fun r s' => r = n /\ exists V' i',
    txf F s' V' [] /\ fframe s s' /\ k_inodes s' = <[ip := i']> (k_inodes s) /\
    write_post s V i off src fp V' i').
Proof using Hpre.
  pose proof Hpre as [Hx Ht Hi [Hty Hok Hsz Hmap] Hfm [Hd Hni] Ho Hmax Hrun Hfoot].
  destruct write_parts as (Hw & Hfp & Hwr).
  assert (0 <= n /\ off + n < 2147483648) as Hb by (unfold n, MAXFILE, NDIRECT, NINDIRECT, BSIZE in *; lia).
  unfold writei. eapply runs_geti; [exact Hi|]. apply runs_if_false; [by apply Z.eqb_neq|].
  rewrite u32_small by lia. apply runs_if_false.
  { apply orb_false_iff. rewrite !Z.ltb_ge. lia. }
  apply runs_if_false; [by apply Z.ltb_ge|].
  eapply runs_step; [eapply (writei_loop_txf F ip _ s V i src 0 n off); try done|].
  - apply Ho.
  - lia.
  - by rewrite Z.sub_0_r.
  - split; [done|]. intros x Hin'. apply Hfoot. by right.
  - intros ? s1 (-> & Hx1 & Hf1 & Hi1). fold n.
    eapply runs_geti; [rewrite Hi1; apply list_lookup_insert_eq; by eapply lookup_lt_Some|].
    rewrite (wr_inode _ _ _ _ _ _ _ Hw) at 1. cbn [i_size iset_addrs].
    destruct (Z.ltb_spec (i_size i) (off + n)) as [Hg|Hg].
    + rewrite (proj2 (Z.ltb_lt 0 n)) by lia. cbn [andb].
      eapply runs_step; [by apply writei_grow|]. intros [] s2 (Hx2 & Hf2 & Hi2). apply runs_ret.
      split; [apply s32_small; lia|]. eexists _, i2. split_and!; [exact Hx2|done|done|apply write_post_grow].
    + rewrite andb_false_r. eapply runs_eq; [done|]. apply runs_ret. split; [apply s32_small; lia|].
      exists V1, i2. split_and!; [done|done| |by apply write_post_keep].
      assert (i2 = i1) as ->; [|done]. unfold i2. rewrite Z.max_l by lia.
      rewrite (wr_inode _ _ _ _ _ _ _ Hw). by destruct i.
Qed.
End write.

(** ** The properties *)

Section props.
Context {drv : DiskDriver}.

(** C18. [readi] returns the file's bytes from [off], as many as asked for or as the file has;
    it fails exactly when [off] is past the end or [off + n] overflows 32 bits. It
    changes no block and no cached inode, and needs no transaction. *)
Theorem readi_contents F dv s V ip i off n :
  txf F s V [] -> k_inodes s !! ip = Some i -> regular s V i -> free_map_ok s V ->
  0 <= off < 4294967296 -> 0 <= n < 4294967296 ->
  runs (readi dv ip off n) s (fun r s' =>
    r = (if decide (off <= i_size i /\ off + n < 4294967296)
         then let c := Z.min n (i_size i - off) in (c, file_bytes V i off (Z.to_nat c))
         else (-1, [])) /\
    txf F s' V [] /\ k_inodes s' = k_inodes s /\ l_busy (k_log s') = l_busy (k_log s)).
Proof.
  intros Hx Hi Hreg Hfm Ho Hn. eapply runs_mono; [by apply (readi_txf F dv s V ip i off n)|].
  intros r s' (-> & Hx' & Hf). split_and!; [|done|by apply tframe_inodes|by apply tframe_busy].
  unfold read_result. case_decide as Hd.
  - rewrite u32_small by lia. by rewrite !(proj2 (Z.ltb_ge _ _)) by lia.
  - destruct (Z.ltb_spec (i_size i) off); [done|].
    destruct (Z.ltb_spec (u32 (off + n)) off) as [|Hge]; [done|].
    exfalso. apply Hd. split; [done|]. by apply u32_no_wrap.
Qed.

(** C19. [writei] inside a transaction with room for it writes all of [src] at [off]: every other
    byte of the file is unchanged, the size is the larger of the old one and the end of the write,
    the file still has no holes, and the inode on disk agrees with the cached one again. *)
Theorem writei_contents F dv s V ip i off src V1 i1 fp :
  write_pre F s V ip i off src V1 i1 fp ->
  runs (writei dv ip src off (Z.of_nat (length src))) s (fun r s' =>
    r = Z.of_nat (length src) /\ exists V' i',
    txf F s' V' [] /\ k_inodes s' = <[ip := i']> (k_inodes s) /\
    regular s' V' i' /\ free_map_ok s' V' /\
    i_size i' = Z.max (i_size i) (off + Z.of_nat (length src)) /\
    (forall x, 0 <= x < i_size i' ->
       Some (fbyte V' i' x) = if decide (off <= x < off + Z.of_nat (length src))
                              then src !! Z.to_nat (x - off) else Some (fbyte V i x)) /\
    (synced V i -> synced V' i')).
Proof.
  intros Hpre. eapply runs_mono; [by eapply writei_txf|].
  intros r s' (-> & V' & i' & Hx' & Hf & Hi' & [[Hr Hm Hsz _ Hin Hout] Hs _ _ _ _]). split; [done|].
  exists V', i'. split_and!; try done; [by eapply fframe_regular|by eapply fframe_free_map|].
  intros x Hx. case_decide; [by apply Hin|]. f_equal. apply Hout; [|done].
  rewrite Hsz in Hx. pose proof (wp_off _ _ _ _ _ _ _ _ _ _ Hpre). lia.
Qed.

(** C20. [writei] does not touch other files: a file that shares no block with the one written
    keeps its blocks and its contents, and every other inode on disk is unchanged. *)
Theorem writei_isolated F dv s V ip i off src V1 i1 fp j :
  write_pre F s V ip i off src V1 i1 fp -> file_ok s V j ->
  (forall n m, (n < nslots)%nat -> (m < nslots)%nat -> slot V i n = slot V j m -> slot V j m = 0) ->
  runs (writei dv ip src off (Z.of_nat (length src))) s (fun _ s' => exists V',
    txf F s' V' [] /\ file_ok s' V' j /\
    (forall m, slot V' j m = slot V j m) /\
    (forall x, 0 <= x < MAXFILE * BSIZE -> baddr V j (x / BSIZE) <> 0 -> fbyte V' j x = fbyte V j x) /\
    (forall n, 0 <= n < sb_ninodes (sb_of V) -> n <> i_inum i -> disk_inode V' n = disk_inode V n)).
Proof.
  intros Hpre Hj Hdis. eapply runs_mono; [by eapply writei_txf|].
  intros r s' (-> & V' & i' & Hx' & Hf & Hi' & [_ _ Hin Hbl Hown Hused]). exists V'.
  destruct (wp_disk _ _ _ _ _ _ _ _ _ _ Hpre) as [(_ & Hn0 & _) Hn1].
  assert (forall m, (m < nslots)%nat -> slot V j m <> 0 -> V' (slot V j m) = V (slot V j m)) as Hk.
  { intros m Hm Hz. assert (own_block s V (slot V j m)) as Ho by by apply Hj. apply Hbl.
    - intros Hfp. destruct (Hown _ Hfp Ho) as (n & Hn & En). by apply Hz, (Hdis n m).
    - eapply data_block_iblock; [apply Hpre|apply Ho|done]. }
  assert (ind_block j <> 0 -> V' (ind_block j) = V (ind_block j)) as Hind.
  { rewrite <- (ind_slot V). apply Hk. unfold nslots. lia. }
  assert (forall m, slot V' j m = slot V j m) as Es by (intros m; by apply slot_agree).
  split_and!; try done.
  - eapply fframe_file; [done|]. by eapply file_ok_agree.
  - intros x Hx Hz. destruct (block_of x Hx) as [Hb _]. destruct (bslot_lt _ Hb) as [Hns _].
    unfold fbyte, baddr in *. by rewrite !Es, Hk.
Qed.

Lemma wrote_bytes s V i V' i' off src :
  wrote s V i V' i' off src -> file_bytes V' i' off (length src) = src.
Proof.
  intros Hw. apply list_eq. intros k. unfold file_bytes. change (map ?f ?l) with (f <$> l).
  rewrite list_lookup_fmap. destruct (decide (k < length src)%nat).
  - rewrite lookup_seq_lt by lia. cbn [fmap option_fmap option_map]. rewrite Nat.add_0_l.
    rewrite (wt_in _ _ _ _ _ _ _ Hw) by lia. f_equal. lia.
  - by rewrite lookup_seq_ge, lookup_ge_None_2 by lia.
Qed.

(** C21. What [writei] wrote, [readi] reads back. *)
Theorem writei_readi F dv s V ip i off src V1 i1 fp :
  write_pre F s V ip i off src V1 i1 fp ->
  let n := Z.of_nat (length src) in
  runs (r <- writei dv ip src off n ;; q <- readi dv ip off n ;; ret (r, q)) s
    (fun rq _ => rq = (n, (n, src))).
Proof.
  intros Hpre n. eapply runs_step; [by eapply writei_txf|].
  intros r s1 (-> & V' & i' & Hx1 & Hf & Hi1 & [Hw _ _ _ _ _]).
  pose proof (wp_off _ _ _ _ _ _ _ _ _ _ Hpre). pose proof (wp_max _ _ _ _ _ _ _ _ _ _ Hpre) as Hmax.
  assert (off + n < 4294967296) as Hb by (unfold n, MAXFILE, NDIRECT, NINDIRECT, BSIZE in *; lia).
  pose proof (wt_size _ _ _ _ _ _ _ Hw) as Hsz.
  eapply runs_step; [apply (readi_txf F dv s1 V' ip i' off n Hx1)|].
  - rewrite Hi1. apply list_lookup_insert_eq. eapply lookup_lt_Some, Hpre.
  - eapply fframe_regular; [done|apply Hw].
  - eapply fframe_free_map; [done|apply Hw].
  - unfold n in *. lia.
  - unfold n in *. lia.
  - intros q s2 (-> & _ & _). apply runs_ret. f_equal. unfold read_result.
    rewrite u32_small by (unfold n in *; lia).
    rewrite !(proj2 (Z.ltb_ge _ _)) by (unfold n in *; lia). cbn [orb]. cbv zeta.
    rewrite Hsz, Z.min_l by (unfold n in *; lia). unfold n. rewrite Nat2Z.id.
    by erewrite wrote_bytes.
Qed.
End props.

(** ** Witnesses *)

(** A file of one block. *)
Lemma one_block_slot V i a n :
  i_addrs i = demo_addrs a -> slot V i n = if decide (n = 0%nat) then a else 0.
Proof.
  intros Ha. unfold slot, ind_block. rewrite Ha. unfold demo_addrs. destruct n as [|n]; [done|].
  rewrite decide_False by done. destruct (S n <? 13)%nat; [|done].
  change ((a :: replicate 12 0) !! S n) with (replicate 12 0 !! n).
  destruct (replicate 12 0 !! n) eqn:E; [|done]. by apply lookup_replicate in E as [-> _].
Qed.

Lemma one_block_file s V i a :
  i_dev i = ROOTDEV -> i_addrs i = demo_addrs a -> own_block s V a -> file_ok s V i.
Proof.
  intros Hd Ha Ho. split; [done|by rewrite Ha|..].
  - intros n _. rewrite (one_block_slot V i a) by done. by case_decide.
  - intros n m _ _. rewrite !(one_block_slot V i a) by done. repeat case_decide; congruence.
Qed.

Lemma demo_i_free_map : free_map_ok demo_i demo_V.
Proof. eapply fframe_free_map; [apply fframe_set_inodes|apply demo_free_map]. Qed.

Lemma demo_own a : a = 5 \/ a = 6 -> own_block demo_i demo_V a.
Proof.
  intros Ha. split.
  - unfold data_block, data_start, bitmap_block, BBLOCK. rewrite demo_sb_of. cbn [sb_size sb_ninodes].
    change (l_start (k_log demo_i)) with 20. change ((30 - 1) / BPB + 8 / IPB + 3 + 1) with 5. lia.
  - destruct Ha as [-> | ->]; vm_compute; reflexivity.
Qed.

Lemma demo_regular : regular demo_i demo_V demo_cached.
Proof.
  split; [done| |unfold MAXFILE, NDIRECT, NINDIRECT, BSIZE; simpl; lia|].
  - apply (one_block_file _ _ _ 6); [done..|]. apply demo_own. lia.
  - intros x Hx. change (i_size demo_cached) with 5 in Hx. unfold BSIZE.
    rewrite Z.div_small by lia. unfold baddr. by rewrite (one_block_slot _ _ 6).
Qed.

Definition no_dev : devsw := Devsw (fun _ => None) (fun _ => None).

Lemma readi_contents_witness :
  exists s', readi (drv := memide) no_dev 0 1 100 demo_i = Ret (4, [101; 108; 108; 111]) s'.
Proof.
  destruct (readi_contents (drv := memide) ∅ no_dev demo_i demo_V 0 demo_cached 1 100)
    as (r & s' & Hrun & -> & _).
  - apply demo_i_txf. vm_compute. lia.
  - done.
  - apply demo_regular.
  - apply demo_i_free_map.
  - lia.
  - lia.
  - exists s'. rewrite Hrun. vm_compute. reflexivity.
Defined.

(** Appending 510 bytes: the write fills block 6 and adds block 7. *)
Definition demo_src : list Z := replicate 510 120.
Definition demo_write : option (((Z -> list Z) * inode * Z) * list Z) :=
  r_write (copy_fuel 510) demo_V demo_cached demo_src 5.
Definition write_F : gset Z := {[2; 4; 6; 7]}.

Lemma demo_write_run : exists V1 i1, demo_write = Some ((V1, i1, 515), [6; 4; 7; 7]).
Proof.
  assert ((fun r => (r.1.2, r.2)) <$> demo_write = Some (515, [6; 4; 7; 7])) as E by (vm_compute; reflexivity).
  destruct demo_write as [[[[V1 i1] o] fp]|]; [|done]. simpl in E. injection E as -> ->. by exists V1, i1.
Qed.

Lemma demo_write_pre V1 i1 :
  demo_write = Some ((V1, i1, 515), [6; 4; 7; 7]) ->
  write_pre write_F demo_i demo_V 0 demo_cached 5 demo_src V1 i1 [6; 4; 7; 7].
Proof.
  intros Hrun. split; [| | | | | | | |exact Hrun|]; clear Hrun.
  - apply demo_i_txf. vm_compute. lia.
  - exact demo_trans.
  - reflexivity.
  - apply demo_regular.
  - apply demo_i_free_map.
  - split; [|rewrite demo_sb_of; simpl; lia]. split_and!; [reflexivity|simpl; lia|].
    unfold home. change (l_start (k_log demo_i)) with 20. change (iblock (i_inum demo_cached)) with 2. lia.
  - change (i_size demo_cached) with 5. lia.
  - unfold demo_src. rewrite length_replicate. unfold MAXFILE, NDIRECT, NINDIRECT, BSIZE. lia.
  - change (iblock (i_inum demo_cached)) with 2. unfold write_F. intros x.
    rewrite !elem_of_cons, elem_of_nil, !elem_of_union, !elem_of_singleton. lia.
Qed.

Lemma writei_contents_witness :
  exists s', writei (drv := memide) no_dev 0 demo_src 5 510 demo_i = Ret 510 s'.
Proof.
  destruct demo_write_run as (V1 & i1 & Hrun).
  destruct (writei_contents (drv := memide) write_F no_dev _ _ _ _ _ _ V1 i1 _ (demo_write_pre V1 i1 Hrun))
    as (r & s' & Hw & -> & _). by exists s'.
Defined.

(** The root directory as a file. *)
Definition demo_dir_inode : inode := load_dinode demo_root (Inode ROOTDEV 1 1 I_VALID 0 0 0 0 0 []).

Lemma writei_isolated_witness :
  exists r s', writei (drv := memide) no_dev 0 demo_src 5 510 demo_i = Ret r s'.
Proof.
  destruct demo_write_run as (V1 & i1 & Hrun).
  destruct (writei_isolated (drv := memide) write_F no_dev _ _ _ _ _ _ V1 i1 _ demo_dir_inode
    (demo_write_pre V1 i1 Hrun)) as (r & s' & Hw & _).
  - apply (one_block_file _ _ _ 5); [reflexivity|reflexivity|]. apply demo_own. by left.
  - intros n m _ _. rewrite (one_block_slot _ demo_dir_inode 5), (one_block_slot _ demo_cached 6) by done.
    repeat case_decide; done.
  - by exists r, s'.
Defined.

Lemma writei_readi_witness :
  exists s', (r <- writei (drv := memide) no_dev 0 demo_src 5 510 ;;
              q <- readi (drv := memide) no_dev 0 5 510 ;; ret (r, q)) demo_i
    = Ret (510, (510, demo_src)) s'.
Proof.
  destruct demo_write_run as (V1 & i1 & Hrun).
  destruct (writei_readi (drv := memide) write_F no_dev _ _ _ _ _ _ V1 i1 _ (demo_write_pre V1 i1 Hrun))
    as (r & s' & Hw & ->). by exists s'.
Defined.
