(* ===== verification/Mem.v ===== *)
(** * Kernel memory as bytes

    The bytes the kernel reads and writes through pointers: allocator pages, page tables,
    kernel stacks and user pages, in [m_mem], keyed by kernel virtual address. An access to an
    address that holds no memory is a fault. 64-bit words are little-endian, as on x86. *)

From S2P Require Import Prelude Types Monad.

(** The bytes of a page, kept folded: proofs use its value through [PGBYTES_Z]. *)
Definition PGBYTES : nat := Z.to_nat PGSIZE.
Lemma PGBYTES_Z : Z.of_nat PGBYTES = 4096.
Proof. done. Qed.
#[global] Opaque PGBYTES.

(** Arithmetic on pages. *)
Ltac pages := unfold PGSIZE in *; pose proof PGBYTES_Z; lia.

(** ** Words in bytes *)

Fixpoint le_bytes (n : nat) (v : Z) : list Z :=
  match n with
  | O => []
  | S n => v mod 256 :: le_bytes n (v / 256)
  end.

Fixpoint le_val (l : list Z) : Z :=
  match l with
  | [] => 0
  | b :: l => b + 256 * le_val l
  end.

Lemma length_le_bytes n v : length (le_bytes n v) = n.
Proof. revert v. induction n; intros v; simpl; auto. Qed.

Lemma le_val_bytes n v : le_val (le_bytes n v) = v mod 256 ^ Z.of_nat n.
Proof.
  revert v. induction n as [|n IH]; intros v; cbn [le_bytes le_val].
  - by rewrite Z.mod_1_r.
  - rewrite IH, Nat2Z.inj_succ, Z.pow_succ_r by lia.
    rewrite (Z.rem_mul_r v 256) by lia. lia.
Qed.

Lemma le_val_bytes_64 v : 0 <= v < 18446744073709551616 -> le_val (le_bytes 8 v) = v.
Proof. intros Hv. rewrite le_val_bytes. by apply Z.mod_small. Qed.

(** ** Reading and writing ranges *)

Definition mem_has (m : gmap Z Z) (a : Z) (n : nat) : bool :=
  forallb (fun x => bool_decide (is_Some (m !! x))) (seqZ a (Z.of_nat n)).
Definition mem_read (m : gmap Z Z) (a : Z) (n : nat) : option (list Z) :=
  mapM (fun x => m !! x) (seqZ a (Z.of_nat n)).
Definition mem_put (m : gmap Z Z) (a : Z) (l : list Z) : gmap Z Z := map_seqZ a l ∪ m.

Lemma mem_has_spec m a n :
  mem_has m a n = true <-> forall x, a <= x < a + Z.of_nat n -> is_Some (m !! x).
Proof.
  unfold mem_has. rewrite forallb_forall. split.
  - intros H x Hx. specialize (H x). rewrite bool_decide_eq_true in H. apply H.
    apply list_elem_of_In, elem_of_seqZ. lia.
  - intros H x Hx%list_elem_of_In%elem_of_seqZ. apply bool_decide_eq_true. apply H. lia.
Qed.

Lemma lookup_mem_put m a l x :
  mem_put m a l !! x = if decide (a <= x < a + Z.of_nat (length l)) then l !! Z.to_nat (x - a) else m !! x.
Proof.
  unfold mem_put. case_decide as H.
  - destruct (lookup_lt_is_Some_2 l (Z.to_nat (x - a))) as [y Hy]; [lia|]. rewrite Hy.
    apply lookup_union_Some_l. apply lookup_map_seqZ_Some. split; [lia|done].
  - apply lookup_union_r. apply eq_None_not_Some. intros [y Hy].
    apply lookup_map_seqZ_Some in Hy as [Ha Hy]. apply lookup_lt_Some in Hy. lia.
Qed.

Lemma mem_put_some m a l x :
  (forall y, a <= y < a + Z.of_nat (length l) -> is_Some (m !! y)) ->
  is_Some (mem_put m a l !! x) <-> is_Some (m !! x).
Proof.
  intros Hm. rewrite lookup_mem_put. case_decide as H; [|done].
  split; [by intros _; apply Hm|]. intros _. apply lookup_lt_is_Some. lia.
Qed.

Lemma mem_read_ext m m' a n :
  (forall x, a <= x < a + Z.of_nat n -> m' !! x = m !! x) -> mem_read m' a n = mem_read m a n.
Proof.
  intros H. unfold mem_read.
  assert (forall l, (forall x, x ∈ l -> m' !! x = m !! x) ->
    mapM (fun x => m' !! x) l = mapM (fun x => m !! x) l) as Hl.
  { induction l as [|x l IH]; intros Hx; [done|]. cbn [mapM]. rewrite (Hx x) by left.
    rewrite IH; [done|]. intros y Hy. apply Hx. by right. }
  apply Hl. intros x Hx%elem_of_seqZ. apply H. lia.
Qed.

Lemma mem_read_spec m a n l :
  mem_read m a n = Some l <->
  length l = n /\ forall k, (k < n)%nat -> m !! (a + Z.of_nat k) = l !! k.
Proof.
  unfold mem_read. rewrite mapM_Some, Forall2_lookup. split.
  - intros H. assert (length l = n) as Hl.
    { pose proof (Forall2_length _ _ _ (proj2 (Forall2_lookup _ _ _) H)) as E.
      rewrite length_seqZ in E. lia. }
    split; [done|]. intros k Hk. specialize (H k).
    rewrite (proj2 (lookup_seqZ a (Z.of_nat n) k (a + Z.of_nat k))) in H by lia.
    inversion H; subst. done.
  - intros [Hl H] k. destruct (decide (k < n)%nat) as [Hk|Hk].
    + rewrite (proj2 (lookup_seqZ a (Z.of_nat n) k (a + Z.of_nat k))) by lia.
      destruct (lookup_lt_is_Some_2 l k) as [y Hy]; [lia|]. rewrite Hy. constructor.
      by rewrite H, Hy.
    + rewrite lookup_seqZ_ge by lia.
      rewrite lookup_ge_None_2 by lia. constructor.
Qed.

(** A range just written is read back; a range outside is unchanged. *)
Lemma mem_read_put_same m a l : mem_read (mem_put m a l) a (length l) = Some l.
Proof.
  apply mem_read_spec. split; [done|]. intros k Hk. rewrite lookup_mem_put, decide_True by lia.
  f_equal. lia.
Qed.

Lemma mem_read_put_other m a l b n :
  b + Z.of_nat n <= a \/ a + Z.of_nat (length l) <= b -> mem_read (mem_put m a l) b n = mem_read m b n.
Proof.
  intros H. apply mem_read_ext. intros x Hx. rewrite lookup_mem_put, decide_False by lia. done.
Qed.

Lemma mem_read_some m a n :
  (forall x, a <= x < a + Z.of_nat n -> is_Some (m !! x)) -> exists l, mem_read m a n = Some l.
Proof.
  intros H. exists ((fun x => default 0 (m !! x)) <$> seqZ a (Z.of_nat n)). apply mem_read_spec.
  split; [rewrite length_fmap, length_seqZ; lia|]. intros k Hk.
  rewrite list_lookup_fmap, (proj2 (lookup_seqZ a (Z.of_nat n) k (a + Z.of_nat k))) by lia.
  simpl. by destruct (H (a + Z.of_nat k) ltac:(lia)) as [y ->].
Qed.

(** ** Words *)

Definition word (m : gmap Z Z) (a : Z) : option Z := le_val <$> mem_read m a 8.
Definition put_word (m : gmap Z Z) (a v : Z) : gmap Z Z := mem_put m a (le_bytes 8 v).

Lemma word_put_same m a v : 0 <= v < 18446744073709551616 -> word (put_word m a v) a = Some v.
Proof.
  intros Hv. unfold word, put_word.
  pose proof (mem_read_put_same m a (le_bytes 8 v)) as E. rewrite length_le_bytes in E. rewrite E.
  cbn [fmap option_fmap option_map]. by rewrite le_val_bytes_64.
Qed.

Lemma word_put_other m a v b : b + 8 <= a \/ a + 8 <= b -> word (put_word m a v) b = word m b.
Proof.
  intros H. unfold word, put_word. rewrite mem_read_put_other; [done|]. rewrite length_le_bytes. lia.
Qed.

Lemma word_ext m m' a : (forall x, a <= x < a + 8 -> m' !! x = m !! x) -> word m' a = word m a.
Proof. intros H. unfold word. by rewrite (mem_read_ext m m'). Qed.

Lemma lookup_put_word_other m a v x : ~ a <= x < a + 8 -> put_word m a v !! x = m !! x.
Proof. intros H. unfold put_word. rewrite lookup_mem_put, length_le_bytes, decide_False by lia. done. Qed.

Lemma put_word_some m a v x :
  (forall y, a <= y < a + 8 -> is_Some (m !! y)) -> is_Some (m !! x) -> is_Some (put_word m a v !! x).
Proof. intros Hm Hx. apply mem_put_some; [by rewrite length_le_bytes|done]. Qed.

(** ** In the kernel monad *)

Definition kmem_get (s : kstate) : gmap Z Z := m_mem (k_kmem s).
Definition set_mem (m : gmap Z Z) (s : kstate) : kstate := set_kmem (mset_mem m (k_kmem s)) s.

Definition load64 (a : Z) : K Z :=
  fun s => match word (kmem_get s) a with Some v => Ret v s | None => Fault s end.
Definition load_bytes (a : Z) (n : nat) : K (list Z) :=
  fun s => match mem_read (kmem_get s) a n with Some l => Ret l s | None => Fault s end.
Definition store_bytes (a : Z) (l : list Z) : K unit :=
  fun s => if mem_has (kmem_get s) a (length l) then Ret tt (set_mem (mem_put (kmem_get s) a l) s)
           else Fault s.
Definition store64 (a v : Z) : K unit := store_bytes a (le_bytes 8 v).

(** [memset] and [memmove] on this memory, by their specifications in KString.v. *)
Definition fill_bytes (a c : Z) (n : nat) : K unit := store_bytes a (replicate n (u8 c)).
Definition move_bytes (dst src : Z) (n : nat) : K unit :=
  l <- load_bytes src n ;; store_bytes dst l.

(** [n] bytes of memory at [a]. *)
Definition mapped_range (m : gmap Z Z) (a : Z) (n : nat) : Prop :=
  forall x, a <= x < a + Z.of_nat n -> is_Some (m !! x).

Lemma store_bytes_eq a l s :
  mapped_range (kmem_get s) a (length l) ->
  store_bytes a l s = Ret tt (set_mem (mem_put (kmem_get s) a l) s).
Proof. intros H. unfold store_bytes. by rewrite (proj2 (mem_has_spec _ _ _)). Qed.

Lemma store64_eq a v s :
  mapped_range (kmem_get s) a 8 -> store64 a v s = Ret tt (set_mem (put_word (kmem_get s) a v) s).
Proof. intros H. unfold store64. by rewrite store_bytes_eq by by rewrite length_le_bytes. Qed.

Lemma load64_eq a v s : word (kmem_get s) a = Some v -> load64 a s = Ret v s.
Proof. intros H. unfold load64. by rewrite H. Qed.

Lemma mapped_put m a l b n :
  mapped_range m a (length l) -> mapped_range m b n -> mapped_range (mem_put m a l) b n.
Proof. intros Ha Hb x Hx. apply mem_put_some; [done|]. by apply Hb. Qed.

Lemma mapped_put_word m a v b n :
  mapped_range m a 8 -> mapped_range m b n -> mapped_range (put_word m a v) b n.
Proof. intros Ha. apply mapped_put. by rewrite length_le_bytes. Qed.

Lemma mapped_sub m a n b k :
  mapped_range m a n -> a <= b -> b + Z.of_nat k <= a + Z.of_nat n -> mapped_range m b k.
Proof. intros H Hb Hk x Hx. apply H. lia. Qed.

Lemma mapped_word m a : mapped_range m a 8 -> exists v, word m a = Some v.
Proof. intros H. unfold word. destruct (mem_read_some m a 8 H) as [l ->]. by eexists. Qed.

(** The lemmas above are the interface: the maps behind them stay folded. *)
#[global] Opaque mem_put put_word.
