(* ===== verification/Kalloc.v ===== *)
(** * The page allocator (kernel/kalloc.c)

    Free pages are a linked list through their own first words. The theorems relate the list
    in memory to a stack of pages: no page is lost, none is handed out twice. *)

From S2P Require Import Prelude Types Monad Sched Mem.

(** ** Addresses (include/memlayout.h, include/mmu.h; 64-bit build) *)

Definition EXTMEM : Z := 1048576.
Definition PHYSTOP : Z := 234881024.
Definition KERNBASE : Z := 18446744071562067968.
Definition v2p (a : Z) : Z := u64 (a - KERNBASE).
Definition p2v (a : Z) : Z := u64 (a + KERNBASE).
Definition PGROUNDUP (sz : Z) : Z := Z.land (u64 (sz + (PGSIZE - 1))) (Z.lnot (PGSIZE - 1)).
Definition PGROUNDDOWN (a : Z) : Z := Z.land a (Z.lnot (PGSIZE - 1)).

(** Where the kernel image ends: [extern char end[]], set by the linker. *)
Class Layout := { kend : Z }.

Section code.
Context {L : Layout}.

Definition get_kmem : K kmem := gets k_kmem.
Definition upd_kmem (f : kmem -> kmem) : K unit := modify (fun s => set_kmem (f (k_kmem s)) s).

(** [if(kmem.use_lock) acquire(&kmem.lock)] and its release. *)
Definition kmem_lock : K unit :=
  m <- get_kmem ;; if negb (m_use_lock m =? 0) then acquire LKmem else ret tt.
Definition kmem_unlock : K unit :=
  m <- get_kmem ;; if negb (m_use_lock m =? 0) then release LKmem else ret tt.

Definition kfree (v : Z) : K unit :=
  if negb (v mod PGSIZE =? 0) || (v <? kend) || (PHYSTOP <=? v2p v) then panic "kfree" else
  fill_bytes v 1 PGBYTES ;;
  kmem_lock ;;
  m <- get_kmem ;;
  store64 v (m_freelist m) ;;
  upd_kmem (mset_freelist v) ;;
  kmem_unlock.

Definition kalloc : K Z :=
  kmem_lock ;;
  m <- get_kmem ;;
  let r := m_freelist m in
  (if negb (r =? 0) then
     next <- load64 r ;;
     upd_kmem (mset_freelist next)
   else ret tt) ;;
  kmem_unlock ;;
  ret r.

Fixpoint freerange_loop (fuel : nat) (p vend : Z) : K unit :=
  match fuel with
  | O => nofuel
  | S fuel =>
      if u64 (p + PGSIZE) <=? vend then kfree p ;; freerange_loop fuel (u64 (p + PGSIZE)) vend
      else ret tt
  end.

(** One iteration per page, and the last test. *)
Definition freerange (vstart vend : Z) : K unit :=
  freerange_loop (S (Z.to_nat ((vend - PGROUNDUP vstart) / PGSIZE))) (PGROUNDUP vstart) vend.

Definition kinit1 (vstart vend : Z) : K unit :=
  initlock LKmem ;;
  upd_kmem (mset_use_lock 0) ;;
  freerange vstart vend.

Definition kinit2 (vstart vend : Z) : K unit :=
  freerange vstart vend ;;
  upd_kmem (mset_use_lock 1).

(** ** The free list *)

(** A page the allocator manages. *)
Record page_ok (v : Z) : Prop := {
  pg_align : v mod PGSIZE = 0;
  pg_low : kend <= v;
  pg_base : KERNBASE <= v;
  pg_high : v + PGSIZE <= KERNBASE + PHYSTOP
}.

(** The pages of the list that starts at [hd]. *)
Fixpoint chain (m : gmap Z Z) (hd : Z) (l : list Z) : Prop :=
  match l with
  | [] => hd = 0
  | v :: l => hd = v /\ exists next, word m v = Some next /\ chain m next l
  end.

Record kmem_ok (s : kstate) (l : list Z) : Prop := {
  km_chain : chain (kmem_get s) (m_freelist (k_kmem s)) l;
  km_nodup : NoDup l;
  km_pages : forall v, v ∈ l -> page_ok v /\ mapped_range (kmem_get s) v PGBYTES
}.

Lemma page_bounds v : page_ok v -> 0 < v /\ v + PGSIZE < 18446744073709551616 /\ v2p v = v - KERNBASE.
Proof.
  intros [Ha Hl Hb Hh]. unfold v2p, KERNBASE, PHYSTOP, PGSIZE in *. split; [lia|]. split; [lia|].
  apply u64_small. lia.
Qed.

(** Pages are equal or disjoint. *)
Lemma page_disjoint v w : page_ok v -> page_ok w -> v <> w -> v + PGSIZE <= w \/ w + PGSIZE <= v.
Proof.
  intros [Hv _ _ _] [Hw _ _ _] Hne. unfold PGSIZE in *.
  pose proof (Z.div_mod v 4096). pose proof (Z.div_mod w 4096). lia.
Qed.

Lemma chain_ext m m' hd l :
  (forall v x, v ∈ l -> v <= x < v + 8 -> m' !! x = m !! x) -> chain m hd l -> chain m' hd l.
Proof.
  revert hd. induction l as [|v l IH]; intros hd Hx; [done|].
  intros [-> (next & Hn & Hc)]. split; [done|]. exists next. split.
  - rewrite (word_ext m m'); [done|]. intros x Hr. apply (Hx v); [left|done].
  - apply IH; [|done]. intros w x Hw. apply Hx. by right.
Qed.

Lemma chain_head_bound m hd l : (forall v, v ∈ l -> page_ok v) -> chain m hd l -> 0 <= hd < 18446744073709551616.
Proof.
  destruct l as [|v l]; simpl; [lia|]. intros Hp [-> _].
  pose proof (page_bounds v (Hp v ltac:(left))). pages.
Qed.

(** ** The operations on a well-formed list *)

Lemma bind_ret_tt (m : K unit) s : (m ;; ret tt) s = m s.
Proof. unfold bind. by destruct (m s) as [[] ?| | | |]. Qed.

Lemma kmem_lock_eq {A} s (f : unit -> K A) (g : kmem -> kmem) (a : A) :
  LKmem ∉ k_held s ->
  (forall s', k_kmem s' = k_kmem s -> f tt s' = (kmem_unlock ;; ret a) (set_kmem (g (k_kmem s)) s')) ->
  m_use_lock (g (k_kmem s)) = m_use_lock (k_kmem s) ->
  bind kmem_lock f s = Ret a (set_kmem (g (k_kmem s)) s).
Proof.
  intros Hl Hf Hu. unfold bind at 1, kmem_lock, get_kmem, gets, bind at 1.
  destruct (m_use_lock (k_kmem s) =? 0) eqn:E; cbn [negb].
  - unfold ret at 1. rewrite Hf by done. unfold kmem_unlock, get_kmem, gets, bind. simpl.
    rewrite Hu, E. done.
  - rewrite acquire_free by done. rewrite Hf by done. unfold kmem_unlock, get_kmem, gets, bind. simpl.
    rewrite Hu, E. cbn [negb]. rewrite (release_top _ (k_held s)) by done. by destruct s.
Qed.

Lemma kalloc_empty s : LKmem ∉ k_held s -> kmem_ok s [] -> kalloc s = Ret 0 s.
Proof.
  intros Hl [Hc _ _]. unfold kalloc.
  assert (set_kmem (k_kmem s) s = s) as E by by destruct s. rewrite <- E at 2.
  apply (kmem_lock_eq s _ (fun m => m)); [done| |done].
  intros s' Hs. unfold bind at 1, get_kmem, gets. rewrite Hs. simpl in Hc. rewrite Hc.
  unfold bind at 1, ret at 1. cbn [negb Z.eqb]. rewrite <- Hs. by destruct s'.
Qed.

Lemma kalloc_cons s v l next :
  LKmem ∉ k_held s -> kmem_ok s (v :: l) -> word (kmem_get s) v = Some next ->
  kalloc s = Ret v (set_kmem (mset_freelist next (k_kmem s)) s).
Proof.
  intros Hl [[Hc _] _ Hp] Hw. unfold kalloc.
  pose proof (page_bounds v (proj1 (Hp v ltac:(left)))).
  apply (kmem_lock_eq s _ (mset_freelist next)); [done| |done].
  intros s' Hs. unfold bind at 1, get_kmem, gets. rewrite Hs. rewrite Hc.
  destruct (Z.eqb_spec v 0); [lia|]. cbn [negb]. unfold bind at 1 2.
  rewrite (load64_eq _ next) by (unfold kmem_get; by rewrite Hs). unfold upd_kmem, modify.
  by rewrite Hs.
Qed.

Lemma kmem_ok_tail s v l next :
  kmem_ok s (v :: l) -> word (kmem_get s) v = Some next ->
  kmem_ok (set_kmem (mset_freelist next (k_kmem s)) s) l.
Proof.
  intros [[_ (nx & Hn & Hc)] Hnd Hp] Hw. rewrite Hw in Hn. injection Hn as <-.
  apply NoDup_cons in Hnd as [_ Hnd]. split; [done|done|]. intros w Hin. apply Hp. by right.
Qed.

(** The memory after [kfree v]: junk, then the link. *)
Definition freed_mem (m : gmap Z Z) (v next : Z) : gmap Z Z :=
  put_word (mem_put m v (replicate PGBYTES 1)) v next.

Lemma freed_mem_other m v next x : ~ v <= x < v + PGSIZE -> freed_mem m v next !! x = m !! x.
Proof.
  intros H. unfold freed_mem, PGSIZE in *. rewrite lookup_put_word_other by lia.
  rewrite lookup_mem_put, length_replicate, decide_False by pages. done.
Qed.

Lemma freed_mem_mapped m v next b n :
  mapped_range m v PGBYTES -> mapped_range m b n -> mapped_range (freed_mem m v next) b n.
Proof.
  intros Hv Hb. unfold freed_mem. apply mapped_put_word.
  - apply mapped_put; [by rewrite length_replicate|]. eapply mapped_sub; [exact Hv|lia|].
    pages.
  - apply mapped_put; [by rewrite length_replicate|done].
Qed.

Lemma use_lock_keep v x k : m_use_lock (mset_freelist v (mset_mem x k)) = m_use_lock k.
Proof. done. Qed.

Lemma kfree_eq s v :
  LKmem ∉ k_held s -> page_ok v -> mapped_range (kmem_get s) v PGBYTES ->
  kfree v s = Ret tt (set_kmem (mset_freelist v (mset_mem
    (freed_mem (kmem_get s) v (m_freelist (k_kmem s))) (k_kmem s))) s).
Proof.
  intros Hl Hv Hm. pose proof (page_bounds v Hv) as (_ & _ & Hp). destruct Hv as [Ha Hlo Hb Hh].
  unfold kfree. rewrite Hp.
  replace (negb (v mod PGSIZE =? 0) || (v <? kend) || (PHYSTOP <=? v - KERNBASE)) with false.
  2:{ symmetry. rewrite Ha, !orb_false_iff, Z.ltb_ge, Z.leb_gt. pages. }
  unfold bind at 1, fill_bytes. rewrite store_bytes_eq by by rewrite length_replicate.
  set (s1 := set_mem _ s). change (u8 1) with 1 in s1.
  rewrite (kmem_lock_eq s1 _ (fun k => mset_freelist v (mset_mem
    (put_word (m_mem k) v (m_freelist k)) k)) tt).
  - done.
  - done.
  - intros s' Hs. unfold bind at 1, get_kmem, gets. unfold bind at 1.
    rewrite store64_eq.
    + rewrite bind_ret_tt. unfold bind at 1, upd_kmem, modify. by rewrite <- Hs.
    + unfold kmem_get. rewrite Hs. apply mapped_put.
      * rewrite length_replicate. exact Hm.
      * eapply mapped_sub; [exact Hm|lia|]. pages.
  - apply use_lock_keep.
Qed.

Lemma kmem_ok_cons s v l :
  kmem_ok s l -> page_ok v -> mapped_range (kmem_get s) v PGBYTES -> v ∉ l ->
  kmem_ok (set_kmem (mset_freelist v (mset_mem
    (freed_mem (kmem_get s) v (m_freelist (k_kmem s))) (k_kmem s))) s) (v :: l).
Proof.
  intros [Hc Hnd Hp] Hv Hm Hnin.
  assert (forall w x, w ∈ l -> w <= x < w + PGSIZE ->
    freed_mem (kmem_get s) v (m_freelist (k_kmem s)) !! x = kmem_get s !! x) as Hsame.
  { intros w x Hw Hx. apply freed_mem_other. destruct (Hp w Hw) as [Hwp _].
    destruct (page_disjoint v w Hv Hwp) as [?|?]; [by intros ->|lia|lia]. }
  split.
  - split; [done|]. exists (m_freelist (k_kmem s)). split.
    + apply word_put_same. eapply chain_head_bound; [|exact Hc]. intros w Hw. by apply Hp.
    + simpl. eapply chain_ext; [|exact Hc]. intros w x Hw Hx. apply (Hsame w); [done|].
      pages.
  - by apply NoDup_cons.
  - intros w [->|Hw]%elem_of_cons.
    + split; [done|]. by apply freed_mem_mapped.
    + destruct (Hp w Hw). split; [done|]. by apply freed_mem_mapped.
Qed.

(** ** Conservation of pages *)

(** A client of the allocator: it owns pages, allocates, and frees pages it owns. *)
Inductive kop := KAlloc | KFree (k : nat).

Definition kstep (op : kop) (own : list Z) : K (list Z) :=
  match op with
  | KAlloc => v <- kalloc ;; ret (if v =? 0 then own else v :: own)
  | KFree k =>
      match own !! k with
      | Some v => kfree v ;; ret (delete k own)
      | None => ret own
      end
  end.

Fixpoint krun (ops : list kop) (own : list Z) : K (list Z) :=
  match ops with
  | [] => ret own
  | op :: ops => own <- kstep op own ;; krun ops own
  end.

Record pages_ok (s : kstate) (own free : list Z) : Prop := {
  po_lock : LKmem ∉ k_held s;
  po_free : kmem_ok s free;
  po_own : forall v, v ∈ own -> page_ok v /\ mapped_range (kmem_get s) v PGBYTES;
  po_nodup : NoDup (own ++ free)
}.

Lemma kstep_pages op s own free :
  pages_ok s own free ->
  runs (kstep op own) s (fun own' s' => exists free',
    pages_ok s' own' free' /\ own' ++ free' ≡ₚ own ++ free).
Proof.
  intros [Hl Hf Ho Hnd]. destruct op as [|k]; cbn [kstep].
  - destruct free as [|v free].
    + eapply runs_eq; [by apply kalloc_empty|]. apply runs_ret. exists []. by split.
    + destruct (km_chain _ _ Hf) as [_ (next & Hn & _)]. eapply runs_eq; [by apply (kalloc_cons s v free next)|].
      apply runs_ret. destruct (km_pages _ _ Hf v ltac:(left)) as [Hv Hm].
      pose proof (page_bounds v Hv). destruct (Z.eqb_spec v 0); [lia|].
      exists free. assert ((v :: own) ++ free ≡ₚ own ++ v :: free) as Hp by solve_Permutation.
      split; [|done]. split; [done|by eapply kmem_ok_tail| |by rewrite Hp].
      intros w [->|Hw]%elem_of_cons; [done|]. by apply Ho.
  - destruct (own !! k) as [v|] eqn:Ek.
    2:{ apply runs_ret. exists free. by split. }
    assert (v ∈ own) as Hin by by eapply list_elem_of_lookup_2.
    destruct (Ho v Hin) as [Hv Hm]. eapply runs_eq; [by apply kfree_eq|]. apply runs_ret.
    assert (delete k own ++ v :: free ≡ₚ own ++ free) as Hp.
    { rewrite (delete_Permutation own k v Ek) at 2. solve_Permutation. }
    assert (v ∉ free) as Hnin.
    { apply NoDup_app in Hnd as (_ & Hd & _). by apply Hd. }
    exists (v :: free). split; [|done]. split; [done|by apply kmem_ok_cons| |by rewrite Hp].
    intros w Hw. destruct (Ho w) as [Hwp Hwm].
    { rewrite (delete_Permutation own k v Ek). by right. }
    split; [done|]. by apply freed_mem_mapped.
Qed.

(** C22. No page is lost and none is handed out twice: after any sequence of [kalloc] and
    [kfree] calls, the pages the client owns and the pages on the free list are together exactly the
    pages there were, without repetition. *)
Theorem kalloc_conserves ops s own free :
  pages_ok s own free ->
  runs (krun ops own) s (fun own' s' => exists free',
    pages_ok s' own' free' /\ own' ++ free' ≡ₚ own ++ free).
Proof.
  revert s own free. induction ops as [|op ops IH]; intros s own free Hok; cbn [krun].
  - apply runs_ret. by exists free.
  - eapply runs_step; [by apply kstep_pages|]. intros own1 s1 (free1 & Hok1 & Hp1).
    eapply runs_mono; [by apply IH|]. intros own2 s2 (free2 & Hok2 & Hp2).
    exists free2. split; [done|]. by rewrite Hp2.
Qed.

(** ** Building the list *)

(** The pages wholly inside [p, vend), in address order. *)
Definition range_pages (p vend : Z) : list Z :=
  (fun k => p + PGSIZE * k) <$> seqZ 0 ((vend - p) / PGSIZE).

Lemma range_pages_cons p vend :
  p + PGSIZE <= vend -> range_pages p vend = p :: range_pages (p + PGSIZE) vend.
Proof.
  intros H. unfold range_pages, PGSIZE in *.
  assert (1 <= (vend - p) / 4096) by (apply Z.div_le_lower_bound; lia).
  replace (vend - (p + 4096)) with (vend - p + (-1) * 4096) by lia. rewrite Z.div_add by lia.
  replace ((vend - p) / 4096) with (Z.succ ((vend - p) / 4096 - 1)) at 1 by lia.
  rewrite seqZ_cons by lia. simpl. f_equal; [lia|].
  replace (Z.pred (Z.succ ((vend - p) / 4096 - 1))) with ((vend - p) / 4096 + -1) by lia.
  change (Z.succ 0) with (1 + 0). rewrite <- (fmap_add_seqZ 1 0), <- list_fmap_compose.
  apply list_fmap_ext. intros _ k _. cbn [compose]. lia.
Qed.

Lemma range_pages_nil p vend : vend < p + PGSIZE -> range_pages p vend = [].
Proof.
  intros H. unfold range_pages, PGSIZE in *. rewrite seqZ_nil; [done|].
  assert ((vend - p) / 4096 < 1); [|lia]. apply Z.div_lt_upper_bound; lia.
Qed.

Lemma page_next p : p mod PGSIZE = 0 -> (p + PGSIZE) mod PGSIZE = 0.
Proof.
  intros H. unfold PGSIZE in *. replace (p + 4096) with (p + 1 * 4096) by lia.
  by rewrite Z.mod_add by lia.
Qed.

Lemma freerange_loop_spec fuel s p vend l :
  LKmem ∉ k_held s -> kmem_ok s l -> p mod PGSIZE = 0 -> kend <= p -> KERNBASE <= p ->
  p <= KERNBASE + PHYSTOP -> vend <= KERNBASE + PHYSTOP -> (forall v, v ∈ l -> v < p \/ vend <= v) ->
  (forall x, p <= x < vend -> is_Some (kmem_get s !! x)) ->
  (Z.to_nat ((vend - p) / PGSIZE) < fuel)%nat ->
  runs (freerange_loop fuel p vend) s (fun _ s' => kmem_ok s' (rev (range_pages p vend) ++ l) /\
    k_held s' = k_held s /\ m_use_lock (k_kmem s') = m_use_lock (k_kmem s)).
Proof.
  revert s p l. induction fuel as [|fuel IH]; intros s p l Hl Hok Ha Hlo Hb Hp Hv Hfr Hm Hf; [lia|].
  cbn [freerange_loop]. rewrite u64_small by (unfold KERNBASE, PHYSTOP in *; pages).
  destruct (Z.leb_spec (p + PGSIZE) vend) as [Hle|Hgt].
  2:{ apply runs_ret. by rewrite range_pages_nil. }
  rewrite range_pages_cons by done. assert (page_ok p) as Hpg by (split; [done|done|done|lia]).
  assert (mapped_range (kmem_get s) p PGBYTES) as Hpm.
  { intros x Hx. apply Hm. pages. }
  assert (p ∉ l) as Hnin.
  { intros Hin. destruct (Hfr p Hin); pages. }
  eapply runs_eq; [by apply kfree_eq|]. set (s1 := set_kmem _ s).
  eapply runs_mono; [apply (IH s1 (p + PGSIZE) (p :: l))|].
  - done.
  - by apply kmem_ok_cons.
  - by apply page_next.
  - pages.
  - pages.
  - lia.
  - done.
  - intros v [->|Hin]%elem_of_cons; [pages|]. destruct (Hfr v Hin); pages.
  - intros x Hx. apply (freed_mem_mapped (kmem_get s) p _ x 1); [done| |lia].
    intros y Hy. apply Hm. pages.
  - replace (vend - (p + PGSIZE)) with (vend - p + (-1) * PGSIZE) by lia.
    unfold PGSIZE in *. rewrite Z.div_add by lia.
    assert (1 <= (vend - p) / 4096) by (apply Z.div_le_lower_bound; lia). lia.
  - intros [] s2 (Hok2 & Hh2). split; [|done]. simpl rev. by rewrite <- app_assoc.
Qed.

Lemma round_down_mod a : PGROUNDDOWN a = a - a mod PGSIZE.
Proof.
  unfold PGROUNDDOWN, PGSIZE. change (4096 - 1) with (Z.ones 12). rewrite <- Z.ldiff_land.
  rewrite Z.ldiff_ones_r, Z.shiftl_mul_pow2, Z.shiftr_div_pow2 by lia.
  change (2 ^ 12) with 4096. pose proof (Z.div_mod a 4096). lia.
Qed.

Lemma round_up_bounds v :
  0 <= v < 18446744073709551616 - PGSIZE ->
  v <= PGROUNDUP v < v + PGSIZE /\ PGROUNDUP v mod PGSIZE = 0.
Proof.
  intros Hv. unfold PGROUNDUP. rewrite u64_small by (pages).
  change (Z.land ?x (Z.lnot (PGSIZE - 1))) with (PGROUNDDOWN x). rewrite round_down_mod. unfold PGSIZE.
  pose proof (Z.mod_pos_bound (v + (4096 - 1)) 4096). split; [lia|].
  pose proof (Z.div_mod (v + (4096 - 1)) 4096 ltac:(lia)) as E.
  replace (v + (4096 - 1) - (v + (4096 - 1)) mod 4096) with (0 + (v + (4096 - 1)) / 4096 * 4096) by lia.
  by rewrite Z.mod_add by lia.
Qed.

Lemma elem_of_range_pages p vend v :
  p mod PGSIZE = 0 ->
  v ∈ range_pages p vend <-> v mod PGSIZE = 0 /\ p <= v /\ v + PGSIZE <= vend.
Proof.
  intros Hp. unfold range_pages. rewrite list_elem_of_fmap. unfold PGSIZE in *. split.
  - intros (k & -> & Hk%elem_of_seqZ).
    assert (4096 * ((vend - p) / 4096) <= vend - p) by (apply Z.mul_div_le; lia).
    split; [|lia]. replace (p + 4096 * k) with (p + k * 4096) by lia. by rewrite Z.mod_add by lia.
  - intros (Hv & Hlo & Hhi). exists ((v - p) / 4096).
    pose proof (Z.div_mod v 4096). pose proof (Z.div_mod p 4096).
    assert (v - p = 4096 * (v / 4096 - p / 4096)) as E by lia.
    assert ((v - p) / 4096 = v / 4096 - p / 4096) as Eq by (rewrite E, Z.mul_comm; apply Z.div_mul; lia).
    split; [lia|]. apply elem_of_seqZ. rewrite Eq. split; [lia|].
    assert (v / 4096 - p / 4096 + 1 <= (vend - p) / 4096); [|lia]. apply Z.div_le_lower_bound; lia.
Qed.

(** C23. [kinit1] frees every page that lies wholly between [vstart] and [vend], once each and
    nothing else: the free list is these pages, highest first. *)
Theorem kinit1_pages s vstart vend :
  k_held s = [] -> m_freelist (k_kmem s) = 0 -> kend <= vstart -> KERNBASE <= vstart ->
  vstart <= vend <= KERNBASE + PHYSTOP -> (forall x, vstart <= x < vend -> is_Some (kmem_get s !! x)) ->
  runs (kinit1 vstart vend) s (fun _ s' => m_use_lock (k_kmem s') = 0 /\
    kmem_ok s' (rev (range_pages (PGROUNDUP vstart) vend)) /\
    forall v, v ∈ range_pages (PGROUNDUP vstart) vend <->
      v mod PGSIZE = 0 /\ vstart <= v /\ v + PGSIZE <= vend).
Proof.
  intros Hh Hfl Hlo Hb Hv Hm. destruct (round_up_bounds vstart) as [Hr Ha].
  { unfold KERNBASE, PHYSTOP in *. pages. }
  unfold kinit1. eapply runs_bind, runs_modify. eapply runs_bind, runs_modify. set (s1 := set_kmem _ _).
  assert (k_held s1 = []) as Hh1 by (simpl; by rewrite Hh).
  assert (kmem_ok s1 []) as Hok1 by (split; [exact Hfl|constructor|void]).
  eapply runs_mono; [apply (freerange_loop_spec _ s1 _ vend []); try done|].
  - rewrite Hh1. void.
  - lia.
  - lia.
  - pose proof (Z.div_mod (PGROUNDUP vstart) PGSIZE). unfold KERNBASE, PHYSTOP in *. pages.
  - lia.
  - void.
  - intros x Hx. apply Hm. lia.
  - lia.
  - intros [] s2 (Hok2 & _ & Hu). rewrite app_nil_r in Hok2. split_and!; [done..|].
    intros v. rewrite elem_of_range_pages by done. split; [intros (? & ? & ?); split_and!; [done|lia|done]|].
    intros (Hv1 & ? & ?). split_and!; [done| |done].
    pose proof (Z.div_mod (PGROUNDUP vstart) PGSIZE). pose proof (Z.div_mod v PGSIZE).
    pages.
Qed.
End code.

(** ** Witnesses: three pages of memory after a kernel image of 4 MB *)

Definition demo_base : Z := KERNBASE + 4194304.
#[export] Instance demo_layout : Layout := { kend := demo_base }.
Definition demo_mem : gmap Z Z := map_seqZ demo_base (replicate (Z.to_nat 12288) 0).
Definition demo_k : kstate := set_kmem (Kmem 0 0 demo_mem) (boot_state (Disk ∅ 0 [])).

Lemma demo_mem_some x : demo_base <= x < demo_base + 12288 -> is_Some (demo_mem !! x).
Proof.
  intros Hx. exists 0. apply lookup_map_seqZ_Some. split; [lia|].
  apply lookup_replicate_2. lia.
Qed.

Lemma demo_page k : 0 <= k < 3 -> page_ok (demo_base + PGSIZE * k) /\
  mapped_range (kmem_get demo_k) (demo_base + PGSIZE * k) PGBYTES.
Proof.
  unfold PGSIZE. intros Hk. split.
  - split; cbn [kend demo_layout]; unfold demo_base, KERNBASE, PHYSTOP, PGSIZE; try lia.
    replace (18446744071562067968 + 4194304 + 4096 * k)
      with (0 + (4503599626847232 + k) * 4096) by lia. by rewrite Z.mod_add by lia.
  - intros x Hx. apply demo_mem_some. pages.
Qed.

Lemma kinit1_pages_witness :
  exists s', kinit1 (L := demo_layout) demo_base (demo_base + 12288) demo_k = Ret tt s'.
Proof.
  destruct (kinit1_pages (L := demo_layout) demo_k demo_base (demo_base + 12288))
    as ([] & s' & Hrun & _).
  - reflexivity.
  - reflexivity.
  - apply Z.le_refl.
  - unfold demo_base. lia.
  - unfold demo_base, PHYSTOP. lia.
  - apply demo_mem_some.
  - exists s'. exact Hrun.
Defined.

Lemma kalloc_conserves_witness :
  exists own s', krun (L := demo_layout) [KFree 1; KAlloc; KAlloc; KFree 0]
    [demo_base; demo_base + PGSIZE * 1] demo_k = Ret own s'.
Proof.
  destruct (kalloc_conserves (L := demo_layout) [KFree 1; KAlloc; KAlloc; KFree 0] demo_k
    [demo_base; demo_base + PGSIZE * 1] []) as (own & s' & Hrun & _).
  - split.
    + simpl. void.
    + split; [reflexivity|constructor|void].
    + intros v [->|[->|Hv]%elem_of_cons]%elem_of_cons.
      * apply (demo_page 0). lia.
      * apply (demo_page 1). lia.
      * by apply elem_of_nil in Hv.
    + apply NoDup_cons. split; [|apply NoDup_singleton].
      intros Hin%list_elem_of_singleton. unfold PGSIZE in Hin. lia.
  - exists own, s'. exact Hrun.
Defined.
