(* ===== verification/Vm.v ===== *)
(** * Page tables (kernel/vm.c and kernel/vm64.c, 64-bit build)

    Page tables are words of kernel memory (Mem.v), page-table pages come from the allocator
    (Kalloc.v). What the processor does with CR3 and the task state segment is outside the
    model: [switchuvm] returns the value it loads into CR3. Console output is left out. *)

From S2P Require Import Prelude Types Monad Sched Mem Kalloc Bio Fs.

Definition PTE_P : Z := 1.
Definition PTE_W : Z := 2.
Definition PTE_U : Z := 4.
Definition PTE_PWT : Z := 8.
Definition PTE_PCD : Z := 16.
Definition PTE_PS : Z := 128.
Definition NPDENTRIES : Z := 512.
Definition NPTENTRIES : Z := 512.
Definition PTXSHIFT : Z := 12.
Definition PDXSHIFT : Z := 21.
Definition PXMASK : Z := 511.
Definition DEVSPACE : Z := 4261412864.

Definition PDX (va : Z) : Z := Z.land (Z.shiftr va PDXSHIFT) PXMASK.
Definition PTX (va : Z) : Z := Z.land (Z.shiftr va PTXSHIFT) PXMASK.
Definition PTE_ADDR (pte : Z) : Z := Z.land pte (Z.lnot 4095).
Definition PTE_FLAGS (pte : Z) : Z := Z.land pte 4095.

(** Element [i] of an array of 64-bit entries. *)
Definition entry (tab i : Z) : Z := tab + 8 * i.

Section vm.
Context {L : Layout}.

(** The address of the entry for [va], or 0. *)
Definition walkpgdir (pgdir va : Z) (alloc : bool) : K Z :=
  let pdea := entry pgdir (PDX va) in
  pde <- load64 pdea ;;
  if has pde PTE_P then ret (entry (p2v (PTE_ADDR pde)) (PTX va))
  else if negb alloc then ret 0 else
  pgtab <- kalloc ;;
  if pgtab =? 0 then ret 0 else
  fill_bytes pgtab 0 PGBYTES ;;
  store64 pdea (Z.lor (Z.lor (Z.lor (v2p pgtab) PTE_P) PTE_W) PTE_U) ;;
  ret (entry pgtab (PTX va)).

Fixpoint mappages_loop (fuel : nat) (pgdir a last pa perm : Z) : K Z :=
  match fuel with
  | O => nofuel
  | S fuel =>
      pte <- walkpgdir pgdir a true ;;
      if pte =? 0 then ret (-1) else
      v <- load64 pte ;;
      if has v PTE_P then panic "remap" else
      store64 pte (Z.lor (Z.lor pa perm) PTE_P) ;;
      if a =? last then ret 0
      else mappages_loop fuel pgdir (u64 (a + PGSIZE)) last (u64 (pa + PGSIZE)) perm
  end.

(** One iteration per page from the first to the last. *)
Definition mappages (pgdir va size pa perm : Z) : K Z :=
  let a := PGROUNDDOWN va in
  let last := PGROUNDDOWN (u64 (va + size - 1)) in
  mappages_loop (S (Z.to_nat (u64 (last - a) / PGSIZE))) pgdir a last pa perm.

(** *** kernel/vm64.c: the kernel's tables *)

(** The tables of [kvmalloc]: [kpml4], [kpdpt], [kpgdir0], [kpgdir1], [iopgdir]. *)
Record kvm := Kvm { kpml4 : Z; kpdpt : Z; kpgdir0 : Z; kpgdir1 : Z; iopgdir : Z }.

Definition setupkvm (kpdpt : Z) : K Z :=
  pml4 <- kalloc ;;
  pdpt <- kalloc ;;
  pgdir <- kalloc ;;
  fill_bytes pml4 0 PGBYTES ;;
  fill_bytes pdpt 0 PGBYTES ;;
  fill_bytes pgdir 0 PGBYTES ;;
  store64 (entry pml4 511) (Z.lor (Z.lor (Z.lor (v2p kpdpt) PTE_P) PTE_W) PTE_U) ;;
  store64 (entry pml4 0) (Z.lor (Z.lor (Z.lor (v2p pdpt) PTE_P) PTE_W) PTE_U) ;;
  store64 (entry pdpt 0) (Z.lor (Z.lor (Z.lor (v2p pgdir) PTE_P) PTE_W) PTE_U) ;;
  store64 (entry pgdir 511) (Z.lor pml4 PTE_P) ;;
  store64 (entry pgdir 510) (Z.lor pdpt PTE_P) ;;
  ret pgdir.

Definition kvmalloc : K kvm :=
  kpml4 <- kalloc ;;
  kpdpt <- kalloc ;;
  kpgdir0 <- kalloc ;;
  kpgdir1 <- kalloc ;;
  iopgdir <- kalloc ;;
  fill_bytes kpml4 0 PGBYTES ;;
  fill_bytes kpdpt 0 PGBYTES ;;
  fill_bytes iopgdir 0 PGBYTES ;;
  store64 (entry kpml4 511) (Z.lor (Z.lor (v2p kpdpt) PTE_P) PTE_W) ;;
  store64 (entry kpdpt 511) (Z.lor (Z.lor (v2p kpgdir1) PTE_P) PTE_W) ;;
  store64 (entry kpdpt 510) (Z.lor (Z.lor (v2p kpgdir0) PTE_P) PTE_W) ;;
  store64 (entry kpdpt 509) (Z.lor (Z.lor (v2p iopgdir) PTE_P) PTE_W) ;;
  foreach (fun n =>
      let n := Z.of_nat n in
      store64 (entry kpgdir0 n)
        (Z.lor (Z.lor (Z.lor (u64 (s32 (Z.shiftl n PDXSHIFT))) PTE_PS) PTE_P) PTE_W) ;;
      store64 (entry kpgdir1 n)
        (Z.lor (Z.lor (Z.lor (u64 (s32 (Z.shiftl (n + 512) PDXSHIFT))) PTE_PS) PTE_P) PTE_W))
    (seq 0 (Z.to_nat NPDENTRIES)) ;;
  foreach (fun n =>
      store64 (entry iopgdir (Z.of_nat n))
        (Z.lor (Z.lor (Z.lor (Z.lor (Z.lor (u32 (DEVSPACE + Z.shiftl (Z.of_nat n) PDXSHIFT))
           PTE_PS) PTE_P) PTE_W) PTE_PWT) PTE_PCD))
    (seq 0 16) ;;
  ret (Kvm kpml4 kpdpt kpgdir0 kpgdir1 iopgdir).

(** [lcr3(v2p(kpml4))]. *)
Definition switchkvm (k : kvm) : Z := v2p (kpml4 k).

(** [local] is [cpu->local]; the stack pointer goes to the task state segment as two
    32-bit words. The result is loaded into CR3. *)
Definition tss_set_rsp (tss n rsp : Z) : K unit :=
  store_bytes (tss + 4 * (n * 2 + 1)) (le_bytes 4 rsp) ;;
  store_bytes (tss + 4 * (n * 2 + 2)) (le_bytes 4 (Z.shiftr rsp 32)).

Definition switchuvm (local kstack pgdir : Z) : K Z :=
  if pgdir =? 0 then panic "switchuvm: no pgdir" else
  tss_set_rsp (local + 1024) 0 (u64 (kstack + KSTACKSIZE)) ;;
  pml4 <- load64 (entry pgdir 511) ;;
  ret (v2p (PTE_ADDR pml4)).

(** *** User memory *)

Definition inituvm (pgdir : Z) (init : list Z) (sz : Z) : K unit :=
  if PGSIZE <=? sz then panic "inituvm: more than a page" else
  mem <- kalloc ;;
  fill_bytes mem 0 PGBYTES ;;
  mappages pgdir 0 PGSIZE (v2p mem) (Z.lor PTE_W PTE_U) ;;
  store_bytes mem (take (Z.to_nat sz) init).

Fixpoint deallocuvm_loop (fuel : nat) (pgdir a oldsz : Z) : K unit :=
  match fuel with
  | O => nofuel
  | S fuel =>
      if a <? oldsz then
        pte <- walkpgdir pgdir a false ;;
        a <- (if pte =? 0 then ret (u64 (a + (NPTENTRIES - 1) * PGSIZE)) else
              v <- load64 pte ;;
              (if has v PTE_P then
                 let pa := PTE_ADDR v in
                 if pa =? 0 then panic "kfree" else
                 kfree (p2v pa) ;;
                 store64 pte 0
               else ret tt) ;;
              ret a) ;;
        deallocuvm_loop fuel pgdir (u64 (a + PGSIZE)) oldsz
      else ret tt
  end.

Definition deallocuvm (pgdir oldsz newsz : Z) : K Z :=
  if oldsz <=? newsz then ret (s32 oldsz) else
  let a := PGROUNDUP newsz in
  deallocuvm_loop (S (Z.to_nat ((oldsz - a) / PGSIZE + 1))) pgdir a oldsz ;;
  ret (s32 newsz).

Fixpoint allocuvm_loop (fuel : nat) (pgdir a oldsz newsz : Z) : K Z :=
  match fuel with
  | O => nofuel
  | S fuel =>
      if a <? newsz then
        mem <- kalloc ;;
        if mem =? 0 then deallocuvm pgdir newsz oldsz ;; ret 0 else
        fill_bytes mem 0 PGBYTES ;;
        mappages pgdir a PGSIZE (v2p mem) (Z.lor PTE_W PTE_U) ;;
        allocuvm_loop fuel pgdir (u64 (a + PGSIZE)) oldsz newsz
      else ret (s32 newsz)
  end.

Definition allocuvm (pgdir oldsz newsz : Z) : K Z :=
  if KERNBASE <=? newsz then ret 0 else
  if newsz <? oldsz then ret (s32 oldsz) else
  let a := PGROUNDUP oldsz in
  allocuvm_loop (S (Z.to_nat ((newsz - a) / PGSIZE + 1))) pgdir a oldsz newsz.

Definition freevm (pgdir : Z) : K unit :=
  if pgdir =? 0 then panic "freevm: no pgdir" else
  deallocuvm pgdir 1067450368 0 ;;
  foreach (fun i =>
      v <- load64 (entry pgdir (Z.of_nat i)) ;;
      if has v PTE_P then kfree (p2v (PTE_ADDR v)) else ret tt)
    (seq 0 (Z.to_nat (NPDENTRIES - 2))) ;;
  kfree pgdir.

Definition clearpteu (pgdir uva : Z) : K unit :=
  pte <- walkpgdir pgdir uva false ;;
  if pte =? 0 then panic "clearpteu" else
  v <- load64 pte ;;
  store64 pte (clr_flag v PTE_U).

(** The copy loop of [copyuvm]: [true] when it went through, [false] for [goto bad]. *)
Fixpoint copyuvm_loop (fuel : nat) (pgdir d i sz : Z) : K bool :=
  match fuel with
  | O => nofuel
  | S fuel =>
      if i <? sz then
        pte <- walkpgdir pgdir i false ;;
        if pte =? 0 then panic "copyuvm: pte should exist" else
        v <- load64 pte ;;
        if negb (has v PTE_P) then panic "copyuvm: page not present" else
        mem <- kalloc ;;
        if mem =? 0 then ret false else
        move_bytes mem (p2v (PTE_ADDR v)) PGBYTES ;;
        r <- mappages d i PGSIZE (v2p mem) (PTE_FLAGS v) ;;
        if r <? 0 then ret false
        else copyuvm_loop fuel pgdir d (u64 (i + PGSIZE)) sz
      else ret true
  end.

Definition copyuvm (kpdpt pgdir sz : Z) : K Z :=
  d <- setupkvm kpdpt ;;
  if d =? 0 then ret 0 else
  ok <- copyuvm_loop (S (Z.to_nat (sz / PGSIZE + 1))) pgdir d 0 sz ;;
  if ok : bool then ret d else freevm d ;; ret 0.

Definition uva2ka (pgdir uva : Z) : K Z :=
  pte <- walkpgdir pgdir uva false ;;
  v <- load64 pte ;;
  if negb (has v PTE_P) then ret 0 else
  if negb (has v PTE_U) then ret 0 else
  ret (p2v (PTE_ADDR v)).

(** [bytes] is the buffer [p], what is left of it. *)
Fixpoint copyout_loop (fuel : nat) (pgdir va : Z) (bytes : list Z) (len : Z) : K Z :=
  match fuel with
  | O => nofuel
  | S fuel =>
      if 0 <? len then
        let va0 := u32 (PGROUNDDOWN va) in
        pa0 <- uva2ka pgdir va0 ;;
        if pa0 =? 0 then ret (-1) else
        let n := Z.min (PGSIZE - (va - va0)) len in
        store_bytes (pa0 + (va - va0)) (take (Z.to_nat n) bytes) ;;
        copyout_loop fuel pgdir (u32 (va0 + PGSIZE)) (drop (Z.to_nat n) bytes) (len - n)
      else ret 0
  end.

Definition copyout (pgdir va : Z) (p : list Z) (len : Z) : K Z :=
  copyout_loop (S (Z.to_nat (len / PGSIZE + 2))) pgdir va p len.
End vm.

(** [loaduvm] reads the segment through the file system. *)
Section loaduvm.
Context {L : Layout} {drv : DiskDriver}.

Fixpoint loaduvm_loop (fuel : nat) (dv : devsw) (pgdir addr : Z) (ip : nat) (offset i sz : Z) : K Z :=
  match fuel with
  | O => nofuel
  | S fuel =>
      if i <? sz then
        pte <- walkpgdir pgdir (u64 (addr + i)) false ;;
        if pte =? 0 then panic "loaduvm: address should exist" else
        v <- load64 pte ;;
        let pa := u32 (PTE_ADDR v) in
        let n := if sz - i <? PGSIZE then sz - i else PGSIZE in
        let* (r, bytes) := readi dv ip (u32 (offset + i)) n in
        store_bytes (p2v pa) bytes ;;
        if negb (u32 r =? n) then ret (-1)
        else loaduvm_loop fuel dv pgdir addr ip offset (u32 (i + PGSIZE)) sz
      else ret 0
  end.

Definition loaduvm (dv : devsw) (pgdir addr : Z) (ip : nat) (offset sz : Z) : K Z :=
  if negb (addr mod PGSIZE =? 0) then panic "loaduvm: addr must be page aligned"
  else loaduvm_loop (S (Z.to_nat (sz / PGSIZE + 1))) dv pgdir addr ip offset 0 sz.
End loaduvm.
