(* ===== verification/VmSpec.v ===== *)
(** * The page tables as a map from pages to entries

    [pt_ok s pgdir T free]: in the kernel memory of [s], [pgdir] is a page directory whose user
    part refers to the page tables [T] (by directory index), all distinct pages, none of them on
    the free list [free]. [pte_of] is the entry such tables hold for an address. *)

From S2P Require Import Prelude Types Monad Sched Mem Kalloc Bio Fs Vm.

(** Inclusion of explicit lists. *)
Ltac inlist := intros ?; rewrite ?elem_of_cons, ?elem_of_app, ?elem_of_nil; tauto.

(** ** Entries: a page address and flags *)

Lemma land_aligned a f : a mod 4096 = 0 -> 0 <= f < 4096 -> Z.land a f = 0.
Proof.
  intros Ha Hf. rewrite <- (Z.mod_small f (2 ^ 12)) by lia. rewrite <- Z.land_ones by lia.
  rewrite (Z.land_comm f), Z.land_assoc, Z.land_ones by lia. change (2 ^ 12) with 4096. by rewrite Ha.
Qed.

Lemma lor_aligned a f : a mod 4096 = 0 -> 0 <= f < 4096 -> Z.lor a f = a + f.
Proof. intros Ha Hf. symmetry. apply Z.add_nocarry_lor. by apply land_aligned. Qed.

Lemma addr_flags a f :
  a mod 4096 = 0 -> 0 <= f < 4096 -> PTE_ADDR (Z.lor a f) = a /\ PTE_FLAGS (Z.lor a f) = f.
Proof.
  intros Ha Hf. rewrite lor_aligned by done. split.
  - change (PTE_ADDR (a + f)) with (PGROUNDDOWN (a + f)). rewrite round_down_mod. unfold PGSIZE.
    rewrite Z.add_mod, Ha, Z.add_0_l, Z.mod_mod, Z.mod_small by lia. lia.
  - unfold PTE_FLAGS. change 4095 with (Z.ones 12). rewrite Z.land_ones by lia. change (2 ^ 12) with 4096.
    rewrite Z.add_mod, Ha, Z.add_0_l, Z.mod_mod, Z.mod_small by lia. done.
Qed.

Lemma has_flags a f m :
  a mod 4096 = 0 -> 0 <= f < 4096 -> 0 <= m < 4096 -> has (Z.lor a f) m = has f m.
Proof.
  intros Ha Hf Hm. unfold has. rewrite Z.land_lor_distr_l. by rewrite (land_aligned a m), Z.lor_0_l.
Qed.

Lemma lor_flags_bound f g : 0 <= f < 4096 -> 0 <= g < 4096 -> 0 <= Z.lor f g < 4096.
Proof.
  intros Hf Hg. split; [apply Z.lor_nonneg; lia|].
  assert (Z.lor f g = Z.lor f g mod 2 ^ 12) as ->; [|apply Z.mod_pos_bound; lia].
  rewrite <- Z.land_ones, Z.land_lor_distr_l, !Z.land_ones, !Z.mod_small by lia. done.
Qed.

(** ** Directory and table indices *)

Lemma land_511 x : Z.land x PXMASK = x mod 512.
Proof. change PXMASK with (Z.ones 9). by rewrite Z.land_ones. Qed.

Lemma PDX_div va : PDX va = va / 2097152 mod 512.
Proof. unfold PDX, PDXSHIFT. rewrite land_511, Z.shiftr_div_pow2 by lia. done. Qed.
Lemma PTX_div va : PTX va = va / 4096 mod 512.
Proof. unfold PTX, PTXSHIFT. rewrite land_511, Z.shiftr_div_pow2 by lia. done. Qed.

Lemma PDX_bound va : 0 <= PDX va < 512.
Proof. rewrite PDX_div. apply Z.mod_pos_bound. lia. Qed.
Lemma PTX_bound va : 0 <= PTX va < 512.
Proof. rewrite PTX_div. apply Z.mod_pos_bound. lia. Qed.

(** User addresses: those the directory's first 510 entries cover. *)
Definition USERTOP : Z := 1069547520.
Definition user_va (va : Z) : Prop := 0 <= va < USERTOP.

Lemma user_PDX va : user_va va -> PDX va = va / 2097152 /\ 0 <= PDX va < 510.
Proof.
  unfold user_va, USERTOP. intros H. rewrite PDX_div.
  assert (0 <= va / 2097152 < 510).
  { split; [apply Z.div_pos; lia|apply Z.div_lt_upper_bound; lia]. }
  rewrite Z.mod_small by lia. lia.
Qed.

(** The indices determine the page. *)
Lemma page_indices va va' :
  user_va va -> user_va va' -> PDX va = PDX va' -> PTX va = PTX va' -> va / 4096 = va' / 4096.
Proof.
  intros Hv Hv' Hd Ht. destruct (user_PDX va Hv) as [E _]. destruct (user_PDX va' Hv') as [E' _].
  rewrite PTX_div, PTX_div in Ht.
  assert (forall x, x / 2097152 = x / 4096 / 512) as Hdd by (intros x; by rewrite Z.div_div by lia).
  rewrite E, E', !Hdd in Hd.
  rewrite (Z.div_mod (va / 4096) 512), (Z.div_mod (va' / 4096) 512) by lia. lia.
Qed.

(** ** Pages of memory *)

Definition in_page (v x : Z) : Prop := v <= x < v + PGSIZE.
(** Addresses outside the pages [P], and memory equal there. *)
Definition outside (P : list Z) (x : Z) : Prop := forall v, v ∈ P -> ~ in_page v x.
Definition same_outside (P : list Z) (m m' : gmap Z Z) : Prop :=
  forall x, outside P x -> m' !! x = m !! x.

Lemma same_outside_refl P m : same_outside P m m.
Proof. done. Qed.
Lemma same_outside_trans P m1 m2 m3 :
  same_outside P m1 m2 -> same_outside P m2 m3 -> same_outside P m1 m3.
Proof. intros H1 H2 x Hx. by rewrite H2, H1. Qed.
Lemma same_outside_sub P Q m m' :
  (forall v, v ∈ P -> v ∈ Q) -> same_outside P m m' -> same_outside Q m m'.
Proof. intros HPQ H x Hx. apply H. intros v Hv. by apply Hx, HPQ. Qed.

Lemma entry_in_page v i x :
  0 <= i < 512 -> entry v i <= x < entry v i + 8 -> in_page v x.
Proof. unfold entry, in_page. pages. Qed.

Lemma same_outside_entry v i w m : 0 <= i < 512 -> same_outside [v] m (put_word m (entry v i) w).
Proof.
  intros Hi x Hx. apply lookup_put_word_other. intros Hr. apply (Hx v); [left|].
  by eapply entry_in_page.
Qed.

Lemma same_outside_fill v c m :
  same_outside [v] m (mem_put m v (replicate PGBYTES c)).
Proof.
  intros x Hx. rewrite lookup_mem_put, length_replicate, decide_False; [done|].
  intros Hr. apply (Hx v); [left|]. unfold in_page in *. pages.
Qed.

Section spec.
Context {L : Layout}.

Lemma page_not_in v w x : page_ok v -> page_ok w -> v <> w -> in_page v x -> ~ in_page w x.
Proof. intros Hv Hw Hne Hx Hy. destruct (page_disjoint v w Hv Hw Hne); unfold in_page in *; pages. Qed.

(** A word of a page outside [P] is the same in both memories. *)
Lemma word_outside P m m' v i :
  same_outside P m m' -> page_ok v -> (forall w, w ∈ P -> page_ok w /\ w <> v) -> 0 <= i < 512 ->
  word m' (entry v i) = word m (entry v i).
Proof.
  intros Hs Hv HP Hi. apply word_ext. intros x Hx. apply Hs. intros w Hw.
  destruct (HP w Hw) as [Hwp Hne]. apply (page_not_in v w); [done..|by apply not_eq_sym|].
  by eapply entry_in_page.
Qed.

Lemma entry_mapped m v i :
  mapped_range m v PGBYTES -> 0 <= i < 512 -> mapped_range m (entry v i) 8.
Proof. intros Hm Hi. eapply mapped_sub; [exact Hm|unfold entry; lia|]. unfold entry. pages. Qed.

(** The words of a page of zeroes. *)
Lemma word_zero_page m v i :
  (forall x, in_page v x -> m !! x = Some 0) -> 0 <= i < 512 -> word m (entry v i) = Some 0.
Proof.
  intros Hz Hi. unfold word. replace (mem_read m (entry v i) 8) with (Some (replicate 8 0)); [done|].
  symmetry. apply mem_read_spec. split; [done|]. intros k Hk.
  rewrite lookup_replicate_2 by done. apply Hz. unfold in_page, entry. pages.
Qed.

Lemma v2p_p2v v : page_ok v -> p2v (v2p v) = v /\ 0 <= v2p v < PHYSTOP /\ v2p v mod 4096 = 0.
Proof.
  intros Hv. destruct (page_bounds v Hv) as (H0 & H1 & ->). destruct Hv as [Ha _ Hb Hh].
  unfold p2v, KERNBASE, PHYSTOP, PGSIZE in *. split; [|split; [lia|]].
  - replace (v - 18446744071562067968 + 18446744071562067968) with v by lia. apply u64_small. lia.
  - replace (v - 18446744071562067968) with (v + (-4503599626846208) * 4096) by lia.
    by rewrite Z.mod_add by lia.
Qed.

(** ** Well-formed tables *)

Record pt_ok (s : kstate) (pgdir : Z) (T : gmap Z Z) (free : list Z) : Prop := {
  pt_lock : LKmem ∉ k_held s;
  pt_kmem : kmem_ok s free;
  pt_dir : page_ok pgdir /\ mapped_range (kmem_get s) pgdir PGBYTES /\ pgdir ∉ free;
  pt_tab : forall i t, T !! i = Some t -> 0 <= i < 510 /\ page_ok t /\
    mapped_range (kmem_get s) t PGBYTES /\ t ∉ free /\ t <> pgdir;
  pt_inj : forall i j t, T !! i = Some t -> T !! j = Some t -> i = j;
  pt_pde : forall i, 0 <= i < 510 ->
    match T !! i with
    | Some t => exists f, 0 <= f < 4096 /\ has f PTE_P = true /\
        word (kmem_get s) (entry pgdir i) = Some (Z.lor (v2p t) f)
    | None => exists pde, word (kmem_get s) (entry pgdir i) = Some pde /\ has pde PTE_P = false
    end
}.

(** The entry for [va]: zero where there is no table. *)
Definition pte_of (m : gmap Z Z) (T : gmap Z Z) (va : Z) : option Z :=
  match T !! PDX va with
  | Some t => word m (entry t (PTX va))
  | None => Some 0
  end.

(** What the operations on page tables change: the allocator's state, and the bytes of pages [P]. *)
Definition vframe (P : list Z) (s s' : kstate) : Prop :=
  exists k, s' = set_kmem k s /\ same_outside P (kmem_get s) (m_mem k) /\
    (forall x, is_Some (kmem_get s !! x) -> is_Some (m_mem k !! x)).

Lemma vframe_refl P s : vframe P s s.
Proof. exists (k_kmem s). split; [by destruct s|done]. Qed.
Lemma vframe_trans P s1 s2 s3 : vframe P s1 s2 -> vframe P s2 s3 -> vframe P s1 s3.
Proof.
  intros (k2 & -> & Ho2 & Hd2) (k3 & -> & Ho3 & Hd3). exists k3. split; [by destruct s1|].
  split; [by eapply same_outside_trans|]. auto.
Qed.
Lemma vframe_sub P Q s s' : (forall v, v ∈ P -> v ∈ Q) -> vframe P s s' -> vframe Q s s'.
Proof. intros H (k & E & Ho & Hd). exists k. split; [done|]. split; [by eapply same_outside_sub|done]. Qed.
Lemma vframe_held P s s' : vframe P s s' -> k_held s' = k_held s.
Proof. by intros (k & -> & _). Qed.
Lemma vframe_same P s s' : vframe P s s' -> same_outside P (kmem_get s) (kmem_get s').
Proof. by intros (k & -> & Ho & _). Qed.
Lemma vframe_mapped P s s' a n :
  vframe P s s' -> mapped_range (kmem_get s) a n -> mapped_range (kmem_get s') a n.
Proof. intros (k & -> & _ & Hd) Hm x Hx. apply Hd. by apply Hm. Qed.

(** Steps on the memory. *)
Lemma store64_frame s v i w :
  page_ok v -> mapped_range (kmem_get s) v PGBYTES -> 0 <= i < 512 ->
  exists s', store64 (entry v i) w s = Ret tt s' /\ kmem_get s' = put_word (kmem_get s) (entry v i) w /\
    vframe [v] s s' /\ m_freelist (k_kmem s') = m_freelist (k_kmem s).
Proof.
  intros Hv Hm Hi. eexists. split; [apply store64_eq; by apply entry_mapped|]. split; [done|].
  split; [|done]. eexists. split; [done|]. split.
  - by apply same_outside_entry.
  - intros x Hx. apply put_word_some; [|done]. by apply entry_mapped.
Qed.

Lemma fill_frame s v c :
  page_ok v -> mapped_range (kmem_get s) v PGBYTES ->
  exists s', fill_bytes v c PGBYTES s = Ret tt s' /\
    (forall x, in_page v x -> kmem_get s' !! x = Some (u8 c)) /\
    vframe [v] s s' /\ m_freelist (k_kmem s') = m_freelist (k_kmem s).
Proof.
  intros Hv Hm. eexists. split; [apply store_bytes_eq; by rewrite length_replicate|].
  split; [|split; [|reflexivity]].
  - intros x Hx. unfold kmem_get, set_mem. cbn [k_kmem set_kmem m_mem mset_mem].
    unfold in_page in Hx. rewrite lookup_mem_put, length_replicate, decide_True by pages.
    apply lookup_replicate_2. pages.
  - eexists. split; [reflexivity|]. split.
    + apply same_outside_fill.
    + intros x Hx. apply mem_put_some; [|exact Hx]. by rewrite length_replicate.
Qed.

(** The free list is untouched by writes to other pages. *)
Lemma kmem_ok_frame P s s' free :
  kmem_ok s free -> vframe P s s' -> m_freelist (k_kmem s') = m_freelist (k_kmem s) ->
  (forall v, v ∈ P -> page_ok v /\ v ∉ free) -> kmem_ok s' free.
Proof.
  intros [Hc Hnd Hp] Hf Hfl HP. split.
  - rewrite Hfl. eapply chain_ext; [|exact Hc]. intros v x Hv Hx.
    apply (vframe_same _ _ _ Hf). intros w Hw. destruct (HP w Hw) as [Hwp Hnw].
    apply (page_not_in v w); [by apply Hp|done|by intros ->|]. unfold in_page. pages.
  - done.
  - intros v Hv. destruct (Hp v Hv). split; [done|]. by eapply vframe_mapped.
Qed.

(** Writes to other pages leave the tables as they are. *)
Lemma pt_ok_frame P s s' pgdir T free free' :
  pt_ok s pgdir T free -> vframe P s s' -> kmem_ok s' free' -> (forall v, v ∈ free' -> v ∈ free) ->
  (forall v, v ∈ P -> page_ok v /\ v <> pgdir /\ forall i t, T !! i = Some t -> v <> t) ->
  pt_ok s' pgdir T free'.
Proof.
  intros [Hl Hk (Hd & Hdm & Hdf) Ht Hi Hp] Hf Hk' Hsub HP. split.
  - by rewrite (vframe_held _ _ _ Hf).
  - done.
  - split_and!; [done|by eapply vframe_mapped|]. intros Hin. by apply Hdf, Hsub.
  - intros i t E. destruct (Ht i t E) as (? & ? & ? & Hn & ?).
    split; [done|]. split; [done|]. split; [by eapply vframe_mapped|].
    split; [|done]. intros Hin. by apply Hn, Hsub.
  - done.
  - intros i Hr. rewrite (word_outside P (kmem_get s)); [by apply Hp|by apply vframe_same|done| |lia].
    intros w Hw. by destruct (HP w Hw) as (? & ? & _).
Qed.

Lemma pte_of_frame P s s' pgdir T free va :
  pt_ok s pgdir T free -> vframe P s s' ->
  (forall v, v ∈ P -> page_ok v /\ forall i t, T !! i = Some t -> v <> t) ->
  pte_of (kmem_get s') T va = pte_of (kmem_get s) T va.
Proof.
  intros Hpt Hf HP. unfold pte_of. destruct (T !! PDX va) as [t|] eqn:E; [|done].
  destruct (pt_tab _ _ _ _ Hpt _ _ E) as (_ & Hpg & _).
  apply (word_outside P); [by apply vframe_same|done| |apply PTX_bound].
  intros w Hw. destruct (HP w Hw) as [? Hne]. split; [done|]. by eapply Hne.
Qed.

Lemma kalloc_frame s v free :
  kmem_ok s (v :: free) -> LKmem ∉ k_held s ->
  exists s', kalloc s = Ret v s' /\ kmem_ok s' free /\ kmem_get s' = kmem_get s /\ vframe [] s s' /\
    page_ok v /\ mapped_range (kmem_get s') v PGBYTES /\ v ∉ free /\ v <> 0.
Proof.
  intros Hk Hl. pose proof Hk as [[_ (next & Hn & _)] Hnd Hp].
  eexists. split; [by apply (kalloc_cons s v free next)|]. split; [by eapply kmem_ok_tail|].
  split; [done|]. split; [by exists (mset_freelist next (k_kmem s))|].
  destruct (Hp v ltac:(left)) as [Hv Hm]. pose proof (page_bounds v Hv). apply NoDup_cons in Hnd as [? _].
  split_and!; [done..|lia].
Qed.

(** ** walkpgdir *)

Lemma walk_hit s pgdir T free va alloc t :
  pt_ok s pgdir T free -> user_va va -> T !! PDX va = Some t ->
  walkpgdir pgdir va alloc s = Ret (entry t (PTX va)) s.
Proof.
  intros Hpt Hva Ht. destruct (user_PDX va Hva) as [_ Hb].
  pose proof (pt_pde _ _ _ _ Hpt (PDX va) Hb) as Hp. rewrite Ht in Hp.
  destruct Hp as (f & Hf & Hhas & Hw). destruct (pt_tab _ _ _ _ Hpt _ _ Ht) as (_ & Hpg & _).
  destruct (v2p_p2v t Hpg) as (Hinv & _ & Hal).
  unfold walkpgdir, bind. rewrite (load64_eq _ _ _ Hw), has_flags, Hhas by (done || unfold PTE_P; lia).
  by rewrite (proj1 (addr_flags (v2p t) f Hal Hf)), Hinv.
Qed.

Lemma walk_miss s pgdir T free va :
  pt_ok s pgdir T free -> user_va va -> T !! PDX va = None -> walkpgdir pgdir va false s = Ret 0 s.
Proof.
  intros Hpt Hva Ht. destruct (user_PDX va Hva) as [_ Hb].
  pose proof (pt_pde _ _ _ _ Hpt (PDX va) Hb) as Hp. rewrite Ht in Hp. destruct Hp as (pde & Hw & Hn).
  unfold walkpgdir, bind. by rewrite (load64_eq _ _ _ Hw), Hn.
Qed.

Lemma walk_full s pgdir T va :
  pt_ok s pgdir T [] -> user_va va -> T !! PDX va = None -> walkpgdir pgdir va true s = Ret 0 s.
Proof.
  intros Hpt Hva Ht. destruct (user_PDX va Hva) as [_ Hb].
  pose proof (pt_pde _ _ _ _ Hpt (PDX va) Hb) as Hp. rewrite Ht in Hp. destruct Hp as (pde & Hw & Hn).
  unfold walkpgdir, bind. rewrite (load64_eq _ _ _ Hw), Hn. cbn [negb].
  by rewrite kalloc_empty by apply Hpt.
Qed.

Lemma walk_alloc_ok s s3 pgdir T v free va :
  pt_ok s pgdir T (v :: free) -> user_va va -> T !! PDX va = None -> v <> pgdir -> v ∉ free ->
  page_ok v -> mapped_range (kmem_get s3) v PGBYTES -> vframe [pgdir; v] s s3 -> kmem_ok s3 free ->
  (forall j, 0 <= j < 510 -> j <> PDX va ->
     word (kmem_get s3) (entry pgdir j) = word (kmem_get s) (entry pgdir j)) ->
  word (kmem_get s3) (entry pgdir (PDX va)) = Some (Z.lor (v2p v) 7) ->
  (forall j, 0 <= j < 512 -> word (kmem_get s3) (entry v j) = Some 0) ->
  pt_ok s3 pgdir (<[PDX va := v]> T) free /\ vframe [pgdir; v] s s3 /\
  (forall va', user_va va' ->
     pte_of (kmem_get s3) (<[PDX va := v]> T) va' = pte_of (kmem_get s) T va').
Proof.
  intros Hpt Hva Ht Hvd Hvf Hv Hvm Hf Hk3 Hpd Hpi Hvz. destruct (user_PDX va Hva) as [_ Hb].
  set (i := PDX va) in *. destruct (pt_dir _ _ _ _ Hpt) as (Hd & Hdm & Hdf).
  assert (forall j t, T !! j = Some t -> v <> t) as Hvt.
  { intros j t Hj ->. destruct (pt_tab _ _ _ _ Hpt _ _ Hj) as (_ & _ & _ & Hn' & _). apply Hn'. left. }
  split; [|split; [done|]].
  - split; [rewrite (vframe_held _ _ _ Hf); apply Hpt|done| | | |].
    + split; [done|]. split; [by eapply vframe_mapped|]. intros Hin. apply Hdf. by right.
    + intros j t [[<- <-]|[Hne Hj]]%lookup_insert_Some; [done|].
      destruct (pt_tab _ _ _ _ Hpt _ _ Hj) as (? & ? & ? & Hn' & ?).
      split; [done|]. split; [done|]. split; [by eapply vframe_mapped|]. split; [|done].
      intros Hin. apply Hn'. by right.
    + intros j k t [[<- <-]|[Hne Hj]]%lookup_insert_Some [[<- E]|[Hne' Hk]]%lookup_insert_Some; try done.
      * by destruct (Hvt k v).
      * subst t. by destruct (Hvt j v).
      * by eapply (pt_inj _ _ _ _ Hpt).
    + intros j Hj. rewrite lookup_insert. case_decide as Hji.
      * subst j. exists 7. split; [lia|]. done.
      * rewrite Hpd by (done || by apply not_eq_sym). by apply (pt_pde _ _ _ _ Hpt).
  - intros va' Hva'. unfold pte_of. fold i. rewrite lookup_insert. case_decide as Hji.
    + rewrite <- Hji, Ht. apply Hvz, PTX_bound.
    + destruct (T !! PDX va') as [t|] eqn:Et; [|done].
      destruct (pt_tab _ _ _ _ Hpt _ _ Et) as (_ & ? & _ & _ & ?).
      apply (word_outside [pgdir; v]); [by apply vframe_same|done| |apply PTX_bound].
      intros y [->|[->|Hy]%elem_of_cons]%elem_of_cons; [|by eauto|by apply elem_of_nil in Hy].
      split; [done|]. by apply not_eq_sym.
Qed.

(** A new table: the fresh page, zeroed, and the directory entry that refers to it. *)
Lemma walk_alloc s pgdir T v free va :
  pt_ok s pgdir T (v :: free) -> user_va va -> T !! PDX va = None ->
  exists s', walkpgdir pgdir va true s = Ret (entry v (PTX va)) s' /\
    pt_ok s' pgdir (<[PDX va := v]> T) free /\ vframe [pgdir; v] s s' /\
    (forall va', user_va va' ->
       pte_of (kmem_get s') (<[PDX va := v]> T) va' = pte_of (kmem_get s) T va').
Proof.
  intros Hpt Hva Ht. destruct (user_PDX va Hva) as [_ Hb]. set (i := PDX va) in *.
  pose proof (pt_pde _ _ _ _ Hpt i Hb) as Hp. rewrite Ht in Hp. destruct Hp as (pde & Hw & Hn).
  destruct (pt_dir _ _ _ _ Hpt) as (Hd & Hdm & Hdf).
  destruct (kalloc_frame s v free (pt_kmem _ _ _ _ Hpt) (pt_lock _ _ _ _ Hpt))
    as (s1 & Ek & Hk1 & Hm1 & Hf1 & Hv & Hvm & Hvf & Hv0).
  assert (v <> pgdir) as Hvd by (intros ->; apply Hdf; left).
  destruct (fill_frame s1 v 0 Hv Hvm) as (s2 & E2 & Hz2 & Hf2 & Hfl2).
  assert (mapped_range (kmem_get s2) pgdir PGBYTES) as Hdm2.
  { eapply vframe_mapped; [exact Hf2|]. by rewrite Hm1. }
  set (w := Z.lor (Z.lor (Z.lor (v2p v) PTE_P) PTE_W) PTE_U).
  destruct (store64_frame s2 pgdir i w Hd Hdm2 ltac:(lia)) as (s3 & E3 & Hm3 & Hf3 & Hfl3).
  exists s3. split.
  { unfold walkpgdir, bind. fold i. rewrite (load64_eq _ _ _ Hw), Hn. cbn [negb]. rewrite Ek.
    rewrite (proj2 (Z.eqb_neq _ _) Hv0), E2. fold w. rewrite E3. reflexivity. }
  clear E2 E3 Ek. assert (vframe [pgdir; v] s s3) as Hf.
  { eapply vframe_trans; [eapply vframe_sub; [|exact Hf1]; inlist|].
    eapply vframe_trans; [eapply vframe_sub; [|exact Hf2]; inlist|].
    eapply vframe_sub; [|exact Hf3]. inlist. }
  assert (kmem_ok s3 free) as Hk3.
  { eapply kmem_ok_frame; [eapply kmem_ok_frame; [exact Hk1|exact Hf2|exact Hfl2|]|exact Hf3|exact Hfl3|].
    - intros x ->%list_elem_of_singleton. done.
    - intros x ->%list_elem_of_singleton. split; [done|]. intros Hin. apply Hdf. by right. }
  assert (forall j, 0 <= j < 510 -> j <> i ->
    word (kmem_get s3) (entry pgdir j) = word (kmem_get s) (entry pgdir j)) as Hpd.
  { intros j Hj Hji. rewrite Hm3, word_put_other by (unfold entry; lia).
    rewrite (word_outside [v] (kmem_get s1)), Hm1; [reflexivity|by apply vframe_same|done| |lia].
    by intros x ->%list_elem_of_singleton. }
  destruct (v2p_p2v v Hv) as (_ & Hvb & Hal).
  assert (word (kmem_get s3) (entry pgdir i) = Some (Z.lor (v2p v) 7)) as Hpi.
  { rewrite Hm3. replace w with (Z.lor (v2p v) 7) by (unfold w; by rewrite <- !Z.lor_assoc).
    apply word_put_same. rewrite lor_aligned by (done || lia). unfold PHYSTOP in *. lia. }
  assert (forall j, 0 <= j < 512 -> word (kmem_get s3) (entry v j) = Some 0) as Hvz.
  { intros j Hj. rewrite (word_outside [pgdir] (kmem_get s2)); [|by apply vframe_same|done| |done].
    - by apply word_zero_page.
    - intros x ->%list_elem_of_singleton. split; [done|]. by apply not_eq_sym. }
  clear Hm3 Hz2 w. eapply walk_alloc_ok; eauto. eapply vframe_mapped; [exact Hf|]. by rewrite <- Hm1.
Qed.

(** ** Growing page tables *)

Definition pt_pages (pgdir : Z) (T : gmap Z Z) : list Z := pgdir :: (map_to_list T).*2.

Lemma elem_of_pt_pages pgdir T x :
  x ∈ pt_pages pgdir T <-> x = pgdir \/ exists i, T !! i = Some x.
Proof.
  unfold pt_pages. rewrite elem_of_cons, list_elem_of_fmap. split.
  - intros [->|([i t] & -> & Hin)]; [by left|]. right. exists i. by apply elem_of_map_to_list.
  - intros [->|[i Hi]]; [by left|]. right. exists (i, x). split; [done|]. by apply elem_of_map_to_list.
Qed.

(** From [s] to [s'] the tables only grew, by pages of the free list, and nothing outside the
    page-table pages and the free pages was written. *)
Record pt_step (pgdir : Z) (s : kstate) (T : gmap Z Z) (free : list Z)
    (s' : kstate) (T' : gmap Z Z) (free' : list Z) : Prop := {
  ps_ok : pt_ok s' pgdir T' free';
  ps_frame : vframe (pt_pages pgdir T ++ free) s s';
  ps_tables : forall i t, T' !! i = Some t -> T !! i = Some t \/ t ∈ free;
  ps_keep : T ⊆ T';
  ps_free : exists used, free = used ++ free'
}.

Lemma pt_step_refl pgdir s T free : pt_ok s pgdir T free -> pt_step pgdir s T free s T free.
Proof. intros H. split; [done|apply vframe_refl|auto|done|by exists []]. Qed.

Lemma pt_step_trans pgdir s1 T1 free1 s2 T2 free2 s3 T3 free3 :
  pt_step pgdir s1 T1 free1 s2 T2 free2 -> pt_step pgdir s2 T2 free2 s3 T3 free3 ->
  pt_step pgdir s1 T1 free1 s3 T3 free3.
Proof.
  intros [O1 F1 B1 K1 [u1 E1]] [O2 F2 B2 K2 [u2 E2]].
  assert (forall x, x ∈ free2 -> x ∈ free1) as Hsub by (intros x; rewrite E1, elem_of_app; auto).
  split; [done| | |by etrans|].
  - eapply vframe_trans; [exact F1|]. eapply vframe_sub; [|exact F2].
    intros x. rewrite !elem_of_app, !elem_of_pt_pages. intros [[->|[i Hi]]|Hx]; [by left; left| |by right; apply Hsub].
    destruct (B1 _ _ Hi) as [Hi'|Hin]; [by left; right; exists i|by right].
  - intros i t Hi. destruct (B2 _ _ Hi) as [Hi'|Hin]; [by apply B1|by right; apply Hsub].
  - exists (u1 ++ u2). by rewrite <- app_assoc, <- E2.
Qed.

(** Any page of the tables that a step leads to was one before, or was free. *)
Lemma pt_step_pages pgdir s T free s' T' free' x :
  pt_step pgdir s T free s' T' free' -> x ∈ pt_pages pgdir T' ++ free' ->
  x ∈ pt_pages pgdir T ++ free.
Proof.
  intros [_ _ B _ [u E]]. rewrite !elem_of_app, !elem_of_pt_pages.
  intros [[->|[i Hi]]|Hx]; [by left; left| |by right; rewrite E, elem_of_app; right].
  destruct (B _ _ Hi) as [Hi'|Hin]; [by left; right; exists i|by right].
Qed.

(** [walkpgdir] with [alloc]. *)
Lemma walk_step s pgdir T free va :
  pt_ok s pgdir T free -> user_va va ->
  (walkpgdir pgdir va true s = Ret 0 s /\ free = [] /\ T !! PDX va = None) \/
  exists t s' T' free', walkpgdir pgdir va true s = Ret (entry t (PTX va)) s' /\
    pt_step pgdir s T free s' T' free' /\ T' !! PDX va = Some t /\ (length free <= S (length free'))%nat /\
    (forall va', user_va va' -> pte_of (kmem_get s') T' va' = pte_of (kmem_get s) T va').
Proof.
  intros Hpt Hva. destruct (T !! PDX va) as [t|] eqn:Et.
  - right. exists t, s, T, free. split; [by eapply walk_hit|]. split; [by apply pt_step_refl|].
    split_and!; [done|lia|done].
  - destruct free as [|v free]; [left; split; [by eapply walk_full|done]|]. right.
    destruct (walk_alloc s pgdir T v free va Hpt Hva Et) as (s' & E & Hok & Hf & Hp).
    exists v, s', (<[PDX va := v]> T), free. split; [done|]. split; [|split; [by rewrite lookup_insert_eq|split; [done|done]]].
    split; [done| | | |].
    + eapply vframe_sub; [|exact Hf]. intros x. rewrite !elem_of_cons, elem_of_app, elem_of_pt_pages, elem_of_cons.
      intros [->|[->|Hx%elem_of_nil]]; [by left; left|by right; left|done].
    + intros i t [[<- <-]|[_ Hi]]%lookup_insert_Some; [right; left|by left].
    + by apply insert_subseteq.
    + by exists [v].
Qed.

(** Storing an entry into a table. *)
Lemma store_pte s pgdir T free va t w :
  pt_ok s pgdir T free -> user_va va -> T !! PDX va = Some t -> 0 <= w < 18446744073709551616 ->
  exists s', store64 (entry t (PTX va)) w s = Ret tt s' /\ pt_step pgdir s T free s' T free /\
    pte_of (kmem_get s') T va = Some w /\
    (forall va', user_va va' -> va' / 4096 <> va / 4096 ->
       pte_of (kmem_get s') T va' = pte_of (kmem_get s) T va').
Proof.
  intros Hpt Hva Ht Hw. destruct (pt_tab _ _ _ _ Hpt _ _ Ht) as (Hi & Hpg & Hm & Hnf & Hne).
  destruct (store64_frame s t (PTX va) w Hpg Hm (PTX_bound va)) as (s' & E & Hm' & Hf & Hfl).
  exists s'. split; [done|].
  assert (kmem_ok s' free) as Hk.
  { eapply kmem_ok_frame; [apply Hpt|exact Hf|exact Hfl|]. by intros x ->%list_elem_of_singleton. }
  split; [|split].
  - split; [|eapply vframe_sub; [|exact Hf]|auto|done|by exists []].
    2:{ intros x ->%list_elem_of_singleton. rewrite elem_of_app, elem_of_pt_pages. left. right. by eexists. }
    destruct Hpt as [Hl _ (Hd & Hdm & Hdf) Htab Hinj Hpde]. split; [by rewrite (vframe_held _ _ _ Hf)|done| | |done|].
    + split; [done|]. split; [by eapply vframe_mapped|done].
    + intros j u Hj. destruct (Htab j u Hj) as (? & ? & ? & ? & ?).
      split; [done|]. split; [done|]. split; [by eapply vframe_mapped|done].
    + intros j Hj. rewrite (word_outside [t] (kmem_get s)); [by apply Hpde|by apply vframe_same|done| |lia].
      by intros x ->%list_elem_of_singleton.
  - unfold pte_of. rewrite Ht, Hm'. by apply word_put_same.
  - intros va' Hva' Hpne. unfold pte_of. destruct (T !! PDX va') as [u|] eqn:Eu; [|done].
    destruct (pt_tab _ _ _ _ Hpt _ _ Eu) as (_ & Hupg & _). rewrite Hm'.
    pose proof (PTX_bound va). pose proof (PTX_bound va').
    destruct (decide (u = t)) as [->|Hut].
    + apply word_put_other. assert (PTX va' <> PTX va); [|unfold entry; lia]. intros Ep. apply Hpne.
      apply page_indices; [done..| |done]. eapply (pt_inj _ _ _ _ Hpt); done.
    + apply word_put_other. destruct (page_disjoint u t Hupg Hpg Hut); unfold entry; pages.
Qed.

(** ** mappages *)

(** The entry that maps the page at physical address [pa]. *)
Definition mk_pte (pa perm : Z) : Z := Z.lor (Z.lor pa perm) PTE_P.

Lemma mk_pte_parts pa perm :
  pa mod 4096 = 0 -> 0 <= perm < 4096 -> mk_pte pa perm = pa + Z.lor perm PTE_P /\
  PTE_ADDR (mk_pte pa perm) = pa /\ PTE_FLAGS (mk_pte pa perm) = Z.lor perm PTE_P /\
  has (mk_pte pa perm) PTE_P = true.
Proof.
  intros Ha Hp. assert (0 <= Z.lor perm PTE_P < 4096) as Hf by (apply lor_flags_bound; unfold PTE_P; lia).
  unfold mk_pte. rewrite <- Z.lor_assoc. destruct (addr_flags pa _ Ha Hf) as [-> ->].
  rewrite lor_aligned at 1 by done. split_and!; try done.
  rewrite has_flags by (done || unfold PTE_P; lia). apply (has_set_same perm 0). lia.
Qed.

Lemma mk_pte_bound pa perm :
  pa mod 4096 = 0 -> 0 <= pa < 4503599627370496 -> 0 <= perm < 4096 ->
  0 <= mk_pte pa perm < 18446744073709551616.
Proof.
  intros Ha Hb Hp. destruct (mk_pte_parts pa perm Ha Hp) as [-> _].
  assert (0 <= Z.lor perm PTE_P < 4096) by (apply lor_flags_bound; unfold PTE_P; lia). lia.
Qed.

Definition unmapped (m T : gmap Z Z) (va : Z) : Prop :=
  exists v, pte_of m T va = Some v /\ has v PTE_P = false.

Section loop.
Context (pgdir perm : Z) (Hperm : 0 <= perm < 4096).

(** One iteration: no page for a table, or the entry is set and the loop goes on. *)
Lemma mappages_iter f s T free a last pa :
  pt_ok s pgdir T free -> user_va a -> pa mod 4096 = 0 -> 0 <= pa < 4503599627370496 ->
  unmapped (kmem_get s) T a ->
  (mappages_loop (S f) pgdir a last pa perm s = Ret (-1) s /\ free = []) \/
  exists s' T' free',
    mappages_loop (S f) pgdir a last pa perm s = (if a =? last then ret 0
      else mappages_loop f pgdir (u64 (a + PGSIZE)) last (u64 (pa + PGSIZE)) perm) s' /\
    pt_step pgdir s T free s' T' free' /\ pte_of (kmem_get s') T' a = Some (mk_pte pa perm) /\
    (length free <= S (length free'))%nat /\
    (forall va, user_va va -> va / 4096 <> a / 4096 ->
       pte_of (kmem_get s') T' va = pte_of (kmem_get s) T va).
Proof using Hperm.
  intros Hpt Hva Hpa Hpb (v & Hv & Hnp). cbn [mappages_loop].
  destruct (walk_step s pgdir T free a Hpt Hva)
    as [(E & -> & _)|(t & s1 & T1 & free1 & E & Hs1 & Ht1 & Hlen1 & Hsame1)].
  { left. unfold bind. by rewrite E. }
  right. destruct (pt_tab _ _ _ _ (ps_ok _ _ _ _ _ _ _ Hs1) _ _ Ht1) as (_ & Hpg & _).
  pose proof (page_bounds t Hpg) as Hb. pose proof (PTX_bound a) as Hpx.
  assert (word (kmem_get s1) (entry t (PTX a)) = Some v) as Hw.
  { specialize (Hsame1 a Hva). unfold pte_of in Hsame1 at 1. by rewrite Ht1, Hv in Hsame1. }
  destruct (store_pte s1 pgdir T1 free1 a t (mk_pte pa perm) (ps_ok _ _ _ _ _ _ _ Hs1) Hva Ht1)
    as (s2 & E2 & Hs2 & Hp2 & Hsame2); [by apply mk_pte_bound|].
  exists s2, T1, free1. split; [|split; [by eapply pt_step_trans|split; [done|split; [done|]]]].
  - unfold bind. rewrite E, (proj2 (Z.eqb_neq (entry t (PTX a)) 0)) by (unfold entry; lia).
    rewrite (load64_eq _ _ _ Hw), Hnp. fold (mk_pte pa perm). by rewrite E2.
  - intros va Hu Hne. rewrite Hsame2 by done. by apply Hsame1.
Qed.

Lemma page_add a k : (a + 4096 * k) / 4096 = a / 4096 + k /\ (a + 4096 * k) mod 4096 = a mod 4096.
Proof.
  replace (a + 4096 * k) with (a + k * 4096) by lia. by rewrite Z.div_add, Z.mod_add by lia.
Qed.

Lemma mappages_loop_spec n s T free a pa :
  pt_ok s pgdir T free -> a mod 4096 = 0 -> 0 <= a -> a + 4096 * (Z.of_nat n + 1) <= USERTOP ->
  pa mod 4096 = 0 -> 0 <= pa -> pa + 4096 * (Z.of_nat n + 1) < 4503599627370496 ->
  (forall k, 0 <= k <= Z.of_nat n -> unmapped (kmem_get s) T (a + 4096 * k)) ->
  runs (mappages_loop (S n) pgdir a (a + 4096 * Z.of_nat n) pa perm) s (fun r s' => exists T' free',
    pt_step pgdir s T free s' T' free' /\
    ((r = 0 /\ forall k, 0 <= k <= Z.of_nat n ->
        pte_of (kmem_get s') T' (a + 4096 * k) = Some (mk_pte (pa + 4096 * k) perm)) \/
     (r = -1 /\ free' = [])) /\
    forall va, user_va va -> ~ a / 4096 <= va / 4096 <= a / 4096 + Z.of_nat n ->
      pte_of (kmem_get s') T' va = pte_of (kmem_get s) T va).
Proof using Hperm.
  revert s T free a pa. induction n as [|n IH]; intros s T free a pa Hpt Ha H0 Htop Hpa Hp0 Hpb Hun.
  all: assert (user_va a) as Hva by (unfold user_va, USERTOP in *; lia).
  all: pose proof (Hun 0 ltac:(lia)) as Hun0; rewrite Z.mul_0_r, Z.add_0_r in Hun0.
  all: match goal with |- runs (mappages_loop (S ?f) _ _ ?l _ _) _ _ =>
      destruct (mappages_iter f s T free a l pa Hpt Hva Hpa ltac:(lia) Hun0)
        as [(E & ->)|(s1 & T1 & free1 & E & Hs1 & Hp1 & _ & Hsame1)] end.
  1,3: exists (-1), s; split; [exact E|]; exists T, []; split; [by apply pt_step_refl|]; split; [by right|done].
  all: unfold runs; rewrite E; clear E.
  - rewrite (proj2 (Z.eqb_eq a (a + 4096 * Z.of_nat 0))) by lia. apply runs_ret. exists T1, free1.
    split; [done|]. split.
    + left. split; [done|]. intros k Hk. replace k with 0 by lia. by rewrite !Z.mul_0_r, !Z.add_0_r.
    + intros va Hu Hout. apply Hsame1; [done|]. lia.
  - rewrite (proj2 (Z.eqb_neq a (a + 4096 * Z.of_nat (S n)))) by lia.
    rewrite !u64_small by (unfold USERTOP, PGSIZE in *; lia). change (a + PGSIZE) with (a + 4096 * 1).
    change (pa + PGSIZE) with (pa + 4096 * 1).
    destruct (page_add a 1) as [Hd1 Hm1]. destruct (page_add pa 1) as [_ Hm1'].
    replace (a + 4096 * Z.of_nat (S n)) with (a + 4096 * 1 + 4096 * Z.of_nat n) by lia.
    eapply runs_mono; [apply (IH s1 T1 free1 (a + 4096 * 1) (pa + 4096 * 1)); try lia|].
    + apply Hs1.
    + intros k Hk. destruct (Hun (k + 1) ltac:(lia)) as (v' & Hv' & Hnp'). exists v'. split; [|done].
      replace (a + 4096 * 1 + 4096 * k) with (a + 4096 * (k + 1)) by lia.
      rewrite Hsame1; [done|unfold user_va, USERTOP in *; lia|]. rewrite (proj1 (page_add _ _)). lia.
    + intros r s3 (T3 & free3 & Hs3 & Hres & Hout3). exists T3, free3.
      split; [by eapply pt_step_trans|]. split.
      * destruct Hres as [[-> Hm]|[-> ->]]; [left|by right]. split; [done|]. intros k Hk.
        destruct (decide (k = 0)) as [->|Hk0].
        -- rewrite Z.mul_0_r, !Z.add_0_r. rewrite Hout3; [done|done|]. lia.
        -- specialize (Hm (k - 1) ltac:(lia)).
           replace (a + 4096 * 1 + 4096 * (k - 1)) with (a + 4096 * k) in Hm by lia.
           by replace (pa + 4096 * 1 + 4096 * (k - 1)) with (pa + 4096 * k) in Hm by lia.
      * intros va Hu Hout. rewrite Hout3 by (done || lia). apply Hsame1; [done|]. lia.
Qed.
End loop.
End spec.
