(* ===== verification/VmProps.v ===== *)
(** * Properties of the page tables (kernel/vm.c, kernel/vm64.c) *)

From S2P Require Import Prelude Types Monad Sched Mem Kalloc Bio Fs Vm VmSpec.

Section props.
Context {L : Layout}.

(** The pages of the range [va, va + size). *)
Definition first_page (va : Z) : Z := va / 4096.
Definition last_page (va size : Z) : Z := (va + size - 1) / 4096.

Lemma mappages_fuel va size :
  0 <= va -> 0 < size -> va + size <= USERTOP ->
  PGROUNDDOWN va = 4096 * first_page va /\
  PGROUNDDOWN (u64 (va + size - 1)) = 4096 * first_page va + 4096 * (last_page va size - first_page va) /\
  Z.to_nat (u64 (PGROUNDDOWN (u64 (va + size - 1)) - PGROUNDDOWN va) / PGSIZE)
    = Z.to_nat (last_page va size - first_page va) /\ 0 <= last_page va size - first_page va /\
  4096 * (last_page va size + 1) <= USERTOP.
Proof.
  intros H0 Hs Ht. unfold USERTOP, first_page, last_page in *. rewrite !round_down_mod. unfold PGSIZE.
  rewrite (u64_small (va + size - 1)) by lia.
  pose proof (Z.div_mod va 4096). pose proof (Z.div_mod (va + size - 1) 4096).
  pose proof (Z.mod_pos_bound va 4096). pose proof (Z.mod_pos_bound (va + size - 1) 4096).
  assert (va / 4096 <= (va + size - 1) / 4096) by (apply Z.div_le_mono; lia).
  assert ((va + size - 1) / 4096 < 261120) by (apply Z.div_lt_upper_bound; lia).
  replace (va + size - 1 - (va + size - 1) mod 4096 - (va - va mod 4096))
    with (((va + size - 1) / 4096 - va / 4096) * 4096) by lia.
  rewrite u64_small by lia. rewrite Z.div_mul by lia. lia.
Qed.

(** C24. [mappages] maps every page of the range to the physical pages from [pa] on with the
    given permissions, and no other page; the tables it adds come from the free list and
    everything outside page-table pages and free pages is untouched. It fails only when the free
    list is exhausted. *)
Theorem mappages_maps s pgdir T free va size pa perm :
  pt_ok s pgdir T free -> 0 <= va -> 0 < size -> va + size <= USERTOP ->
  pa mod 4096 = 0 -> 0 <= pa < 4294967296 -> 0 <= perm < 4096 ->
  (forall p, first_page va <= p <= last_page va size -> unmapped (kmem_get s) T (4096 * p)) ->
  runs (mappages pgdir va size pa perm) s (fun r s' => exists T' free',
    pt_step pgdir s T free s' T' free' /\
    ((r = 0 /\ forall p, first_page va <= p <= last_page va size ->
        pte_of (kmem_get s') T' (4096 * p) = Some (mk_pte (pa + 4096 * (p - first_page va)) perm)) \/
     (r = -1 /\ free' = [])) /\
    forall va', user_va va' -> ~ first_page va <= va' / 4096 <= last_page va size ->
      pte_of (kmem_get s') T' va' = pte_of (kmem_get s) T va').
Proof.
  intros Hpt H0 Hs Ht Hpa Hpb Hperm Hun.
  destruct (mappages_fuel va size H0 Hs Ht) as (Ea & El & Ef & Hn & Htop).
  set (f := first_page va) in *. set (l := last_page va size) in *.
  assert (0 <= f) by (apply Z.div_pos; lia).
  unfold mappages. cbv zeta. rewrite Ef, El, Ea.
  rewrite <- (Z2Nat.id (l - f)) at 2 by lia.
  assert (4096 * f / 4096 = f) as Hdf by (rewrite Z.mul_comm; apply Z.div_mul; lia).
  eapply runs_mono; [apply (mappages_loop_spec pgdir perm Hperm (Z.to_nat (l - f)) s T free (4096 * f) pa)|].
  - done.
  - rewrite Z.mul_comm. apply Z.mod_mul. lia.
  - lia.
  - lia.
  - done.
  - lia.
  - unfold USERTOP in *. lia.
  - intros k Hk. replace (4096 * f + 4096 * k) with (4096 * (f + k)) by lia. apply Hun. lia.
  - intros r s' (T' & free' & Hst & Hres & Hout). exists T', free'. split; [done|]. split.
    + destruct Hres as [[-> Hm]|?]; [left|by right]. split; [done|]. intros p Hp.
      specialize (Hm (p - f) ltac:(lia)). by replace (4096 * f + 4096 * (p - f)) with (4096 * p) in Hm by lia.
    + intros va' Hu Hne. apply Hout; [done|]. rewrite Hdf. lia.
Qed.
(** One page at a page boundary. *)
Lemma map_page s pgdir T free a pa perm :
  pt_ok s pgdir T free -> a mod 4096 = 0 -> 0 <= a -> a + 4096 <= USERTOP ->
  pa mod 4096 = 0 -> 0 <= pa < 4294967296 -> 0 <= perm < 4096 -> unmapped (kmem_get s) T a ->
  runs (mappages pgdir a PGSIZE pa perm) s (fun r s' => exists T' free',
    pt_step pgdir s T free s' T' free' /\
    (length free <= S (length free'))%nat /\
    ((r = 0 /\ pte_of (kmem_get s') T' a = Some (mk_pte pa perm)) \/ (r = -1 /\ free = [])) /\
    forall va, user_va va -> va / 4096 <> a / 4096 ->
      pte_of (kmem_get s') T' va = pte_of (kmem_get s) T va).
Proof.
  intros Hpt Ha H0 Ht Hpa Hpb Hperm Hun.
  assert (PGROUNDDOWN a = a) as Ea by (rewrite round_down_mod; unfold PGSIZE; lia).
  assert (PGROUNDDOWN (u64 (a + PGSIZE - 1)) = a + 4096 * Z.of_nat 0) as El.
  { unfold USERTOP, PGSIZE in *. rewrite u64_small, round_down_mod by lia. unfold PGSIZE.
    rewrite <- (Z.mod_unique_pos (a + 4096 - 1) 4096 (a / 4096) 4095) by (pose proof (Z.div_mod a 4096); lia).
    lia. }
  unfold mappages. cbv zeta. rewrite El, Ea. change (Z.of_nat 0) with 0.
  rewrite Z.mul_0_r, Z.add_0_r, Z.sub_diag. change (S (Z.to_nat (u64 0 / PGSIZE))) with 1%nat.
  assert (user_va a) as Hva by (unfold user_va, USERTOP in *; lia).
  destruct (mappages_iter pgdir perm Hperm 0 s T free a a pa Hpt Hva Hpa ltac:(lia) Hun)
    as [(E & ->)|(s1 & T1 & free1 & E & Hs1 & Hp1 & Hlen & Hsame1)]; unfold runs; rewrite E.
  - exists (-1), s. split; [done|]. exists T, []. split; [by apply pt_step_refl|]. split; [simpl; lia|].
    split; [by right|done].
  - rewrite Z.eqb_refl. exists 0, s1. split; [done|]. exists T1, free1. split; [done|]. split; [done|].
    split; [by left|done].
Qed.
End props.
