(* ===== verification/VmCopy.v ===== *)
(** * New address spaces: [setupkvm] and [copyuvm] (kernel/vm64.c, kernel/vm.c) *)

From S2P Require Import Prelude Types Monad Sched Mem Kalloc Bio Fs Vm VmSpec VmProps.

Section copy.
Context {L : Layout}.

(** ** Sequences of stores to pages taken from the free list *)

(** A state that differs from [s] only in the pages [P], with [free] still free. *)
Record stored (P free : list Z) (s s' : kstate) : Prop := {
  sd_frame : vframe P s s';
  sd_kmem : kmem_ok s' free;
  sd_lock : LKmem ∉ k_held s'
}.

Lemma stored_fill P free s s' v c {A} (k : K A) Q :
  stored P free s s' -> (forall x, x ∈ P -> page_ok x /\ mapped_range (kmem_get s) x PGBYTES /\ x ∉ free) ->
  v ∈ P ->
  (forall s2, stored P free s s2 -> vframe [v] s' s2 ->
     (forall x, in_page v x -> kmem_get s2 !! x = Some (u8 c)) -> runs k s2 Q) ->
  runs (fill_bytes v c PGBYTES ;; k) s' Q.
Proof.
  intros [Hf Hk Hl] HP Hv Hcont. destruct (HP v Hv) as (Hpg & Hm & Hnf).
  destruct (fill_frame s' v c Hpg (vframe_mapped _ _ _ _ _ Hf Hm)) as (s2 & E & Hz & Hf2 & Hfl).
  eapply runs_eq; [exact E|]. clear E. apply Hcont; [|done|done]. split.
  - eapply vframe_trans; [exact Hf|]. eapply vframe_sub; [|exact Hf2]. by intros x ->%list_elem_of_singleton.
  - eapply kmem_ok_frame; [exact Hk|exact Hf2|done|]. by intros x ->%list_elem_of_singleton.
  - by rewrite (vframe_held _ _ _ Hf2).
Qed.

Lemma stored_word P free s s' v i w {A} (k : K A) Q :
  stored P free s s' -> (forall x, x ∈ P -> page_ok x /\ mapped_range (kmem_get s) x PGBYTES /\ x ∉ free) ->
  v ∈ P -> 0 <= i < 512 ->
  (forall s2, stored P free s s2 -> vframe [v] s' s2 ->
     (forall j, 0 <= j < 512 -> j <> i -> word (kmem_get s2) (entry v j) = word (kmem_get s') (entry v j)) ->
     runs k s2 Q) ->
  runs (store64 (entry v i) w ;; k) s' Q.
Proof.
  intros [Hf Hk Hl] HP Hv Hi Hcont. destruct (HP v Hv) as (Hpg & Hm & Hnf).
  destruct (store64_frame s' v i w Hpg (vframe_mapped _ _ _ _ _ Hf Hm) Hi) as (s2 & E & Hz & Hf2 & Hfl).
  eapply runs_eq; [exact E|]. clear E. apply Hcont.
  - split.
    + eapply vframe_trans; [exact Hf|]. eapply vframe_sub; [|exact Hf2]. by intros x ->%list_elem_of_singleton.
    + eapply kmem_ok_frame; [exact Hk|exact Hf2|done|]. by intros x ->%list_elem_of_singleton.
    + by rewrite (vframe_held _ _ _ Hf2).
  - done.
  - intros j Hj Hji. rewrite Hz. apply word_put_other. unfold entry. lia.
Qed.

(** ** setupkvm *)

Lemma zero_words P s s' v i :
  vframe P s s' -> page_ok v -> (forall w, w ∈ P -> page_ok w /\ w <> v) -> 0 <= i < 512 ->
  word (kmem_get s) (entry v i) = Some 0 -> word (kmem_get s') (entry v i) = Some 0.
Proof. intros Hf Hv HP Hi <-. by apply (word_outside P); [apply vframe_same| | |]. Qed.

Lemma alloc3 {A} s a b c free (f : Z -> Z -> Z -> K A) Q :
  kmem_ok s (a :: b :: c :: free) -> LKmem ∉ k_held s ->
  (forall s', stored [a; b; c] free s s' -> kmem_get s' = kmem_get s -> runs (f a b c) s' Q) ->
  runs (x <- kalloc ;; y <- kalloc ;; z <- kalloc ;; f x y z) s Q.
Proof.
  intros Hk Hl Hc.
  destruct (kalloc_frame s a _ Hk Hl) as (s1 & E1 & Hk1 & Hm1 & Hf1 & _).
  destruct (kalloc_frame s1 b _ Hk1) as (s2 & E2 & Hk2 & Hm2 & Hf2 & _);
    [by rewrite (vframe_held _ _ _ Hf1)|].
  destruct (kalloc_frame s2 c _ Hk2) as (s3 & E3 & Hk3 & Hm3 & Hf3 & _);
    [by rewrite (vframe_held _ _ _ Hf2), (vframe_held _ _ _ Hf1)|].
  eapply runs_eq; [exact E1|]. eapply runs_eq; [exact E2|]. eapply runs_eq; [exact E3|].
  assert (vframe [a; b; c] s s3) as Hf.
  { eapply (vframe_sub []); [inlist|]. by eapply vframe_trans, vframe_trans. }
  apply Hc; [|congruence]. split; [done|done|]. by rewrite (vframe_held _ _ _ Hf).
Qed.

(** [setupkvm] takes three pages and returns an empty address space. *)
Lemma setupkvm_spec s kpdpt a b c free :
  kmem_ok s (a :: b :: c :: free) -> LKmem ∉ k_held s ->
  runs (setupkvm kpdpt) s (fun d s' => d = c /\ pt_ok s' c ∅ free /\ vframe [a; b; c] s s').
Proof.
  intros Hk Hl. unfold setupkvm. apply (alloc3 s a b c free); [done..|]. intros s0 Hs0 Hm0.
  pose proof Hk as [_ Hnd Hp]. rewrite !NoDup_cons, !not_elem_of_cons in Hnd.
  destruct Hnd as ((Hab & Hac & Haf) & (Hbc & Hbf) & Hcf & Hnd).
  assert (forall x, x ∈ [a; b; c] -> page_ok x /\ mapped_range (kmem_get s) x PGBYTES /\ x ∉ free) as HP.
  { intros x Hx. destruct (Hp x) as [Hpg Hm].
    { change (a :: b :: c :: free) with ([a; b; c] ++ free). apply elem_of_app. by left. }
    split; [done|]. split; [done|]. rewrite !elem_of_cons, elem_of_nil in Hx.
    destruct Hx as [->|[->|[->|[]]]]; done. }
  assert (a ∈ [a; b; c] /\ b ∈ [a; b; c] /\ c ∈ [a; b; c]) as (Ia & Ib & Ic)
    by (rewrite !elem_of_cons; tauto).
  destruct (HP c Ic) as (Hcp & Hcm & _).
  eapply stored_fill; [exact Hs0|exact HP|exact Ia|]. intros s1 Hs1 _ _.
  eapply stored_fill; [exact Hs1|exact HP|exact Ib|]. intros s2 Hs2 _ _.
  eapply stored_fill; [exact Hs2|exact HP|exact Ic|]. intros s3 Hs3 _ Hz3.
  assert (forall j, 0 <= j < 512 -> word (kmem_get s3) (entry c j) = Some 0) as Hw3
    by (intros j Hj; by apply word_zero_page).
  eapply stored_word; [exact Hs3|exact HP|exact Ia|lia|]. intros s4 Hs4 Hf4 _.
  eapply stored_word; [exact Hs4|exact HP|exact Ia|lia|]. intros s5 Hs5 Hf5 _.
  eapply stored_word; [exact Hs5|exact HP|exact Ib|lia|]. intros s6 Hs6 Hf6 _.
  eapply stored_word; [exact Hs6|exact HP|exact Ic|lia|]. intros s7 Hs7 _ Hw7.
  eapply stored_word; [exact Hs7|exact HP|exact Ic|lia|]. intros s8 Hs8 _ Hw8.
  apply runs_ret. split; [done|]. split; [|apply Hs8]. destruct Hs8 as [Hf8 Hk8 Hl8].
  split; [done|done| | | |].
  - split; [done|]. split; [by eapply vframe_mapped|done].
  - intros i t Ht. by rewrite lookup_empty in Ht.
  - intros i j t Ht. by rewrite lookup_empty in Ht.
  - intros i Hi. rewrite lookup_empty. exists 0. split; [|done]. rewrite Hw8, Hw7 by lia.
    assert (forall x, x = a \/ x = b -> page_ok x /\ x <> c) as Hne.
    { intros x [->| ->]; (split; [by apply HP|done]). }
    eapply (zero_words [b]); [exact Hf6|done|by intros x ->%list_elem_of_singleton; apply Hne; right|lia|].
    eapply (zero_words [a]); [exact Hf5|done|by intros x ->%list_elem_of_singleton; apply Hne; left|lia|].
    eapply (zero_words [a]); [exact Hf4|done|by intros x ->%list_elem_of_singleton; apply Hne; left|lia|].
    apply Hw3. lia.
Qed.

(** ** copyuvm *)

Lemma move_frame s dst src :
  page_ok dst -> mapped_range (kmem_get s) dst PGBYTES -> mapped_range (kmem_get s) src PGBYTES ->
  exists s', move_bytes dst src PGBYTES s = Ret tt s' /\
    (forall o, 0 <= o < PGSIZE -> kmem_get s' !! (dst + o) = kmem_get s !! (src + o)) /\
    vframe [dst] s s' /\ m_freelist (k_kmem s') = m_freelist (k_kmem s).
Proof.
  intros Hd Hm Hs. destruct (mem_read_some (kmem_get s) src PGBYTES Hs) as [l Hl].
  pose proof (proj1 (mem_read_spec _ _ _ _) Hl) as [Hlen Hlk].
  eexists. split; [|split; [|split]].
  - unfold move_bytes, bind, load_bytes. rewrite Hl. apply store_bytes_eq. by rewrite Hlen.
  - intros o Ho. unfold kmem_get at 1, set_mem. cbn [k_kmem set_kmem m_mem mset_mem].
    rewrite lookup_mem_put, Hlen, decide_True by pages. specialize (Hlk (Z.to_nat o) ltac:(pages)).
    rewrite Z2Nat.id in Hlk by lia. rewrite Hlk. f_equal. lia.
  - eexists. split; [reflexivity|]. split.
    + intros x Hx. apply eq_trans with (mem_put (kmem_get s) dst l !! x); [done|].
      rewrite lookup_mem_put, Hlen, decide_False; [done|]. intros Hr. apply (Hx dst); [left|].
      unfold in_page. pages.
    + intros x Hx. apply mem_put_some; [|exact Hx]. by rewrite Hlen.
  - reflexivity.
Qed.

(** A present user page: its entry [v] and a data page that is not free. *)
Definition user_page (s : kstate) (T : gmap Z Z) (free : list Z) (p v : Z) : Prop :=
  pte_of (kmem_get s) T (4096 * p) = Some v /\ has v PTE_P = true /\
  page_ok (p2v (PTE_ADDR v)) /\ mapped_range (kmem_get s) (p2v (PTE_ADDR v)) PGBYTES /\
  p2v (PTE_ADDR v) ∉ free.

Lemma flags_bound v : 0 <= PTE_FLAGS v < 4096.
Proof. unfold PTE_FLAGS. change 4095 with (Z.ones 12). rewrite Z.land_ones by lia. by apply Z.mod_pos_bound. Qed.

Section loop.
Context (s0 : kstate) (pgdir d : Z) (T : gmap Z Z) (free0 : list Z) (np : Z) (vs : Z -> Z).
Context (Hpt0 : pt_ok s0 pgdir T free0) (Hnp : 0 <= np) (Htop : 4096 * np <= USERTOP).
Context (Hus : forall p, 0 <= p < np -> user_page s0 T free0 p (vs p)).

(** The first [p] pages are copied to the pages [M]. *)
Record copied (p : Z) (s : kstate) (Td : gmap Z Z) (free : list Z) (M : Z -> Z) : Prop := {
  cp_frame : vframe free0 s0 s;
  cp_child : pt_ok s d Td free;
  cp_pages : forall x, x ∈ pt_pages d Td ++ free -> x ∈ free0;
  cp_room : 2 * (np - p) <= Z.of_nat (length free);
  cp_rest : forall q, p <= q -> 4096 * q < USERTOP -> unmapped (kmem_get s) Td (4096 * q);
  cp_done : forall q, 0 <= q < p ->
    pte_of (kmem_get s) Td (4096 * q) = Some (mk_pte (v2p (M q)) (PTE_FLAGS (vs q))) /\
    M q ∈ free0 /\ M q ∉ pt_pages d Td ++ free /\
    forall o, 0 <= o < PGSIZE -> kmem_get s !! (M q + o) = kmem_get s0 !! (p2v (PTE_ADDR (vs q)) + o);
  cp_inj : forall q r, 0 <= q < p -> 0 <= r < p -> M q = M r -> q = r
}.

Lemma free0_page x : x ∈ free0 -> page_ok x /\ mapped_range (kmem_get s0) x PGBYTES.
Proof using Hpt0. apply (km_pages _ _ (pt_kmem _ _ _ _ Hpt0)). Qed.

(** The parent is as it was. *)
Lemma parent_kept p s Td free M :
  copied p s Td free M -> pt_ok s pgdir T free /\
  forall q, 0 <= q < np -> user_page s T free q (vs q) /\
    forall o, 0 <= o < PGSIZE ->
      kmem_get s !! (p2v (PTE_ADDR (vs q)) + o) = kmem_get s0 !! (p2v (PTE_ADDR (vs q)) + o).
Proof using Hpt0 Hus.
  intros [Hf Hc Hpg _ _ _ _].
  assert (forall x, x ∈ free -> x ∈ free0) as Hsub by (intros x Hx; apply Hpg; rewrite elem_of_app; by right).
  assert (forall x, x ∈ free0 -> page_ok x /\ x <> pgdir /\ forall i t, T !! i = Some t -> x <> t) as HP.
  { intros x Hx. split; [by apply free0_page|]. destruct (pt_dir _ _ _ _ Hpt0) as (_ & _ & Hn).
    split; [by intros ->|]. intros i t Ht ->. by destruct (pt_tab _ _ _ _ Hpt0 _ _ Ht) as (_ & _ & _ & ? & _). }
  split; [eapply pt_ok_frame; [exact Hpt0|exact Hf|apply Hc|done|done]|].
  intros q Hq. destruct (Hus q Hq) as (Hp & Hh & Hpk & Hm & Hn). split.
  - split.
    + rewrite (pte_of_frame free0 s0 s pgdir T free0); [done..|]. intros x Hx. by destruct (HP x Hx) as (? & _ & ?).
    + split; [done|]. split; [done|]. split; [by eapply vframe_mapped|]. intros Hin. by apply Hn, Hsub.
  - intros o Ho. apply (vframe_same _ _ _ Hf). intros x Hx. apply (page_not_in (p2v (PTE_ADDR (vs q))) x).
    + done.
    + by apply free0_page.
    + intros E. apply Hn. by rewrite E.
    + unfold in_page. lia.
Qed.
(** The step of one page: the state [s2] after [kalloc] and [memmove], then [mappages]. *)
Lemma copied_page p s Td mem free M s2 s3 T3 free3 :
  copied p s Td (mem :: free) M -> 0 <= p < np ->
  vframe [mem] s s2 -> kmem_ok s2 free ->
  (forall o, 0 <= o < PGSIZE -> kmem_get s2 !! (mem + o) = kmem_get s !! (p2v (PTE_ADDR (vs p)) + o)) ->
  pt_step d s2 Td free s3 T3 free3 -> (length free <= S (length free3))%nat ->
  pte_of (kmem_get s3) T3 (4096 * p) = Some (mk_pte (v2p mem) (PTE_FLAGS (vs p))) ->
  (forall va, user_va va -> va / 4096 <> 4096 * p / 4096 ->
     pte_of (kmem_get s3) T3 va = pte_of (kmem_get s2) Td va) ->
  copied (p + 1) s3 T3 free3 (fun q => if decide (q = p) then mem else M q).
Proof using Hpt0 Hnp Htop Hus.
  intros Hcp Hp Hf2 Hk2 Hmv Hs3 Hlen Hpte Hother.
  destruct (parent_kept p s Td _ M Hcp) as [_ Hpar]. destruct Hcp as [Hf Hc Hpg Hroom Hrest Hdone Hinj].
  pose proof (pt_kmem _ _ _ _ Hc) as [_ Hnd Hpgs]. apply NoDup_cons in Hnd as [Hmf Hnd].
  assert (mem ∈ free0) as Hm0 by (apply Hpg; rewrite elem_of_app, elem_of_cons; tauto).
  assert (mem ∉ pt_pages d Td) as Hmpt.
  { rewrite elem_of_pt_pages. destruct (pt_dir _ _ _ _ Hc) as (_ & _ & Hn). intros [->|[i Hi]].
    - apply Hn. left.
    - destruct (pt_tab _ _ _ _ Hc _ _ Hi) as (_ & _ & _ & Hn' & _). apply Hn'. left. }
  assert (forall x, x ∈ pt_pages d T3 ++ free3 -> x ∈ pt_pages d Td ++ free) as Hsub
    by (intros x; by eapply pt_step_pages).
  assert (mem ∉ pt_pages d T3 ++ free3) as Hm3.
  { intros Hin%Hsub. rewrite elem_of_app in Hin. tauto. }
  assert (forall x, x ∈ pt_pages d Td ++ free -> x ∈ free0) as Hsub0.
  { intros x Hx. apply Hpg. rewrite elem_of_app, elem_of_cons in *. tauto. }
  assert (forall v o, v ∈ free0 -> v ∉ pt_pages d Td ++ free -> 0 <= o < PGSIZE ->
    kmem_get s3 !! (v + o) = kmem_get s2 !! (v + o)) as Hkeep.
  { intros v o Hv Hn Ho. apply (vframe_same _ _ _ (ps_frame _ _ _ _ _ _ _ Hs3)). intros w Hw.
    apply (page_not_in v w); [by apply free0_page|by apply free0_page, Hsub0| |unfold in_page; lia].
    intros ->. done. }
  assert (forall va, pte_of (kmem_get s2) Td va = pte_of (kmem_get s) Td va) as Hpte2.
  { intros va. eapply pte_of_frame; [exact Hc|exact Hf2|]. intros x ->%list_elem_of_singleton.
    split; [by apply free0_page|]. intros i t Hi ->. apply Hmpt. rewrite elem_of_pt_pages. right. by exists i. }
  assert (forall q, 4096 * q / 4096 = q) as Hdiv by (intros q; rewrite Z.mul_comm; apply Z.div_mul; lia).
  split.
  - eapply vframe_trans; [exact Hf|]. eapply vframe_trans.
    + eapply vframe_sub; [|exact Hf2]. by intros x ->%list_elem_of_singleton.
    + eapply vframe_sub; [exact Hsub0|]. apply Hs3.
  - apply Hs3.
  - intros x Hx. by apply Hsub0, Hsub.
  - simpl length in Hroom. lia.
  - intros q Hq Hqt. destruct (Hrest q ltac:(lia) Hqt) as (v & Hv & Hnv). exists v. split; [|done].
    rewrite Hother, Hpte2; [done|unfold user_va; lia|]. rewrite !Hdiv. lia.
  - intros q Hq. case_decide as E.
    + subst q. split; [done|]. split; [done|]. split; [done|]. intros o Ho.
      rewrite Hkeep; [|done|rewrite elem_of_app; tauto|done]. rewrite Hmv by done. by apply Hpar.
    + destruct (Hdone q ltac:(lia)) as (Hq1 & Hq2 & Hq3 & Hq4). rewrite elem_of_app, elem_of_cons in Hq3.
      split; [|split; [done|split]].
      * rewrite Hother, Hpte2; [done|unfold user_va, USERTOP in *; lia|]. rewrite !Hdiv. lia.
      * intros Hin%Hsub. rewrite elem_of_app in Hin. tauto.
      * intros o Ho. rewrite Hkeep; [|done|rewrite elem_of_app; tauto|done]. rewrite <- Hq4 by done.
        apply (vframe_same _ _ _ Hf2). intros x ->%list_elem_of_singleton.
        apply (page_not_in (M q) mem); [by apply free0_page..| |unfold in_page; lia]. tauto.
  - intros q r Hq Hr. repeat case_decide; subst; try done.
    + intros E. destruct (Hdone r ltac:(lia)) as (_ & _ & Hn & _). exfalso. apply Hn.
      rewrite <- E, elem_of_app, elem_of_cons. tauto.
    + intros E. destruct (Hdone q ltac:(lia)) as (_ & _ & Hn & _). exfalso. apply Hn.
      rewrite E, elem_of_app, elem_of_cons. tauto.
    + apply Hinj; lia.
Qed.
Lemma copyuvm_loop_spec fuel p s Td free M sz :
  copied p s Td free M -> 0 <= p <= np -> np = (sz + 4095) / 4096 -> 0 <= sz ->
  (Z.to_nat (np - p) < fuel)%nat ->
  runs (copyuvm_loop fuel pgdir d (4096 * p) sz) s (fun r s' => r = true /\ exists Td' free' M',
    copied np s' Td' free' M').
Proof using Hpt0 Hnp Htop Hus.
  revert p s Td free M. induction fuel as [|fuel IH]; intros p s Td free M Hcp Hp Hnpe Hsz Hfuel; [lia|].
  cbn [copyuvm_loop]. pose proof (Z.div_mod (sz + 4095) 4096 ltac:(lia)) as Hdm.
  pose proof (Z.mod_pos_bound (sz + 4095) 4096 ltac:(lia)).
  destruct (Z.ltb_spec (4096 * p) sz) as [Hlt|Hge].
  2:{ apply runs_ret. split; [done|]. assert (np = p) as -> by lia. by exists Td, free, M. }
  assert (p < np) as Hpn by lia. assert (user_va (4096 * p)) as Hva by (unfold user_va, USERTOP in *; lia).
  destruct (parent_kept p s Td free M Hcp) as [Hpar Hpages].
  destruct (Hpages p ltac:(lia)) as [(Hpte & Hh & Hpk & Hpm & Hpf) _].
  assert (exists t, T !! PDX (4096 * p) = Some t) as [t Ht].
  { unfold pte_of in Hpte. destruct (T !! PDX (4096 * p)); [by eexists|]. injection Hpte as E. by rewrite <- E in Hh. }
  destruct (pt_tab _ _ _ _ Hpar _ _ Ht) as (_ & Htp & _). pose proof (page_bounds t Htp).
  pose proof (PTX_bound (4096 * p)).
  eapply runs_eq; [by eapply walk_hit|].
  rewrite (proj2 (Z.eqb_neq (entry t (PTX (4096 * p))) 0)) by (unfold entry; lia).
  eapply runs_eq; [apply load64_eq; unfold pte_of in Hpte; rewrite Ht in Hpte; exact Hpte|].
  rewrite Hh. cbn [negb]. pose proof (cp_room _ _ _ _ _ Hcp) as Hroom.
  destruct free as [|mem free]; [simpl in Hroom; lia|].
  pose proof (cp_child _ _ _ _ _ Hcp) as Hc.
  destruct (kalloc_frame s mem free (pt_kmem _ _ _ _ Hc) (pt_lock _ _ _ _ Hc))
    as (s1 & E1 & Hk1 & Hm1 & Hf1 & Hmp & Hmm & Hmf & Hm0).
  eapply runs_eq; [exact E1|]. rewrite (proj2 (Z.eqb_neq mem 0)) by done.
  destruct (move_frame s1 mem (p2v (PTE_ADDR (vs p))) Hmp Hmm) as (s2 & E2 & Hmv & Hf2 & Hfl2).
  { by eapply vframe_mapped. }
  eapply runs_eq; [exact E2|]. clear E1 E2.
  assert (vframe [mem] s s2) as Hf12.
  { eapply vframe_trans; [|exact Hf2]. eapply vframe_sub; [|exact Hf1]. inlist. }
  assert (kmem_ok s2 free) as Hk2.
  { eapply kmem_ok_frame; [exact Hk1|exact Hf2|done|]. by intros x ->%list_elem_of_singleton. }
  assert (pt_ok s2 d Td free) as Hc2.
  { eapply pt_ok_frame; [exact Hc|exact Hf12|exact Hk2|intros x Hx; by right|].
    intros x ->%list_elem_of_singleton. split; [done|]. destruct (pt_dir _ _ _ _ Hc) as (_ & _ & Hn).
    split; [intros ->; apply Hn; left|]. intros i u Hu ->.
    destruct (pt_tab _ _ _ _ Hc _ _ Hu) as (_ & _ & _ & Hn' & _). apply Hn'. left. }
  destruct (v2p_p2v mem Hmp) as (_ & Hvb & Hal).
  eapply runs_step; [apply (map_page s2 d Td free (4096 * p) (v2p mem) (PTE_FLAGS (vs p)) Hc2)|].
  - rewrite Z.mul_comm. apply Z.mod_mul. lia.
  - lia.
  - lia.
  - done.
  - unfold PHYSTOP in *. lia.
  - apply flags_bound.
  - destruct (cp_rest _ _ _ _ _ Hcp p ltac:(lia) ltac:(unfold user_va in Hva; lia)) as (v & Hv & Hnv).
    exists v. split; [|done]. rewrite <- Hv. eapply pte_of_frame; [exact Hc|exact Hf12|].
    intros x ->%list_elem_of_singleton. split; [done|]. intros i u Hu ->.
    destruct (pt_tab _ _ _ _ Hc _ _ Hu) as (_ & _ & _ & Hn' & _). apply Hn'. left.
  - intros r s3 (T3 & free3 & Hs3 & Hlen & Hres & Hother).
    destruct Hres as [[-> Hp3]|[_ ->]]; [|simpl in Hroom; lia].
    change (0 <? 0) with false. cbv iota. rewrite u64_small by (unfold USERTOP, PGSIZE in *; lia).
    replace (4096 * p + PGSIZE) with (4096 * (p + 1)) by (unfold PGSIZE; lia).
    eapply IH; [eapply copied_page; eauto; [lia|]|lia|done|done|lia].
    intros o Ho. rewrite Hmv by done. by rewrite Hm1.
Qed.
End loop.

(** C25. [copyuvm] gives the child a private copy of the parent's memory: with enough free pages it
    returns an address space in which every page below [sz] is present with the parent's
    flags and holds the parent's bytes, in distinct pages that came off the free list. The
    parent's tables and pages, and all memory that was not free, are unchanged. *)
Theorem copyuvm_copies s kpdpt pgdir T free sz vs :
  let np := (sz + 4095) / 4096 in
  pt_ok s pgdir T free -> 0 <= sz -> 4096 * np <= USERTOP ->
  (forall p, 0 <= p < np -> user_page s T free p (vs p)) -> 3 + 2 * np <= Z.of_nat (length free) ->
  runs (copyuvm kpdpt pgdir sz) s (fun d s' => d <> 0 /\ exists Td free' M,
    pt_ok s' d Td free' /\ pt_ok s' pgdir T free' /\ vframe free s s' /\
    (forall p, 0 <= p < np ->
       pte_of (kmem_get s') Td (4096 * p) = Some (mk_pte (v2p (M p)) (PTE_FLAGS (vs p))) /\
       M p ∈ free /\ M p ∉ pt_pages d Td ++ free' /\
       forall o, 0 <= o < PGSIZE -> kmem_get s' !! (M p + o) = kmem_get s !! (p2v (PTE_ADDR (vs p)) + o)) /\
    (forall p q, 0 <= p < np -> 0 <= q < np -> M p = M q -> p = q)).
Proof.
  intros np Hpt Hsz Htop Hus Hroom. assert (0 <= np) as Hnp by (apply Z.div_pos; lia).
  destruct free as [|a [|b [|c free]]]; simpl in Hroom; [lia..|].
  eapply runs_step; [apply (setupkvm_spec s kpdpt a b c free); apply Hpt|].
  intros d s1 (-> & Hc & Hf). pose proof (proj1 (pt_dir _ _ _ _ Hc)) as Hcp. pose proof (page_bounds c Hcp).
  destruct (Z.eqb_spec c 0); [lia|].
  assert (copied s c (a :: b :: c :: free) np vs 0 s1 ∅ free (fun _ => 0)) as Hcop.
  { split; [eapply vframe_sub; [|exact Hf]; inlist|done| |lia| |lia|lia].
    - intros x. rewrite elem_of_app, elem_of_pt_pages, !elem_of_cons.
      intros [[->|[i Hi]]|Hx]; [tauto|by rewrite lookup_empty in Hi|tauto].
    - intros q Hq _. exists 0. split; [|done]. unfold pte_of. by rewrite lookup_empty. }
  eapply runs_step; [apply (copyuvm_loop_spec s pgdir c T (a :: b :: c :: free) np vs Hpt Hnp Htop Hus
    _ 0 s1 ∅ free (fun _ => 0) sz Hcop); [lia|done|done|]|].
  { assert (np <= sz / 4096 + 1); [|unfold PGSIZE; lia].
    unfold np. replace (sz / 4096 + 1) with ((sz + 1 * 4096) / 4096) by (by rewrite Z.div_add by lia).
    apply Z.div_le_mono; lia. }
  intros r s2 (-> & Td & free' & M & Hcop2). apply runs_ret. split; [lia|]. exists Td, free', M.
  destruct (parent_kept s pgdir c T (a :: b :: c :: free) np vs Hpt Hus np s2 Td free' M Hcop2) as [Hpar _].
  destruct Hcop2. done.
Qed.
End copy.

(** ** Witnesses: a process of one page in a machine with sixteen *)

Definition vm_mem : gmap Z Z := map_seqZ demo_base (replicate (16 * PGBYTES)%nat 0).
Definition vm_boot : kstate := set_kmem (Kmem 0 0 vm_mem) (boot_state (Disk ∅ 0 [])).

Lemma vm_free_list : exists s free, kmem_ok (L := demo_layout) s free /\ length free = 16%nat /\ k_held s = [].
Proof.
  assert (forall x, demo_base <= x < demo_base + 65536 -> is_Some (kmem_get vm_boot !! x)) as Hm.
  { intros x Hx. exists 0. apply lookup_map_seqZ_Some. split; [lia|]. apply lookup_replicate_2. pages. }
  destruct (freerange_loop_spec (L := demo_layout) 17 vm_boot demo_base (demo_base + 65536) [])
    as ([] & s' & _ & Hk & Hh & _).
  - simpl. void.
  - split; [reflexivity|constructor|void].
  - vm_compute. reflexivity.
  - apply Z.le_refl.
  - unfold demo_base. lia.
  - unfold demo_base, PHYSTOP. lia.
  - unfold demo_base, PHYSTOP. lia.
  - void.
  - exact Hm.
  - replace (demo_base + 65536 - demo_base) with 65536 by lia. vm_compute. lia.
  - rewrite app_nil_r in Hk. eexists s', _. split; [exact Hk|]. split; [|done].
    rewrite length_rev. unfold range_pages. rewrite length_fmap, length_seqZ.
    by replace (demo_base + 65536 - demo_base) with 65536 by lia.
Qed.

(** An address space with one user page, twelve pages or so free. *)
Lemma vm_demo : exists s pgdir T free v,
  pt_ok (L := demo_layout) s pgdir T free /\ user_page (L := demo_layout) s T free 0 v /\
  (10 <= length free)%nat /\ unmapped (kmem_get s) T 4096.
Proof.
  destruct vm_free_list as (s & free & Hk & Hlen & Hh).
  destruct free as [|a [|b [|c [|mem free]]]]; simpl in Hlen; [lia..|].
  destruct (setupkvm_spec (L := demo_layout) s 0 a b c (mem :: free) Hk) as (d & s1 & _ & -> & Hpt & _).
  { rewrite Hh. void. }
  destruct (kalloc_frame s1 mem free (pt_kmem _ _ _ _ Hpt) (pt_lock _ _ _ _ Hpt))
    as (s2 & _ & Hk2 & Hm2 & Hf2 & Hmp & Hmm & Hmf & Hm0).
  assert (pt_ok (L := demo_layout) s2 c ∅ free) as Hpt2.
  { eapply pt_ok_frame; [exact Hpt|exact Hf2|done|intros x Hx; by right|void]. }
  destruct (v2p_p2v mem Hmp) as (Hinv & Hvb & Hal).
  destruct (map_page s2 c ∅ free 0 (v2p mem) 6 Hpt2) as (r & s3 & _ & T & free3 & Hs3 & Hl3 & Hres & Hoth);
    [done|lia|unfold USERTOP; lia|done|unfold PHYSTOP in *; lia|lia|by exists 0|].
  destruct Hres as [[-> Hpte]|[_ ->]]; [|simpl in Hlen; lia].
  exists s3, c, T, free3, (mk_pte (v2p mem) 6). split; [apply Hs3|].
  destruct (mk_pte_parts (v2p mem) 6 Hal ltac:(lia)) as (_ & Ea & _ & Hh3).
  split; [|split; [lia|]].
  - unfold user_page. rewrite Ea, Hinv. split; [done|]. split; [done|]. split; [done|].
    split; [eapply vframe_mapped; [apply Hs3|done]|]. intros Hin.
    destruct (ps_free _ _ _ _ _ _ _ Hs3) as [u E]. apply Hmf. rewrite E, elem_of_app. by right.
  - exists 0. split; [|done]. rewrite Hoth; [done|unfold user_va, USERTOP; lia|done].
Qed.

Lemma copyuvm_copies_witness :
  exists s pgdir d s', copyuvm (L := demo_layout) 0 pgdir 4096 s = Ret d s' /\ d <> 0.
Proof.
  destruct vm_demo as (s & pgdir & T & free & v & Hpt & Hup & Hlen & _).
  destruct (copyuvm_copies (L := demo_layout) s 0 pgdir T free 4096 (fun _ => v)) as (d & s' & Hrun & Hd & _).
  - exact Hpt.
  - lia.
  - vm_compute. discriminate.
  - change ((4096 + 4095) / 4096) with 1. intros p Hp. replace p with 0 by lia. exact Hup.
  - change ((4096 + 4095) / 4096) with 1. lia.
  - exists s, pgdir, d, s'. split; [exact Hrun|exact Hd].
Defined.

Lemma mappages_maps_witness :
  exists s pgdir r s', mappages pgdir 4096 4096 0 6 s = Ret r s'.
Proof.
  destruct vm_demo as (s & pgdir & T & free & v & Hpt & _ & _ & Hun).
  destruct (mappages_maps (L := demo_layout) s pgdir T free 4096 4096 0 6) as (r & s' & Hrun & _).
  - exact Hpt.
  - lia.
  - lia.
  - unfold USERTOP. lia.
  - reflexivity.
  - lia.
  - lia.
  - intros p Hp. change (first_page 4096) with 1 in Hp. change (last_page 4096 4096) with 1 in Hp.
    replace (4096 * p) with 4096 by lia. exact Hun.
  - exists s, pgdir, r, s'. exact Hrun.
Defined.
