(* ===== verification/VmFree.v ===== *)
(** * Giving an address space back: [deallocuvm] and [freevm] (kernel/vm.c)

    [space s pgdir T U free]: the tables [T] of [pgdir] map the user pages [U] (by page number) and nothing
    else below the address that [freevm] frees up to. *)

From S2P Require Import Prelude Types Monad Sched Mem Kalloc Bio Fs Vm VmSpec VmProps VmCopy.

(** The pages below 0x3fa00000. *)
Definition NUSER : Z := 260608.

Section space.
Context {L : Layout}.

Record space (s : kstate) (pgdir : Z) (T U : gmap Z Z) (free : list Z) : Prop := {
  us_pt : pt_ok s pgdir T free;
  us_page : forall p d, U !! p = Some d -> 0 <= p < NUSER /\ page_ok d /\ v2p d <> 0 /\
    mapped_range (kmem_get s) d PGBYTES /\ d ∉ free /\ d ∉ pt_pages pgdir T;
  us_inj : forall p q d, U !! p = Some d -> U !! q = Some d -> p = q;
  us_pte : forall p, 0 <= p < NUSER ->
    match U !! p with
    | Some d => exists f, 0 <= f < 4096 /\ has f PTE_P = true /\
        pte_of (kmem_get s) T (4096 * p) = Some (Z.lor (v2p d) f)
    | None => exists v, pte_of (kmem_get s) T (4096 * p) = Some v /\ has v PTE_P = false
    end
}.

(** It is a matter of the memory and the allocator only. *)
Lemma kmem_ok_ext s s' free : k_kmem s' = k_kmem s -> kmem_ok s free -> kmem_ok s' free.
Proof. intros E [H1 H2 H3]. unfold kmem_get in *. split; unfold kmem_get; by rewrite ?E. Qed.

Lemma pt_ok_ext s s' pgdir T free :
  k_kmem s' = k_kmem s -> LKmem ∉ k_held s' -> pt_ok s pgdir T free -> pt_ok s' pgdir T free.
Proof.
  intros E Hl [_ Hk H1 H2 H3 H4]. split; [done|by eapply kmem_ok_ext|..]; unfold kmem_get in *; by rewrite ?E.
Qed.

Lemma space_ext s s' pgdir T U free :
  k_kmem s' = k_kmem s -> LKmem ∉ k_held s' -> space s pgdir T U free -> space s' pgdir T U free.
Proof.
  intros E Hl [H0 H1 H2 H3]. split; [by eapply pt_ok_ext|..]; unfold kmem_get in *; by rewrite ?E.
Qed.

(** [kfree] of a page that is not free. *)
Lemma kfree_frame s v free :
  kmem_ok s free -> LKmem ∉ k_held s -> page_ok v -> mapped_range (kmem_get s) v PGBYTES -> v ∉ free ->
  exists s', kfree v s = Ret tt s' /\ kmem_ok s' (v :: free) /\ vframe [v] s s'.
Proof.
  intros Hk Hl Hv Hm Hn. eexists. split; [by apply kfree_eq|]. split; [by apply kmem_ok_cons|].
  eexists. split; [done|]. split.
  - intros x Hx. apply freed_mem_other. apply (Hx v). left.
  - intros x Hx. apply (freed_mem_mapped (kmem_get s) v _ x 1); [done| |lia].
    intros y Hy. by replace y with x by lia.
Qed.

(** Freeing a page that is not one of the tables. *)
Lemma pt_ok_freed s s' pgdir T free v :
  pt_ok s pgdir T free -> vframe [v] s s' -> kmem_ok s' (v :: free) -> page_ok v -> v ∉ pt_pages pgdir T ->
  pt_ok s' pgdir T (v :: free).
Proof.
  intros [Hl Hk (Hd & Hdm & Hdf) Ht Hi Hp] Hf Hk' Hv Hn. rewrite elem_of_pt_pages in Hn. split.
  - by rewrite (vframe_held _ _ _ Hf).
  - done.
  - split_and!; [done|by eapply vframe_mapped|]. apply not_elem_of_cons. split; [|done]. intros ->. by apply Hn; left.
  - intros i t E. destruct (Ht i t E) as (? & ? & ? & ? & ?). split_and!; try done; try lia; [by eapply vframe_mapped|].
    apply not_elem_of_cons. split; [|done]. intros ->. by apply Hn; right; exists i.
  - done.
  - intros i Hr. rewrite (word_outside [v] (kmem_get s)); [by apply Hp|by apply vframe_same|done| |lia].
    intros w ->%list_elem_of_singleton. split; [done|]. intros ->. by apply Hn; left.
Qed.

Lemma pte_addr d f :
  page_ok d -> 0 <= f < 4096 ->
  has (Z.lor (v2p d) f) PTE_P = has f PTE_P /\ PTE_ADDR (Z.lor (v2p d) f) = v2p d /\ p2v (v2p d) = d.
Proof.
  intros Hd Hf. destruct (v2p_p2v d Hd) as (Hinv & _ & Hal). split_and!; [|by apply addr_flags|done].
  apply has_flags; [done..|unfold PTE_P; lia].
Qed.

Lemma page_user_va p : 0 <= p < NUSER -> user_va (4096 * p) /\ PDX (4096 * p) = p / 512.
Proof.
  unfold NUSER. intros Hp. assert (user_va (4096 * p)) as Hu by (unfold user_va, USERTOP; lia). split; [done|].
  destruct (user_PDX _ Hu) as [-> _]. rewrite (Z.mul_comm 4096). change 2097152 with (4096 * 512).
  by rewrite <- Z.div_div, Z.div_mul by lia.
Qed.

(** One page: [kfree], and the entry is cleared. *)
Lemma free_page s pgdir T U free p d t {A} (k : K A) Q :
  space s pgdir T U free -> U !! p = Some d -> T !! PDX (4096 * p) = Some t ->
  (forall s', space s' pgdir T (delete p U) (d :: free) -> vframe (d :: pt_pages pgdir T) s s' -> runs k s' Q) ->
  runs (kfree d ;; store64 (entry t (PTX (4096 * p))) 0 ;; k) s Q.
Proof.
  intros [Hpt Hpg Hinj Hpte] Hp Ht Hk. destruct (Hpg p d Hp) as (Hr & Hd & Hd0 & Hdm & Hdf & Hdt).
  destruct (page_user_va p Hr) as [Hva _].
  destruct (kfree_frame s d free (pt_kmem _ _ _ _ Hpt) (pt_lock _ _ _ _ Hpt) Hd Hdm Hdf) as (s1 & E1 & Hk1 & Hf1).
  eapply runs_eq; [exact E1|]. pose proof (pt_ok_freed s s1 pgdir T free d Hpt Hf1 Hk1 Hd Hdt) as Hpt1.
  destruct (store_pte s1 pgdir T (d :: free) (4096 * p) t 0 Hpt1 Hva Ht ltac:(lia)) as (s2 & E2 & Hs2 & Hz & Ho).
  eapply runs_eq; [exact E2|].
  assert (vframe (pt_pages pgdir T) s1 s2) as Hf2.
  { destruct (pt_tab _ _ _ _ Hpt1 _ _ Ht) as (_ & Htp & Htm & _).
    destruct (store64_frame s1 t (PTX (4096 * p)) 0 Htp Htm (PTX_bound _)) as (s2' & E2' & _ & Hf & _).
    rewrite E2 in E2'. injection E2' as <-. eapply vframe_sub; [|exact Hf].
    intros x ->%list_elem_of_singleton. apply elem_of_pt_pages. right. by eexists. }
  assert (vframe (d :: pt_pages pgdir T) s s2) as Hf.
  { eapply vframe_trans; (eapply vframe_sub; [|eassumption]); inlist. }
  apply Hk; [|done]. split; [apply Hs2| | |].
  - intros q e [Hne Hq]%lookup_delete_Some. destruct (Hpg q e Hq) as (? & ? & ? & ? & ? & ?).
    split_and!; try done; try lia; [by eapply vframe_mapped|]. apply not_elem_of_cons. split; [|done].
    intros ->. apply Hne. by apply (Hinj p q d).
  - intros q r e [_ Hq]%lookup_delete_Some [_ Hr']%lookup_delete_Some. by eapply Hinj.
  - intros q Hq. destruct (page_user_va q Hq) as [Hvq _]. destruct (decide (q = p)) as [->|Hne].
    + rewrite lookup_delete_eq. by exists 0.
    + rewrite lookup_delete_ne by done. rewrite Ho; [|done|rewrite !(Z.mul_comm 4096), !Z.div_mul by lia; done].
      rewrite (pte_of_frame [d] s s1 pgdir T free); [by apply Hpte|done|done|]. intros v ->%list_elem_of_singleton.
      split; [done|]. intros i u Hu ->. apply Hdt, elem_of_pt_pages. right. by exists i.
Qed.

(** The values of a map, as pages. *)
Definition pages_of (U : gmap Z Z) : list Z := (map_to_list U).*2.

Lemma pages_of_delete U p d : U !! p = Some d -> d :: pages_of (delete p U) ≡ₚ pages_of U.
Proof. intros H. unfold pages_of. by rewrite <- (map_to_list_delete U p d H). Qed.

(** Freeing a page that the address space does not have. *)
Lemma space_freed s s' pgdir T U free v :
  space s pgdir T U free -> vframe [v] s s' -> kmem_ok s' (v :: free) -> page_ok v ->
  v ∉ pt_pages pgdir T -> v ∉ pages_of U -> space s' pgdir T U (v :: free).
Proof.
  intros [Hpt Hpg Hinj Hpte] Hf Hk Hv Hn HU. split; [by eapply pt_ok_freed| |done|].
  - intros p d Hp. destruct (Hpg p d Hp) as (? & ? & ? & ? & ? & ?). split_and!; try done; try lia; [by eapply vframe_mapped|].
    apply not_elem_of_cons. split; [|done]. intros ->. apply HU. unfold pages_of. apply list_elem_of_fmap.
    exists (p, v). split; [done|]. by apply elem_of_map_to_list.
  - intros p Hp. rewrite (pte_of_frame [v] s s' pgdir T free); [by apply Hpte|done|done|].
    intros w ->%list_elem_of_singleton. split; [done|]. intros i u Hu ->. apply Hn, elem_of_pt_pages. right. by exists i.
Qed.

(** Within a table the directory index stays. *)
Lemma next_index p : (p + 1) mod 512 <> 0 -> (p + 1) / 512 = p / 512.
Proof.
  intros Hm. pose proof (Z.div_mod p 512 ltac:(lia)). pose proof (Z.mod_pos_bound p 512 ltac:(lia)).
  symmetry. apply (Z.div_unique_pos _ _ _ (p mod 512 + 1)); [|lia]. split; [lia|].
  destruct (decide (p mod 512 = 511)) as [E|]; [|lia]. destruct Hm. symmetry. apply (Z.mod_unique_pos _ _ (p / 512 + 1)); lia.
Qed.

(** Where there is no table there are no pages. *)
Lemma no_table s pgdir T U free p q d :
  space s pgdir T U free -> p mod 512 = 0 -> PDX (4096 * p) = p / 512 -> T !! PDX (4096 * p) = None ->
  U !! q = Some d -> p <= q -> p + 512 <= q.
Proof.
  intros Hs Hm Hx Et Hq Hpq. destruct (Z.le_gt_cases (p + 512) q) as [|Hlt]; [done|]. exfalso.
  destruct (us_page _ _ _ _ _ Hs q d Hq) as (Hqr & _). pose proof (us_pte _ _ _ _ _ Hs q Hqr) as Hq'. rewrite Hq in Hq'.
  destruct Hq' as (f & Hfl & Hpr & Hw). destruct (page_user_va q Hqr) as [_ Hqx]. unfold pte_of in Hw.
  replace (PDX (4096 * q)) with (PDX (4096 * p)) in Hw.
  - rewrite Et in Hw. injection Hw as Hw. symmetry in Hw. by apply Z.lor_eq_0_iff in Hw as [_ ->].
  - rewrite Hx, Hqx. pose proof (Z.div_mod p 512 ltac:(lia)). apply (Z.div_unique_pos _ _ _ (q - p)); lia.
Qed.

(** The loop at page [p]: the pages before it are gone, and a table that it is inside of exists. *)
Lemma deallocuvm_loop_spec fuel p s pgdir T U free :
  space s pgdir T U free -> 0 <= p -> (forall q d, U !! q = Some d -> p <= q) ->
  (p mod 512 <> 0 -> p < NUSER -> is_Some (T !! (p / 512))) -> 0 < Z.of_nat fuel -> NUSER - p < Z.of_nat fuel ->
  runs (deallocuvm_loop fuel pgdir (4096 * p) (4096 * NUSER)) s (fun _ s' => exists free',
    space s' pgdir T ∅ free' /\ free' ≡ₚ pages_of U ++ free /\ vframe (pt_pages pgdir T ++ pages_of U) s s').
Proof.
  revert p s U free. induction fuel as [|fuel IH]; intros p s U free Hs Hp0 HU Hin Hf0 Hfuel; [lia|].
  cbn [deallocuvm_loop]. destruct (Z.ltb_spec (4096 * p) (4096 * NUSER)) as [Hlt|Hge].
  2:{ apply runs_ret. assert (U = ∅) as ->.
      { apply map_empty. intros q. destruct (U !! q) as [d|] eqn:E; [|done]. pose proof (HU q d E).
        pose proof (us_page _ _ _ _ _ Hs q d E). lia. }
      exists free. split; [done|]. split; [by unfold pages_of; rewrite map_to_list_empty|apply vframe_refl]. }
  assert (p < NUSER) as Hp by lia. destruct (page_user_va p ltac:(lia)) as [Hva Hx].
  pose proof (us_pte _ _ _ _ _ Hs p ltac:(lia)) as Hpte. pose proof (us_pt _ _ _ _ _ Hs) as Hpt.
  destruct (T !! PDX (4096 * p)) as [t|] eqn:Et.
  - eapply runs_eq; [by eapply walk_hit|]. destruct (pt_tab _ _ _ _ Hpt _ _ Et) as (_ & Htp & _).
    pose proof (page_bounds t Htp). pose proof (PTX_bound (4096 * p)).
    rewrite (proj2 (Z.eqb_neq (entry t _) 0)) by (unfold entry; lia).
    unfold pte_of in Hpte. rewrite Et in Hpte. apply runs_assoc.
    assert (forall U' free' s', space s' pgdir T U' free' -> (forall q d, U' !! q = Some d -> p <= q /\ q <> p) ->
      free' ++ pages_of U' ≡ₚ free ++ pages_of U -> vframe (pt_pages pgdir T ++ pages_of U) s s' ->
      (forall x, x ∈ pages_of U' -> x ∈ pages_of U) ->
      runs (deallocuvm_loop fuel pgdir (u64 (4096 * p + PGSIZE)) (4096 * NUSER)) s' (fun _ s' => exists free',
        space s' pgdir T ∅ free' /\ free' ≡ₚ pages_of U ++ free /\ vframe (pt_pages pgdir T ++ pages_of U) s s')) as Hnext.
    { intros U' free' s' Hs' HU' Hperm Hf Hsub. rewrite u64_small by (unfold NUSER, PGSIZE in *; lia).
      replace (4096 * p + PGSIZE) with (4096 * (p + 1)) by (unfold PGSIZE; lia).
      eapply runs_mono; [apply (IH (p + 1) s' U' free'); [done|lia| | |lia|lia]|].
      - intros q d Hq. destruct (HU' q d Hq). lia.
      - intros Hm _. rewrite next_index, <- Hx, Et by done. by eexists.
      - intros _ s2 (free2 & Hs2 & Hp2 & Hf2). exists free2. split; [done|]. split.
        + rewrite Hp2, (Permutation_app_comm _ free'), Hperm. apply Permutation_app_comm.
        + eapply vframe_trans; [exact Hf|]. eapply vframe_sub; [|exact Hf2]. intros x. rewrite !elem_of_app. intros [?|Hx2]; [by left|right; by apply Hsub]. }
    destruct (U !! p) as [d|] eqn:Eu.
    + destruct Hpte as (f & Hfl & Hpr & Hw). destruct (us_page _ _ _ _ _ Hs p d Eu) as (_ & Hd & Hd0 & _).
      destruct (pte_addr d f Hd Hfl) as (Hh & Ha & Hv).
      eapply runs_eq; [by apply load64_eq|]. rewrite Hh, Hpr, Ha, Hv. rewrite (proj2 (Z.eqb_neq _ _) Hd0).
      do 2 apply runs_assoc. eapply free_page; [exact Hs|exact Eu|exact Et|]. intros s' Hs' Hf'.
      apply runs_bind, runs_ret. apply (Hnext _ _ _ Hs').
      * intros q e [? Hq]%lookup_delete_Some. split; [by eapply HU|done].
      * rewrite <- (pages_of_delete U p d Eu). solve_Permutation.
      * eapply vframe_sub; [|exact Hf']. intros x. rewrite elem_of_cons, elem_of_app, <- (pages_of_delete U p d Eu), elem_of_cons. tauto.
      * intros x Hx'. rewrite <- (pages_of_delete U p d Eu). by right.
    + destruct Hpte as (v & Hw & Hn). eapply runs_eq; [by apply load64_eq|]. rewrite Hn.
      apply runs_assoc. do 2 (apply runs_bind, runs_ret). apply (Hnext _ _ _ Hs); [|done|apply vframe_refl|done].
      intros q d Hq. split; [by eapply HU|]. intros ->. congruence.
  - eapply runs_eq; [by eapply walk_miss|]. apply runs_bind, runs_ret.
    assert (p mod 512 = 0) as Hm.
    { destruct (decide (p mod 512 = 0)) as [|Hm]; [done|]. destruct (Hin Hm Hp) as [t Ht]. rewrite <- Hx in Ht. congruence. }
    rewrite (u64_small (4096 * p + _)), u64_small by (unfold NUSER, NPTENTRIES, PGSIZE in *; lia).
    replace (4096 * p + (NPTENTRIES - 1) * PGSIZE + PGSIZE) with (4096 * (p + 512)) by (unfold NPTENTRIES, PGSIZE; lia).
    apply IH; [done|lia| | |lia|lia].
    + intros q d Hq. eapply (no_table s pgdir T U free p q d); eauto.
    + intros Hm'. destruct Hm'. replace (p + 512) with (p + 1 * 512) by lia. by rewrite Z.mod_add by lia.
Qed.

(** ** The tables themselves *)

(** The directory from index [a] on refers to the tables [T]; those before it may be gone. *)
Record dir_from (s : kstate) (pgdir a : Z) (T : gmap Z Z) (free : list Z) : Prop := {
  df_lock : LKmem ∉ k_held s;
  df_kmem : kmem_ok s free;
  df_dir : page_ok pgdir /\ mapped_range (kmem_get s) pgdir PGBYTES /\ pgdir ∉ free;
  df_tab : forall i t, T !! i = Some t -> a <= i < 510 /\ page_ok t /\
    mapped_range (kmem_get s) t PGBYTES /\ t ∉ free /\ t <> pgdir;
  df_inj : forall i j t, T !! i = Some t -> T !! j = Some t -> i = j;
  df_pde : forall i, a <= i < 510 ->
    match T !! i with
    | Some t => exists f, 0 <= f < 4096 /\ has f PTE_P = true /\
        word (kmem_get s) (entry pgdir i) = Some (Z.lor (v2p t) f)
    | None => exists pde, word (kmem_get s) (entry pgdir i) = Some pde /\ has pde PTE_P = false
    end
}.

Lemma dir_from_freed s s' pgdir a T free t :
  dir_from s pgdir a T free -> 0 <= a -> T !! a = Some t -> vframe [t] s s' -> kmem_ok s' (t :: free) ->
  dir_from s' pgdir (a + 1) (delete a T) (t :: free).
Proof.
  intros [Hl Hk (Hd & Hdm & Hdf) Ht Hi Hp] Ha Hta Hf Hk'. destruct (Ht a t Hta) as (_ & Htp & _ & _ & Htd). split.
  - by rewrite (vframe_held _ _ _ Hf).
  - done.
  - split_and!; [done|by eapply vframe_mapped|]. apply not_elem_of_cons. by split; [apply not_eq_sym|].
  - intros i u [Hne Hu]%lookup_delete_Some. destruct (Ht i u Hu) as (? & ? & ? & ? & ?).
    split_and!; try done; try lia; [by eapply vframe_mapped|]. apply not_elem_of_cons. split; [|done].
    intros ->. apply Hne. by apply (Hi a i t).
  - intros i j u [_ H1]%lookup_delete_Some [_ H2]%lookup_delete_Some. by eapply Hi.
  - intros i Hr. rewrite lookup_delete_ne by lia.
    rewrite (word_outside [t] (kmem_get s)); [apply Hp; lia|by apply vframe_same|done| |lia].
    by intros w ->%list_elem_of_singleton.
Qed.

Lemma free_tables n a s pgdir T free :
  dir_from s pgdir (Z.of_nat a) T free -> Z.of_nat a + Z.of_nat n = 510 ->
  runs (foreach (fun i =>
      v <- load64 (entry pgdir (Z.of_nat i)) ;;
      if has v PTE_P then kfree (p2v (PTE_ADDR v)) else ret tt) (seq a n)) s (fun _ s' => exists free',
    dir_from s' pgdir 510 ∅ free' /\ free' ≡ₚ pages_of T ++ free /\ vframe (pages_of T) s s').
Proof.
  revert a s T free. induction n as [|n IH]; intros a s T free Hd Hn; cbn [seq foreach].
  - apply runs_ret. assert (T = ∅) as ->.
    { apply map_empty. intros i. destruct (T !! i) as [t|] eqn:E; [|done]. pose proof (df_tab _ _ _ _ _ Hd i t E). lia. }
    exists free. replace 510 with (Z.of_nat a) by lia. split; [done|].
    split; [by unfold pages_of; rewrite map_to_list_empty|apply vframe_refl].
  - pose proof (df_pde _ _ _ _ _ Hd (Z.of_nat a) ltac:(lia)) as Hp. apply runs_assoc.
    destruct (T !! Z.of_nat a) as [t|] eqn:Et.
    + destruct Hp as (f & Hf & Hpr & Hw). destruct (df_tab _ _ _ _ _ Hd _ _ Et) as (_ & Htp & Htm & Htf & _).
      destruct (pte_addr t f Htp Hf) as (Hh & Ha & Hv). eapply runs_eq; [by apply load64_eq|]. rewrite Hh, Hpr, Ha, Hv.
      destruct (kfree_frame s t free (df_kmem _ _ _ _ _ Hd) (df_lock _ _ _ _ _ Hd) Htp Htm Htf) as (s1 & E1 & Hk1 & Hf1).
      eapply runs_eq; [exact E1|]. pose proof (pages_of_delete T _ t Et) as Hperm.
      eapply runs_mono; [apply (IH (S a) s1 (delete (Z.of_nat a) T) (t :: free)); [|lia]|].
      * replace (Z.of_nat (S a)) with (Z.of_nat a + 1) by lia. eapply dir_from_freed; [done|lia|done..].
      * intros _ s2 (free2 & Hd2 & Hp2 & Hf2). exists free2. split; [done|]. split.
        -- rewrite Hp2, <- Hperm. solve_Permutation.
        -- eapply vframe_trans; (eapply vframe_sub; [|eassumption]); intros x Hx; rewrite <- Hperm.
           ++ apply list_elem_of_singleton in Hx as ->. by left.
           ++ by right.
    + destruct Hp as (pde & Hw & Hpr). eapply runs_eq; [by apply load64_eq|]. rewrite Hpr. apply runs_bind, runs_ret.
      apply IH; [|lia]. destruct Hd as [Hl Hk Hdd Ht Hi Hpd]. split; try done.
      * intros i t Hit. destruct (Ht i t Hit) as (? & ?). split; [|done]. destruct (decide (i = Z.of_nat a)) as [->|]; [congruence|lia].
      * intros i Hr. apply Hpd. lia.
Qed.

(** [freevm] returns, and the free list has the directory, its tables and the user pages more; nothing else
    is written. *)
Lemma freevm_frees s pgdir T U free :
  space s pgdir T U free ->
  runs (freevm pgdir) s (fun _ s' => exists free',
    kmem_ok s' free' /\ free' ≡ₚ pt_pages pgdir T ++ pages_of U ++ free /\ vframe (pt_pages pgdir T ++ pages_of U) s s').
Proof.
  intros Hs. pose proof (pt_dir _ _ _ _ (us_pt _ _ _ _ _ Hs)) as (Hd & Hdm & Hdf). pose proof (page_bounds pgdir Hd).
  unfold freevm. rewrite (proj2 (Z.eqb_neq pgdir 0)) by lia. unfold deallocuvm. cbn [Z.leb Z.compare]. cbv zeta.
  change (PGROUNDUP 0) with (4096 * 0). change 1067450368 with (4096 * NUSER). apply runs_assoc.
  eapply runs_step; [apply (deallocuvm_loop_spec _ 0 s pgdir T U free Hs); [lia| |done|lia|]|].
  - intros q d Hq. apply (us_page _ _ _ _ _ Hs q d Hq).
  - change ((4096 * NUSER - 4096 * 0) / PGSIZE) with NUSER. rewrite Nat2Z.inj_succ, Z2Nat.id; unfold NUSER; lia.
  - intros _ s1 (free1 & Hs1 & Hp1 & Hf1). apply runs_bind, runs_ret.
    pose proof (us_pt _ _ _ _ _ Hs1) as [Hl1 Hk1 Hd1 Ht1 Hi1 Hpd1].
    eapply runs_step; [apply (free_tables _ 0 s1 pgdir T free1); [by split|done]|].
    intros _ s2 (free2 & [Hl2 Hk2 (_ & Hdm2 & Hdf2) _ _ _] & Hp2 & Hf2).
    destruct (kfree_frame s2 pgdir free2 Hk2 Hl2 Hd Hdm2 Hdf2) as (s3 & E3 & Hk3 & Hf3).
    eapply runs_eq_last; [exact E3|]. exists (pgdir :: free2). split; [done|]. split.
    + rewrite Hp2, Hp1. done.
    + eapply vframe_trans; [exact Hf1|]. eapply vframe_trans; (eapply vframe_sub; [|eassumption]);
        intros x; rewrite elem_of_app; unfold pt_pages; rewrite !elem_of_cons; [tauto|rewrite elem_of_nil; tauto].
Qed.

(** A directory without tables. *)
Lemma space_empty s pgdir free : pt_ok s pgdir ∅ free -> space s pgdir ∅ ∅ free.
Proof.
  intros Hpt. split; [done|by intros p d H; rewrite lookup_empty in H|by intros p q d H; rewrite lookup_empty in H|].
  intros p _. rewrite lookup_empty. exists 0. split; [|done]. unfold pte_of. by rewrite lookup_empty.
Qed.

(** What [setupkvm] takes and [freevm] does not give back: of the three pages of an address space only the directory
    returns to the free list; the pages of its fourth- and third-level tables, which the directory's last two
    entries refer to, are lost. *)
Lemma freevm_leaks s kpdpt a b c free :
  kmem_ok s (a :: b :: c :: free) -> LKmem ∉ k_held s ->
  runs (pgdir <- setupkvm kpdpt ;; freevm pgdir) s (fun _ s' => exists free',
    kmem_ok s' free' /\ free' ≡ₚ c :: free /\ a ∉ free' /\ b ∉ free').
Proof.
  intros Hk Hl. pose proof (km_nodup _ _ Hk) as Hnd. rewrite !NoDup_cons, !not_elem_of_cons in Hnd.
  eapply runs_step; [by apply setupkvm_spec|]. intros d s1 (-> & Hpt & _).
  eapply runs_mono; [by eapply freevm_frees, space_empty|]. intros _ s2 (free2 & Hk2 & Hp2 & _).
  assert (free2 ≡ₚ c :: free) as Hp by (rewrite Hp2; unfold pt_pages, pages_of; by rewrite map_to_list_empty).
  exists free2. split_and!; [done|done|rewrite Hp, not_elem_of_cons; tauto..].
Qed.
End space.

(** ** An address space of one page, and a page for a kernel stack *)

Lemma vm_space : exists s pgdir T d free stack,
  space (L := demo_layout) s pgdir T {[0 := d]} free /\ k_held s = [] /\
  page_ok (L := demo_layout) stack /\ mapped_range (kmem_get s) stack PGBYTES /\
  stack ∉ free /\ stack ∉ pt_pages pgdir T /\ stack <> d.
Proof.
  destruct vm_free_list as (s & free & Hk & Hlen & Hh).
  destruct free as [|a [|b [|c [|mem [|stack free]]]]]; simpl in Hlen; [lia..|].
  pose proof (km_nodup _ _ Hk) as Hnd. rewrite !NoDup_cons, !not_elem_of_cons in Hnd.
  destruct (setupkvm_spec (L := demo_layout) s 0 a b c (mem :: stack :: free) Hk) as (d & s1 & _ & -> & Hpt & Hf1).
  { rewrite Hh. void. }
  destruct (kalloc_frame s1 mem (stack :: free) (pt_kmem _ _ _ _ Hpt) (pt_lock _ _ _ _ Hpt))
    as (s2 & _ & Hk2 & Hm2 & Hf2 & Hmp & Hmm & Hmf & _).
  assert (LKmem ∉ k_held s2) as Hl2 by (rewrite (vframe_held _ _ _ Hf2); apply Hpt).
  destruct (kalloc_frame s2 stack free Hk2 Hl2) as (s3 & _ & Hk3 & Hm3 & Hf3 & Hsp & Hsm & Hsf & _).
  assert (pt_ok (L := demo_layout) s3 c ∅ free) as Hpt3.
  { eapply pt_ok_frame; [exact Hpt|eapply vframe_trans; [exact Hf2|exact Hf3]|done|intros x Hx; by do 2 right|void]. }
  destruct (v2p_p2v mem Hmp) as (Hinv & Hvb & Hal).
  destruct (map_page s3 c ∅ free 0 (v2p mem) 6 Hpt3) as (r & s4 & _ & T & free4 & Hs4 & _ & Hres & Hoth);
    [done|lia|unfold USERTOP; lia|done|unfold PHYSTOP in *; lia|lia|by exists 0|].
  destruct Hres as [[-> Hpte]|[_ ->]]; [|simpl in Hlen; lia].
  destruct Hs4 as [Hpt4 Hf4 Htab _ [u Hu]].
  assert (forall x, x ∉ c :: free -> x ∉ pt_pages c T /\ x ∉ free4) as Hout.
  { intros x. rewrite not_elem_of_cons. intros [Hxc Hxf]. rewrite elem_of_pt_pages. split.
    - intros [->|[i Hi]]; [done|]. destruct (Htab _ _ Hi) as [Hi'|?]; [by rewrite lookup_empty in Hi'|done].
    - intros Hin. apply Hxf. rewrite Hu, elem_of_app. by right. }
  destruct (Hout mem) as [Hmt Hmf4]; [rewrite not_elem_of_cons; naive_solver|].
  destruct (Hout stack) as [Hst Hsf4]; [rewrite not_elem_of_cons; naive_solver|].
  exists s4, c, T, mem, free4, stack. split_and!; try done; [|by rewrite (vframe_held _ _ _ Hf4), (vframe_held _ _ _ Hf3),
    (vframe_held _ _ _ Hf2), (vframe_held _ _ _ Hf1)|by eapply vframe_mapped|naive_solver].
  split; [done| | |].
  - intros p d [<- <-]%lookup_singleton_Some. pose proof (pg_low _ Hmp) as Hlow. destruct (page_bounds mem Hmp) as (_ & _ & Ev).
    split_and!; try done; [rewrite Ev; cbn [kend demo_layout] in Hlow; unfold demo_base in Hlow; lia|].
    eapply vframe_mapped; [exact Hf4|]. eapply vframe_mapped; [exact Hf3|done].
  - by intros p q d [<- <-]%lookup_singleton_Some [<- _]%lookup_singleton_Some.
  - intros p Hp. destruct (decide (p = 0)) as [->|Hne].
    + rewrite lookup_singleton_eq. exists 7. split; [lia|]. split; [done|].
      change (4096 * 0) with 0. rewrite Hpte. unfold mk_pte. by rewrite <- Z.lor_assoc.
    + rewrite lookup_singleton_ne by done. exists 0. split; [|done]. destruct (page_user_va p Hp) as [Hva _].
      rewrite Hoth; [done|done|]. rewrite (Z.mul_comm 4096), Z.div_mul by lia. done.
Qed.
