(* ===== verification/Pipe.v ===== *)
(** * Pipes (kernel/pipe.c)

    A pipe is the entry of [k_pipes] at its address. [nread] and [nwrite] count bytes modulo
    2^32 and index the buffer modulo [PIPESIZE]. A process that sleeps inside [pipewrite] goes
    on, when it runs again, with the byte it had reached: [pipewrite_loop] at that index.

    The theorem: a pipe is a bounded FIFO queue, across the wrap-around of the counters. *)

From S2P Require Import Prelude Types Monad Sched Mem Kalloc.

Definition PIPESIZE : Z := 512.

Section code.
Context {L : Layout}.

Definition get_pipe (p : Z) : K pipe :=
  fun s => match k_pipes s !! p with Some x => Ret x s | None => Fault s end.
Definition upd_pipe (p : Z) (f : pipe -> pipe) : K unit :=
  fun s => match k_pipes s !! p with
           | Some x => Ret tt (set_pipes (<[p := f x]> (k_pipes s)) s)
           | None => Fault s
           end.

(** [proc->killed]. *)
Definition cur_killed : K bool :=
  i <- cur_proc ;;
  p <- nth_or_fault k_procs i ;;
  ret (negb (p_killed p =? 0)).

Definition pipeclose (p : Z) (writable : bool) : K unit :=
  acquire (LPipe p) ;;
  (if writable then upd_pipe p (piset_writeopen 0) ;; wakeup (ChNread p)
   else upd_pipe p (piset_readopen 0) ;; wakeup (ChNwrite p)) ;;
  x <- get_pipe p ;;
  if (pi_readopen x =? 0) && (pi_writeopen x =? 0) then
    release (LPipe p) ;;
    kfree p ;;
    modify (fun s => set_pipes (delete p (k_pipes s)) s)
  else release (LPipe p).

(** [p->data[p->nwrite++ % PIPESIZE] = c]. *)
Definition pipe_put (c : Z) (x : pipe) : pipe :=
  piset_nwrite (u32 (pi_nwrite x + 1))
    (piset_data (<[Z.to_nat (pi_nwrite x mod PIPESIZE) := c]> (pi_data x)) x).
(** [p->data[p->nread % PIPESIZE]] and [p->nread++]. *)
Definition pipe_head (x : pipe) : Z := byte_at (pi_data x) (Z.to_nat (pi_nread x mod PIPESIZE)).
Definition pipe_advance (x : pipe) : pipe := piset_nread (u32 (pi_nread x + 1)) x.

Definition pipe_full (x : pipe) : bool := pi_nwrite x =? u32 (pi_nread x + PIPESIZE).
Definition pipe_empty (x : pipe) : bool := pi_nread x =? pi_nwrite x.

(** The inner loop of [pipewrite]: wait for room; [false] when the caller returns -1. Control
    leaves in [sleep], so one test after it is enough fuel for a run on one CPU. *)
Fixpoint pipewrite_wait (fuel : nat) (p : Z) : K bool :=
  match fuel with
  | O => nofuel
  | S fuel =>
      x <- get_pipe p ;;
      if pipe_full x then
        killed <- cur_killed ;;
        if (pi_readopen x =? 0) || killed then release (LPipe p) ;; ret false
        else wakeup (ChNread p) ;; sleep (ChNwrite p) (LPipe p) ;; pipewrite_wait fuel p
      else ret true
  end.

(** The outer loop on the bytes [addr] that are left; [n] is the number of all. *)
Fixpoint pipewrite_loop (p : Z) (addr : list Z) (n : Z) : K Z :=
  match addr with
  | [] => wakeup (ChNread p) ;; release (LPipe p) ;; ret n
  | c :: addr =>
      room <- pipewrite_wait 2 p ;;
      if room : bool then upd_pipe p (pipe_put c) ;; pipewrite_loop p addr n
      else ret (-1)
  end.

Definition pipewrite (p : Z) (addr : list Z) (n : Z) : K Z :=
  acquire (LPipe p) ;; pipewrite_loop p (take (Z.to_nat n) addr) n.

Fixpoint piperead_loop (p : Z) (n : nat) (acc : list Z) : K (list Z) :=
  match n with
  | O => ret acc
  | S n =>
      x <- get_pipe p ;;
      if pipe_empty x then ret acc else
      upd_pipe p pipe_advance ;;
      piperead_loop p n (acc ++ [pipe_head x])
  end.

(** Waiting for data; [false] when the caller returns -1. *)
Fixpoint piperead_wait (fuel : nat) (p : Z) : K bool :=
  match fuel with
  | O => nofuel
  | S fuel =>
      x <- get_pipe p ;;
      if pipe_empty x && negb (pi_writeopen x =? 0) then
        killed <- cur_killed ;;
        if killed : bool then release (LPipe p) ;; ret false
        else sleep (ChNread p) (LPipe p) ;; piperead_wait fuel p
      else ret true
  end.

Definition piperead (p : Z) (n : nat) : K (Z * list Z) :=
  acquire (LPipe p) ;;
  ok <- piperead_wait 2 p ;;
  if negb ok then ret (-1, []) else
  bytes <- piperead_loop p n [] ;;
  wakeup (ChNwrite p) ;;
  release (LPipe p) ;;
  ret (Z.of_nat (length bytes), bytes).
End code.

(** ** The queue a pipe holds *)

Record pipe_ok (x : pipe) (q : list Z) : Prop := {
  pq_len : length (pi_data x) = 512%nat;
  pq_nread : 0 <= pi_nread x < 4294967296;
  pq_nwrite : pi_nwrite x = u32 (pi_nread x + Z.of_nat (length q));
  pq_room : (length q <= 512)%nat;
  pq_data : forall k, (k < length q)%nat ->
    pi_data x !! Z.to_nat ((pi_nread x + Z.of_nat k) mod 512) = q !! k
}.

Lemma u32_mod_512 a : u32 a mod 512 = a mod 512.
Proof.
  unfold u32. apply Z.mod_mod_divide. by exists 8388608.
Qed.

Lemma pipe_full_spec x q : pipe_ok x q -> pipe_full x = bool_decide (length q = 512%nat).
Proof.
  intros [_ Hr Hw Hl _]. unfold pipe_full, PIPESIZE. rewrite Hw. unfold u32.
  destruct (Z.eqb_spec ((pi_nread x + Z.of_nat (length q)) mod 4294967296)
    ((pi_nread x + 512) mod 4294967296)) as [E|E]; symmetry.
  - apply bool_decide_eq_true_2.
    assert ((512 - Z.of_nat (length q)) mod 4294967296 = 0) as H0.
    { replace (512 - Z.of_nat (length q)) with (pi_nread x + 512 - (pi_nread x + Z.of_nat (length q))) by lia.
      by rewrite Zminus_mod, <- E, Z.sub_diag. }
    rewrite Z.mod_small in H0 by lia. lia.
  - apply bool_decide_eq_false_2. intros Hq. apply E. rewrite Hq. done.
Qed.

Lemma pipe_empty_spec x q : pipe_ok x q -> pipe_empty x = bool_decide (q = []).
Proof.
  intros [_ Hr Hw Hl _]. unfold pipe_empty. rewrite Hw. unfold u32.
  destruct q as [|c q].
  - simpl. rewrite Z.add_0_r, Z.mod_small by lia. by rewrite Z.eqb_refl.
  - rewrite bool_decide_eq_false_2 by done. apply Z.eqb_neq. intros E. simpl length in *.
    assert (Z.of_nat (S (length q)) mod 4294967296 = 0) as H0.
    { replace (Z.of_nat (S (length q))) with (pi_nread x + Z.of_nat (S (length q)) - pi_nread x) by lia.
      rewrite Zminus_mod, <- E, (Z.mod_small (pi_nread x)), Z.sub_diag by lia. done. }
    rewrite Z.mod_small in H0 by lia. lia.
Qed.

Lemma pipe_put_ok x q c : pipe_ok x q -> (length q < 512)%nat -> pipe_ok (pipe_put c x) (q ++ [c]).
Proof.
  intros [Hd Hr Hw Hl Hq] Hroom.
  assert (pi_nwrite x mod 512 = (pi_nread x + Z.of_nat (length q)) mod 512) as Hm by (by rewrite Hw, u32_mod_512).
  pose proof (Z.mod_pos_bound (pi_nread x + Z.of_nat (length q)) 512 ltac:(lia)) as Hb.
  split; unfold pipe_put, PIPESIZE; cbn [pi_data pi_nread pi_nwrite piset_nwrite piset_data].
  - by rewrite length_insert.
  - done.
  - rewrite length_app, Hw. unfold u32. rewrite Zplus_mod_idemp_l. f_equal. simpl. lia.
  - rewrite length_app. simpl. lia.
  - intros k Hk. rewrite length_app in Hk. simpl in Hk. rewrite Hm.
    pose proof (Z.mod_pos_bound (pi_nread x + Z.of_nat k) 512 ltac:(lia)).
    destruct (decide (k = length q)) as [->|Hne].
    + rewrite list_lookup_insert_eq by lia. by rewrite list_lookup_middle.
    + rewrite lookup_app_l by lia. rewrite list_lookup_insert_ne; [apply Hq; lia|].
      intros E. apply Hne. apply Z2Nat.inj in E; [|lia..].
      assert ((Z.of_nat (length q) - Z.of_nat k) mod 512 = 0) as H0.
      { replace (Z.of_nat (length q) - Z.of_nat k)
          with (pi_nread x + Z.of_nat (length q) - (pi_nread x + Z.of_nat k)) by lia.
        by rewrite Zminus_mod, E, Z.sub_diag. }
      rewrite Z.mod_small in H0 by lia. lia.
Qed.

Lemma pipe_take_ok x c q :
  pipe_ok x (c :: q) -> pipe_head x = c /\ pipe_ok (pipe_advance x) q.
Proof.
  intros [Hd Hr Hw Hl Hq]. simpl length in *. split.
  - unfold pipe_head, byte_at, PIPESIZE. specialize (Hq 0%nat ltac:(lia)).
    rewrite Z.add_0_r in Hq. by rewrite Hq.
  - split; unfold pipe_advance; cbn [pi_data pi_nread pi_nwrite piset_nread].
    + done.
    + apply u32_bound.
    + rewrite Hw. unfold u32. rewrite Zplus_mod_idemp_l. f_equal. lia.
    + lia.
    + intros k Hk. specialize (Hq (S k) ltac:(lia)). simpl lookup in Hq. rewrite <- Hq. do 2 f_equal.
      rewrite <- (Zplus_mod_idemp_l (u32 _)), u32_mod_512, Zplus_mod_idemp_l. f_equal. lia.
Qed.

(** ** What the operations do to the queue *)

Section ops.
Context (p : Z).

Definition put_all (x : pipe) (l : list Z) : pipe := foldl (fun x c => pipe_put c x) x l.

Lemma put_all_ok x q l :
  pipe_ok x q -> (length q + length l <= 512)%nat -> pipe_ok (put_all x l) (q ++ l).
Proof.
  revert x q. induction l as [|c l IH]; intros x q Hx Hl; [by rewrite app_nil_r|].
  simpl in Hl. cbn [put_all foldl]. replace (q ++ c :: l) with ((q ++ [c]) ++ l) by by rewrite <- app_assoc.
  apply IH; [apply pipe_put_ok; [done|lia]|]. rewrite length_app. simpl. lia.
Qed.

Lemma put_all_open x l :
  pi_readopen (put_all x l) = pi_readopen x /\ pi_writeopen (put_all x l) = pi_writeopen x /\
  pi_nread (put_all x l) = pi_nread x.
Proof. revert x. induction l as [|c l IH]; intros x; [done|]. apply (IH (pipe_put c x)). Qed.

Definition set_pipe (x : pipe) (s : kstate) : kstate := set_pipes (<[p := x]> (k_pipes s)) s.

Lemma get_pipe_eq s x : k_pipes s !! p = Some x -> get_pipe p s = Ret x s.
Proof. intros H. unfold get_pipe. by rewrite H. Qed.

Lemma upd_pipe_eq s x f : k_pipes s !! p = Some x -> upd_pipe p f s = Ret tt (set_pipe (f x) s).
Proof. intros H. unfold upd_pipe. by rewrite H. Qed.

(** Bytes for which there is room are stored without waiting. *)
Lemma pipewrite_loop_put s x q l rest n :
  k_pipes s !! p = Some x -> pipe_ok x q -> (length q + length l <= 512)%nat ->
  pipewrite_loop p (l ++ rest) n s = pipewrite_loop p rest n (set_pipe (put_all x l) s).
Proof.
  revert s x q. induction l as [|c l IH]; intros s x q Hp Hx Hl.
  - simpl. unfold set_pipe. rewrite insert_id by done. by destruct s.
  - simpl in Hl. cbn [app pipewrite_loop put_all foldl]. unfold bind at 1.
    assert (pipewrite_wait 2 p s = Ret true s) as ->.
    { cbn [pipewrite_wait]. unfold bind. rewrite (get_pipe_eq _ x Hp), (pipe_full_spec x q Hx).
      by rewrite bool_decide_eq_false_2 by lia. }
    unfold bind at 1. rewrite (upd_pipe_eq _ x _ Hp).
    rewrite (IH _ (pipe_put c x) (q ++ [c])).
    + unfold set_pipe. cbn [k_pipes set_pipes]. by rewrite insert_insert_eq.
    + simpl. by rewrite lookup_insert_eq.
    + apply pipe_put_ok; [done|lia].
    + rewrite length_app. simpl. lia.
Qed.

(** The pieces of the state the operations change. *)
Definition wake_procs (c : channel) (s : kstate) : kstate := set_procs (map (wake c) (k_procs s)) s.

Record pipe_pre (s : kstate) (j : nat) (pr : proc) (x : pipe) (q : list Z) : Prop := {
  pp_held : k_held s = [];
  pp_cur : k_cur s = Some j;
  pp_proc : k_procs s !! j = Some pr;
  pp_pipe : k_pipes s !! p = Some x;
  pp_ok : pipe_ok x q
}.

(** [pipewrite] on every branch: all bytes fit; or the buffer fills up and the writer gives up; or it
    fills up, the readers are woken and the writer sleeps. *)
Lemma pipewrite_cases s j pr x q b :
  pipe_pre s j pr x q ->
  let room := (512 - length q)%nat in
  let x' := put_all x (take room b) in
  pipe_ok x' (q ++ take room b) /\
  pipewrite p b (Z.of_nat (length b)) s =
    if decide (length b <= room)%nat then Ret (Z.of_nat (length b)) (wake_procs (ChNread p) (set_pipe x' s))
    else if (pi_readopen x =? 0) || negb (p_killed pr =? 0) then Ret (-1) (set_pipe x' s)
    else Sched (set_held [LPtable] (set_procs (<[j := asleep (ChNwrite p) (wake (ChNread p) pr)]>
      (map (wake (ChNread p)) (k_procs s))) (set_pipe x' s))).
Proof.
  intros [Hh Hc Hp Hx Hok] room x'. pose proof (pq_room _ _ Hok) as Hq.
  assert (length q + length (take room b) <= 512)%nat as Hfit by (rewrite length_take; unfold room; lia).
  split; [by apply put_all_ok|].
  unfold pipewrite, bind at 1. rewrite Nat2Z.id, firstn_all.
  rewrite acquire_free by (rewrite Hh; void). rewrite Hh.
  set (s1 := set_held [LPipe p] s). rewrite <- (take_drop room b) at 1.
  rewrite (pipewrite_loop_put s1 x q) by done. fold x'. set (s2 := set_pipe x' s1).
  assert (k_pipes s2 !! p = Some x') as Hx2 by (simpl; apply lookup_insert_eq).
  case_decide as Hb.
  - rewrite drop_ge by done. cbn [pipewrite_loop]. unfold bind.
    rewrite wakeup_eq by (simpl; rewrite list_elem_of_singleton; done).
    rewrite (release_top _ []) by (done || void). unfold ret, wake_procs. f_equal.
    unfold s2, s1, set_pipe. rewrite <- Hh. by destruct s.
  - destruct (drop room b) as [|c rest] eqn:Ed.
    { apply (f_equal length) in Ed. rewrite length_drop in Ed. simpl in Ed. lia. }
    cbn [pipewrite_loop pipewrite_wait]. unfold bind. rewrite (get_pipe_eq _ x' Hx2).
    rewrite (pipe_full_spec x' (q ++ take room b)) by by apply put_all_ok.
    rewrite bool_decide_eq_true_2.
    2:{ rewrite length_app, length_take. unfold room in *. lia. }
    unfold cur_killed, bind, cur_proc, nth_or_fault. simpl k_cur. rewrite Hc. simpl k_procs. rewrite Hp.
    unfold ret at 1.
    replace (pi_readopen x') with (pi_readopen x) by (symmetry; apply put_all_open).
    destruct ((pi_readopen x =? 0) || negb (p_killed pr =? 0)).
    + rewrite (release_top _ []) by (done || void). unfold ret. f_equal.
      unfold s2, s1, set_pipe. rewrite <- Hh. by destruct s.
    + rewrite wakeup_eq by (simpl; rewrite list_elem_of_singleton; done).
      rewrite (sleep_eq _ _ _ j (wake (ChNread p) pr)).
      * done.
      * done.
      * simpl. change (map ?f ?l) with (f <$> l). by rewrite list_lookup_fmap, Hp.
      * done.
      * done.
Qed.

Definition take_all (x : pipe) (n : nat) : pipe := Nat.iter n pipe_advance x.

Lemma take_all_ok x q n : pipe_ok x q -> (n <= length q)%nat -> pipe_ok (take_all x n) (drop n q).
Proof.
  intros Hx. revert q x Hx. induction n as [|n IH]; intros q x Hx Hn; [done|].
  destruct q as [|c q]; [simpl in Hn; lia|]. simpl in Hn. destruct (pipe_take_ok x c q Hx) as [_ Ha].
  unfold take_all. rewrite Nat.iter_succ_r. apply IH; [done|lia].
Qed.

Lemma take_all_writeopen x n :
  pi_writeopen (take_all x n) = pi_writeopen x /\ pi_readopen (take_all x n) = pi_readopen x.
Proof. induction n as [|n IH]; [done|]. exact IH. Qed.

Lemma piperead_loop_eq s x q n acc :
  k_pipes s !! p = Some x -> pipe_ok x q ->
  piperead_loop p n acc s = Ret (acc ++ take n q) (set_pipe (take_all x (Nat.min n (length q))) s).
Proof.
  revert s x q acc. induction n as [|n IH]; intros s x q acc Hp Hx; cbn [piperead_loop].
  - rewrite take_0, app_nil_r. simpl. unfold set_pipe. rewrite insert_id by done. by destruct s.
  - unfold bind at 1. rewrite (get_pipe_eq s x Hp), (pipe_empty_spec x q Hx).
    destruct q as [|c q].
    + rewrite bool_decide_eq_true_2 by done. simpl. rewrite app_nil_r. unfold set_pipe.
      rewrite insert_id by done. by destruct s.
    + rewrite bool_decide_eq_false_2 by done. destruct (pipe_take_ok x c q Hx) as [-> Ha].
      unfold bind. rewrite (upd_pipe_eq s x _ Hp). rewrite (IH _ (pipe_advance x) q).
      * simpl firstn. rewrite <- app_assoc. f_equal. unfold set_pipe. cbn [k_pipes set_pipes length].
        rewrite insert_insert_eq. rewrite <- Nat.succ_min_distr. unfold take_all. by rewrite Nat.iter_succ_r.
      * simpl. by rewrite lookup_insert_eq.
      * done.
Qed.

(** [piperead] on every branch: end of file or data; killed; sleep on the empty pipe. *)
Lemma piperead_cases s j pr x q n :
  pipe_pre s j pr x q ->
  let x' := take_all x (Nat.min n (length q)) in
  piperead p n s =
    if bool_decide (q = []) && negb (pi_writeopen x =? 0) then
      if negb (p_killed pr =? 0) then Ret (-1, []) s
      else Sched (set_held [LPtable] (set_procs (<[j := asleep (ChNread p) pr]> (k_procs s)) s))
    else Ret (Z.of_nat (length (take n q)), take n q) (wake_procs (ChNwrite p) (set_pipe x' s)).
Proof.
  intros [Hh Hc Hp Hx Hok] x'. unfold piperead, bind at 1. rewrite acquire_free by (rewrite Hh; void).
  rewrite Hh. set (s1 := set_held [LPipe p] s). unfold bind at 1. cbn [piperead_wait]. unfold bind at 1.
  rewrite (get_pipe_eq s1 x) by done. rewrite (pipe_empty_spec x q Hok).
  destruct (bool_decide (q = []) && negb (pi_writeopen x =? 0)).
  - unfold bind at 1, cur_killed, bind at 1, cur_proc. simpl k_cur. rewrite Hc. unfold bind at 1, nth_or_fault.
    simpl k_procs. rewrite Hp. unfold ret at 1. destruct (negb (p_killed pr =? 0)).
    + unfold bind. rewrite (release_top _ []) by (done || void). unfold ret. cbn [negb]. f_equal.
      unfold s1. rewrite <- Hh. by destruct s.
    + unfold bind. rewrite (sleep_eq _ _ _ j pr) by done. done.
  - unfold ret at 1. cbn [negb]. unfold bind. rewrite (piperead_loop_eq s1 x q) by done.
    rewrite wakeup_eq by (simpl; rewrite list_elem_of_singleton; done).
    rewrite (release_top _ []) by (done || void). unfold ret. f_equal. unfold wake_procs, s1, set_pipe.
    rewrite <- Hh. by destruct s.
Qed.
End ops.

(** ** A pipe is a queue *)

(** Operations on the pipe by process [j]: [pipewrite] of bytes, [piperead] of up to [n] bytes. A
    call ends by returning or by sleeping; the next one finds no lock held. *)
Inductive pipe_op := PWrite (b : list Z) | PRead (n : nat).

Definition as_proc (j : nat) (s : kstate) : kstate := set_cur (Some j) (set_held [] s).

(** The number of bytes a call of [pipewrite] stored. *)
Definition accepted (p : Z) (s s' : kstate) : nat :=
  match k_pipes s !! p, k_pipes s' !! p with
  | Some x, Some x' => Z.to_nat (u32 (pi_nwrite x' - pi_nwrite x))
  | _, _ => 0
  end.

(** Runs the operations; gives the bytes that went in, those that came out, and the last state. *)
Fixpoint pipe_exec (p : Z) (ops : list (nat * pipe_op)) (s : kstate)
    : option (list Z * list Z * kstate) :=
  match ops with
  | [] => Some ([], [], s)
  | (j, PWrite b) :: ops =>
      match pipewrite p b (Z.of_nat (length b)) (as_proc j s) with
      | Ret _ s1 | Sched s1 =>
          '(ins, outs, s2) ← pipe_exec p ops s1; Some (take (accepted p s s1) b ++ ins, outs, s2)
      | _ => None
      end
  | (j, PRead n) :: ops =>
      match piperead p n (as_proc j s) with
      | Ret (_, l) s1 => '(ins, outs, s2) ← pipe_exec p ops s1; Some (ins, l ++ outs, s2)
      | Sched s1 => pipe_exec p ops s1
      | _ => None
      end
  end.

Lemma accepted_put p s s' x q l :
  k_pipes s !! p = Some x -> pipe_ok x q -> (length q + length l <= 512)%nat ->
  k_pipes s' !! p = Some (put_all x l) -> accepted p s s' = length l.
Proof.
  intros Hx Hok Hl Hx'. unfold accepted. rewrite Hx, Hx'.
  rewrite (pq_nwrite _ _ Hok), (pq_nwrite _ _ (put_all_ok x q l Hok Hl)).
  rewrite (proj2 (proj2 (put_all_open x l))), length_app. unfold u32.
  rewrite <- Zminus_mod.
  replace (pi_nread x + Z.of_nat (length q + length l) - (pi_nread x + Z.of_nat (length q)))
    with (Z.of_nat (length l)) by lia.
  rewrite Z.mod_small by lia. lia.
Qed.

Lemma as_proc_pre p j s pr x q :
  k_procs s !! j = Some pr -> k_pipes s !! p = Some x -> pipe_ok x q ->
  pipe_pre p (as_proc j s) j pr x q.
Proof. done. Qed.

(** The effect of one operation. *)
Lemma write_step p j b s x q :
  (j < length (k_procs s))%nat -> k_pipes s !! p = Some x -> pipe_ok x q ->
  exists s1 x1, (pipewrite p b (Z.of_nat (length b)) (as_proc j s) = Sched s1 \/ exists r, pipewrite p b (Z.of_nat (length b)) (as_proc j s) = Ret r s1) /\
    k_pipes s1 !! p = Some x1 /\ pipe_ok x1 (q ++ take (accepted p s s1) b) /\
    length (k_procs s1) = length (k_procs s).
Proof.
  intros Hj Hx Hok. destruct (lookup_lt_is_Some_2 _ _ Hj) as [pr Hp].
  destruct (pipewrite_cases p (as_proc j s) j pr x q b) as [Hok' E]; [by apply as_proc_pre|].
  set (room := (512 - length q)%nat) in *. set (l := take room b) in *.
  pose proof (pq_room _ _ Hok).
  assert (length q + length l <= 512)%nat as Hfit by (unfold l; rewrite length_take; unfold room; lia).
  assert (forall s', k_pipes s' !! p = Some (put_all x l) -> take (accepted p s s') b = l) as Ht.
  { intros s' Hs'. rewrite (accepted_put p s s' x q l) by done. unfold l. rewrite length_take.
    destruct (decide (room <= length b)%nat); [by rewrite Nat.min_l|].
    rewrite Nat.min_r by lia. by rewrite !take_ge by lia. }
  rewrite E. case_decide; [|destruct (_ || _)].
  all: eexists _, (put_all x l); split; [(left; reflexivity) || (right; eexists; reflexivity)|].
  all: split; [apply lookup_insert_eq|]; rewrite Ht by apply lookup_insert_eq; split; [done|].
  - simpl. by rewrite length_map.
  - done.
  - simpl. by rewrite length_insert, length_map.
Qed.

Lemma read_step p j n s x q :
  (j < length (k_procs s))%nat -> k_pipes s !! p = Some x -> pipe_ok x q ->
  exists s1 x1 l, ((piperead p n (as_proc j s) = Sched s1 /\ l = []) \/
      exists r, piperead p n (as_proc j s) = Ret (r, l) s1) /\
    k_pipes s1 !! p = Some x1 /\ pipe_ok x1 (drop (length l) q) /\ l = take (length l) q /\
    length (k_procs s1) = length (k_procs s).
Proof.
  intros Hj Hx Hok. destruct (lookup_lt_is_Some_2 _ _ Hj) as [pr Hp].
  pose proof (piperead_cases p (as_proc j s) j pr x q n (as_proc_pre p j s pr x q Hp Hx Hok)) as E.
  cbv zeta in E. destruct (_ && _); [destruct (negb (p_killed pr =? 0))|].
  - exists (as_proc j s), x, []. rewrite E. split; [right; by eexists|done].
  - eexists _, x, []. rewrite E. split; [by left|]. split; [done|]. split; [done|]. split; [done|].
    simpl. by rewrite length_insert.
  - eexists _, (take_all x (Nat.min n (length q))), (take n q). rewrite E. split; [right; by eexists|].
    split; [apply lookup_insert_eq|]. rewrite length_take. split.
    + apply take_all_ok; [done|lia].
    + split; [|simpl; by rewrite length_map].
      destruct (decide (n <= length q)%nat); [by rewrite Nat.min_l|].
      rewrite Nat.min_r by lia. by rewrite !take_ge by lia.
Qed.

(** C26. A pipe is a FIFO queue: in every sequence of writes and reads, by any processes,
    each call returns or sleeps, and what was in the pipe followed by what went in is what came
    out followed by what is in the pipe now. The byte counters may wrap around. *)
Theorem pipe_fifo p ops s x q :
  k_pipes s !! p = Some x -> pipe_ok x q ->
  (forall j op, (j, op) ∈ ops -> (j < length (k_procs s))%nat) ->
  exists ins outs s' x' q', pipe_exec p ops s = Some (ins, outs, s') /\
    k_pipes s' !! p = Some x' /\ pipe_ok x' q' /\ q ++ ins = outs ++ q'.
Proof.
  revert s x q. induction ops as [|[j op] ops IH]; intros s x q Hx Hok Hj.
  { exists [], [], s, x, q. by rewrite app_nil_r. }
  assert (j < length (k_procs s))%nat as Hj0 by (apply (Hj j op); left).
  assert (forall j' op', (j', op') ∈ ops -> (j' < length (k_procs s))%nat) as Hj'
    by (intros j' op' Hin; apply (Hj j' op'); by right).
  destruct op as [b|n]; cbn [pipe_exec].
  - destruct (write_step p j b s x q Hj0 Hx Hok) as (s1 & x1 & Hrun & Hx1 & Hok1 & Hlen).
    rewrite <- Hlen in Hj'. destruct (IH s1 x1 _ Hx1 Hok1 Hj') as (ins & outs & s2 & x2 & q2 & E & Hx2 & Hok2 & Hq).
    exists (take (accepted p s s1) b ++ ins), outs, s2, x2, q2.
    rewrite app_assoc. split; [|done]. destruct Hrun as [->|[r ->]]; rewrite E; done.
  - destruct (read_step p j n s x q Hj0 Hx Hok) as (s1 & x1 & l & Hrun & Hx1 & Hok1 & Hl & Hlen).
    rewrite <- Hlen in Hj'. destruct (IH s1 x1 _ Hx1 Hok1 Hj') as (ins & outs & s2 & x2 & q2 & E & Hx2 & Hok2 & Hq).
    exists ins, (l ++ outs), s2, x2, q2. split.
    + destruct Hrun as [[-> ->]|[r ->]]; rewrite E; done.
    + split; [done|]. split; [done|]. rewrite <- (take_drop (length l) q), <- Hl, <- !app_assoc. by rewrite Hq.
Qed.

(** ** No lost wakeup *)

Definition sleeps (c : channel) (pr : proc) : Prop := p_state pr = SLEEPING /\ p_chan pr = Some c.

(** A reader sleeps only on an empty pipe that has a writer, a writer only on a full one that has a
    reader. *)
Record waits_ok (p : Z) (procs : list proc) (x : pipe) (q : list Z) : Prop := {
  wo_read : forall pr, pr ∈ procs -> sleeps (ChNread p) pr -> q = [] /\ pi_writeopen x <> 0;
  wo_write : forall pr, pr ∈ procs -> sleeps (ChNwrite p) pr -> length q = 512%nat /\ pi_readopen x <> 0;
  wo_killed : forall pr, pr ∈ procs -> p_killed pr = 0
}.

Lemma wake_not_sleeps c pr : ~ sleeps c (wake c pr).
Proof.
  unfold sleeps, wake. intros [Hs Hc].
  destruct (bool_decide_reflect (p_state pr = SLEEPING)) as [E|E]; simpl in *; [|done].
  destruct (bool_decide_reflect (p_chan pr = Some c)) as [E'|E']; simpl in *; done.
Qed.

Lemma wake_sleeps c c' pr : sleeps c' (wake c pr) -> sleeps c' pr.
Proof. unfold sleeps, wake. destruct (_ && _); [|done]. by intros []. Qed.

Lemma wake_killed c pr : p_killed (wake c pr) = p_killed pr.
Proof. unfold wake. by destruct (_ && _). Qed.

Lemma elem_of_map_wake c pr procs : pr ∈ map (wake c) procs -> exists pr', pr' ∈ procs /\ pr = wake c pr'.
Proof. change (map (wake c) procs) with (wake c <$> procs). rewrite list_elem_of_fmap. naive_solver. Qed.

Lemma elem_of_insert {A} (l : list A) j x y : y ∈ <[j := x]> l -> y = x \/ y ∈ l.
Proof.
  intros [k Hk]%list_elem_of_lookup. apply list_lookup_insert_Some in Hk as [(_ & <- & _)|[_ Hk]]; [by left|].
  right. by eapply list_elem_of_lookup_2.
Qed.

Lemma waits_write p j b s x q :
  (j < length (k_procs s))%nat -> k_pipes s !! p = Some x -> pipe_ok x q ->
  waits_ok p (k_procs s) x q -> pi_readopen x <> 0 ->
  exists s1 x1 q1, (pipewrite p b (Z.of_nat (length b)) (as_proc j s) = Sched s1 \/ exists r, pipewrite p b (Z.of_nat (length b)) (as_proc j s) = Ret r s1) /\
    k_pipes s1 !! p = Some x1 /\ pipe_ok x1 q1 /\ waits_ok p (k_procs s1) x1 q1 /\ pi_readopen x1 <> 0 /\
    length (k_procs s1) = length (k_procs s).
Proof.
  intros Hj Hx Hok [Hr Hw Hk] Ho. destruct (lookup_lt_is_Some_2 _ _ Hj) as [pr Hp].
  destruct (pipewrite_cases p (as_proc j s) j pr x q b (as_proc_pre p j s pr x q Hp Hx Hok)) as [Hok' E].
  set (room := (512 - length q)%nat) in *. set (l := take room b) in *. pose proof (pq_room _ _ Hok).
  assert (pi_readopen (put_all x l) <> 0) as Ho' by (by rewrite (proj1 (put_all_open x l))).
  rewrite E, (Hk pr) by by eapply list_elem_of_lookup_2. apply Z.eqb_neq in Ho as Ho0. rewrite Ho0. cbn [orb negb Z.eqb].
  case_decide as Hb.
  - eexists _, (put_all x l), (q ++ l). split; [right; by eexists|]. split; [apply lookup_insert_eq|].
    split; [done|]. split; [|split; [done|simpl; by rewrite length_map]]. split.
    + intros pr' (pr0 & _ & ->)%elem_of_map_wake Hs. by apply wake_not_sleeps in Hs.
    + intros pr' (pr0 & Hin & ->)%elem_of_map_wake Hs%wake_sleeps.
      destruct (Hw pr0 Hin Hs) as [Hq _]. split; [|done]. rewrite length_app. unfold l, room.
      rewrite length_take. lia.
    + intros pr' (pr0 & Hin & ->)%elem_of_map_wake. rewrite wake_killed. by apply Hk.
  - eexists _, (put_all x l), (q ++ l). split; [by left|]. split; [apply lookup_insert_eq|].
    split; [done|]. split; [|split; [done|simpl; by rewrite length_insert, length_map]]. simpl. split.
    + intros pr' [->|(pr0 & _ & ->)%elem_of_map_wake]%elem_of_insert Hs.
      * by destruct Hs as [_ [= ]].
      * by apply wake_not_sleeps in Hs.
    + intros pr' _ _. split; [|done]. rewrite length_app. unfold l. rewrite length_take. unfold room in *. lia.
    + intros pr' [->|(pr0 & Hin & ->)%elem_of_map_wake]%elem_of_insert.
      * simpl. rewrite wake_killed. apply Hk. by eapply list_elem_of_lookup_2.
      * rewrite wake_killed. by apply Hk.
Qed.

Lemma waits_read p j n s x q :
  (j < length (k_procs s))%nat -> k_pipes s !! p = Some x -> pipe_ok x q ->
  waits_ok p (k_procs s) x q -> pi_readopen x <> 0 ->
  exists s1 x1 q1, (piperead p n (as_proc j s) = Sched s1 \/ exists r, piperead p n (as_proc j s) = Ret r s1) /\
    k_pipes s1 !! p = Some x1 /\ pipe_ok x1 q1 /\ waits_ok p (k_procs s1) x1 q1 /\ pi_readopen x1 <> 0 /\
    length (k_procs s1) = length (k_procs s).
Proof.
  intros Hj Hx Hok [Hr Hw Hk] Ho. destruct (lookup_lt_is_Some_2 _ _ Hj) as [pr Hp].
  pose proof (piperead_cases p (as_proc j s) j pr x q n (as_proc_pre p j s pr x q Hp Hx Hok)) as E.
  cbv zeta in E. rewrite (Hk pr) in E by by eapply list_elem_of_lookup_2.
  destruct (bool_decide_reflect (q = [])) as [Eq|Eq]; cbn [andb] in E.
  1: destruct (Z.eqb_spec (pi_writeopen x) 0) as [Ew|Ew]; cbn [negb Z.eqb] in E.
  2:{ rewrite E. eexists _, x, q. split; [by left|]. split; [done|]. split; [done|].
      split; [|split; [done|simpl; by rewrite length_insert]]. simpl. split.
      - done.
      - intros pr' [->|Hin]%elem_of_insert Hs; [by destruct Hs as [_ [= ]]|by apply (Hw pr')].
      - intros pr' [->|Hin]%elem_of_insert; [|by apply Hk]. exact (Hk pr (list_elem_of_lookup_2 _ _ _ Hp)). }
  all: rewrite E; eexists _, (take_all x (Nat.min n (length q))), (drop (Nat.min n (length q)) q);
    split; [right; by eexists|]; split; [apply lookup_insert_eq|];
    (split; [apply take_all_ok; [done|lia]|]); destruct (take_all_writeopen x (Nat.min n (length q))) as [E1 E2];
    rewrite E2; split; [|split; [done|simpl; by rewrite length_map]]; split.
  all: try (intros pr' (pr0 & Hin & ->)%elem_of_map_wake; rewrite wake_killed; by apply Hk).
  all: try (intros pr' (pr0 & _ & ->)%elem_of_map_wake Hs; by apply wake_not_sleeps in Hs).
  all: intros pr' (pr0 & Hin & ->)%elem_of_map_wake Hs%wake_sleeps; by destruct (Hr pr0 Hin Hs).
Qed.

(** C27. No wakeup is lost on a pipe whose read end is open, as long as no process is killed: after every
    sequence of writes and reads from a state where this holds, a process sleeps in [piperead] only if the pipe is empty,
    and in [pipewrite] only if it is full; so they never wait for each other. *)
Theorem pipe_no_lost_wakeup p ops s x q :
  k_pipes s !! p = Some x -> pipe_ok x q -> waits_ok p (k_procs s) x q -> pi_readopen x <> 0 ->
  (forall j op, (j, op) ∈ ops -> (j < length (k_procs s))%nat) ->
  exists r s' x' q', pipe_exec p ops s = Some (r, s') /\ k_pipes s' !! p = Some x' /\ pipe_ok x' q' /\
    forall pr, pr ∈ k_procs s' ->
      (sleeps (ChNread p) pr -> q' = []) /\ (sleeps (ChNwrite p) pr -> length q' = 512%nat).
Proof.
  revert s x q. induction ops as [|[j op] ops IH]; intros s x q Hx Hok Hw Ho Hj.
  { exists ([], []), s, x, q. split_and!; try done. intros pr Hin. destruct Hw as [Hr Hwr _].
    split; intros Hs; [by destruct (Hr pr Hin Hs)|by destruct (Hwr pr Hin Hs)]. }
  assert (j < length (k_procs s))%nat as Hj0 by (apply (Hj j op); left).
  assert (forall j' op', (j', op') ∈ ops -> (j' < length (k_procs s))%nat) as Hj'
    by (intros j' op' Hin; apply (Hj j' op'); by right).
  destruct op as [b|n]; cbn [pipe_exec].
  - destruct (waits_write p j b s x q Hj0 Hx Hok Hw Ho) as (s1 & x1 & q1 & Hrun & Hx1 & Hok1 & Hw1 & Ho1 & Hlen).
    rewrite <- Hlen in Hj'. destruct (IH s1 x1 q1 Hx1 Hok1 Hw1 Ho1 Hj') as ([ins outs] & s2 & x2 & q2 & E & Hrest).
    eexists (_, _), s2, x2, q2. split; [|exact Hrest]. destruct Hrun as [->|[r ->]]; rewrite E; done.
  - destruct (waits_read p j n s x q Hj0 Hx Hok Hw Ho) as (s1 & x1 & q1 & Hrun & Hx1 & Hok1 & Hw1 & Ho1 & Hlen).
    rewrite <- Hlen in Hj'. destruct (IH s1 x1 q1 Hx1 Hok1 Hw1 Ho1 Hj') as ([ins outs] & s2 & x2 & q2 & E & Hrest).
    destruct Hrun as [->|[[r l] ->]].
    + exists (ins, outs), s2, x2, q2. split; [by rewrite E|exact Hrest].
    + exists (ins, l ++ outs), s2, x2, q2. split; [by rewrite E|exact Hrest].
Qed.

(** ** Witnesses: an empty pipe whose counters are about to wrap around *)

Definition demo_pipe : pipe := Pipe (replicate 512 0) 4294967295 4294967295 1 1.
Definition demo_pipes : kstate :=
  set_pipes {[4096 := demo_pipe]} (set_procs [zero_proc; zero_proc] (boot_state (Disk ∅ 0 []))).

Lemma demo_pipe_ok : pipe_ok demo_pipe [].
Proof. split; [done|simpl; lia|vm_compute; reflexivity|simpl; lia|]. intros k Hk. simpl in Hk. lia. Qed.

Definition demo_ops : list (nat * pipe_op) := [(0%nat, PWrite [1; 2; 3]); (1%nat, PRead 2)].

Lemma demo_ops_procs j op : (j, op) ∈ demo_ops -> (j < length (k_procs demo_pipes))%nat.
Proof.
  unfold demo_ops. rewrite !elem_of_cons, elem_of_nil. intros [[= -> _]|[[= -> _]|[]]]; simpl; lia.
Qed.

Lemma pipe_fifo_witness : exists ins outs s', pipe_exec 4096 demo_ops demo_pipes = Some (ins, outs, s').
Proof.
  destruct (pipe_fifo 4096 demo_ops demo_pipes demo_pipe []) as (ins & outs & s' & x' & q' & E & _).
  - reflexivity.
  - apply demo_pipe_ok.
  - apply demo_ops_procs.
  - exists ins, outs, s'. exact E.
Defined.

Lemma pipe_no_lost_wakeup_witness : exists r s', pipe_exec 4096 demo_ops demo_pipes = Some (r, s').
Proof.
  destruct (pipe_no_lost_wakeup 4096 demo_ops demo_pipes demo_pipe []) as (r & s' & x' & q' & E & _).
  - reflexivity.
  - apply demo_pipe_ok.
  - split; intros pr; simpl; rewrite !elem_of_cons, elem_of_nil; intros [->|[->|[]]]; try done;
      by intros [? ?].
  - discriminate.
  - apply demo_ops_procs.
  - exists r, s'. exact E.
Defined.

(** The hypothesis on killed processes is needed: a killed writer that has filled the buffer returns
    -1 without waking the reader that sleeps on the pipe it has filled. *)
Definition killed_writer : kstate :=
  set_procs [pset_killed 1 zero_proc; asleep (ChNread 4096) zero_proc] (as_proc 0 demo_pipes).

Example killed_writer_wakes_nobody :
  match pipewrite 4096 (replicate 513 7) 513 killed_writer with
  | Ret r s' => r = -1 /\ (p_state <$> k_procs s' !! 1%nat) = Some SLEEPING /\
      ((fun x => u32 (pi_nwrite x - pi_nread x)) <$> k_pipes s' !! 4096) = Some 512
  | _ => False
  end.
Proof. vm_compute. auto. Qed.
