(* ===== verification/File.v ===== *)
(** * Open files (kernel/file.c) and [pipealloc] (kernel/pipe.c)

    A [struct file] pointer is an index of [k_files]. What a call stores at its [addr] is part of
    its result; what it reads from there is an argument. *)

From S2P Require Import Prelude Types Monad Sched Bio KString Log Fs Mem Kalloc Pipe.

Section code.
Context {drv : DiskDriver} (dv : devsw) {L : Layout}.

Definition getf (f : nat) : K file := nth_or_fault k_files f.
Definition updf (f : nat) (g : file -> file) : K unit :=
  fun s => match k_files s !! f with
           | Some _ => Ret tt (set_files (alter g f (k_files s)) s)
           | None => Fault s
           end.

Definition fileinit : K unit := initlock LFtable.

(** The entry [filealloc]'s loop stops at. *)
Definition free_file (fs : list file) : option nat := findi (fun f => f_ref f =? 0) fs.

Definition filealloc : K (option nat) :=
  acquire LFtable ;;
  fs <- gets k_files ;;
  match free_file fs with
  | Some f => updf f (fset_ref 1) ;; release LFtable ;; ret (Some f)
  | None => release LFtable ;; ret None
  end.

Definition filedup (f : nat) : K nat :=
  acquire LFtable ;;
  x <- getf f ;;
  if f_ref x <? 1 then panic "filedup" else
  updf f (fun x => fset_ref (f_ref x + 1) x) ;;
  release LFtable ;;
  ret f.

(** [ff.ip] of an inode file. *)
Definition file_ip (x : file) : K nat :=
  match f_ip x with Some ip => ret ip | None => fault end.

(** What [fileclose] does with the copy [ff] of the entry whose last reference is gone. *)
Definition close_last (ff : file) : K unit :=
  match f_type ff with
  | FD_PIPE => pipeclose (f_pipe ff) (f_writable ff)
  | FD_INODE => begin_trans ;; ip <- file_ip ff ;; iput ip ;; commit_trans
  | FD_NONE => ret tt
  end.

Definition fileclose (f : nat) : K unit :=
  acquire LFtable ;;
  x <- getf f ;;
  if f_ref x <? 1 then panic "fileclose" else
  updf f (fset_ref (f_ref x - 1)) ;;
  if 0 <? f_ref x - 1 then release LFtable else
  ff <- getf f ;;
  updf f (fset_ref 0) ;;
  updf f (fset_type FD_NONE) ;;
  release LFtable ;;
  close_last ff.

(** The result and, when it is 0, what it stores at [st]. *)
Definition filestat (f : nat) : K (Z * option (Z * Z * Z * Z * Z)) :=
  x <- getf f ;;
  match f_type x with
  | FD_INODE =>
      ip <- file_ip x ;;
      ilock ip ;;
      st <- stati ip ;;
      iunlock ip ;;
      ret (0, Some st)
  | _ => ret (-1, None)
  end.

(** The result and the bytes stored at [addr]. *)
Definition fileread (f : nat) (n : Z) : K (Z * list Z) :=
  x <- getf f ;;
  if negb (f_readable x) then ret (-1, []) else
  match f_type x with
  | FD_PIPE => piperead (f_pipe x) (Z.to_nat n)
  | FD_INODE =>
      ip <- file_ip x ;;
      ilock ip ;;
      let* (r, bytes) := readi dv ip (f_off x) (u32 n) in
      (if 0 <? r then updf f (fun x => fset_off (u32 (f_off x + r)) x) else ret tt) ;;
      iunlock ip ;;
      ret (r, bytes)
  | FD_NONE => panic "fileread"
  end.

(** The most [filewrite] writes in one transaction. *)
Definition write_max : Z := (LOGSIZE - 1 - 1 - 2) / 2 * 512.

(** One transaction of [filewrite]: [n1] bytes from [addr]. *)
Definition write_chunk (f ip : nat) (addr : list Z) (n1 : Z) : K Z :=
  begin_trans ;;
  ilock ip ;;
  x <- getf f ;;
  r <- writei dv ip addr (f_off x) n1 ;;
  (if 0 <? r then updf f (fun x => fset_off (u32 (f_off x + r)) x) else ret tt) ;;
  iunlock ip ;;
  commit_trans ;;
  ret r.

Fixpoint filewrite_loop (fuel : nat) (f ip : nat) (addr : list Z) (i n : Z) : K Z :=
  match fuel with
  | O => nofuel
  | S fuel =>
      if i <? n then
        let n1 := if write_max <? n - i then write_max else n - i in
        r <- write_chunk f ip (drop (Z.to_nat i) addr) n1 ;;
        if r <? 0 then ret i else
        if negb (r =? n1) then panic "short filewrite" else
        filewrite_loop fuel f ip addr (i + r) n
      else ret i
  end.

(** One iteration per [write_max] bytes, and the last test. *)
Definition write_fuel (n : Z) : nat := S (S (Z.to_nat (n / write_max))).

Definition filewrite (f : nat) (addr : list Z) (n : Z) : K Z :=
  x <- getf f ;;
  if negb (f_writable x) then ret (-1) else
  match f_type x with
  | FD_PIPE => pipewrite (f_pipe x) addr n
  | FD_INODE =>
      ip <- file_ip x ;;
      i <- filewrite_loop (write_fuel n) f ip addr 0 n ;;
      ret (if i =? n then n else -1)
  | FD_NONE => panic "filewrite"
  end.

(** ** pipealloc *)

(** Offset of [data] in [struct pipe], after the spinlock. *)
Definition PIPE_DATA : Z := 104.

Definition close_some (f : option nat) : K unit :=
  match f with Some f => fileclose f | None => ret tt end.

(** The label [bad]. *)
Definition pipealloc_bad (p : Z) (f0 f1 : option nat) : K (option (nat * nat)) :=
  (if negb (p =? 0) then kfree p else ret tt) ;;
  close_some f0 ;;
  close_some f1 ;;
  ret None.

Definition pipe_end (f : nat) (writable : bool) (p : Z) : K unit :=
  updf f (fset_type FD_PIPE) ;;
  updf f (fset_readable (negb writable)) ;;
  updf f (fset_writable writable) ;;
  updf f (fset_pipe p).

(** The two files, or [None] for -1. A new pipe's buffer holds what its page held. *)
Definition pipealloc : K (option (nat * nat)) :=
  o0 <- filealloc ;;
  match o0 with
  | None => pipealloc_bad 0 None None
  | Some f0 =>
      o1 <- filealloc ;;
      match o1 with
      | None => pipealloc_bad 0 (Some f0) None
      | Some f1 =>
          p <- kalloc ;;
          if p =? 0 then pipealloc_bad 0 (Some f0) (Some f1) else
          data <- load_bytes (p + PIPE_DATA) 512 ;;
          modify (fun s => set_pipes (<[p := Pipe data 0 0 1 1]> (k_pipes s)) s) ;;
          initlock (LPipe p) ;;
          pipe_end f0 false p ;;
          pipe_end f1 true p ;;
          ret (Some (f0, f1))
      end
  end.
End code.
