(* ===== verification/Proc.v ===== *)
(** * Processes (kernel/proc.c)

    A [struct proc] pointer is an index of [k_procs]. [sleep], [wakeup], [sched] and [yield] are in
    Sched.v. A trap frame is 22 words of kernel memory at [p_tf]. *)

From S2P Require Import Prelude Types Monad Sched Bio KString Log Fs FsDir Mem Kalloc Vm Pipe File.

(** [struct trapframe] (include/x86.h, 64-bit): byte offsets of its fields, and its size. *)
Definition TF_EAX : Z := 0.
Definition TF_RCX : Z := 16.
Definition TF_RDX : Z := 24.
Definition TF_RSI : Z := 40.
Definition TF_RDI : Z := 48.
Definition TF_R8 : Z := 56.
Definition TF_R9 : Z := 64.
Definition TF_TRAPNO : Z := 120.
Definition TF_ERR : Z := 128.
Definition TF_EIP : Z := 136.
Definition TF_CS : Z := 144.
Definition TF_EFLAGS : Z := 152.
Definition TF_ESP : Z := 160.
Definition TF_DS : Z := 168.
Definition sizeof_trapframe : Z := 176.

(** [struct context] (include/proc.h, 64-bit). *)
Definition CTX_EIP : Z := 56.
Definition sizeof_context : Z := 64.

(** include/mmu.h. *)
Definition SEG_UCODE : Z := 4.
Definition SEG_UDATA : Z := 5.
Definition DPL_USER : Z := 3.
Definition FL_IF : Z := 512.

(** What the linker provides: two code addresses and the bytes of initcode; and two pages set up
    at boot: the kernel's page-directory-pointer table and the CPU's local page. *)
Class Image := {
  trapret : Z;
  forkret_pc : Z;
  initcode : list Z;
  kpdpt_page : Z;
  cpu_local : Z
}.

Section code.
Context {drv : DiskDriver} (dv : devsw) {L : Layout} {I : Image}.

Definition pinit : K unit := initlock LPtable.

Definition get_proc (i : nat) : K proc := nth_or_fault k_procs i.
(** [*proc]. *)
Definition myproc : K proc := i <- cur_proc ;; get_proc i.
Definition upd_myproc (f : proc -> proc) : K unit := i <- cur_proc ;; upd_proc i f.

Definition unused (p : proc) : bool := bool_decide (p_state p = UNUSED).

(** The part of [allocproc] after the kernel stack [k] is allocated. *)
Definition setup_kstack (i : nat) (k : Z) : K unit :=
  let sp := u64 (k + KSTACKSIZE - sizeof_trapframe) in
  upd_proc i (pset_tf sp) ;;
  let sp := u64 (sp - 8) in
  store64 sp trapret ;;
  let sp := u64 (sp - sizeof_context) in
  upd_proc i (pset_context sp) ;;
  fill_bytes sp 0 (Z.to_nat sizeof_context) ;;
  store64 (sp + CTX_EIP) forkret_pc.

Definition allocproc : K (option nat) :=
  acquire LPtable ;;
  ps <- gets k_procs ;;
  match findi unused ps with
  | None => release LPtable ;; ret None
  | Some i =>
      upd_proc i (pset_state EMBRYO) ;;
      pid <- gets k_nextpid ;;
      upd_proc i (pset_pid pid) ;;
      modify (set_nextpid (s32 (pid + 1))) ;;
      upd_proc i (pset_ticks 0) ;;
      release LPtable ;;
      k <- kalloc ;;
      upd_proc i (pset_kstack k) ;;
      if k =? 0 then upd_proc i (pset_state UNUSED) ;; ret None else
      setup_kstack i k ;;
      ret (Some i)
  end.

Definition NAME_initcode : list Z := [105; 110; 105; 116; 99; 111; 100; 101; 0].

(** [safestrcpy(p->name, t, sizeof(p->name))]. *)
Definition set_name (i : nat) (t : list Z) : K unit :=
  p <- get_proc i ;;
  n <- lift (safestrcpy (p_name p) t 16) ;;
  upd_proc i (pset_name n).

Definition userinit : K unit :=
  o <- allocproc ;;
  modify (set_initproc o) ;;
  match o with
  | None => fault
  | Some i =>
      d <- setupkvm kpdpt_page ;;
      upd_proc i (pset_pgdir d) ;;
      if d =? 0 then panic "userinit: out of memory?" else
      inituvm d initcode (u32 (Z.of_nat (length initcode))) ;;
      upd_proc i (pset_sz PGSIZE) ;;
      p <- get_proc i ;;
      let tf := p_tf p in
      fill_bytes tf 0 (Z.to_nat sizeof_trapframe) ;;
      store64 (tf + TF_CS) (Z.lor (Z.shiftl SEG_UCODE 3) DPL_USER) ;;
      store64 (tf + TF_DS) (Z.lor (Z.shiftl SEG_UDATA 3) DPL_USER) ;;
      store64 (tf + TF_EFLAGS) FL_IF ;;
      store64 (tf + TF_ESP) PGSIZE ;;
      store64 (tf + TF_EIP) 0 ;;
      set_name i NAME_initcode ;;
      c <- namei dv [47] ;;
      upd_proc i (pset_cwd c) ;;
      upd_proc i (pset_state RUNNABLE)
  end.

(** [switchuvm(proc)]: the value loaded into CR3. *)
Definition switchuvm_proc : K Z :=
  p <- myproc ;; switchuvm cpu_local (p_kstack p) (p_pgdir p).

Definition growproc (n : Z) : K Z :=
  p <- myproc ;;
  let sz := u32 (p_sz p) in
  let commit (sz : Z) : K Z := upd_myproc (pset_sz sz) ;; switchuvm_proc ;; ret 0 in
  if 0 <? n then
    r <- allocuvm (p_pgdir p) sz (u32 (sz + n)) ;;
    if u32 r =? 0 then ret (-1) else commit (u32 r)
  else if n <? 0 then
    r <- deallocuvm (p_pgdir p) sz (u32 (sz + n)) ;;
    if u32 r =? 0 then ret (-1) else commit (u32 r)
  else commit sz.

(** The loop of [fork] over the open files. *)
Definition dup_ofile (np : nat) (fd : nat) : K unit :=
  p <- myproc ;;
  match p_ofile p !! fd with
  | Some (Some f) =>
      f <- filedup f ;;
      upd_proc np (fun q => pset_ofile (<[fd := Some f]> (p_ofile q)) q)
  | Some None => ret tt
  | None => fault
  end.

Definition fork : K Z :=
  o <- allocproc ;;
  match o with
  | None => ret (-1)
  | Some np =>
      p <- myproc ;;
      d <- copyuvm kpdpt_page (p_pgdir p) (u32 (p_sz p)) ;;
      upd_proc np (pset_pgdir d) ;;
      if d =? 0 then
        q <- get_proc np ;;
        kfree (p_kstack q) ;;
        upd_proc np (pset_kstack 0) ;;
        upd_proc np (pset_state UNUSED) ;;
        ret (-1)
      else
      upd_proc np (pset_sz (p_sz p)) ;;
      me <- cur_proc ;;
      upd_proc np (pset_parent (Some me)) ;;
      q <- get_proc np ;;
      move_bytes (p_tf q) (p_tf p) (Z.to_nat sizeof_trapframe) ;;
      store64 (p_tf q + TF_EAX) 0 ;;
      foreach (dup_ofile np) (seq 0 NOFILE) ;;
      c <- (match p_cwd p with Some ip => idup ip | None => fault end) ;;
      upd_proc np (pset_cwd (Some c)) ;;
      q <- get_proc np ;;
      upd_proc np (pset_state RUNNABLE) ;;
      set_name np (p_name p) ;;
      ret (p_pid q)
  end.

(** ** exit and wait *)

Definition close_fd (fd : nat) : K unit :=
  p <- myproc ;;
  match p_ofile p !! fd with
  | Some (Some f) =>
      fileclose f ;;
      upd_myproc (fun p => pset_ofile (<[fd := None]> (p_ofile p)) p)
  | Some None => ret tt
  | None => fault
  end.

(** [wakeup1] of a process pointer, which may be null. *)
Definition wake_proc (o : option nat) (p : proc) : proc :=
  if bool_decide (p_state p = SLEEPING) && bool_decide (p_chan p = ChProc <$> o)
  then pset_state RUNNABLE p else p.

Definition wakeup1_proc (o : option nat) : K unit :=
  modify (fun s => set_procs (map (wake_proc o) (k_procs s)) s).

Definition adopt (me j : nat) : K unit :=
  p <- get_proc j ;;
  if bool_decide (p_parent p = Some me) then
    ip <- gets k_initproc ;;
    upd_proc j (pset_parent ip) ;;
    if bool_decide (p_state p = ZOMBIE) then wakeup1_proc ip else ret tt
  else ret tt.

(** [exit] from the acquisition of ptable.lock on. *)
Definition exit_sched : K unit :=
  acquire LPtable ;;
  me <- cur_proc ;;
  p <- get_proc me ;;
  wakeup1_proc (p_parent p) ;;
  foreach (adopt me) (seq 0 NPROC) ;;
  upd_proc me (pset_state ZOMBIE) ;;
  sched ;;
  panic "zombie exit".

Definition exit : K unit :=
  me <- cur_proc ;;
  ip <- gets k_initproc ;;
  if bool_decide (Some me = ip) then panic "init exiting" else
  foreach close_fd (seq 0 NOFILE) ;;
  p <- get_proc me ;;
  (match p_cwd p with Some c => iput c | None => fault end) ;;
  upd_proc me (pset_cwd None) ;;
  upd_proc me (pset_inuse 0) ;;
  exit_sched.

(** What [wait] does with the zombie it found; it returns with the table unlocked. *)
Definition reap (j : nat) : K Z :=
  p <- get_proc j ;;
  kfree (p_kstack p) ;;
  upd_proc j (pset_kstack 0) ;;
  freevm (p_pgdir p) ;;
  upd_proc j (pset_state UNUSED) ;;
  upd_proc j (pset_pid 0) ;;
  upd_proc j (pset_parent None) ;;
  upd_proc j (fun p => pset_name (<[0%nat := 0]> (p_name p)) p) ;;
  upd_proc j (pset_killed 0) ;;
  release LPtable ;;
  ret (p_pid p).

(** The scan: [Some pid] when a zombie was reaped, else whether there are children. *)
Fixpoint wait_scan (me : nat) (l : list nat) (havekids : bool) : K (option Z * bool) :=
  match l with
  | [] => ret (None, havekids)
  | j :: l =>
      p <- get_proc j ;;
      if negb (bool_decide (p_parent p = Some me)) then wait_scan me l havekids else
      if bool_decide (p_state p = ZOMBIE) then pid <- reap j ;; ret (Some pid, true)
      else wait_scan me l true
  end.

(** Control leaves in [sleep], so one test after it is enough fuel for a run on one CPU. *)
Fixpoint wait_loop (fuel : nat) : K Z :=
  match fuel with
  | O => nofuel
  | S fuel =>
      me <- cur_proc ;;
      let* (o, havekids) := wait_scan me (seq 0 NPROC) false in
      match o with
      | Some pid => ret pid
      | None =>
          p <- get_proc me ;;
          if negb havekids || negb (p_killed p =? 0) then release LPtable ;; ret (-1) else
          sleep (ChProc me) LPtable ;;
          wait_loop fuel
      end
  end.

Definition wait : K Z := acquire LPtable ;; wait_loop 2.

(** ** scheduler *)

Definition runnable (p : proc) : bool := bool_decide (p_state p = RUNNABLE).

(** The body of the loop up to [swtch(&cpu->scheduler, proc->context)]. *)
Definition dispatch (i : nat) : K unit :=
  modify (set_cur (Some i)) ;;
  switchuvm_proc ;;
  upd_proc i (pset_state RUNNING) ;;
  upd_proc i (pset_inuse 1).

(** One pass over the table. [run i] is what happens from the switch to process [i] to the switch
    back, by that process and by others meanwhile. The result lists the processes that ran. [switchkvm] after the switch
    back, and [sti] and [hlt] between passes, change no modelled state. *)
Fixpoint sched_scan (run : nat -> K unit) (l : list nat) : K (list nat) :=
  match l with
  | [] => ret []
  | i :: l =>
      p <- get_proc i ;;
      if negb (runnable p) then sched_scan run l else
      dispatch i ;;
      run i ;;
      modify (set_cur None) ;;
      ran <- sched_scan run l ;;
      ret (i :: ran)
  end.

Definition scheduler_pass (run : nat -> K unit) : K (list nat) :=
  acquire LPtable ;;
  ran <- sched_scan run (seq 0 NPROC) ;;
  release LPtable ;;
  ret ran.

(** [first] is the static variable: true on the first call. *)
Definition forkret (first : bool) : K unit :=
  release LPtable ;;
  if first then initlog else ret tt.

(** ** kill *)

Definition kill (pid : Z) : K Z :=
  acquire LPtable ;;
  ps <- gets k_procs ;;
  match findi (fun p => p_pid p =? pid) ps with
  | Some i =>
      upd_proc i (pset_killed 1) ;;
      p <- get_proc i ;;
      (if bool_decide (p_state p = SLEEPING) then upd_proc i (pset_state RUNNABLE) else ret tt) ;;
      release LPtable ;;
      ret 0
  | None => release LPtable ;; ret (-1)
  end.
End code.
