(* ===== verification/Syscall.v ===== *)
(** * System call arguments (kernel/syscall.c)

    Memory as kernel code sees it while a process runs: kernel addresses are direct, user
    addresses go through the process's page table. System call arguments are in the registers
    the trap frame saved; pointers and strings are checked against the process's size. *)

From S2P Require Import Prelude Types Monad Sched Bio KString Log Fs FsDir Mem Kalloc Vm Pipe File Proc.

(** ** Virtual memory accesses *)

(** The user addresses the process's page directory maps: all entries but the two it keeps for
    the back pointers of [setupkvm]. *)
Definition USERTOP : Z := (NPDENTRIES - 2) * 2097152.

(** What the hardware does with address [va] in kernel mode: a page that is not present faults. *)
Definition translate (pgdir va : Z) : K Z :=
  if KERNBASE <=? va then ret va else
  if (va <? 0) || (USERTOP <=? va) then fault else
  pde <- load64 (entry pgdir (PDX va)) ;;
  if negb (has pde PTE_P) then fault else
  pte <- load64 (entry (p2v (PTE_ADDR pde)) (PTX va)) ;;
  if negb (has pte PTE_P) then fault else
  ret (p2v (PTE_ADDR pte) + va mod PGSIZE).

Definition vload8 (va : Z) : K Z :=
  p <- myproc ;;
  a <- translate (p_pgdir p) va ;;
  l <- load_bytes a 1 ;;
  match l with [x] => ret x | _ => fault end.

Definition vstore8 (va x : Z) : K unit :=
  p <- myproc ;;
  a <- translate (p_pgdir p) va ;;
  store_bytes a [u8 x].

Fixpoint vload (va : Z) (n : nat) : K (list Z) :=
  match n with
  | O => ret []
  | S n => x <- vload8 va ;; l <- vload (va + 1) n ;; ret (x :: l)
  end.

Fixpoint vstore (va : Z) (l : list Z) : K unit :=
  match l with
  | [] => ret tt
  | x :: l => vstore8 va x ;; vstore (va + 1) l
  end.

Definition vload32 (va : Z) : K Z := l <- vload va 4 ;; ret (s32 (le_val l)).
Definition vload64 (va : Z) : K Z := l <- vload va 8 ;; ret (le_val l).
Definition vstore32 (va v : Z) : K unit := vstore va (le_bytes 4 v).

(** ** Checked accesses *)

(** [*ip], or [None] for -1. *)
Definition fetchint (addr : Z) : K (option Z) :=
  p <- myproc ;;
  if (p_sz p <=? addr) || (p_sz p <? u64 (addr + 4)) then ret None else
  v <- vload32 addr ;; ret (Some v).

Definition fetchuintp (addr : Z) : K (option Z) :=
  p <- myproc ;;
  if (p_sz p <=? addr) || (p_sz p <? u64 (addr + 8)) then ret None else
  v <- vload64 addr ;; ret (Some v).

(** The scan for the NUL in the [n] bytes before [proc->sz]: the bytes before it. *)
Fixpoint fetchstr_loop (s : Z) (n : nat) (acc : list Z) : K (option (list Z)) :=
  match n with
  | O => ret None
  | S n =>
      x <- vload8 s ;;
      if x =? 0 then ret (Some acc) else fetchstr_loop (s + 1) n (acc ++ [x])
  end.

(** The string at [*pp = addr], whose length is the result; [None] for -1. *)
Definition fetchstr (addr : Z) : K (option (list Z)) :=
  p <- myproc ;;
  if p_sz p <=? addr then ret None else
  fetchstr_loop addr (Z.to_nat (p_sz p - addr)) [].

(** The register of argument [n]. *)
Definition tf_arg (n : nat) : option Z :=
  [TF_RDI; TF_RSI; TF_RDX; TF_RCX; TF_R8; TF_R9] !! n.

Definition fetcharg (n : nat) : K Z :=
  p <- myproc ;;
  match tf_arg n with
  | Some off => load64 (p_tf p + off)
  | None => fault
  end.

(** [argint] and [arguintp] never fail in the 64-bit build. *)
Definition argint (n : nat) : K Z := v <- fetcharg n ;; ret (s32 v).
Definition arguintp (n : nat) : K Z := fetcharg n.

(** [size] is an [int]. *)
Definition argptr (n : nat) (size : Z) : K (option Z) :=
  i <- arguintp n ;;
  p <- myproc ;;
  if (p_sz p <=? i) || (p_sz p <? u64 (i + size)) then ret None else ret (Some i).

Definition argstr (n : nat) : K (option (list Z)) :=
  addr <- arguintp n ;; fetchstr addr.
