(* ===== verification/Calm.v ===== *)
(** * What kernel code leaves alone: open files and descriptors

    [calm s s']: between [s] and [s'] the running process, the reference counts and types of the open files and
    every process's descriptors stayed, and no process became unused or a zombie. Most of the kernel is calm;
    the calls that open, close and duplicate files are in FdProps.v. *)

From S2P Require Import Prelude Types Monad Sched Bio KString Log Fs FsDir Mem Kalloc Vm Pipe File Proc Syscall.

Definition dead (p : proc) : Prop := p_state p = UNUSED \/ p_state p = ZOMBIE.
Definition same_file (x x' : file) : Prop := f_ref x' = f_ref x /\ f_type x' = f_type x.
Definition same_fds (p p' : proc) : Prop := p_ofile p' = p_ofile p /\ (dead p' -> dead p).

#[export] Instance same_file_preorder : PreOrder same_file.
Proof. split; [by split|]. intros x y z [? ?] [? ?]. split; congruence. Qed.
#[export] Instance same_fds_preorder : PreOrder same_fds.
Proof. split; [by split|]. intros x y z [? ?] [? ?]. split; [congruence|tauto]. Qed.

Record calm (s s' : kstate) : Prop := {
  calm_cur : k_cur s' = k_cur s;
  calm_files : Forall2 same_file (k_files s) (k_files s');
  calm_procs : Forall2 same_fds (k_procs s) (k_procs s')
}.

#[export] Instance calm_preorder : PreOrder calm.
Proof.
  split.
  - intros s. split; [done|reflexivity..].
  - intros s1 s2 s3 [? ? ?] [? ? ?]. split; [congruence|etrans; eassumption..].
Qed.

(** [m] is calm when it returns and when it gives up the CPU. *)
Definition calmly {A} (m : K A) : Prop :=
  forall s, match m s with Ret _ s' | Sched s' => calm s s' | _ => True end.

Create HintDb calmly.

Section calmly.
Context {A B : Type}.

Lemma calmly_ret (a : A) : calmly (ret a).
Proof. intros s. cbn. reflexivity. Qed.
Lemma calmly_panic msg : calmly (A := A) (panic msg).
Proof. done. Qed.
Lemma calmly_fault : calmly (A := A) fault.
Proof. done. Qed.
Lemma calmly_nofuel : calmly (A := A) nofuel.
Proof. done. Qed.
Lemma calmly_gets (f : kstate -> A) : calmly (gets f).
Proof. intros s. cbn. reflexivity. Qed.
Lemma calmly_nth (f : kstate -> list A) i : calmly (nth_or_fault f i).
Proof. intros s. unfold nth_or_fault. destruct (f s !! i); [reflexivity|done]. Qed.
Lemma calmly_lift (o : option A) : calmly (lift o).
Proof. destruct o; [apply calmly_ret|apply calmly_fault]. Qed.
Lemma calmly_bind (m : K A) (f : A -> K B) : calmly m -> (forall a, calmly (f a)) -> calmly (bind m f).
Proof.
  intros Hm Hf s. specialize (Hm s). unfold bind. destruct (m s) as [a s1| | | |]; try done.
  specialize (Hf a s1). destruct (f a s1); try done; by etrans.
Qed.
End calmly.

Lemma calmly_foreach {A} (f : A -> K unit) l : (forall a, calmly (f a)) -> calmly (foreach f l).
Proof. intros Hf. induction l as [|a l IH]; cbn; [apply calmly_ret|]. apply calmly_bind; auto. Qed.

Lemma calmly_modify f : (forall s, calm s (f s)) -> calmly (modify f).
Proof. intros Hf s. apply Hf. Qed.

#[export] Hint Resolve calmly_ret calmly_panic calmly_fault calmly_nofuel calmly_gets calmly_nth calmly_lift : calmly.

(** One step of the structural proof that a body is calm. *)
Ltac calmly_step :=
  lazymatch goal with
  | |- calmly (bind _ _) => apply calmly_bind; [|intros ?]
  | |- calmly (foreach _ _) => apply calmly_foreach; intros ?
  | |- calmly (match ?x with _ => _ end) => destruct x eqn:?
  | |- calmly (let '_ := ?x in _) => destruct x
  | |- calmly (modify _) => apply calmly_modify; intros ?; split; reflexivity
  | |- calmly _ => first [solve [eauto with calmly]|progress cbv zeta|progress cbn beta iota]
  end.
Ltac calmly := intros; repeat calmly_step.

(** The update functions of the single components. *)
Ltac calmly_upd :=
  intros; intros s;
  repeat match goal with |- match match ?x with _ => _ end with _ => _ end => destruct x end;
  first [done|split; reflexivity].

(** ** Locks, sleeping, waking *)

Lemma calmly_acquire l : calmly (acquire l).
Proof. unfold acquire. calmly_upd. Qed.
Lemma calmly_release l : calmly (release l).
Proof. unfold release. calmly_upd. Qed.
Lemma calmly_initlock l : calmly (initlock l).
Proof. unfold initlock. calmly. Qed.
#[export] Hint Resolve calmly_acquire calmly_release calmly_initlock : calmly.

Lemma calmly_cur_proc : calmly cur_proc.
Proof. unfold cur_proc. intros s. destruct (k_cur s); [reflexivity|done]. Qed.

Lemma calm_set_procs s ps : Forall2 same_fds (k_procs s) ps -> calm s (set_procs ps s).
Proof. intros H. split; [reflexivity..|done]. Qed.

Lemma calmly_upd_proc i f : (forall p, same_fds p (f p)) -> calmly (upd_proc i f).
Proof.
  intros Hf s. unfold upd_proc. destruct (k_procs s !! i) as [p|] eqn:E; [|done]. apply calm_set_procs.
  rewrite <- (list_insert_id (k_procs s) i p) at 1 by done. apply Forall2_insert; [reflexivity|apply Hf].
Qed.

Lemma calmly_map_procs f : (forall p, same_fds p (f p)) -> calmly (modify (fun s => set_procs (map f (k_procs s)) s)).
Proof.
  intros Hf. apply calmly_modify. intros s. apply calm_set_procs. apply Forall2_fmap_r. apply Forall_Forall2_diag.
  by apply Forall_true.
Qed.

Lemma calmly_wakeup c : calmly (wakeup c).
Proof.
  unfold wakeup, wakeup1. calmly. apply calmly_map_procs. intros p. unfold wake. case_match; [|reflexivity].
  split; [done|]. by intros [?|?].
Qed.

Lemma calmly_sched : calmly sched.
Proof.
  intros s. unfold sched, bind, cur_proc, nth_or_fault, swtch_to_scheduler, panic.
  destruct (negb _); [done|]. destruct (negb _); [done|]. destruct (k_cur s); [|done].
  destruct (k_procs s !! _); [|done]. destruct (bool_decide _); [done|reflexivity].
Qed.
#[export] Hint Resolve calmly_cur_proc calmly_wakeup calmly_sched : calmly.

Lemma calmly_sleep c lk : calmly (sleep c lk).
Proof.
  assert (forall i, calmly (
    (if bool_decide (lk <> LPtable) then acquire LPtable ;; release lk else ret tt) ;;
    upd_proc i (fun p => pset_state SLEEPING (pset_chan (Some c) p)) ;;
    sched ;;
    upd_proc i (pset_chan None) ;;
    (if bool_decide (lk <> LPtable) then release LPtable ;; acquire lk else ret tt))) as Hb.
  { calmly; apply calmly_upd_proc; intros p; split; try done. by intros [?|?]. }
  intros s. unfold sleep. destruct (k_cur s) as [i|]; [apply Hb|done].
Qed.
#[export] Hint Resolve calmly_sleep : calmly.

(** ** Memory *)
Lemma calmly_load64 a : calmly (load64 a).
Proof. unfold load64. calmly_upd. Qed.
#[export] Hint Resolve calmly_load64 : calmly.
Lemma calmly_load_bytes a n : calmly (load_bytes a n).
Proof. unfold load_bytes. calmly_upd. Qed.
#[export] Hint Resolve calmly_load_bytes : calmly.
Lemma calmly_store_bytes a l : calmly (store_bytes a l).
Proof. unfold store_bytes. calmly_upd. Qed.
#[export] Hint Resolve calmly_store_bytes : calmly.
Lemma calmly_store64 a v : calmly (store64 a v).
Proof. unfold store64. calmly. Qed.
#[export] Hint Resolve calmly_store64 : calmly.
Lemma calmly_fill_bytes a c n : calmly (fill_bytes a c n).
Proof. unfold fill_bytes. calmly. Qed.
#[export] Hint Resolve calmly_fill_bytes : calmly.
Lemma calmly_move_bytes dst src n : calmly (move_bytes dst src n).
Proof. unfold move_bytes. calmly. Qed.
#[export] Hint Resolve calmly_move_bytes : calmly.

(** ** The buffer cache, over drivers and devices that are calm *)

Class CalmDriver (drv : DiskDriver) : Prop := calmly_iderw : forall i, calmly (iderw i).
Class CalmDevs (dv : devsw) : Prop := {
  calmly_dev_read : forall k f ip n, dev_read dv k = Some f -> calmly (f ip n);
  calmly_dev_write : forall k f ip src n, dev_write dv k = Some f -> calmly (f ip src n)
}.
#[export] Hint Resolve calmly_iderw calmly_dev_read calmly_dev_write : calmly.

(** ** Buffers *)
Lemma calmly_getb i : calmly (getb i).
Proof. unfold getb. calmly. Qed.
#[export] Hint Resolve calmly_getb : calmly.
Lemma calmly_updb i f : calmly (updb i f).
Proof. unfold updb. calmly_upd. Qed.
#[export] Hint Resolve calmly_updb : calmly.
Lemma calmly_bget_find fuel dev sector i : calmly (bget_find fuel dev sector i).
Proof. revert dev sector i. induction fuel; cbn [bget_find]; calmly. Qed.
#[export] Hint Resolve calmly_bget_find : calmly.
Lemma calmly_bget_victim fuel i : calmly (bget_victim fuel i).
Proof. revert i. induction fuel; cbn [bget_victim]; calmly. Qed.
#[export] Hint Resolve calmly_bget_victim : calmly.
Lemma calmly_bget_loop retries dev sector : calmly (bget_loop retries dev sector).
Proof. revert dev sector. induction retries; cbn [bget_loop]; calmly. Qed.
#[export] Hint Resolve calmly_bget_loop : calmly.
Lemma calmly_bget dev sector : calmly (bget dev sector).
Proof. unfold bget. calmly. Qed.
#[export] Hint Resolve calmly_bget : calmly.
Lemma calmly_brelse i : calmly (brelse i).
Proof. unfold brelse. calmly. Qed.
#[export] Hint Resolve calmly_brelse : calmly.

Lemma calmly_memide_iderw i : calmly (memide_iderw i).
Proof. unfold memide_iderw. calmly. Qed.
#[export] Instance memide_calm : CalmDriver memide.
Proof. intros i. apply calmly_memide_iderw. Qed.

Section calm.
Context {drv : DiskDriver} {Hdrv : CalmDriver drv} (dv : devsw) {Hdv : CalmDevs dv} {L : Layout} {I : Image}.

(** ** The log *)
Lemma calmly_bread dev sector : calmly (bread dev sector).
Proof. unfold bread. calmly. Qed.
#[local] Hint Resolve calmly_bread : calmly.
Lemma calmly_bwrite i : calmly (bwrite i).
Proof. unfold bwrite. calmly. Qed.
#[local] Hint Resolve calmly_bwrite : calmly.
Lemma calmly_set_logged f : calmly (set_logged f).
Proof. unfold set_logged. calmly. Qed.
#[local] Hint Resolve calmly_set_logged : calmly.
Lemma calmly_log_sector i : calmly (log_sector i).
Proof. unfold log_sector. calmly. Qed.
#[local] Hint Resolve calmly_log_sector : calmly.
Lemma calmly_set_log_sector i v : calmly (set_log_sector i v).
Proof. unfold set_log_sector. calmly. Qed.
#[local] Hint Resolve calmly_set_log_sector : calmly.
Lemma calmly_readsb dev : calmly (readsb dev).
Proof. unfold readsb. calmly. Qed.
#[local] Hint Resolve calmly_readsb : calmly.
Lemma calmly_install_one tail : calmly (install_one tail).
Proof. unfold install_one. calmly. Qed.
#[local] Hint Resolve calmly_install_one : calmly.
Lemma calmly_install_trans : calmly (install_trans).
Proof. unfold install_trans. calmly. Qed.
#[local] Hint Resolve calmly_install_trans : calmly.
Lemma calmly_write_head : calmly (write_head).
Proof. unfold write_head. calmly. Qed.
#[local] Hint Resolve calmly_write_head : calmly.
Lemma calmly_wait_log fuel : calmly (wait_log fuel).
Proof. induction fuel; cbn [wait_log]; calmly. Qed.
#[local] Hint Resolve calmly_wait_log : calmly.
Lemma calmly_begin_trans : calmly (begin_trans).
Proof. unfold begin_trans. calmly. Qed.
#[local] Hint Resolve calmly_begin_trans : calmly.
Lemma calmly_commit_trans : calmly (commit_trans).
Proof. unfold commit_trans. calmly. Qed.
#[local] Hint Resolve calmly_commit_trans : calmly.
Lemma calmly_log_write i : calmly (log_write i).
Proof. unfold log_write. calmly. Qed.
#[local] Hint Resolve calmly_log_write : calmly.

(** ** The file system *)
Lemma calmly_geti i : calmly (geti i).
Proof. unfold geti. calmly. Qed.
#[local] Hint Resolve calmly_geti : calmly.
Lemma calmly_updi i f : calmly (updi i f).
Proof. unfold updi. calmly_upd. Qed.
#[local] Hint Resolve calmly_updi : calmly.
Lemma calmly_get_addr i k : calmly (get_addr i k).
Proof. unfold get_addr. calmly_upd. Qed.
#[local] Hint Resolve calmly_get_addr : calmly.
Lemma calmly_set_addr ip k a : calmly (set_addr ip k a).
Proof. unfold set_addr. calmly. Qed.
#[local] Hint Resolve calmly_set_addr : calmly.
Lemma calmly_bzero dev bno : calmly (bzero dev bno).
Proof. unfold bzero. calmly. Qed.
#[local] Hint Resolve calmly_bzero : calmly.
Lemma calmly_balloc_loop fuel dev sb b : calmly (balloc_loop fuel dev sb b).
Proof. revert dev sb b. induction fuel; cbn [balloc_loop]; calmly. Qed.
#[local] Hint Resolve calmly_balloc_loop : calmly.
Lemma calmly_balloc dev : calmly (balloc dev).
Proof. unfold balloc. calmly. Qed.
#[local] Hint Resolve calmly_balloc : calmly.
Lemma calmly_bfree dev b : calmly (bfree dev b).
Proof. unfold bfree. calmly. Qed.
#[local] Hint Resolve calmly_bfree : calmly.
Lemma calmly_iget dev inum : calmly (iget dev inum).
Proof. unfold iget. calmly. Qed.
#[local] Hint Resolve calmly_iget : calmly.
Lemma calmly_idup ip : calmly (idup ip).
Proof. unfold idup. calmly. Qed.
#[local] Hint Resolve calmly_idup : calmly.
Lemma calmly_ialloc_loop fuel dev type sb inum : calmly (ialloc_loop fuel dev type sb inum).
Proof. revert dev type sb inum. induction fuel; cbn [ialloc_loop]; calmly. Qed.
#[local] Hint Resolve calmly_ialloc_loop : calmly.
Lemma calmly_ialloc dev type : calmly (ialloc dev type).
Proof. unfold ialloc. calmly. Qed.
#[local] Hint Resolve calmly_ialloc : calmly.
Lemma calmly_iupdate ip : calmly (iupdate ip).
Proof. unfold iupdate. calmly. Qed.
#[local] Hint Resolve calmly_iupdate : calmly.
Lemma calmly_wait_inode fuel ip : calmly (wait_inode fuel ip).
Proof. revert ip. induction fuel; cbn [wait_inode]; calmly. Qed.
#[local] Hint Resolve calmly_wait_inode : calmly.
Lemma calmly_ilock ip : calmly (ilock ip).
Proof. unfold ilock. calmly. Qed.
#[local] Hint Resolve calmly_ilock : calmly.
Lemma calmly_iunlock ip : calmly (iunlock ip).
Proof. unfold iunlock. calmly. Qed.
#[local] Hint Resolve calmly_iunlock : calmly.
Lemma calmly_bmap_slot ip k : calmly (bmap_slot ip k).
Proof. unfold bmap_slot. calmly. Qed.
#[local] Hint Resolve calmly_bmap_slot : calmly.
Lemma calmly_bmap ip bn : calmly (bmap ip bn).
Proof. unfold bmap. calmly. Qed.
#[local] Hint Resolve calmly_bmap : calmly.
Lemma calmly_itrunc ip : calmly (itrunc ip).
Proof. unfold itrunc. calmly. Qed.
#[local] Hint Resolve calmly_itrunc : calmly.
Lemma calmly_iput ip : calmly (iput ip).
Proof. unfold iput. calmly. Qed.
#[local] Hint Resolve calmly_iput : calmly.
Lemma calmly_iunlockput ip : calmly (iunlockput ip).
Proof. unfold iunlockput. calmly. Qed.
#[local] Hint Resolve calmly_iunlockput : calmly.
Lemma calmly_stati ip : calmly (stati ip).
Proof. unfold stati. calmly. Qed.
#[local] Hint Resolve calmly_stati : calmly.
Lemma calmly_readi_loop fuel ip tot n off acc : calmly (readi_loop fuel ip tot n off acc).
Proof. revert ip tot n off acc. induction fuel; cbn [readi_loop]; calmly. Qed.
#[local] Hint Resolve calmly_readi_loop : calmly.
Lemma calmly_readi ip off n : calmly (readi dv ip off n).
Proof. unfold readi. calmly. Qed.
#[local] Hint Resolve calmly_readi : calmly.
Lemma calmly_writei_loop fuel ip src tot n off : calmly (writei_loop fuel ip src tot n off).
Proof. revert ip src tot n off. induction fuel; cbn [writei_loop]; calmly. Qed.
#[local] Hint Resolve calmly_writei_loop : calmly.
Lemma calmly_writei ip src off n : calmly (writei dv ip src off n).
Proof. unfold writei. calmly. Qed.
#[local] Hint Resolve calmly_writei : calmly.

(** ** Directories and paths *)
Lemma calmly_dirlookup_loop fuel dp name off : calmly (dirlookup_loop dv fuel dp name off).
Proof. revert dp name off. induction fuel; cbn [dirlookup_loop]; calmly. Qed.
#[local] Hint Resolve calmly_dirlookup_loop : calmly.
Lemma calmly_dirlookup dp name : calmly (dirlookup dv dp name).
Proof. unfold dirlookup. calmly. Qed.
#[local] Hint Resolve calmly_dirlookup : calmly.
Lemma calmly_dirlink_loop fuel dp off : calmly (dirlink_loop dv fuel dp off).
Proof. revert dp off. induction fuel; cbn [dirlink_loop]; calmly. Qed.
#[local] Hint Resolve calmly_dirlink_loop : calmly.
Lemma calmly_dirlink dp name inum : calmly (dirlink dv dp name inum).
Proof. unfold dirlink. calmly. Qed.
#[local] Hint Resolve calmly_dirlink : calmly.
Lemma calmly_namex_loop fuel ip path nameiparent name : calmly (namex_loop dv fuel ip path nameiparent name).
Proof. revert ip path nameiparent name. induction fuel; cbn [namex_loop]; calmly. Qed.
#[local] Hint Resolve calmly_namex_loop : calmly.
Lemma calmly_cwd : calmly (cwd).
Proof. unfold cwd. calmly. Qed.
#[local] Hint Resolve calmly_cwd : calmly.
Lemma calmly_namex path nameiparent name : calmly (namex dv path nameiparent name).
Proof. unfold namex. calmly. Qed.
#[local] Hint Resolve calmly_namex : calmly.
Lemma calmly_namei path : calmly (namei dv path).
Proof. unfold namei. calmly. Qed.
#[local] Hint Resolve calmly_namei : calmly.
Lemma calmly_nameiparent path name : calmly (nameiparent dv path name).
Proof. unfold nameiparent. calmly. Qed.
#[local] Hint Resolve calmly_nameiparent : calmly.

(** ** Memory allocation and page tables *)
Lemma calmly_get_kmem : calmly (get_kmem).
Proof. unfold get_kmem. calmly. Qed.
#[local] Hint Resolve calmly_get_kmem : calmly.
Lemma calmly_upd_kmem f : calmly (upd_kmem f).
Proof. unfold upd_kmem. calmly. Qed.
#[local] Hint Resolve calmly_upd_kmem : calmly.
Lemma calmly_kmem_lock : calmly (kmem_lock).
Proof. unfold kmem_lock. calmly. Qed.
#[local] Hint Resolve calmly_kmem_lock : calmly.
Lemma calmly_kmem_unlock : calmly (kmem_unlock).
Proof. unfold kmem_unlock. calmly. Qed.
#[local] Hint Resolve calmly_kmem_unlock : calmly.
Lemma calmly_kfree v : calmly (kfree v).
Proof. unfold kfree. calmly. Qed.
#[local] Hint Resolve calmly_kfree : calmly.
Lemma calmly_kalloc : calmly (kalloc).
Proof. unfold kalloc. calmly. Qed.
#[local] Hint Resolve calmly_kalloc : calmly.
Lemma calmly_walkpgdir pgdir va alloc : calmly (walkpgdir pgdir va alloc).
Proof. unfold walkpgdir. calmly. Qed.
#[local] Hint Resolve calmly_walkpgdir : calmly.
Lemma calmly_mappages_loop fuel pgdir a last pa perm : calmly (mappages_loop fuel pgdir a last pa perm).
Proof. revert pgdir a last pa perm. induction fuel; cbn [mappages_loop]; calmly. Qed.
#[local] Hint Resolve calmly_mappages_loop : calmly.
Lemma calmly_mappages pgdir va size pa perm : calmly (mappages pgdir va size pa perm).
Proof. unfold mappages. calmly. Qed.
#[local] Hint Resolve calmly_mappages : calmly.
Lemma calmly_setupkvm kpdpt : calmly (setupkvm kpdpt).
Proof. unfold setupkvm. calmly. Qed.
#[local] Hint Resolve calmly_setupkvm : calmly.
Lemma calmly_deallocuvm_loop fuel pgdir a oldsz : calmly (deallocuvm_loop fuel pgdir a oldsz).
Proof. revert pgdir a oldsz. induction fuel; cbn [deallocuvm_loop]; calmly. Qed.
#[local] Hint Resolve calmly_deallocuvm_loop : calmly.
Lemma calmly_deallocuvm pgdir oldsz newsz : calmly (deallocuvm pgdir oldsz newsz).
Proof. unfold deallocuvm. calmly. Qed.
#[local] Hint Resolve calmly_deallocuvm : calmly.
Lemma calmly_freevm pgdir : calmly (freevm pgdir).
Proof. unfold freevm. calmly. Qed.
#[local] Hint Resolve calmly_freevm : calmly.
Lemma calmly_copyuvm_loop fuel pgdir d i sz : calmly (copyuvm_loop fuel pgdir d i sz).
Proof. revert pgdir d i sz. induction fuel; cbn [copyuvm_loop]; calmly. Qed.
#[local] Hint Resolve calmly_copyuvm_loop : calmly.
Lemma calmly_copyuvm kpdpt pgdir sz : calmly (copyuvm kpdpt pgdir sz).
Proof. unfold copyuvm. calmly. Qed.
#[local] Hint Resolve calmly_copyuvm : calmly.

(** ** Pipes *)
Lemma calmly_get_pipe p : calmly (get_pipe p).
Proof. unfold get_pipe. calmly_upd. Qed.
#[local] Hint Resolve calmly_get_pipe : calmly.
Lemma calmly_upd_pipe p f : calmly (upd_pipe p f).
Proof. unfold upd_pipe. calmly_upd. Qed.
#[local] Hint Resolve calmly_upd_pipe : calmly.
Lemma calmly_cur_killed : calmly (cur_killed).
Proof. unfold cur_killed. calmly. Qed.
#[local] Hint Resolve calmly_cur_killed : calmly.
Lemma calmly_pipeclose p writable : calmly (pipeclose p writable).
Proof. unfold pipeclose. calmly. Qed.
#[local] Hint Resolve calmly_pipeclose : calmly.
Lemma calmly_pipewrite_wait fuel p : calmly (pipewrite_wait fuel p).
Proof. revert p. induction fuel; cbn [pipewrite_wait]; calmly. Qed.
#[local] Hint Resolve calmly_pipewrite_wait : calmly.
Lemma calmly_pipewrite_loop p addr n : calmly (pipewrite_loop p addr n).
Proof. revert p n. induction addr; cbn [pipewrite_loop]; calmly. Qed.
#[local] Hint Resolve calmly_pipewrite_loop : calmly.
Lemma calmly_pipewrite p addr n : calmly (pipewrite p addr n).
Proof. unfold pipewrite. calmly. Qed.
#[local] Hint Resolve calmly_pipewrite : calmly.
Lemma calmly_piperead_loop p n acc : calmly (piperead_loop p n acc).
Proof. revert p acc. induction n; cbn [piperead_loop]; calmly. Qed.
#[local] Hint Resolve calmly_piperead_loop : calmly.
Lemma calmly_piperead_wait fuel p : calmly (piperead_wait fuel p).
Proof. revert p. induction fuel; cbn [piperead_wait]; calmly. Qed.
#[local] Hint Resolve calmly_piperead_wait : calmly.
Lemma calmly_piperead p n : calmly (piperead p n).
Proof. unfold piperead. calmly. Qed.
#[local] Hint Resolve calmly_piperead : calmly.

(** ** System call arguments *)
Lemma calmly_get_proc i : calmly (get_proc i).
Proof. unfold get_proc. calmly. Qed.
#[local] Hint Resolve calmly_get_proc : calmly.
Lemma calmly_myproc : calmly (myproc).
Proof. unfold myproc. calmly. Qed.
#[local] Hint Resolve calmly_myproc : calmly.
Lemma calmly_translate pgdir va : calmly (translate pgdir va).
Proof. unfold translate. calmly. Qed.
#[local] Hint Resolve calmly_translate : calmly.
Lemma calmly_vload8 va : calmly (vload8 va).
Proof. unfold vload8. calmly. Qed.
#[local] Hint Resolve calmly_vload8 : calmly.
Lemma calmly_vstore8 va x : calmly (vstore8 va x).
Proof. unfold vstore8. calmly. Qed.
#[local] Hint Resolve calmly_vstore8 : calmly.
Lemma calmly_vload va n : calmly (vload va n).
Proof. revert va. induction n; cbn [vload]; calmly. Qed.
#[local] Hint Resolve calmly_vload : calmly.
Lemma calmly_vstore va l : calmly (vstore va l).
Proof. revert va. induction l; cbn [vstore]; calmly. Qed.
#[local] Hint Resolve calmly_vstore : calmly.
Lemma calmly_vload32 va : calmly (vload32 va).
Proof. unfold vload32. calmly. Qed.
#[local] Hint Resolve calmly_vload32 : calmly.
Lemma calmly_vload64 va : calmly (vload64 va).
Proof. unfold vload64. calmly. Qed.
#[local] Hint Resolve calmly_vload64 : calmly.
Lemma calmly_vstore32 va v : calmly (vstore32 va v).
Proof. unfold vstore32. calmly. Qed.
#[local] Hint Resolve calmly_vstore32 : calmly.
Lemma calmly_fetchint addr : calmly (fetchint addr).
Proof. unfold fetchint. calmly. Qed.
#[local] Hint Resolve calmly_fetchint : calmly.
Lemma calmly_fetchuintp addr : calmly (fetchuintp addr).
Proof. unfold fetchuintp. calmly. Qed.
#[local] Hint Resolve calmly_fetchuintp : calmly.
Lemma calmly_fetchstr_loop s n acc : calmly (fetchstr_loop s n acc).
Proof. revert s acc. induction n; cbn [fetchstr_loop]; calmly. Qed.
#[local] Hint Resolve calmly_fetchstr_loop : calmly.
Lemma calmly_fetchstr addr : calmly (fetchstr addr).
Proof. unfold fetchstr. calmly. Qed.
#[local] Hint Resolve calmly_fetchstr : calmly.
Lemma calmly_fetcharg n : calmly (fetcharg n).
Proof. unfold fetcharg. calmly. Qed.
#[local] Hint Resolve calmly_fetcharg : calmly.
Lemma calmly_argint n : calmly (argint n).
Proof. unfold argint. calmly. Qed.
#[local] Hint Resolve calmly_argint : calmly.
Lemma calmly_arguintp n : calmly (arguintp n).
Proof. unfold arguintp. calmly. Qed.
#[local] Hint Resolve calmly_arguintp : calmly.
Lemma calmly_argptr n size : calmly (argptr n size).
Proof. unfold argptr. calmly. Qed.
#[local] Hint Resolve calmly_argptr : calmly.
Lemma calmly_argstr n : calmly (argstr n).
Proof. unfold argstr. calmly. Qed.
#[local] Hint Resolve calmly_argstr : calmly.
End calm.
#[export] Hint Resolve calmly_bread calmly_bwrite calmly_set_logged calmly_log_sector calmly_set_log_sector calmly_readsb calmly_install_one
  calmly_install_trans calmly_write_head calmly_wait_log calmly_begin_trans calmly_commit_trans calmly_log_write
  calmly_geti calmly_updi calmly_get_addr calmly_set_addr calmly_bzero calmly_balloc_loop calmly_balloc calmly_bfree
  calmly_iget calmly_idup calmly_ialloc_loop calmly_ialloc calmly_iupdate calmly_wait_inode calmly_ilock calmly_iunlock
  calmly_bmap_slot calmly_bmap calmly_itrunc calmly_iput calmly_iunlockput calmly_stati calmly_readi_loop calmly_readi
  calmly_writei_loop calmly_writei calmly_dirlookup_loop calmly_dirlookup calmly_dirlink_loop calmly_dirlink
  calmly_namex_loop calmly_cwd calmly_namex calmly_namei calmly_nameiparent calmly_get_kmem calmly_upd_kmem
  calmly_kmem_lock calmly_kmem_unlock calmly_kfree calmly_kalloc calmly_walkpgdir calmly_mappages_loop calmly_mappages
  calmly_setupkvm calmly_deallocuvm_loop calmly_deallocuvm calmly_freevm calmly_copyuvm_loop calmly_copyuvm
  calmly_get_pipe calmly_upd_pipe calmly_cur_killed calmly_pipeclose calmly_pipewrite_wait calmly_pipewrite_loop
  calmly_pipewrite calmly_piperead_loop calmly_piperead_wait calmly_piperead calmly_get_proc calmly_myproc
  calmly_translate calmly_vload8 calmly_vstore8 calmly_vload calmly_vstore calmly_vload32 calmly_vload64 calmly_vstore32
  calmly_fetchint calmly_fetchuintp calmly_fetchstr_loop calmly_fetchstr calmly_fetcharg calmly_argint calmly_arguintp
  calmly_argptr calmly_argstr : calmly.
