(* ===== verification/Exec.v ===== *)
(** * exec (kernel/exec.c) *)

From S2P Require Import Prelude Types Monad Sched Bio KString Log Fs FsDir Mem Kalloc Vm Pipe File Proc.

Definition MAXARG : nat := 32.

(** [struct elfhdr] and [struct proghdr] (include/elf.h, 64-bit). *)
Definition sizeof_elfhdr : Z := 64.
Definition ELF_MAGIC : Z := 1179403647.
Definition field (n : nat) (d : list Z) (off : nat) : Z := le_val (take n (drop off d)).
Definition elf_magic (d : list Z) : Z := field 4 d 0.
Definition elf_entry (d : list Z) : Z := field 8 d 24.
Definition elf_phoff (d : list Z) : Z := field 8 d 32.
Definition elf_phnum (d : list Z) : Z := field 2 d 56.

Definition sizeof_proghdr : Z := 56.
Definition ELF_PROG_LOAD : Z := 1.
Definition ph_type (d : list Z) : Z := field 4 d 0.
Definition ph_off (d : list Z) : Z := field 8 d 8.
Definition ph_vaddr (d : list Z) : Z := field 8 d 16.
Definition ph_filesz (d : list Z) : Z := field 8 d 32.
Definition ph_memsz (d : list Z) : Z := field 8 d 40.

(** The name [exec] saves: what follows the last slash. *)
Fixpoint last_elem (path last : list Z) : list Z :=
  match path with
  | [] => last
  | x :: path => last_elem path (if x =? SLASH then path else last)
  end.
Definition basename (path : list Z) : list Z := last_elem path path.

Section code.
Context {drv : DiskDriver} (dv : devsw) {L : Layout} {I : Image}.

(** The program headers from [off], [n] of them; the size so far, or [None] for [goto bad]. *)
Fixpoint load_segments (n : nat) (ip : nat) (pgdir off sz : Z) : K (option Z) :=
  match n with
  | O => ret (Some sz)
  | S n =>
      let* (r, ph) := readi dv ip (u32 off) sizeof_proghdr in
      if negb (u64 r =? sizeof_proghdr) then ret None else
      let next := s32 (off + sizeof_proghdr) in
      if negb (ph_type ph =? ELF_PROG_LOAD) then load_segments n ip pgdir next sz else
      if ph_memsz ph <? ph_filesz ph then ret None else
      r <- allocuvm pgdir (u32 sz) (u32 (ph_vaddr ph + ph_memsz ph)) ;;
      let sz := u64 r in
      if sz =? 0 then ret None else
      r <- loaduvm dv pgdir (ph_vaddr ph) ip (u32 (ph_off ph)) (u32 (ph_filesz ph)) ;;
      if r <? 0 then ret None else
      load_segments n ip pgdir next sz
  end.

(** The argument strings, pushed from [sp] down: the new [sp] and the pointers to them. *)
Fixpoint push_args (pgdir : Z) (argv : list (list Z)) (argc : nat) (sp : Z) (ptrs : list Z)
    : K (option (Z * list Z)) :=
  match argv with
  | [] => ret (Some (sp, ptrs))
  | arg :: argv =>
      if (MAXARG <=? argc)%nat then ret None else
      let len := Z.of_nat (length arg) + 1 in
      let sp := Z.land (u64 (sp - len)) (Z.lnot 7) in
      r <- copyout pgdir (u32 sp) (arg ++ [0]) len ;;
      if r <? 0 then ret None else
      push_args pgdir argv (S argc) sp (ptrs ++ [sp])
  end.

(** The label [bad]. *)
Definition exec_bad (pgdir : Z) (ip : option nat) : K Z :=
  (if negb (pgdir =? 0) then freevm pgdir else ret tt) ;;
  (match ip with Some ip => iunlockput ip | None => ret tt end) ;;
  ret (-1).

(** [exec] after the segments are loaded: the stack, the arguments and the new image. *)
Definition exec_stack (path : list Z) (argv : list (list Z)) (pgdir sz entry : Z) : K Z :=
  let sz := PGROUNDUP sz in
  r <- allocuvm pgdir (u32 sz) (u32 (sz + 2 * PGSIZE)) ;;
  let sz := u64 r in
  if sz =? 0 then exec_bad pgdir None else
  clearpteu pgdir (u64 (sz - 2 * PGSIZE)) ;;
  o <- push_args pgdir argv 0 sz [] ;;
  match o with
  | None => exec_bad pgdir None
  | Some (sp, ptrs) =>
      let argc := Z.of_nat (length ptrs) in
      let ustack := [4294967295; argc; u64 (sp - (argc + 1) * 8)] ++ ptrs ++ [0] in
      p <- myproc ;;
      store64 (p_tf p + TF_RDI) argc ;;
      store64 (p_tf p + TF_RSI) (u64 (sp - (argc + 1) * 8)) ;;
      let sp := u64 (sp - (3 + argc + 1) * 8) in
      r <- copyout pgdir (u32 sp) (concat (map (le_bytes 8) ustack)) ((3 + argc + 1) * 8) ;;
      if r <? 0 then exec_bad pgdir None else
      me <- cur_proc ;;
      set_name me (basename path ++ [0]) ;;
      upd_proc me (pset_pgdir pgdir) ;;
      upd_proc me (pset_sz sz) ;;
      store64 (p_tf p + TF_EIP) entry ;;
      store64 (p_tf p + TF_ESP) sp ;;
      switchuvm_proc ;;
      freevm (p_pgdir p) ;;
      ret 0
  end.

(** [junk] is what the local [elf] holds before it is read. *)
Definition exec (junk : list Z) (path : list Z) (argv : list (list Z)) : K Z :=
  o <- namei dv path ;;
  match o with
  | None => ret (-1)
  | Some ip =>
      ilock ip ;;
      let* (r, bytes) := readi dv ip 0 sizeof_elfhdr in
      let elf := splice junk 0 bytes in
      if u64 r <? sizeof_elfhdr then exec_bad 0 (Some ip) else
      if negb (elf_magic elf =? ELF_MAGIC) then exec_bad 0 (Some ip) else
      pgdir <- setupkvm kpdpt_page ;;
      if pgdir =? 0 then exec_bad 0 (Some ip) else
      o <- load_segments (Z.to_nat (elf_phnum elf)) ip pgdir (s32 (elf_phoff elf)) 0 ;;
      match o with
      | None => exec_bad pgdir (Some ip)
      | Some sz =>
          iunlockput ip ;;
          exec_stack path argv pgdir sz (elf_entry elf)
      end
  end.
End code.
