(* ===== verification/Sysfile.v ===== *)
(** * File system calls (kernel/sysfile.c) *)

From S2P Require Import Prelude Types Monad Sched Bio KString Log Fs FsDir Mem Kalloc Vm Pipe File Proc.
From S2P Require Import Syscall Exec.

(** include/fcntl.h. *)
Definition O_RDONLY : Z := 0.
Definition O_WRONLY : Z := 1.
Definition O_RDWR : Z := 2.
Definition O_CREATE : Z := 512.

Definition DOT : list Z := [46; 0].
Definition DOTDOT : list Z := [46; 46; 0].

Section code.
Context {drv : DiskDriver} (dv : devsw) {L : Layout} {I : Image}.

(** The descriptor and its file, or [None] for -1. *)
Definition argfd (n : nat) : K (option (nat * nat)) :=
  fd <- argint n ;;
  if (fd <? 0) || (Z.of_nat NOFILE <=? fd) then ret None else
  p <- myproc ;;
  match p_ofile p !! Z.to_nat fd with
  | Some (Some f) => ret (Some (Z.to_nat fd, f))
  | Some None => ret None
  | None => fault
  end.

Definition set_fd (fd : nat) (o : option nat) : K unit :=
  upd_myproc (fun p => pset_ofile (<[fd := o]> (p_ofile p)) p).

Definition no_file (o : option nat) : bool := match o with None => true | Some _ => false end.

Definition fdalloc (f : nat) : K Z :=
  p <- myproc ;;
  match findi no_file (p_ofile p) with
  | Some fd => set_fd fd (Some f) ;; ret (Z.of_nat fd)
  | None => ret (-1)
  end.

Definition sys_dup : K Z :=
  o <- argfd 0 ;;
  match o with
  | None => ret (-1)
  | Some (_, f) =>
      fd <- fdalloc f ;;
      if fd <? 0 then ret (-1) else
      filedup f ;;
      ret fd
  end.

Definition sys_read : K Z :=
  o <- argfd 0 ;;
  match o with
  | None => ret (-1)
  | Some (_, f) =>
      n <- argint 2 ;;
      a <- argptr 1 n ;;
      match a with
      | None => ret (-1)
      | Some p =>
          let* (r, bytes) := fileread dv f n in
          vstore p bytes ;;
          ret r
      end
  end.

Definition sys_write : K Z :=
  o <- argfd 0 ;;
  match o with
  | None => ret (-1)
  | Some (_, f) =>
      n <- argint 2 ;;
      a <- argptr 1 n ;;
      match a with
      | None => ret (-1)
      | Some p => bytes <- vload p (Z.to_nat n) ;; filewrite dv f bytes n
      end
  end.

Definition sys_close : K Z :=
  o <- argfd 0 ;;
  match o with
  | None => ret (-1)
  | Some (fd, f) =>
      set_fd fd None ;;
      fileclose f ;;
      ret 0
  end.

(** [struct stat] (include/stat.h): type at 0, dev at 4, ino at 8, nlink at 12, size at 16. *)
Definition sizeof_stat : Z := 20.
Definition put_stat (st : Z) (x : Z * Z * Z * Z * Z) : K unit :=
  let '(dev, ino, type, nlink, size) := x in
  vstore (st + 4) (le_bytes 4 dev) ;;
  vstore (st + 8) (le_bytes 4 ino) ;;
  vstore st (le_bytes 2 type) ;;
  vstore (st + 12) (le_bytes 2 nlink) ;;
  vstore (st + 16) (le_bytes 4 size).

Definition sys_fstat : K Z :=
  o <- argfd 0 ;;
  match o with
  | None => ret (-1)
  | Some (_, f) =>
      a <- argptr 1 sizeof_stat ;;
      match a with
      | None => ret (-1)
      | Some st =>
          let* (r, x) := filestat f in
          (match x with Some x => put_stat st x | None => ret tt end) ;;
          ret r
      end
  end.

Definition add_nlink (ip : nat) (k : Z) : K unit :=
  updi ip (fun i => iset_nlink (s16 (i_nlink i + k)) i) ;; iupdate ip.

(** The label [bad] of [sys_link]. *)
Definition link_bad (ip : nat) : K Z :=
  ilock ip ;;
  add_nlink ip (-1) ;;
  iunlockput ip ;;
  commit_trans ;;
  ret (-1).

Definition sys_link : K Z :=
  old <- argstr 0 ;;
  match old with None => ret (-1) | Some old =>
  new <- argstr 1 ;;
  match new with None => ret (-1) | Some new =>
  o <- namei dv old ;;
  match o with None => ret (-1) | Some ip =>
  begin_trans ;;
  ilock ip ;;
  i <- geti ip ;;
  if i_type i =? T_DIR then iunlockput ip ;; commit_trans ;; ret (-1) else
  add_nlink ip 1 ;;
  iunlock ip ;;
  let* (o, name) := nameiparent dv new (replicate DIRSIZ 0) in
  match o with None => link_bad ip | Some dp =>
  ilock dp ;;
  d <- geti dp ;;
  i <- geti ip ;;
  r <- (if negb (i_dev d =? i_dev i) then ret (-1) else dirlink dv dp name (i_inum i)) ;;
  if r <? 0 then iunlockput dp ;; link_bad ip else
  iunlockput dp ;;
  iput ip ;;
  commit_trans ;;
  ret 0
  end end end end.

Fixpoint isdirempty_loop (fuel : nat) (dp : nat) (off : Z) : K bool :=
  match fuel with
  | O => nofuel
  | S fuel =>
      d <- geti dp ;;
      if off <? i_size d then
        let* (r, de) := readi dv dp off sizeof_dirent in
        if negb (r =? sizeof_dirent) then panic "isdirempty: readi" else
        if negb (de_inum de =? 0) then ret false
        else isdirempty_loop fuel dp (off + sizeof_dirent)
      else ret true
  end.

Definition isdirempty (dp : nat) : K bool :=
  d <- geti dp ;; isdirempty_loop (dir_fuel (i_size d)) dp (2 * sizeof_dirent).

(** The label [bad] of [sys_unlink]. *)
Definition unlink_bad (dp : nat) : K Z := iunlockput dp ;; commit_trans ;; ret (-1).

Definition sys_unlink : K Z :=
  path <- argstr 0 ;;
  match path with None => ret (-1) | Some path =>
  let* (o, name) := nameiparent dv path (replicate DIRSIZ 0) in
  match o with None => ret (-1) | Some dp =>
  begin_trans ;;
  ilock dp ;;
  c1 <- lift (namecmp name DOT) ;;
  if c1 =? 0 then unlink_bad dp else
  c2 <- lift (namecmp name DOTDOT) ;;
  if c2 =? 0 then unlink_bad dp else
  o <- dirlookup dv dp name ;;
  match o with None => unlink_bad dp | Some (ip, off) =>
  ilock ip ;;
  i <- geti ip ;;
  if i_nlink i <? 1 then panic "unlink: nlink < 1" else
  empty <- (if i_type i =? T_DIR then isdirempty ip else ret true) ;;
  if negb empty then iunlockput ip ;; unlink_bad dp else
  r <- writei dv dp (replicate 16 0) off sizeof_dirent ;;
  if negb (r =? sizeof_dirent) then panic "unlink: writei" else
  (if i_type i =? T_DIR then add_nlink dp (-1) else ret tt) ;;
  iunlockput dp ;;
  add_nlink ip (-1) ;;
  iunlockput ip ;;
  commit_trans ;;
  ret 0
  end end end.

(** The part of [create] that makes the new inode [ip] in directory [dp]. *)
Definition create_new (dp ip : nat) (name : list Z) (type major minor : Z) : K (option nat) :=
  ilock ip ;;
  updi ip (iset_major major) ;;
  updi ip (iset_minor minor) ;;
  updi ip (iset_nlink 1) ;;
  iupdate ip ;;
  i <- geti ip ;;
  (if type =? T_DIR then
     add_nlink dp 1 ;;
     d <- geti dp ;;
     r <- dirlink dv ip DOT (i_inum i) ;;
     if r <? 0 then panic "create dots" else
     r <- dirlink dv ip DOTDOT (i_inum d) ;;
     if r <? 0 then panic "create dots" else ret tt
   else ret tt) ;;
  r <- dirlink dv dp name (i_inum i) ;;
  if r <? 0 then panic "create: dirlink" else
  iunlockput dp ;;
  ret (Some ip).

Definition create (path : list Z) (type major minor : Z) : K (option nat) :=
  let* (o, name) := nameiparent dv path (replicate DIRSIZ 0) in
  match o with None => ret None | Some dp =>
  ilock dp ;;
  o <- dirlookup dv dp name ;;
  match o with
  | Some (ip, _) =>
      iunlockput dp ;;
      ilock ip ;;
      i <- geti ip ;;
      if (type =? T_FILE) && (i_type i =? T_FILE) then ret (Some ip) else
      iunlockput ip ;;
      ret None
  | None =>
      d <- geti dp ;;
      ip <- ialloc (i_dev d) type ;;
      create_new dp ip name type major minor
  end end.

(** [sys_open] once the inode [ip] is found and locked. *)
Definition open_file (ip : nat) (omode : Z) : K Z :=
  o <- filealloc ;;
  match o with
  | None => iunlockput ip ;; ret (-1)
  | Some f =>
      fd <- fdalloc f ;;
      if fd <? 0 then fileclose f ;; iunlockput ip ;; ret (-1) else
      iunlock ip ;;
      updf f (fset_type FD_INODE) ;;
      updf f (fset_ip (Some ip)) ;;
      updf f (fset_off 0) ;;
      updf f (fset_readable (negb (has omode O_WRONLY))) ;;
      updf f (fset_writable (has omode O_WRONLY || has omode O_RDWR)) ;;
      ret fd
  end.

Definition sys_open : K Z :=
  path <- argstr 0 ;;
  match path with None => ret (-1) | Some path =>
  omode <- argint 1 ;;
  if has omode O_CREATE then
    begin_trans ;;
    o <- create path T_FILE 0 0 ;;
    commit_trans ;;
    match o with None => ret (-1) | Some ip => open_file ip omode end
  else
    o <- namei dv path ;;
    match o with None => ret (-1) | Some ip =>
    ilock ip ;;
    i <- geti ip ;;
    if (i_type i =? T_DIR) && negb (omode =? O_RDONLY) then iunlockput ip ;; ret (-1)
    else open_file ip omode
    end
  end.

Definition sys_mkdir : K Z :=
  begin_trans ;;
  path <- argstr 0 ;;
  o <- (match path with None => ret None | Some path => create path T_DIR 0 0 end) ;;
  match o with
  | None => commit_trans ;; ret (-1)
  | Some ip => iunlockput ip ;; commit_trans ;; ret 0
  end.

Definition sys_mknod : K Z :=
  begin_trans ;;
  path <- argstr 0 ;;
  o <- (match path with
        | None => ret None
        | Some path =>
            major <- argint 1 ;;
            minor <- argint 2 ;;
            create path T_DEV (s16 major) (s16 minor)
        end) ;;
  match o with
  | None => commit_trans ;; ret (-1)
  | Some ip => iunlockput ip ;; commit_trans ;; ret 0
  end.

Definition sys_chdir : K Z :=
  path <- argstr 0 ;;
  match path with None => ret (-1) | Some path =>
  o <- namei dv path ;;
  match o with None => ret (-1) | Some ip =>
  ilock ip ;;
  i <- geti ip ;;
  if negb (i_type i =? T_DIR) then iunlockput ip ;; ret (-1) else
  iunlock ip ;;
  c <- cwd ;;
  iput c ;;
  upd_myproc (pset_cwd (Some ip)) ;;
  ret 0
  end end.

(** The loop of [sys_exec] from index [i], [fuel] entries of [argv] being left. *)
Fixpoint fetch_argv (fuel : nat) (uargv i : Z) (argv : list (list Z)) : K (option (list (list Z))) :=
  match fuel with
  | O => ret None
  | S fuel =>
      o <- fetchuintp (u64 (uargv + 8 * i)) ;;
      match o with
      | None => ret None
      | Some uarg =>
          if uarg =? 0 then ret (Some argv) else
          s <- fetchstr uarg ;;
          match s with
          | None => ret None
          | Some s => fetch_argv fuel uargv (i + 1) (argv ++ [s])
          end
      end
  end.

Definition sys_exec (junk : list Z) : K Z :=
  path <- argstr 0 ;;
  match path with None => ret (-1) | Some path =>
  uargv <- arguintp 1 ;;
  o <- fetch_argv MAXARG uargv 0 [] ;;
  match o with
  | None => ret (-1)
  | Some argv => exec dv junk path argv
  end end.

Definition sys_pipe : K Z :=
  a <- argptr 0 8 ;;
  match a with None => ret (-1) | Some fd =>
  o <- pipealloc ;;
  match o with None => ret (-1) | Some (rf, wf) =>
  fd0 <- fdalloc rf ;;
  if fd0 <? 0 then fileclose rf ;; fileclose wf ;; ret (-1) else
  fd1 <- fdalloc wf ;;
  if fd1 <? 0 then
    set_fd (Z.to_nat fd0) None ;; fileclose rf ;; fileclose wf ;; ret (-1)
  else
  vstore32 fd fd0 ;;
  vstore32 (fd + 4) fd1 ;;
  ret 0
  end end.
End code.
