(* ===== verification/FdProps.v ===== *)
(** * Descriptors and the file table (kernel/file.c, kernel/sysfile.c, kernel/proc.c)

    The reference count of every entry of the file table is the number of descriptors of all processes that
    name it, an entry is free exactly when it has no type, and processes that are unused or zombies have no
    descriptors. A call in progress may hold references of its own: [d f] is how many of file [f]'s. *)

From S2P Require Import Prelude Types Monad Sched Bio KString Log Fs FsDir Mem Kalloc Vm Pipe File Proc Syscall.
From S2P Require Import Exec Sysfile Calm.

Definition one (f g : nat) : Z := if decide (f = g) then 1 else 0.
Definition names (f : nat) (o : option nat) : Z := match o with Some g => one f g | None => 0 end.

(** How many descriptors name [f]: in one process's table, and in all. *)
Fixpoint hits (f : nat) (l : list (option nat)) : Z :=
  match l with [] => 0 | o :: l => names f o + hits f l end.
Fixpoint refs (f : nat) (ps : list proc) : Z :=
  match ps with [] => 0 | p :: ps => hits f (p_ofile p) + refs f ps end.

Definition no_files (p : proc) : Prop := Forall (fun o => o = None) (p_ofile p).

(** [U]: the entries just allocated, with one reference and no type yet. *)
Record ok (d : nat -> Z) (U : list nat) (s : kstate) : Prop := {
  ok_ref : forall f x, k_files s !! f = Some x -> f_ref x = refs f (k_procs s) + d f;
  ok_open : forall f, k_files s !! f = None -> refs f (k_procs s) = 0;
  ok_type : forall f x, k_files s !! f = Some x ->
    if bool_decide (f ∈ U) then f_type x = FD_NONE /\ f_ref x = 1 else f_ref x = 0 <-> f_type x = FD_NONE;
  ok_len : Forall (fun p => length (p_ofile p) = NOFILE) (k_procs s);
  ok_dead : Forall (fun p => dead p -> no_files p) (k_procs s);
  ok_cur : forall i p, k_cur s = Some i -> k_procs s !! i = Some p -> ~ dead p
}.

(** ** Counting *)

Lemma names_bound f o : 0 <= names f o <= 1.
Proof. unfold names, one. destruct o; [case_decide|]; lia. Qed.

Lemma hits_nonneg f l : 0 <= hits f l.
Proof. induction l as [|o l IH]; cbn; [lia|]. pose proof (names_bound f o). lia. Qed.

Lemma refs_nonneg f ps : 0 <= refs f ps.
Proof. induction ps as [|p ps IH]; cbn; [lia|]. pose proof (hits_nonneg f (p_ofile p)). lia. Qed.

Lemma hits_insert f l k o o' : l !! k = Some o -> hits f (<[k := o']> l) = hits f l - names f o + names f o'.
Proof.
  revert k. induction l as [|x l IH]; intros k; [done|]. destruct k as [|k]; [cbn; intros [= ->]; lia|].
  intros Hk. change (<[S k := o']> (x :: l)) with (x :: <[k := o']> l). cbn [hits]. rewrite (IH k Hk). lia.
Qed.

Lemma refs_insert f ps i p q :
  ps !! i = Some p -> refs f (<[i := q]> ps) = refs f ps - hits f (p_ofile p) + hits f (p_ofile q).
Proof.
  revert i. induction ps as [|x ps IH]; intros i; [done|]. destruct i as [|i]; [cbn; intros [= ->]; lia|].
  intros Hi. change (<[S i := q]> (x :: ps)) with (x :: <[i := q]> ps). cbn [refs]. rewrite (IH i Hi). lia.
Qed.

Lemma hits_none f l : Forall (fun o => o = None) l -> hits f l = 0.
Proof. induction 1 as [|o l -> _ IH]; cbn; [done|]. lia. Qed.

Lemma hits_in f l k : l !! k = Some (Some f) -> 1 <= hits f l.
Proof.
  revert k. induction l as [|o l IH]; intros k; [done|]. pose proof (hits_nonneg f l). destruct k as [|k]; cbn.
  - intros [= ->]. cbn. unfold one. rewrite decide_True by done. lia.
  - intros Hk. specialize (IH k Hk). pose proof (names_bound f o). lia.
Qed.

Lemma refs_in f ps i p k : ps !! i = Some p -> p_ofile p !! k = Some (Some f) -> 1 <= refs f ps.
Proof.
  revert i. induction ps as [|x ps IH]; intros i; [done|]. pose proof (refs_nonneg f ps). destruct i as [|i]; cbn.
  - intros [= ->] Hk. pose proof (hits_in _ _ _ Hk). lia.
  - intros Hi Hk. specialize (IH i Hi Hk). pose proof (hits_nonneg f (p_ofile x)). lia.
Qed.

Lemma refs_ext f ps ps' : Forall2 (fun p p' => p_ofile p' = p_ofile p) ps ps' -> refs f ps' = refs f ps.
Proof. induction 1 as [|p p' ps ps' E _ IH]; cbn; [done|]. rewrite E, IH. lia. Qed.

Lemma ok_ext d d' U s : (forall f, d f = d' f) -> ok d U s -> ok d' U s.
Proof. intros E Hok. split; try apply Hok. intros f x Hx. rewrite <- E. by apply Hok. Qed.

(** ** Calm code keeps the invariant *)

Lemma ok_calm d U s s' : calm s s' -> ok d U s -> ok d U s'.
Proof.
  intros [Hc Hf Hp] Hok.
  assert (forall f, refs f (k_procs s') = refs f (k_procs s)) as Hr.
  { intros f. apply refs_ext. eapply Forall2_impl; [exact Hp|]. by intros p p' [? _]. }
  split.
  - intros f x' Hx'. rewrite Hr. destruct (Forall2_lookup_r _ _ _ _ _ Hf Hx') as (x & Hx & -> & _). by apply Hok.
  - intros f Hnone. rewrite Hr. apply Hok. apply lookup_ge_None in Hnone. apply lookup_ge_None.
    by rewrite (Forall2_length _ _ _ Hf).
  - intros f x' Hx'. destruct (Forall2_lookup_r _ _ _ _ _ Hf Hx') as (x & Hx & -> & ->). by apply (ok_type _ _ _ Hok).
  - apply Forall_lookup. intros i p' Hi. destruct (Forall2_lookup_r _ _ _ _ _ Hp Hi) as (p & Hpi & -> & _).
    by apply (Forall_lookup_1 _ _ _ _ (ok_len _ _ _ Hok) Hpi).
  - apply Forall_lookup. intros i p' Hi Hd. destruct (Forall2_lookup_r _ _ _ _ _ Hp Hi) as (p & Hpi & E & Hdd).
    unfold no_files. rewrite E. by apply (Forall_lookup_1 _ _ _ _ (ok_dead _ _ _ Hok) Hpi), Hdd.
  - intros i p' Hi Hpi Hd. destruct (Forall2_lookup_r _ _ _ _ _ Hp Hpi) as (p & Hpi' & _ & Hdd).
    rewrite Hc in Hi. by apply (ok_cur _ _ _ Hok i p Hi Hpi'), Hdd.
Qed.

(** ** Changes to one entry of the file table and to one descriptor *)

Definition plus (d : nat -> Z) (f : nat) (k : Z) (g : nat) : Z := d g + (if decide (g = f) then k else 0).

Lemma ok_set_file d U U' s f x x' k :
  ok d U s -> k_files s !! f = Some x -> f_ref x' = f_ref x + k ->
  (if bool_decide (f ∈ U') then f_type x' = FD_NONE /\ f_ref x' = 1 else f_ref x' = 0 <-> f_type x' = FD_NONE) ->
  (forall g, g <> f -> g ∈ U' <-> g ∈ U) ->
  ok (plus d f k) U' (set_files (<[f := x']> (k_files s)) s).
Proof.
  intros Hok Hx Hk Ht HU. assert (f < length (k_files s))%nat as Hlt by by eapply lookup_lt_Some.
  split; cbn; try apply Hok.
  - intros g y. unfold plus. destruct (decide (g = f)) as [->|Hne].
    + rewrite list_lookup_insert_eq by done. intros [= <-]. rewrite Hk, (ok_ref _ _ _ Hok f x Hx). lia.
    + rewrite list_lookup_insert_ne by done. intros Hy. rewrite (ok_ref _ _ _ Hok g y Hy). lia.
  - intros g Hg. apply Hok. destruct (decide (g = f)) as [->|Hne].
    + by rewrite list_lookup_insert_eq in Hg.
    + by rewrite list_lookup_insert_ne in Hg.
  - intros g y. destruct (decide (g = f)) as [->|Hne].
    + rewrite list_lookup_insert_eq by done. by intros [= <-].
    + rewrite list_lookup_insert_ne by done. intros Hy. rewrite (bool_decide_ext _ _ (HU g Hne)).
      by apply (ok_type _ _ _ Hok).
Qed.

Lemma ok_set_proc d U s i p q :
  ok d U s -> k_procs s !! i = Some p -> length (p_ofile q) = NOFILE -> (dead q -> no_files q) ->
  (k_cur s = Some i -> ~ dead q) -> (forall f, k_files s !! f = None -> hits f (p_ofile q) = 0) ->
  ok (fun f => d f + hits f (p_ofile p) - hits f (p_ofile q)) U (set_procs (<[i := q]> (k_procs s)) s).
Proof.
  intros Hok Hp Hlen Hdead Hcur Hopen. assert (i < length (k_procs s))%nat as Hlt by by eapply lookup_lt_Some.
  split; cbn; try apply Hok.
  - intros f x Hx. rewrite (refs_insert f _ _ _ _ Hp), (ok_ref _ _ _ Hok f x Hx). lia.
  - intros f Hf. rewrite (refs_insert f _ _ _ _ Hp), (Hopen f Hf).
    pose proof (ok_open _ _ _ Hok f Hf) as Hr. pose proof (refs_insert f _ _ _ q Hp) as Hi.
    rewrite (Hopen f Hf), Hr in Hi. pose proof (refs_nonneg f (<[i := q]> (k_procs s))). pose proof (hits_nonneg f (p_ofile p)). lia.
  - apply Forall_insert; [apply Hok|done].
  - apply Forall_insert; [apply Hok|done].
  - intros j r Hj. destruct (decide (j = i)) as [->|Hne].
    + rewrite list_lookup_insert_eq by done. intros [= <-]. auto.
    + rewrite list_lookup_insert_ne by done. intros Hr. by apply (ok_cur _ _ _ Hok j).
Qed.

(** ** Total steps: the outcomes of a call from a state

    From [P], [m] returns in [Q] or gives up the CPU in [R]. *)
Definition triple (R : kstate -> Prop) {A} (P : kstate -> Prop) (m : K A) (Q : A -> kstate -> Prop) : Prop :=
  forall s, P s -> match m s with Ret a s' => Q a s' | Sched s' => R s' | _ => True end.

Definition stable (P : kstate -> Prop) : Prop := forall s s', calm s s' -> P s -> P s'.

Section triples.
Context (R : kstate -> Prop).

Lemma t_ret {A} (P : kstate -> Prop) (a : A) Q : (forall s, P s -> Q a s) -> triple R P (ret a) Q.
Proof. intros H s. apply H. Qed.

Lemma t_bind {A B} P (m : K A) (f : A -> K B) M Q :
  triple R P m M -> (forall a, triple R (M a) (f a) Q) -> triple R P (bind m f) Q.
Proof. intros Hm Hf s Hs. specialize (Hm s Hs). unfold bind. destruct (m s); try done. by apply Hf. Qed.

Lemma t_mono {A} (P P' : kstate -> Prop) (m : K A) (Q Q' : A -> kstate -> Prop) :
  triple R P' m Q' -> (forall s, P s -> P' s) -> (forall a s, Q' a s -> Q a s) -> triple R P m Q.
Proof. intros Hm HP HQ s Hs. specialize (Hm s (HP s Hs)). destruct (m s); auto. Qed.

Lemma t_calm {A} (P : kstate -> Prop) (m : K A) :
  calmly m -> stable P -> (forall s, P s -> R s) -> triple R P m (fun _ => P).
Proof.
  intros Hm HP HR s Hs. specialize (Hm s). destruct (m s); try done; [by eapply HP|]. apply HR. by eapply HP.
Qed.

Lemma t_seq {A B} (P : kstate -> Prop) (m : K A) (f : A -> K B) Q :
  calmly m -> stable P -> (forall s, P s -> R s) -> (forall a, triple R P (f a) Q) -> triple R P (bind m f) Q.
Proof. intros Hm HP HR Hf. eapply t_bind; [by apply t_calm|done]. Qed.

Lemma t_pre {A} (P P' : kstate -> Prop) (m : K A) Q : (forall s, P s -> P' s) -> triple R P' m Q -> triple R P m Q.
Proof. intros HP Hm s Hs. apply Hm. auto. Qed.

Lemma t_pure {A} (H : Prop) (P : kstate -> Prop) (m : K A) Q :
  (H -> triple R P m Q) -> triple R (fun s => H /\ P s) m Q.
Proof. intros Hm s [HH Hs]. by apply Hm. Qed.
End triples.

(** Code that neither sleeps nor touches descriptors. *)
Definition steady {A} (m : K A) : Prop :=
  forall s, match m s with Ret _ s' => calm s s' | Sched _ => False | _ => True end.

Lemma steady_bind {A B} (m : K A) (f : A -> K B) : steady m -> (forall a, steady (f a)) -> steady (bind m f).
Proof.
  intros Hm Hf s. specialize (Hm s). unfold bind. destruct (m s) as [a s1| | | |]; try done.
  specialize (Hf a s1). destruct (f a s1); try done. by etrans.
Qed.

Ltac steady_upd :=
  intros; intros s;
  repeat match goal with |- match match ?x with _ => _ end with _ => _ end => destruct x end;
  first [done|split; reflexivity].
Ltac steady :=
  intros; repeat lazymatch goal with
  | |- steady (bind _ _) => apply steady_bind; [|intros ?]
  | |- steady (match ?x with _ => _ end) => destruct x
  | |- steady _ => first [assumption|solve [steady_upd]]
  end.

Lemma steady_kmem_lock : steady kmem_lock.
Proof. unfold kmem_lock, get_kmem, acquire. steady. Qed.
Lemma steady_kmem_unlock : steady kmem_unlock.
Proof. unfold kmem_unlock, get_kmem, release. steady. Qed.
Lemma steady_kalloc {L : Layout} : steady kalloc.
Proof.
  pose proof steady_kmem_lock. pose proof steady_kmem_unlock.
  unfold kalloc, get_kmem, upd_kmem, load64. cbv zeta. steady.
Qed.

Section specs.
Context (R : kstate -> Prop).

Lemma t_steady {A} (P : kstate -> Prop) (m : K A) : steady m -> stable P -> triple R P m (fun _ => P).
Proof. intros Hm HP s Hs. specialize (Hm s). destruct (m s); try done. by eapply HP. Qed.

Lemma t_steady_seq {A B} (P : kstate -> Prop) (m : K A) (f : A -> K B) Q :
  steady m -> stable P -> (forall a, triple R P (f a) Q) -> triple R P (bind m f) Q.
Proof. intros Hm HP Hf. eapply t_bind; [by apply t_steady|done]. Qed.

Lemma t_gets {A B} (P : kstate -> Prop) (g : kstate -> A) (f : A -> K B) Q :
  (forall a, triple R (fun s => a = g s /\ P s) (f a) Q) -> triple R P (bind (gets g) f) Q.
Proof. intros Hf s Hs. by apply (Hf (g s)). Qed.

Lemma t_getf {B} (P : kstate -> Prop) f (k : file -> K B) Q :
  (forall x, triple R (fun s => k_files s !! f = Some x /\ P s) (k x) Q) -> triple R P (bind (getf f) k) Q.
Proof.
  intros Hk s Hs. unfold bind, getf, nth_or_fault. destruct (k_files s !! f) as [x|] eqn:E; [|done]. by apply Hk.
Qed.

Lemma t_updf (P : kstate -> Prop) f g (Q : unit -> kstate -> Prop) :
  (forall s x, P s -> k_files s !! f = Some x -> Q tt (set_files (<[f := g x]> (k_files s)) s)) ->
  triple R P (updf f g) Q.
Proof.
  intros HQ s Hs. unfold updf. destruct (k_files s !! f) as [x|] eqn:E; [|done].
  rewrite (alter_insert _ _ x) by done. by apply HQ.
Qed.

Lemma t_myproc {B} (P : kstate -> Prop) (k : proc -> K B) Q :
  (forall i p, triple R (fun s => (k_cur s = Some i /\ k_procs s !! i = Some p) /\ P s) (k p) Q) ->
  triple R P (bind myproc k) Q.
Proof.
  intros Hk s Hs. unfold myproc, get_proc, bind, cur_proc, nth_or_fault.
  destruct (k_cur s) as [i|] eqn:Ei; [|done]. destruct (k_procs s !! i) as [p|] eqn:Ep; [|done]. by apply (Hk i p).
Qed.

Lemma t_upd_proc (P : kstate -> Prop) i g (Q : unit -> kstate -> Prop) :
  (forall s p, P s -> k_procs s !! i = Some p -> Q tt (set_procs (<[i := g p]> (k_procs s)) s)) ->
  triple R P (upd_proc i g) Q.
Proof. intros HQ s Hs. unfold upd_proc. destruct (k_procs s !! i) eqn:E; [|done]. by apply HQ. Qed.

Lemma t_upd_myproc (P : kstate -> Prop) g (Q : unit -> kstate -> Prop) :
  (forall s i p, P s -> k_cur s = Some i -> k_procs s !! i = Some p -> Q tt (set_procs (<[i := g p]> (k_procs s)) s)) ->
  triple R P (upd_myproc g) Q.
Proof.
  intros HQ s Hs. unfold upd_myproc, bind, cur_proc, upd_proc. destruct (k_cur s) as [i|] eqn:Ei; [|done].
  destruct (k_procs s !! i) eqn:E; [|done]. by eapply HQ.
Qed.

(** ** Predicates calm code keeps *)

Lemma stable_ok d U : stable (ok d U).
Proof. intros s s' Hc. by apply ok_calm. Qed.
Lemma stable_and P Q : stable P -> stable Q -> stable (fun s => P s /\ Q s).
Proof. intros HP HQ s s' Hc [? ?]. split; [by eapply HP|by eapply HQ]. Qed.
Lemma stable_pure (H : Prop) : stable (fun _ => H).
Proof. by intros s s' _ ?. Qed.

Definition has_file (f : nat) (s : kstate) : Prop := is_Some (k_files s !! f).
Lemma stable_has_file f : stable (has_file f).
Proof.
  intros s s' Hc [x Hx]. destruct (Forall2_lookup_l _ _ _ _ _ (calm_files _ _ Hc) Hx) as (x' & Hx' & _). by exists x'.
Qed.

(** The running process's descriptor [fd] names [f]. *)
Definition cur_fd (fd f : nat) (s : kstate) : Prop :=
  exists i p, k_cur s = Some i /\ k_procs s !! i = Some p /\ p_ofile p !! fd = Some (Some f).
Lemma stable_cur_fd fd f : stable (cur_fd fd f).
Proof.
  intros s s' Hc (i & p & Hi & Hp & Hf). destruct (Forall2_lookup_l _ _ _ _ _ (calm_procs _ _ Hc) Hp) as (p' & Hp' & E & _).
  exists i, p'. rewrite E, (calm_cur _ _ Hc). done.
Qed.

(** Process [i] has no descriptors and is not running. *)
Definition idle (i : nat) (s : kstate) : Prop := (exists p, k_procs s !! i = Some p /\ no_files p) /\ k_cur s <> Some i.
Lemma stable_idle i : stable (idle i).
Proof.
  intros s s' Hc [(p & Hp & Hn) Hi]. destruct (Forall2_lookup_l _ _ _ _ _ (calm_procs _ _ Hc) Hp) as (p' & Hp' & E & _).
  split; [|by rewrite (calm_cur _ _ Hc)]. exists p'. unfold no_files. by rewrite E.
Qed.
#[local] Hint Resolve stable_ok stable_and stable_pure stable_has_file stable_cur_fd stable_idle : calmly.

(** Predicates that changes to entries of the file table keep as well. *)
Definition framed (P : kstate -> Prop) : Prop :=
  stable P /\ forall s F, length F = length (k_files s) -> P s -> P (set_files F s).

Lemma framed_and P Q : framed P -> framed Q -> framed (fun s => P s /\ Q s).
Proof. intros [? HP] [? HQ]. split; [by apply stable_and|]. intros s F HF [? ?]. split; auto. Qed.
Lemma framed_pure (H : Prop) : framed (fun _ => H).
Proof. by split; [apply stable_pure|]. Qed.
Lemma framed_has_file f : framed (has_file f).
Proof.
  split; [apply stable_has_file|]. intros s F HF [x Hx]. apply lookup_lt_is_Some_2. cbn. rewrite HF. by eapply lookup_lt_Some.
Qed.
Lemma framed_cur_fd fd f : framed (cur_fd fd f).
Proof. split; [apply stable_cur_fd|done]. Qed.
Lemma framed_idle i : framed (idle i).
Proof. split; [apply stable_idle|done]. Qed.
#[local] Hint Resolve framed_and framed_pure framed_has_file framed_cur_fd framed_idle : calmly.

(** ** filealloc, filedup, fileclose *)

Lemma steady_acquire l : steady (acquire l).
Proof. unfold acquire. steady. Qed.
Lemma steady_release l : steady (release l).
Proof. unfold release. steady. Qed.
#[local] Hint Resolve steady_acquire steady_release : calmly.

Lemma filealloc_spec P d U :
  framed P -> triple R (fun s => P s /\ ok d U s) filealloc (fun o s => P s /\
    match o with Some f => f ∉ U /\ ok (plus d f 1) (f :: U) s /\ has_file f s | None => ok d U s end).
Proof.
  intros [HP1 HP2]. unfold filealloc. apply t_steady_seq; [auto with calmly..|]. intros _. apply t_gets. intros fs.
  destruct (free_file fs) as [f|] eqn:E.
  - eapply t_bind with (M := fun _ s => P s /\ f ∉ U /\ ok (plus d f 1) (f :: U) s /\ has_file f s).
    + apply t_updf. intros s x (-> & HP & Hok) Hx. apply findi_Some in E as [(y & Hy & H0) _].
      rewrite Hx in Hy. injection Hy as <-. apply Z.eqb_eq in H0. pose proof (ok_type _ _ _ Hok f x Hx) as Ht.
      split; [apply HP2; [by rewrite length_insert|done]|]. split; [|split].
      * intros HU. rewrite bool_decide_eq_true_2 in Ht by done. lia.
      * eapply ok_set_file; [done|done|cbn; lia| |set_solver].
        rewrite bool_decide_eq_true_2 by left. split; [|done]. cbn. case_bool_decide; [lia|]. tauto.
      * unfold has_file. cbn. rewrite list_lookup_insert_eq by by eapply lookup_lt_Some. done.
    + intros _. apply t_steady_seq; [auto 10 with calmly..|]. intros _. by apply t_ret.
  - apply t_pre with (P' := fun s => P s /\ ok d U s); [tauto|]. apply t_steady_seq; [auto with calmly..|].
    intros _. by apply t_ret.
Qed.

Lemma filedup_spec P d U f :
  framed P -> f ∉ U ->
  triple R (fun s => P s /\ ok d U s) (filedup f) (fun g s => g = f /\ P s /\ ok (plus d f 1) U s).
Proof.
  intros [HP1 HP2] HU. unfold filedup. apply t_steady_seq; [auto with calmly..|]. intros _. apply t_getf. intros x.
  destruct (f_ref x <? 1) eqn:E; [done|]. eapply t_bind with (M := fun _ s => P s /\ ok (plus d f 1) U s).
  - apply t_updf. intros s y (Hx & HP & Hok) Hy. rewrite Hx in Hy. injection Hy as <-.
    split; [apply HP2; [by rewrite length_insert|done]|].
    eapply ok_set_file; [done|done|cbn; lia| |done]. rewrite bool_decide_eq_false_2 by done. cbn.
    pose proof (ok_type _ _ _ Hok f x Hx) as Ht. rewrite bool_decide_eq_false_2 in Ht by done. rewrite <- Ht. lia.
  - intros _. apply t_steady_seq; [auto with calmly..|]. intros _. by apply t_ret.
Qed.

Definition minus (U : list nat) (f : nat) : list nat := filter (fun g => g <> f) U.
#[global] Arguments minus : simpl never.

Lemma elem_of_minus U f g : g ∈ minus U f <-> g <> f /\ g ∈ U.
Proof. unfold minus. by rewrite list_elem_of_filter. Qed.

Lemma calmly_close_last {drv : DiskDriver} {Hdrv : CalmDriver drv} {L : Layout} ff : calmly (close_last ff).
Proof. unfold close_last, file_ip. calmly. Qed.

Lemma fileclose_eq {drv : DiskDriver} {L : Layout} f s x (r := f_ref x - 1) :
  k_files s !! f = Some x -> LFtable ∉ k_held s -> 1 <= f_ref x ->
  fileclose f s = (if 0 <? r then ret tt else close_last (fset_ref r x))
    (set_files (<[f := if 0 <? r then fset_ref r x else fset_type FD_NONE (fset_ref 0 x)]> (k_files s)) s).
Proof.
  intros Hx Hh Hr. assert (f < length (k_files s))%nat as Hlt by by eapply lookup_lt_Some.
  unfold fileclose, bind. rewrite acquire_free by done. unfold getf, nth_or_fault, updf. cbn [k_files set_held set_files].
  rewrite Hx. rewrite (proj2 (Z.ltb_ge _ _)) by lia. cbn [k_files set_held set_files]. rewrite Hx.
  rewrite (alter_insert _ _ x) by done. fold r. destruct (0 <? r) eqn:E.
  - rewrite (release_top _ (k_held s)) by done. by destruct s.
  - cbn [k_files set_held set_files]. rewrite list_lookup_insert_eq by done.
    cbn [k_files set_held set_files]. rewrite list_lookup_insert_eq by done.
    rewrite (alter_insert _ _ (fset_ref r x)), list_insert_insert_eq by by apply list_lookup_insert_eq.
    cbn [k_files set_held set_files]. rewrite list_lookup_insert_eq by done.
    rewrite (alter_insert _ _ (fset_ref 0 (fset_ref r x))), list_insert_insert_eq by by apply list_lookup_insert_eq.
    rewrite (release_top _ (k_held s)) by done. by destruct s.
Qed.

Lemma fileclose_spec {drv : DiskDriver} {Hdrv : CalmDriver drv} {L : Layout} P d U f :
  framed P -> (f ∉ U -> forall s, P s -> ok (plus d f (-1)) (minus U f) s -> R s) ->
  triple R (fun s => P s /\ ok d U s) (fileclose f) (fun _ s => P s /\ ok (plus d f (-1)) (minus U f) s).
Proof.
  intros [HP1 HP2] HR s [HP Hok]. destruct (k_files s !! f) as [x|] eqn:Hx.
  2: { unfold fileclose, bind, acquire, getf, nth_or_fault. destruct (holding LFtable s); [done|]. cbn. by rewrite Hx. }
  destruct (decide (LFtable ∈ k_held s)) as [Hh|Hh].
  { unfold fileclose, bind, acquire, holding. by rewrite bool_decide_eq_true_2. }
  destruct (decide (1 <= f_ref x)) as [Hr|Hr].
  2: { unfold fileclose, bind, getf, nth_or_fault. rewrite acquire_free by done. cbn. rewrite Hx.
       by rewrite (proj2 (Z.ltb_lt _ _)) by lia. }
  rewrite (fileclose_eq f s x) by done. set (s1 := set_files _ s).
  pose proof (ok_type _ _ _ Hok f x Hx) as Ht.
  assert (P s1 /\ ok (plus d f (-1)) (minus U f) s1) as Hok1.
  { split; [apply HP2; [by rewrite length_insert|done]|]. eapply ok_set_file; [done|done| | |].
    - destruct (0 <? f_ref x - 1) eqn:E; cbn; lia.
    - rewrite bool_decide_eq_false_2 by (rewrite elem_of_minus; tauto). destruct (0 <? f_ref x - 1) eqn:E; cbn; [|done].
      case_bool_decide; [lia|]. rewrite <- Ht. lia.
    - intros g Hg. rewrite elem_of_minus. tauto. }
  destruct (0 <? f_ref x - 1) eqn:E; [exact Hok1|].
  pose proof (calmly_close_last (fset_ref (f_ref x - 1) x) s1) as Hk. destruct (decide (f ∈ U)) as [HU|HU].
  - rewrite bool_decide_eq_true_2 in Ht by done. unfold close_last. cbn. destruct Ht as [-> _]. exact Hok1.
  - destruct Hok1 as [HPs1 Hok1].
    destruct (close_last _ s1); try done; [split; [by eapply HP1|by eapply ok_calm]|].
    apply (HR HU); [by eapply HP1|by eapply ok_calm].
Qed.

(** ** Descriptors of the running process *)

Lemma cur_fd_file d U s fd f : ok d U s -> cur_fd fd f s -> has_file f s.
Proof.
  intros Hok (i & p & _ & Hp & Hf). unfold has_file. destruct (k_files s !! f) eqn:E; [done|].
  pose proof (ok_open _ _ _ Hok f E). pose proof (refs_in f _ _ _ _ Hp Hf). lia.
Qed.

Lemma hits_open d U s f i p : ok d U s -> k_procs s !! i = Some p -> k_files s !! f = None -> hits f (p_ofile p) = 0.
Proof.
  intros Hok Hp Hf. pose proof (ok_open _ _ _ Hok f Hf) as Hr. pose proof (refs_insert f _ _ _ (pset_ofile [] p) Hp) as Hi.
  cbn in Hi. pose proof (refs_nonneg f (<[i := pset_ofile [] p]> (k_procs s))). pose proof (hits_nonneg f (p_ofile p)). lia.
Qed.

(** One descriptor of process [i] changes from [o] to [o']. *)
Lemma ok_set_slot d U s i p fd o o' :
  ok d U s -> k_procs s !! i = Some p -> p_ofile p !! fd = Some o -> (~ dead p \/ o' = None) ->
  (forall f, o' = Some f -> has_file f s) ->
  ok (fun f => d f + names f o - names f o') U (set_procs (<[i := pset_ofile (<[fd := o']> (p_ofile p)) p]> (k_procs s)) s).
Proof.
  intros Hok Hp Ho Hd Hf. eapply ok_ext; [|apply ok_set_proc; [exact Hok|exact Hp|..]].
  - intros f. cbn. rewrite (hits_insert f _ _ _ _ Ho). lia.
  - cbn. rewrite length_insert. by apply (Forall_lookup_1 _ _ _ _ (ok_len _ _ _ Hok) Hp).
  - intros Hdead. destruct Hd as [Hd| ->]; [done|]. apply Forall_insert; [|done].
    by apply (Forall_lookup_1 _ _ _ _ (ok_dead _ _ _ Hok) Hp).
  - intros Hc. by apply (ok_cur _ _ _ Hok i p).
  - intros f Hnone. cbn. rewrite (hits_insert f _ _ _ _ Ho), (hits_open _ _ _ _ _ _ Hok Hp Hnone).
    pose proof (hits_open _ _ _ _ _ _ Hok Hp Hnone) as Hh. pose proof (names_bound f o).
    assert (names f o' = 0) as ->.
    { destruct o' as [g|]; [|done]. cbn. unfold one. case_decide as E; [|done]. subst g.
      destruct (Hf f eq_refl) as [x Hx]. congruence. }
    assert (names f o = 0); [|lia]. destruct o as [g|]; [|done]. cbn. unfold one. case_decide as E; [|done]. subst g.
    pose proof (hits_in f _ _ Ho). lia.
Qed.

Lemma fdalloc_spec (P : list file -> Prop) (Pr : kstate -> Prop) d U f :
  triple R (fun s => P (k_files s) /\ Pr s /\ ok d U s /\ has_file f s) (fdalloc f) (fun r s =>
    P (k_files s) /\ if r <? 0 then Pr s /\ ok d U s else ok (plus d f (-1)) U s /\ cur_fd (Z.to_nat r) f s).
Proof.
  unfold fdalloc. apply t_myproc. intros i p. destruct (findi no_file (p_ofile p)) as [fd|] eqn:E.
  2: { apply t_ret. by intros s (_ & ? & ? & ? & ?). }
  apply findi_Some in E as [(o & Ho & Hn) _]. destruct o; [done|].
  eapply t_bind with (M := fun _ s => P (k_files s) /\ ok (plus d f (-1)) U s /\ cur_fd fd f s).
  - apply t_upd_myproc. intros s j q ([Hi Hp] & HP & _ & Hok & Hf) Hj Hq.
    assert (j = i) as -> by congruence. assert (q = p) as -> by congruence.
    split; [done|]. split.
    + eapply ok_ext; [|eapply (ok_set_slot _ _ _ _ _ fd None (Some f)); try done].
      * intros g. unfold plus. cbn. unfold one. destruct (decide (g = f)); lia.
      * left. by apply (ok_cur _ _ _ Hok i).
      * by intros g [= <-].
    + exists i, (pset_ofile (<[fd := Some f]> (p_ofile p)) p). cbn.
      rewrite !list_lookup_insert_eq by by eapply lookup_lt_Some. done.
  - intros _. apply t_ret. intros s (? & ? & ?). rewrite (proj2 (Z.ltb_ge _ _)), Nat2Z.id by lia. done.
Qed.

Lemma set_fd_none d U fd f :
  triple R (fun s => ok d U s /\ cur_fd fd f s) (set_fd fd None) (fun _ => ok (plus d f 1) U).
Proof.
  apply t_upd_myproc. intros s i p [Hok (j & q & Hj & Hq & Hf)] Hi Hp.
  assert (j = i) as -> by congruence. assert (q = p) as -> by congruence.
  eapply ok_ext; [|eapply (ok_set_slot _ _ _ _ _ fd (Some f) None); try done; by right].
  intros g. unfold plus. cbn. unfold one. destruct (decide (g = f)); lia.
Qed.

Lemma argfd_spec d U n :
  (forall s, ok d U s -> R s) ->
  triple R (ok d U) (argfd n) (fun o s => ok d U s /\ match o with Some (fd, f) => cur_fd fd f s | None => True end).
Proof.
  intros HR. unfold argfd. apply t_seq; [auto with calmly|auto with calmly|done|]. intros fd.
  destruct (_ || _); [apply t_ret; auto|]. apply t_myproc. intros i p.
  destruct (p_ofile p !! Z.to_nat fd) as [[f|]|] eqn:E; [| |by intros s].
  - apply t_ret. intros s ([Hi Hp] & Hok). split; [done|]. by exists i, p.
  - apply t_ret. by intros s (_ & Hok).
Qed.
End specs.
#[export] Hint Resolve stable_ok stable_and stable_pure stable_has_file stable_cur_fd stable_idle steady_acquire
  steady_release framed_and framed_pure framed_has_file framed_cur_fd framed_idle : calmly.

(** ** The system calls *)

(** The state of the kernel while a call sleeps: the references it holds are accounted for. *)
Definition settled (s : kstate) : Prop := exists d, (forall f, 0 <= d f) /\ ok d [] s.

Section calls.
Context {drv : DiskDriver} {Hdrv : CalmDriver drv} (dv : devsw) {Hdv : CalmDevs dv} {L : Layout} {I : Image}.
Context (d : nat -> Z) (Hd : forall f, 0 <= d f).

Lemma ok_settled s : ok d [] s -> settled s.
Proof. by exists d. Qed.

Lemma ok_plus_settled f s : ok (plus d f 1) [] s -> settled s.
Proof. intros Hok. exists (plus d f 1). split; [|done]. intros g. unfold plus. specialize (Hd g). case_decide; lia. Qed.

(** A reference taken and given back. *)
Lemma ok_cancel U f k s : ok (plus (plus d f k) f (- k)) U s -> ok d U s.
Proof. apply ok_ext. intros g. unfold plus. destruct (decide (g = f)); lia. Qed.
Lemma ok_cancel2 U f g s : ok (plus (plus (plus d f 1) g 1) f (-1)) U s -> ok (plus d g 1) U s.
Proof. apply ok_ext. intros h. unfold plus. destruct (decide (h = f)), (decide (h = g)); lia. Qed.

#[local] Hint Resolve ok_settled ok_plus_settled : calmly.

(** Calm code in the middle of a call. *)
Lemma c_seq {A B} (m : K A) (f : A -> K B) Q :
  calmly m -> (forall a, triple settled (ok d []) (f a) Q) -> triple settled (ok d []) (bind m f) Q.
Proof. intros Hm Hf. apply t_seq; auto with calmly. Qed.

Lemma c_calm {A} (m : K A) : calmly m -> triple settled (ok d []) m (fun _ => ok d []).
Proof. intros Hm. apply t_calm; auto with calmly. Qed.

Lemma sys_dup_spec : triple settled (ok d []) sys_dup (fun _ => ok d []).
Proof.
  unfold sys_dup. eapply t_bind; [apply argfd_spec; auto with calmly|]. intros [[fd f]|]; [|apply t_ret; tauto].
  eapply t_bind.
  - eapply t_pre; [|apply (fdalloc_spec settled (fun _ => True) (fun _ => True) d [] f)].
    intros s [Hok Hf]. do 3 (split; [done|]). by eapply cur_fd_file.
  - intros r. cbn. destruct (r <? 0); [apply t_ret; tauto|]. eapply t_bind.
    + eapply t_pre; [|apply (filedup_spec settled (fun _ => True) (plus d f (-1)) [] f); [auto with calmly|set_solver]].
      tauto.
    + intros g. apply t_ret. intros s (_ & _ & Hok). by apply (ok_cancel [] f (-1)).
Qed.

Lemma sys_close_spec : triple settled (ok d []) sys_close (fun _ => ok d []).
Proof.
  unfold sys_close. eapply t_bind; [apply argfd_spec; auto with calmly|]. intros [[fd f]|]; [|apply t_ret; tauto].
  eapply t_bind; [apply (set_fd_none settled d [] fd f)|]. intros []. eapply t_bind.
  - eapply t_pre; [|apply (fileclose_spec settled (fun _ => True) (plus d f 1) [] f); [auto with calmly|]]; [by intros s ?|].
    intros _ s _ Hok. apply ok_settled. by apply (ok_cancel [] f 1).
  - intros []. apply t_ret. intros s [_ Hok]. by apply (ok_cancel [] f 1).
Qed.

(** *** open *)

Lemma steady_wakeup c : steady (wakeup c).
Proof.
  intros s. pose proof (calmly_wakeup c s) as Hk. unfold wakeup, bind, wakeup1, modify, acquire, release in *.
  destruct (holding LPtable s); [done|]. cbn in *. by destruct (holding LPtable _).
Qed.

Lemma steady_iunlock ip : steady (iunlock ip).
Proof.
  pose proof steady_wakeup. pose proof steady_acquire. pose proof steady_release.
  unfold iunlock, geti, nth_or_fault. apply steady_bind; [steady|]. intros i. destruct (_ || _); [done|].
  apply steady_bind; [done|]. intros _. apply steady_bind; [unfold updi; steady|]. intros _.
  apply steady_bind; [done|]. intros _. done.
Qed.

(** The entry gets its type. *)
Lemma set_type_spec P d' U f t :
  framed P -> t <> FD_NONE -> f ∈ U ->
  triple settled (fun s => P s /\ ok d' U s) (updf f (fset_type t)) (fun _ s => P s /\ ok d' (minus U f) s).
Proof.
  intros [_ HP] Ht HU. apply t_updf. intros s x [HPs Hok] Hx. split; [apply HP; [by rewrite length_insert|done]|].
  eapply ok_ext; [|eapply (ok_set_file _ _ _ _ _ _ _ 0); [exact Hok|exact Hx|cbn; lia| |]].
  - intros g. unfold plus. case_decide; lia.
  - rewrite bool_decide_eq_false_2 by (rewrite elem_of_minus; tauto). cbn.
    pose proof (ok_type _ _ _ Hok f x Hx) as Hty. rewrite bool_decide_eq_true_2 in Hty by done.
    split; [lia|done].
  - intros g Hg. rewrite elem_of_minus. tauto.
Qed.

(** The other fields of an entry. *)
Lemma steady_updf f g : (forall x, same_file x (g x)) -> steady (updf f g).
Proof.
  intros Hg s. unfold updf. destruct (k_files s !! f) as [x|] eqn:E; [|done]. split; cbn; [done| |reflexivity].
  rewrite (alter_insert _ _ x) by done. rewrite <- (list_insert_id (k_files s) f x) at 1 by done.
  apply Forall2_insert; [reflexivity|apply Hg].
Qed.

Lemma c_field {B} P f g (k : unit -> K B) Q :
  (forall x, same_file x (g x)) -> stable P -> triple settled P (k tt) Q -> triple settled P (bind (updf f g) k) Q.
Proof. intros Hg HP Hk. apply t_steady_seq; [by apply steady_updf|done|]. by intros []. Qed.

Lemma open_file_spec ip omode : triple settled (ok d []) (open_file ip omode) (fun _ => ok d []).
Proof.
  unfold open_file. eapply t_bind.
  { eapply t_pre; [|apply (filealloc_spec settled (fun _ => True) d []); auto with calmly]. by intros s ?. }
  intros [f|]; cbn; [|apply t_pre with (P' := ok d []); [tauto|]; apply c_seq; [auto with calmly|]; intros _; by apply t_ret].
  eapply t_bind.
  { eapply t_pre; [|apply (fdalloc_spec settled (fun _ => True) (fun _ => True) (plus d f 1) [f] f)]. tauto. }
  intros r. cbn. destruct (r <? 0).
  - eapply t_bind.
    { eapply t_pre; [|apply (fileclose_spec settled (fun _ => True) (plus d f 1) [f] f); [auto with calmly|set_solver]]. tauto. }
    intros []. apply t_pre with (P' := ok d []); [|apply c_seq; [auto with calmly|]; intros _; by apply t_ret].
    intros s [_ Hok]. apply (ok_cancel _ f 1). unfold minus in Hok. by rewrite filter_cons_False in Hok by tauto.
  - apply t_pre with (P' := fun s => True /\ ok d [f] s).
    { intros s (_ & Hok & _). split; [done|]. by apply (ok_cancel _ f 1). }
    apply t_steady_seq; [apply steady_iunlock|auto with calmly|]. intros _.
    eapply t_bind; [apply (set_type_spec (fun _ => True)); [auto with calmly|done|left]|]. intros [].
    apply t_pre with (P' := ok d []); [intros s [_ Hok]; unfold minus in Hok; by rewrite filter_cons_False in Hok by tauto|].
    do 4 (apply c_field; [by split|auto with calmly|]). by apply t_ret.
Qed.

Lemma steady_keeps {A} (m : K A) : steady m -> calmly m.
Proof. intros Hm s. specialize (Hm s). by destruct (m s). Qed.

Lemma calmly_updf_off f g : calmly (updf f (fun x => fset_off (g x) x)).
Proof. apply steady_keeps, steady_updf. by split. Qed.

Lemma calmly_upd_myproc g : (forall p, same_fds p (g p)) -> calmly (upd_myproc g).
Proof. intros Hg. unfold upd_myproc. calmly. by apply calmly_upd_proc. Qed.
#[local] Hint Resolve calmly_updf_off : calmly.

Lemma calmly_getf f : calmly (getf f).
Proof. unfold getf. calmly. Qed.
Lemma calmly_file_ip x : calmly (file_ip x).
Proof. unfold file_ip. calmly. Qed.
#[local] Hint Resolve calmly_getf calmly_file_ip : calmly.

Lemma calmly_add_nlink ip k : calmly (add_nlink ip k).
Proof. unfold add_nlink. calmly. Qed.
#[local] Hint Resolve calmly_add_nlink : calmly.
Lemma calmly_create_new dp ip name type major minor : calmly (create_new dv dp ip name type major minor).
Proof. unfold create_new. calmly. Qed.
#[local] Hint Resolve calmly_create_new : calmly.
Lemma calmly_create path type major minor : calmly (create dv path type major minor).
Proof. unfold create. calmly. Qed.
#[local] Hint Resolve calmly_create : calmly.

Lemma calmly_write_chunk f ip addr n1 : calmly (write_chunk dv f ip addr n1).
Proof. unfold write_chunk. calmly. Qed.
#[local] Hint Resolve calmly_write_chunk : calmly.
Lemma calmly_filewrite_loop fuel f ip addr i n : calmly (filewrite_loop dv fuel f ip addr i n).
Proof. revert i. induction fuel; cbn [filewrite_loop]; calmly. Qed.
#[local] Hint Resolve calmly_filewrite_loop : calmly.
Lemma calmly_filewrite f addr n : calmly (filewrite dv f addr n).
Proof. unfold filewrite. calmly. Qed.
Lemma calmly_fileread f n : calmly (fileread dv f n).
Proof. unfold fileread. calmly. Qed.
Lemma calmly_filestat f : calmly (filestat f).
Proof. unfold filestat. calmly. Qed.
#[local] Hint Resolve calmly_filewrite calmly_fileread calmly_filestat : calmly.

Lemma calmly_argfd n : calmly (argfd n).
Proof. unfold argfd. calmly. Qed.
#[local] Hint Resolve calmly_argfd : calmly.

(** *** The calls that leave descriptors alone *)

Lemma calmly_sys_read : calmly (sys_read dv).
Proof. unfold sys_read. calmly. Qed.
Lemma calmly_sys_write : calmly (sys_write dv).
Proof. unfold sys_write. calmly. Qed.
Lemma calmly_sys_fstat : calmly sys_fstat.
Proof. unfold sys_fstat, put_stat. calmly. Qed.
Lemma calmly_link_bad ip : calmly (link_bad ip).
Proof. unfold link_bad. calmly. Qed.
Lemma calmly_unlink_bad dp : calmly (unlink_bad dp).
Proof. unfold unlink_bad. calmly. Qed.
Lemma calmly_isdirempty_loop fuel dp off : calmly (isdirempty_loop dv fuel dp off).
Proof. revert off. induction fuel; cbn [isdirempty_loop]; calmly. Qed.
#[local] Hint Resolve calmly_link_bad calmly_unlink_bad calmly_isdirempty_loop : calmly.
Lemma calmly_isdirempty dp : calmly (isdirempty dv dp).
Proof. unfold isdirempty. calmly. Qed.
#[local] Hint Resolve calmly_isdirempty : calmly.
Lemma calmly_sys_link : calmly (sys_link dv).
Proof. unfold sys_link. calmly. Qed.
Lemma calmly_sys_unlink : calmly (sys_unlink dv).
Proof. unfold sys_unlink. calmly. Qed.
Lemma calmly_sys_mkdir : calmly (sys_mkdir dv).
Proof. unfold sys_mkdir. calmly. Qed.
Lemma calmly_sys_mknod : calmly (sys_mknod dv).
Proof. unfold sys_mknod. calmly. Qed.
Lemma calmly_sys_chdir : calmly (sys_chdir dv).
Proof. unfold sys_chdir. calmly. apply calmly_upd_myproc. by split. Qed.

Lemma sys_open_spec : triple settled (ok d []) (sys_open dv) (fun _ => ok d []).
Proof.
  unfold sys_open. apply c_seq; [auto with calmly|]. intros [path|]; [|by apply t_ret].
  apply c_seq; [auto with calmly|]. intros omode. destruct (has omode O_CREATE).
  - do 3 (apply c_seq; [auto with calmly|]; intros ?). destruct a0; [apply open_file_spec|by apply t_ret].
  - apply c_seq; [auto with calmly|]. intros [ip|]; [|by apply t_ret].
    do 2 (apply c_seq; [auto with calmly|]; intros ?). destruct (_ && _); [|apply open_file_spec].
    apply c_seq; [auto with calmly|]. intros _. by apply t_ret.
Qed.

(** *** pipe *)

Lemma ok_U d' U U' s : (forall g, g ∈ U' <-> g ∈ U) -> ok d' U s -> ok d' U' s.
Proof.
  intros HU Hok. split; try apply Hok. intros f x Hx. rewrite (bool_decide_ext _ _ (HU f)). by apply (ok_type _ _ _ Hok).
Qed.

(** Closing an entry that has no type yet. *)
Lemma close_fresh d' U f :
  triple settled (ok d' (f :: U)) (fileclose f) (fun _ => ok (plus d' f (-1)) (minus U f)).
Proof.
  eapply t_mono; [apply (fileclose_spec settled (fun _ => True) d' (f :: U) f); [auto with calmly|set_solver]|by intros s ?|].
  intros ? s [_ Hok]. eapply ok_U; [|exact Hok]. intros g. rewrite !elem_of_minus, ?elem_of_cons, ?elem_of_nil. naive_solver.
Qed.

Lemma pipe_end_spec P d' U f w p :
  framed P -> f ∈ U ->
  triple settled (fun s => P s /\ ok d' U s) (pipe_end f w p) (fun _ s => P s /\ ok d' (minus U f) s).
Proof.
  intros HP HU. unfold pipe_end. eapply t_bind; [by apply set_type_spec|]. intros [].
  do 2 (apply c_field; [by split|destruct HP; auto with calmly|]).
  apply t_steady; [by apply steady_updf|destruct HP; auto with calmly].
Qed.

Lemma pipealloc_spec :
  triple settled (ok d []) pipealloc (fun o s =>
    match o with
    | Some (f0, f1) => (has_file f0 s /\ has_file f1 s) /\ ok (plus (plus d f0 1) f1 1) [] s
    | None => ok d [] s
    end).
Proof.
  unfold pipealloc. eapply t_bind.
  { eapply t_pre; [|apply (filealloc_spec settled (fun _ => True) d []); auto with calmly]. by intros s ?. }
  intros [f0|]; cbn; [|unfold pipealloc_bad; cbn; do 3 (apply t_steady_seq; [steady|auto with calmly|]; intros ?); apply t_ret; tauto].
  eapply t_bind.
  { eapply t_pre; [|apply (filealloc_spec settled (has_file f0) (plus d f0 1) [f0]); auto with calmly]. cbn; tauto. }
  intros [f1|]; cbn.
  2: { apply t_pre with (P' := ok (plus d f0 1) [f0]); [tauto|]. unfold pipealloc_bad. cbn.
       apply t_steady_seq; [steady|auto with calmly|]. intros _. eapply t_bind; [apply close_fresh|]. intros [].
       apply t_pre with (P' := ok d []); [intros s Hok; by apply (ok_cancel _ f0 1)|].
       apply t_steady_seq; [steady|auto with calmly|]. intros _. by apply t_ret. }
  apply t_pre with (P' := fun s => f1 <> f0 /\ (has_file f0 s /\ has_file f1 s) /\ ok (plus (plus d f0 1) f1 1) [f1; f0] s).
  { intros s (? & Hne & ? & ?). split; [set_solver|]. done. }
  apply t_pure. intros Hne. apply t_steady_seq; [apply steady_kalloc|auto with calmly|]. intros p. destruct (p =? 0).
  - unfold pipealloc_bad. cbn. apply t_steady_seq; [steady|auto with calmly|]. intros _.
    eapply t_bind; [eapply t_pre; [|apply (close_fresh (plus (plus d f0 1) f1 1) [f1] f0)]|].
    { intros s [_ Hok]. eapply ok_U; [|exact Hok]. intros g. rewrite !elem_of_cons. naive_solver. }
    intros []. cbn. eapply t_bind; [eapply t_pre; [|apply (close_fresh (plus d f1 1) [] f1)]|].
    { intros s Hok. eapply ok_U; [|apply (ok_cancel2 _ f0); exact Hok]. intros g. rewrite elem_of_minus, !elem_of_cons, elem_of_nil. naive_solver. }
    intros []. apply t_ret. intros s Hok. by apply (ok_cancel _ f1 1).
  - do 3 (apply t_steady_seq; [unfold load_bytes, initlock; steady|auto with calmly|]; intros ?).
    eapply t_bind; [apply pipe_end_spec; [auto with calmly|set_solver]|]. intros [].
    eapply t_bind; [apply (pipe_end_spec (fun s => has_file f0 s /\ has_file f1 s)); [auto with calmly|]|].
    { rewrite elem_of_minus. split; [done|left]. }
    intros []. apply t_ret. intros s [? Hok]. split; [done|]. eapply ok_U; [|exact Hok].
    intros g. rewrite !elem_of_minus, ?elem_of_cons, ?elem_of_nil. naive_solver.
Qed.

Lemma close_typed d' f :
  (forall s, ok (plus d' f (-1)) [] s -> settled s) ->
  triple settled (ok d' []) (fileclose f) (fun _ => ok (plus d' f (-1)) []).
Proof.
  intros HR. eapply t_mono; [apply (fileclose_spec settled (fun _ => True) d' [] f); [auto with calmly|]|by intros s ?|].
  - intros _ s _. apply HR.
  - intros ? s [_ Hok]. exact Hok.
Qed.

Lemma close_both rf wf :
  triple settled (ok (plus (plus d rf 1) wf 1) []) (fileclose rf ;; fileclose wf ;; ret (-1)) (fun _ => ok d []).
Proof.
  eapply t_bind; [apply close_typed; intros s Hok; by eapply ok_plus_settled, ok_cancel2|]. intros [].
  eapply t_bind; [eapply t_pre; [|apply (close_typed (plus d wf 1) wf)]|].
  - intros s Hok. by apply (ok_cancel2 _ rf).
  - intros s Hok. by apply ok_settled, (ok_cancel _ wf 1).
  - intros []. apply t_ret. intros s Hok. by apply (ok_cancel _ wf 1).
Qed.

Lemma sys_pipe_spec : triple settled (ok d []) sys_pipe (fun _ => ok d []).
Proof.
  unfold sys_pipe. apply c_seq; [auto with calmly|]. intros [fd|]; [|by apply t_ret].
  eapply t_bind; [apply pipealloc_spec|]. intros [[rf wf]|]; [|by apply t_ret].
  eapply t_bind.
  { eapply t_pre; [|apply (fdalloc_spec settled (fun F => is_Some (F !! wf)) (fun _ => True) (plus (plus d rf 1) wf 1) [] rf)].
    by intros s ([? ?] & ?). }
  intros fd0. cbn beta. destruct (fd0 <? 0).
  { eapply t_pre; [|apply close_both]. tauto. }
  eapply t_bind.
  { eapply t_pre; [|apply (fdalloc_spec settled (fun _ => True) (cur_fd (Z.to_nat fd0) rf) (plus d wf 1) [] wf)].
    intros s (? & Hok & ?). do 2 (split; [done|]). split; [by apply (ok_cancel2 _ rf)|done]. }
  intros fd1. cbn beta. destruct (fd1 <? 0).
  - eapply t_bind.
    { eapply t_pre; [|apply (set_fd_none settled (plus d wf 1) [] (Z.to_nat fd0) rf)]. tauto. }
    intros []. eapply t_pre; [|apply close_both]. intros s. apply ok_ext. intros g. unfold plus. lia.
  - apply t_pre with (P' := ok d []); [intros s (_ & Hok & _); by apply (ok_cancel _ wf 1)|].
    do 2 (apply c_seq; [auto with calmly|]; intros ?). by apply t_ret.
Qed.

(** *** exit: the loop that closes every descriptor *)

(** The running process has no descriptor below [k]. *)
Definition closed (k : nat) (s : kstate) : Prop :=
  forall i p j o, k_cur s = Some i -> k_procs s !! i = Some p -> (j < k)%nat -> p_ofile p !! j = Some o -> o = None.
Lemma framed_closed k : framed (closed k).
Proof.
  split; [|done]. intros s s' Hc Hcl i p' j o Hi Hp' Hj Ho. rewrite (calm_cur _ _ Hc) in Hi.
  destruct (Forall2_lookup_r _ _ _ _ _ (calm_procs _ _ Hc) Hp') as (p & Hp & E & _). rewrite E in Ho. by eapply Hcl.
Qed.

Lemma close_fd_spec k :
  triple (fun _ => True) (fun s => closed k s /\ ok d [] s) (close_fd k) (fun _ s => closed (S k) s /\ ok d [] s).
Proof.
  unfold close_fd. apply t_myproc. intros i p. destruct (p_ofile p !! k) as [[f|]|] eqn:E; [| |by intros s].
  - eapply t_bind.
    { eapply t_pre; [|apply (fileclose_spec (fun _ => True) (fun s => cur_fd k f s /\ closed k s) d [] f);
        [apply framed_and; [auto with calmly|apply framed_closed]|done]].
      intros s ([Hi Hp] & Hc & Hok). split; [|done]. split; [by exists i, p|done]. }
    intros []. apply t_upd_myproc. intros s j q [[Hf Hcl] Hok] Hj Hq. split.
    + intros i' p' j' o' Hi' Hp' Hj' Ho'. cbn in Hi', Hp'. assert (i' = j) as -> by congruence.
      rewrite list_lookup_insert_eq in Hp' by by eapply lookup_lt_Some. injection Hp' as <-. cbn in Ho'.
      destruct (decide (j' = k)) as [->|Hne].
      * rewrite list_lookup_insert_eq in Ho'; [congruence|]. apply lookup_lt_Some in Ho'. by rewrite length_insert in Ho'.
      * rewrite list_lookup_insert_ne in Ho' by done. eapply (Hcl j q j'); eauto. lia.
    + destruct Hf as (i' & p' & Hi' & Hp' & Hf). assert (i' = j) as -> by congruence. assert (p' = q) as -> by congruence.
      eapply ok_ext; [|eapply (ok_set_slot _ _ _ _ _ k (Some f) None); try done; by right].
      intros g. unfold plus. cbn. unfold one. destruct (decide (g = f)); lia.
  - apply t_ret. intros s ([Hi Hp] & Hcl & Hok). split; [|done]. intros i' p' j' o' Hi' Hp' Hj' Ho'.
    assert (i' = i) as -> by congruence. assert (p' = p) as -> by congruence.
    destruct (decide (j' = k)) as [->|]; [congruence|]. eapply (Hcl i p j'); eauto. lia.
Qed.

Lemma close_all_spec n k :
  triple (fun _ => True) (fun s => closed k s /\ ok d [] s) (foreach close_fd (seq k n)) (fun _ s => closed (k + n) s /\ ok d [] s).
Proof.
  revert k. induction n as [|n IH]; intros k; cbn.
  - apply t_ret. by rewrite Nat.add_0_r.
  - eapply t_bind; [apply close_fd_spec|]. intros []. rewrite Nat.add_succ_r, <- Nat.add_succ_l. apply IH.
Qed.

(** *** fork *)

(** Process [np] is being made: it is neither dead nor running, and its descriptors from [k] on are free. *)
Definition spawn (k np : nat) (s : kstate) : Prop :=
  k_cur s <> Some np /\ exists q, k_procs s !! np = Some q /\ ~ dead q
    /\ forall j o, (k <= j)%nat -> p_ofile q !! j = Some o -> o = None.

Lemma framed_spawn k np : framed (spawn k np).
Proof.
  split; [|done]. intros s s' Hc (Hn & q & Hq & Hd' & Hj). split; [by rewrite (calm_cur _ _ Hc)|].
  destruct (Forall2_lookup_l _ _ _ _ _ (calm_procs _ _ Hc) Hq) as (q' & Hq' & E & Hdd). exists q'. rewrite E. tauto.
Qed.
Lemma stable_spawn k np : stable (spawn k np).
Proof. apply framed_spawn. Qed.
#[local] Hint Resolve framed_spawn stable_spawn : calmly.
#[local] Hint Extern 2 (calmly (upd_proc _ _)) =>
  apply calmly_upd_proc; intros ?; split; [reflexivity|first [done|by intros [?|?]]] : calmly.

Lemma p_seq {A B} P (m : K A) (f : A -> K B) Q :
  stable P -> calmly m -> (forall a, triple settled (fun s => P s /\ ok d [] s) (f a) Q) ->
  triple settled (fun s => P s /\ ok d [] s) (bind m f) Q.
Proof. intros HP Hm Hf. apply t_seq; [done|auto with calmly| |done]. intros s [_ Hok]. by apply ok_settled. Qed.

Lemma retire_spec i : triple settled (fun s => spawn 0 i s /\ ok d [] s) (upd_proc i (pset_state UNUSED)) (fun _ => ok d []).
Proof.
  apply t_upd_proc. intros s p [(Hn & q & Hq & _ & Hj) Hok] Hp. assert (q = p) as -> by congruence.
  eapply ok_ext; [|apply ok_set_proc; [exact Hok|exact Hp|..]].
  - intros f. cbn. lia.
  - by apply (Forall_lookup_1 _ _ _ _ (ok_len _ _ _ Hok) Hp).
  - intros _. apply Forall_lookup. intros j o. apply Hj. lia.
  - by intros ?.
  - intros f Hf. exact (hits_open _ _ _ _ _ _ Hok Hp Hf).
Qed.

Lemma allocproc_spec :
  triple settled (ok d []) allocproc (fun o s => match o with Some i => spawn 0 i s /\ ok d [] s | None => ok d [] s end).
Proof.
  unfold allocproc. apply c_seq; [auto with calmly|]. intros _. apply t_gets. intros ps.
  destruct (findi unused ps) as [i|] eqn:E.
  2: { apply t_pre with (P' := ok d []); [tauto|]. apply c_seq; [auto with calmly|]. intros _. by apply t_ret. }
  eapply t_bind with (M := fun _ s => spawn 0 i s /\ ok d [] s).
  - apply t_upd_proc. intros s p [-> Hok] Hp. apply findi_Some in E as [(y & Hy & Hu) _].
    assert (y = p) as -> by congruence. apply bool_decide_eq_true_1 in Hu.
    assert (dead p) as Hdp by by left. pose proof (Forall_lookup_1 _ _ _ _ (ok_dead _ _ _ Hok) Hp Hdp) as Hnf. split.
    + split; [intros Hc; by apply (ok_cur _ _ _ Hok i p)|]. exists (pset_state EMBRYO p). cbn.
      rewrite list_lookup_insert_eq by by eapply lookup_lt_Some. split; [done|]. split; [by intros [?|?]|].
      intros j o _. by apply (Forall_lookup_1 _ _ _ _ Hnf).
    + eapply ok_calm; [|exact Hok]. apply calm_set_procs. rewrite <- (list_insert_id (k_procs s) i p) at 1 by done.
      apply Forall2_insert; [reflexivity|]. split; [done|]. by intros [?|?].
  - intros _. do 5 (apply p_seq; [auto with calmly|first [solve [auto with calmly]|calmly]|]; intros ?).
    apply p_seq; [auto with calmly..|]. intros k. apply p_seq; [auto with calmly..|]. intros _. destruct (k =? 0).
    + eapply t_bind; [apply retire_spec|]. intros []. by apply t_ret.
    + apply p_seq; [auto with calmly|unfold setup_kstack; calmly|]. intros _. by apply t_ret.
Qed.

(** One descriptor copied to the child. *)
Lemma dup_ofile_spec np k :
  (k < NOFILE)%nat ->
  triple settled (fun s => spawn k np s /\ ok d [] s) (dup_ofile np k) (fun _ s => spawn (S k) np s /\ ok d [] s).
Proof.
  intros Hk. unfold dup_ofile. apply t_myproc. intros i p. destruct (p_ofile p !! k) as [[f|]|] eqn:E; [| |by intros s].
  - eapply t_bind.
    { eapply t_pre; [|apply (filedup_spec settled (fun s => has_file f s /\ spawn k np s) d [] f); [auto with calmly|set_solver]].
      intros s ([Hi Hp] & Hs & Hok). split; [|done]. split; [|done]. eapply cur_fd_file; [exact Hok|]. by exists i, p. }
    intros g. cbn beta. apply t_pure. intros ->. apply t_upd_proc.
    intros s q [[Hf (Hn & q' & Hq' & Hdq & Hj)] Hok] Hq. assert (q' = q) as -> by congruence.
    rewrite <- (Forall_lookup_1 _ _ _ _ (ok_len _ _ _ Hok) Hq) in Hk.
    apply lookup_lt_is_Some_2 in Hk as [o Ho]. assert (o = None) as -> by (by apply (Hj k)). split.
    + split; [done|]. exists (pset_ofile (<[k := Some f]> (p_ofile q)) q). cbn.
      rewrite list_lookup_insert_eq by by eapply lookup_lt_Some. split; [done|]. split; [done|].
      intros j o' Hj'. rewrite list_lookup_insert_ne by lia. apply Hj. lia.
    + apply (ok_cancel _ f 1). eapply ok_ext; [|eapply (ok_set_slot _ _ _ _ _ k None (Some f)); try done].
      * intros g. unfold plus. cbn. unfold one. destruct (decide (g = f)); lia.
      * by left.
      * by intros g [= <-].
  - apply t_ret. intros s (_ & (Hn & q & Hq & Hdq & Hj) & Hok). split; [|done]. split; [done|]. exists q.
    do 2 (split; [done|]). intros j o Hj'. apply Hj. lia.
Qed.

Lemma dup_all_spec np n k :
  (k + n <= NOFILE)%nat ->
  triple settled (fun s => spawn k np s /\ ok d [] s) (foreach (dup_ofile np) (seq k n)) (fun _ s => spawn (k + n) np s /\ ok d [] s).
Proof.
  revert k. induction n as [|n IH]; intros k Hk; cbn.
  - apply t_ret. by rewrite Nat.add_0_r.
  - eapply t_bind; [apply dup_ofile_spec; lia|]. intros []. rewrite Nat.add_succ_r, <- Nat.add_succ_l. apply IH. lia.
Qed.

Lemma fork_spec : triple settled (ok d []) fork (fun _ => ok d []).
Proof.
  unfold fork. eapply t_bind; [apply allocproc_spec|]. intros [np|]; [|by apply t_ret].
  do 3 (apply p_seq; [auto with calmly..|]; intros ?). destruct (a0 =? 0).
  - do 3 (apply p_seq; [auto with calmly..|]; intros ?). eapply t_bind; [apply retire_spec|]. intros []. by apply t_ret.
  - do 6 (apply p_seq; [auto with calmly..|]; intros ?). eapply t_bind; [by apply (dup_all_spec np NOFILE 0)|]. intros [].
    apply t_pre with (P' := ok d []); [tauto|]. apply c_seq; [calmly|]. intros c.
    do 4 (apply c_seq; [first [solve [auto with calmly]|unfold set_name; calmly]|]; intros ?). by apply t_ret.
Qed.

(** *** wait *)

Lemma reap_spec j : triple settled (fun s => idle j s /\ ok d [] s) (reap j) (fun _ => ok d []).
Proof.
  unfold reap. do 4 (apply p_seq; [auto with calmly..|]; intros ?).
  eapply t_bind with (M := fun _ => ok d []).
  - apply t_upd_proc. intros s p [[(q & Hq & Hnf) Hn] Hok] Hp. assert (q = p) as -> by congruence.
    eapply ok_ext; [|apply ok_set_proc; [exact Hok|exact Hp|..]].
    + intros f. cbn. lia.
    + by apply (Forall_lookup_1 _ _ _ _ (ok_len _ _ _ Hok) Hp).
    + done.
    + by intros ?.
    + intros f Hf. exact (hits_open _ _ _ _ _ _ Hok Hp Hf).
  - intros _. do 5 (apply c_seq; [auto with calmly|]; intros ?). by apply t_ret.
Qed.

Lemma wait_scan_spec me l havekids : triple settled (ok d []) (wait_scan me l havekids) (fun _ => ok d []).
Proof.
  revert havekids. induction l as [|j l IH]; intros havekids; cbn; [by apply t_ret|].
  eapply t_bind with (M := fun p s => k_procs s !! j = Some p /\ ok d [] s).
  { intros s Hok. unfold get_proc, nth_or_fault. destruct (k_procs s !! j) eqn:E; [done|done]. }
  intros p. destruct (negb _); [eapply t_pre; [|apply IH]; tauto|].
  destruct (bool_decide (p_state p = ZOMBIE)) eqn:E; [|eapply t_pre; [|apply IH]; tauto].
  apply bool_decide_eq_true_1 in E. eapply t_bind; [eapply t_pre; [|apply (reap_spec j)]|intros pid; by apply t_ret].
  intros s [Hp Hok]. split; [|done]. assert (dead p) as Hdp by by right. split.
  - exists p. split; [done|]. by apply (Forall_lookup_1 _ _ _ _ (ok_dead _ _ _ Hok) Hp).
  - intros Hc. by apply (ok_cur _ _ _ Hok j p).
Qed.

Lemma wait_spec : triple settled (ok d []) wait (fun _ => ok d []).
Proof.
  unfold wait. apply c_seq; [auto with calmly|]. intros _. generalize 2%nat as fuel. induction fuel as [|fuel IH]; cbn [wait_loop]; [by intros s|].
  apply c_seq; [auto with calmly|]. intros me. eapply t_bind; [apply wait_scan_spec|]. intros [[pid|] havekids]; [by apply t_ret|].
  apply c_seq; [auto with calmly|]. intros p. destruct (_ || _); apply c_seq; auto with calmly; intros _; by apply t_ret.
Qed.

(** ** The theorem *)

Inductive fdcall :=
| CDup | CClose | COpen | CPipe | CFork | CWait | CRead | CWrite | CFstat | CLink | CUnlink | CMkdir | CMknod | CChdir.

Definition run_call (c : fdcall) : K Z :=
  match c with
  | CDup => sys_dup | CClose => sys_close | COpen => sys_open dv | CPipe => sys_pipe | CFork => fork | CWait => wait
  | CRead => sys_read dv | CWrite => sys_write dv | CFstat => sys_fstat | CLink => sys_link dv
  | CUnlink => sys_unlink dv | CMkdir => sys_mkdir dv | CMknod => sys_mknod dv | CChdir => sys_chdir dv
  end.

Lemma run_call_spec c : triple settled (ok d []) (run_call c) (fun _ => ok d []).
Proof.
  destruct c; cbn.
  - apply sys_dup_spec.
  - apply sys_close_spec.
  - apply sys_open_spec.
  - apply sys_pipe_spec.
  - apply fork_spec.
  - apply wait_spec.
  - apply c_calm, calmly_sys_read.
  - apply c_calm, calmly_sys_write.
  - apply c_calm, calmly_sys_fstat.
  - apply c_calm, calmly_sys_link.
  - apply c_calm, calmly_sys_unlink.
  - apply c_calm, calmly_sys_mkdir.
  - apply c_calm, calmly_sys_mknod.
  - apply c_calm, calmly_sys_chdir.
Qed.

(** An open descriptor names an entry in use. *)
Lemma cur_fd_open s fd f : ok d [] s -> cur_fd fd f s -> exists x, k_files s !! f = Some x /\ 1 <= f_ref x /\ f_type x <> FD_NONE.
Proof.
  intros Hok Hf. destruct (cur_fd_file _ _ _ _ _ Hok Hf) as [x Hx]. exists x. split; [done|].
  destruct Hf as (i & p & _ & Hp & Hk). pose proof (refs_in f _ _ _ _ Hp Hk). pose proof (ok_ref _ _ _ Hok f x Hx).
  pose proof (ok_type _ _ _ Hok f x Hx) as Ht. cbn in Ht. specialize (Hd f). split; [lia|]. intros E. apply Ht in E. lia.
Qed.

Lemma sys_dup_runs s fd f i p k :
  ok d [] s -> argfd 0 s = Ret (Some (fd, f)) s -> cur_fd fd f s -> LFtable ∉ k_held s ->
  k_cur s = Some i -> k_procs s !! i = Some p -> findi no_file (p_ofile p) = Some k ->
  runs sys_dup s (fun r s' => r = Z.of_nat k /\ cur_fd k f s').
Proof.
  intros Hok Harg Hf Hh Hi Hp Hk. destruct (cur_fd_open s fd f Hok Hf) as (x & Hx & Hr & _).
  assert (i < length (k_procs s))%nat by by eapply lookup_lt_Some.
  eapply runs_eq; [exact Harg|]. cbn beta iota. eapply runs_eq.
  { unfold fdalloc, bind, myproc, get_proc, cur_proc, nth_or_fault. unfold bind. rewrite Hi, Hp, Hk.
    unfold set_fd, upd_myproc, bind, cur_proc, upd_proc. by rewrite Hi, Hp. }
  rewrite (proj2 (Z.ltb_ge _ _)) by lia. eapply runs_eq.
  { unfold filedup, bind. rewrite acquire_free by done. unfold getf, nth_or_fault, updf.
    cbn [k_files set_held set_procs set_files k_held]. rewrite Hx, (proj2 (Z.ltb_ge _ _)) by lia.
    cbn [k_files set_held set_procs set_files k_held]. rewrite Hx. by rewrite (release_top _ (k_held s)) by done. }
  apply runs_ret. split; [done|]. exists i, (pset_ofile (<[k := Some f]> (p_ofile p)) p). cbn.
  rewrite list_lookup_insert_eq by done. split; [done|]. split; [done|]. cbn.
  apply list_lookup_insert_eq. apply findi_Some in Hk as [(o & Ho & _) _]. by eapply lookup_lt_Some.
Qed.
End calls.

(** C12. The type of the kernel's open files, kept by every system call that can reach them. In [ok d [] s], each
    entry of the file table has as many references as descriptors of all processes name it, plus the [d f] that
    calls in progress hold; an entry has a type exactly when it has references; every descriptor names an entry;
    unused and zombie processes have no descriptors. From such a state dup, close, open, pipe, fork, wait,
    read, write, fstat, link, unlink, mkdir, mknod and chdir return in such a state, and give up the CPU only
    with their references accounted for; the loop of exit leaves such a state and no descriptor of the process.
    So a descriptor never names a free entry: the panics of filedup, fileclose, fileread and filewrite are
    out of reach, and dup of an open descriptor succeeds with the lowest free one. *)
Theorem descriptors_typed {drv : DiskDriver} {Hdrv : CalmDriver drv} dv {Hdv : CalmDevs dv} {L : Layout} {I : Image} d s :
  (forall f, 0 <= d f) -> ok d [] s ->
  (forall c, match run_call dv c s with Ret _ s' => ok d [] s' | Sched s' => settled s' | _ => True end)
  /\ match foreach close_fd (seq 0 NOFILE) s with Ret _ s' => closed NOFILE s' /\ ok d [] s' | _ => True end
  /\ (forall fd f, cur_fd fd f s -> exists x, k_files s !! f = Some x /\ 1 <= f_ref x /\ f_type x <> FD_NONE)
  /\ (forall fd f i p k, argfd 0 s = Ret (Some (fd, f)) s -> cur_fd fd f s -> LFtable ∉ k_held s ->
       k_cur s = Some i -> k_procs s !! i = Some p -> findi no_file (p_ofile p) = Some k ->
       runs sys_dup s (fun r s' => r = Z.of_nat k /\ cur_fd k f s')).
Proof.
  intros Hd Hok. split; [|split; [|split]].
  - intros c. by apply run_call_spec.
  - apply (close_all_spec d NOFILE 0 s). split; [|done]. intros i p j o _ _ Hj. lia.
  - intros fd f. by apply cur_fd_open with d.
  - intros fd f i p k. by apply sys_dup_runs with d.
Qed.

(** *** A process with one open file *)

Definition fd_image : Image := {| trapret := 0; forkret_pc := 0; initcode := []; kpdpt_page := 0; cpu_local := 0 |}.
Definition fd_layout : Layout := {| kend := 0 |}.
Definition fd_devs : devsw := Devsw (fun _ => None) (fun _ => None).
Definition fd_proc : proc :=
  Proc 4096 0 0 RUNNING 1 None demo_base 0 None 0 (Some 0%nat :: replicate 15 None) None (replicate 16 0) 1 0 1.
Definition fd_state : kstate :=
  set_cur (Some 0%nat) (set_procs (fd_proc :: replicate 63 zero_proc)
    (set_files (File FD_INODE 1 true false 0 (Some 0%nat) 0 :: replicate 99 zero_file)
      (set_kmem (Kmem 0 0 (map_seqZ demo_base (replicate 176 0))) (boot_state (Disk ∅ 0 []))))).

#[local] Instance fd_devs_calm : CalmDevs fd_devs.
Proof. by split. Qed.

Lemma fd_state_ok : ok (fun _ => 0) [] fd_state.
Proof.
  assert (forall f n, refs f (replicate n zero_proc) = 0) as Hz.
  { intros f n. induction n as [|n IH]; [done|]. cbn [replicate refs]. rewrite IH. done. }
  assert (forall f, refs f (k_procs fd_state) = one f 0) as Hr.
  { intros f. unfold fd_state. cbn [k_procs set_cur set_procs refs]. rewrite Hz. cbn. lia. }
  split.
  - intros [|f] x Hx; rewrite Hr; [injection Hx as <-; done|].
    change (replicate 99 zero_file !! f = Some x) in Hx. apply lookup_replicate in Hx as [-> _]. done.
  - intros [|f]; [done|]. by rewrite Hr.
  - intros [|f] x Hx; [injection Hx as <-; cbn; done|].
    change (replicate 99 zero_file !! f = Some x) in Hx. apply lookup_replicate in Hx as [-> _]. done.
  - constructor; [done|]. by apply Forall_replicate.
  - constructor; [by intros [?|?]|]. apply Forall_replicate. intros _. by apply (Forall_replicate (fun o : option nat => o = None)).
  - intros i p [= <-] [= <-]. by intros [?|?].
Qed.

Lemma fd_state_arg : argfd 0 fd_state = Ret (Some (0%nat, 0%nat)) fd_state.
Proof.
  assert (word (kmem_get fd_state) (demo_base + TF_RDI) = Some 0) as Hw by (vm_compute; reflexivity).
  unfold argfd, argint, fetcharg, myproc, get_proc, cur_proc, nth_or_fault, bind. cbn [k_cur fd_state set_cur].
  unfold load64. change (k_procs fd_state !! 0%nat) with (Some fd_proc). cbn [tf_arg lookup list_lookup p_tf fd_proc].
  rewrite Hw. reflexivity.
Qed.

Lemma descriptors_typed_witness :
  let _ := fd_image in let _ := fd_layout in
  runs sys_dup fd_state (fun r s' => r = 1 /\ cur_fd 1 0 s' /\ ok (fun _ => 0) [] s').
Proof.
  cbv zeta. pose proof fd_state_ok as Hok.
  destruct (descriptors_typed (drv := memide) fd_devs (L := fd_layout) (I := fd_image) (fun _ => 0) fd_state) as (H1 & _ & _ & H4);
    [intros _; lia|exact Hok|].
  destruct (H4 0%nat 0%nat 0%nat fd_proc 1%nat) as (r & s' & Hrun & -> & Hf).
  - exact fd_state_arg.
  - by exists 0%nat, fd_proc.
  - apply not_elem_of_nil.
  - reflexivity.
  - reflexivity.
  - reflexivity.
  - exists 1, s'. split; [exact Hrun|]. split; [done|]. split; [done|].
    specialize (H1 CDup). cbn in H1. by rewrite Hrun in H1.
Defined.
