(* ===== verification/Port.v ===== *)
(** * I/O ports (include/x86.h)

    A device is a function from the accesses made so far and a port to the value read there, the
    class [Devices]: the development assumes nothing else of the hardware. A memory-mapped
    register is a port with its address. *)

From S2P Require Import Prelude Types Monad Sched.

(** What is read from a port after a history of accesses, latest first. *)
Class Devices := { answer : list ioev -> Z -> Z }.

Definition upd_dev (f : devs -> devs) : K unit := modify (fun s => set_dev (f (k_dev s)) s).

Section code.
Context {D : Devices}.

(** An access of [n] bits. *)
Definition port_in (wrap : Z -> Z) (port : Z) : K Z :=
  fun s =>
    let v := wrap (answer (v_io (k_dev s)) port) in
    Ret v (set_dev (vset_io (IoIn port v :: v_io (k_dev s)) (k_dev s)) s).
Definition port_out (wrap : Z -> Z) (port v : Z) : K unit :=
  upd_dev (fun d => vset_io (IoOut port (wrap v) :: v_io d) d).

Definition inb : Z -> K Z := port_in u8.
Definition outb : Z -> Z -> K unit := port_out u8.

Fixpoint insl (port : Z) (cnt : nat) : K (list Z) :=
  match cnt with
  | O => ret []
  | S cnt => x <- port_in u32 port ;; l <- insl port cnt ;; ret (x :: l)
  end.
Definition outsl (port : Z) (words : list Z) : K unit := foreach (port_out u32 port) words.

End code.
