(* ===== verification/Print.v ===== *)
(** * Console output (kernel/console.c and kernel/uart.c, the output half) *)

From Stdlib Require Import Ascii String.
From S2P Require Import Prelude Types Monad Sched Port.

(** The bytes of a C string literal. *)
Definition bytes_of (s : string) : list Z := map (fun c => Z.of_N (N_of_ascii c)) (list_ascii_of_string s).

Definition upd_cons (f : console -> console) : K unit := upd_dev (fun d => vset_cons (f (v_cons d)) d).
Definition get_cons : K console := gets (fun s => v_cons (k_dev s)).

Section code.
Context {D : Devices}.

(** ** kernel/uart.c *)

Definition COM1 : Z := 1016.

(** [for(i = 0; i < 128 && !(inb(COM1+5) & 0x20); i++)]; [microdelay] does nothing. *)
Fixpoint uart_wait (n : nat) : K unit :=
  match n with
  | O => ret tt
  | S n => st <- inb (COM1 + 5) ;; if has st 32 then ret tt else uart_wait n
  end.

Definition uartputc (c : Z) : K unit :=
  x <- get_cons ;;
  if c_uart x =? 0 then ret tt else
  uart_wait 128 ;;
  outb COM1 c.

Definition uartearlyinit : K unit :=
  outb (COM1 + 2) 0 ;;
  outb (COM1 + 3) 128 ;;
  outb (COM1 + 0) (115200 / 9600) ;;
  outb (COM1 + 1) 0 ;;
  outb (COM1 + 3) 3 ;;
  outb (COM1 + 4) 0 ;;
  outb (COM1 + 1) 1 ;;
  st <- inb (COM1 + 5) ;;
  if st =? 255 then ret tt else
  upd_cons (cset_uart 1) ;;
  foreach uartputc (bytes_of "xv6..." ++ [10]).

(** ** kernel/console.c *)

Definition BACKSPACE : Z := 256.
Definition CRTPORT : Z := 980.

(** [crt[pos] = v]. *)
Definition crt_put (pos v : Z) : K unit :=
  x <- get_cons ;;
  if (0 <=? pos) && (pos <? Z.of_nat (length (c_crt x)))
  then upd_cons (cset_crt (<[Z.to_nat pos := v]> (c_crt x))) else fault.

(** The scroll: rows 1 to 23 move up, the rest of row 23 from [pos] is cleared. *)
Definition scroll_up (pos : Z) (crt : list Z) : list Z :=
  let crt := splice crt 0 (take (23 * 80) (drop 80 crt)) in
  splice crt (Z.to_nat pos) (replicate (Z.to_nat (24 * 80 - pos)) 0).

Definition cgaputc (c : Z) : K unit :=
  outb CRTPORT 14 ;;
  hi <- inb (CRTPORT + 1) ;;
  outb CRTPORT 15 ;;
  lo <- inb (CRTPORT + 1) ;;
  let pos := Z.lor (Z.shiftl hi 8) lo in
  pos <- (if c =? 10 then ret (pos + (80 - pos mod 80))
          else if c =? BACKSPACE then ret (if 0 <? pos then pos - 1 else pos)
          else crt_put pos (Z.lor (Z.land c 255) 1792) ;; ret (pos + 1)) ;;
  pos <- (if 24 <=? pos / 80 then
            let pos := pos - 80 in
            if 24 * 80 <? pos then fault else
            upd_cons (fun x => cset_crt (scroll_up pos (c_crt x)) x) ;; ret pos
          else ret pos) ;;
  outb CRTPORT 14 ;;
  outb (CRTPORT + 1) (Z.shiftr pos 8) ;;
  outb CRTPORT 15 ;;
  outb (CRTPORT + 1) pos ;;
  crt_put pos (Z.lor 32 1792).

(** After a panic the CPU stops here for ever. *)
Definition consputc (c : Z) : K unit :=
  x <- get_cons ;;
  if negb (c_panicked x =? 0) then nofuel else
  (if c =? BACKSPACE then uartputc 8 ;; uartputc 32 ;; uartputc 8 else uartputc c) ;;
  cgaputc c.

Definition digits : list Z := bytes_of "0123456789abcdef".
Definition digit (x : Z) : Z := nth (Z.to_nat x) digits 0.

(** [buf[i++] = c], where [buf] has room for 16 and the first [i] are stored. *)
Definition buf_put (buf : list Z) (c : Z) : option (list Z) :=
  if (length buf <? 16)%nat then Some (buf ++ [c]) else None.

(** [do { buf[i++] = digits[x % base]; } while((x /= base) != 0)]; [buf] is full before the fuel is used up. *)
Fixpoint digits_loop (fuel : nat) (dg : Z -> Z) (base x : Z) (buf : list Z) : option (list Z) :=
  match fuel with
  | O => None
  | S fuel =>
      buf ← buf_put buf (dg (x mod base));
      if x / base =? 0 then Some buf else digits_loop fuel dg base (x / base) buf
  end.

(** The contents of [buf], least significant digit first; [None] when they do not fit. [xx] is an [int];
    [x = -xx] and [x = xx] are conversions to [uint]. *)
Definition printint_buf (xx base : Z) (sign : bool) : option (list Z) :=
  if sign && (xx <? 0) then buf ← digits_loop 17 digit base (u32 (- xx)) []; buf_put buf 45
  else digits_loop 17 digit base (u32 xx) [].

Definition printint (xx base : Z) (sign : bool) : K unit :=
  match printint_buf xx base sign with
  | Some buf => foreach consputc (rev buf)
  | None => fault
  end.

Fixpoint printptr_buf (n : nat) (x : Z) : list Z :=
  match n with
  | O => []
  | S n => digit (Z.shiftr x 60) :: printptr_buf n (u64 (Z.shiftl x 4))
  end.
Definition printptr (x : Z) : K unit := foreach consputc (printptr_buf 16 x).

(** The variable arguments of [cprintf]: an [int], a pointer-sized integer, a string. *)
Inductive varg := VInt (x : Z) | VPtr (x : Z) | VStr (s : option (list Z)).

Definition null_str : list Z := bytes_of "(null)".

(** The directive [%c]: what is left of the arguments. A missing argument or one of another type is
    undefined in C. *)
Definition directive (c : Z) (ap : list varg) : K (list varg) :=
  if c =? 100 then match ap with VInt x :: ap => printint x 10 true ;; ret ap | _ => fault end
  else if c =? 120 then match ap with VInt x :: ap => printint x 16 false ;; ret ap | _ => fault end
  else if c =? 112 then match ap with VPtr x :: ap => printptr x ;; ret ap | _ => fault end
  else if c =? 115 then
    match ap with
    | VStr o :: ap => foreach consputc (match o with Some s => s | None => null_str end) ;; ret ap
    | _ => fault
    end
  else if c =? 37 then consputc 37 ;; ret ap
  else consputc 37 ;; consputc c ;; ret ap.

Fixpoint cprintf_loop (fmt : list Z) (ap : list varg) : K unit :=
  match fmt with
  | [] => ret tt
  | c :: fmt =>
      if c =? 37 then
        match fmt with
        | [] => ret tt
        | c :: fmt => ap <- directive c ap ;; cprintf_loop fmt ap
        end
      else consputc c ;; cprintf_loop fmt ap
  end.

Definition cprintf (fmt : string) (ap : list varg) : K unit :=
  x <- get_cons ;;
  let locking := negb (c_locking x =? 0) in
  (if locking then acquire LCons else ret tt) ;;
  cprintf_loop (bytes_of fmt) ap ;;
  (if locking then release LCons else ret tt).
End code.
