(* ===== verification/Irq.v ===== *)
(** * Interrupt controllers (kernel/picirq.c, timer.c, ioapic.c, lapic.c) *)

From S2P Require Import Prelude Types Monad Sched Mem Kalloc Bio Fs Vm Port Print.

(** include/traps.h. *)
Definition T_SYSCALL : Z := 64.
Definition T_IRQ0 : Z := 32.
Definition IRQ_TIMER : Z := 0.
Definition IRQ_KBD : Z := 1.
Definition IRQ_COM1 : Z := 4.
Definition IRQ_IDE : Z := 14.
Definition IRQ_ERROR : Z := 19.
Definition IRQ_SPURIOUS : Z := 31.

(** Register indices and bits of the local APIC. *)
Module Lapic.
Definition ID : Z := 32 / 4.
Definition VER : Z := 48 / 4.
Definition TPR : Z := 128 / 4.
Definition EOI : Z := 176 / 4.
Definition SVR : Z := 240 / 4.
Definition ENABLE : Z := 256.
Definition ESR : Z := 640 / 4.
Definition ICRLO : Z := 768 / 4.
Definition INIT : Z := 1280.
Definition STARTUP : Z := 1536.
Definition DELIVS : Z := 4096.
Definition ASSERT : Z := 16384.
Definition LEVEL : Z := 32768.
Definition BCAST : Z := 524288.
Definition ICRHI : Z := 784 / 4.
Definition TIMER : Z := 800 / 4.
Definition X1 : Z := 11.
Definition PERIODIC : Z := 131072.
Definition PCINT : Z := 832 / 4.
Definition LINT0 : Z := 848 / 4.
Definition LINT1 : Z := 864 / 4.
Definition ERROR : Z := 880 / 4.
Definition MASKED : Z := 65536.
Definition TICR : Z := 896 / 4.
Definition TDCR : Z := 992 / 4.
End Lapic.

Section code.
Context {D : Devices}.

(** ** The 8259A (kernel/picirq.c) *)

Definition IO_PIC1 : Z := 32.
Definition IO_PIC2 : Z := 160.
Definition IRQ_SLAVE : Z := 2.

Definition picsetmask (mask : Z) : K unit :=
  upd_dev (vset_irqmask mask) ;;
  outb (IO_PIC1 + 1) mask ;;
  outb (IO_PIC2 + 1) (Z.shiftr mask 8).

Definition picenable (irq : Z) : K unit :=
  d <- gets k_dev ;;
  picsetmask (u16 (Z.land (v_irqmask d) (Z.lnot (Z.shiftl 1 irq)))).

Definition picinit : K unit :=
  outb (IO_PIC1 + 1) 255 ;;
  outb (IO_PIC2 + 1) 255 ;;
  outb IO_PIC1 17 ;;
  outb (IO_PIC1 + 1) T_IRQ0 ;;
  outb (IO_PIC1 + 1) (Z.shiftl 1 IRQ_SLAVE) ;;
  outb (IO_PIC1 + 1) 3 ;;
  outb IO_PIC2 17 ;;
  outb (IO_PIC2 + 1) (T_IRQ0 + 8) ;;
  outb (IO_PIC2 + 1) IRQ_SLAVE ;;
  outb (IO_PIC2 + 1) 3 ;;
  outb IO_PIC1 104 ;;
  outb IO_PIC1 10 ;;
  outb IO_PIC2 104 ;;
  outb IO_PIC2 10 ;;
  d <- gets k_dev ;;
  if negb (v_irqmask d =? 65535) then picsetmask (v_irqmask d) else ret tt.

(** ** The 8253 timer (kernel/timer.c) *)

Definition IO_TIMER1 : Z := 64.
Definition TIMER_FREQ : Z := 1193182.
Definition TIMER_DIV (x : Z) : Z := (TIMER_FREQ + x / 2) / x.
Definition TIMER_MODE : Z := IO_TIMER1 + 3.
Definition TIMER_SEL0 : Z := 0.
Definition TIMER_RATEGEN : Z := 4.
Definition TIMER_16BIT : Z := 48.

Definition timerinit : K unit :=
  outb TIMER_MODE (Z.lor (Z.lor TIMER_SEL0 TIMER_RATEGEN) TIMER_16BIT) ;;
  outb IO_TIMER1 (TIMER_DIV 100 mod 256) ;;
  outb IO_TIMER1 (TIMER_DIV 100 / 256) ;;
  picenable IRQ_TIMER.

(** ** The I/O APIC (kernel/ioapic.c) *)

Definition DEVBASE : Z := 18446744070488326144.
Definition IO2V (a : Z) : Z := u64 (a + DEVBASE - DEVSPACE).
Definition IOAPIC : Z := 4273995776.
Definition REG_ID : Z := 0.
Definition REG_VER : Z := 1.
Definition REG_TABLE : Z := 16.
Definition INT_DISABLED : Z := 65536.

(** The registers [reg] and [data] of [struct ioapic]. *)
Definition ioapic_reg : Z := IO2V IOAPIC.
Definition ioapic_data : Z := IO2V IOAPIC + 16.

Definition ioapicread (reg : Z) : K Z :=
  port_out u32 ioapic_reg reg ;; port_in u32 ioapic_data.
Definition ioapicwrite (reg data : Z) : K unit :=
  port_out u32 ioapic_reg reg ;; port_out u32 ioapic_data data.

Definition ioapicinit : K unit :=
  d <- gets k_dev ;;
  if v_ismp d =? 0 then ret tt else
  v <- ioapicread REG_VER ;;
  let maxintr := Z.land (Z.shiftr v 16) 255 in
  v <- ioapicread REG_ID ;;
  (if negb (Z.shiftr v 24 =? v_ioapicid d) then
     cprintf "ioapicinit: id isn't equal to ioapicid; not a MP
" []
   else ret tt) ;;
  foreach (fun i =>
      let i := Z.of_nat i in
      ioapicwrite (REG_TABLE + 2 * i) (Z.lor INT_DISABLED (T_IRQ0 + i)) ;;
      ioapicwrite (REG_TABLE + 2 * i + 1) 0)
    (seq 0 (S (Z.to_nat maxintr))).

Definition ioapicenable (irq cpunum : Z) : K unit :=
  d <- gets k_dev ;;
  if v_ismp d =? 0 then ret tt else
  ioapicwrite (REG_TABLE + 2 * irq) (T_IRQ0 + irq) ;;
  ioapicwrite (REG_TABLE + 2 * irq + 1) (Z.shiftl cpunum 24).

(** ** The local APIC (kernel/lapic.c) *)

(** [lapic[index]]. *)
Definition lapicr (index : Z) : K Z :=
  d <- gets k_dev ;; port_in u32 (v_lapic d + 4 * index).
Definition lapicw (index value : Z) : K unit :=
  d <- gets k_dev ;;
  port_out u32 (v_lapic d + 4 * index) value ;;
  lapicr Lapic.ID ;;
  ret tt.

(** [while(lapic[ICRLO] & DELIVS)]. *)
Fixpoint lapic_delivered (fuel : nat) : K unit :=
  match fuel with
  | O => nofuel
  | S fuel => v <- lapicr Lapic.ICRLO ;; if has v Lapic.DELIVS then lapic_delivered fuel else ret tt
  end.

Definition lapicinit (fuel : nat) : K unit :=
  d <- gets k_dev ;;
  if v_lapic d =? 0 then ret tt else
  lapicw Lapic.SVR (Z.lor Lapic.ENABLE (T_IRQ0 + IRQ_SPURIOUS)) ;;
  lapicw Lapic.TDCR Lapic.X1 ;;
  lapicw Lapic.TIMER (Z.lor Lapic.PERIODIC (T_IRQ0 + IRQ_TIMER)) ;;
  lapicw Lapic.TICR 10000000 ;;
  lapicw Lapic.LINT0 Lapic.MASKED ;;
  lapicw Lapic.LINT1 Lapic.MASKED ;;
  v <- lapicr Lapic.VER ;;
  (if 4 <=? Z.land (Z.shiftr v 16) 255 then lapicw Lapic.PCINT Lapic.MASKED else ret tt) ;;
  lapicw Lapic.ERROR (T_IRQ0 + IRQ_ERROR) ;;
  lapicw Lapic.ESR 0 ;;
  lapicw Lapic.ESR 0 ;;
  lapicw Lapic.EOI 0 ;;
  lapicw Lapic.ICRHI 0 ;;
  lapicw Lapic.ICRLO (Z.lor (Z.lor Lapic.BCAST Lapic.INIT) Lapic.LEVEL) ;;
  lapic_delivered fuel ;;
  lapicw Lapic.TPR 0.

Definition lapiceoi : K unit :=
  d <- gets k_dev ;;
  if v_lapic d =? 0 then ret tt else lapicw Lapic.EOI 0.

Definition IO_RTC : Z := 112.

(** The warm reset vector at 40:67 is two 16-bit writes to low memory. *)
Definition WRV : Z := KERNBASE + 1127.

Definition lapicstartap (apicid addr : Z) : K unit :=
  outb IO_RTC 15 ;;
  outb (IO_RTC + 1) 10 ;;
  port_out u16 WRV 0 ;;
  port_out u16 (WRV + 2) (Z.shiftr addr 4) ;;
  lapicw Lapic.ICRHI (Z.shiftl apicid 24) ;;
  lapicw Lapic.ICRLO (Z.lor (Z.lor Lapic.INIT Lapic.LEVEL) Lapic.ASSERT) ;;
  lapicw Lapic.ICRLO (Z.lor Lapic.INIT Lapic.LEVEL) ;;
  foreach (fun _ : nat =>
      lapicw Lapic.ICRHI (Z.shiftl apicid 24) ;;
      lapicw Lapic.ICRLO (Z.lor Lapic.STARTUP (Z.shiftr addr 12)))
    (seq 0 2).
End code.
