(* ===== verification/Console.v ===== *)
(** * The console: keyboard, serial line and line discipline
      (kernel/kbd.c, kernel/uart.c, kernel/console.c)

    [consoleintr] edits the current line in a circular buffer of [INPUT_BUF] bytes and commits it at
    a newline, at ^D or when the buffer is full; [consoleread] takes committed bytes, at most a line
    at a time. *)

From S2P Require Import Prelude Types Monad Sched Bio KString Log Fs FsDir Mem Kalloc Vm Pipe File Proc.
From S2P Require Import Port Print Irq.

(** ** Key maps (include/kbd.h) *)

(** An initialiser of a 256-entry table: the entries from 0 on and the designated ones. *)
Definition keymap (base : list Z) (special : list (Z * Z)) : list Z :=
  foldl (fun t '(i, v) => <[Z.to_nat i := v]> t) (base ++ replicate (256 - length base) 0) special.

Definition KBSTATP : Z := 100.
Definition KBS_DIB : Z := 1.
Definition KBDATAP : Z := 96.
Definition SHIFT : Z := 1.
Definition CTL : Z := 2.
Definition ALT : Z := 4.
Definition CAPSLOCK : Z := 8.
Definition NUMLOCK : Z := 16.
Definition SCROLLLOCK : Z := 32.
Definition E0ESC : Z := 64.

Definition shiftcode : list Z :=
  keymap [] [(29, CTL); (42, SHIFT); (54, SHIFT); (56, ALT); (157, CTL); (184, ALT)].
Definition togglecode : list Z := keymap [] [(58, CAPSLOCK); (69, NUMLOCK); (70, SCROLLLOCK)].

Definition normalmap : list Z := keymap
  [0; 27; 49; 50; 51; 52; 53; 54; 55; 56; 57; 48; 45; 61; 8; 9; 113; 119; 101; 114; 116; 121;
   117; 105; 111; 112; 91; 93; 10; 0; 97; 115; 100; 102; 103; 104; 106; 107; 108; 59; 39; 96;
   0; 92; 122; 120; 99; 118; 98; 110; 109; 44; 46; 47; 0; 42; 0; 32; 0; 0; 0; 0; 0; 0; 0; 0;
   0; 0; 0; 0; 0; 55; 56; 57; 45; 52; 53; 54; 43; 49; 50; 51; 48; 46; 0; 0; 0; 0]
  [(156, 10); (181, 47); (200, 226); (208, 227); (201, 230); (209, 231); (203, 228); (205, 229); (151, 224); (207, 225); (210, 232); (211, 233)].
Definition shiftmap : list Z := keymap
  [0; 27; 33; 64; 35; 36; 37; 94; 38; 42; 40; 41; 95; 43; 8; 9; 81; 87; 69; 82; 84; 89; 85;
   73; 79; 80; 123; 125; 10; 0; 65; 83; 68; 70; 71; 72; 74; 75; 76; 58; 34; 126; 0; 124; 90;
   88; 67; 86; 66; 78; 77; 60; 62; 63; 0; 42; 0; 32; 0; 0; 0; 0; 0; 0; 0; 0; 0; 0; 0; 0; 0;
   55; 56; 57; 45; 52; 53; 54; 43; 49; 50; 51; 48; 46; 0; 0; 0; 0]
  [(156, 10); (181, 47); (200, 226); (208, 227); (201, 230); (209, 231); (203, 228); (205, 229); (151, 224); (207, 225); (210, 232); (211, 233)].
Definition ctlmap : list Z := keymap
  [0; 0; 0; 0; 0; 0; 0; 0; 0; 0; 0; 0; 0; 0; 0; 0; 17; 23; 5; 18; 20; 25; 21; 9; 15; 16; 0;
   0; 13; 0; 1; 19; 4; 6; 7; 8; 10; 11; 12; 0; 0; 0; 0; 28; 26; 24; 3; 22; 2; 14; 13; 0; 0;
   239; 0; 0]
  [(156, 13); (181, 239); (200, 226); (208, 227); (201, 230); (209, 231); (203, 228); (205, 229); (151, 224); (207, 225); (210, 232); (211, 233)].

(** [charcode[shift & (CTL | SHIFT)]]. *)
Definition charcode (k : Z) : list Z := nth (Z.to_nat k) [normalmap; shiftmap; ctlmap; ctlmap] [].

(** [kbdgetc] on the scan code [data] with the modifiers [shift]: the new modifiers and the result. *)
Definition kbd_decode (shift data : Z) : Z * Z :=
  if data =? 224 then (Z.lor shift E0ESC, 0) else
  if has data 128 then
    let data := if has shift E0ESC then data else Z.land data 127 in
    (clr_flag shift (Z.lor (byte_at shiftcode (Z.to_nat data)) E0ESC), 0)
  else
  let '(data, shift) :=
    if has shift E0ESC then (Z.lor data 128, clr_flag shift E0ESC) else (data, shift) in
  let shift := Z.lor shift (byte_at shiftcode (Z.to_nat data)) in
  let shift := Z.lxor shift (byte_at togglecode (Z.to_nat data)) in
  let c := byte_at (charcode (Z.land shift (Z.lor CTL SHIFT))) (Z.to_nat data) in
  let c :=
    if has shift CAPSLOCK then
      if (97 <=? c) && (c <=? 122) then c - 32
      else if (65 <=? c) && (c <=? 90) then c + 32 else c
    else c in
  (shift, c).

Definition INPUT_BUF : Z := 128.
Definition ctl_D : Z := 4.
Definition ctl_H : Z := 8.
Definition ctl_P : Z := 16.
Definition ctl_U : Z := 21.
Definition ctl_Z : Z := 26.
Definition DELETE : Z := 127.
Definition NEWLINE : Z := 10.

(** [input.buf[i % INPUT_BUF]]. *)
Definition input_at (x : console) (i : Z) : Z := byte_at (c_buf x) (Z.to_nat (i mod INPUT_BUF)).

(** [input.buf[input.e++ % INPUT_BUF] = c]. *)
Definition input_put (c : Z) (x : console) : console :=
  cset_e (u32 (c_e x + 1)) (cset_buf (<[Z.to_nat (c_e x mod INPUT_BUF) := u8 c]> (c_buf x)) x).

Section code.
Context {drv : DiskDriver} {D : Devices}.

Definition kbdgetc : K Z :=
  st <- inb KBSTATP ;;
  if negb (has st KBS_DIB) then ret (-1) else
  data <- inb KBDATAP ;;
  x <- get_cons ;;
  let '(shift, c) := kbd_decode (c_shift x) data in
  upd_cons (cset_shift shift) ;;
  ret c.

Definition uartgetc : K Z :=
  x <- get_cons ;;
  if c_uart x =? 0 then ret (-1) else
  st <- inb (COM1 + 5) ;;
  if negb (has st 1) then ret (-1) else
  inb (COM1 + 0).

Definition uartinit : K unit :=
  x <- get_cons ;;
  if c_uart x =? 0 then ret tt else
  inb (COM1 + 2) ;;
  inb (COM1 + 0) ;;
  picenable IRQ_COM1 ;;
  ioapicenable IRQ_COM1 0.

(** ** procdump (kernel/proc.c) and getstackpcs (kernel/spinlock.c) *)

(** The return addresses of at most [n] frames from [ebp]. *)
Fixpoint stackpcs (n : nat) (ebp : Z) : K (list Z) :=
  match n with
  | O => ret []
  | S n =>
      if (ebp =? 0) || (ebp <? KERNBASE) || (ebp =? 4294967295) then ret [] else
      pc <- load64 (ebp + 8) ;;
      next <- load64 ebp ;;
      l <- stackpcs n next ;;
      ret (pc :: l)
  end.

Definition getstackpcs (ebp : Z) : K (list Z) :=
  l <- stackpcs 10 ebp ;; ret (l ++ replicate (10 - length l) 0).

Definition state_name (st : procstate) : list Z :=
  bytes_of match st with
           | UNUSED => "unused" | EMBRYO => "embryo" | SLEEPING => "sleep "
           | RUNNABLE => "runble" | RUNNING => "run   " | ZOMBIE => "zombie"
           end.

(** The bytes of an array before its first NUL. *)
Fixpoint cstring (l : list Z) : list Z :=
  match l with
  | [] => []
  | x :: l => if x =? 0 then [] else x :: cstring l
  end.

(** [for(i=0; i<10 && pc[i] != 0; i++)]. *)
Fixpoint print_pcs (pcs : list Z) : K unit :=
  match pcs with
  | [] => ret tt
  | pc :: pcs => if pc =? 0 then ret tt else cprintf " %p" [VPtr pc] ;; print_pcs pcs
  end.

(** The offset of [ebp] in [struct context]. *)
Definition CTX_EBP : Z := 48.

Definition dump_proc (i : nat) : K unit :=
  p <- get_proc i ;;
  if bool_decide (p_state p = UNUSED) then ret tt else
  cprintf "%d %s %s" [VInt (p_pid p); VStr (Some (state_name (p_state p))); VStr (Some (cstring (p_name p)))] ;;
  (if bool_decide (p_state p = SLEEPING) then
     ebp <- load64 (p_context p + CTX_EBP) ;;
     pcs <- getstackpcs ebp ;;
     print_pcs pcs
   else ret tt) ;;
  cprintf "
" [].

Definition procdump : K unit :=
  foreach dump_proc (seq 0 NPROC) ;;
  cprintf "

" [].

(** ** The line discipline *)

(** The loop of ^U; [input.e - input.w] bytes can be killed. *)
Fixpoint kill_line (fuel : nat) : K unit :=
  match fuel with
  | O => nofuel
  | S fuel =>
      x <- get_cons ;;
      if negb (c_e x =? c_w x) && negb (input_at x (u32 (c_e x - 1)) =? NEWLINE) then
        upd_cons (cset_e (u32 (c_e x - 1))) ;;
        consputc BACKSPACE ;;
        kill_line fuel
      else ret tt
  end.

(** The body of [consoleintr]'s loop. [lidt(0,0)] on ^Z makes the next interrupt reset the machine. *)
Definition intr_char (c : Z) : K unit :=
  x <- get_cons ;;
  if c =? ctl_Z then ret tt else
  if c =? ctl_P then procdump else
  if c =? ctl_U then kill_line (S (Z.to_nat (u32 (c_e x - c_w x)))) else
  if (c =? ctl_H) || (c =? DELETE) then
    if negb (c_e x =? c_w x) then upd_cons (cset_e (u32 (c_e x - 1))) ;; consputc BACKSPACE else ret tt
  else
  if negb (c =? 0) && (u32 (c_e x - c_r x) <? INPUT_BUF) then
    let c := if c =? 13 then NEWLINE else c in
    upd_cons (input_put c) ;;
    consputc c ;;
    x <- get_cons ;;
    if (c =? NEWLINE) || (c =? ctl_D) || (c_e x =? u32 (c_r x + INPUT_BUF)) then
      upd_cons (cset_w (c_e x)) ;;
      wakeup ChInput
    else ret tt
  else ret tt.

(** [while((c = getc()) >= 0)]; [fuel] bounds the characters the device delivers. *)
Fixpoint intr_loop (fuel : nat) (getc : K Z) : K unit :=
  match fuel with
  | O => nofuel
  | S fuel => c <- getc ;; if c <? 0 then ret tt else intr_char c ;; intr_loop fuel getc
  end.

Definition consoleintr (fuel : nat) (getc : K Z) : K unit :=
  acquire LInput ;;
  intr_loop fuel getc ;;
  release LInput.

Definition kbdintr (fuel : nat) : K unit := consoleintr fuel kbdgetc.
Definition uartintr (fuel : nat) : K unit := consoleintr fuel uartgetc.

(** [while(input.r == input.w)]: [false] when the caller returns -1. Control leaves in [sleep], so one
    test after it is enough fuel for a run on one CPU. *)
Fixpoint input_wait (fuel : nat) : K bool :=
  match fuel with
  | O => nofuel
  | S fuel =>
      x <- get_cons ;;
      if c_r x =? c_w x then
        killed <- cur_killed ;;
        if killed : bool then ret false
        else sleep ChInput LInput ;; input_wait fuel
      else ret true
  end.

(** The loop of [consoleread] with [n] bytes to go: the bytes stored, or [None] for -1. *)
Fixpoint consoleread_loop (n : nat) (target : Z) (acc : list Z) : K (option (list Z)) :=
  match n with
  | O => ret (Some acc)
  | S n' =>
      ok <- input_wait 2 ;;
      if negb ok then ret None else
      x <- get_cons ;;
      let c := input_at x (c_r x) in
      upd_cons (cset_r (u32 (c_r x + 1))) ;;
      if c =? ctl_D then
        (if Z.of_nat n <? target then upd_cons (fun x => cset_r (u32 (c_r x - 1)) x) else ret tt) ;;
        ret (Some acc)
      else
      if c =? NEWLINE then ret (Some (acc ++ [c]))
      else consoleread_loop n' target (acc ++ [c])
  end.

(** The result and the bytes stored at [dst]. *)
Definition consoleread (ip : nat) (n : Z) : K (Z * list Z) :=
  iunlock ip ;;
  acquire LInput ;;
  o <- consoleread_loop (Z.to_nat n) (u32 n) [] ;;
  release LInput ;;
  ilock ip ;;
  match o with
  | None => ret (-1, [])
  | Some l => ret (Z.of_nat (length l), l)
  end.

Definition consolewrite (ip : nat) (buf : list Z) (n : Z) : K Z :=
  iunlock ip ;;
  acquire LCons ;;
  foreach consputc (take (Z.to_nat n) buf) ;;
  release LCons ;;
  ilock ip ;;
  ret n.

(** [devsw] after [consoleinit]. *)
Definition CONSOLE : Z := 1.
Definition console_devsw : devsw :=
  Devsw (fun major => if major =? CONSOLE then Some consoleread else None)
        (fun major => if major =? CONSOLE then Some consolewrite else None).

Definition consoleinit : K unit :=
  initlock LCons ;;
  initlock LInput ;;
  upd_cons (cset_locking 1) ;;
  picenable IRQ_KBD ;;
  ioapicenable IRQ_KBD 0.
End code.
