(* ===== verification/CalmDev.v ===== *)
(** * The console is calm

    The device switch of the kernel, with the console's read and write, meets [CalmDevs]. *)

From S2P Require Import Prelude Types Monad Sched Bio KString Log Fs FsDir Mem Kalloc Vm Pipe File Proc Syscall.
From S2P Require Import Calm Port Print Irq Console.

Section calm.
Context {drv : DiskDriver} {Hdrv : CalmDriver drv} {D : Devices}.

Lemma calmly_upd_cons f : calmly (upd_cons f).
Proof. unfold upd_cons, upd_dev. calmly. Qed.
Lemma calmly_get_cons : calmly get_cons.
Proof. unfold get_cons. calmly. Qed.
Lemma calmly_inb port : calmly (inb port).
Proof. intros s. split; reflexivity. Qed.
Lemma calmly_outb port v : calmly (outb port v).
Proof. unfold outb, port_out, upd_dev. calmly. Qed.
#[local] Hint Resolve calmly_upd_cons calmly_get_cons calmly_inb calmly_outb : calmly.

Lemma calmly_uart_wait n : calmly (uart_wait n).
Proof. induction n; cbn [uart_wait]; calmly. Qed.
#[local] Hint Resolve calmly_uart_wait : calmly.
Lemma calmly_uartputc c : calmly (uartputc c).
Proof. unfold uartputc. calmly. Qed.
Lemma calmly_crt_put pos v : calmly (crt_put pos v).
Proof. unfold crt_put. calmly. Qed.
#[local] Hint Resolve calmly_uartputc calmly_crt_put : calmly.
Lemma calmly_cgaputc c : calmly (cgaputc c).
Proof. unfold cgaputc. calmly. Qed.
#[local] Hint Resolve calmly_cgaputc : calmly.
Lemma calmly_consputc c : calmly (consputc c).
Proof. unfold consputc. calmly. Qed.
#[local] Hint Resolve calmly_consputc : calmly.
Lemma calmly_consolewrite ip buf n : calmly (consolewrite ip buf n).
Proof. unfold consolewrite. calmly. Qed.
Lemma calmly_input_wait fuel : calmly (input_wait fuel).
Proof. induction fuel; cbn [input_wait]; calmly. Qed.
#[local] Hint Resolve calmly_input_wait : calmly.
Lemma calmly_consoleread_loop n target acc : calmly (consoleread_loop n target acc).
Proof. revert acc. induction n; intros acc; cbn [consoleread_loop]; calmly. Qed.
#[local] Hint Resolve calmly_consoleread_loop : calmly.
Lemma calmly_consoleread ip n : calmly (consoleread ip n).
Proof. unfold consoleread. calmly. Qed.

#[export] Instance console_calm : CalmDevs console_devsw.
Proof.
  split; cbn; intros k f; destruct (k =? CONSOLE); try done; intros.
  - simplify_eq. apply calmly_consoleread.
  - simplify_eq. apply calmly_consolewrite.
Qed.
End calm.
