(* ===== verification/Ide.v ===== *)
(** * The IDE driver (kernel/ide.c)

    [idequeue] is a linked list of buffers through [qnext]; the first is the request the disk works
    on. A process that calls [iderw] sleeps until [ideintr] has served its buffer. *)

From S2P Require Import Prelude Types Monad Sched Bio Mem Port Print Irq.

Definition IDE_BSY : Z := 128.
Definition IDE_DRDY : Z := 64.
Definition IDE_DF : Z := 32.
Definition IDE_ERR : Z := 1.
Definition IDE_CMD_READ : Z := 32.
Definition IDE_CMD_WRITE : Z := 48.

(** The 32-bit words [insl] and [outsl] transfer. *)
Fixpoint words_of (n : nat) (d : list Z) : list Z :=
  match n with
  | O => []
  | S n => le_val (take 4 d) :: words_of n (drop 4 d)
  end.
Definition bytes_of_words (ws : list Z) : list Z := concat (map (le_bytes 4) ws).

Definition get_ide : K ide := gets (fun s => v_ide (k_dev s)).
Definition upd_ide (f : ide -> ide) : K unit := upd_dev (fun d => vset_ide (f (v_ide d)) d).

Section code.
Context {D : Devices}.

(** [while(((r = inb(0x1f7)) & (IDE_BSY|IDE_DRDY)) != IDE_DRDY)]; [fuel] bounds how often the disk
    says it is busy. *)
Fixpoint idewait_loop (fuel : nat) : K Z :=
  match fuel with
  | O => nofuel
  | S fuel =>
      r <- inb 503 ;;
      if Z.land r (Z.lor IDE_BSY IDE_DRDY) =? IDE_DRDY then ret r else idewait_loop fuel
  end.

Definition idewait (fuel : nat) (checkerr : bool) : K Z :=
  r <- idewait_loop fuel ;;
  ret (if checkerr && negb (Z.land r (Z.lor IDE_DF IDE_ERR) =? 0) then -1 else 0).

(** The probe for disk 1. *)
Fixpoint probe (n : nat) : K unit :=
  match n with
  | O => ret tt
  | S n =>
      r <- inb 503 ;;
      if negb (r =? 0) then upd_ide (eset_havedisk1 1) else probe n
  end.

Definition ideinit (fuel : nat) : K unit :=
  initlock LIde ;;
  picenable IRQ_IDE ;;
  d <- gets k_dev ;;
  ioapicenable IRQ_IDE (v_ncpu d - 1) ;;
  idewait fuel false ;;
  outb 502 (Z.lor 224 (Z.shiftl 1 4)) ;;
  probe 1000 ;;
  outb 502 (Z.lor 224 (Z.shiftl 0 4)).

Definition idestart (fuel : nat) (o : option nat) : K unit :=
  match o with
  | None => panic "idestart"
  | Some i =>
      idewait fuel false ;;
      b <- getb i ;;
      outb 1014 0 ;;
      outb 498 1 ;;
      outb 499 (Z.land (b_sector b) 255) ;;
      outb 500 (Z.land (Z.shiftr (b_sector b) 8) 255) ;;
      outb 501 (Z.land (Z.shiftr (b_sector b) 16) 255) ;;
      outb 502 (Z.lor (Z.lor 224 (Z.shiftl (Z.land (b_dev b) 1) 4))
                  (Z.land (Z.shiftr (b_sector b) 24) 15)) ;;
      if has (b_flags b) B_DIRTY then
        outb 503 IDE_CMD_WRITE ;;
        outsl 496 (words_of 128 (b_data b))
      else outb 503 IDE_CMD_READ
  end.

Definition ideintr (fuel : nat) : K unit :=
  acquire LIde ;;
  e <- get_ide ;;
  match e_queue e with
  | None => release LIde
  | Some i =>
      b <- getb i ;;
      upd_ide (eset_queue (b_qnext b)) ;;
      (if negb (has (b_flags b) B_DIRTY) then
         r <- idewait fuel true ;;
         if 0 <=? r then
           ws <- insl 496 128 ;;
           updb i (bset_data (bytes_of_words ws))
         else ret tt
       else ret tt) ;;
      updb i (fun b => bset_flags (set_flag (b_flags b) B_VALID) b) ;;
      updb i (fun b => bset_flags (clr_flag (b_flags b) B_DIRTY) b) ;;
      wakeup (ChBuf i) ;;
      e <- get_ide ;;
      (match e_queue e with Some j => idestart fuel (Some j) | None => ret tt end) ;;
      release LIde
  end.

(** [for(pp=&idequeue; *pp; pp=&( *pp)->qnext); *pp = b], from the buffer [j] on. *)
Fixpoint append_from (fuel : nat) (j i : nat) : K unit :=
  match fuel with
  | O => nofuel
  | S fuel =>
      x <- getb j ;;
      match b_qnext x with
      | None => updb j (bset_qnext (Some i))
      | Some k => append_from fuel k i
      end
  end.

Definition append_queue (i : nat) : K unit :=
  e <- get_ide ;;
  match e_queue e with
  | None => upd_ide (eset_queue (Some i))
  | Some j => append_from (S NBUF) j i
  end.

Definition synced_flags (b : buf) : bool :=
  Z.land (b_flags b) (Z.lor B_VALID B_DIRTY) =? B_VALID.

(** Control leaves in [sleep], so one test after it is enough fuel for a run on one CPU. *)
Fixpoint ide_sleep (fuel : nat) (i : nat) : K unit :=
  match fuel with
  | O => nofuel
  | S fuel =>
      b <- getb i ;;
      if synced_flags b then ret tt else sleep (ChBuf i) LIde ;; ide_sleep fuel i
  end.

Definition iderw (fuel : nat) (i : nat) : K unit :=
  b <- getb i ;;
  if negb (has (b_flags b) B_BUSY) then panic "iderw: buf not busy" else
  if synced_flags b then panic "iderw: nothing to do" else
  e <- get_ide ;;
  if negb (b_dev b =? 0) && (e_havedisk1 e =? 0) then panic "iderw: ide disk 1 not present" else
  acquire LIde ;;
  updb i (bset_qnext None) ;;
  append_queue i ;;
  e <- get_ide ;;
  (if bool_decide (e_queue e = Some i) then idestart fuel (Some i) else ret tt) ;;
  ide_sleep 2 i ;;
  release LIde.
End code.
