(* ===== verification/IdeProps.v ===== *)
(** * The IDE driver serves its requests in order (kernel/ide.c)

    [ata] is a disk as the driver sees it: registers for the drive and the sector, a command in progress, and the blocks.
    [ata_at] is its state after a history of port accesses, and [AtaDisk] says that the device answers as such a disk does.
    [ide_rep s q m]: the requests queued are the buffers [q], the disk works on the first, and holds the blocks [m]. *)

From S2P Require Import Prelude Types Monad Sched Bio KString Mem Port Print Irq Ide.

(** ** The disk *)

Inductive amode := AIdle | ARead (n : nat) | AWrite (ws : list Z).

(** The registers of ports 0x1f3 to 0x1f6, the transfer, and the blocks of both drives. *)
Record ata := Ata {
  at_lo : Z; at_mid : Z; at_hi : Z; at_dev : Z;
  at_mode : amode;
  at_blocks : Z -> Z -> list Z
}.

Definition at_drive (a : ata) : Z := Z.land (Z.shiftr (at_dev a) 4) 1.
Definition at_sector (a : ata) : Z := at_lo a + 256 * at_mid a + 65536 * at_hi a + 16777216 * Z.land (at_dev a) 15.

Definition put_block (m : Z -> Z -> list Z) (drive sector : Z) (d : list Z) : Z -> Z -> list Z :=
  fun dr sec => if decide (dr = drive /\ sec = sector) then d else m dr sec.

Definition set_mode (x : amode) (a : ata) : ata := Ata (at_lo a) (at_mid a) (at_hi a) (at_dev a) x (at_blocks a).

(** A word written to the data port; the last one of a block stores it. *)
Definition ata_word (v : Z) (a : ata) : ata :=
  match at_mode a with
  | AWrite ws =>
      if (length ws =? 127)%nat then
        Ata (at_lo a) (at_mid a) (at_hi a) (at_dev a) AIdle
          (put_block (at_blocks a) (at_drive a) (at_sector a) (bytes_of_words (ws ++ [v])))
      else set_mode (AWrite (ws ++ [v])) a
  | _ => a
  end.

Definition ata_step (e : ioev) (a : ata) : ata :=
  match e with
  | IoOut port v =>
      if port =? 499 then Ata v (at_mid a) (at_hi a) (at_dev a) (at_mode a) (at_blocks a)
      else if port =? 500 then Ata (at_lo a) v (at_hi a) (at_dev a) (at_mode a) (at_blocks a)
      else if port =? 501 then Ata (at_lo a) (at_mid a) v (at_dev a) (at_mode a) (at_blocks a)
      else if port =? 502 then Ata (at_lo a) (at_mid a) (at_hi a) v (at_mode a) (at_blocks a)
      else if port =? 503 then
        set_mode (if v =? IDE_CMD_READ then ARead 0 else if v =? IDE_CMD_WRITE then AWrite [] else AIdle) a
      else if port =? 496 then ata_word v a
      else a
  | IoIn port _ =>
      if port =? 496 then match at_mode a with ARead n => set_mode (ARead (S n)) a | _ => a end else a
  end.

Section disk.
Context (d0 : Z -> Z -> list Z).

(** After a history of accesses, latest first. *)
Definition ata_at (h : list ioev) : ata := foldr ata_step (Ata 0 0 0 0 AIdle d0) h.

Context {D : Devices}.

Definition is_ready (v : Z) : bool := Z.land v (Z.lor IDE_BSY IDE_DRDY) =? IDE_DRDY.

(** The status port says "ready", without an error, after fewer than [fuel] polls. *)
Fixpoint ready_within (fuel : nat) (h : list ioev) : Prop :=
  match fuel with
  | O => False
  | S fuel =>
      let v := u8 (answer h 503) in
      if is_ready v then Z.land v (Z.lor IDE_DF IDE_ERR) = 0 else ready_within fuel (IoIn 503 v :: h)
  end.

(** The device is a disk: it gets ready, and hands out the sector that is being read word by word. *)
Class AtaDisk (fuel : nat) : Prop := {
  ata_ready : forall h, ready_within fuel h;
  ata_data : forall h n, at_mode (ata_at h) = ARead n -> (n < 128)%nat ->
    u32 (answer h 496) = u32 (nth n (words_of 128 (at_blocks (ata_at h) (at_drive (ata_at h)) (at_sector (ata_at h)))) 0)
}.
End disk.

(** ** Words and bytes *)

Definition block_ok (d : list Z) : Prop := length d = 512%nat /\ Forall is_byte d.

Lemma le_bytes_val l : Forall is_byte l -> le_bytes (length l) (le_val l) = l.
Proof.
  induction 1 as [|x l Hx Hl IH]; [done|]. unfold is_byte in Hx. cbn [length le_bytes le_val]. f_equal.
  - rewrite (Z.mul_comm 256), Z.mod_add, Z.mod_small; lia.
  - rewrite (Z.mul_comm 256), Z.div_add, Z.div_small, Z.add_0_l by lia. exact IH.
Qed.

Lemma le_val_range l : Forall is_byte l -> 0 <= le_val l < 256 ^ Z.of_nat (length l).
Proof.
  induction 1 as [|x l Hx Hl IH]; [cbn; lia|]. unfold is_byte in Hx. cbn [length le_val].
  rewrite Nat2Z.inj_succ, Z.pow_succ_r by lia. lia.
Qed.

Lemma words_bytes n d : length d = (4 * n)%nat -> Forall is_byte d -> bytes_of_words (words_of n d) = d.
Proof.
  revert d. induction n as [|n IH]; intros d Hl Hb; [by destruct d|]. cbn [words_of]. unfold bytes_of_words. cbn [map concat].
  fold (bytes_of_words (words_of n (drop 4 d))). rewrite IH; [|rewrite length_drop; lia|by apply Forall_drop].
  rewrite <- (take_drop 4 d) at 3. f_equal. rewrite <- (le_bytes_val (take 4 d)) at 2 by by apply Forall_take.
  rewrite length_take. by replace (Nat.min 4 (length d)) with 4%nat by lia.
Qed.

Lemma words_range n d : length d = (4 * n)%nat -> Forall is_byte d -> Forall (fun w => 0 <= w < 4294967296) (words_of n d).
Proof.
  revert d. induction n as [|n IH]; intros d Hl Hb; cbn [words_of]; constructor.
  - pose proof (le_val_range (take 4 d) ltac:(by apply Forall_take)) as Hr. rewrite length_take in Hr.
    by replace (Nat.min 4 (length d)) with 4%nat in Hr by lia.
  - apply IH; [rewrite length_drop; lia|by apply Forall_drop].
Qed.

Lemma length_words_of n d : length (words_of n d) = n.
Proof. revert d. induction n as [|n IH]; intros d; cbn; [done|by rewrite IH]. Qed.

(** ** Port accesses *)

Definition with_io (h : list ioev) (s : kstate) : kstate := set_dev (vset_io h (k_dev s)) s.
Definition io (s : kstate) : list ioev := v_io (k_dev s).

Lemma with_io_io h s : io (with_io h s) = h.
Proof. done. Qed.
Lemma with_io_twice h h' s : with_io h' (with_io h s) = with_io h' s.
Proof. done. Qed.

Section driver.
Context {D : Devices} (d0 : Z -> Z -> list Z) (fuel : nat) {disk : AtaDisk d0 fuel}.

Definition ata_of (s : kstate) : ata := ata_at d0 (io s).

(** [m] only accesses ports, and takes the disk from [a] to [a']. *)
Definition drives {A} (m : K A) (a : ata) (r : A) (a' : ata) : Prop :=
  forall s, ata_of s = a -> exists h, m s = Ret r (with_io h s) /\ ata_at d0 h = a'.

Lemma drives_ret {A} (r : A) a : drives (ret r) a r a.
Proof. intros s Hs. exists (io s). split; [by destruct s as [? ? ? ? ? ? ? ? ? ? ? ? ? []]|done]. Qed.

Lemma drives_bind {A B} (m : K A) (f : A -> K B) a r a1 r' a2 :
  drives m a r a1 -> drives (f r) a1 r' a2 -> drives (bind m f) a r' a2.
Proof.
  intros Hm Hf s Hs. destruct (Hm s Hs) as (h & E & Ha). destruct (Hf (with_io h s) Ha) as (h' & E' & Ha').
  exists h'. unfold bind. by rewrite E, E'.
Qed.

Lemma drives_out wrap port v a : drives (port_out wrap port v) a tt (ata_step (IoOut port (wrap v)) a).
Proof. intros s Hs. exists (IoOut port (wrap v) :: io s). split; [done|]. cbn [ata_at foldr]. by rewrite <- Hs. Qed.

(** Polling the status does not change the disk. *)
Lemma drives_idewait chk a : drives (idewait fuel chk) a 0 a.
Proof using disk.
  assert (forall n s, ata_of s = a -> ready_within n (io s) ->
    exists h r, idewait_loop n s = Ret r (with_io h s) /\ ata_at d0 h = a /\ Z.land r (Z.lor IDE_DF IDE_ERR) = 0) as Hloop.
  { induction n as [|n IH]; intros s Hs Hr; [done|]. cbn [ready_within idewait_loop] in *. unfold bind, inb, port_in.
    fold (io s). set (v := u8 (answer (io s) 503)) in *. unfold is_ready in Hr. destruct (_ =? IDE_DRDY).
    - eexists _, v. split; [done|]. split; [|done]. cbn [ata_at foldr ata_step]. done.
    - destruct (IH (with_io (IoIn 503 v :: io s) s)) as (h & r & E & Ha & Hz); [done|done|]. exists h, r. split; [exact E|done]. }
  intros s Hs. destruct (Hloop fuel s Hs (ata_ready d0 _)) as (h & r & E & Ha & Hz). exists h.
  unfold idewait, bind. rewrite E, Hz. cbn [Z.eqb negb]. rewrite andb_false_r. done.
Qed.

(** Writing a block, word by word. *)
Lemma drives_outsl ws a done_ :
  at_mode a = AWrite done_ -> (length done_ + length ws = 128)%nat -> ws <> [] -> Forall (fun w => 0 <= w < 4294967296) ws ->
  drives (outsl 496 ws) a tt
    (Ata (at_lo a) (at_mid a) (at_hi a) (at_dev a) AIdle
       (put_block (at_blocks a) (at_drive a) (at_sector a) (bytes_of_words (done_ ++ ws)))).
Proof.
  intros Hm Hl Hne Hw. revert a done_ Hm Hl Hne. induction Hw as [|w ws Hw Hws IH]; intros a done_ Hm Hl Hne; [done|].
  unfold outsl. cbn [foreach]. eapply drives_bind; [apply drives_out|]. rewrite u32_small by done.
  change (ata_step (IoOut 496 w) a) with (ata_word w a). unfold ata_word. rewrite Hm. cbn [length] in Hl.
  destruct (Nat.eqb_spec (length done_) 127) as [E|E].
  - destruct ws; [|cbn in Hl; lia]. apply drives_ret.
  - assert (ws <> []) as Hne' by (intros ->; cbn in Hl; lia).
    replace (done_ ++ w :: ws) with ((done_ ++ [w]) ++ ws) by (by rewrite <- app_assoc).
    apply (IH (set_mode (AWrite (done_ ++ [w])) a) (done_ ++ [w])); [done|rewrite length_app; cbn; lia|done].
Qed.

(** Reading a block. *)
Lemma drives_insl k n a :
  at_mode a = ARead n -> (n + k <= 128)%nat -> block_ok (at_blocks a (at_drive a) (at_sector a)) ->
  drives (insl 496 k) a (take k (drop n (words_of 128 (at_blocks a (at_drive a) (at_sector a))))) (set_mode (ARead (n + k)) a).
Proof using disk.
  revert n a. induction k as [|k IH]; intros n a Hm Hk Hok.
  { rewrite Nat.add_0_r, take_0. replace (set_mode (ARead n) a) with a by (destruct a; cbn in Hm; by subst). apply drives_ret. }
  cbn [insl]. set (ws := words_of 128 _). destruct (lookup_lt_is_Some_2 ws n) as [w Hw]; [unfold ws; rewrite length_words_of; lia|].
  rewrite (drop_S _ _ _ Hw). cbn [take]. eapply drives_bind.
  - intros s Hs. exists (IoIn 496 w :: io s). split.
    + pose proof (ata_data d0 (io s) n) as Hd. fold (ata_of s) in Hd. rewrite Hs in Hd. fold ws in Hd.
      unfold port_in. fold (io s). rewrite Hd by (done || lia). rewrite (nth_lookup_Some ws n 0 w Hw), u32_small; [done|].
      destruct Hok as [Hl Hby]. by apply (Forall_lookup_1 _ _ _ _ (words_range 128 _ Hl Hby) Hw).
    + cbn [ata_at foldr]. fold (ata_at d0 (io s)). fold (ata_of s). rewrite Hs. cbn [ata_step Z.eqb Pos.eqb]. rewrite Hm. reflexivity.
  - cbn beta. eapply drives_bind; [apply (IH (S n)); [done|lia|done]|].
    replace (set_mode (ARead (n + S k)) a) with (set_mode (ARead (S n + k)) a) by (do 2 f_equal; lia). apply drives_ret.
Qed.

(** ** Starting a request *)

Definition drive (b : buf) : Z := Z.land (b_dev b) 1.

(** A request the disk can take. *)
Record request (b : buf) : Prop := {
  rq_data : block_ok (b_data b);
  rq_sector : 0 <= b_sector b < 268435456;
  rq_todo : synced_flags b = false
}.

(** The blocks once the disk has the request. *)
Definition stored (m : Z -> Z -> list Z) (b : buf) : Z -> Z -> list Z :=
  if dirty b then put_block m (drive b) (b_sector b) (b_data b) else m.

(** The disk works on [b]. *)
Definition active (a : ata) (b : buf) : Prop :=
  dirty b = false -> at_mode a = ARead 0 /\ at_drive a = drive b /\ at_sector a = b_sector b.

(** The registers [idestart] writes name the drive and the sector. *)
Lemma dev_register d t :
  0 <= t < 16 -> let r := u8 (Z.lor (Z.lor 224 (Z.shiftl (Z.land d 1) 4)) (Z.land t 15)) in
  Z.land (Z.shiftr r 4) 1 = Z.land d 1 /\ Z.land r 15 = t.
Proof.
  intros Ht. assert (Z.land d 1 = 0 \/ Z.land d 1 = 1) as Hd.
  { pose proof (Z.land_ones d 1 ltac:(lia)) as E. change (Z.ones 1) with 1 in E. rewrite E. change (2 ^ 1) with 2.
    pose proof (Z.mod_pos_bound d 2). lia. }
  assert (forallb (fun t => forallb (fun x =>
    let r := u8 (Z.lor (Z.lor 224 (Z.shiftl x 4)) (Z.land t 15)) in
    (Z.land (Z.shiftr r 4) 1 =? x) && (Z.land r 15 =? t)) [0; 1]) (seqZ 0 16) = true) as Hall by (vm_compute; reflexivity).
  rewrite forallb_forall in Hall. specialize (Hall t). rewrite <- list_elem_of_In, elem_of_seqZ in Hall. specialize (Hall ltac:(lia)).
  cbn [forallb] in Hall. rewrite !andb_true_iff, !Z.eqb_eq in Hall. cbv zeta. destruct Hd as [-> | ->]; tauto.
Qed.

Lemma sector_registers x :
  0 <= x < 268435456 ->
  u8 (Z.land x 255) + 256 * u8 (Z.land (Z.shiftr x 8) 255) + 65536 * u8 (Z.land (Z.shiftr x 16) 255) + 16777216 * Z.shiftr x 24 = x
  /\ 0 <= Z.shiftr x 24 < 16.
Proof.
  intros Hx. change 255 with (Z.ones 8). rewrite !Z.land_ones, !Z.shiftr_div_pow2 by lia. unfold u8.
  change (2 ^ 8) with 256. change (2 ^ 16) with 65536. change (2 ^ 24) with 16777216. rewrite !Z.mod_mod by lia.
  pose proof (Z.div_mod x 256). pose proof (Z.div_mod (x / 256) 256). pose proof (Z.div_mod (x / 65536) 256).
  rewrite (Z.div_div x 256 256), (Z.div_div x 65536 256) in * by lia.
  change (256 * 256) with 65536 in *. change (65536 * 256) with 16777216 in *.
  split; [lia|]. split; [apply Z.div_pos; lia|apply Z.div_lt_upper_bound; lia].
Qed.

Lemma idestart_drives i b s :
  k_bufs s !! i = Some b -> request b ->
  exists h, idestart fuel (Some i) s = Ret tt (with_io h s)
    /\ (forall dr sec, at_blocks (ata_at d0 h) dr sec = stored (at_blocks (ata_of s)) b dr sec) /\ active (ata_at d0 h) b.
Proof using disk.
  intros Hb [[Hl Hbytes] Hsec _]. destruct (sector_registers _ Hsec) as [Esec Ht].
  destruct (dev_register (b_dev b) (Z.shiftr (b_sector b) 24) Ht) as [Edr Ehi].
  set (a1 := Ata (u8 (Z.land (b_sector b) 255)) (u8 (Z.land (Z.shiftr (b_sector b) 8) 255)) (u8 (Z.land (Z.shiftr (b_sector b) 16) 255))
    (u8 (Z.lor (Z.lor 224 (Z.shiftl (Z.land (b_dev b) 1) 4)) (Z.land (Z.shiftr (b_sector b) 24) 15)))
    (at_mode (ata_of s)) (at_blocks (ata_of s))).
  assert (at_drive a1 = drive b /\ at_sector a1 = b_sector b) as [Ed Es].
  { split; [exact Edr|]. unfold at_sector, a1. cbn [at_lo at_mid at_hi at_dev]. rewrite Ehi. exact Esec. }
  destruct (drives_idewait false (ata_of s) s eq_refl) as (h1 & E1 & Ha1). unfold idestart, bind at 1. rewrite E1.
  unfold bind at 1, getb, nth_or_fault. cbn [with_io set_dev k_bufs]. rewrite Hb. fold (with_io h1 s).
  assert (forall (P : K unit) a', drives P (ata_of s) tt a' -> exists h, P (with_io h1 s) = Ret tt (with_io h s) /\ ata_at d0 h = a') as Hgo.
  { intros P a' HP. by apply (HP (with_io h1 s)). }
  assert (forall P a', drives P a1 tt a' ->
    drives (outb 1014 0 ;; outb 498 1 ;; outb 499 (Z.land (b_sector b) 255) ;; outb 500 (Z.land (Z.shiftr (b_sector b) 8) 255) ;;
      outb 501 (Z.land (Z.shiftr (b_sector b) 16) 255) ;;
      outb 502 (Z.lor (Z.lor 224 (Z.shiftl (Z.land (b_dev b) 1) 4)) (Z.land (Z.shiftr (b_sector b) 24) 15)) ;; P) (ata_of s) tt a') as Hregs.
  { intros P a' HP. do 6 (eapply drives_bind; [apply drives_out|]). exact HP. }
  unfold active, stored, dirty. destruct (has (b_flags b) B_DIRTY).
  - assert (drives (outb 503 IDE_CMD_WRITE ;; outsl 496 (words_of 128 (b_data b))) a1 tt
      (Ata (at_lo a1) (at_mid a1) (at_hi a1) (at_dev a1) AIdle
        (put_block (at_blocks a1) (at_drive a1) (at_sector a1) (bytes_of_words ([] ++ words_of 128 (b_data b)))))) as Hw.
    { eapply drives_bind; [apply drives_out|]. apply (drives_outsl _ (set_mode (AWrite []) a1) []); [done|by rewrite length_words_of|done|].
      by apply words_range. }
    destruct (Hgo _ _ (Hregs _ _ Hw)) as (h & E & Ha). exists h. split; [exact E|]. split; [|done].
    rewrite Ha, Ed, Es. cbn [at_blocks app]. by rewrite words_bytes.
  - destruct (Hgo _ _ (Hregs _ _ (drives_out u8 503 IDE_CMD_READ a1))) as (h & E & Ha). exists h. split; [exact E|]. rewrite Ha.
    split; [done|]. intros _. done.
Qed.

(** ** The queue *)

Fixpoint linked (bs : list buf) (o : option nat) (q : list nat) : Prop :=
  match q with
  | [] => o = None
  | i :: q => o = Some i /\ exists b, bs !! i = Some b /\ linked bs (b_qnext b) q
  end.

(** The part of a buffer that is not its link in the queue. *)
Definition unlink (b : buf) : buf := bset_qnext None b.

Lemma linked_ext bs bs' o q :
  (forall i b, i ∈ q -> bs !! i = Some b -> exists b', bs' !! i = Some b' /\ b_qnext b' = b_qnext b) -> linked bs o q -> linked bs' o q.
Proof.
  revert o. induction q as [|i q IH]; intros o Hext; [done|]. intros [-> (b & Hb & Hq)]. split; [done|].
  destruct (Hext i b) as (b' & Hb' & E); [left|done|]. exists b'. split; [done|]. rewrite E. apply IH; [|done].
  intros j c Hj. apply Hext. by right.
Qed.

Lemma linked_in bs o q i : linked bs o q -> i ∈ q -> exists b, bs !! i = Some b.
Proof.
  revert o. induction q as [|j q IH]; intros o Hq Hi; [by apply elem_of_nil in Hi|].
  destruct Hq as [_ (b & Hb & Hq)]. apply elem_of_cons in Hi as [->|Hi]; eauto.
Qed.

Record ide_rep (s : kstate) (q : list nat) (m : Z -> Z -> list Z) : Prop := {
  ir_bufs : length (k_bufs s) = S NBUF;
  ir_queue : linked (k_bufs s) (e_queue (v_ide (k_dev s))) q;
  ir_nodup : NoDup q;
  ir_requests : forall i b, i ∈ q -> k_bufs s !! i = Some b -> request b;
  ir_disk : forall dr sec, at_blocks (ata_of s) dr sec = m dr sec;
  ir_blocks : forall dr sec, block_ok (m dr sec);
  ir_active : match q with i :: _ => exists b, k_bufs s !! i = Some b /\ active (ata_of s) b | [] => True end
}.

(** The buffer that completes: a read has its block, and both flags say that it agrees with the disk. *)
Definition served (m : Z -> Z -> list Z) (b : buf) : buf :=
  bset_flags (clr_flag (set_flag (b_flags b) B_VALID) B_DIRTY) (if dirty b then b else bset_data (m (drive b) (b_sector b)) b).

Definition next_blocks (bs : list buf) (m : Z -> Z -> list Z) (q : list nat) : Z -> Z -> list Z :=
  match q with j :: _ => match bs !! j with Some b => stored m b | None => m end | [] => m end.

Lemma stored_ok m b : (forall dr sec, block_ok (m dr sec)) -> request b -> forall dr sec, block_ok (stored m b dr sec).
Proof.
  intros Hm Hb dr sec. unfold stored, put_block. destruct (dirty b); [|done]. case_decide; [apply Hb|done].
Qed.

(** Taking the data of a read. *)
Lemma intr_data i b s m (h0 := io s) :
  k_bufs s !! i = Some b -> active (ata_of s) b -> (forall dr sec, at_blocks (ata_of s) dr sec = m dr sec) ->
  (forall dr sec, block_ok (m dr sec)) ->
  exists h, (if negb (has (b_flags b) B_DIRTY) then
         r <- idewait fuel true ;;
         if 0 <=? r then ws <- insl 496 128 ;; updb i (bset_data (bytes_of_words ws)) else ret tt
       else ret tt) s = Ret tt (set_bufs (<[i := if dirty b then b else bset_data (m (drive b) (b_sector b)) b]> (k_bufs s)) (with_io h s))
    /\ forall dr sec, at_blocks (ata_at d0 h) dr sec = m dr sec.
Proof using disk.
  intros Hb Hact Hdisk Hok. unfold dirty. destruct (has (b_flags b) B_DIRTY) eqn:Ed; cbn [negb].
  - exists (io s). split; [|done]. rewrite list_insert_id by done. by destruct s as [? ? ? ? ? ? ? ? ? ? ? ? ? []].
  - destruct (Hact Ed) as (Hmode & Hdr & Hsec).
    destruct (drives_idewait true (ata_of s) s eq_refl) as (h1 & E1 & Ha1).
    assert (block_ok (at_blocks (ata_of s) (at_drive (ata_of s)) (at_sector (ata_of s)))) as Hbok by (rewrite Hdisk; apply Hok).
    destruct (drives_insl 128 0 (ata_of s) Hmode ltac:(lia) Hbok (with_io h1 s) Ha1) as (h2 & E2 & Ha2). exists h2. split.
    + unfold bind at 1. rewrite E1. cbn [Z.leb Z.compare]. unfold bind. rewrite E2. rewrite with_io_twice.
      unfold updb. cbn [with_io set_dev k_bufs]. rewrite Hb. f_equal. fold (with_io h2 s). f_equal.
      rewrite drop_0, take_ge by (rewrite length_words_of; lia). rewrite Hdisk, Hdr, Hsec.
      destruct (Hok (drive b) (b_sector b)) as [Hl Hby]. rewrite words_bytes by done. by apply alter_insert.
    + intros dr sec. rewrite Ha2. cbn [set_mode at_blocks]. apply Hdisk.
Qed.

(** Starting the next request, if there is one. *)
Lemma start_next s q m :
  linked (k_bufs s) (e_queue (v_ide (k_dev s))) q -> (forall i b, i ∈ q -> k_bufs s !! i = Some b -> request b) ->
  (forall dr sec, at_blocks (ata_of s) dr sec = m dr sec) ->
  exists h, (match e_queue (v_ide (k_dev s)) with Some j => idestart fuel (Some j) | None => ret tt end) s = Ret tt (with_io h s)
    /\ (forall dr sec, at_blocks (ata_at d0 h) dr sec = next_blocks (k_bufs s) m q dr sec)
    /\ match q with j :: _ => exists b, k_bufs s !! j = Some b /\ active (ata_at d0 h) b | [] => True end.
Proof using disk.
  intros Hq Hreq Hdisk. destruct q as [|j q]; cbn [linked next_blocks] in *.
  - rewrite Hq. exists (io s). split; [by destruct s as [? ? ? ? ? ? ? ? ? ? ? ? ? []]|done].
  - destruct Hq as [-> (b & Hb & _)]. rewrite Hb. destruct (idestart_drives j b s Hb) as (h & E & Hbl & Hact).
    { apply (Hreq j); [left|done]. }
    exists h. split; [done|]. split; [|by exists b]. intros dr sec. rewrite Hbl. unfold stored, put_block.
    destruct (dirty b); [case_decide; [done|]|]; apply Hdisk.
Qed.

Lemma updb_insert i g b s : k_bufs s !! i = Some b -> updb i g s = Ret tt (set_bufs (<[i := g b]> (k_bufs s)) s).
Proof. intros Hb. unfold updb. rewrite Hb. by rewrite (alter_insert _ _ b). Qed.

(** The end of [ideintr]: the next request, and the lock. *)
Lemma intr_finish s s2 s4 i q b m h :
  length (k_bufs s2) = S NBUF -> linked (k_bufs s2) (b_qnext b) q -> i ∉ q -> NoDup q ->
  (forall j c, j ∈ i :: q -> k_bufs s2 !! j = Some c -> request c) -> (forall dr sec, block_ok (m dr sec)) ->
  (forall dr sec, at_blocks (ata_at d0 h) dr sec = m dr sec) -> LIde ∉ k_held s ->
  k_bufs s4 = <[i := served m b]> (k_bufs s2) -> io s4 = h -> k_procs s4 = map (wake (ChBuf i)) (k_procs s) ->
  k_held s4 = LIde :: k_held s -> e_queue (v_ide (k_dev s4)) = b_qnext b ->
  runs ((match e_queue (v_ide (k_dev s4)) with Some j => idestart fuel (Some j) | None => ret tt end) ;; release LIde) s4 (fun _ s' =>
    ide_rep s' q (next_blocks (k_bufs s2) m q) /\ k_bufs s' = <[i := served m b]> (k_bufs s2) /\
    k_procs s' = map (wake (ChBuf i)) (k_procs s) /\ k_held s' = k_held s).
Proof using disk.
  intros Hlen Hq Hni Hnd Hreq Hok Hbl Hl Hbufs4 Hio4 Hprocs4 Hheld4 Hqueue4.
  assert (forall j, j ∈ q -> k_bufs s4 !! j = k_bufs s2 !! j) as Hsame.
  { intros j Hj. rewrite Hbufs4. apply list_lookup_insert_ne. by intros ->. }
  assert (linked (k_bufs s4) (b_qnext b) q) as Hq4.
  { eapply linked_ext; [|exact Hq]. intros j c Hj Hc. exists c. split; [|done]. by rewrite (Hsame j Hj). }
  assert (forall j c, j ∈ q -> k_bufs s4 !! j = Some c -> request c) as Hreq4.
  { intros j c Hj Hc. rewrite (Hsame j Hj) in Hc. apply (Hreq j); [by right|done]. }
  destruct (start_next s4 q m) as (h4 & E4 & Hbl4 & Hact4).
  { by rewrite Hqueue4. } { done. } { unfold ata_of. by rewrite Hio4. }
  assert (next_blocks (k_bufs s4) m q = next_blocks (k_bufs s2) m q) as En.
  { destruct q as [|j q']; [done|]. unfold next_blocks. by rewrite (Hsame j) by left. }
  rewrite En in Hbl4. eapply runs_eq; [exact E4|]. eapply runs_eq_last; [by apply (release_top _ (k_held s))|].
  cbn [set_held k_bufs k_procs k_held with_io set_dev]. split_and!; [|done..].
  split; cbn [set_held with_io set_dev k_bufs k_dev vset_io v_ide]; try done.
  - by rewrite Hbufs4, length_insert.
  - by rewrite Hqueue4.
  - destruct q as [|j q']; [done|]. unfold next_blocks. destruct (k_bufs s2 !! j) eqn:Ej; [|done]. apply stored_ok; [done|].
    apply (Hreq j); [right; left|done].
Qed.

Lemma ideintr_runs s i q b m :
  ide_rep s (i :: q) m -> k_bufs s !! i = Some b -> LIde ∉ k_held s -> LPtable ∉ k_held s ->
  runs (ideintr fuel) s (fun _ s' => ide_rep s' q (next_blocks (k_bufs s) m q) /\
    k_bufs s' = <[i := served m b]> (k_bufs s) /\ k_procs s' = map (wake (ChBuf i)) (k_procs s) /\ k_held s' = k_held s).
Proof using disk.
  intros [Hlen Hq Hnd Hreq Hdisk Hok Hact] Hb Hl Hp. cbn [linked] in Hq. destruct Hq as [Hhead (b' & Hb' & Hq)].
  rewrite Hb in Hb'. injection Hb' as <-. destruct Hact as (b' & Hb' & Hact). rewrite Hb in Hb'. injection Hb' as <-.
  apply NoDup_cons in Hnd as [Hni Hnd]. apply lookup_lt_Some in Hb as Hlt.
  unfold ideintr. eapply runs_eq; [by apply acquire_free|]. eapply runs_eq; [reflexivity|]. cbn [set_held k_dev]. rewrite Hhead.
  eapply runs_getb; [exact Hb|]. eapply runs_eq; [reflexivity|]. set (s2 := set_dev _ _).
  assert (k_bufs s2 = k_bufs s /\ ata_of s2 = ata_of s /\ k_procs s2 = k_procs s /\ k_held s2 = LIde :: k_held s /\
    e_queue (v_ide (k_dev s2)) = b_qnext b) as (Hbufs2 & Hata2 & Hprocs2 & Hheld2 & Hqueue2) by done.
  clearbody s2. rewrite <- Hbufs2 in *. rewrite <- Hata2 in *.
  destruct (intr_data i b s2 m Hb Hact Hdisk Hok) as (h & E & Hbl). eapply runs_eq; [exact E|]. clear E.
  set (b1 := if dirty b then b else _). eapply runs_eq.
  { apply updb_insert. cbn [set_bufs k_bufs]. by apply list_lookup_insert_eq. }
  cbn [set_bufs k_bufs]. rewrite list_insert_insert_eq. eapply runs_eq.
  { apply updb_insert. cbn [set_bufs k_bufs]. by apply list_lookup_insert_eq. }
  cbn [set_bufs k_bufs]. rewrite list_insert_insert_eq.
  assert (bset_flags (clr_flag (b_flags (bset_flags (set_flag (b_flags b1) B_VALID) b1)) B_DIRTY)
    (bset_flags (set_flag (b_flags b1) B_VALID) b1) = served m b) as Es by (unfold served, b1; by destruct (dirty b)).
  cbv beta. rewrite Es, !set_bufs_bufs. clear Es b1.
  eapply runs_eq.
  { apply wakeup_eq. cbn [with_io set_dev set_bufs k_held]. rewrite Hheld2. set_solver. }
  eapply runs_eq; [reflexivity|]. set (s4 := set_procs _ _).
  assert (k_bufs s4 = <[i := served m b]> (k_bufs s2) /\ io s4 = h /\ k_procs s4 = map (wake (ChBuf i)) (k_procs s2) /\
    k_held s4 = k_held s2 /\ e_queue (v_ide (k_dev s4)) = e_queue (v_ide (k_dev s2))) as (Hbufs4 & Hio4 & Hprocs4 & Hheld4 & Hqueue4)
    by (unfold s4; clear; by destruct s2 as [? ? ? ? ? ? ? ? ? ? ? ? ? []]).
  clearbody s4. apply (intr_finish s s2 s4 i q b m h); try done; congruence.
Qed.

(** ** Queueing a request *)

Definition put_ide (l : list buf) (o : option nat) (s : kstate) : kstate :=
  set_dev (vset_ide (eset_queue o (v_ide (k_dev s))) (k_dev s)) (set_bufs l s).

(** The walk ends at the last buffer, whose link is set. *)
Lemma append_from_eq q : forall n j i z s,
  linked (k_bufs s) (Some j) (q ++ [z]) -> (length q < n)%nat ->
  append_from n j i s = Ret tt (set_bufs (alter (bset_qnext (Some i)) z (k_bufs s)) s).
Proof.
  induction q as [|x q IH]; intros n j i z s Hq Hn; (destruct n as [|n]; [cbn in Hn; lia|]); cbn [app linked] in Hq;
    destruct Hq as [[= ->] (b & Hb & Hq)]; cbn [append_from]; unfold bind, getb, nth_or_fault; rewrite Hb.
  - rewrite Hq. unfold updb. by rewrite Hb.
  - assert (exists y, b_qnext b = Some y) as [y Ey] by (destruct q as [|y q]; cbn in Hq; destruct Hq as [-> _]; eauto).
    rewrite Ey in Hq |- *. apply IH; [done|cbn in Hn; lia].
Qed.

Lemma linked_snoc bs o q z i b :
  linked bs o (q ++ [z]) -> NoDup (q ++ [z]) -> i ∉ q ++ [z] -> bs !! i = Some b -> b_qnext b = None ->
  linked (alter (bset_qnext (Some i)) z bs) o (q ++ [z; i]).
Proof.
  revert o. induction q as [|x q IH]; intros o Hq Hnd Hi Hb Hnone; cbn [app linked] in *; destruct Hq as [-> (c & Hc & Hq)].
  - split; [done|]. exists (bset_qnext (Some i) c). split; [by rewrite list_lookup_alter_eq, Hc|]. split; [done|].
    exists b. split; [|done]. rewrite list_lookup_alter_ne by set_solver. done.
  - apply NoDup_cons in Hnd as [Hx Hnd]. split; [done|]. exists c. split; [rewrite list_lookup_alter_ne by set_solver; done|].
    apply IH; [done|done|set_solver|done|done].
Qed.

(** The links change, and nothing else of the buffers. *)
Definition same_but_links (bs bs' : list buf) : Prop :=
  length bs' = length bs /\ forall j b, bs !! j = Some b -> exists b', bs' !! j = Some b' /\ unlink b' = unlink b.

Lemma append_queue_eq s q i b :
  linked (k_bufs s) (e_queue (v_ide (k_dev s))) q -> NoDup q -> i ∉ q -> (length q <= S NBUF)%nat ->
  k_bufs s !! i = Some b -> b_qnext b = None ->
  exists l o, append_queue i s = Ret tt (put_ide l o s) /\ linked l o (q ++ [i]) /\ same_but_links (k_bufs s) l /\ head (q ++ [i]) = o.
Proof.
  intros Hq Hnd Hi Hl Hb Hnone. unfold append_queue, bind, get_ide, gets.
  destruct q as [|z q _] using rev_ind.
  - cbn in Hq. rewrite Hq. exists (k_bufs s), (Some i). split.
    { unfold upd_ide, upd_dev, modify, put_ide. by destruct s as [? ? ? ? ? ? ? ? ? ? ? ? ? [? [] ? ? ? ? ? ?]]. }
    split; [cbn; eauto|]. split; [|done]. split; [done|]. eauto.
  - assert (exists j, e_queue (v_ide (k_dev s)) = Some j /\ head (q ++ [z]) = Some j) as (j & Ej & Hh).
    { destruct q as [|y q]; cbn in Hq; destruct Hq as [-> _]; cbn; eauto. }
    rewrite Ej in Hq |- *. rewrite length_app in Hl. cbn in Hl. rewrite (append_from_eq q _ j i z) by (done || lia).
    exists (alter (bset_qnext (Some i)) z (k_bufs s)), (Some j). split_and!.
    + unfold put_ide. destruct s as [? ? ? ? ? ? ? ? ? ? ? ? ? [? [] ? ? ? ? ? ?]]. cbn in Ej |- *. by rewrite Ej.
    + rewrite <- app_assoc. by eapply linked_snoc.
    + split; [apply length_alter|]. intros k c Hk. destruct (decide (k = z)) as [->|Hne].
      * rewrite list_lookup_alter_eq, Hk. by eexists.
      * rewrite list_lookup_alter_ne by done. eauto.
    + rewrite <- app_assoc. destruct q; done.
Qed.

Lemma unlink_eq b b' :
  unlink b' = unlink b ->
  (request b -> request b') /\ (forall a, active a b -> active a b') /\ (forall m, stored m b' = stored m b) /\ synced_flags b' = synced_flags b.
Proof.
  destruct b, b'. unfold unlink, bset_qnext. cbn. intros [= -> -> -> -> -> ->]. split_and!; try done.
  intros [Hd Hs Ht]. by split.
Qed.

Lemma same_links_inv bs bs' j x : same_but_links bs bs' -> bs' !! j = Some x -> exists y, bs !! j = Some y /\ unlink x = unlink y.
Proof.
  intros [Hl Hs] Hx. destruct (lookup_lt_is_Some_2 bs j) as [y Hy]; [apply lookup_lt_Some in Hx; lia|].
  exists y. split; [done|]. destruct (Hs j y Hy) as (x' & Hx' & E). congruence.
Qed.

(** The disk is idle when the queue was empty, and then the request starts at once. *)
Definition submitted (m : Z -> Z -> list Z) (q : list nat) (b : buf) : Z -> Z -> list Z :=
  match q with [] => stored m b | _ :: _ => m end.

Lemma submit_start s q m i b :
  linked (k_bufs s) (e_queue (v_ide (k_dev s))) (q ++ [i]) -> i ∉ q -> k_bufs s !! i = Some b -> request b ->
  (forall dr sec, at_blocks (ata_of s) dr sec = m dr sec) ->
  match q with j :: _ => exists c, k_bufs s !! j = Some c /\ active (ata_of s) c | [] => True end ->
  exists h, (if bool_decide (e_queue (v_ide (k_dev s)) = Some i) then idestart fuel (Some i) else ret tt) s = Ret tt (with_io h s)
    /\ (forall dr sec, at_blocks (ata_at d0 h) dr sec = submitted m q b dr sec)
    /\ match q ++ [i] with j :: _ => exists c, k_bufs s !! j = Some c /\ active (ata_at d0 h) c | [] => True end.
Proof using disk.
  intros Hq Hi Hb Hreq Hdisk Hact. destruct q as [|j q]; cbn [app linked submitted] in *; destruct Hq as [-> _].
  - rewrite bool_decide_eq_true_2 by done. destruct (idestart_drives i b s Hb Hreq) as (h & E & Hbl & Ha). exists h.
    split; [done|]. split; [|by exists b]. intros dr sec. rewrite Hbl. unfold stored, put_block.
    destruct (dirty b); [case_decide; [done|]|]; apply Hdisk.
  - rewrite bool_decide_eq_false_2 by (intros [= ->]; set_solver). exists (io s).
    split; [by destruct s as [? ? ? ? ? ? ? ? ? ? ? ? ? []]|]. done.
Qed.

(** The rest of [iderw]: the disk starts when it was idle, and the process sleeps. *)
Lemma iderw_waits s q m i b c p :
  length (k_bufs s) = S NBUF -> linked (k_bufs s) (e_queue (v_ide (k_dev s))) (q ++ [i]) -> NoDup (q ++ [i]) ->
  (forall j x, j ∈ q ++ [i] -> k_bufs s !! j = Some x -> request x) -> k_bufs s !! i = Some b ->
  (forall dr sec, at_blocks (ata_of s) dr sec = m dr sec) -> (forall dr sec, block_ok (m dr sec)) ->
  match q with j :: _ => exists x, k_bufs s !! j = Some x /\ active (ata_of s) x | [] => True end ->
  k_held s = [LIde] -> k_cur s = Some c -> k_procs s !! c = Some p ->
  exists s', (e <- get_ide ;; (if bool_decide (e_queue e = Some i) then idestart fuel (Some i) else ret tt) ;;
      ide_sleep 2 i ;; release LIde) s = Sched s' /\
    ide_rep s' (q ++ [i]) (submitted m q b) /\ k_bufs s' = k_bufs s /\
    k_procs s' = <[c := asleep (ChBuf i) p]> (k_procs s) /\ k_held s' = [LPtable].
Proof using disk.
  intros Hlen Hq Hnd Hreq Hb Hdisk Hok Hact Hheld Hcur Hp.
  assert (request b) as Hrb by (apply (Hreq i); [set_solver|done]).
  assert (i ∉ q) as Hi by (apply NoDup_app in Hnd as (_ & Hn & _); intros Hin; apply (Hn i Hin); left).
  destruct (submit_start s q m i b) as (h & E & Hbl & Hact'); [done..|]. unfold get_ide, gets. unfold bind at 1.
  unfold bind at 1. rewrite E. clear E. unfold bind at 1. cbn [ide_sleep].
  unfold bind at 1, getb, nth_or_fault. cbn [with_io set_dev k_bufs]. rewrite Hb, (rq_todo _ Hrb).
  unfold bind at 1. rewrite (sleep_eq _ _ _ c p) by done. eexists. split; [reflexivity|].
  cbn [set_held set_procs set_dev k_bufs k_procs k_held]. split_and!; [|done..].
  split; cbn [set_held set_procs set_dev k_bufs k_dev vset_io v_ide]; try done.
  destruct q; [by apply stored_ok|done].
Qed.

Lemma linked_short bs o q : linked bs o q -> NoDup q -> (length q <= length bs)%nat.
Proof.
  intros Hq Hnd. rewrite <- (length_seq (length bs) 0). apply submseteq_length, NoDup_submseteq; [done|].
  intros i Hi. destruct (linked_in _ _ _ _ Hq Hi) as [b Hb]. apply lookup_lt_Some in Hb. apply elem_of_seq. lia.
Qed.

(** [iderw] puts the request at the end of the queue, and the process sleeps until it is served. *)
Lemma iderw_submits s q m i b c p :
  ide_rep s q m -> k_bufs s !! i = Some b -> has (b_flags b) B_BUSY = true -> request b -> i ∉ q ->
  (b_dev b = 0 \/ e_havedisk1 (v_ide (k_dev s)) <> 0) ->
  k_held s = [] -> k_cur s = Some c -> k_procs s !! c = Some p ->
  exists s', iderw fuel i s = Sched s' /\ ide_rep s' (q ++ [i]) (submitted m q b) /\ same_but_links (k_bufs s) (k_bufs s') /\
    k_procs s' = <[c := asleep (ChBuf i) p]> (k_procs s) /\ k_held s' = [LPtable].
Proof using disk.
  intros [Hlen Hq Hnd Hreq Hdisk Hok Hact] Hb Hbusy Hrb Hi Hdev Hheld Hcur Hp.
  unfold iderw, bind at 1, getb, nth_or_fault. rewrite Hb, Hbusy, (rq_todo _ Hrb). cbn [negb].
  unfold bind at 1, get_ide, gets.
  replace (negb (b_dev b =? 0) && (e_havedisk1 (v_ide (k_dev s)) =? 0)) with false
    by (destruct Hdev as [->|Hd]; [done|apply Z.eqb_neq in Hd; by rewrite Hd, andb_false_r]).
  unfold bind at 1. rewrite acquire_free by (rewrite Hheld; set_solver). rewrite Hheld.
  unfold bind at 1. rewrite (updb_insert _ _ b) by done. fold (unlink b). set (s1 := set_bufs _ _).
  assert (k_bufs s1 = <[i := unlink b]> (k_bufs s) /\ k_dev s1 = k_dev s /\ k_procs s1 = k_procs s /\ k_held s1 = [LIde] /\
    k_cur s1 = k_cur s) as (Hbufs1 & Hdev1 & Hprocs1 & Hheld1 & Hcur1) by done.
  clearbody s1. destruct (append_queue_eq s1 q i (unlink b)) as (l & o & E & Hq2 & Hsame & Ho).
  { rewrite Hbufs1, Hdev1. eapply linked_ext; [|exact Hq]. intros j x Hj Hx. exists x. split; [|done].
    rewrite list_lookup_insert_ne; [done|set_solver]. }
  { done. } { done. } { rewrite <- Hlen. by eapply linked_short. } { rewrite Hbufs1. apply list_lookup_insert_eq. by eapply lookup_lt_Some. } { done. }
  unfold bind at 1. rewrite E. clear E. destruct Hsame as [Hlen2 Hsame]. rewrite Hbufs1, length_insert in Hlen2.
  assert (same_but_links (k_bufs s) l) as Hlinks.
  { split; [done|]. intros j x Hj. destruct (decide (j = i)) as [->|Hne].
    - rewrite Hb in Hj. injection Hj as <-. apply (Hsame i (unlink b)). rewrite Hbufs1. apply list_lookup_insert_eq.
      by eapply lookup_lt_Some.
    - apply Hsame. by rewrite Hbufs1, list_lookup_insert_ne. }
  clear Hsame. destruct (proj2 Hlinks i b Hb) as (b' & Hb' & Eb). destruct (unlink_eq _ _ Eb) as (Hrb' & _ & Est & _).
  assert (submitted m q b' = submitted m q b) as <- by (destruct q; [apply Est|done]).
  destruct (iderw_waits (put_ide l o s1) q m i b' c p) as (s' & E & Hrep & Hbs & Hps & Hh).
  - cbn [put_ide set_dev set_bufs k_bufs]. congruence.
  - done.
  - apply NoDup_app. split_and!; [done| |apply NoDup_singleton]. intros j Hj Hj'. set_solver.
  - cbn [put_ide set_dev set_bufs k_bufs]. intros j x Hj Hx. destruct (same_links_inv _ _ _ _ Hlinks Hx) as (y & Hy & Ex).
    apply (unlink_eq _ _ Ex). apply elem_of_app in Hj as [Hj|Hj]; [by apply (Hreq j)|].
    apply list_elem_of_singleton in Hj as ->. congruence.
  - done.
  - unfold ata_of, io. cbn [put_ide set_dev k_dev vset_ide v_io]. rewrite Hdev1. exact Hdisk.
  - done.
  - destruct q as [|j q]; [done|]. destruct Hact as (x & Hx & Ha). destruct (proj2 Hlinks j x Hx) as (x' & Hx' & Ex).
    exists x'. split; [done|]. apply (unlink_eq _ _ Ex). unfold ata_of, io. cbn [put_ide set_dev k_dev vset_ide v_io].
    rewrite Hdev1. exact Ha.
  - done.
  - cbn. congruence.
  - cbn. congruence.
  - exists s'. rewrite Hbs, Hps. split_and!; try done. cbn [put_ide set_dev set_bufs k_procs]. by rewrite Hprocs1.
Qed.

(** ** Serving the queue *)

Fixpoint interrupts (n : nat) : K unit :=
  match n with
  | O => ret tt
  | S n => ideintr fuel ;; interrupts n
  end.

(** The blocks when the requests behind the first have reached the disk, in the order of the queue. *)
Definition store_at (bs : list buf) (m : Z -> Z -> list Z) (j : nat) : Z -> Z -> list Z :=
  match bs !! j with Some b => stored m b | None => m end.
Definition flushed (bs : list buf) (m : Z -> Z -> list Z) (q : list nat) : Z -> Z -> list Z := foldl (store_at bs) m (tail q).

Lemma store_at_ext bs bs' q : forall m,
  (forall j m, j ∈ q -> store_at bs' m j = store_at bs m j) -> foldl (store_at bs') m q = foldl (store_at bs) m q.
Proof.
  induction q as [|j q IH]; intros m Hbs; [done|]. cbn [foldl]. rewrite Hbs by left. apply IH. intros k x Hk. apply Hbs. by right.
Qed.

Lemma flushed_links bs bs' m q : same_but_links bs bs' -> flushed bs' m q = flushed bs m q.
Proof.
  intros Hs. apply store_at_ext. intros j x _. unfold store_at. destruct (bs' !! j) as [b'|] eqn:Hb'.
  - destruct (same_links_inv _ _ _ _ Hs Hb') as (b & -> & E). apply (unlink_eq _ _ E).
  - apply lookup_ge_None_1 in Hb'. destruct Hs as [Hl _]. by rewrite lookup_ge_None_2 by lia.
Qed.

(** The last request is on the disk when all are. *)
Lemma flushed_last bs m q i b :
  bs !! i = Some b -> exists m', flushed bs (submitted m q b) (q ++ [i]) = stored m' b.
Proof.
  intros Hb. unfold flushed. destruct q as [|j q]; cbn [app tail submitted]; [by exists m|].
  rewrite foldl_app. cbn [foldl]. unfold store_at at 1. rewrite Hb. eauto.
Qed.

Lemma flushed_next bs bs' m i q :
  (forall j, j ∈ q -> bs' !! j = bs !! j) -> flushed bs' (next_blocks bs m q) q = flushed bs m (i :: q).
Proof.
  intros Hbs. unfold flushed. destruct q as [|j q]; [done|]. cbn [tail foldl next_blocks]. fold (store_at bs m j).
  apply store_at_ext. intros k x Hk. unfold store_at. by rewrite Hbs by by right.
Qed.

(** As many interrupts as there are requests serve them all, the last one after the others. *)
Lemma interrupts_serve q : forall s i b m,
  ide_rep s (q ++ [i]) m -> k_bufs s !! i = Some b -> LIde ∉ k_held s -> LPtable ∉ k_held s ->
  runs (interrupts (S (length q))) s (fun _ s' => ide_rep s' [] (flushed (k_bufs s) m (q ++ [i])) /\
    k_bufs s' !! i = Some (served (flushed (k_bufs s) m (q ++ [i])) b) /\
    k_procs s' = foldl (fun ps j => map (wake (ChBuf j)) ps) (k_procs s) (q ++ [i])).
Proof using disk.
  induction q as [|j q IH]; intros s i b m Hrep Hb Hl Hp; cbn [app length interrupts] in *.
  - eapply runs_step; [by apply (ideintr_runs s i [] b m)|]. cbn beta. intros _ s' (Hrep' & Hbs & Hps & _). apply runs_ret.
    split; [done|]. split; [|done]. rewrite Hbs. apply list_lookup_insert_eq. by eapply lookup_lt_Some.
  - destruct (linked_in _ _ _ j (ir_queue _ _ _ Hrep) ltac:(left)) as [x Hx].
    pose proof (ir_nodup _ _ _ Hrep) as Hnd. apply NoDup_cons in Hnd as [Hj Hnd].
    eapply runs_step; [by apply (ideintr_runs s j (q ++ [i]) x m)|]. cbn beta. intros _ s' (Hrep' & Hbs & Hps & Hh).
    eapply runs_mono; [apply (IH s' i b _ Hrep'); [|by rewrite Hh..]|].
    + rewrite Hbs, list_lookup_insert_ne; [done|set_solver].
    + cbn beta. intros _ s2. rewrite (flushed_next (k_bufs s) (k_bufs s') m j). 2:{ intros k Hk. rewrite Hbs. apply list_lookup_insert_ne. by intros ->. }
      by rewrite Hps.
Qed.

(** A process asleep on a buffer runs again once the buffer is served, and not before. *)
Lemma wakes_last q i c p ps :
  i ∉ q -> ps !! c = Some (asleep (ChBuf i) p) ->
  foldl (fun ps j => map (wake (ChBuf j)) ps) ps (q ++ [i]) !! c = Some (pset_state RUNNABLE (asleep (ChBuf i) p)).
Proof.
  revert ps. induction q as [|j q IH]; intros ps Hi Hc; cbn [app foldl].
  - rewrite list_lookup_fmap, Hc. cbn. unfold wake. by rewrite !bool_decide_eq_true_2.
  - apply IH; [set_solver|]. rewrite list_lookup_fmap, Hc. cbn. unfold wake.
    rewrite (bool_decide_eq_false_2 (_ = Some (ChBuf j))); [by rewrite andb_false_r|]. cbn. intros [= ->]. set_solver.
Qed.

Lemma served_synced m b : synced_flags (served m b) = true.
Proof.
  unfold synced_flags, served, clr_flag, set_flag. cbn [b_flags bset_flags]. apply Z.eqb_eq.
  rewrite <- Z.land_assoc. change (Z.land (Z.lnot B_DIRTY) (Z.lor B_VALID B_DIRTY)) with B_VALID.
  rewrite Z.land_lor_distr_l, Z.land_diag. apply Z.bits_inj'. intros n _. rewrite Z.lor_spec, Z.land_spec.
  by destruct (Z.testbit _ n), (Z.testbit B_VALID n).
Qed.

(** C9. A disk request completes. A process hands the busy buffer [i] to [iderw] when the requests [q] are queued: it sleeps
    on the buffer with the request at the end of the queue, and after one interrupt for each request it is runnable again, the
    queue is empty, the buffer is valid and clean, and its data is the block on the disk: the one it wrote, or the one it
    reads as the requests queued before it leave it. *)
Theorem iderw_completes s q m i b c p (M := flushed (k_bufs s) (submitted m q b) (q ++ [i])) :
  ide_rep s q m -> k_bufs s !! i = Some b -> has (b_flags b) B_BUSY = true -> request b -> i ∉ q ->
  (b_dev b = 0 \/ e_havedisk1 (v_ide (k_dev s)) <> 0) ->
  k_held s = [] -> k_cur s = Some c -> k_procs s !! c = Some p ->
  exists s1, iderw fuel i s = Sched s1 /\ k_procs s1 !! c = Some (asleep (ChBuf i) p) /\
    runs (release LPtable ;; interrupts (S (length q))) s1 (fun _ s' => ide_rep s' [] M /\
      k_procs s' !! c = Some (pset_state RUNNABLE (asleep (ChBuf i) p)) /\
      exists b', k_bufs s' !! i = Some b' /\ synced_flags b' = true /\ b_data b' = M (drive b) (b_sector b) /\
        (dirty b = true -> b_data b' = b_data b)).
Proof using disk.
  intros Hrep Hb Hbusy Hrb Hi Hdev Hheld Hcur Hp.
  destruct (iderw_submits s q m i b c p) as (s1 & E & Hrep1 & Hlinks & Hps & Hh); try done. exists s1. split; [done|].
  assert (k_procs s1 !! c = Some (asleep (ChBuf i) p)) as Hc.
  { rewrite Hps. apply list_lookup_insert_eq. by eapply lookup_lt_Some. }
  split; [done|]. destruct (proj2 Hlinks i b Hb) as (b1 & Hb1 & E1). eapply runs_eq; [apply (release_top _ []); [done|set_solver]|].
  eapply runs_mono; [apply (interrupts_serve q (set_held [] s1) i b1); [|done|set_solver..]|].
  { destruct Hrep1. by split. }
  cbn beta. intros _ s' (Hrep2 & Hb2 & Hps2). cbn [set_held k_bufs k_procs] in *. rewrite (flushed_links _ _ _ _ Hlinks) in Hrep2, Hb2.
  fold M in Hrep2, Hb2. split; [done|]. split; [rewrite Hps2; by apply wakes_last|]. exists (served M b1). split; [done|].
  split; [apply served_synced|]. destruct (flushed_last (k_bufs s) m q i b Hb) as [m' EM]. fold M in EM.
  assert (dirty b1 = dirty b /\ drive b1 = drive b /\ b_sector b1 = b_sector b /\ b_data b1 = b_data b) as (Ed & Er & Es & Ex).
  { destruct b, b1. unfold unlink, bset_qnext in E1. cbn in E1. by injection E1 as -> -> -> -> -> ->. }
  unfold served. rewrite Ed, Er, Es. destruct (dirty b) eqn:Edb; cbn [bset_flags bset_data b_data]; [|done].
  rewrite Ex, EM. unfold stored, put_block. rewrite Edb. split; [|done]. by rewrite decide_True.
Qed.
End driver.

(** ** A disk *)

(** A disk that is always ready. *)
Definition model_disk (d0 : Z -> Z -> list Z) : Devices := {|
  answer h port :=
    if port =? 503 then IDE_DRDY
    else match at_mode (ata_at d0 h) with
    | ARead n => nth n (words_of 128 (at_blocks (ata_at d0 h) (at_drive (ata_at d0 h)) (at_sector (ata_at d0 h)))) 0
    | _ => 0
    end
|}.

Lemma model_disk_ok d0 : @AtaDisk d0 (model_disk d0) 1.
Proof. split; [done|]. intros h n Hm Hn. cbn [answer model_disk Z.eqb Pos.eqb]. by rewrite Hm. Qed.

(** Two writes of sector 7 are queued, the first has reached the disk, and a read of the sector is to follow. *)
Definition demo_blocks (dr sec : Z) : list Z := replicate 512 (if sec =? 7 then 1 else 0).
Definition demo_write1 : buf := Buf 7 0 7 0 0 (Some 2%nat) (replicate 512 1).
Definition demo_write2 : buf := Buf 7 0 7 0 0 None (replicate 512 2).
Definition demo_read : buf := Buf 1 0 7 0 0 None (replicate 512 0).
Definition ide_demo : kstate :=
  set_dev (vset_ide (Ide (Some 1%nat) 0) zero_devs)
    (set_cur (Some 0%nat) (set_bufs (zero_buf :: demo_write1 :: demo_write2 :: demo_read :: replicate (NBUF - 3) zero_buf)
      (boot_state (Disk ∅ 0 [])))).

Lemma byte_block_ok x : 0 <= x < 256 -> block_ok (replicate 512 x).
Proof. intros Hx. split; [apply length_replicate|]. by apply Forall_replicate. Qed.

Lemma demo_requests : request demo_write1 /\ request demo_write2 /\ request demo_read.
Proof. split_and!; (split; [apply byte_block_ok; lia|cbn; lia|done]). Qed.

Lemma ide_demo_rep : ide_rep demo_blocks ide_demo [1%nat; 2%nat] demo_blocks.
Proof.
  destruct demo_requests as (H1 & H2 & _). split; try done.
  - cbn. split; [done|]. eexists. split; [done|]. split; [done|]. by eexists.
  - repeat constructor; set_solver.
  - intros i b Hi Hb. assert (i = 1%nat \/ i = 2%nat) as [-> | ->] by set_solver; by injection Hb as <-.
  - intros dr sec. apply byte_block_ok. destruct (sec =? 7); lia.
  - by exists demo_write1.
Qed.

(** The read returns what the second write stored. *)
Lemma iderw_completes_witness :
  exists s1, @iderw (model_disk demo_blocks) 1 3 ide_demo = Sched s1 /\
    runs (release LPtable ;; @interrupts (model_disk demo_blocks) 1 3) s1 (fun _ s' =>
      exists b', k_bufs s' !! 3%nat = Some b' /\ b_data b' = replicate 512 2).
Proof.
  destruct (@iderw_completes (model_disk demo_blocks) demo_blocks 1 (model_disk_ok demo_blocks) ide_demo [1%nat; 2%nat] demo_blocks 3 demo_read
    0 zero_proc ide_demo_rep) as (s1 & E & _ & Hr).
  - reflexivity.
  - reflexivity.
  - apply demo_requests.
  - set_solver.
  - left. reflexivity.
  - reflexivity.
  - reflexivity.
  - reflexivity.
  - exists s1. split; [exact E|]. eapply runs_mono; [exact Hr|]. cbn beta. intros _ s' (_ & _ & b' & Hb & _ & Hd & _).
    exists b'. split; [exact Hb|]. rewrite Hd. vm_compute. reflexivity.
Defined.
