(* ===== verification/Trap.v ===== *)
(** * Process system calls, system call dispatch and traps
      (kernel/sysproc.c, kernel/syscall.c, kernel/trap.c) *)

From S2P Require Import Prelude Types Monad Sched Bio KString Log Fs FsDir Mem Kalloc Vm Pipe File Proc.
From S2P Require Import Syscall Exec Sysfile Port Print Irq Console Ide.

Section code.
Context {drv : DiskDriver} (dv : devsw) {L : Layout} {I : Image} {D : Devices}.

(** ** kernel/sysproc.c *)

Definition sys_fork : K Z := fork.
Definition sys_exit : K Z := exit ;; ret 0.
Definition sys_wait : K Z := wait.
Definition sys_kill : K Z := pid <- argint 0 ;; kill pid.

(** [struct pstat] (include/pstat.h): four arrays of [NPROC] ints. *)
Definition sizeof_pstat : Z := 1024.
Definition put_pstat (pstat : Z) (i : nat) : K unit :=
  p <- get_proc i ;;
  let at_ k := pstat + 256 * k + 4 * Z.of_nat i in
  vstore32 (at_ 0) (p_inuse p) ;;
  vstore32 (at_ 2) (p_pid p) ;;
  vstore32 (at_ 3) (p_ticks p) ;;
  vstore32 (at_ 1) (p_tickets p).

(** [junk] is what the local [pstat] holds when [argptr] does not set it. *)
Definition sys_getpinfo (junk : Z) : K Z :=
  o <- argptr 0 sizeof_pstat ;;
  let pstat := match o with Some a => a | None => junk end in
  if pstat =? 0 then ret (-1) else
  acquire LPtable ;;
  foreach (put_pstat pstat) (seq 0 NPROC) ;;
  release LPtable ;;
  ret 0.

Definition sys_getpid : K Z := p <- myproc ;; ret (p_pid p).

(** [growproc]'s parameter is an [int]. *)
Definition sys_sbrk : K Z :=
  n <- arguintp 0 ;;
  p <- myproc ;;
  r <- growproc (s32 n) ;;
  if r <? 0 then ret (u64 (-1)) else ret (p_sz p).

(** [ticks - ticks0 < n] compares as [uint]. Control leaves in [sleep], so one test after it is
    enough fuel for a run on one CPU. *)
Fixpoint sleep_loop (fuel : nat) (ticks0 n : Z) : K Z :=
  match fuel with
  | O => nofuel
  | S fuel =>
      t <- gets k_ticks ;;
      if u32 (t - ticks0) <? u32 n then
        killed <- cur_killed ;;
        if killed : bool then release LTicks ;; ret (-1)
        else sleep ChTicks LTicks ;; sleep_loop fuel ticks0 n
      else release LTicks ;; ret 0
  end.

Definition sys_sleep : K Z :=
  n <- argint 0 ;;
  acquire LTicks ;;
  t <- gets k_ticks ;;
  sleep_loop 2 t n.

Definition sys_uptime : K Z :=
  acquire LTicks ;;
  t <- gets k_ticks ;;
  release LTicks ;;
  ret (s32 t).

(** ** Dispatch (kernel/syscall.c) *)

(** Uninitialised locals: the ELF header of [exec], the pointer of [sys_getpinfo]. *)
Context (junk_elf : list Z) (junk_pstat : Z).

(** The table [syscalls]: the calls by number (include/syscall.h), null elsewhere. *)
Definition syscalls (num : Z) : option (K Z) :=
  if num =? 1 then Some sys_fork
  else if num =? 2 then Some sys_exit
  else if num =? 3 then Some sys_wait
  else if num =? 4 then Some sys_pipe
  else if num =? 5 then Some (sys_read dv)
  else if num =? 6 then Some sys_kill
  else if num =? 7 then Some (sys_exec dv junk_elf)
  else if num =? 8 then Some sys_fstat
  else if num =? 9 then Some (sys_chdir dv)
  else if num =? 10 then Some sys_dup
  else if num =? 11 then Some sys_getpid
  else if num =? 12 then Some sys_sbrk
  else if num =? 13 then Some sys_sleep
  else if num =? 14 then Some sys_uptime
  else if num =? 15 then Some (sys_open dv)
  else if num =? 16 then Some (sys_write dv)
  else if num =? 17 then Some (sys_mknod dv)
  else if num =? 18 then Some (sys_unlink dv)
  else if num =? 19 then Some (sys_link dv)
  else if num =? 20 then Some (sys_mkdir dv)
  else if num =? 21 then Some sys_close
  else if num =? 24 then Some (sys_getpinfo junk_pstat)
  else None.

(** [proc->tf->eax = r], an [int] sign-extended. [proc->tf] is read after the call. *)
Definition set_eax (r : Z) : K unit :=
  p <- myproc ;; store64 (p_tf p + TF_EAX) (u64 (s32 r)).

Definition syscall : K unit :=
  p <- myproc ;;
  eax <- load64 (p_tf p + TF_EAX) ;;
  let num := s32 eax in
  match (if (0 <? num) && (num <? 25) then syscalls num else None) with
  | Some f => r <- f ;; set_eax r
  | None =>
      cprintf "%d %s: unknown sys call %d
" [VInt (p_pid p); VStr (Some (cstring (p_name p))); VInt num] ;;
      set_eax (-1)
  end.

(** ** Traps (kernel/trap.c) *)

Definition killed_exit : K unit := k <- cur_killed ;; if k : bool then exit else ret tt.

(** [(tf->cs & 3) == DPL_USER]. *)
Definition from_user (cs : Z) : bool := Z.land cs 3 =? DPL_USER.

(** [if(proc && proc->killed && (tf->cs&3) == DPL_USER) exit()]. *)
Definition user_killed_exit (cs : Z) : K unit :=
  c <- gets k_cur ;;
  match c with
  | Some _ => k <- cur_killed ;; if k && from_user cs then exit else ret tt
  | None => ret tt
  end.

Definition timer_tick (cs : Z) : K unit :=
  acquire LTicks ;;
  modify (fun s => set_ticks (u32 (k_ticks s + 1)) s) ;;
  c <- gets k_cur ;;
  (match c with
   | Some i => if from_user cs then upd_proc i (fun p => pset_ticks (s32 (p_ticks p + 1)) p) else ret tt
   | None => ret tt
   end) ;;
  wakeup ChTicks ;;
  release LTicks.

(** The default case: [rcr2()] is [cr2]. *)
Definition unexpected_trap (cpu trapno err eip cs cr2 : Z) : K unit :=
  c <- gets k_cur ;;
  match (if Z.land cs 3 =? 0 then None else c) with
  | None =>
      cprintf "unexpected trap %d from cpu %d eip %x (cr2=0x%x)
" [VInt (s32 trapno); VInt cpu; VInt (s32 eip); VInt (s32 cr2)] ;;
      panic "trap"
  | Some i =>
      p <- get_proc i ;;
      cprintf "pid %d %s: trap %d err %d on cpu %d eip 0x%x addr 0x%x--kill proc
" [VInt (p_pid p); VStr (Some (cstring (p_name p))); VInt (s32 trapno); VInt (s32 err); VInt cpu;
   VInt (s32 eip); VInt (s32 cr2)] ;;
      upd_proc i (pset_killed 1)
  end.

(** [trap] on CPU [cpu] with the trap frame at [tf]. [fuel] bounds how often a device is polled. *)
Definition trap (fuel : nat) (cpu cr2 tf : Z) : K unit :=
  trapno <- load64 (tf + TF_TRAPNO) ;;
  if trapno =? T_SYSCALL then
    killed_exit ;;
    upd_myproc (pset_tf tf) ;;
    syscall ;;
    killed_exit
  else
  cs <- load64 (tf + TF_CS) ;;
  eip <- load64 (tf + TF_EIP) ;;
  err <- load64 (tf + TF_ERR) ;;
  (if trapno =? T_IRQ0 + IRQ_TIMER then
     (if cpu =? 0 then timer_tick cs else ret tt) ;; lapiceoi
   else if trapno =? T_IRQ0 + IRQ_IDE then ideintr fuel ;; lapiceoi
   else if trapno =? T_IRQ0 + IRQ_IDE + 1 then ret tt
   else if trapno =? T_IRQ0 + IRQ_KBD then kbdintr fuel ;; lapiceoi
   else if trapno =? T_IRQ0 + IRQ_COM1 then uartintr fuel ;; lapiceoi
   else if (trapno =? T_IRQ0 + 7) || (trapno =? T_IRQ0 + IRQ_SPURIOUS) then
     cprintf "cpu%d: spurious interrupt at %x:%x
" [VInt cpu; VInt (s32 cs); VInt (s32 eip)] ;;
     lapiceoi
   else unexpected_trap cpu trapno err eip cs cr2) ;;
  user_killed_exit cs ;;
  c <- gets k_cur ;;
  (match c with
   | Some i =>
       p <- get_proc i ;;
       if bool_decide (p_state p = RUNNING) && (trapno =? T_IRQ0 + IRQ_TIMER) then yield else ret tt
   | None => ret tt
   end) ;;
  user_killed_exit cs.
End code.
