(* ===== verification/Spinlock.v ===== *)
(** * Spinlocks on several CPUs (kernel/spinlock.c)

    The other files model kernel code on one CPU between two switches, with the list of the locks
    the CPU holds. Here the locks are memory shared by all CPUs and every CPU executes [acquire],
    [release], [pushcli] and [popcli] one memory access at a time, interleaved in any order. *)

From S2P Require Import Prelude Types Monad Sched.

(** [struct spinlock]: [locked] and [cpu]. *)
Record spinlock := Spinlock { lk_locked : Z; lk_cpu : option nat }.

(** Where a CPU is in the code. *)
Inductive pc :=
| Run                      (* outside the lock code *)
| AcqLocked (l : lockid)   (* holding(lk): reading lk->locked *)
| AcqCpu (l : lockid)      (* holding(lk): lk->locked was set, reading lk->cpu *)
| AcqSpin (l : lockid)     (* while(xchg(&lk->locked, 1) != 0) *)
| AcqSet (l : lockid)      (* lk->cpu = cpu *)
| RelLocked (l : lockid)   (* release: holding(lk), reading lk->locked *)
| RelCpu (l : lockid)      (* release: holding(lk), reading lk->cpu *)
| RelClear (l : lockid)    (* lk->cpu = 0 *)
| RelXchg (l : lockid)     (* xchg(&lk->locked, 0) *)
| RelPop                   (* popcli() of release *)
| Panicked (msg : string).

#[export] Instance pc_eq_dec : EqDecision pc.
Proof. solve_decision. Defined.

(** A CPU: the interrupt flag, [ncli], [intena], its place in the code and (ghost) the locks it holds,
    latest first. *)
Record cpu := Cpu {
  cp_pc : pc; cp_if : bool; cp_ncli : Z; cp_intena : bool; cp_held : list lockid
}.

Record machine := Machine { m_lock : lockid -> spinlock; m_cpu : nat -> cpu }.

Definition set_pc (x : pc) (c : cpu) : cpu := Cpu x (cp_if c) (cp_ncli c) (cp_intena c) (cp_held c).
Definition upd_held (f : list lockid -> list lockid) (c : cpu) : cpu :=
  Cpu (cp_pc c) (cp_if c) (cp_ncli c) (cp_intena c) (f (cp_held c)).

Definition pushcli (c : cpu) : cpu :=
  Cpu (cp_pc c) false (cp_ncli c + 1) (if cp_ncli c =? 0 then cp_if c else cp_intena c) (cp_held c).

Definition popcli (c : cpu) : cpu :=
  if cp_if c then set_pc (Panicked "popcli - interruptible") c else
  let n := cp_ncli c - 1 in
  let c' := Cpu (cp_pc c) (cp_if c) n (cp_intena c) (cp_held c) in
  if n <? 0 then set_pc (Panicked "popcli") c'
  else if (n =? 0) && cp_intena c then Cpu (cp_pc c) true n (cp_intena c) (cp_held c) else c'.

(** What a CPU does next: start [acquire] or [release] of a lock, [pushcli] or [popcli] alone, enable or
    disable interrupts, or go on with what it is in. Starting is possible outside the lock code only. *)
Inductive event := Acquire (l : lockid) | Release (l : lockid) | Push | Pop | Sti | Cli | Go.

Definition put_lock (l : lockid) (x : spinlock) (m : machine) : machine :=
  Machine (fun l' => if decide (l' = l) then x else m_lock m l') (m_cpu m).
Definition put_cpu (i : nat) (c : cpu) (m : machine) : machine :=
  Machine (m_lock m) (fun j => if decide (j = i) then c else m_cpu m j).

(** One memory access of [acquire] or [release] by CPU [i]. *)
Definition go (i : nat) (m : machine) : machine :=
  let c := m_cpu m i in
  match cp_pc c with
  | Run => m
  | AcqLocked l =>
      put_cpu i (set_pc (if lk_locked (m_lock m l) =? 0 then AcqSpin l else AcqCpu l) c) m
  | AcqCpu l =>
      put_cpu i (set_pc (if bool_decide (lk_cpu (m_lock m l) = Some i) then Panicked "acquire"
                         else AcqSpin l) c) m
  | AcqSpin l =>
      let x := m_lock m l in
      let m := put_lock l (Spinlock 1 (lk_cpu x)) m in
      if lk_locked x =? 0 then put_cpu i (set_pc (AcqSet l) (upd_held (fun h => l :: h) c)) m else m
  | AcqSet l => put_cpu i (set_pc Run c) (put_lock l (Spinlock (lk_locked (m_lock m l)) (Some i)) m)
  | RelLocked l =>
      put_cpu i (set_pc (if lk_locked (m_lock m l) =? 0 then Panicked "release" else RelCpu l) c) m
  | RelCpu l =>
      put_cpu i (set_pc (if bool_decide (lk_cpu (m_lock m l) = Some i) then RelClear l
                         else Panicked "release") c) m
  | RelClear l => put_cpu i (set_pc (RelXchg l) c) (put_lock l (Spinlock (lk_locked (m_lock m l)) None) m)
  | RelXchg l =>
      put_cpu i (set_pc RelPop (upd_held (unlock l) c)) (put_lock l (Spinlock 0 (lk_cpu (m_lock m l))) m)
  | RelPop => put_cpu i (popcli (set_pc Run c)) m
  | Panicked _ => m
  end.

Definition mstep (i : nat) (e : event) (m : machine) : machine :=
  let c := m_cpu m i in
  match e, cp_pc c with
  | Go, _ => go i m
  | Acquire l, Run => put_cpu i (set_pc (AcqLocked l) (pushcli c)) m
  | Release l, Run => put_cpu i (set_pc (RelLocked l) c) m
  | Push, Run => put_cpu i (pushcli c) m
  | Pop, Run => put_cpu i (popcli c) m
  | Sti, Run => put_cpu i (Cpu Run true (cp_ncli c) (cp_intena c) (cp_held c)) m
  | Cli, Run => put_cpu i (Cpu Run false (cp_ncli c) (cp_intena c) (cp_held c)) m
  | _, _ => m
  end.

Fixpoint mrun (sched : list (nat * event)) (m : machine) : machine :=
  match sched with
  | [] => m
  | (i, e) :: sched => mrun sched (mstep i e m)
  end.

(** ** Mutual exclusion *)

(** How callers use the locks: [acquire] of a lock the CPU does not hold, [release] of one it holds,
    [popcli] alone only after [pushcli] alone, [sti] only outside. *)
Definition allowed (i : nat) (e : event) (m : machine) : bool :=
  let c := m_cpu m i in
  match e with
  | Acquire l => bool_decide (l ∉ cp_held c)
  | Release l => bool_decide (l ∈ cp_held c)
  | Pop => Z.of_nat (length (cp_held c)) <? cp_ncli c
  | Sti => cp_ncli c =? 0
  | Push | Cli | Go => true
  end.

Fixpoint disciplined (sched : list (nat * event)) (m : machine) : bool :=
  match sched with
  | [] => true
  | (i, e) :: sched => allowed i e m && disciplined sched (mstep i e m)
  end.

(** The lock a CPU is releasing must be held, one it is acquiring must not be; [n] is how many of the
    [pushcli]s belong to the call in progress and to no held lock. *)
Definition pc_ok (c : cpu) : Prop :=
  match cp_pc c with
  | Run => True
  | AcqLocked l | AcqCpu l | AcqSpin l => l ∉ cp_held c
  | AcqSet l | RelLocked l | RelCpu l | RelClear l | RelXchg l => l ∈ cp_held c
  | RelPop => True
  | Panicked _ => False
  end.

Definition pending (x : pc) : Z :=
  match x with AcqLocked _ | AcqCpu _ | AcqSpin _ | RelPop => 1 | _ => 0 end.

Record cpu_ok (c : cpu) : Prop := {
  co_pc : pc_ok c;
  co_ncli : Z.of_nat (length (cp_held c)) + pending (cp_pc c) <= cp_ncli c;
  co_if : 0 < cp_ncli c -> cp_if c = false;
  co_nodup : NoDup (cp_held c)
}.

(** [lk->cpu] names the CPU except just after the lock was taken and just before it is given up. *)
Definition names (c : cpu) (l : lockid) : bool :=
  bool_decide (l ∈ cp_held c) && negb (bool_decide (cp_pc c = AcqSet l))
  && negb (bool_decide (cp_pc c = RelXchg l)).

Record locks_ok (m : machine) : Prop := {
  lo_cpu : forall i, cpu_ok (m_cpu m i);
  lo_uniq : forall l i j, l ∈ cp_held (m_cpu m i) -> l ∈ cp_held (m_cpu m j) -> i = j;
  lo_free : forall l, lk_locked (m_lock m l) = 0 <-> forall i, l ∉ cp_held (m_cpu m i);
  lo_name : forall l i, lk_cpu (m_lock m l) = Some i <-> names (m_cpu m i) l = true
}.

Lemma names_spec c l :
  names c l = true <-> l ∈ cp_held c /\ cp_pc c <> AcqSet l /\ cp_pc c <> RelXchg l.
Proof.
  unfold names. rewrite !andb_true_iff, !negb_true_iff, bool_decide_eq_true, !bool_decide_eq_false. tauto.
Qed.

Lemma put_cpu_eq i c m : m_cpu (put_cpu i c m) i = c.
Proof. simpl. by rewrite decide_True. Qed.
Lemma put_cpu_ne i j c m : j <> i -> m_cpu (put_cpu i c m) j = m_cpu m j.
Proof. intros H. simpl. by rewrite decide_False. Qed.
Lemma put_lock_eq l x m : m_lock (put_lock l x m) l = x.
Proof. simpl. by rewrite decide_True. Qed.
Lemma put_lock_ne l l' x m : l' <> l -> m_lock (put_lock l x m) l' = m_lock m l'.
Proof. intros H. simpl. by rewrite decide_False. Qed.

(** A step of one CPU that changes neither a lock nor what the CPU holds. *)
Lemma quiet_step i c m :
  locks_ok m -> cpu_ok c -> cp_held c = cp_held (m_cpu m i) ->
  (forall l, names c l = names (m_cpu m i) l) -> locks_ok (put_cpu i c m).
Proof.
  intros [Hc Hu Hf Hn] Hok Hh Hnm.
  assert (forall j, cp_held (m_cpu (put_cpu i c m) j) = cp_held (m_cpu m j)) as Hheld.
  { intros j. destruct (decide (j = i)) as [->|Hj]; [by rewrite put_cpu_eq|by rewrite put_cpu_ne]. }
  split.
  - intros j. destruct (decide (j = i)) as [->|Hj]; [by rewrite put_cpu_eq|by rewrite put_cpu_ne].
  - intros l j k. rewrite !Hheld. apply Hu.
  - intros l. change (m_lock (put_cpu i c m) l) with (m_lock m l). rewrite Hf.
    split; intros H j; [rewrite Hheld|rewrite <- Hheld]; apply H.
  - intros l j. change (m_lock (put_cpu i c m) l) with (m_lock m l). rewrite Hn.
    destruct (decide (j = i)) as [->|Hj]; [by rewrite put_cpu_eq, Hnm|by rewrite put_cpu_ne].
Qed.

(** A step of one CPU on one lock: what has to be shown of the two. *)
Lemma lock_step i c l x m :
  locks_ok m -> cpu_ok c ->
  (forall l', l' <> l -> (l' ∈ cp_held c <-> l' ∈ cp_held (m_cpu m i)) /\ names c l' = names (m_cpu m i) l') ->
  (l ∈ cp_held c -> forall j, j <> i -> l ∉ cp_held (m_cpu m j)) ->
  (lk_locked x = 0 <-> l ∉ cp_held c /\ forall j, j <> i -> l ∉ cp_held (m_cpu m j)) ->
  (forall j, lk_cpu x = Some j <-> j = i /\ names c l = true \/ j <> i /\ names (m_cpu m j) l = true) ->
  locks_ok (put_cpu i c (put_lock l x m)).
Proof.
  intros [Hc Hu Hf Hn] Hok Hoth Hex Hfree Hname.
  assert (forall l' j, l' <> l -> l' ∈ cp_held (m_cpu (put_cpu i c (put_lock l x m)) j)
    <-> l' ∈ cp_held (m_cpu m j)) as Hheld.
  { intros l' j Hl. destruct (decide (j = i)) as [->|Hj]; [rewrite put_cpu_eq; by apply Hoth|].
    rewrite put_cpu_ne by done. reflexivity. }
  split.
  - intros j. destruct (decide (j = i)) as [->|Hj]; [by rewrite put_cpu_eq|rewrite put_cpu_ne by done; apply Hc].
  - intros l' j k. destruct (decide (l' = l)) as [->|Hl]; [|rewrite !Hheld by done; apply Hu].
    destruct (decide (j = i)) as [->|Hj], (decide (k = i)) as [->|Hk]; [done|..].
    + rewrite put_cpu_eq, put_cpu_ne by done. intros H1 H2. by destruct (Hex H1 k Hk).
    + rewrite put_cpu_eq, put_cpu_ne by done. intros H1 H2. by destruct (Hex H2 j Hj).
    + rewrite !put_cpu_ne by done. apply Hu.
  - intros l'. change (m_lock (put_cpu i c (put_lock l x m)) l') with (m_lock (put_lock l x m) l').
    destruct (decide (l' = l)) as [->|Hl].
    + rewrite put_lock_eq, Hfree. split.
      * intros [H1 H2] j. destruct (decide (j = i)) as [->|Hj]; [by rewrite put_cpu_eq|].
        rewrite put_cpu_ne by done. by apply H2.
      * intros H. split; [by specialize (H i); rewrite put_cpu_eq in H|].
        intros j Hj. specialize (H j). by rewrite put_cpu_ne in H.
    + rewrite put_lock_ne, Hf by done. split; intros H j Hin; apply (H j); by apply Hheld.
  - intros l' j. change (m_lock (put_cpu i c (put_lock l x m)) l') with (m_lock (put_lock l x m) l').
    destruct (decide (l' = l)) as [->|Hl].
    + rewrite put_lock_eq, Hname. destruct (decide (j = i)) as [->|Hj].
      * rewrite put_cpu_eq. tauto.
      * rewrite put_cpu_ne by done. cbn [m_cpu put_lock]. tauto.
    + rewrite put_lock_ne, Hn by done. destruct (decide (j = i)) as [->|Hj].
      * rewrite put_cpu_eq. by rewrite (proj2 (Hoth l' Hl)).
      * by rewrite put_cpu_ne.
Qed.

Lemma pushcli_ok c : cpu_ok c -> cp_pc c = Run -> cpu_ok (pushcli c).
Proof. intros [Hp Hn Hi Hd] Hrun. rewrite Hrun in Hn. split; unfold pc_ok; cbn; rewrite ?Hrun; cbn in *; try done; lia. Qed.

Lemma popcli_ok c :
  cpu_ok c -> cp_pc c = Run -> Z.of_nat (length (cp_held c)) < cp_ncli c ->
  cpu_ok (popcli c) /\ cp_held (popcli c) = cp_held c /\ cp_pc (popcli c) = Run.
Proof.
  intros [Hp Hn Hi Hd] Hrun Hlt. unfold popcli. rewrite (Hi ltac:(lia)).
  rewrite (proj2 (Z.ltb_ge _ _)) by lia.
  destruct (Z.eqb_spec (cp_ncli c - 1) 0) as [E|E], (cp_intena c); cbn [andb];
    (split; [split; unfold pc_ok; cbn; rewrite ?Hrun; cbn; try done; lia|done]).
Qed.

Lemma names_run c c' :
  cp_held c' = cp_held c -> (forall l, cp_pc c <> AcqSet l) -> (forall l, cp_pc c <> RelXchg l) ->
  (forall l, cp_pc c' <> AcqSet l) -> (forall l, cp_pc c' <> RelXchg l) ->
  forall l, names c' l = names c l.
Proof.
  intros Hh H1 H2 H3 H4 l. unfold names. rewrite Hh.
  rewrite (bool_decide_eq_false_2 (cp_pc c = AcqSet l)), (bool_decide_eq_false_2 (cp_pc c = RelXchg l)),
    (bool_decide_eq_false_2 (cp_pc c' = AcqSet l)), (bool_decide_eq_false_2 (cp_pc c' = RelXchg l)) by auto.
  done.
Qed.

Lemma length_unlock l h : l ∈ h -> NoDup h -> (length (unlock l h) < length h)%nat.
Proof.
  intros Hin Hd. destruct (list_elem_of_split _ _ Hin) as (h1 & h2 & ->).
  apply NoDup_app in Hd as (_ & Hd1 & Hd2). apply NoDup_cons in Hd2 as [Hd2 _].
  unfold unlock. rewrite filter_app, filter_cons_False by (intros H; by apply H). fold (unlock l h1) (unlock l h2).
  rewrite !unlock_notin; [rewrite !length_app; simpl; lia|done|]. intros H. destruct (Hd1 l H). by left.
Qed.

(** A quiet step of CPU [i] away from the two places where [lk->cpu] does not name the holder. *)
Lemma quiet_pc i x m :
  locks_ok m -> cpu_ok (set_pc x (m_cpu m i)) ->
  (forall l, cp_pc (m_cpu m i) <> AcqSet l) -> (forall l, cp_pc (m_cpu m i) <> RelXchg l) ->
  (forall l, x <> AcqSet l) -> (forall l, x <> RelXchg l) ->
  locks_ok (put_cpu i (set_pc x (m_cpu m i)) m).
Proof. intros. apply quiet_step; [done|done|done|]. apply names_run; auto. Qed.

(** Who holds a lock is named by nobody else. *)
Lemma names_only m l i j :
  locks_ok m -> l ∈ cp_held (m_cpu m i) -> names (m_cpu m j) l = true -> j = i.
Proof. intros Hm Hi Hj. apply names_spec in Hj as [Hj _]. exact (lo_uniq m Hm l j i Hj Hi). Qed.

Lemma names_ext c c' l :
  (l ∈ cp_held c <-> l ∈ cp_held c') ->
  (cp_pc c <> AcqSet l /\ cp_pc c <> RelXchg l <-> cp_pc c' <> AcqSet l /\ cp_pc c' <> RelXchg l) ->
  names c l = names c' l.
Proof.
  intros H1 H2. destruct (names c l) eqn:E, (names c' l) eqn:E'; try done; exfalso.
  - apply names_spec in E. assert (names c' l = true) by (apply names_spec; tauto). congruence.
  - apply names_spec in E'. assert (names c l = true) by (apply names_spec; tauto). congruence.
Qed.

Lemma spin_ok i l m : locks_ok m -> cp_pc (m_cpu m i) = AcqSpin l -> locks_ok (go i m).
Proof.
  intros Hm Epc. pose proof (lo_cpu m Hm i) as [Hp Hn Hi Hd]. unfold pc_ok in Hp. unfold go. rewrite Epc in *.
  cbn [pending] in Hn. destruct (Z.eqb_spec (lk_locked (m_lock m l)) 0) as [E|E].
  - pose proof (proj1 (lo_free m Hm l) E) as Hfree. apply lock_step; [done|split|..]; cbn.
    + by left.
    + lia.
    + intros. apply Hi. lia.
    + by constructor.
    + intros l' Hl. split; [set_solver|]. apply names_ext; cbn; [set_solver|]. rewrite Epc. split; [done|].
      intros _. split; congruence.
    + intros _ j _. apply Hfree.
    + split; [done|]. intros [H _]. destruct H. by left.
    + intros j. rewrite (lo_name m Hm). split.
      * intros H. apply names_spec in H. exfalso. apply (Hfree j). tauto.
      * intros [[-> H]|[_ H]]; apply names_spec in H; cbn in H; [tauto|]. exfalso. apply (Hfree j). tauto.
  - replace (put_lock l (Spinlock 1 (lk_cpu (m_lock m l))) m)
      with (put_lock l (Spinlock 1 (lk_cpu (m_lock m l))) m) by done.
    destruct Hm as [Hc Hu Hf Hnm]. split; [done|done|..]; intros l'.
    + destruct (decide (l' = l)) as [->|Hl]; [|rewrite put_lock_ne by done; apply Hf].
      rewrite put_lock_eq. cbn. split; [done|]. intros H. by apply Hf in H.
    + intros j. destruct (decide (l' = l)) as [->|Hl]; [|rewrite put_lock_ne by done; apply Hnm].
      rewrite put_lock_eq. apply Hnm.
Qed.

(** The three steps on a lock the CPU holds. *)
Lemma hold_step i l c x m :
  locks_ok m -> l ∈ cp_held (m_cpu m i) -> cpu_ok c ->
  (forall l', l' <> l -> (l' ∈ cp_held c <-> l' ∈ cp_held (m_cpu m i)) /\ names c l' = names (m_cpu m i) l') ->
  (lk_locked x = 0 <-> l ∉ cp_held c) ->
  lk_cpu x = (if names c l then Some i else None) ->
  locks_ok (put_cpu i c (put_lock l x m)).
Proof.
  intros Hm Hin Hok Hoth Hfree Hname.
  assert (forall j, j <> i -> l ∉ cp_held (m_cpu m j)) as Hj.
  { intros j Hj Hl. apply Hj. by apply (lo_uniq m Hm l). }
  apply lock_step; [done|done|done|auto| |].
  - rewrite Hfree. tauto.
  - intros j. rewrite Hname. split.
    + destruct (names c l); intros [=]; subst. by left.
    + intros [[-> ->]|[Hne H]]; [done|]. apply names_spec in H. exfalso. apply (Hj j Hne). tauto.
Qed.

Lemma held_locked m l i : locks_ok m -> l ∈ cp_held (m_cpu m i) -> lk_locked (m_lock m l) <> 0.
Proof. intros Hm Hin H. by apply (proj1 (lo_free m Hm l) H i). Qed.

Lemma set_ok i l m : locks_ok m -> cp_pc (m_cpu m i) = AcqSet l -> locks_ok (go i m).
Proof.
  intros Hm Epc. pose proof (lo_cpu m Hm i) as [Hp Hn Hi Hd]. unfold pc_ok in Hp. unfold go. rewrite Epc in *.
  cbn [pending] in Hn. apply hold_step; [done|done|by split|..]; cbn.
  - intros l' Hl. split; [done|]. apply names_ext; cbn; [done|]. rewrite Epc. split; [|done]. intros _. split; congruence.
  - pose proof (held_locked m l i Hm Hp). tauto.
  - by rewrite (proj2 (names_spec _ _)) by (cbn; done).
Qed.

Lemma clear_ok i l m : locks_ok m -> cp_pc (m_cpu m i) = RelClear l -> locks_ok (go i m).
Proof.
  intros Hm Epc. pose proof (lo_cpu m Hm i) as [Hp Hn Hi Hd]. unfold pc_ok in Hp. unfold go. rewrite Epc in *.
  cbn [pending] in Hn. apply hold_step; [done|done|by split|..]; cbn.
  - intros l' Hl. split; [done|]. apply names_ext; cbn; [done|]. rewrite Epc. split; [done|]. intros _. split; congruence.
  - pose proof (held_locked m l i Hm Hp). tauto.
  - destruct (names _ l) eqn:E; [|done]. apply names_spec in E. cbn in E. tauto.
Qed.

Lemma xchg_ok i l m : locks_ok m -> cp_pc (m_cpu m i) = RelXchg l -> locks_ok (go i m).
Proof.
  intros Hm Epc. pose proof (lo_cpu m Hm i) as [Hp Hn Hi Hd]. unfold pc_ok in Hp. unfold go. rewrite Epc in *.
  cbn [pending] in Hn. assert (l ∉ unlock l (cp_held (m_cpu m i))) as Hout.
  { unfold unlock. rewrite list_elem_of_filter. tauto. }
  apply hold_step; [done|done| |..]; cbn.
  - split; cbn.
    + done.
    + pose proof (length_unlock l _ Hp Hd). lia.
    + done.
    + unfold unlock. by apply NoDup_filter.
  - intros l' Hl. split; [unfold unlock; rewrite list_elem_of_filter; tauto|].
    apply names_ext; cbn; [unfold unlock; rewrite list_elem_of_filter; tauto|].
    rewrite Epc. split; [|done]. intros _. split; congruence.
  - tauto.
  - destruct (names _ l) eqn:E.
    + apply names_spec in E. cbn in E. tauto.
    + destruct (lk_cpu (m_lock m l)) as [j|] eqn:Ec; [|done]. apply (lo_name m Hm) in Ec.
      pose proof (names_only m l i j Hm Hp Ec) as ->. apply names_spec in Ec. tauto.
Qed.

Lemma go_ok i m : locks_ok m -> locks_ok (go i m).
Proof.
  intros Hm. destruct (cp_pc (m_cpu m i)) eqn:Epc;
    [|..|by eapply spin_ok|by eapply set_ok| | |by eapply clear_ok|by eapply xchg_ok| |];
    pose proof (lo_cpu m Hm i) as [Hp Hn Hi Hd]; unfold pc_ok in Hp; unfold go; rewrite Epc in *; cbn [pending] in Hn.
  - done.
  - destruct (lk_locked _ =? 0); apply quiet_pc; rewrite ?Epc; done.
  - destruct (bool_decide_reflect (lk_cpu (m_lock m l) = Some i)) as [E|E].
    + apply (lo_name m Hm), names_spec in E. tauto.
    + apply quiet_pc; rewrite ?Epc; done.
  - destruct (Z.eqb_spec (lk_locked (m_lock m l)) 0) as [E|E].
    + by destruct (held_locked m l i Hm Hp).
    + apply quiet_pc; rewrite ?Epc; done.
  - assert (lk_cpu (m_lock m l) = Some i) as E.
    { apply (lo_name m Hm), names_spec. rewrite Epc. done. }
    rewrite bool_decide_eq_true_2 by done. apply quiet_pc; rewrite ?Epc; done.
  - destruct (popcli_ok (set_pc Run (m_cpu m i))) as (H1 & H2 & H3); [split; cbn; try done; lia|done|cbn; lia|].
    apply quiet_step; [done|done|done|].
    apply names_run; rewrite ?Epc, ?H3; done.
  - done.
Qed.

Lemma mstep_ok i e m : locks_ok m -> allowed i e m = true -> locks_ok (mstep i e m).
Proof.
  intros Hm Ha. pose proof (lo_cpu m Hm i) as Hc. pose proof Hc as [Hp Hn Hi Hd]. unfold mstep.
  destruct e; try (by apply go_ok); destruct (cp_pc (m_cpu m i)) eqn:Epc; try done;
    cbn [allowed] in Ha; cbn [pending] in Hn.
  - apply bool_decide_eq_true in Ha. destruct (pushcli_ok _ Hc Epc) as [_ Hn' Hi' Hd']. cbn in *.
    apply quiet_step; [done|split; cbn; try done; lia|done|]. apply names_run; rewrite ?Epc; done.
  - apply bool_decide_eq_true in Ha. apply quiet_pc; rewrite ?Epc; done.
  - apply quiet_step; [done|by apply pushcli_ok|done|]. apply names_run; cbn; rewrite ?Epc; done.
  - apply Z.ltb_lt in Ha. destruct (popcli_ok _ Hc Epc Ha) as (H1 & H2 & H3).
    apply quiet_step; [done|done|done|]. apply names_run; rewrite ?Epc, ?H3; done.
  - apply Z.eqb_eq in Ha. apply quiet_step; [done|split; cbn; try done; lia|done|]. apply names_run; rewrite ?Epc; done.
  - apply quiet_step; [done|split; cbn; try done; lia|done|]. apply names_run; rewrite ?Epc; done.
Qed.

(** All locks free; the interrupt flags are arbitrary. *)
Definition boot_machine (ifs : nat -> bool) : machine :=
  Machine (fun _ => Spinlock 0 None) (fun i => Cpu Run (ifs i) 0 false []).

Lemma boot_machine_ok ifs : locks_ok (boot_machine ifs).
Proof.
  split; cbn.
  - intros i. split; cbn; try done; try lia. constructor.
  - intros l i j H. by apply not_elem_of_nil in H.
  - intros l. split; [|done]. intros _ i. apply not_elem_of_nil.
  - intros l i. split; [done|]. intros H. apply names_spec in H as [H _]. by apply not_elem_of_nil in H.
Qed.

Lemma mrun_ok sched m : locks_ok m -> disciplined sched m = true -> locks_ok (mrun sched m).
Proof.
  revert m. induction sched as [|[i e] sched IH]; intros m Hm Hd; [done|].
  apply andb_true_iff in Hd as [H1 H2]. apply IH; [by apply mstep_ok|done].
Qed.

(** What [holding(lk)] computes on CPU [i]. *)
Definition holding_on (i : nat) (l : lockid) (m : machine) : bool :=
  negb (lk_locked (m_lock m l) =? 0) && bool_decide (lk_cpu (m_lock m l) = Some i).

Lemma holding_exact m i l :
  locks_ok m -> cp_pc (m_cpu m i) = Run -> holding_on i l m = bool_decide (l ∈ cp_held (m_cpu m i)).
Proof.
  intros Hm Hrun. unfold holding_on. destruct (bool_decide_reflect (l ∈ cp_held (m_cpu m i))) as [Hin|Hout].
  - pose proof (held_locked m l i Hm Hin) as H0. apply Z.eqb_neq in H0. rewrite H0.
    apply bool_decide_eq_true_2, (lo_name m Hm), names_spec. by rewrite Hrun.
  - apply andb_false_iff. right. apply bool_decide_eq_false_2. intros E.
    apply (lo_name m Hm), names_spec in E. tauto.
Qed.

Lemma popcli_pushcli c : cpu_ok c -> cp_if (popcli (pushcli c)) = cp_if c.
Proof.
  intros [_ Hn Hi _]. assert (0 <= cp_ncli c) by (destruct (cp_pc c); cbn [pending] in Hn; lia).
  unfold popcli. cbn. rewrite Z.add_simpl_r, (proj2 (Z.ltb_ge _ _)) by lia.
  destruct (Z.eqb_spec (cp_ncli c) 0) as [E|E].
  - destruct (cp_if c) eqn:Eif; cbn; done.
  - cbn. rewrite Hi by lia. done.
Qed.

(** C28. Spinlocks exclude each other: however the memory accesses of any number of CPUs interleave, if
    callers acquire only what they do not hold and release only what they hold, then no two CPUs hold
    a lock at once, no CPU panics in the lock code, interrupts are off on a CPU that holds a lock,
    [ncli] counts at least the locks held, and outside the lock code [holding] is exact on the calling CPU
    whatever the others are doing. A [pushcli] undone by [popcli] restores the interrupt flag. *)
Theorem mutual_exclusion ifs sched :
  disciplined sched (boot_machine ifs) = true ->
  let m := mrun sched (boot_machine ifs) in
  (forall l i j, l ∈ cp_held (m_cpu m i) -> l ∈ cp_held (m_cpu m j) -> i = j) /\
  (forall i msg, cp_pc (m_cpu m i) <> Panicked msg) /\
  (forall i l, l ∈ cp_held (m_cpu m i) -> cp_if (m_cpu m i) = false) /\
  (forall i, Z.of_nat (length (cp_held (m_cpu m i))) <= cp_ncli (m_cpu m i)) /\
  (forall i l, cp_pc (m_cpu m i) = Run -> holding_on i l m = bool_decide (l ∈ cp_held (m_cpu m i))) /\
  (forall i, cp_if (popcli (pushcli (m_cpu m i))) = cp_if (m_cpu m i)).
Proof.
  intros Hd m. pose proof (mrun_ok _ _ (boot_machine_ok ifs) Hd) as Hm. fold m in Hm.
  split_and!.
  - apply (lo_uniq m Hm).
  - intros i msg E. pose proof (co_pc _ (lo_cpu m Hm i)) as Hp. unfold pc_ok in Hp. by rewrite E in Hp.
  - intros i l Hin. destruct (lo_cpu m Hm i) as [_ Hn Hi _]. apply Hi.
    destruct (cp_held (m_cpu m i)); [by apply not_elem_of_nil in Hin|]. simpl in Hn.
    destruct (cp_pc (m_cpu m i)); cbn [pending] in Hn; lia.
  - intros i. destruct (lo_cpu m Hm i) as [_ Hn _ _]. destruct (cp_pc (m_cpu m i)); cbn [pending] in Hn; lia.
  - intros i l Hrun. by apply holding_exact.
  - intros i. by apply popcli_pushcli, (lo_cpu m Hm).
Qed.

(** Two CPUs contend for a lock: the second spins until the first has released it. *)
Definition demo_sched : list (nat * event) :=
  ([(0, Acquire LLog); (1, Acquire LLog)] ++ replicate 2 (0, Go) ++ replicate 4 (1, Go) ++
  [(0, Go)] ++ replicate 3 (1, Go) ++ [(0, Push); (0, Pop); (0, Release LLog)] ++
  replicate 5 (0, Go) ++ replicate 2 (1, Go))%nat.

Lemma mutual_exclusion_witness :
  disciplined demo_sched (boot_machine (fun _ => true)) = true /\
  cp_held (m_cpu (mrun demo_sched (boot_machine (fun _ => true))) 1%nat) = [LLog] /\
  cp_if (m_cpu (mrun demo_sched (boot_machine (fun _ => true))) 1%nat) = false.
Proof.
  assert (disciplined demo_sched (boot_machine (fun _ => true)) = true) as Hd by (vm_compute; reflexivity).
  assert (cp_held (m_cpu (mrun demo_sched (boot_machine (fun _ => true))) 1%nat) = [LLog]) as Hh
    by (vm_compute; reflexivity).
  split; [exact Hd|]. split; [exact Hh|].
  destruct (mutual_exclusion (fun _ => true) demo_sched Hd) as (_ & _ & Hif & _).
  apply (Hif 1%nat LLog). rewrite Hh. by left.
Defined.
