(* ===== verification/ProcWait.v ===== *)
(** * exit and wait do not miss each other (kernel/proc.c)

    What [wait] and [exit] do to the process table, on every branch, and the invariant between them. *)

From S2P Require Import Prelude Types Monad Sched Bio KString Log Fs FsDir Mem Kalloc Vm VmSpec VmCopy VmFree Pipe File Proc.

(** Equations of the table accesses. *)
Lemma get_proc_eq i p s : k_procs s !! i = Some p -> get_proc i s = Ret p s.
Proof. intros H. unfold get_proc, nth_or_fault. by rewrite H. Qed.

Lemma upd_proc_eq i p f s :
  k_procs s !! i = Some p -> upd_proc i f s = Ret tt (set_procs (<[i := f p]> (k_procs s)) s).
Proof. intros H. unfold upd_proc. by rewrite H. Qed.

Lemma cur_proc_eq i s : k_cur s = Some i -> cur_proc s = Ret i s.
Proof. intros H. unfold cur_proc. by rewrite H. Qed.

Lemma sched_eq s me p :
  k_held s = [LPtable] -> k_cur s = Some me -> k_procs s !! me = Some p -> p_state p <> RUNNING ->
  sched s = Sched s.
Proof.
  intros Hh Hc Hp Hr. unfold sched, holding. rewrite Hh. rewrite bool_decide_eq_true_2 by by left.
  cbn [negb length Nat.eqb]. unfold bind, nth_or_fault. rewrite (cur_proc_eq me) by done. rewrite Hp.
  by rewrite bool_decide_eq_false_2.
Qed.

(** ** wait *)

Definition child_of (me : nat) (p : proc) : bool := bool_decide (p_parent p = Some me).
Definition zombie_child (me : nat) (p : proc) : bool :=
  child_of me p && bool_decide (p_state p = ZOMBIE).

Section wait.
Context {L : Layout}.

Lemma wait_scan_eq me s a n hk :
  (a + n = length (k_procs s))%nat ->
  wait_scan me (seq a n) hk s =
    match findi (zombie_child me) (drop a (k_procs s)) with
    | Some j => (pid <- reap (a + j) ;; ret (Some pid, true)) s
    | None => Ret (None, hk || existsb (child_of me) (drop a (k_procs s))) s
    end.
Proof.
  revert a hk. induction n as [|n IH]; intros a hk Hn.
  - rewrite drop_ge by lia. cbn. by rewrite orb_false_r.
  - destruct (lookup_lt_is_Some_2 (k_procs s) a ltac:(lia)) as [p Hp].
    cbn [seq wait_scan]. unfold bind at 1. rewrite (get_proc_eq a p) by done.
    rewrite (drop_S _ _ _ Hp). cbn [findi existsb]. unfold zombie_child at 1. fold (child_of me p).
    destruct (child_of me p) eqn:Ec; cbn [negb andb orb].
    + destruct (bool_decide (p_state p = ZOMBIE)).
      * by rewrite Nat.add_0_r.
      * rewrite (IH (S a) true) by lia. destruct (findi _ _) as [j|]; cbn.
        -- by rewrite Nat.add_succ_r.
        -- by rewrite orb_true_r.
    + rewrite (IH (S a) hk) by lia. destruct (findi _ _) as [j|]; cbn; [by rewrite Nat.add_succ_r|done].
Qed.

(** [wait] on every branch: the first zombie child is reaped; without children, or killed, it returns -1;
    else it sleeps on its own address. *)
Lemma wait_eq s me p :
  k_held s = [] -> k_cur s = Some me -> k_procs s !! me = Some p -> length (k_procs s) = NPROC ->
  wait s =
    match findi (zombie_child me) (k_procs s) with
    | Some j => reap j (set_held [LPtable] s)
    | None =>
        if negb (existsb (child_of me) (k_procs s)) || negb (p_killed p =? 0) then Ret (-1) s
        else Sched (set_held [LPtable] (set_procs (<[me := asleep (ChProc me) p]> (k_procs s)) s))
    end.
Proof.
  intros Hh Hc Hp Hl. unfold wait, bind at 1. rewrite acquire_free by (rewrite Hh; void). rewrite Hh.
  set (s1 := set_held [LPtable] s). cbn [wait_loop]. unfold bind at 1. rewrite (cur_proc_eq me) by done.
  unfold bind at 1. rewrite (wait_scan_eq me s1 0 NPROC) by done. rewrite drop_0.
  change (k_procs s1) with (k_procs s). destruct (findi _ _) as [j|] eqn:Ej.
  - unfold bind at 1. destruct (reap (0 + j) s1) as [pid s2| | | |] eqn:Er; cbn in Er; rewrite Er; done.
  - cbn [orb]. unfold bind at 1. rewrite (get_proc_eq me p) by done.
    destruct (negb (existsb (child_of me) (k_procs s)) || negb (p_killed p =? 0)).
    + unfold bind. rewrite (release_top _ []) by (done || void). unfold s1. rewrite set_held_set_held. rewrite <- Hh.
      by rewrite set_held_held.
    + unfold bind at 1, sleep, s1. cbn [k_cur set_held]. rewrite Hc.
      unfold bind. rewrite bool_decide_eq_false_2 by (intros H; by apply H). cbn [ret].
      rewrite (upd_proc_eq me p) by done.
      erewrite (sched_eq _ me); [done|done|done|cbn; by apply list_lookup_insert_eq, lookup_lt_Some with p|done].
Qed.
End wait.

(** ** Code that leaves the process table alone and does not give up the CPU *)

Definition keeps {A} (m : K A) : Prop :=
  forall s, match m s with
            | Ret _ s' => k_procs s' = k_procs s /\ k_initproc s' = k_initproc s
            | Sched _ => False
            | _ => True
            end.

Lemma keeps_bind {A B} (m : K A) (f : A -> K B) : keeps m -> (forall a, keeps (f a)) -> keeps (bind m f).
Proof.
  intros Hm Hf s. unfold bind. specialize (Hm s). destruct (m s) as [a s1| | | |]; try done.
  specialize (Hf a s1). destruct (f a s1); try done. destruct Hf as [-> ->]. done.
Qed.
Lemma keeps_ret {A} (a : A) : keeps (ret a).
Proof. by intros s. Qed.
Lemma keeps_if {A} (c : bool) (m1 m2 : K A) : keeps m1 -> keeps m2 -> keeps (if c then m1 else m2).
Proof. by destruct c. Qed.
Lemma keeps_panic {A} msg : keeps (panic msg : K A).
Proof. by intros s. Qed.
Lemma keeps_gets {A} (f : kstate -> A) : keeps (gets f).
Proof. by intros s. Qed.
Lemma keeps_foreach {A} (f : A -> K unit) l : (forall x, keeps (f x)) -> keeps (foreach f l).
Proof. intros Hf. induction l as [|x l IH]; [apply keeps_ret|]. cbn. by apply keeps_bind. Qed.
Lemma keeps_acquire l : keeps (acquire l).
Proof. intros s. unfold acquire. by destruct (holding l s). Qed.
Lemma keeps_release l : keeps (release l).
Proof. intros s. unfold release. by destruct (holding l s). Qed.
Lemma keeps_upd_kmem f : keeps (upd_kmem f).
Proof. by intros s. Qed.
Lemma keeps_store a l : keeps (store_bytes a l).
Proof. intros s. unfold store_bytes. by destruct (mem_has _ _ _). Qed.
Lemma keeps_load a : keeps (load64 a).
Proof. intros s. unfold load64. by destruct (word _ _). Qed.

(** From a run of such code. *)
Lemma keeps_ret_inv {A} (m : K A) s a s' :
  keeps m -> m s = Ret a s' -> k_procs s' = k_procs s /\ k_initproc s' = k_initproc s.
Proof. intros Hm E. specialize (Hm s). by rewrite E in Hm. Qed.

Create HintDb keeps.
#[export] Hint Resolve keeps_bind keeps_ret keeps_if keeps_panic keeps_gets keeps_foreach keeps_acquire
  keeps_release keeps_upd_kmem keeps_store keeps_load : keeps.

Section free.
Context {L : Layout}.

Lemma keeps_kfree v : keeps (kfree v).
Proof. unfold kfree, kmem_lock, kmem_unlock, get_kmem, fill_bytes, store64. eauto 20 with keeps. Qed.

Lemma keeps_kalloc : keeps kalloc.
Proof. unfold kalloc, kmem_lock, kmem_unlock, get_kmem. eauto 20 with keeps. Qed.

Lemma keeps_walk d va alloc : keeps (walkpgdir d va alloc).
Proof.
  unfold walkpgdir, fill_bytes, store64. pose proof keeps_kalloc. 
  repeat first [apply keeps_bind; [eauto with keeps|intros ?] | apply keeps_if | eauto with keeps | case_match].
Qed.

Lemma keeps_deallocuvm d o n : keeps (deallocuvm d o n).
Proof.
  unfold deallocuvm. apply keeps_if; [eauto with keeps|]. apply keeps_bind; [|eauto with keeps].
  generalize (S (Z.to_nat ((o - PGROUNDUP n) / PGSIZE + 1))). intros fuel. generalize (PGROUNDUP n).
  induction fuel as [|fuel IH]; intros a; [by intros s|]. cbn [deallocuvm_loop].
  pose proof keeps_kfree. pose proof (keeps_walk d a false).
  apply keeps_if; [|eauto with keeps]. apply keeps_bind; [done|]. intros pte.
  apply keeps_bind; [|eauto with keeps]. unfold store64. eauto 20 with keeps.
Qed.

Lemma keeps_freevm d : keeps (freevm d).
Proof.
  unfold freevm. pose proof keeps_kfree. pose proof keeps_deallocuvm. eauto 20 with keeps.
Qed.

(** A slot [wait] has reaped. *)
Definition reaped (p : proc) : proc :=
  pset_killed 0 (pset_name (<[0%nat := 0]> (p_name p)) (pset_parent None (pset_pid 0
    (pset_state UNUSED (pset_kstack 0 p))))).

(** [reap] never sleeps. *)
Lemma reap_stays j s s' : reap j s <> Sched s'.
Proof.
  unfold reap, bind, get_proc, nth_or_fault, upd_proc. intros E.
  pose proof keeps_kfree as Hk. pose proof keeps_freevm as Hf. pose proof keeps_release as Hr.
  destruct (k_procs s !! j) as [p|]; [|done].
  specialize (Hk (p_kstack p) s). destruct (kfree (p_kstack p) s) as [[] s1| | | |]; try done.
  destruct (k_procs s1 !! j); [|done].
  match type of E with context [freevm ?d ?x] => specialize (Hf d x); destruct (freevm d x) as [[] s2| | | |] end; try done.
  repeat (match type of E with context [k_procs ?x !! j] => destruct (k_procs x !! j) end; [|done]).
  match type of E with context [release LPtable ?x] => specialize (Hr LPtable x); destruct (release LPtable x) as [[] s3| | | |] end; done.
Qed.

Lemma reap_procs j p s pid s' :
  k_procs s !! j = Some p -> reap j s = Ret pid s' ->
  pid = p_pid p /\ k_procs s' = <[j := reaped p]> (k_procs s) /\ k_initproc s' = k_initproc s.
Proof.
  intros Hp. unfold reap, bind at 1. rewrite (get_proc_eq j p) by done.
  unfold bind at 1. destruct (kfree (p_kstack p) s) as [[] s1| | | |] eqn:E1; try done.
  apply (keeps_ret_inv _ _ _ _ (keeps_kfree _)) in E1 as [E1 I1]. unfold bind at 1. rewrite (upd_proc_eq j p) by by rewrite E1.
  unfold bind at 1. destruct (freevm _ _) as [[] s2| | | |] eqn:E2; try done.
  apply (keeps_ret_inv _ _ _ _ (keeps_freevm _)) in E2 as [E2 I2]. cbn [k_procs k_initproc set_procs] in E2, I2. rewrite E1 in E2.
  pose proof (lookup_lt_Some _ _ _ Hp) as Hlt.
  do 5 (unfold bind at 1; erewrite upd_proc_eq
    by (cbn [k_procs set_procs]; rewrite ?E2, ?list_insert_insert_eq; by rewrite list_lookup_insert_eq)).
  unfold bind. match goal with |- context [release LPtable ?x] => destruct (release LPtable x) as [[] s3| | | |] eqn:E3 end; try done.
  apply (keeps_ret_inv _ _ _ _ (keeps_release _)) in E3 as [E3 I3]. intros [= <- <-]. split; [done|]. rewrite E3, I3. cbn [k_procs k_initproc set_procs].
  rewrite E2, I2, I1. by rewrite !list_insert_insert_eq.
Qed.

(** The memory of an exited process: its address space, and its kernel stack outside of it. *)
Record owns (s : kstate) (p : proc) (T U : gmap Z Z) (free : list Z) : Prop := {
  ow_space : space s (p_pgdir p) T U free;
  ow_stack : page_ok (p_kstack p) /\ mapped_range (kmem_get s) (p_kstack p) PGBYTES;
  ow_apart : p_kstack p ∉ free /\ p_kstack p ∉ pt_pages (p_pgdir p) T /\ p_kstack p ∉ pages_of U
}.

(** [reap] returns the pid; the slot is free and so are the pages. *)
Lemma reap_frees j p s T U free :
  k_held s = [LPtable] -> k_procs s !! j = Some p -> owns s p T U free ->
  exists k free', reap j s = Ret (p_pid p) (set_held [] (set_procs (<[j := reaped p]> (k_procs s)) (set_kmem k s))) /\
    kmem_ok (set_kmem k s) free' /\ free' ≡ₚ p_kstack p :: pt_pages (p_pgdir p) T ++ pages_of U ++ free.
Proof.
  intros Hh Hp [Hs [Hk Hm] (Hf & Ht & HU)]. pose proof (us_pt _ _ _ _ _ Hs) as Hpt.
  destruct (kfree_frame s (p_kstack p) free (pt_kmem _ _ _ _ Hpt) (pt_lock _ _ _ _ Hpt) Hk Hm Hf) as (s1 & E1 & Hk1 & Hf1).
  pose proof (space_freed s s1 _ T U free _ Hs Hf1 Hk1 Hk Ht HU) as Hs1.
  destruct Hf1 as (k1 & -> & _). set (s2 := set_procs (<[j := pset_kstack 0 p]> (k_procs s)) (set_kmem k1 s)).
  destruct (freevm_frees s2 (p_pgdir p) T U (p_kstack p :: free)) as ([] & s3 & E3 & free3 & Hk3 & Hp3 & (k3 & -> & _)).
  { apply (space_ext (set_kmem k1 s)); [done| |done]. apply (pt_lock _ _ _ _ Hpt). }
  exists k3, free3. split; [|split].
  - pose proof (lookup_lt_Some _ _ _ Hp) as Hlt. unfold reap, bind at 1. rewrite (get_proc_eq j p) by done.
    unfold bind at 1. rewrite E1. unfold bind at 1. rewrite (upd_proc_eq j p) by done.
    change (k_procs (set_kmem k1 s)) with (k_procs s). fold s2. unfold bind at 1. rewrite E3. unfold s2.
    do 5 (unfold bind at 1; erewrite upd_proc_eq
      by (cbn [k_procs set_procs set_kmem]; rewrite ?list_insert_insert_eq; by rewrite list_lookup_insert_eq)).
    unfold bind. rewrite (release_top _ []) by (done || void). cbn [k_procs set_procs set_kmem].
    rewrite !list_insert_insert_eq. by destruct s.
  - by apply (kmem_ok_ext (set_kmem k3 s2)).
  - rewrite Hp3. solve_Permutation.
Qed.
End free.

(** ** exit *)

Definition reparent (me : nat) (ip : option nat) (p : proc) : proc :=
  if child_of me p then pset_parent ip p else p.

(** What the adoption loop does to process [i]: the children of [me] from index [a] on are [ip]'s, and
    [ip] is awake if one of them is a zombie. *)
Definition adopted (me : nat) (ip : option nat) (a : nat) (ps : list proc) (i : nat) (p : proc) : proc :=
  let p := if existsb (zombie_child me) (drop a ps) then wake_proc ip p else p in
  if (a <=? i)%nat then reparent me ip p else p.

Lemma wake_proc_parent o p : p_parent (wake_proc o p) = p_parent p.
Proof. unfold wake_proc. by destruct (_ && _). Qed.
Lemma wake_proc_zombie o p : bool_decide (p_state (wake_proc o p) = ZOMBIE) = bool_decide (p_state p = ZOMBIE).
Proof.
  unfold wake_proc. destruct (bool_decide_reflect (p_state p = SLEEPING)) as [E|E]; [|done].
  destruct (bool_decide (p_chan p = _)); [|done]. cbn. by rewrite E, !bool_decide_eq_false_2.
Qed.
Lemma wake_proc_idem o p : wake_proc o (wake_proc o p) = wake_proc o p.
Proof.
  unfold wake_proc. destruct (bool_decide (p_state p = SLEEPING) && bool_decide (p_chan p = ChProc <$> o)) eqn:E;
    [done|by rewrite E].
Qed.
Lemma wake_reparent o me ip p : wake_proc o (reparent me ip p) = reparent me ip (wake_proc o p).
Proof.
  unfold reparent, child_of. rewrite wake_proc_parent. destruct (bool_decide (p_parent p = Some me)); [|done].
  unfold wake_proc. cbn. by destruct (_ && _).
Qed.

Lemma zombie_child_wake me o p : zombie_child me (wake_proc o p) = zombie_child me p.
Proof. unfold zombie_child, child_of. by rewrite wake_proc_parent, wake_proc_zombie. Qed.

Lemma existsb_map_wake me o ps : existsb (zombie_child me) (map (wake_proc o) ps) = existsb (zombie_child me) ps.
Proof. induction ps as [|p ps IH]; [done|]. cbn. by rewrite zombie_child_wake, IH. Qed.

Lemma adopt_eq me j p s :
  k_procs s !! j = Some p ->
  adopt me j s = Ret tt (set_procs
    (let ps := <[j := reparent me (k_initproc s) p]> (k_procs s) in
     if zombie_child me p then map (wake_proc (k_initproc s)) ps else ps) s).
Proof.
  intros Hp. unfold adopt, bind at 1. rewrite (get_proc_eq j p) by done. fold (child_of me p).
  unfold zombie_child, reparent. destruct (child_of me p); cbn [andb].
  - unfold bind, gets. rewrite (upd_proc_eq j p) by done.
    destruct (bool_decide (p_state p = ZOMBIE)); [|done]. unfold wakeup1_proc, modify. cbn [k_procs set_procs].
    by rewrite set_procs_procs.
  - rewrite list_insert_id by done. by rewrite set_procs_id.
Qed.

Lemma adopt_lookup me a p ps ip i :
  ps !! a = Some p ->
  let ps1 := <[a := reparent me ip p]> ps in
  let ps2 := if zombie_child me p then map (wake_proc ip) ps1 else ps1 in
  adopted me ip (S a) ps2 i <$> ps2 !! i = adopted me ip a ps i <$> ps !! i.
Proof.
  intros Hp ps1 ps2. pose proof (lookup_lt_Some _ _ _ Hp) as Hlt.
  assert (existsb (zombie_child me) (drop (S a) ps2) = existsb (zombie_child me) (drop (S a) ps)) as Hd.
  { assert (existsb (zombie_child me) (drop (S a) ps1) = existsb (zombie_child me) (drop (S a) ps)) as H1
      by (unfold ps1; by rewrite drop_insert_lt by lia).
    unfold ps2. destruct (zombie_child me p); [|done]. rewrite <- H1.
    rewrite <- (existsb_map_wake me ip (drop (S a) ps1)).
    f_equal. symmetry. apply (fmap_drop (wake_proc ip)). }
  unfold adopted. rewrite Hd. rewrite (drop_S _ _ _ Hp). cbn [existsb].
  destruct (decide (i = a)) as [->|Hne].
  - assert (ps2 !! a = Some (if zombie_child me p then wake_proc ip (reparent me ip p) else reparent me ip p)) as ->.
    { unfold ps2, ps1. destruct (zombie_child me p); [rewrite list_lookup_fmap|]; by rewrite list_lookup_insert_eq. }
    rewrite Hp. cbn [fmap option_fmap option_map]. f_equal.
    rewrite (proj2 (Nat.leb_gt (S a) a)), Nat.leb_refl by lia.
    destruct (zombie_child me p), (existsb _ (drop (S a) ps)); cbn [orb]; rewrite ?wake_reparent, ?wake_proc_idem; done.
  - assert (ps2 !! i = (fun q => if zombie_child me p then wake_proc ip q else q) <$> ps !! i) as ->.
    { unfold ps2, ps1. destruct (zombie_child me p); [rewrite list_lookup_fmap|];
        rewrite list_lookup_insert_ne by done; [done|]. by destruct (ps !! i). }
    destruct (ps !! i) as [q|]; [|done]. cbn [fmap option_fmap option_map]. f_equal.
    assert ((S a <=? i)%nat = (a <=? i)%nat) as ->.
    { destruct (Nat.leb_spec a i), (Nat.leb_spec (S a) i); try done; lia. }
    destruct (zombie_child me p), (existsb _ (drop (S a) ps)); cbn [orb]; rewrite ?wake_proc_idem; done.
Qed.

Lemma adopt_loop me s a n :
  (a + n = length (k_procs s))%nat ->
  exists ps, foreach (adopt me) (seq a n) s = Ret tt (set_procs ps s) /\
    forall i, ps !! i = adopted me (k_initproc s) a (k_procs s) i <$> k_procs s !! i.
Proof.
  revert s a. induction n as [|n IH]; intros s a Hn.
  - exists (k_procs s). cbn. rewrite set_procs_id. split; [done|]. intros i. unfold adopted. rewrite drop_ge by lia.
    cbn. destruct (k_procs s !! i) as [p|] eqn:Hp; [|done]. cbn. f_equal.
    apply lookup_lt_Some in Hp. by rewrite (proj2 (Nat.leb_gt a i)) by lia.
  - destruct (lookup_lt_is_Some_2 (k_procs s) a ltac:(lia)) as [p Hp].
    cbn [seq foreach]. unfold bind. rewrite (adopt_eq me a p) by done.
    match goal with |- context [set_procs ?x s] => set (ps1 := x) end.
    destruct (IH (set_procs ps1 s) (S a)) as (ps & E & Hps).
    { cbn [k_procs set_procs]. unfold ps1. destruct (zombie_child me p); rewrite ?length_map, ?length_insert; lia. }
    exists ps. rewrite E. cbn [k_initproc k_procs set_procs] in Hps. split; [done|].
    intros i. rewrite Hps. by apply (adopt_lookup me a p).
Qed.

(** [exit] from the acquisition of ptable.lock on: what becomes of process [i]. *)
Definition exited (s : kstate) (me : nat) (pme : proc) (i : nat) (p : proc) : proc :=
  let p := adopted me (k_initproc s) 0 (k_procs s) i (wake_proc (p_parent pme) p) in
  if bool_decide (i = me) then pset_state ZOMBIE p else p.

Lemma exit_sched_eq s me pme :
  k_held s = [] -> k_cur s = Some me -> k_procs s !! me = Some pme -> length (k_procs s) = NPROC ->
  exists ps, exit_sched s = Sched (set_held [LPtable] (set_procs ps s)) /\
    forall i, ps !! i = exited s me pme i <$> k_procs s !! i.
Proof.
  intros Hh Hc Hp Hl. unfold exit_sched, bind at 1. rewrite acquire_free by (rewrite Hh; void). rewrite Hh.
  unfold bind at 1. rewrite (cur_proc_eq me) by done. unfold bind at 1. rewrite (get_proc_eq me pme) by done.
  unfold bind at 1, wakeup1_proc, modify. cbn [k_procs set_held].
  set (s1 := set_procs (map (wake_proc (p_parent pme)) (k_procs s)) (set_held [LPtable] s)).
  destruct (adopt_loop me s1 0 NPROC) as (ps & E & Hps); [cbn; by rewrite length_map|].
  assert (forall i, ps !! i = adopted me (k_initproc s) 0 (k_procs s) i <$> (wake_proc (p_parent pme) <$> k_procs s !! i)) as Hps'.
  { intros i. rewrite Hps. cbn [k_procs set_procs s1 k_initproc set_held]. rewrite list_lookup_fmap.
    unfold adopted. rewrite !drop_0. by rewrite existsb_map_wake. }
  unfold bind at 1. rewrite E. unfold bind at 1. specialize (Hps' me) as Hme. rewrite Hp in Hme.
  cbn [fmap option_fmap option_map] in Hme. rewrite (upd_proc_eq me _ _ (set_procs ps s1) Hme). unfold bind.
  erewrite (sched_eq _ me); [|done|done|cbn; by eapply list_lookup_insert_eq, lookup_lt_Some|done].
  exists (<[me := pset_state ZOMBIE (adopted me (k_initproc s) 0 (k_procs s) me (wake_proc (p_parent pme) pme))]> ps).
  split; [done|]. intros i. unfold exited. destruct (decide (i = me)) as [->|Hne].
  - rewrite bool_decide_eq_true_2 by done. rewrite list_lookup_insert_eq by by eapply lookup_lt_Some.
    rewrite Hp. done.
  - rewrite bool_decide_eq_false_2 by done. rewrite list_lookup_insert_ne by done. rewrite Hps'.
    by destruct (k_procs s !! i).
Qed.

(** ** Between exit and wait *)

(** Nobody sleeps in [wait] with a zombie child; no process is its own child; init has no parent. *)
Record wait_ok (s : kstate) : Prop := {
  wo_len : length (k_procs s) = NPROC;
  wo_sleep : forall q pq c pc, k_procs s !! q = Some pq -> p_state pq = SLEEPING -> p_chan pq = Some (ChProc q) ->
    k_procs s !! c = Some pc -> p_parent pc = Some q -> p_state pc <> ZOMBIE;
  wo_self : forall i p, k_procs s !! i = Some p -> p_parent p <> Some i;
  wo_init : forall i p, k_initproc s = Some i -> k_procs s !! i = Some p -> p_parent p = None
}.

Lemma wait_ok_same s s' :
  k_procs s' = k_procs s -> k_initproc s' = k_initproc s -> wait_ok s -> wait_ok s'.
Proof. intros Hp Hi [H1 H2 H3 H4]. split; rewrite ?Hp, ?Hi; done. Qed.

Section invariant.
Context {L : Layout}.

Lemma wait_sleeps_ok s me p :
  wait_ok s -> k_procs s !! me = Some p -> findi (zombie_child me) (k_procs s) = None ->
  wait_ok (set_procs (<[me := asleep (ChProc me) p]> (k_procs s)) s).
Proof.
  intros [H1 H2 H3 H4] Hp Hz. pose proof (lookup_lt_Some _ _ _ Hp) as Hlt.
  assert (forall i x, <[me := asleep (ChProc me) p]> (k_procs s) !! i = Some x ->
    i = me /\ x = asleep (ChProc me) p \/ i <> me /\ k_procs s !! i = Some x) as Hcase.
  { intros i x. destruct (decide (i = me)) as [->|Hi].
    - rewrite list_lookup_insert_eq by done. intros [= <-]. by left.
    - rewrite list_lookup_insert_ne by done. by right. }
  split; cbn [k_procs set_procs k_initproc].
  - by rewrite length_insert.
  - intros q pq c pc Hq Hs Hch Hc Hpar. apply Hcase in Hq, Hc. destruct Hc as [[-> ->]|[Hcm Hc]]; [done|].
    destruct Hq as [[-> ->]|[Hqm Hq]]; [|exact (H2 q pq c pc Hq Hs Hch Hc Hpar)].
    intros Hzz. pose proof (proj1 (findi_None _ _) Hz c pc Hc) as Hf. unfold zombie_child, child_of in Hf.
    by rewrite !bool_decide_eq_true_2 in Hf.
  - intros i x Hi. apply Hcase in Hi as [[-> ->]|[_ Hi]]; [exact (H3 me p Hp)|by apply H3].
  - intros i x Hinit Hi. apply Hcase in Hi as [[-> ->]|[_ Hi]]; [exact (H4 me p Hinit Hp)|by apply (H4 i)].
Qed.

Lemma reap_ok s s' j p :
  wait_ok s -> k_procs s !! j = Some p -> k_procs s' = <[j := reaped p]> (k_procs s) ->
  k_initproc s' = k_initproc s -> wait_ok s'.
Proof.
  intros [H1 H2 H3 H4] Hp Hps Hin. pose proof (lookup_lt_Some _ _ _ Hp) as Hlt.
  assert (forall i x, k_procs s' !! i = Some x -> i = j /\ x = reaped p \/ i <> j /\ k_procs s !! i = Some x) as Hcase.
  { intros i x. rewrite Hps. destruct (decide (i = j)) as [->|Hi].
    - rewrite list_lookup_insert_eq by done. intros [= <-]. by left.
    - rewrite list_lookup_insert_ne by done. by right. }
  split.
  - by rewrite Hps, length_insert.
  - intros q pq c pc Hq Hs Hch Hc Hpar. apply Hcase in Hq, Hc. destruct Hc as [[-> ->]|[Hcm Hc]]; [done|].
    destruct Hq as [[-> ->]|[Hqm Hq]]; [done|exact (H2 q pq c pc Hq Hs Hch Hc Hpar)].
  - intros i x Hi. apply Hcase in Hi as [[-> ->]|[_ Hi]]; [done|by apply H3].
  - intros i x. rewrite Hin. intros Hinit Hi. apply Hcase in Hi as [[-> ->]|[_ Hi]]; [done|by apply (H4 i)].
Qed.

(** Waking up cannot put a process to sleep or make it a zombie. *)
Lemma wake_proc_sleeping o p :
  p_state (wake_proc o p) = SLEEPING -> wake_proc o p = p /\ p_chan p <> ChProc <$> o.
Proof.
  unfold wake_proc. destruct (bool_decide_reflect (p_state p = SLEEPING)) as [E|E]; cbn [andb]; [|done].
  destruct (bool_decide_reflect (p_chan p = ChProc <$> o)); [|done]. by intros ?.
Qed.

Lemma wake_proc_state o p : p_state (wake_proc o p) = ZOMBIE <-> p_state p = ZOMBIE.
Proof.
  pose proof (wake_proc_zombie o p) as E. destruct (bool_decide_reflect (p_state (wake_proc o p) = ZOMBIE)),
    (bool_decide_reflect (p_state p = ZOMBIE)); done.
Qed.

(** What [exited] leaves of a process other than the exiting one. *)
Lemma exited_cases s me pme i p :
  i <> me ->
  let p' := exited s me pme i p in
  (p_parent p' = if child_of me p then k_initproc s else p_parent p) /\
  (p_state p' = ZOMBIE <-> p_state p = ZOMBIE) /\
  (p_state p' = SLEEPING -> p_state p = SLEEPING /\ p_chan p' = p_chan p /\ p_chan p <> ChProc <$> p_parent pme /\
     (existsb (zombie_child me) (k_procs s) = true -> p_chan p <> ChProc <$> k_initproc s)).
Proof.
  intros Hi p'. unfold p', exited, adopted. rewrite bool_decide_eq_false_2 by done. rewrite drop_0. cbn [Nat.leb].
  set (ip := k_initproc s). set (o := p_parent pme).
  assert (forall q, p_parent (reparent me ip q) = (if child_of me q then ip else p_parent q) /\
    p_state (reparent me ip q) = p_state q /\ p_chan (reparent me ip q) = p_chan q) as Hre.
  { intros q. unfold reparent. by destruct (child_of me q). }
  set (b := existsb _ _). set (w := if b then wake_proc ip (wake_proc o p) else wake_proc o p).
  destruct (Hre w) as (-> & -> & ->).
  assert (p_parent w = p_parent p /\ (p_state w = ZOMBIE <-> p_state p = ZOMBIE)) as [Hw1 Hw2].
  { unfold w. destruct b; rewrite ?wake_proc_parent, ?wake_proc_state; done. }
  split; [unfold child_of; by rewrite Hw1|]. split; [done|].
  unfold w. destruct b; intros Hs.
  - apply wake_proc_sleeping in Hs as Hs1. destruct Hs1 as [E1 Hc1]. rewrite E1 in Hs |- *.
    apply wake_proc_sleeping in Hs as Hs2. destruct Hs2 as [E2 Hc2]. rewrite E2 in *. done.
  - apply wake_proc_sleeping in Hs as Hs2. destruct Hs2 as [E2 Hc2]. rewrite E2 in *. done.
Qed.

Lemma exit_ok s s' me pme :
  wait_ok s -> k_procs s !! me = Some pme -> k_initproc s' = k_initproc s ->
  (forall i, k_procs s' !! i = exited s me pme i <$> k_procs s !! i) -> wait_ok s'.
Proof.
  intros [H1 H2 H3 H4] Hme Hin Hps.
  assert (forall i x, k_procs s' !! i = Some x -> exists p, k_procs s !! i = Some p /\ x = exited s me pme i p) as Hcase.
  { intros i x. rewrite Hps. intros Hx. apply fmap_Some in Hx as (p & Hp & ->). eauto. }
  assert (forall p, p_state (exited s me pme me p) = ZOMBIE) as Hz.
  { intros p. unfold exited. by rewrite bool_decide_eq_true_2. }
  assert (forall p, p_parent (exited s me pme me p) = if child_of me p then k_initproc s else p_parent p) as Hpm.
  { intros p. unfold exited, adopted. rewrite bool_decide_eq_true_2 by done. cbn [Nat.leb p_parent pset_state].
    destruct (existsb _ _); unfold reparent, child_of; rewrite !wake_proc_parent;
      destruct (bool_decide _); cbn; rewrite ?wake_proc_parent; done. }
  assert (forall i p, p_parent (exited s me pme i p) = if child_of me p then k_initproc s else p_parent p) as Hpar.
  { intros i p. destruct (decide (i = me)) as [->|Hi]; [apply Hpm|by apply exited_cases]. }
  split.
  - rewrite <- H1. replace (k_procs s') with (imap (exited s me pme) (k_procs s)); [by rewrite length_imap|].
    apply list_eq. intros i. by rewrite list_lookup_imap, Hps.
  - intros q pq c pc Hq Hs Hch Hc Hp Hzz.
    apply Hcase in Hq as (pq0 & Hq0 & ->). apply Hcase in Hc as (pc0 & Hc0 & ->).
    assert (q <> me) as Hqm by (intros ->; rewrite Hz in Hs; done).
    destruct (exited_cases s me pme q pq0 Hqm) as (_ & _ & Hsl). destruct (Hsl Hs) as (Hs0 & Hch0 & Hn1 & Hn2).
    rewrite Hch0 in Hch. rewrite Hpar in Hp. unfold child_of in Hp.
    destruct (bool_decide_reflect (p_parent pc0 = Some me)) as [Hcm|Hcm].
    + rewrite Hp in Hn2. destruct (decide (c = me)) as [->|Hcne]; [by apply (H3 me pc0)|].
      apply Hn2; [|done]. apply (exited_cases s me pme c pc0 Hcne) in Hzz.
      apply existsb_exists. exists pc0. split; [by eapply list_elem_of_In, list_elem_of_lookup_2|].
      unfold zombie_child, child_of. by rewrite !bool_decide_eq_true_2.
    + destruct (decide (c = me)) as [->|Hcne].
      * rewrite Hme in Hc0. injection Hc0 as <-. rewrite Hp in Hn1. done.
      * apply (exited_cases s me pme c pc0 Hcne) in Hzz. by apply (H2 q pq0 c pc0).
  - intros i x Hi. apply Hcase in Hi as (p & Hp & ->). rewrite Hpar. unfold child_of.
    destruct (bool_decide_reflect (p_parent p = Some me)) as [Hcm|Hcm]; [|by apply H3].
    intros E. specialize (H4 i p E Hp). congruence.
  - intros i x. rewrite Hin. intros Hinit Hi. apply Hcase in Hi as (p & Hp & ->). rewrite Hpar.
    specialize (H4 i p Hinit Hp). unfold child_of. by rewrite H4.
Qed.
End invariant.

(** ** Theorems *)

Section theorems.
Context {L : Layout}.

(** C29. [wait] and [exit] on every branch. [wait] with a zombie child returns the pid of the first one in the table, and
    its slot is UNUSED with no pid, parent, name, stack or kill mark; its kernel stack, the directory and tables of its
    address space and its user pages are on the free list, no other process changes and the lock is released. Without
    zombie children [wait] returns -1 if it has no children or is killed, and else sleeps on the caller's address.
    [exit] always ends in the scheduler: the caller is a zombie, its parent is awake if it slept in [wait], its children
    are init's, and init is awake if one of them was a zombie. No other process changes. *)
Theorem exit_wait_cases s me p :
  k_held s = [] -> k_cur s = Some me -> k_procs s !! me = Some p -> length (k_procs s) = NPROC ->
  (forall j pc T U free,
     findi (zombie_child me) (k_procs s) = Some j -> k_procs s !! j = Some pc -> owns s pc T U free ->
     exists k free',
       wait s = Ret (p_pid pc) (set_procs (<[j := reaped pc]> (k_procs s)) (set_kmem k s)) /\
       kmem_ok (set_kmem k s) free' /\ free' ≡ₚ p_kstack pc :: pt_pages (p_pgdir pc) T ++ pages_of U ++ free) /\
  (findi (zombie_child me) (k_procs s) = None ->
     wait s = if negb (existsb (child_of me) (k_procs s)) || negb (p_killed p =? 0) then Ret (-1) s
              else Sched (set_held [LPtable] (set_procs (<[me := asleep (ChProc me) p]> (k_procs s)) s))) /\
  exists ps, exit_sched s = Sched (set_held [LPtable] (set_procs ps s)) /\
    forall i, ps !! i = exited s me p i <$> k_procs s !! i.
Proof.
  intros Hh Hc Hp Hl. split; [|split; [|by apply exit_sched_eq]].
  - intros j pc T U free Hj Hpc Ho. rewrite (wait_eq s me p), Hj by done.
    destruct (reap_frees j pc (set_held [LPtable] s) T U free) as (k & free' & -> & Hk & Hperm); [done|done| |].
    + destruct Ho as [Hs Hst Hap]. split; [|done|done]. apply (space_ext s); [done| |done]. cbn. set_solver.
    + exists k, free'. split; [|split; [by apply (kmem_ok_ext (set_kmem k (set_held [LPtable] s)))|done]].
      rewrite <- Hh. by destruct s.
  - intros Hj. by rewrite (wait_eq s me p), Hj by done.
Qed.

(** A call of [wait], or of [exit] once its files are closed, by process [j]; the scheduler then has the
    lock and gives it up. [None]: the kernel stopped. *)
Inductive pop := OpWait | OpExit.

Definition after {A} (o : outcome kstate A) : option kstate :=
  match o with Ret _ s | Sched s => Some (set_held [] s) | _ => None end.

Fixpoint pexec (ops : list (nat * pop)) (s : kstate) : option kstate :=
  match ops with
  | [] => Some s
  | (j, op) :: ops =>
      s1 ← (match op with OpWait => after (wait (as_proc j s)) | OpExit => after (exit_sched (as_proc j s)) end);
      pexec ops s1
  end.

Lemma pstep_ok j op s s1 :
  wait_ok s -> (j < NPROC)%nat ->
  match op with OpWait => after (wait (as_proc j s)) | OpExit => after (exit_sched (as_proc j s)) end = Some s1 ->
  wait_ok s1.
Proof.
  intros Hs Hj. pose proof (wo_len s Hs) as Hl.
  destruct (lookup_lt_is_Some_2 (k_procs s) j ltac:(lia)) as [p Hp]. destruct op.
  - rewrite (wait_eq (as_proc j s) j p) by done. change (k_procs (as_proc j s)) with (k_procs s).
    destruct (findi _ _) as [c|] eqn:Ec.
    + pose proof (proj1 (findi_Some _ _ _) Ec) as [(pc & Hpc & _) _].
      destruct (reap c _) as [pid s2| |s2| |] eqn:Er; try done; [|by apply reap_stays in Er]. intros [= <-].
      apply (reap_procs c pc) in Er as Hr; [|done]. destruct Hr as (_ & Hps & Hin).
      by eapply reap_ok.
    + destruct (_ || _); intros [= <-].
      * by apply (wait_ok_same s).
      * eapply wait_ok_same; [..|by apply (wait_sleeps_ok s j p)]; done.
  - destruct (exit_sched_eq (as_proc j s) j p) as (ps & -> & Hps); [done..|]. intros [= <-].
    eapply (exit_ok (as_proc j s) _ j p); [by apply (wait_ok_same s)|done|done|exact Hps].
Qed.

(** C30. No exit is missed: in every sequence of calls of [wait] and [exit] by any processes, nobody is
    ever left sleeping in [wait] with a zombie child, and orphans are handed to init under the same
    guarantee. *)
Theorem wait_misses_no_exit ops s s' :
  wait_ok s -> (forall j op, (j, op) ∈ ops -> (j < NPROC)%nat) -> pexec ops s = Some s' ->
  forall q pq c pc, k_procs s' !! q = Some pq -> p_state pq = SLEEPING -> p_chan pq = Some (ChProc q) ->
    k_procs s' !! c = Some pc -> p_parent pc = Some q -> p_state pc <> ZOMBIE.
Proof.
  intros Hs Hj He. cut (wait_ok s'); [intros H; apply H|].
  revert s Hs He. induction ops as [|[j op] ops IH]; intros s Hs; cbn [pexec].
  - by intros [= <-].
  - intros He. apply bind_Some in He as (s1 & E1 & E2).
    apply (IH ltac:(intros j' op' Hin; apply (Hj j' op'); by right) s1); [|done].
    apply (pstep_ok j op s); [done| |done]. apply (Hj j op). by left.
Qed.
End theorems.

(** Init waits for its child; the child exits. *)
Definition demo_procs : list proc :=
  [pset_state RUNNING (pset_pid 1 zero_proc); pset_state RUNNING (pset_pid 2 (pset_parent (Some 0%nat) zero_proc))]
  ++ replicate 62 zero_proc.
Definition demo_family : kstate :=
  set_initproc (Some 0%nat) (set_procs demo_procs (boot_state (Disk ∅ 0 []))).

Lemma demo_procs_cases i p :
  k_procs demo_family !! i = Some p ->
  p_state p <> SLEEPING /\ (p_parent p = None \/ i = 1%nat /\ p_parent p = Some 0%nat).
Proof.
  change (k_procs demo_family) with demo_procs. unfold demo_procs. destruct i as [|[|i]].
  - intros [= <-]. cbn. auto.
  - intros [= <-]. cbn. auto.
  - intros H. change (replicate 62 zero_proc !! i = Some p) in H. apply lookup_replicate in H as [-> _]. cbn. auto.
Qed.

Lemma demo_family_ok : wait_ok demo_family.
Proof.
  split.
  - done.
  - intros q pq c pc Hq Hs. by destruct (demo_procs_cases q pq Hq).
  - intros i p Hi. destruct (demo_procs_cases i p Hi) as [_ [->|[-> ->]]]; done.
  - intros i p [= <-] Hi. destruct (demo_procs_cases 0 p Hi) as [_ [->|[? ?]]]; done.
Qed.

Definition demo_ops : list (nat * pop) := [(0%nat, OpWait); (1%nat, OpExit)].

Lemma demo_run :
  match pexec demo_ops demo_family with
  | Some s' => (p_state <$> k_procs s' !! 0%nat) = Some RUNNABLE /\
      ((fun p => (p_state p, p_parent p)) <$> k_procs s' !! 1%nat) = Some (ZOMBIE, Some 0%nat)
  | None => False
  end.
Proof. vm_compute. split; reflexivity. Qed.

Lemma wait_misses_no_exit_witness :
  exists s', pexec demo_ops demo_family = Some s' /\
    forall pq, k_procs s' !! 0%nat = Some pq -> p_state pq = SLEEPING -> p_chan pq <> Some (ChProc 0%nat).
Proof.
  pose proof demo_run as Hrun. destruct (pexec demo_ops demo_family) as [s'|] eqn:E; [|destruct Hrun].
  exists s'. split; [reflexivity|]. intros pq Hq Hs Hch. destruct Hrun as [_ Hz].
  apply fmap_Some in Hz as (pc & Hc & Hpc). injection Hpc as Hz Hpar.
  refine (wait_misses_no_exit demo_ops demo_family s' demo_family_ok _ E 0%nat pq 1%nat pc Hq Hs Hch Hc _ _).
  - intros j op Hin. unfold demo_ops in Hin. apply list_elem_of_In in Hin. unfold NPROC.
    destruct Hin as [[= <- <-]|[[= <- <-]|[]]]; lia.
  - symmetry. exact Hpar.
  - symmetry. exact Hz.
Defined.

(** A parent whose child, with the stack and directory given, has exited. *)
Definition zombie_procs (stack pgdir : Z) : list proc :=
  [pset_state RUNNING (pset_pid 1 zero_proc);
   pset_kstack stack (pset_pgdir pgdir (pset_state ZOMBIE (pset_pid 2 (pset_parent (Some 0%nat) zero_proc))))]
  ++ replicate 62 zero_proc.

Lemma exit_wait_cases_witness :
  (exists p, k_procs demo_family !! 0%nat = Some p /\
    wait (as_proc 0 demo_family) =
      Sched (set_held [LPtable] (set_procs (<[0%nat := asleep (ChProc 0) p]> demo_procs) (as_proc 0 demo_family)))) /\
  exists s stack pgdir T d free s' free',
    k_procs s = zombie_procs stack pgdir /\ kmem_ok (L := demo_layout) s free /\ wait (L := demo_layout) s = Ret 2 s' /\
    (p_state <$> k_procs s' !! 1%nat) = Some UNUSED /\ kmem_ok (L := demo_layout) s' free' /\
    free' ≡ₚ stack :: pt_pages pgdir T ++ [d] ++ free.
Proof.
  split.
  - eexists. split; [reflexivity|].
    destruct (exit_wait_cases (L := demo_layout) (as_proc 0 demo_family) 0 (pset_state RUNNING (pset_pid 1 zero_proc)))
      as (_ & E & _); [reflexivity..|]. rewrite E by reflexivity. vm_compute. reflexivity.
  - destruct vm_space as (s & pgdir & T & d & free & stack & Hs & Hh & Hst & Hm & Hf & Ht & Hne).
    set (s1 := as_proc 0 (set_procs (zombie_procs stack pgdir) s)).
    destruct (exit_wait_cases (L := demo_layout) s1 0 (pset_state RUNNING (pset_pid 1 zero_proc))) as (Hz & _ & _);
      [reflexivity..|].
    destruct (Hz 1%nat (pset_kstack stack (pset_pgdir pgdir (pset_state ZOMBIE (pset_pid 2 (pset_parent (Some 0%nat) zero_proc)))))
      T {[0 := d]} free) as (k & free' & E & Hk & Hp); [reflexivity|reflexivity| |].
    { split; [|done|split_and!; [done|done|]].
      - apply (space_ext s); [reflexivity| |exact Hs]. cbn. void.
      - unfold pages_of. rewrite map_to_list_singleton. cbn. by rewrite list_elem_of_singleton. }
    exists s1, stack, pgdir, T, d, free. eexists _, free'. split; [reflexivity|]. split.
    { apply (kmem_ok_ext s); [reflexivity|]. apply (us_pt _ _ _ _ _ Hs). }
    split; [exact E|]. split; [reflexivity|]. split; [by apply (kmem_ok_ext (set_kmem k s1))|]. rewrite Hp. unfold pages_of.
    by rewrite map_to_list_singleton.
Defined.

(** [kill(0)] finds an unused slot, whose pid is 0, and marks it killed; [allocproc] hands the slot out with the mark
    on it. *)
Definition slot_image : Image := {| trapret := 0; forkret_pc := 0; initcode := []; kpdpt_page := 0; cpu_local := 0 |}.
Definition slot_state : kstate :=
  set_kmem (Kmem demo_base 0 (map_seqZ demo_base (replicate 4096 0))) (boot_state (Disk ∅ 0 [])).

Lemma kill_zero_marks_slot :
  let _ := slot_image in
  match (r <- kill 0 ;; o <- allocproc ;; ret (r, o)) slot_state with
  | Ret ro s => (ro, (fun p => (p_state p, p_killed p)) <$> k_procs s !! 0%nat) = ((0, Some 0%nat), Some (EMBRYO, 1))
  | _ => False
  end.
Proof. vm_compute. reflexivity. Qed.
