(* ===== verification/ProcSched.v ===== *)
(** * The scheduler serves every runnable process (kernel/proc.c, [scheduler]) *)

From S2P Require Import Prelude Types Monad Sched Bio KString Log Fs FsDir Mem Kalloc Vm Pipe File Proc ProcWait.

Section sched.
Context {I : Image}.

(** What dispatching needs: ptable.lock is the one lock held, the CPU's task state segment is mapped, and
    every RUNNABLE process has a page table. *)
Record sched_ok (s : kstate) : Prop := {
  so_held : k_held s = [LPtable];
  so_len : length (k_procs s) = NPROC;
  so_tss : mapped_range (kmem_get s) (cpu_local + 1028) 8;
  so_pgdir : forall j p, k_procs s !! j = Some p -> p_state p = RUNNABLE ->
    p_pgdir p <> 0 /\ mapped_range (kmem_get s) (entry (p_pgdir p) 511) 8
}.

Definition is_runnable (s : kstate) (j : nat) : Prop :=
  exists p, k_procs s !! j = Some p /\ p_state p = RUNNABLE.

(** The state in which the CPU switches to process [i]. *)
Definition dispatched (i : nat) (p : proc) (m : gmap Z Z) (s : kstate) : kstate :=
  set_procs (<[i := pset_inuse 1 (pset_state RUNNING p)]> (k_procs s)) (set_mem m (set_cur (Some i) s)).

Lemma dispatch_eq s i p :
  sched_ok s -> k_procs s !! i = Some p -> p_state p = RUNNABLE ->
  exists m, dispatch i s = Ret tt (dispatched i p m s) /\
    (forall a n, mapped_range (kmem_get s) a n -> mapped_range m a n).
Proof.
  intros [Hh Hl Ht Hd] Hp Hr. destruct (Hd i p Hp Hr) as [Hnz Hm]. pose proof (lookup_lt_Some _ _ _ Hp) as Hlt.
  unfold dispatch, bind at 1, modify. set (s1 := set_cur (Some i) s).
  unfold bind at 1, switchuvm_proc, myproc, bind at 1. unfold bind at 1. rewrite (cur_proc_eq i) by done.
  rewrite (get_proc_eq i p) by done. unfold switchuvm. apply Z.eqb_neq in Hnz. rewrite Hnz.
  set (rsp := u64 (p_kstack p + KSTACKSIZE)). unfold bind at 1, tss_set_rsp, bind at 1.
  rewrite store_bytes_eq by (rewrite length_le_bytes; eapply mapped_sub; [exact Ht|cbn; lia..]).
  set (s2 := set_mem _ s1).
  assert (forall a n, mapped_range (kmem_get s) a n -> mapped_range (kmem_get s2) a n) as H2.
  { intros a n Ha. apply (mapped_put (kmem_get s1)); [|done]. rewrite length_le_bytes. eapply mapped_sub; [exact Ht|cbn; lia..]. }
  rewrite store_bytes_eq by (rewrite length_le_bytes; eapply mapped_sub; [apply H2, Ht|cbn; lia..]).
  set (s3 := set_mem _ s2).
  assert (forall a n, mapped_range (kmem_get s) a n -> mapped_range (kmem_get s3) a n) as H3.
  { intros a n Ha. apply (mapped_put (kmem_get s2)); [|by apply H2]. rewrite length_le_bytes.
    eapply mapped_sub; [apply H2, Ht|cbn; lia..]. }
  destruct (mapped_word _ _ (H3 _ _ Hm)) as [v Hv]. unfold bind at 1. rewrite (load64_eq _ v) by done.
  unfold ret at 1, bind at 1. rewrite (upd_proc_eq i p) by done.
  rewrite (upd_proc_eq i (pset_state RUNNING p)) by (cbn; by rewrite list_lookup_insert_eq).
  exists (kmem_get s3). split; [|done]. f_equal. cbn. by rewrite list_insert_insert_eq.
Qed.

(** The process the CPU switches to. *)
Definition running (s : kstate) (i : nat) : Prop :=
  exists p, k_procs s !! i = Some p /\ p_state p = RUNNING /\ p_pgdir p <> 0 /\
    mapped_range (kmem_get s) (entry (p_pgdir p) 511) 8.

(** What runs between the switch to a process and the switch back, by the process and by the other CPUs: the process
    gives the CPU back holding ptable.lock only, and every RUNNABLE process has a page table. Other CPUs may have taken
    RUNNABLE processes meanwhile. *)
Definition comes_back (run : nat -> K unit) : Prop :=
  forall i s, sched_ok s -> running s i -> runs (run i) s (fun _ s' => sched_ok s').

(** The turns of a pass from one state to another: the process, and the states before and after it had the CPU. *)
Inductive turns (run : nat -> K unit) : kstate -> list (nat * kstate * kstate) -> kstate -> Prop :=
  | turns_nil s : turns run s [] s
  | turns_cons i p s s1 s2 ts s' :
      k_procs s !! i = Some p -> p_state p = RUNNABLE -> dispatch i s = Ret tt s1 -> run i s1 = Ret tt s2 ->
      turns run (set_cur None s2) ts s' -> turns run s ((i, s1, s2) :: ts) s'.

(** In one of the turns, of another process, [j] stops being RUNNABLE. *)
Definition taken (ts : list (nat * kstate * kstate)) (j : nat) : Prop :=
  exists i s1 s2, (i, s1, s2) ∈ ts /\ i <> j /\ is_runnable s1 j /\ ~ is_runnable s2 j.

Lemma is_runnable_iff s j : (p_state <$> k_procs s !! j) = Some RUNNABLE <-> is_runnable s j.
Proof.
  unfold is_runnable. rewrite fmap_Some. split; intros (p & Hp & Hr); by exists p.
Qed.

(** Nobody is taken by processes that leave the others alone. *)
Lemma not_taken run s ts s' j :
  (forall i a b, i <> j -> is_runnable a j -> run i a = Ret tt b -> is_runnable b j) -> turns run s ts s' -> ~ taken ts j.
Proof.
  intros Halone Hts (i & a & b & Hin & Hne & Ha & Hb). induction Hts as [|i' p s s1 s2 ts s' Hp Hr E1 E2 Hts IH].
  - by apply not_elem_of_nil in Hin.
  - apply elem_of_cons in Hin as [[= <- <- <-]|Hin]; [|by apply IH]. by apply Hb, (Halone i a b).
Qed.

Lemma dispatched_ok s i p m :
  sched_ok s -> k_procs s !! i = Some p -> p_state p = RUNNABLE ->
  (forall a n, mapped_range (kmem_get s) a n -> mapped_range m a n) ->
  sched_ok (dispatched i p m s) /\ running (dispatched i p m s) i /\ forall j, j <> i -> is_runnable s j -> is_runnable (dispatched i p m s) j.
Proof.
  intros [Hh Hl Ht Hd] Hp Hr Hm. pose proof (lookup_lt_Some _ _ _ Hp) as Hlt. split; [split|split].
  - done.
  - cbn. by rewrite length_insert.
  - apply Hm, Ht.
  - intros j q. cbn. destruct (decide (j = i)) as [->|Hj].
    + rewrite list_lookup_insert_eq by done. by intros [= <-].
    + rewrite list_lookup_insert_ne by done. intros Hq Hqr. destruct (Hd j q Hq Hqr) as [? ?].
      split; [done|]. by apply Hm.
  - destruct (Hd i p Hp Hr) as [H1 H2]. exists (pset_inuse 1 (pset_state RUNNING p)). cbn.
    rewrite list_lookup_insert_eq by done. split; [done|]. split; [done|]. split; [done|]. by apply Hm.
  - intros j Hj (q & Hq & Hqr). exists q. cbn. by rewrite list_lookup_insert_ne.
Qed.

Lemma sched_scan_serves run l s :
  comes_back run -> sched_ok s -> NoDup l -> (forall i, i ∈ l -> (i < NPROC)%nat) ->
  runs (sched_scan run l) s (fun ran s' => sched_ok s' /\ sublist ran l /\
    exists ts, turns run s ts s' /\ ran = ts.*1.*1 /\ forall j, j ∈ l -> is_runnable s j -> j ∈ ran \/ taken ts j).
Proof.
  intros Hrun. revert s. induction l as [|i l IH]; intros s Hs Hd Hl.
  - apply runs_ret. split_and!; [done|done|]. exists []. split_and!; [constructor|done|]. by intros j Hj%not_elem_of_nil.
  - apply NoDup_cons in Hd as [Hi Hd]. pose proof (so_len s Hs) as Hlen.
    destruct (lookup_lt_is_Some_2 (k_procs s) i) as [p Hp]; [rewrite Hlen; apply Hl; by left|].
    assert (forall x, x ∈ l -> (x < NPROC)%nat) as Hl' by (intros x Hx; apply Hl; by right).
    cbn [sched_scan]. eapply runs_eq; [by apply get_proc_eq|]. unfold runnable.
    destruct (bool_decide_reflect (p_state p = RUNNABLE)) as [Hr|Hr]; cbn [negb].
    + destruct (dispatch_eq s i p Hs Hp Hr) as (m & E & Hm). eapply runs_eq; [exact E|].
      destruct (dispatched_ok s i p m Hs Hp Hr Hm) as (Hs1 & Hi1 & Hk1).
      destruct (Hrun i _ Hs1 Hi1) as ([] & s2 & E2 & Hs2). eapply runs_eq; [exact E2|].
      rstep. eapply runs_step; [apply IH; [by destruct Hs2; split|done|done]|].
      intros ran s3 (Hs3 & Hsub & ts & Hts & -> & Hj). rstep. split; [done|]. split; [by apply sublist_skip|].
      exists ((i, dispatched i p m s, s2) :: ts). split; [by eapply turns_cons|]. split; [done|].
      intros j [->|Hin]%elem_of_cons Hjr; [by left; left|]. assert (i <> j) by (by intros ->).
      destruct (decide ((p_state <$> k_procs s2 !! j) = Some RUNNABLE)) as [Hr2%is_runnable_iff|Hr2]; rewrite ?is_runnable_iff in Hr2.
      * destruct (Hj j Hin Hr2) as [?|(i' & a & b & ? & ?)]; [left; by right|right]. exists i', a, b. split; [by right|done].
      * right. exists i, (dispatched i p m s), s2. split; [by left|]. auto.
    + eapply runs_mono; [by apply IH|]. intros ran s3 (Hs3 & Hsub & ts & Hts & E & Hj). split; [done|].
      split; [by apply sublist_cons|]. exists ts. split_and!; [done|done|]. intros j [->|Hin]%elem_of_cons Hjr; [|auto].
      destruct Hjr as (q & Hq & Hqr). congruence.
Qed.
End sched.

(** C31. One pass of the scheduler: if every process it switches to gives the CPU back, holding ptable.lock only and with
    a page table for every RUNNABLE process, the pass ends with ptable.lock released. It runs each process at most once
    and in the order of the table, only when it finds it RUNNABLE; and every process that is RUNNABLE when the pass starts
    gets the CPU, or is taken off the RUNNABLE state by somebody else (another CPU) while one of the others has it. *)
Theorem scheduler_serves {I : Image} (run : nat -> K unit) s :
  comes_back run -> k_held s = [] -> sched_ok (set_held [LPtable] s) ->
  runs (scheduler_pass run) s (fun ran s' => k_held s' = [] /\ sublist ran (seq 0 NPROC) /\
    exists ts, turns run (set_held [LPtable] s) ts (set_held [LPtable] s') /\ ran = ts.*1.*1 /\
      forall j, is_runnable s j -> j ∈ ran \/ taken ts j).
Proof.
  intros Hrun Hh Hs. unfold scheduler_pass.
  eapply runs_eq; [apply acquire_free; rewrite Hh; void|]. rewrite Hh.
  eapply runs_step.
  { apply sched_scan_serves; [done|done|apply NoDup_seq|]. intros i. rewrite elem_of_seq. lia. }
  intros ran s' (Hs' & Hsub & ts & Hts & E & Hj). eapply runs_eq; [apply (release_top _ []); [apply Hs'|void]|].
  rstep. split; [done|]. split; [done|]. exists ts. split; [|split; [done|]].
  - rewrite set_held_set_held. rewrite <- (so_held _ Hs'), set_held_held. by rewrite (so_held _ Hs').
  - intros j Hr. apply Hj; [|done]. destruct Hr as (p & Hp & _). apply lookup_lt_Some in Hp.
    pose proof (so_len _ Hs) as Hl0. cbn in Hl0. apply elem_of_seq. lia.
Qed.

(** Two runnable processes with page tables, on a CPU whose processes only yield. *)
Definition demo_image : Image := {| trapret := 0; forkret_pc := 0; initcode := []; kpdpt_page := 0; cpu_local := 8192 |}.
Definition sched_procs : list proc :=
  [pset_state RUNNABLE (pset_pgdir 4096 zero_proc); zero_proc; pset_state RUNNABLE (pset_pgdir 4096 zero_proc)]
  ++ replicate 61 zero_proc.
Definition sched_mem : gmap Z Z := map_seqZ 4096 (replicate (Z.to_nat 8192) 0).
Definition sched_demo : kstate :=
  set_mem sched_mem (set_procs sched_procs (boot_state (Disk ∅ 0 []))).
Definition yields (i : nat) : K unit := upd_proc i (pset_state RUNNABLE).

Lemma yields_comes_back : @comes_back demo_image yields.
Proof.
  intros i s [Hh Hl Ht Hd] (p & Hp & Hr & Hn & Hm). pose proof (lookup_lt_Some _ _ _ Hp) as Hlt.
  eapply runs_eq_last; [by apply upd_proc_eq|]. split.
  - done.
  - cbn. by rewrite length_insert.
  - done.
  - intros j q. cbn. destruct (decide (j = i)) as [->|Hj].
    + rewrite list_lookup_insert_eq by done. intros [= <-] _. done.
    + rewrite list_lookup_insert_ne by done. apply Hd.
Qed.

Lemma yields_alone i j a b : i <> j -> is_runnable a j -> yields i a = Ret tt b -> is_runnable b j.
Proof.
  intros Hne (q & Hq & Hr). unfold yields, upd_proc. destruct (k_procs a !! i); [|done]. intros [= <-].
  exists q. cbn. by rewrite list_lookup_insert_ne.
Qed.

Lemma sched_demo_ok : @sched_ok demo_image (set_held [LPtable] sched_demo).
Proof.
  assert (forall a n, 4096 <= a -> a + Z.of_nat n <= 12288 -> mapped_range sched_mem a n) as Hm.
  { intros a n H1 H2 x Hx. unfold sched_mem. apply lookup_map_seqZ_is_Some. rewrite length_replicate. lia. }
  split.
  - done.
  - done.
  - apply Hm; cbn; lia.
  - intros j p Hj Hr. change (sched_procs !! j = Some p) in Hj. unfold sched_procs in Hj.
    change (kmem_get (set_held [LPtable] sched_demo)) with sched_mem.
    assert (p = pset_state RUNNABLE (pset_pgdir 4096 zero_proc)) as ->.
    { destruct j as [|[|[|j]]]; [by injection Hj as <-|by injection Hj as <-|by injection Hj as <-|].
      change (replicate 61 zero_proc !! j = Some p) in Hj. by apply lookup_replicate in Hj as [-> _]. }
    split; [done|]. apply Hm; unfold entry; cbn; lia.
Qed.

Lemma scheduler_serves_witness :
  runs (@scheduler_pass demo_image yields) sched_demo (fun ran s' => k_held s' = [] /\ 0%nat ∈ ran /\ 2%nat ∈ ran).
Proof.
  eapply runs_mono; [exact (@scheduler_serves demo_image yields sched_demo yields_comes_back eq_refl sched_demo_ok)|].
  intros ran s' (H1 & _ & ts & Hts & -> & H3). split; [exact H1|].
  assert (forall j, is_runnable sched_demo j -> j ∈ ts.*1.*1) as Hall.
  { intros j Hj. destruct (H3 j Hj) as [?|Ht]; [done|]. exfalso. revert Ht. eapply not_taken; [|exact Hts].
    intros i a b. apply yields_alone. }
  split; apply Hall; eexists; split; reflexivity.
Defined.
