(* ===== verification/SyscallProps.v ===== *)
(** * System call arguments stay inside the process (kernel/syscall.c) *)

From S2P Require Import Prelude Types Monad Sched Bio KString Log Fs FsDir Mem Kalloc Vm Pipe File Proc ProcWait.
From S2P Require Import Syscall.

(** The byte the kernel sees at virtual address [va] of process [p]. *)
Definition ubyte (s : kstate) (p : proc) (va : Z) : option Z :=
  match translate (p_pgdir p) va s with Ret a _ => kmem_get s !! a | _ => None end.

(** The running process is [p] and its memory, the addresses below [p_sz], holds the bytes [img]. *)
Record user_image (s : kstate) (i : nat) (p : proc) (img : list Z) : Prop := {
  ui_cur : k_cur s = Some i;
  ui_proc : k_procs s !! i = Some p;
  ui_size : p_sz p = Z.of_nat (length img);
  ui_byte : forall k, (k < length img)%nat -> ubyte s p (Z.of_nat k) = img !! k
}.

Lemma load_state a s : match load64 a s with Ret _ s' => s' = s | _ => True end.
Proof. unfold load64. by destruct (word _ _). Qed.

Lemma translate_state d va s : match translate d va s with Ret _ s' => s' = s | _ => True end.
Proof.
  unfold translate. destruct (KERNBASE <=? va); [done|]. destruct (_ || _); [done|].
  unfold bind. pose proof (load_state (entry d (PDX va)) s) as H1.
  destruct (load64 _ s) as [pde s1| | | |]; try done. subst s1. destruct (negb _); [done|].
  pose proof (load_state (entry (p2v (PTE_ADDR pde)) (PTX va)) s) as H2.
  destruct (load64 _ s) as [pte s2| | | |]; try done. subst s2. by destruct (negb _).
Qed.

Section fetch.
Context {s : kstate} {i : nat} {p : proc} {img : list Z} (Hu : user_image s i p img).

Lemma myproc_eq : myproc s = Ret p s.
Proof. unfold myproc, bind. rewrite (cur_proc_eq i) by apply Hu. apply get_proc_eq, Hu. Qed.

Lemma vload8_eq k x : img !! k = Some x -> vload8 (Z.of_nat k) s = Ret x s.
Proof.
  intros Hx. pose proof (ui_byte _ _ _ _ Hu k (lookup_lt_Some _ _ _ Hx)) as Hb. rewrite Hx in Hb.
  unfold ubyte in Hb. unfold vload8, bind. rewrite myproc_eq.
  pose proof (translate_state (p_pgdir p) (Z.of_nat k) s) as Ht.
  destruct (translate _ _ s) as [a s1| | | |]; try done. subst s1. unfold load_bytes.
  rewrite (proj2 (mem_read_spec _ _ _ [x])); [done|]. split; [done|]. intros [|j] Hj; [|cbn in Hj; lia].
  by rewrite Z.add_0_r.
Qed.

Lemma vload_eq k n : (k + n <= length img)%nat -> vload (Z.of_nat k) n s = Ret (take n (drop k img)) s.
Proof.
  revert k. induction n as [|n IH]; intros k Hk; [done|].
  destruct (lookup_lt_is_Some_2 img k ltac:(lia)) as [x Hx]. rewrite (drop_S _ _ _ Hx). cbn [vload take].
  unfold bind. rewrite (vload8_eq k x Hx). replace (Z.of_nat k + 1) with (Z.of_nat (S k)) by lia.
  by rewrite IH by lia.
Qed.

(** The string at [k]: what comes before the first NUL, if there is one before the end. *)
Definition string_at (k : nat) : option (list Z) :=
  (fun n => take n (drop k img)) <$> strlen (drop k img).

Lemma fetchstr_loop_eq k acc :
  (k <= length img)%nat ->
  fetchstr_loop (Z.of_nat k) (length img - k) acc s = Ret (app acc <$> string_at k) s.
Proof.
  remember (length img - k)%nat as n eqn:Hn. revert k acc Hn. induction n as [|n IH]; intros k acc Hn Hk.
  - unfold string_at. rewrite drop_ge by lia. done.
  - destruct (lookup_lt_is_Some_2 img k ltac:(lia)) as [x Hx]. cbn [fetchstr_loop]. unfold bind.
    rewrite (vload8_eq k x Hx). unfold string_at. rewrite (drop_S _ _ _ Hx). cbn [strlen].
    destruct (x =? 0); [cbn; by rewrite app_nil_r|].
    replace (Z.of_nat k + 1) with (Z.of_nat (S k)) by lia. rewrite IH by lia. unfold string_at.
    destruct (strlen (drop (S k) img)); [|done]. cbn. by rewrite <- app_assoc.
Qed.

Lemma size_bound : p_sz p <= USERTOP.
Proof.
  assert (0 <= USERTOP) by done.
  rewrite (ui_size _ _ _ _ Hu). destruct (Z.le_gt_cases (Z.of_nat (length img)) USERTOP) as [|Hgt]; [done|].
  pose proof (ui_byte _ _ _ _ Hu (Z.to_nat USERTOP)) as Hb. rewrite Z2Nat.id in Hb by done.
  destruct (lookup_lt_is_Some_2 img (Z.to_nat USERTOP)) as [x Hx]; [lia|].
  rewrite Hx in Hb. specialize (Hb ltac:(lia)). done.
Qed.

(** The check of [fetchint] and [fetchuintp] cannot overflow. *)
Lemma range_check addr n :
  0 <= addr -> 0 <= n <= 8 -> (p_sz p <=? addr) || (p_sz p <? u64 (addr + n)) = negb ((addr <? p_sz p) && (addr + n <=? p_sz p)).
Proof.
  intros Ha Hn. pose proof size_bound as Hs. unfold USERTOP, NPDENTRIES in Hs.
  destruct (Z.leb_spec (p_sz p) addr), (Z.ltb_spec addr (p_sz p)); try lia; cbn [orb andb negb]; try done.
  unfold u64. rewrite Z.mod_small by lia.
  destruct (Z.ltb_spec (p_sz p) (addr + n)), (Z.leb_spec (addr + n) (p_sz p)); lia || done.
Qed.

Lemma vload_at addr n :
  0 <= addr -> addr + Z.of_nat n <= p_sz p -> vload addr n s = Ret (take n (drop (Z.to_nat addr) img)) s.
Proof.
  intros Ha Hn. rewrite (ui_size _ _ _ _ Hu) in Hn. rewrite <- (Z2Nat.id addr) at 1 by done. apply vload_eq. lia.
Qed.

Lemma fetchint_eq addr :
  0 <= addr ->
  fetchint addr s = Ret (if addr + 4 <=? p_sz p then Some (s32 (le_val (take 4 (drop (Z.to_nat addr) img)))) else None) s.
Proof.
  intros Ha. unfold fetchint, bind at 1. rewrite myproc_eq, range_check by lia.
  destruct (Z.leb_spec (addr + 4) (p_sz p)); [|by rewrite andb_false_r].
  rewrite (proj2 (Z.ltb_lt _ _)) by lia. cbn [andb negb]. unfold bind, vload32, bind.
  by rewrite vload_at by lia.
Qed.

Lemma fetchuintp_eq addr :
  0 <= addr ->
  fetchuintp addr s = Ret (if addr + 8 <=? p_sz p then Some (le_val (take 8 (drop (Z.to_nat addr) img))) else None) s.
Proof.
  intros Ha. unfold fetchuintp, bind at 1. rewrite myproc_eq, range_check by lia.
  destruct (Z.leb_spec (addr + 8) (p_sz p)); [|by rewrite andb_false_r].
  rewrite (proj2 (Z.ltb_lt _ _)) by lia. cbn [andb negb]. unfold bind, vload64, bind.
  by rewrite vload_at by lia.
Qed.

Lemma fetchstr_eq addr :
  0 <= addr -> fetchstr addr s = Ret (if addr <? p_sz p then string_at (Z.to_nat addr) else None) s.
Proof.
  intros Ha. unfold fetchstr, bind. rewrite myproc_eq, (ui_size _ _ _ _ Hu).
  destruct (Z.leb_spec (Z.of_nat (length img)) addr), (Z.ltb_spec addr (Z.of_nat (length img))); try lia; try done.
  replace (Z.to_nat (Z.of_nat (length img) - addr)) with (length img - Z.to_nat addr)%nat by lia.
  rewrite <- (Z2Nat.id addr) at 1 by done. rewrite fetchstr_loop_eq by lia. by destruct (string_at _).
Qed.

(** A pointer argument with a non-negative size below 2^31: the block lies in the process. *)
Lemma argptr_eq n off a size :
  tf_arg n = Some off -> word (kmem_get s) (p_tf p + off) = Some a -> 0 <= a < 18446744073709551616 ->
  0 <= size < 2147483648 ->
  argptr n size s = Ret (if (a <? p_sz p) && (a + size <=? p_sz p) then Some a else None) s.
Proof.
  intros Hoff Ha Hb Hsz. unfold argptr, bind, arguintp, fetcharg, bind. rewrite myproc_eq, Hoff.
  rewrite (load64_eq _ a) by done. rewrite myproc_eq. pose proof size_bound as Hs. unfold USERTOP, NPDENTRIES in Hs.
  destruct (Z.leb_spec (p_sz p) a), (Z.ltb_spec a (p_sz p)); try lia; cbn [orb andb]; try done.
  unfold u64. rewrite Z.mod_small by lia.
  destruct (Z.ltb_spec (p_sz p) (a + size)), (Z.leb_spec (a + size) (p_sz p)); lia || done.
Qed.
End fetch.

(** C32. System call arguments are read only from the calling process's memory, and exactly as documented:
    [fetchint] and [fetchuintp] succeed exactly when the word lies below the process's size,
    [fetchstr] exactly when a NUL follows before the end, with the bytes before it; [argptr] with a
    non-negative size accepts exactly the blocks inside the process. No check overflows, nothing
    faults, and the state is unchanged. *)
Theorem fetch_in_process s i p img addr :
  user_image s i p img -> 0 <= addr ->
  fetchint addr s = Ret (if addr + 4 <=? p_sz p then Some (s32 (le_val (take 4 (drop (Z.to_nat addr) img)))) else None) s /\
  fetchuintp addr s = Ret (if addr + 8 <=? p_sz p then Some (le_val (take 8 (drop (Z.to_nat addr) img))) else None) s /\
  fetchstr addr s = Ret (if addr <? p_sz p then @string_at img (Z.to_nat addr) else None) s /\
  (forall n off size, tf_arg n = Some off -> word (kmem_get s) (p_tf p + off) = Some addr ->
    addr < 18446744073709551616 -> 0 <= size < 2147483648 ->
    argptr n size s = Ret (if (addr <? p_sz p) && (addr + size <=? p_sz p) then Some addr else None) s).
Proof.
  intros Hu Ha. split; [by apply (fetchint_eq Hu)|]. split; [by apply (fetchuintp_eq Hu)|].
  split; [by apply (fetchstr_eq Hu)|]. intros n off size Hoff Hw Hb Hsz. by eapply (argptr_eq Hu).
Qed.

(** A process of 16 bytes, "hello" and a pointer, in one page mapped at 0. *)
Definition uv_base : Z := KERNBASE + 4194304.
Definition uv_img : list Z := [104; 101; 108; 108; 111; 0; 7; 7] ++ le_bytes 8 4.
Definition uv_mem : gmap Z Z :=
  mem_put (put_word (put_word (put_word ∅ uv_base (Z.lor (v2p (uv_base + 4096)) 7))
    (uv_base + 4096) (Z.lor (v2p (uv_base + 8192)) 7)) (uv_base + 12288 + TF_RDI) 3)
    (uv_base + 8192) uv_img.
Definition uv_proc : proc := pset_tf (uv_base + 12288) (pset_pgdir uv_base (pset_sz 16 zero_proc)).
Definition uv_state : kstate :=
  set_cur (Some 0%nat) (set_mem uv_mem (set_procs (uv_proc :: replicate 63 zero_proc) (boot_state (Disk ∅ 0 [])))).

Lemma uv_image : user_image uv_state 0 uv_proc uv_img.
Proof.
  split; [reflexivity..|]. intros k Hk. change (length uv_img) with 16%nat in Hk.
  do 16 (destruct k as [|k]; [vm_compute; reflexivity|]). lia.
Qed.

Lemma fetch_in_process_witness :
  fetchstr 1 uv_state = Ret (Some [101; 108; 108; 111]) uv_state /\
  fetchuintp 8 uv_state = Ret (Some 4) uv_state /\ fetchint 13 uv_state = Ret None uv_state /\
  argptr 0 13 uv_state = Ret (Some 3) uv_state /\ argptr 0 14 uv_state = Ret None uv_state.
Proof.
  destruct (fetch_in_process uv_state 0 uv_proc uv_img 1 uv_image) as (_ & _ & E1 & _); [lia|].
  destruct (fetch_in_process uv_state 0 uv_proc uv_img 8 uv_image) as (_ & E2 & _); [lia|].
  destruct (fetch_in_process uv_state 0 uv_proc uv_img 13 uv_image) as (E3 & _); [lia|].
  destruct (fetch_in_process uv_state 0 uv_proc uv_img 3 uv_image) as (_ & _ & _ & E4); [lia|].
  rewrite E1, E2, E3, (E4 0%nat TF_RDI 13), (E4 0%nat TF_RDI 14);
    [split_and!; reflexivity|reflexivity|vm_compute; reflexivity|lia|lia|reflexivity|vm_compute; reflexivity|lia|lia].
Defined.

(** The size is an [int], and a negative one passes: [argptr] accepts any pointer inside the process,
    whatever the (converted) size is. [sys_read] hands it to [readi] as a [uint], which then stores up to the
    rest of the file there. *)
Lemma argptr_negative s i p img n off a size :
  user_image s i p img -> tf_arg n = Some off -> word (kmem_get s) (p_tf p + off) = Some a -> 0 <= a < p_sz p ->
  - a <= size < 0 -> argptr n size s = Ret (Some a) s.
Proof.
  intros Hu Hoff Hw Ha Hsz. unfold argptr, bind, arguintp, fetcharg, bind. rewrite (myproc_eq Hu), Hoff.
  rewrite (load64_eq _ a) by done. rewrite (myproc_eq Hu). pose proof (size_bound Hu) as Hs. unfold USERTOP, NPDENTRIES in Hs.
  unfold u64. rewrite Z.mod_small by lia. rewrite (proj2 (Z.leb_gt _ _)), (proj2 (Z.ltb_ge _ _)) by lia. done.
Qed.
