(* ===== verification/ConsoleProps.v ===== *)
(** * The console's line discipline (kernel/console.c)

    [consoleintr] and [consoleread] over the circular buffer implement line editing: a queue of committed
    bytes and a line being edited. *)

From S2P Require Import Prelude Types Monad Sched Bio KString Log Fs FsDir Mem Kalloc Vm Pipe File Proc.
From S2P Require Import Port Print Irq Console.

(** ** The abstract terminal *)

(** Committed bytes, and the line being edited. *)
Definition term : Type := list Z * list Z.

Definition tty (c : Z) (t : term) : term :=
  let '(C, E) := t in
  if (c =? ctl_Z) || (c =? ctl_P) then (C, E)
  else if c =? ctl_U then (C, [])
  else if (c =? ctl_H) || (c =? DELETE) then (C, removelast E)
  else if negb (c =? 0) && (length C + length E <? 128)%nat then
    let c := if c =? 13 then NEWLINE else c in
    let E := E ++ [c] in
    if (c =? NEWLINE) || (c =? ctl_D) || (length C + length E =? 128)%nat then (C ++ E, []) else (C, E)
  else (C, E).

(** What a read of up to [n] bytes, [target] at the start, takes from the committed bytes: up to a newline,
    or up to ^D, which is left for the next read unless it comes first. [None]: the reader has to wait. *)
Fixpoint read_line (n : nat) (target : Z) (C acc : list Z) : option (list Z * list Z) :=
  match n, C with
  | O, _ => Some (acc, C)
  | S _, [] => None
  | S n', c :: C' =>
      if c =? ctl_D then Some (acc, if Z.of_nat n <? target then C else C')
      else if c =? NEWLINE then Some (acc ++ [c], C')
      else read_line n' target C' (acc ++ [c])
  end.

(** ** The buffer *)

Record tty_raw (x : console) (C E : list Z) : Prop := {
  tr_len : length (c_buf x) = 128%nat;
  tr_r : 0 <= c_r x < 4294967296;
  tr_w : c_w x = u32 (c_r x + Z.of_nat (length C));
  tr_e : c_e x = u32 (c_r x + Z.of_nat (length C) + Z.of_nat (length E));
  tr_room : (length C + length E <= 128)%nat;
  tr_data : forall k, (k < length C + length E)%nat ->
    c_buf x !! Z.to_nat ((c_r x + Z.of_nat k) mod 128) = (C ++ E) !! k
}.

(** The line being edited has no newline yet. *)
Definition tty_ok (x : console) (t : term) : Prop :=
  tty_raw x (fst t) (snd t) /\ Forall (fun c => c <> NEWLINE) (snd t).

Lemma u32_mod_128 a : u32 a mod 128 = a mod 128.
Proof. unfold u32. apply Z.mod_mod_divide. by exists 33554432. Qed.

Lemma u32_eq a b : u32 a = u32 b <-> (a - b) mod 4294967296 = 0.
Proof.
  unfold u32. split; intros H.
  - by rewrite Zminus_mod, H, Z.sub_diag.
  - apply Z.mod_divide in H; [|lia]. destruct H as [q Hq]. replace a with (b + q * 4294967296) by lia. apply Z_mod_plus_full.
Qed.

Lemma u32_near a b : -256 <= a - b <= 256 -> (u32 a =? u32 b) = (a =? b).
Proof.
  intros H. destruct (Z.eqb_spec a b) as [->|Hne]; [by rewrite Z.eqb_refl|]. apply Z.eqb_neq. rewrite u32_eq.
  intros E. apply Z.mod_divide in E; [|lia]. destruct E as [q Hq]. assert (q = 0) by lia. lia.
Qed.

Lemma u32_idemp_l a b : u32 (u32 a + b) = u32 (a + b).
Proof. unfold u32. by rewrite Zplus_mod_idemp_l. Qed.

Lemma u32_sub a b : u32 (u32 a - u32 b) = u32 (a - b).
Proof. unfold u32. by rewrite <- Zminus_mod. Qed.

Lemma edit_empty x C E : tty_raw x C E -> (c_e x =? c_w x) = bool_decide (E = []).
Proof.
  intros [_ _ Hw He Hl _]. rewrite He, Hw, u32_near by lia. destruct E as [|c E]; cbn [length].
  - rewrite bool_decide_eq_true_2 by done. apply Z.eqb_eq. lia.
  - rewrite bool_decide_eq_false_2 by done. apply Z.eqb_neq. lia.
Qed.

Lemma none_committed x C E : tty_raw x C E -> (c_r x =? c_w x) = bool_decide (C = []).
Proof.
  intros [_ Hr Hw _ Hl _]. rewrite Hw. rewrite <- (u32_small (c_r x)) at 1 by lia. rewrite u32_near by lia.
  destruct C as [|c C]; cbn [length].
  - rewrite bool_decide_eq_true_2 by done. apply Z.eqb_eq. lia.
  - rewrite bool_decide_eq_false_2 by done. apply Z.eqb_neq. lia.
Qed.

Lemma used x C E : tty_raw x C E -> u32 (c_e x - c_r x) = Z.of_nat (length C + length E).
Proof.
  intros [_ Hr _ He Hl _]. rewrite He. replace (u32 (c_r x + Z.of_nat (length C) + Z.of_nat (length E)) - c_r x)
    with (u32 (c_r x + Z.of_nat (length C) + Z.of_nat (length E)) + - c_r x) by lia.
  rewrite u32_idemp_l. rewrite u32_small; lia.
Qed.

Lemma full x C E : tty_raw x C E -> (c_e x =? u32 (c_r x + 128)) = (length C + length E =? 128)%nat.
Proof.
  intros [_ Hr _ He Hl _]. rewrite He, u32_near by lia.
  destruct (Nat.eqb_spec (length C + length E) 128); [apply Z.eqb_eq|apply Z.eqb_neq]; lia.
Qed.

Lemma put_raw x C E c :
  tty_raw x C E -> (length C + length E < 128)%nat -> tty_raw (input_put c x) C (E ++ [u8 c]).
Proof.
  intros [Hd Hr Hw He Hl Hb] Hroom. set (n := (length C + length E)%nat) in *.
  assert (c_e x mod 128 = (c_r x + Z.of_nat n) mod 128) as Hm.
  { rewrite He, u32_mod_128. f_equal. unfold n. lia. }
  pose proof (Z.mod_pos_bound (c_r x + Z.of_nat n) 128 ltac:(lia)) as Hbd.
  split; unfold input_put, INPUT_BUF; cbn [c_buf c_r c_w c_e cset_e cset_buf]; rewrite ?length_app; cbn [length].
  - by rewrite length_insert.
  - done.
  - done.
  - rewrite He, u32_idemp_l. f_equal. lia.
  - lia.
  - intros k Hk. rewrite Hm. destruct (decide (k = n)) as [->|Hne].
    + rewrite list_lookup_insert_eq by lia. rewrite app_assoc, lookup_app_r by (rewrite length_app; lia).
      rewrite length_app. by replace (n - (length C + length E))%nat with 0%nat by lia.
    + rewrite app_assoc, lookup_app_l by (rewrite length_app; lia).
      rewrite list_lookup_insert_ne; [apply Hb; lia|].
      intros E0. apply Z2Nat.inj in E0; [|lia|by apply Z.mod_pos_bound].
      assert ((Z.of_nat n - Z.of_nat k) mod 128 = 0) as H0.
      { replace (Z.of_nat n - Z.of_nat k) with (c_r x + Z.of_nat n - (c_r x + Z.of_nat k)) by lia.
        by rewrite Zminus_mod, E0, Z.sub_diag. }
      rewrite Z.mod_small in H0 by lia. lia.
Qed.

Lemma commit_raw x C E : tty_raw x C E -> tty_raw (cset_w (c_e x) x) (C ++ E) [].
Proof.
  intros [Hd Hr Hw He Hl Hb]. split; cbn [c_buf c_r c_w c_e cset_w]; rewrite ?length_app; cbn [length].
  - done.
  - done.
  - rewrite He. f_equal. lia.
  - rewrite He. f_equal. lia.
  - lia.
  - intros k Hk. rewrite app_nil_r. apply Hb. lia.
Qed.

Lemma erase_raw x C E c :
  tty_raw x C (E ++ [c]) ->
  input_at x (u32 (c_e x - 1)) = c /\ tty_raw (cset_e (u32 (c_e x - 1)) x) C E.
Proof.
  intros [Hd Hr Hw He Hl Hb]. rewrite !length_app in *. cbn [length] in *.
  assert (u32 (c_e x - 1) = u32 (c_r x + Z.of_nat (length C) + Z.of_nat (length E))) as He1.
  { rewrite He. unfold Z.sub. rewrite u32_idemp_l. f_equal. lia. }
  split.
  - unfold input_at, byte_at, INPUT_BUF. rewrite He1, u32_mod_128.
    replace (c_r x + Z.of_nat (length C) + Z.of_nat (length E))
      with (c_r x + Z.of_nat (length C + length E)) by lia.
    rewrite Hb by lia. rewrite app_assoc, lookup_app_r by (rewrite length_app; lia).
    rewrite length_app. by replace (length C + length E - (length C + length E))%nat with 0%nat by lia.
  - split; cbn [c_buf c_r c_w c_e cset_e]; try done; [lia|].
    intros k Hk. rewrite Hb by lia. rewrite app_assoc. by rewrite lookup_app_l by (rewrite length_app; lia).
Qed.

Lemma take_raw x C E c :
  tty_raw x (c :: C) E -> input_at x (c_r x) = c /\ tty_raw (cset_r (u32 (c_r x + 1)) x) C E.
Proof.
  intros [Hd Hr Hw He Hl Hb]. cbn [length] in *. split.
  - unfold input_at, byte_at, INPUT_BUF. specialize (Hb 0%nat ltac:(lia)). rewrite Z.add_0_r in Hb. by rewrite Hb.
  - split; cbn [c_buf c_r c_w c_e cset_r].
    + done.
    + apply u32_bound.
    + rewrite Hw, u32_idemp_l. f_equal. lia.
    + rewrite He. rewrite <- (Z.add_assoc (u32 _)), u32_idemp_l. f_equal. lia.
    + lia.
    + intros k Hk. specialize (Hb (S k) ltac:(lia)). simpl lookup in Hb. rewrite <- Hb. do 2 f_equal.
      rewrite <- (Zplus_mod_idemp_l (u32 _)), u32_mod_128, Zplus_mod_idemp_l. f_equal. lia.
Qed.

(** ** Output does not touch the line buffer *)

Section screen.
Context {D : Devices}.

(** The cursor position the display controller reports: it stays on the 25 lines of the screen. *)
Definition cursor (l : list ioev) : Z :=
  let l1 := IoOut CRTPORT 14 :: l in
  let hi := u8 (answer l1 (CRTPORT + 1)) in
  let l2 := IoOut CRTPORT 15 :: IoIn (CRTPORT + 1) hi :: l1 in
  Z.lor (Z.shiftl hi 8) (u8 (answer l2 (CRTPORT + 1))).

Definition cursor_ok : Prop := forall l, cursor l < 2000.

(** [s] with screen contents [crt] and port history [l]. *)
Definition scr (crt : list Z) (l : list ioev) (s : kstate) : kstate :=
  set_dev (vset_io l (vset_cons (cset_crt crt (v_cons (k_dev s))) (k_dev s))) s.

Definition the_cons (s : kstate) : console := v_cons (k_dev s).

Lemma scr_self s : s = scr (c_crt (the_cons s)) (v_io (k_dev s)) s.
Proof. by destruct s as [? ? ? ? ? ? ? ? ? ? ? ? ? [[] ? ? ? ? ? ? ?]]. Qed.

Lemma scr_scr crt l crt' l' s : scr crt l (scr crt' l' s) = scr crt l s.
Proof. done. Qed.

Lemma out_scr port v crt l s : outb port v (scr crt l s) = Ret tt (scr crt (IoOut port (u8 v) :: l) s).
Proof. done. Qed.
Lemma in_scr port crt l s :
  inb port (scr crt l s) = Ret (u8 (answer l port)) (scr crt (IoIn port (u8 (answer l port)) :: l) s).
Proof. done. Qed.
Lemma crt_put_scr pos v crt l s :
  0 <= pos < Z.of_nat (length crt) -> crt_put pos v (scr crt l s) = Ret tt (scr (<[Z.to_nat pos := v]> crt) l s).
Proof.
  intros H. unfold crt_put, bind, get_cons, gets. cbn [c_crt v_cons k_dev scr set_dev vset_io vset_cons cset_crt].
  rewrite (proj2 (Z.leb_le _ _)), (proj2 (Z.ltb_lt _ _)) by lia. done.
Qed.

(** Reachable by screen output only. *)
Definition drawn (s s' : kstate) : Prop := exists crt l, s' = scr crt l s /\ length crt = 2000%nat.

Lemma uart_wait_io n crt l s : exists l', uart_wait n (scr crt l s) = Ret tt (scr crt l' s).
Proof.
  revert l. induction n as [|n IH]; intros l; [by exists l|]. cbn [uart_wait]. unfold bind. rewrite in_scr.
  destruct (has _ 32); [by eexists|apply IH].
Qed.

Lemma uartputc_io c crt l s : exists l', uartputc c (scr crt l s) = Ret tt (scr crt l' s).
Proof.
  unfold uartputc, bind at 1, get_cons, gets. destruct (_ =? 0); [by exists l|]. unfold bind.
  destruct (uart_wait_io 128 crt l s) as [l' ->]. rewrite out_scr. by eexists.
Qed.

Lemma length_scroll pos crt :
  length crt = 2000%nat -> 0 <= pos <= 1920 -> length (scroll_up pos crt) = 2000%nat.
Proof.
  intros Hl Hp. unfold scroll_up. rewrite length_splice, length_splice; [done|..].
  - rewrite length_take, length_drop, Hl. lia.
  - rewrite length_splice, length_replicate, Hl; [lia|]. rewrite length_take, length_drop, Hl. lia.
Qed.

Lemma cgaputc_draws c crt l s :
  cursor_ok -> length crt = 2000%nat -> exists crt' l', cgaputc c (scr crt l s) = Ret tt (scr crt' l' s) /\
    length crt' = 2000%nat.
Proof.
  intros Hc Hl. specialize (Hc l). unfold cursor in Hc. cbv zeta in Hc. unfold cgaputc.
  unfold bind at 1. rewrite out_scr. change (u8 14) with 14. unfold bind at 1. rewrite in_scr.
  set (hi := u8 (answer (IoOut CRTPORT 14 :: l) (CRTPORT + 1))) in *.
  unfold bind at 1. rewrite out_scr. change (u8 15) with 15. unfold bind at 1. rewrite in_scr.
  match type of Hc with context [Z.lor _ ?lo'] => set (lo := lo') in * end.
  assert (0 <= Z.lor (Z.shiftl hi 8) lo) as H0.
  { apply Z.lor_nonneg. split; [apply Z.shiftl_nonneg|]; apply Z.mod_pos_bound; lia. }
  set (pos := Z.lor (Z.shiftl hi 8) lo) in *. set (l1 := IoIn _ lo :: _). clearbody pos l1. clear hi lo.
  assert (exists crt1 pos1, (if c =? 10 then ret (pos + (80 - pos mod 80))
    else if c =? BACKSPACE then ret (if 0 <? pos then pos - 1 else pos)
    else crt_put pos (Z.lor (Z.land c 255) 1792) ;; ret (pos + 1)) (scr crt l1 s) = Ret pos1 (scr crt1 l1 s) /\
    length crt1 = 2000%nat /\ 0 <= pos1 <= 2000) as (crt1 & pos1 & E1 & Hl1 & Hp1).
  { destruct (c =? 10).
    - exists crt, (pos + (80 - pos mod 80)). split; [done|]. split; [done|]. pose proof (Z.mod_pos_bound pos 80).
      Z.div_mod_to_equations. lia.
    - destruct (c =? BACKSPACE).
      + exists crt, (if 0 <? pos then pos - 1 else pos). split; [done|]. split; [done|]. destruct (Z.ltb_spec 0 pos); lia.
      + eexists _, (pos + 1). unfold bind. rewrite crt_put_scr by lia. split; [reflexivity|]. rewrite length_insert. lia. }
  unfold bind at 1. rewrite E1.
  assert (exists crt2 pos2, (if 24 <=? pos1 / 80 then
      if 24 * 80 <? pos1 - 80 then fault
      else upd_cons (fun x => cset_crt (scroll_up (pos1 - 80) (c_crt x)) x) ;; ret (pos1 - 80)
    else ret pos1) (scr crt1 l1 s) = Ret pos2 (scr crt2 l1 s) /\ length crt2 = 2000%nat /\ 0 <= pos2 < 2000)
    as (crt2 & pos2 & E2 & Hl2 & Hp2).
  { destruct (Z.leb_spec 24 (pos1 / 80)).
    - assert (1920 <= pos1) by (Z.div_mod_to_equations; lia). rewrite (proj2 (Z.ltb_ge _ _)) by lia.
      exists (scroll_up (pos1 - 80) crt1), (pos1 - 80). split; [done|]. split; [apply length_scroll; [done|lia]|lia].
    - exists crt1, pos1. split; [done|]. split; [done|]. Z.div_mod_to_equations. lia. }
  unfold bind at 1. cbv zeta. rewrite E2. do 4 (unfold bind at 1; rewrite out_scr).
  rewrite crt_put_scr by lia. eexists _, _. split; [reflexivity|]. by rewrite length_insert.
Qed.

Lemma consputc_draws c crt l s :
  cursor_ok -> length crt = 2000%nat -> c_panicked (the_cons s) = 0 ->
  exists crt' l', consputc c (scr crt l s) = Ret tt (scr crt' l' s) /\ length crt' = 2000%nat.
Proof.
  intros Hc Hl Hp. unfold consputc, bind at 1, get_cons, gets.
  change (c_panicked (v_cons (k_dev (scr crt l s)))) with (c_panicked (the_cons s)). rewrite Hp. cbn [Z.eqb negb].
  assert (exists l', (if c =? BACKSPACE then uartputc 8 ;; uartputc 32 ;; uartputc 8 else uartputc c) (scr crt l s)
    = Ret tt (scr crt l' s)) as [l' E].
  { destruct (c =? BACKSPACE); [|apply uartputc_io]. unfold bind.
    destruct (uartputc_io 8 crt l s) as [l1 ->]. destruct (uartputc_io 32 crt l1 s) as [l2 ->]. apply uartputc_io. }
  unfold bind at 1. rewrite E. by apply cgaputc_draws.
Qed.
End screen.

(** ** Typing *)

Section typing.
Context {drv : DiskDriver} {D : Devices} (Hcur : cursor_ok).

(** The console can print. *)
Definition prints (s : kstate) : Prop := length (c_crt (the_cons s)) = 2000%nat /\ c_panicked (the_cons s) = 0.

Definition line_same (x x' : console) : Prop :=
  c_buf x' = c_buf x /\ c_r x' = c_r x /\ c_w x' = c_w x /\ c_e x' = c_e x.

Lemma tty_raw_same x x' C E : line_same x x' -> tty_raw x C E -> tty_raw x' C E.
Proof. intros (H1 & H2 & H3 & H4) [Hd Hr Hw He Hl Hb]. split; rewrite ?H1, ?H2, ?H3, ?H4; done. Qed.

(** Only the devices' state differs. *)
Definition dev_only (s s' : kstate) : Prop := exists d, s' = set_dev d s.

#[local] Instance dev_only_preorder : PreOrder dev_only.
Proof.
  split; [intros s; exists (k_dev s); by destruct s|]. intros s1 s2 s3 [d1 ->] [d2 ->]. by exists d2.
Qed.

Lemma consputc_line c s :
  prints s -> runs (consputc c) s (fun _ s' => dev_only s s' /\ prints s' /\ line_same (the_cons s) (the_cons s')).
Proof.
  intros [Hl Hp]. destruct (consputc_draws c (c_crt (the_cons s)) (v_io (k_dev s)) s Hcur Hl Hp) as (crt & l & E & Hl').
  rewrite <- scr_self in E. eapply runs_eq_last; [exact E|]. split; [by eexists|]. by split.
Qed.

Lemma runs_upd_cons {A} f (k : unit -> K A) s Q :
  runs (k tt) (set_dev (vset_cons (f (the_cons s)) (k_dev s)) s) Q -> runs (bind (upd_cons f) k) s Q.
Proof. intros H. by eapply runs_eq. Qed.

Lemma backspace s C E c :
  prints s -> tty_raw (the_cons s) C (E ++ [c]) ->
  runs (upd_cons (cset_e (u32 (c_e (the_cons s) - 1))) ;; consputc BACKSPACE) s
    (fun _ s' => dev_only s s' /\ prints s' /\ tty_raw (the_cons s') C E).
Proof.
  intros Hp Hr. apply runs_upd_cons. eapply runs_mono; [by apply consputc_line|].
  intros [] s' (Hd & Hp' & Hs). split; [etrans; [by eexists|exact Hd]|]. split; [done|].
  eapply tty_raw_same; [exact Hs|]. by apply (erase_raw _ _ _ c).
Qed.

Lemma kill_line_spec s C E :
  prints s -> tty_ok (the_cons s) (C, E) ->
  runs (kill_line (S (length E))) s (fun _ s' => dev_only s s' /\ prints s' /\ tty_ok (the_cons s') (C, [])).
Proof.
  revert s. induction E as [|c E IH] using rev_ind; intros s Hp [Hr Hf]; cbn [fst snd] in *.
  - cbn [length kill_line]. eapply runs_eq; [reflexivity|]. fold (the_cons s). rewrite (edit_empty _ _ _ Hr).
    rewrite bool_decide_eq_true_2 by done. cbn [negb andb]. apply runs_ret. split; [reflexivity|]. split; [done|].
    by split.
  - rewrite length_app, Nat.add_1_r. remember (S (length E)) as fuel. cbn [kill_line]. subst fuel.
    eapply runs_eq; [reflexivity|]. fold (the_cons s). rewrite (edit_empty _ _ _ Hr).
    rewrite bool_decide_eq_false_2 by (by destruct E). apply Forall_app in Hf as [Hf Hc].
    apply Forall_cons in Hc as [Hc _]. destruct (erase_raw _ _ _ _ Hr) as [-> _].
    apply Z.eqb_neq in Hc. rewrite Hc. cbn [negb andb].
    assert (runs ((upd_cons (cset_e (u32 (c_e (the_cons s) - 1))) ;; consputc BACKSPACE) ;;
      kill_line (S (length E))) s (fun _ s' => dev_only s s' /\ prints s' /\ tty_ok (the_cons s') (C, []))) as Hrun.
    { eapply runs_step; [by eapply backspace|]. intros [] s1 (Hd1 & Hp1 & Hr1).
      eapply runs_mono; [apply IH; [done|by split]|]. intros [] s2 (Hd2 & Hp2 & Ht). split; [by etrans|done]. }
    destruct Hrun as (a & s' & Er & Hq). exists a, s'. split; [|exact Hq]. rewrite <- Er. unfold bind.
    by destruct (upd_cons _ s).
Qed.

(** What an interrupt does for one character: the line buffer follows [tty]; when bytes are committed, nobody
    is left sleeping for input. *)
Definition typed (s : kstate) (t t' : term) (s' : kstate) : Prop :=
  tty_ok (the_cons s') t' /\ prints s' /\
  exists d ps, s' = set_procs ps (set_dev d s) /\ procs_woken (k_procs s) ps /\
    (fst t' <> fst t -> forall p, p ∈ ps -> ~ sleeps ChInput p).

Lemma typed_dev s s' t t' :
  dev_only s s' -> prints s' -> tty_ok (the_cons s') t' -> fst t' = fst t -> typed s t t' s'.
Proof.
  intros [d ->] Hp Ht Hf. split; [done|]. split; [done|]. exists d, (k_procs s). split; [by destruct s|].
  split; [reflexivity|done].
Qed.

Lemma type_char s C E c :
  prints s -> tty_ok (the_cons s) (C, E) -> 0 <= c < 256 -> (length C + length E < 128)%nat -> LPtable ∉ k_held s ->
  runs (upd_cons (input_put c) ;; consputc c ;; x <- get_cons ;;
    if (c =? NEWLINE) || (c =? ctl_D) || (c_e x =? u32 (c_r x + INPUT_BUF)) then
      upd_cons (cset_w (c_e x)) ;; wakeup ChInput
    else ret tt) s
    (fun _ s' => typed s (C, E)
      (if (c =? NEWLINE) || (c =? ctl_D) || (length C + length (E ++ [c]) =? 128)%nat then (C ++ E ++ [c], []) else (C, E ++ [c])) s').
Proof.
  intros Hp [Hr Hf] Hc Hroom Hlk. cbn [fst snd] in *. apply runs_upd_cons.
  eapply runs_step; [by apply consputc_line|]. intros [] s1 ([d ->] & Hp1 & Hs1).
  apply (put_raw _ _ _ c) in Hr; [|done]. rewrite u8_small in Hr by lia.
  apply (tty_raw_same _ _ _ _ Hs1) in Hr. eapply runs_eq; [reflexivity|].
  match goal with |- context [v_cons (k_dev ?x)] => set (s1 := x) in * end. fold (the_cons s1).
  change INPUT_BUF with 128. rewrite (full _ _ _ Hr).
  destruct ((c =? NEWLINE) || (c =? ctl_D) || _) eqn:Ecommit.
  - apply runs_upd_cons. eapply runs_eq_last; [apply wakeup_eq; exact Hlk|].
    split; [split; [by apply commit_raw in Hr|done]|]. split; [done|]. eexists _, _. split; [reflexivity|].
    split; [apply wake_woken|]. intros _ p (p0 & _ & ->)%elem_of_map_wake Hsl. by apply wake_not_sleeps in Hsl.
  - apply runs_ret. apply typed_dev; [by eexists|done| |done]. split; [done|]. apply Forall_app. split; [done|].
    apply Forall_cons. split; [|done]. apply orb_false_iff in Ecommit as [Ecommit _]. apply orb_false_iff in Ecommit as [Ecommit _].
    by apply Z.eqb_neq.
Qed.

Lemma intr_char_spec s t c :
  prints s -> tty_ok (the_cons s) t -> 0 <= c < 256 -> c <> ctl_P -> LPtable ∉ k_held s ->
  runs (intr_char c) s (fun _ s' => typed s t (tty c t) s').
Proof.
  intros Hp Ht Hc HP Hlk. destruct t as [C E]. pose proof Ht as [Hr Hf]. cbn [fst snd] in *.
  unfold intr_char. eapply runs_eq; [reflexivity|]. fold (the_cons s). unfold tty.
  apply Z.eqb_neq in HP. rewrite HP, orb_false_r.
  destruct (c =? ctl_Z); [apply runs_ret, typed_dev; done|].
  destruct (c =? ctl_U).
  { replace (u32 (c_e (the_cons s) - c_w (the_cons s))) with (Z.of_nat (length E)).
    - rewrite Nat2Z.id. eapply runs_mono; [by apply kill_line_spec|]. intros [] s' (H1 & H2 & H3). by apply typed_dev.
    - destruct Hr as [_ _ Hw He Hl _]. rewrite He, Hw, u32_sub, u32_small; lia. }
  destruct ((c =? ctl_H) || (c =? DELETE)).
  { rewrite (edit_empty _ _ _ Hr). destruct E as [|c0 E0 _] using rev_ind.
    - rewrite bool_decide_eq_true_2 by done. apply runs_ret, typed_dev; done.
    - rewrite bool_decide_eq_false_2 by (by destruct E0). rewrite removelast_last. cbn [negb].
      eapply runs_mono; [by eapply backspace|]. intros [] s' (H1 & H2 & H3). apply typed_dev; [done|done| |done].
      split; [done|]. by apply Forall_app in Hf as [? _]. }
  change INPUT_BUF with 128. rewrite (used _ _ _ Hr).
  replace (Z.of_nat (length C + length E) <? 128) with (length C + length E <? 128)%nat
    by (destruct (Nat.ltb_spec (length C + length E) 128), (Z.ltb_spec (Z.of_nat (length C + length E)) 128); lia || done).
  destruct (negb (c =? 0)); cbn [andb]; [|apply runs_ret, typed_dev; done].
  destruct (Nat.ltb_spec (length C + length E) 128); [|apply runs_ret, typed_dev; done].
  apply (type_char s C E); [done|done| |done|done]. destruct (c =? 13); [done|lia].
Qed.
End typing.

(** ** Reading *)

Section reading.
Context {D : Devices}.

(** The reader holds the input lock and runs as process [i]. *)
Record reader (s : kstate) (i : nat) (p : proc) : Prop := {
  rd_held : k_held s = [LInput];
  rd_cur : k_cur s = Some i;
  rd_proc : k_procs s !! i = Some p;
  rd_killed : p_killed p = 0
}.

Definition set_console (x : console) (s : kstate) : kstate := set_dev (vset_cons x (k_dev s)) s.

Lemma input_wait_ready s C E :
  tty_raw (the_cons s) C E -> C <> [] -> input_wait 2 s = Ret true s.
Proof.
  intros Hr HC. cbn [input_wait]. unfold bind, get_cons, gets. fold (the_cons s).
  rewrite (none_committed _ _ _ Hr). by rewrite bool_decide_eq_false_2.
Qed.

Lemma input_wait_sleeps s E i p :
  tty_raw (the_cons s) [] E -> reader s i p ->
  input_wait 2 s = Sched (set_held [LPtable] (set_procs (<[i := asleep ChInput p]> (k_procs s)) s)).
Proof.
  intros Hr [Hh Hc Hp Hk]. cbn [input_wait]. unfold bind at 1, get_cons, gets. fold (the_cons s).
  rewrite (none_committed _ _ _ Hr). rewrite bool_decide_eq_true_2 by done.
  unfold bind at 1, cur_killed, bind at 1, bind at 1, cur_proc. rewrite Hc. unfold nth_or_fault. rewrite Hp, Hk.
  cbn [Z.eqb negb ret]. unfold bind. by rewrite (sleep_eq _ _ _ i p).
Qed.

Definition read_result (s : kstate) (C E : list Z) (i : nat) (p : proc) (o : option (list Z * list Z))
    (r : outcome kstate (option (list Z))) : Prop :=
  match o with
  | Some (l, C') => exists x, r = Ret (Some l) (set_console x s) /\ tty_raw x C' E
  | None => exists x, r = Sched (set_held [LPtable] (set_procs (<[i := asleep ChInput p]> (k_procs s)) (set_console x s)))
      /\ tty_raw x [] E
  end.

Lemma read_loop_spec n target s C E acc i p :
  tty_raw (the_cons s) C E -> reader s i p ->
  read_result s C E i p (read_line n target C acc) (consoleread_loop n target acc s).
Proof.
  revert s C acc. induction n as [|n IH]; intros s C acc Hr Hrd.
  { exists (the_cons s). split; [|done]. by destruct s as [? ? ? ? ? ? ? ? ? ? ? ? ? []]. }
  cbn [consoleread_loop read_line]. unfold bind at 1. destruct C as [|c C].
  { exists (the_cons s). split; [|done]. rewrite (input_wait_sleeps s E i p) by done.
    by destruct s as [? ? ? ? ? ? ? ? ? ? ? ? ? []]. }
  rewrite (input_wait_ready s (c :: C) E) by done. cbn [negb]. unfold bind at 1, get_cons, gets. fold (the_cons s).
  destruct (take_raw _ _ _ _ Hr) as [-> Hr1]. unfold bind at 1.
  change (upd_cons (cset_r (u32 (c_r (the_cons s) + 1))) s)
    with (Ret tt (set_console (cset_r (u32 (c_r (the_cons s) + 1)) (the_cons s)) s) : outcome kstate unit).
  set (s1 := set_console _ s). destruct (c =? ctl_D).
  - unfold bind. destruct (Z.of_nat (S n) <? target); [|by eexists].
    eexists. split; [reflexivity|]. cbn. eapply tty_raw_same; [|exact Hr].
    split; [done|]. split; [|done]. cbn. unfold Z.sub. rewrite u32_idemp_l.
    replace (c_r (the_cons s) + 1 + _) with (c_r (the_cons s)) by lia. apply u32_small, Hr.
  - destruct (c =? NEWLINE); [by eexists|].
    specialize (IH s1 C (acc ++ [c]) Hr1). destruct Hrd. specialize (IH ltac:(by split)). exact IH.
Qed.
End reading.

Lemma woken_awake c p p' : woken p p' -> ~ sleeps c p -> ~ sleeps c p'.
Proof. intros [->|[_ ->]] H; [done|]. by intros [? _]. Qed.

Lemma procs_woken_awake c ps ps' :
  procs_woken ps ps' -> (forall p, p ∈ ps -> ~ sleeps c p) -> forall p, p ∈ ps' -> ~ sleeps c p.
Proof.
  intros H Hs p [k Hk]%list_elem_of_lookup_1. destruct (Forall2_lookup_r _ _ _ _ _ H Hk) as (p0 & Hp0 & Hw).
  eapply woken_awake; [exact Hw|]. apply Hs. by eapply list_elem_of_lookup_2.
Qed.

Lemma typed_trans s s1 s2 t t1 t2 : typed s t t1 s1 -> typed s1 t1 t2 s2 -> typed s t t2 s2.
Proof.
  intros (_ & _ & d1 & ps1 & -> & Hw1 & Hn1) (Ht & Hp & d2 & ps2 & -> & Hw2 & Hn2). split; [done|]. split; [done|].
  exists d2, ps2. split; [done|]. split; [by etrans|]. intros Hne.
  destruct (decide (fst t2 = fst t1)) as [E|E]; [|by apply Hn2].
  apply (procs_woken_awake _ ps1); [done|]. apply Hn1. by rewrite <- E.
Qed.

Lemma type_all {D : Devices} cs s t :
  cursor_ok -> prints s -> tty_ok (the_cons s) t -> LPtable ∉ k_held s ->
  Forall (fun c => 0 <= c < 256 /\ c <> ctl_P) cs ->
  runs (foreach intr_char cs) s (fun _ s' => typed s t (foldl (fun t c => tty c t) t cs) s').
Proof.
  intros Hcur. revert s t. induction cs as [|c cs IH]; intros s t Hp Ht Hlk Hcs.
  - apply runs_ret, typed_dev; [|done..]. exists (k_dev s). by destruct s.
  - apply Forall_cons in Hcs as [[Hc HP] Hcs]. cbn [foreach foldl].
    eapply runs_step; [by apply intr_char_spec|]. intros [] s1 H1.
    eapply runs_mono; [apply IH; [apply H1|apply H1| |done]|].
    + destruct H1 as (_ & _ & d & ps & -> & _). done.
    + intros [] s2 H2. by eapply typed_trans.
Qed.

(** C33. The console is a line-edited terminal. From a buffer that holds the committed bytes [C] and the
    edited line [E], typing characters (other than ^P) edits the line and commits it as the abstract terminal
    [tty] says, across wrap-around of the indices; when something is committed nobody is left sleeping for
    input; and a read then returns at most one line of the committed bytes, stops before ^D, or
    sleeps when they run out. *)
Theorem console_lines {D : Devices} cs s t :
  cursor_ok -> prints s -> tty_ok (the_cons s) t -> LPtable ∉ k_held s ->
  Forall (fun c => 0 <= c < 256 /\ c <> ctl_P) cs ->
  let t' := foldl (fun t c => tty c t) t cs in
  runs (foreach intr_char cs) s (fun _ s' => typed s t t' s' /\
    forall n i p, reader s' i p ->
      read_result s' (fst t') (snd t') i p (read_line n (Z.of_nat n) (fst t') []) (consoleread_loop n (Z.of_nat n) [] s')).
Proof.
  intros Hcur Hp Ht Hlk Hcs t'.
  eapply runs_mono; [by apply type_all|]. intros [] s' Hty. split; [exact Hty|].
  intros n i p Hrd. apply read_loop_spec; [|done]. apply Hty.
Qed.

(** A quiet machine whose indices are about to wrap around, read by process 0: it types [ab], erases the [b],
    types [c] and return. *)
Definition still : Devices := {| answer := fun _ _ => 0 |}.
Definition tty_state : kstate :=
  set_console (Cons 0 0 (replicate 128 0) 4294967295 4294967295 4294967295 0 0 (replicate 2000 0))
    (set_held [LInput] (set_cur (Some 0%nat) (boot_state (Disk ∅ 0 [])))).
Definition tty_keys : list Z := [97; 98; ctl_H; 99; 13].

Lemma still_cursor : @cursor_ok still.
Proof. by intros l. Qed.

Lemma tty_state_ok : tty_ok (the_cons tty_state) ([], []).
Proof. split; [split; cbn; try done; lia|constructor]. Qed.

Lemma tty_keys_ok : Forall (fun c => 0 <= c < 256 /\ c <> ctl_P) tty_keys.
Proof. by apply (bool_decide_unpack _). Qed.

Lemma console_lines_witness :
  runs (foreach (@intr_char still) tty_keys) tty_state (fun _ s' =>
    tty_ok (the_cons s') ([97; 99; NEWLINE], []) /\
    exists p x, k_procs s' !! 0%nat = Some p /\ consoleread_loop 100 100 [] s' = Ret (Some [97; 99; NEWLINE]) (set_console x s')).
Proof.
  eapply runs_mono.
  - apply (@console_lines still tty_keys tty_state ([], []) still_cursor ltac:(done) tty_state_ok ltac:(set_solver)).
    exact tty_keys_ok.
  - intros [] s' [Hty Hrd]. split; [apply Hty|].
    destruct Hty as (_ & _ & d & ps & -> & Hw & _). 
    destruct (Forall2_lookup_l _ _ _ 0%nat zero_proc Hw eq_refl) as (p & Hp & Hwp).
    exists p. destruct (Hrd 100%nat 0%nat p) as (x & Hx & _).
    + split; [done..|]. by destruct Hwp as [->|[_ ->]].
    + exists x. by split.
Defined.
