(* ===== verification/FsDirProps.v ===== *)
(** * Directories (kernel/fs.c: dirlookup, dirlink)

    A directory's contents are its entries; looking a name up finds the first entry in use with that name,
    and linking puts the name in the first free one. *)

From S2P Require Import Prelude Types Monad Sched Bio BioSpec KString Log LogSpec TxSpec Fs FsDir FsBlocks.
From S2P Require Import Demo FsBlocksProps FsInode FsInodeOps FsFile FsFileOps FsFileProps.

(** ** Abstract directories *)

(** Entry [k], sixteen bytes. *)
Definition dir_entry (V : Z -> list Z) (i : inode) (k : nat) : list Z := file_bytes V i (16 * Z.of_nat k) 16.
Definition dir_len (i : inode) : nat := Z.to_nat (i_size i / 16).
Definition dir_entries (V : Z -> list Z) (i : inode) : list (list Z) := map (dir_entry V i) (seq 0 (dir_len i)).

Definition in_use (de : list Z) : bool := negb (de_inum de =? 0).
Definition has_name (name de : list Z) : bool :=
  in_use de && bool_decide (cstr DIRSIZ name = cstr DIRSIZ (de_name de)).

(** The position and the inode of the first entry with this name, counting from [k]. *)
Fixpoint find_name (name : list Z) (es : list (list Z)) (k : nat) : option (nat * Z) :=
  match es with
  | [] => None
  | de :: es => if has_name name de then Some (k, de_inum de) else find_name name es (S k)
  end.

Fixpoint find_unused (es : list (list Z)) (k : nat) : nat :=
  match es with
  | [] => k
  | de :: es => if in_use de then find_unused es (S k) else k
  end.

(** A directory: a regular file whose size is a whole number of entries. *)
Record dir_ok (s : kstate) (V : Z -> list Z) (i : inode) : Prop := {
  do_type : i_type i = T_DIR;
  do_regular : regular s V i;
  do_size : i_size i mod 16 = 0;
  do_bytes : forall x, 0 <= x < i_size i -> is_byte (fbyte V i x)
}.

(** A name as the system calls pass it: fourteen bytes, or fewer and a terminator. *)
Definition name_ok (name : list Z) : Prop := Forall is_byte name /\ bounded DIRSIZ name.

Lemma dir_size s V i : dir_ok s V i -> i_size i = 16 * Z.of_nat (dir_len i) /\ i_size i <= 71680.
Proof.
  intros [_ [_ _ Hsz _] Hm _]. unfold dir_len, MAXFILE, NDIRECT, NINDIRECT, BSIZE in *.
  pose proof (Z.div_pos (i_size i) 16 ltac:(lia) ltac:(lia)). pose proof (Z.div_mod (i_size i) 16 ltac:(lia)). lia.
Qed.

Lemma length_dir_entry V i k : length (dir_entry V i k) = 16%nat.
Proof. unfold dir_entry, file_bytes. by rewrite length_map, length_seq. Qed.

Lemma length_dir_entries V i : length (dir_entries V i) = dir_len i.
Proof. unfold dir_entries. by rewrite length_map, length_seq. Qed.

Lemma lookup_dir_entries V i k : (k < dir_len i)%nat -> dir_entries V i !! k = Some (dir_entry V i k).
Proof. intros Hk. unfold dir_entries. rewrite list_lookup_fmap, lookup_seq_lt by done. done. Qed.

Lemma drop_dir_entries V i k :
  (k < dir_len i)%nat -> drop k (dir_entries V i) = dir_entry V i k :: drop (S k) (dir_entries V i).
Proof. intros Hk. apply drop_S. by apply lookup_dir_entries. Qed.

(** [namecmp] on an entry. *)
Lemma namecmp_entry name s V i k :
  name_ok name -> dir_ok s V i -> (k < dir_len i)%nat ->
  exists c, namecmp name (de_name (dir_entry V i k)) = Some c /\
    (c =? 0) = bool_decide (cstr DIRSIZ name = cstr DIRSIZ (de_name (dir_entry V i k))).
Proof.
  intros [Hb Hn] Hd Hk. destruct (dir_size s V i Hd) as [Hsz _].
  assert (bounded DIRSIZ (de_name (dir_entry V i k))) as Hbd.
  { left. unfold de_name. rewrite length_drop, length_dir_entry. done. }
  assert (Forall is_byte (de_name (dir_entry V i k))) as Hbb.
  { apply Forall_drop, Forall_forall. intros x Hx. unfold dir_entry, file_bytes in Hx.
    apply list_elem_of_fmap_1 in Hx as (j & -> & Hj). apply elem_of_seq in Hj. apply Hd. lia. }
  destruct (strncmp_total name _ _ Hn Hbd) as [c Hc]. exists c. split; [done|].
  pose proof (strncmp_zero name _ _ Hb Hbb Hn Hbd) as Hz. rewrite Hc in Hz.
  destruct (Z.eqb_spec c 0) as [->|Hne]; symmetry.
  - apply bool_decide_eq_true_2. by apply Hz.
  - apply bool_decide_eq_false_2. intros E. apply Hz in E. congruence.
Qed.

Section dirs.
Context {drv : DiskDriver} (dv : devsw).

Lemma read_entry F s V dp i k :
  txf F s V [] -> k_inodes s !! dp = Some i -> dir_ok s V i -> free_map_ok s V -> (k < dir_len i)%nat ->
  runs (readi dv dp (16 * Z.of_nat k) sizeof_dirent) s (fun r s' =>
    r = (sizeof_dirent, dir_entry V i k) /\ txf F s' V [] /\ tframe s s').
Proof.
  intros Hx Hi Hd Hfm Hk. destruct (dir_size s V i Hd) as [Hsz Hmax].
  eapply runs_mono; [apply (readi_txf F dv s V dp i); [done..|apply Hd|done|lia|done]|].
  intros r s' (-> & Hx' & Hf). split; [|done]. unfold read_result, sizeof_dirent.
  rewrite u32_small by lia. rewrite !(proj2 (Z.ltb_ge _ _)) by lia. cbn [orb]. by rewrite Z.min_l by lia.
Qed.

Lemma dir_ok_frame s s' V i : fframe s s' -> dir_ok s V i -> dir_ok s' V i.
Proof. intros Hf []. split; try done. by eapply fframe_regular. Qed.

Definition at_entry (o : option (nat * Z)) : option (Z * Z) := (fun '(k, n) => (16 * Z.of_nat k, n)) <$> o.

Lemma dirlookup_loop_spec F V dp i name fuel s k :
  txf F s V [] -> k_inodes s !! dp = Some i -> dir_ok s V i -> free_map_ok s V -> name_ok name ->
  (k <= dir_len i)%nat -> (dir_len i - k < fuel)%nat ->
  runs (dirlookup_loop dv fuel dp name (16 * Z.of_nat k)) s (fun r s' =>
    r = at_entry (find_name name (drop k (dir_entries V i)) k) /\ txf F s' V [] /\ tframe s s').
Proof.
  revert s k. induction fuel as [|fuel IH]; intros s k Hx Hi Hd Hfm Hn Hk Hfuel; [lia|].
  destruct (dir_size s V i Hd) as [Hsz Hmax]. cbn [dirlookup_loop]. eapply runs_geti; [exact Hi|].
  destruct (Z.ltb_spec (16 * Z.of_nat k) (i_size i)) as [Hlt|Hge].
  2: { apply runs_ret. rewrite drop_ge by (rewrite length_dir_entries; lia). split_and!; [done|done|reflexivity]. }
  assert (k < dir_len i)%nat as Hk' by lia. rewrite (drop_dir_entries V i k Hk'). cbn [find_name].
  eapply runs_step; [by apply (read_entry F s V dp i k)|]. intros ? s1 (-> & Hx1 & Hf1). cbn [negb Z.eqb sizeof_dirent Pos.eqb].
  assert (runs (dirlookup_loop dv fuel dp name (16 * Z.of_nat k + sizeof_dirent)) s1 (fun r s' =>
    r = at_entry (find_name name (drop (S k) (dir_entries V i)) (S k)) /\ txf F s' V [] /\ tframe s s')) as Hnext.
  { replace (16 * Z.of_nat k + sizeof_dirent) with (16 * Z.of_nat (S k)) by (unfold sizeof_dirent; lia).
    eapply runs_mono; [apply (IH s1 (S k)); [done|by rewrite (tframe_inodes _ _ Hf1)| | |done|lia|lia]|].
    - eapply dir_ok_frame; [by apply tframe_fframe|done].
    - eapply fframe_free_map; [by apply tframe_fframe|done].
    - intros r s2 (Hr & Hx2 & Hf2). split_and!; [done|done|by etrans]. }
  unfold has_name, in_use. destruct (de_inum (dir_entry V i k) =? 0) eqn:En; cbn [negb andb]; [exact Hnext|].
  destruct (namecmp_entry name s V i k Hn Hd Hk') as (c & Hc & Hcz). rewrite Hc. apply runs_bind, runs_ret. rewrite <- Hcz.
  destruct (c =? 0); [|exact Hnext]. apply runs_ret. by split_and!.
Qed.

Lemma dirlink_loop_spec F V dp i fuel s k :
  txf F s V [] -> k_inodes s !! dp = Some i -> dir_ok s V i -> free_map_ok s V ->
  (k <= dir_len i)%nat -> (dir_len i - k < fuel)%nat ->
  runs (dirlink_loop dv fuel dp (16 * Z.of_nat k)) s (fun r s' =>
    r = 16 * Z.of_nat (find_unused (drop k (dir_entries V i)) k) /\ txf F s' V [] /\ tframe s s').
Proof.
  revert s k. induction fuel as [|fuel IH]; intros s k Hx Hi Hd Hfm Hk Hfuel; [lia|].
  destruct (dir_size s V i Hd) as [Hsz Hmax]. cbn [dirlink_loop]. eapply runs_geti; [exact Hi|].
  destruct (Z.ltb_spec (16 * Z.of_nat k) (i_size i)) as [Hlt|Hge].
  2: { apply runs_ret. rewrite drop_ge by (rewrite length_dir_entries; lia). split_and!; [done|done|reflexivity]. }
  assert (k < dir_len i)%nat as Hk' by lia. rewrite (drop_dir_entries V i k Hk'). cbn [find_unused].
  eapply runs_step; [by apply (read_entry F s V dp i k)|]. intros ? s1 (-> & Hx1 & Hf1). cbn [negb Z.eqb sizeof_dirent Pos.eqb].
  unfold in_use. destruct (de_inum (dir_entry V i k) =? 0) eqn:En; cbn [negb]; [apply runs_ret; by split_and!|].
  replace (16 * Z.of_nat k + sizeof_dirent) with (16 * Z.of_nat (S k)) by (unfold sizeof_dirent; lia).
  eapply runs_mono; [apply (IH s1 (S k)); [done|by rewrite (tframe_inodes _ _ Hf1)| | |lia|lia]|].
  - eapply dir_ok_frame; [by apply tframe_fframe|done].
  - eapply fframe_free_map; [by apply tframe_fframe|done].
  - intros r s2 (Hr & Hx2 & Hf2). split_and!; [done|done|by etrans].
Qed.

Lemma dir_fuel_enough s V i : dir_ok s V i -> (dir_len i < dir_fuel (i_size i))%nat.
Proof. intros Hd. destruct (dir_size s V i Hd) as [Hsz _]. unfold dir_fuel. rewrite Hsz. unfold sizeof_dirent.
  rewrite (Z.mul_comm 16), Z.div_mul by lia. lia. Qed.

(** [dirlookup] up to the [iget]. *)
Lemma dirlookup_split F s V dp i name Q :
  txf F s V [] -> k_inodes s !! dp = Some i -> dir_ok s V i -> free_map_ok s V -> name_ok name ->
  (forall s', txf F s' V [] -> tframe s s' ->
    runs (match at_entry (find_name name (dir_entries V i) 0) with
          | Some (off, inum) => ip <- iget (i_dev i) inum ;; ret (Some (ip, off))
          | None => ret None
          end) s' Q) ->
  runs (dirlookup dv dp name) s Q.
Proof.
  intros Hx Hi Hd Hfm Hn HQ. unfold dirlookup. eapply runs_geti; [exact Hi|]. rewrite (do_type _ _ _ Hd). cbn [negb Z.eqb T_DIR Pos.eqb].
  eapply runs_step; [apply (dirlookup_loop_spec F V dp i name (dir_fuel (i_size i)) s 0); [done..|lia|]|].
  - rewrite Nat.sub_0_r. by apply (dir_fuel_enough s V).
  - intros r s' (-> & Hx' & Hf). rewrite drop_0. by apply HQ.
Qed.

(** C39. [dirlookup] is the directory's lookup: it finds the first entry in use whose name agrees with [name] up to
    fourteen bytes, reports its offset and returns a reference to its inode; without such an entry it returns
    nothing and the inode cache is unchanged. No block changes. *)
Theorem dirlookup_finds F s V dp i name :
  txf F s V [] -> k_inodes s !! dp = Some i -> dir_ok s V i -> free_map_ok s V -> name_ok name -> LIcache ∉ k_held s ->
  match find_name name (dir_entries V i) 0 with
  | Some (k, inum) => forall j l, iget_result (i_dev i) inum (k_inodes s) = Some (j, l) ->
      runs (dirlookup dv dp name) s (fun r s' => r = Some (j, 16 * Z.of_nat k) /\ k_inodes s' = l /\ txf F s' V [])
  | None => runs (dirlookup dv dp name) s (fun r s' => r = None /\ k_inodes s' = k_inodes s /\ txf F s' V [])
  end.
Proof.
  intros Hx Hi Hd Hfm Hn Hl. destruct (find_name name (dir_entries V i) 0) as [[k inum]|] eqn:Ef.
  - intros j l Hr. apply (dirlookup_split F s V dp i); [done..|]. intros s' Hx' Hf. rewrite Ef. cbn [at_entry fmap option_fmap option_map].
    eapply runs_eq; [apply iget_ret; [by rewrite (tframe_held _ _ Hf)|by rewrite (tframe_inodes _ _ Hf)]|].
    apply runs_ret. split_and!; [done|done|]. by apply txf_set_inodes.
  - apply (dirlookup_split F s V dp i); [done..|]. intros s' Hx' Hf. rewrite Ef. apply runs_ret.
    split_and!; [done|by apply tframe_inodes|done].
Qed.
End dirs.

(** ** Linking *)

Lemma find_name_app name es1 es2 k :
  find_name name (es1 ++ es2) k =
  match find_name name es1 k with Some r => Some r | None => find_name name es2 (k + length es1) end.
Proof.
  revert k. induction es1 as [|de es1 IH]; intros k; cbn; [by rewrite Nat.add_0_r|].
  destruct (has_name name de); [done|]. by rewrite IH, <- Nat.add_succ_comm.
Qed.

Lemma find_unused_spec es k :
  (k <= find_unused es k <= k + length es)%nat /\
  forall de, es !! (find_unused es k - k)%nat = Some de -> in_use de = false.
Proof.
  revert k. induction es as [|de es IH]; intros k; cbn [find_unused length]; [split; [lia|done]|].
  destruct (in_use de) eqn:E.
  - destruct (IH (S k)) as [Hb Hu]. split; [lia|]. intros x.
    replace (find_unused es (S k) - k)%nat with (S (find_unused es (S k) - S k)) by lia. apply Hu.
  - split; [lia|]. rewrite Nat.sub_diag. by intros x [= <-].
Qed.

Definition put_entry (k : nat) (de : list Z) (es : list (list Z)) : list (list Z) := take k es ++ de :: drop (S k) es.

Lemma find_put name name' de es :
  let k := find_unused es 0 in
  in_use de = true -> cstr DIRSIZ (de_name de) = cstr DIRSIZ name -> find_name name es 0 = None ->
  find_name name' (put_entry k de es) 0 =
  if decide (cstr DIRSIZ name' = cstr DIRSIZ name) then Some (k, de_inum de) else find_name name' es 0.
Proof.
  intros k Hu Hc Hnone. destruct (find_unused_spec es 0) as [Hk Hkf]. rewrite Nat.sub_0_r in Hkf. fold k in Hk, Hkf.
  unfold put_entry. assert (length (take k es) = k) as Hlen by (rewrite length_take; lia).
  rewrite find_name_app, Hlen, Nat.add_0_l. cbn [find_name]. unfold has_name at 1. rewrite Hu, Hc. cbn [andb].
  case_decide as E.
  - assert (forall es k, find_name name' es k = find_name name es k) as Hsame.
    { induction es0 as [|d es0 IH]; intros j; cbn; [done|]. unfold has_name at 1. rewrite E. fold (has_name name d). by rewrite IH. }
    rewrite Hsame. rewrite <- (take_drop k es) in Hnone at 1. rewrite find_name_app in Hnone.
    destruct (find_name name (take k es) 0); [done|]. by rewrite bool_decide_eq_true_2.
  - rewrite bool_decide_eq_false_2 by done. replace (find_name name' es 0) with (find_name name' (take k es ++ drop k es) 0) by (by rewrite take_drop).
    rewrite find_name_app, Hlen, Nat.add_0_l.
    destruct (find_name name' (take k es) 0); [done|]. destruct (es !! k) as [d|] eqn:Ek.
    + rewrite (drop_S es d k Ek). cbn [find_name]. assert (has_name name' d = false) as -> by (unfold has_name; by rewrite (Hkf d eq_refl)). done.
    + apply lookup_ge_None in Ek. by rewrite !drop_ge by lia.
Qed.

(** The entry [dirlink] writes. *)
Definition new_entry (name : list Z) (inum : Z) : list Z := le16 (u16 inum) ++ padded DIRSIZ name.

Lemma make_dirent_eq name inum : name_ok name -> make_dirent (replicate 16 0) name inum = Some (new_entry name inum).
Proof.
  intros [_ Hn]. unfold make_dirent, strncpy. rewrite strncpy_from_eq; [|done|done]. cbn [mbind option_bind].
  assert (splice (de_name (replicate 16 0)) 0 (padded DIRSIZ name) = padded DIRSIZ name) as ->; [|done].
  unfold splice. rewrite length_padded. cbn [take app Nat.add]. change (drop DIRSIZ (de_name (replicate 16 0))) with (@nil Z). apply app_nil_r.
Qed.

Lemma new_entry_parts name inum :
  name_ok name -> 0 < inum < 65536 ->
  length (new_entry name inum) = 16%nat /\ de_inum (new_entry name inum) = inum /\
  cstr DIRSIZ (de_name (new_entry name inum)) = cstr DIRSIZ name /\ Forall is_byte (new_entry name inum).
Proof.
  intros [Hb Hn] Hi. unfold new_entry. rewrite u16_small by lia. split_and!.
  - rewrite length_app, length_padded. done.
  - unfold de_inum, get16, le16. cbn. rewrite (Z.mod_small (inum / 256)) by (split; [apply Z.div_pos; lia|apply Z.div_lt_upper_bound; lia]).
    pose proof (Z.div_mod inum 256 ltac:(lia)). lia.
  - change (de_name (le16 inum ++ padded DIRSIZ name)) with (padded DIRSIZ name).
    rewrite <- (app_nil_r (padded _ _)). apply cstr_padded.
  - apply Forall_app. split; [|by apply padded_bytes]. unfold is_byte. constructor; [|constructor; [|done]]; apply Z.mod_pos_bound; lia.
Qed.

Section written.
Context (s : kstate) (V V' : Z -> list Z) (i i' : inode) (k : nat) (de : list Z).
Context (Hd : dir_ok s V i) (Hk : (k <= dir_len i)%nat) (Hlen : length de = 16%nat) (Hb : Forall is_byte de).
Context (Hw : wrote s V i V' i' (16 * Z.of_nat k) de).

Lemma written_len : i_size i' = 16 * Z.of_nat (dir_len i') /\ dir_len i' = Nat.max (dir_len i) (S k).
Proof using Hd Hk Hlen Hw.
  destruct (dir_size s V i Hd) as [Hsz _]. pose proof (wt_size _ _ _ _ _ _ _ Hw) as Hsz'. rewrite Hlen in Hsz'.
  assert (i_size i' = Z.of_nat (Nat.max (dir_len i) (S k)) * 16) as E by lia.
  assert (dir_len i' = Nat.max (dir_len i) (S k)) as El by (unfold dir_len at 1; rewrite E, Z.div_mul by lia; lia). lia.
Qed.

Lemma written_byte x :
  0 <= x < i_size i' ->
  Some (fbyte V' i' x) = if decide (16 * Z.of_nat k <= x < 16 * Z.of_nat k + 16) then de !! Z.to_nat (x - 16 * Z.of_nat k)
                         else Some (fbyte V i x).
Proof using Hd Hk Hlen Hw.
  intros Hx. pose proof (wt_size _ _ _ _ _ _ _ Hw) as Hsz'. destruct (dir_size s V i Hd) as [Hsz _]. rewrite Hlen in Hsz'.
  case_decide as E.
  - apply (wt_in _ _ _ _ _ _ _ Hw). rewrite Hlen. lia.
  - f_equal. apply (wt_out _ _ _ _ _ _ _ Hw); rewrite ?Hlen; lia.
Qed.

Lemma written_entry j :
  (j < dir_len i')%nat -> dir_entry V' i' j = if decide (j = k) then de else dir_entry V i j.
Proof using Hd Hk Hlen Hw.
  intros Hj. destruct written_len as [Hsz _]. apply list_eq. intros n. destruct (decide (n < 16)%nat) as [Hn|Hn].
  - assert (dir_entry V' i' j !! n = Some (fbyte V' i' (16 * Z.of_nat j + Z.of_nat n))) as ->.
    { unfold dir_entry, file_bytes. rewrite list_lookup_fmap, lookup_seq_lt by done. done. }
    rewrite written_byte by lia. case_decide as E.
    + assert (j = k) as -> by lia. rewrite decide_True by done. f_equal. lia.
    + rewrite decide_False by lia. unfold dir_entry, file_bytes. rewrite list_lookup_fmap, lookup_seq_lt by done. done.
  - rewrite !lookup_ge_None_2; [done| |by rewrite length_dir_entry; lia].
    case_decide; [lia|]. rewrite length_dir_entry. lia.
Qed.

Lemma written_entries : dir_entries V' i' = put_entry k de (dir_entries V i).
Proof using Hd Hk Hlen Hw.
  destruct written_len as [_ Hl]. pose proof (length_dir_entries V i) as Hle.
  assert (length (take k (dir_entries V i)) = k) as Ht by (rewrite length_take; lia).
  unfold put_entry. apply list_eq. intros j. destruct (decide (j < dir_len i')%nat) as [Hj|Hj].
  - rewrite lookup_dir_entries, written_entry by done. destruct (Nat.lt_trichotomy j k) as [Hlt|[->|Hgt]].
    + rewrite decide_False by lia. rewrite lookup_app_l, lookup_take_lt by lia. symmetry. apply lookup_dir_entries. lia.
    + rewrite decide_True by done. rewrite lookup_app_r by lia. by rewrite Ht, Nat.sub_diag.
    + rewrite decide_False by lia. rewrite lookup_app_r by lia. rewrite Ht. replace (j - k)%nat with (S (j - S k)) by lia.
      change (Some (dir_entry V i j) = drop (S k) (dir_entries V i) !! (j - S k)%nat).
      rewrite lookup_drop. replace (S k + (j - S k))%nat with j by lia. symmetry. apply lookup_dir_entries. lia.
  - rewrite !lookup_ge_None_2; [done| |rewrite length_dir_entries; lia].
    rewrite length_app, Ht. cbn [length]. rewrite length_drop. lia.
Qed.

Lemma written_dir : dir_ok s V' i'.
Proof using Hd Hk Hlen Hb Hw.
  destruct written_len as [Hsz _]. split.
  - rewrite (wt_same _ _ _ _ _ _ _ Hw). apply Hd.
  - apply Hw.
  - rewrite Hsz, Z.mul_comm. by apply Z.mod_mul.
  - intros x Hx. pose proof (written_byte x Hx) as E. case_decide as Hin.
    + symmetry in E. by apply (Forall_lookup_1 _ _ _ _ Hb) in E.
    + injection E as ->. apply Hd. destruct (dir_size s V i Hd) as [Hs _]. pose proof (wt_size _ _ _ _ _ _ _ Hw) as Hs'.
      rewrite Hlen in Hs'. lia.
Qed.
End written.

Lemma write_pre_frame F s s' V ip i off src V1 i1 fp :
  tframe s s' -> txf F s' V [] -> write_pre F s V ip i off src V1 i1 fp -> write_pre F s' V ip i off src V1 i1 fp.
Proof.
  intros Hf Hx []. pose proof (tframe_fframe _ _ Hf) as Hff. split; try done.
  - by eapply tframe_trans.
  - by rewrite (tframe_inodes _ _ Hf).
  - by eapply fframe_regular.
  - by eapply fframe_free_map.
  - destruct wp_disk as [Hd ?]. split; [|done]. by eapply fframe_on_disk.
Qed.

(** C40. [dirlink] of a name the directory does not have, inside a transaction with room for it, puts the name and the
    inode number in the first unused entry, or after the last, and changes no other entry; the result is a
    directory again, in which the name is found with its inode and every other name is found as before. *)
Theorem dirlink_adds {drv : DiskDriver} dv F s V dp i name inum V1 i1 fp :
  let k := find_unused (dir_entries V i) 0 in
  write_pre F s V dp i (16 * Z.of_nat k) (new_entry name inum) V1 i1 fp ->
  dir_ok s V i -> name_ok name -> 0 < inum < 65536 -> find_name name (dir_entries V i) 0 = None ->
  runs (dirlink dv dp name inum) s (fun r s' => r = 0 /\ exists V' i',
    txf F s' V' [] /\ k_inodes s' = <[dp := i']> (k_inodes s) /\ dir_ok s' V' i' /\
    dir_entries V' i' = put_entry k (new_entry name inum) (dir_entries V i) /\
    forall name', find_name name' (dir_entries V' i') 0 =
      if decide (cstr DIRSIZ name' = cstr DIRSIZ name) then Some (k, inum) else find_name name' (dir_entries V i) 0).
Proof.
  intros k Hpre Hd Hn Hi Hnone. destruct (new_entry_parts name inum Hn Hi) as (Hl & Hin & Hc & Hb).
  pose proof Hpre as [Hx _ Hent _ Hfm _ _ Hmax _ _]. destruct (find_unused_spec (dir_entries V i) 0) as [[_ Hk] _].
  fold k in Hk. rewrite length_dir_entries, Nat.add_0_l in Hk. rewrite Hl in Hmax. unfold dirlink.
  eapply runs_step with (P := fun r s' => r = None /\ txf F s' V [] /\ tframe s s').
  { apply (dirlookup_split dv F s V dp i); [done..|]. intros s1 Hx1 Hf1. rewrite Hnone. by apply runs_ret. }
  intros ? s1 (-> & Hx1 & Hf1). pose proof (write_pre_frame _ _ _ _ _ _ _ _ _ _ _ Hf1 Hx1 Hpre) as Hpre1.
  eapply runs_geti; [apply Hpre1|].
  eapply runs_step; [apply (dirlink_loop_spec dv F V dp i (dir_fuel (i_size i)) s1 0); [done|apply Hpre1| |apply Hpre1|lia|]|].
  { eapply dir_ok_frame; [by apply tframe_fframe|done]. }
  { rewrite Nat.sub_0_r. by apply (dir_fuel_enough s V). }
  intros ? s2 (-> & Hx2 & Hf2). rewrite drop_0. fold k. rewrite make_dirent_eq by done. apply runs_bind, runs_ret.
  pose proof (write_pre_frame _ _ _ _ _ _ _ _ _ _ _ Hf2 Hx2 Hpre1) as Hpre2.
  rewrite u32_small by (unfold MAXFILE, NDIRECT, NINDIRECT, BSIZE in Hmax; lia).
  change sizeof_dirent with (Z.of_nat 16). rewrite <- Hl at 1.
  eapply runs_step; [by eapply writei_txf|]. intros ? s3 (-> & V' & i' & Hx3 & Hf3 & Hi3 & Hpost). rewrite Hl, Z.eqb_refl. cbn [negb].
  apply runs_ret. split; [done|]. exists V', i'. destruct Hpost as [Hwr _ _ _ _ _].
  assert (tframe s s2) as Hf02 by (etrans; [exact Hf1|exact Hf2]). assert (dir_ok s2 V i) as Hd2 by (eapply dir_ok_frame; [by apply tframe_fframe|done]).
  pose proof (written_entries s2 V V' i i' k _ Hd2 Hk Hl Hwr) as He. rewrite He. split_and!; [done| | |done|].
  - by rewrite Hi3, (tframe_inodes _ _ Hf2), (tframe_inodes _ _ Hf1).
  - eapply dir_ok_frame; [done|]. by apply (written_dir s2 V V' i i' k (new_entry name inum)).
  - intros name'. assert (in_use (new_entry name inum) = true) as Hu.
    { unfold in_use. rewrite Hin. apply negb_true_iff, Z.eqb_neq. lia. }
    etrans; [by apply (find_put name)|]. by rewrite Hin.
Qed.

(** The root directory of the demonstration file system: [.], [..] and [a]; linking [b]. *)
Definition demo_d : kstate := set_inodes (demo_dir_inode :: replicate 49 zero_inode) demo_tx.

Lemma demo_d_txf F : (size F <= 7)%nat -> txf F demo_d demo_V [].
Proof. intros HF. by apply txf_set_inodes, demo_txf. Qed.

Lemma demo_d_frame : fframe demo_i demo_d.
Proof. apply (fframe_set_inodes (demo_dir_inode :: replicate 49 zero_inode) demo_i). Qed.

Lemma demo_d_dir : dir_ok demo_d demo_V demo_dir_inode.
Proof.
  assert (forall x, 0 <= x < 48 -> baddr demo_V demo_dir_inode (x / BSIZE) = 5) as Hb.
  { intros x Hx. unfold BSIZE. rewrite Z.div_small by lia. unfold baddr. by rewrite (one_block_slot _ _ 5). }
  split; [done| |done|].
  - eapply fframe_regular; [apply demo_d_frame|].
    split; [done| |unfold MAXFILE, NDIRECT, NINDIRECT, BSIZE; simpl; lia|].
    + apply (one_block_file _ _ _ 5); [done..|]. apply demo_own. lia.
    + intros x Hx. by rewrite Hb.
  - intros x Hx. unfold fbyte. rewrite Hb by done. change (demo_V 5) with demo_dir.
    assert (Forall is_byte demo_dir) as Hf by (apply (bool_decide_unpack _); by vm_compute).
    unfold byte_at. destruct (demo_dir !! _) as [c|] eqn:E; [|done]. by eapply Forall_lookup_1.
Qed.

Definition demo_name : list Z := [98; 0].
Definition demo_link : option (((Z -> list Z) * inode * Z) * list Z) :=
  r_write (copy_fuel 16) demo_V demo_dir_inode (new_entry demo_name 2) 48.
Definition link_F : gset Z := {[2; 5]}.

Lemma demo_name_ok name : Forall is_byte name -> 0 ∈ name -> name_ok name.
Proof. intros Hb Hn. split; [done|]. by right. Qed.

Lemma demo_entries : dir_entries demo_V demo_dir_inode = map (fun '(n, l) => new_entry l n) [(1, [46; 0]); (1, [46; 46; 0]); (2, [97; 0])].
Proof. vm_compute. reflexivity. Qed.

Lemma demo_link_run : exists V1 i1, demo_link = Some ((V1, i1, 64), [5]).
Proof.
  assert ((fun r => (r.1.2, r.2)) <$> demo_link = Some (64, [5])) as E by (vm_compute; reflexivity).
  destruct demo_link as [[[[V1 i1] o] fp]|]; [|done]. simpl in E. injection E as -> ->. by exists V1, i1.
Qed.

Lemma demo_link_pre V1 i1 :
  demo_link = Some ((V1, i1, 64), [5]) ->
  write_pre link_F demo_d demo_V 0 demo_dir_inode 48 (new_entry demo_name 2) V1 i1 [5].
Proof.
  intros Hrun. split; [| | | | | | | |exact Hrun|]; clear Hrun.
  - apply demo_d_txf. vm_compute. lia.
  - exact demo_trans.
  - reflexivity.
  - apply demo_d_dir.
  - eapply fframe_free_map; [apply demo_d_frame|apply demo_i_free_map].
  - split; [|rewrite demo_sb_of; simpl; lia]. split_and!; [reflexivity|simpl; lia|].
    unfold home. change (l_start (k_log demo_d)) with 20. change (iblock (i_inum demo_dir_inode)) with 2. lia.
  - change (i_size demo_dir_inode) with 48. lia.
  - change (length (new_entry demo_name 2)) with 16%nat. unfold MAXFILE, NDIRECT, NINDIRECT, BSIZE. lia.
  - change (iblock (i_inum demo_dir_inode)) with 2. unfold link_F. intros x.
    rewrite !elem_of_cons, elem_of_nil, !elem_of_union, !elem_of_singleton. lia.
Qed.

Lemma dirlink_adds_witness :
  runs (dirlink (drv := memide) no_dev 0 demo_name 2) demo_d (fun r s' => r = 0 /\ exists V' i',
    k_inodes s' !! 0%nat = Some i' /\ find_name demo_name (dir_entries V' i') 0 = Some (3%nat, 2)).
Proof.
  destruct demo_link_run as (V1 & i1 & Hrun). eapply runs_mono.
  - apply (dirlink_adds (drv := memide) no_dev link_F demo_d demo_V 0 demo_dir_inode demo_name 2 V1 i1 [5]).
    + rewrite demo_entries. exact (demo_link_pre V1 i1 Hrun).
    + exact demo_d_dir.
    + apply demo_name_ok; [by apply (bool_decide_unpack _)|]. by right; left.
    + lia.
    + rewrite demo_entries. reflexivity.
  - intros r s' (-> & V' & i' & _ & Hi & _ & _ & Hfind). split; [done|]. exists V', i'. rewrite Hi, Hfind, demo_entries.
    split; [reflexivity|]. by rewrite decide_True.
Defined.

Lemma dirlookup_finds_witness :
  runs (dirlookup (drv := memide) no_dev 0 [97; 0]) demo_d (fun r s' => r = Some (1%nat, 32)).
Proof.
  pose proof (dirlookup_finds (drv := memide) no_dev ∅ demo_d demo_V 0 demo_dir_inode [97; 0]) as H.
  rewrite demo_entries in H. cbv zeta in H. eapply runs_mono.
  - apply H; clear H.
    + apply demo_d_txf. vm_compute. lia.
    + reflexivity.
    + exact demo_d_dir.
    + eapply fframe_free_map; [apply demo_d_frame|apply demo_i_free_map].
    + apply demo_name_ok; [by apply (bool_decide_unpack _)|]. by right; left.
    + apply not_elem_of_nil.
    + reflexivity.
  - intros r s' (-> & _). reflexivity.
Defined.
