(* ===== verification/FsPath.v ===== *)
(** * Path names (kernel/fs.c: skipelem, namex)

    A path is the list of its components; walking it from an inode looks each one up in the directory reached so far.
    [cache_rep] abstracts the inode cache to the number of references to each inode, so that the walk is seen to
    keep one reference at a time and to leave exactly one, to the inode it returns. *)

From S2P Require Import Prelude Types Monad Sched Bio BioSpec KString Log LogSpec TxSpec Fs FsDir FsBlocks.
From S2P Require Import Demo FsInode FsInodeOps FsFile FsFileOps FsFileProps FsDirProps.

(** ** Components of a path *)

(** The pieces between slashes, up to the terminator. *)
Fixpoint pieces (p : list Z) : list Z * list (list Z) :=
  match p with
  | [] => ([], [])
  | x :: p =>
      let q := pieces p in
      if x =? 0 then ([], [])
      else if x =? SLASH then ([], q.1 :: q.2)
      else (x :: q.1, q.2)
  end.

Definition nonempty (l : list Z) : bool := match l with [] => false | _ => true end.
Definition path_elems (p : list Z) : list (list Z) :=
  map (take DIRSIZ) (List.filter nonempty ((pieces p).1 :: (pieces p).2)).

Lemma skip_slashes_elems p : path_elems (skip_slashes p) = path_elems p.
Proof.
  induction p as [|x p IH]; [done|]. cbn [skip_slashes]. destruct (x =? SLASH) eqn:E; [|done].
  rewrite IH. unfold path_elems. cbn [pieces]. rewrite E. apply Z.eqb_eq in E as ->. done.
Qed.

Lemma skip_slashes_head p : byte_at (skip_slashes p) 0 <> SLASH.
Proof.
  induction p as [|x p IH]; [done|]. cbn [skip_slashes]. destruct (x =? SLASH) eqn:E; [done|]. by apply Z.eqb_neq in E.
Qed.

Lemma skip_slashes_length p : (length (skip_slashes p) <= length p)%nat.
Proof. induction p as [|x p IH]; [done|]. cbn. destruct (x =? SLASH); cbn; lia. Qed.

(** The first piece is what [elem_len] measures. *)
Lemma pieces_elem p : (pieces p).1 = take (elem_len p) p /\ (pieces p).2 =
  match drop (elem_len p) p with x :: q => if x =? SLASH then (pieces q).1 :: (pieces q).2 else [] | [] => [] end.
Proof.
  induction p as [|x p IH]; [done|]. cbn [pieces elem_len]. destruct (x =? 0) eqn:E0; cbn [orb].
  - rewrite orb_true_r. cbn. apply Z.eqb_eq in E0 as ->. done.
  - destruct (x =? SLASH) eqn:E1; cbn [orb take drop fst snd]; [by rewrite E1|]. destruct IH as [-> ->]. done.
Qed.

Lemma elem_no_nul p : 0 ∉ take (elem_len p) p.
Proof.
  induction p as [|x p IH]; cbn [elem_len take]; [apply not_elem_of_nil|]. destruct (x =? SLASH); cbn [orb take]; [apply not_elem_of_nil|].
  destruct (Z.eqb_spec x 0); cbn [take]; [apply not_elem_of_nil|]. apply not_elem_of_cons. split; [congruence|done].
Qed.

Lemma cstr_stop n l rest : 0 ∉ l -> (length l < n)%nat -> cstr n (l ++ 0 :: rest) = l.
Proof.
  revert n. induction l as [|x l IH]; intros n Hl Hn; (destruct n; [cbn in Hn; lia|]); [done|]. cbn [app cstr].
  apply not_elem_of_cons in Hl as [Hx Hl]. destruct (Z.eqb_spec x 0); [congruence|]. cbn in Hn. by rewrite IH by (done || lia).
Qed.

Lemma cstr_full n l : 0 ∉ l -> length l = n -> cstr n l = l.
Proof.
  revert n. induction l as [|x l IH]; intros n Hl Hn; subst n; [done|]. cbn [cstr length].
  apply not_elem_of_cons in Hl as [Hx Hl]. destruct (Z.eqb_spec x 0); [congruence|]. by rewrite IH.
Qed.

Lemma cstr_idem n l : cstr n (cstr n l) = cstr n l.
Proof.
  revert l. induction n as [|n IH]; intros [|x l]; try done. cbn [cstr]. destruct (x =? 0) eqn:E; [done|]. cbn [cstr]. by rewrite E, IH.
Qed.

(** The name buffer holds a component of the path. *)
Definition holds_elem (name e : list Z) : Prop := length name = DIRSIZ /\ name_ok name /\ cstr DIRSIZ name = e.

Lemma path_elems_cons p :
  byte_at p 0 <> SLASH -> byte_at p 0 <> 0 ->
  path_elems p = take DIRSIZ (take (elem_len p) p) :: path_elems (skip_slashes (drop (elem_len p) p)) /\ (0 < elem_len p)%nat.
Proof.
  intros H1 H2. rewrite skip_slashes_elems. destruct p as [|x p]; [done|]. unfold byte_at in H1, H2. cbn in H1, H2.
  unfold path_elems at 1. destruct (pieces_elem (x :: p)) as [-> ->].
  assert (elem_len (x :: p) = S (elem_len p)) as E by (cbn [elem_len]; by rewrite (proj2 (Z.eqb_neq _ _) H1), (proj2 (Z.eqb_neq _ _) H2)).
  rewrite E. split; [|lia]. cbn [take drop List.filter nonempty map]. f_equal.
  destruct (drop (elem_len p) p) as [|y q] eqn:Ed; [done|]. unfold path_elems. cbn [pieces].
  destruct (y =? SLASH) eqn:Ey; [apply Z.eqb_eq in Ey as ->; done|].
  assert (y = 0) as ->; [|done].
  clear -Ed Ey. revert y q Ed Ey. induction p as [|z p IH]; intros y q Ed Ey; [done|]. cbn [elem_len] in Ed.
  destruct ((z =? SLASH) || (z =? 0)) eqn:Ez; cbn [drop] in Ed; [|by eapply IH]. injection Ed as -> ->.
  rewrite Ey in Ez. by apply Z.eqb_eq.
Qed.

Lemma path_elems_nil p : byte_at p 0 <> SLASH -> (byte_at p 0 =? 0) = true <-> path_elems p = [].
Proof.
  intros H1. rewrite Z.eqb_eq. split; intros H2.
  - destruct p as [|x p]; [done|]. unfold byte_at in H2. cbn in H2. by subst x.
  - destruct (decide (byte_at p 0 = 0)) as [|H0]; [done|]. destruct (path_elems_cons p H1 H0) as [E _]. congruence.
Qed.

Lemma elem_len_le p : (elem_len p <= length p)%nat.
Proof. induction p as [|x p IH]; [done|]. cbn. destruct (_ || _); lia. Qed.

Lemma skip_slashes_bytes p : Forall is_byte p -> Forall is_byte (skip_slashes p).
Proof. induction 1 as [|x p Hx Hp IH]; [done|]. cbn. destruct (x =? SLASH); [done|by constructor]. Qed.

(** What [skipelem] stores in the name buffer: fourteen bytes, or fewer and a terminator. *)
Definition stored_name (p name : list Z) : list Z :=
  if (DIRSIZ <=? elem_len p)%nat then splice name 0 (take DIRSIZ p) else splice name 0 (take (elem_len p) p ++ [0]).

Lemma stored_name_holds p name :
  Forall is_byte p -> Forall is_byte name -> length name = DIRSIZ ->
  holds_elem (stored_name p name) (take DIRSIZ (take (elem_len p) p)).
Proof.
  intros Hp Hn Hl. pose proof (elem_no_nul p) as Hz. pose proof (elem_len_le p) as Hlen. unfold stored_name.
  destruct (Nat.leb_spec DIRSIZ (elem_len p)) as [H|H].
  - rewrite take_take, Nat.min_l by done. unfold splice. rewrite take_0, app_nil_l.
    assert (length (take DIRSIZ p) = DIRSIZ) as E by (rewrite length_take; lia).
    rewrite E, drop_ge, app_nil_r by lia. split; [done|]. split.
    + split; [by apply Forall_take|]. left. lia.
    + apply cstr_full; [|done]. intros Hin. apply Hz. rewrite <- (Nat.min_l DIRSIZ (elem_len p)), <- take_take in Hin by done.
      by eapply elem_of_take_1.
  - assert (length (take (elem_len p) p) = elem_len p) as E by (rewrite length_take; lia).
    rewrite (take_ge (take _ _)) by lia. unfold splice. rewrite take_0, app_nil_l, <- app_assoc. cbn [app].
    split; [rewrite length_app; cbn [length]; rewrite length_drop, length_app, E; cbn [length]; lia|]. split.
    + split; [|right; set_solver]. apply Forall_app. split; [by apply Forall_take|]. constructor; [done|by apply Forall_drop].
    + apply cstr_stop; [done|lia].
Qed.

(** [skipelem] takes the first component off the path. *)
Lemma skipelem_elems path name :
  Forall is_byte path -> Forall is_byte name -> length name = DIRSIZ ->
  match skipelem path name with
  | None => path_elems path = []
  | Some (path', name') => exists e, path_elems path = e :: path_elems path' /\ holds_elem name' e /\ Forall is_byte path' /\
      (length path' < length path)%nat /\ ((byte_at path' 0 =? 0) = true <-> path_elems path' = [])
  end.
Proof.
  intros Hp Hn Hl. unfold skipelem. rewrite <- (skip_slashes_elems path). pose proof (skip_slashes_head path) as Hh.
  pose proof (skip_slashes_length path) as Hlen. apply skip_slashes_bytes in Hp. set (p := skip_slashes path) in *.
  destruct (byte_at p 0 =? 0) eqn:E0; [by apply path_elems_nil|]. fold (stored_name p name).
  apply Z.eqb_neq in E0. destruct (path_elems_cons p Hh E0) as [E Hpos]. eexists. split; [exact E|].
  split; [by apply stored_name_holds|]. split; [by apply skip_slashes_bytes, Forall_drop|]. split.
  - pose proof (skip_slashes_length (drop (elem_len p) p)) as Hd. pose proof (elem_len_le p). rewrite length_drop in Hd. lia.
  - apply path_elems_nil, skip_slashes_head.
Qed.

(** ** The inode cache as reference counts *)

(** A cache entry in use: [busy] when it is locked, and a copy of the inode on disk once it is valid. *)
Record entry_ok (V : Z -> list Z) (busy : bool) (i : inode) : Prop := {
  en_dev : i_dev i = ROOTDEV;
  en_busy : has (i_flags i) I_BUSY = busy;
  en_valid : has (i_flags i) I_VALID = true -> dinode_of i = disk_inode V (i_inum i)
}.

Definition open_at (l : list inode) (k : nat) (i : inode) : Prop := l !! k = Some i /\ 0 < i_ref i.

(** [r n] references to inode [n], and [lk] the entry that is locked. *)
Record cache_rep (V : Z -> list Z) (l : list inode) (r : Z -> Z) (lk : option nat) : Prop := {
  cr_ok : icache_ok l;
  cr_entry : forall k i, open_at l k i -> entry_ok V (bool_decide (lk = Some k)) i;
  cr_count : forall k i, open_at l k i -> i_ref i = r (i_inum i);
  cr_open : forall n, r n <> 0 -> exists k i, open_at l k i /\ i_inum i = n;
  cr_lock : forall k, lk = Some k -> exists i, open_at l k i
}.

Definition bump (n d : Z) (r : Z -> Z) : Z -> Z := fun m => if decide (m = n) then r m + d else r m.

(** All open inodes are among so many that [k] entries stay free. *)
Definition room (r : Z -> Z) (k : nat) : Prop := exists U : list Z, (forall n, r n <> 0 -> n ∈ U) /\ (length U + k <= NINODE)%nat.

Lemma room_bump r n d k : room r (S k) -> room (bump n d r) k.
Proof.
  intros (U & HU & Hk). exists (n :: U). split; [|cbn; lia]. intros m Hm. unfold bump in Hm. case_decide; [subst; left|].
  right. by apply HU.
Qed.

Section cache.
Context {V : Z -> list Z} {l : list inode} {r : Z -> Z} {lk : option nat} (Hrep : cache_rep V l r lk).

Lemma open_unique k i j x : open_at l k i -> open_at l j x -> i_inum x = i_inum i -> j = k.
Proof using Hrep.
  intros Hi Hx E. pose proof (cr_entry _ _ _ _ Hrep _ _ Hi) as Ei. pose proof (cr_entry _ _ _ _ Hrep _ _ Hx) as Ex.
  destruct Hi as [Hi Hri], Hx as [Hx Hrx]. eapply (ic_uniq _ (cr_ok _ _ _ _ Hrep)); try done.
  by rewrite (en_dev _ _ _ Ei), (en_dev _ _ _ Ex).
Qed.

Lemma open_find k i : open_at l k i -> findi (imatch ROOTDEV (i_inum i)) l = Some k.
Proof using Hrep.
  intros Hi. pose proof (en_dev _ _ _ (cr_entry _ _ _ _ Hrep _ _ Hi)) as Hd.
  destruct (findi (imatch ROOTDEV (i_inum i)) l) as [j|] eqn:Ef.
  - apply findi_Some in Ef as [(x & Hx & (Hr & _ & E)%imatch_true) _]. f_equal. by apply (open_unique k i j x Hi).
  - rewrite findi_None in Ef. destruct Hi as [Hi Hr]. specialize (Ef _ _ Hi).
    assert (imatch ROOTDEV (i_inum i) i = true) by by apply imatch_true. congruence.
Qed.

Lemma free_entry : room r 1 -> exists j, findi ifree l = Some j.
Proof using Hrep.
  intros (U & HU & Hk). destruct (findi ifree l) as [j|] eqn:Ef; [by exists j|exfalso]. rewrite findi_None in Ef.
  assert (forall k i, l !! k = Some i -> open_at l k i) as Hall.
  { intros k i Hi. split; [done|]. specialize (Ef _ _ Hi). apply Z.eqb_neq in Ef. pose proof (ic_ref _ (cr_ok _ _ _ _ Hrep) _ _ Hi). lia. }
  assert (length (map i_inum l) <= length U)%nat as Hle.
  { apply submseteq_length, NoDup_submseteq.
    - apply NoDup_alt. intros j k n Hj Hj2. change (map i_inum l) with (i_inum <$> l) in *.
      apply list_lookup_fmap_Some in Hj as (x & -> & Hx), Hj2 as (i & E & Hi).
      by apply (open_unique k i j x); [apply Hall..|].
    - intros n Hn. apply list_elem_of_fmap_1 in Hn as (i & -> & Hi). apply list_elem_of_lookup_1 in Hi as [k Hi].
      apply HU. rewrite <- (cr_count _ _ _ _ Hrep _ _ (Hall _ _ Hi)). destruct (Hall _ _ Hi). lia. }
  rewrite length_map, (ic_len _ (cr_ok _ _ _ _ Hrep)) in Hle. lia.
Qed.

(** Changing an open entry. *)
Lemma cache_set k i i' r' lk' :
  open_at l k i -> i_inum i' = i_inum i -> 0 <= i_ref i' -> entry_ok V (bool_decide (lk' = Some k)) i' ->
  (forall j, j <> k -> bool_decide (lk' = Some j) = bool_decide (lk = Some j)) ->
  (lk' = Some k -> 0 < i_ref i') ->
  (forall n, r' n = if decide (n = i_inum i) then i_ref i' else r n) ->
  cache_rep V (<[k := i']> l) r' lk'.
Proof using Hrep.
  intros Hi En Hr He Hlk Hlk' Hr'. pose proof (lookup_lt_Some _ _ _ (proj1 Hi)) as Hlt.
  assert (forall j x, open_at (<[k := i']> l) j x -> (j = k /\ x = i') \/ (j <> k /\ open_at l j x)) as Hinv.
  { intros j x [Hj Hx]. apply list_lookup_insert_Some in Hj as [(-> & -> & _)|[Hne Hj]]; [by left|right]. split; [congruence|done]. }
  assert (forall j x, j <> k -> open_at l j x -> i_inum x <> i_inum i) as Hother.
  { intros j x Hne Hx E. apply Hne. by eapply open_unique. }
  split.
  - eapply icache_insert; [apply Hrep|apply Hi|done|]. intros _ j x Hne Hx Hrx _ E. apply (Hother j x); [done|done|congruence].
  - intros j x [[-> ->]|[Hne Hx]]%Hinv; [done|]. rewrite Hlk by done. by apply Hrep.
  - intros j x [[-> ->]|[Hne Hx]]%Hinv; rewrite Hr'.
    + by rewrite decide_True.
    + rewrite decide_False by by eapply Hother. by apply (cr_count _ _ _ _ Hrep j).
  - intros n Hn. rewrite Hr' in Hn. case_decide as E.
    + exists k, i'. split; [|congruence]. split; [by apply list_lookup_insert_eq|lia].
    + destruct (cr_open _ _ _ _ Hrep n Hn) as (j & x & Hx & <-). exists j, x. split; [|done]. split; [|apply Hx].
      rewrite list_lookup_insert_ne; [apply Hx|]. intros ->. destruct Hx as [Hx _], Hi as [Hi _]. congruence.
  - intros j Hj. destruct (decide (j = k)) as [->|Hne].
    + exists i'. split; [by apply list_lookup_insert_eq|auto].
    + specialize (Hlk j Hne). rewrite Hj, bool_decide_eq_true_2 in Hlk by done. symmetry in Hlk. apply bool_decide_eq_true in Hlk.
      destruct (cr_lock _ _ _ _ Hrep j Hlk) as [x [Hx Hrx]]. exists x. split; [|done]. by rewrite list_lookup_insert_ne.
Qed.

(** Taking a free entry. *)
Lemma cache_fresh j x n :
  findi (imatch ROOTDEV n) l = None -> l !! j = Some x -> i_ref x = 0 ->
  cache_rep V (<[j := fresh ROOTDEV n x]> l) (bump n 1 r) lk.
Proof using Hrep.
  intros Hno Hj Hz. pose proof (lookup_lt_Some _ _ _ Hj) as Hlt. rewrite findi_None in Hno.
  assert (forall k i, open_at l k i -> i_inum i <> n /\ k <> j) as Hother.
  { intros k i Hi. split.
    - intros E. pose proof (cr_entry _ _ _ _ Hrep _ _ Hi) as Ei. destruct Hi as [Hi Hr]. specialize (Hno _ _ Hi).
      assert (imatch ROOTDEV n i = true) by (apply imatch_true; by rewrite (en_dev _ _ _ Ei)). congruence.
    - intros ->. destruct Hi as [Hi Hr]. assert (i = x) as -> by congruence. lia. }
  assert (r n = 0) as Hrn.
  { destruct (decide (r n = 0)) as [|Hn]; [done|]. destruct (cr_open _ _ _ _ Hrep n Hn) as (k & i & Hi & E). by destruct (Hother k i Hi). }
  assert (forall k i, open_at (<[j := fresh ROOTDEV n x]> l) k i -> (k = j /\ i = fresh ROOTDEV n x) \/ (k <> j /\ open_at l k i)) as Hinv.
  { intros k i [Hk Hi]. apply list_lookup_insert_Some in Hk as [(-> & -> & _)|[Hne Hk]]; [by left|right]. split; [congruence|done]. }
  split.
  - eapply icache_insert; [apply Hrep|exact Hj|done|]. intros _ k i Hne Hi Hri _ E. by destruct (Hother k i).
  - intros k i [[-> ->]|[Hne Hi]]%Hinv; [|by apply Hrep]. rewrite bool_decide_eq_false_2; [by split|].
    intros E. destruct (cr_lock _ _ _ _ Hrep j E) as [i Hi]. by destruct (Hother j i Hi).
  - intros k i [[-> ->]|[Hne Hi]]%Hinv; unfold bump.
    + cbn. rewrite decide_True by done. lia.
    + rewrite decide_False by by apply (Hother k). by apply (cr_count _ _ _ _ Hrep k).
  - intros m Hm. unfold bump in Hm. case_decide as E.
    + exists j, (fresh ROOTDEV n x). split; [|done]. split; [by apply list_lookup_insert_eq|done].
    + destruct (cr_open _ _ _ _ Hrep m Hm) as (k & i & Hi & <-). exists k, i. split; [|done]. split; [|apply Hi].
      rewrite list_lookup_insert_ne; [apply Hi|]. intros ->. by destruct (Hother k i Hi).
  - intros k Hk. destruct (cr_lock _ _ _ _ Hrep k Hk) as [i Hi]. exists i. split; [|apply Hi].
    rewrite list_lookup_insert_ne; [apply Hi|]. intros ->. by destruct (Hother k i Hi).
Qed.

(** One more reference. *)
Lemma idup_rep k i : open_at l k i -> cache_rep V (<[k := iset_ref (i_ref i + 1) i]> l) (bump (i_inum i) 1 r) lk.
Proof using Hrep.
  intros Hi. apply (cache_set k i); try done.
  - cbn. destruct Hi. lia.
  - by destruct (cr_entry _ _ _ _ Hrep _ _ Hi).
  - cbn. destruct Hi. lia.
  - intros m. unfold bump. case_decide as Em; [|done]. cbn. rewrite (cr_count _ _ _ _ Hrep _ _ Hi). congruence.
Qed.

(** [iget] adds a reference, and finds room for it. *)
Lemma iget_rep n :
  room r 1 -> exists j l' i', iget_result ROOTDEV n l = Some (j, l') /\ open_at l' j i' /\ i_inum i' = n /\
    cache_rep V l' (bump n 1 r) lk /\
    (forall k i, open_at l k i -> exists x, open_at l' k x /\ i_inum x = i_inum i /\ i_flags x = i_flags i).
Proof using Hrep.
  intros Hroom. unfold iget_result. destruct (findi (imatch ROOTDEV n) l) as [j|] eqn:Ef.
  - apply findi_Some in Ef as [(i & Hi & (Hr & _ & E)%imatch_true) _]. assert (open_at l j i) as Ho by done.
    pose proof (lookup_lt_Some _ _ _ Hi) as Hlt. rewrite (alter_insert _ _ i) by done.
    exists j, (<[j := iset_ref (i_ref i + 1) i]> l), (iset_ref (i_ref i + 1) i).
    split; [done|]. split; [split; [by apply list_lookup_insert_eq|cbn; lia]|]. split; [done|]. split.
    + rewrite <- E. by apply idup_rep.
    + intros k x [Hx Hrx]. destruct (decide (k = j)) as [->|Hne].
      * assert (x = i) as -> by congruence. eexists. split; [split; [by apply list_lookup_insert_eq|cbn; lia]|done].
      * exists x. split; [|done]. split; [by rewrite list_lookup_insert_ne|done].
  - destruct (free_entry Hroom) as [j Hj]. rewrite Hj. apply findi_Some in Hj as [(x & Hx & Hz%Z.eqb_eq) _].
    pose proof (lookup_lt_Some _ _ _ Hx) as Hlt. rewrite (alter_insert _ _ x) by done.
    exists j, (<[j := fresh ROOTDEV n x]> l), (fresh ROOTDEV n x).
    split; [done|]. split; [split; [by apply list_lookup_insert_eq|done]|]. split; [done|]. split; [by apply cache_fresh|].
    intros k i [Hi Hri]. exists i. split; [|done]. split; [|done]. rewrite list_lookup_insert_ne; [done|]. intros ->.
    assert (i = x) as -> by congruence. lia.
Qed.

(** The entry [ilock] leaves has the inode of the disk. *)
Lemma locked_inode k i :
  open_at l k i -> let x := locked V i in
  i_inum x = i_inum i /\ i_ref x = i_ref i /\ i_dev x = ROOTDEV /\ dinode_of x = disk_inode V (i_inum i) /\
  has (i_flags x) I_BUSY = true /\ has (i_flags x) I_VALID = true.
Proof using Hrep.
  intros Hi. pose proof (cr_entry _ _ _ _ Hrep _ _ Hi) as [Hd _ Hv]. cbv zeta. unfold locked.
  destruct (has (i_flags i) I_VALID) eqn:Ev; cbn [mark_valid mark_busy load_dinode iset_flags i_inum i_ref i_dev i_flags];
    autorewrite with iflags; split_and!; try done.
  by apply Hv.
Qed.

Lemma ilock_rep k i : lk = None -> open_at l k i -> cache_rep V (<[k := locked V i]> l) r (Some k).
Proof using Hrep.
  intros Hlk Hi. destruct (locked_inode k i Hi) as (En & Er & Ed & Ex & Eb & Ev). apply (cache_set k i); try done.
  - rewrite Er. destruct Hi. lia.
  - rewrite bool_decide_eq_true_2 by done. split; [done|done|congruence].
  - intros j Hj. rewrite !bool_decide_eq_false_2; congruence.
  - rewrite Er. intros _. apply Hi.
  - intros m. case_decide as E; [|done]. rewrite Er, (cr_count _ _ _ _ Hrep _ _ Hi). congruence.
Qed.

Lemma iunlock_rep k i : lk = Some k -> open_at l k i -> cache_rep V (<[k := iset_flags (clr_flag (i_flags i) I_BUSY) i]> l) r None.
Proof using Hrep.
  intros Hlk Hi. pose proof (cr_entry _ _ _ _ Hrep _ _ Hi) as [Hd _ Hv]. apply (cache_set k i); try done.
  - cbn. destruct Hi. lia.
  - split; cbn [i_dev i_flags iset_flags]; autorewrite with iflags; done.
  - intros j Hj. rewrite !bool_decide_eq_false_2; congruence.
  - intros m. case_decide as E; [|done]. cbn. rewrite (cr_count _ _ _ _ Hrep _ _ Hi). congruence.
Qed.

Lemma iput_rep k i : lk = None -> open_at l k i -> cache_rep V (<[k := iset_ref (i_ref i - 1) i]> l) (bump (i_inum i) (-1) r) None.
Proof using Hrep.
  intros Hlk Hi. apply (cache_set k i); try done.
  - cbn. destruct Hi. lia.
  - rewrite <- Hlk. by destruct (cr_entry _ _ _ _ Hrep _ _ Hi).
  - intros j _. by rewrite Hlk.
  - intros m. unfold bump. case_decide as E; [|done]. cbn. rewrite (cr_count _ _ _ _ Hrep _ _ Hi), E. lia.
Qed.
End cache.

Lemma cache_rep_ext V l r r' lk : (forall n, r' n = r n) -> cache_rep V l r lk -> cache_rep V l r' lk.
Proof.
  intros E []. split; try done.
  - intros k i Hi. rewrite E. eauto.
  - intros n. rewrite E. auto.
Qed.

(** ** The tree on disk *)

Definition node (V : Z -> list Z) (n : Z) : inode := load_dinode (disk_inode V n) (Inode ROOTDEV n 1 0 0 0 0 0 0 []).
Definition is_dir (V : Z -> list Z) (n : Z) : bool := di_type (disk_inode V n) =? T_DIR.

(** The inodes [G] are allocated and linked, and the directories among them name inodes of [G] only. *)
Record tree (s : kstate) (V : Z -> list Z) (G : Z -> Prop) : Prop := {
  tr_map : free_map_ok s V;
  tr_inode : forall n, G n -> 0 <= n /\ home s (iblock n) /\ di_type (disk_inode V n) <> 0 /\ di_nlink (disk_inode V n) <> 0;
  tr_dir : forall n, G n -> is_dir V n = true -> dir_ok s V (node V n);
  tr_closed : forall n de, G n -> is_dir V n = true -> de ∈ dir_entries V (node V n) -> in_use de = true -> G (de_inum de)
}.

Lemma fframe_tree s s' V G : fframe s s' -> tree s V G -> tree s' V G.
Proof.
  intros Hf []. split.
  - by eapply fframe_free_map.
  - intros n Hn. destruct (tr_inode0 n Hn) as (? & ? & ? & ?). split_and!; [done| |done..]. by eapply fframe_home.
  - intros n Hn Hd. eapply dir_ok_frame; [done|auto].
  - done.
Qed.

(** The walk along the components; with [par] it stops before the last one. *)
Fixpoint walk (V : Z -> list Z) (par : bool) (n : Z) (es : list (list Z)) : option Z :=
  match es with
  | [] => if par then None else Some n
  | e :: es =>
      if is_dir V n then
        if par && bool_decide (es = []) then Some n
        else match find_name e (dir_entries V (node V n)) 0 with
             | Some (_, m) => walk V par m es
             | None => None
             end
      else None
  end.

(** Being a directory depends on the inode on disk only. *)
Lemma dir_ok_dinode s V x y :
  i_dev x = ROOTDEV -> i_dev y = ROOTDEV -> dinode_of x = dinode_of y -> dir_ok s V x -> dir_ok s V y.
Proof.
  destruct x, y. cbn. intros -> -> [= -> -> -> -> -> ->] [Hty [Ht [Hv Hl Ho Hi] Hs Hm] Hz Hb].
  split; [done| |done|done]. split; [done| |done|done]. by split.
Qed.

Lemma dinode_of_node V n : dinode_of (node V n) = disk_inode V n.
Proof. unfold node. by destruct (disk_inode V n). Qed.

Lemma node_dir s V n x :
  i_dev x = ROOTDEV -> dinode_of x = disk_inode V n ->
  dir_entries V x = dir_entries V (node V n) /\ (dir_ok s V (node V n) -> dir_ok s V x) /\ (i_type x =? T_DIR) = is_dir V n.
Proof.
  intros Hd Ex. split_and!.
  - unfold node. by rewrite <- Ex.
  - apply dir_ok_dinode; [done..|]. by rewrite Ex, dinode_of_node.
  - unfold is_dir. by rewrite <- Ex.
Qed.

Lemma find_name_in name es k j m : find_name name es k = Some (j, m) -> exists de, de ∈ es /\ in_use de = true /\ de_inum de = m.
Proof.
  revert k. induction es as [|de es IH]; intros k; cbn [find_name]; [done|]. unfold has_name. destruct (in_use de) eqn:Eu; cbn [andb].
  - case_bool_decide; [|intros H'; destruct (IH _ H') as (x & ? & ?); exists x; split; [by right|done]].
    intros [= _ <-]. exists de. split; [left|done].
  - intros H'. destruct (IH _ H') as (x & ? & ?). exists x. split; [by right|done].
Qed.

Lemma find_name_cstr name name' es k : cstr DIRSIZ name = cstr DIRSIZ name' -> find_name name es k = find_name name' es k.
Proof.
  intros E. revert k. induction es as [|de es IH]; intros k; cbn [find_name]; [done|]. unfold has_name. by rewrite E, IH.
Qed.

Section steps.
Context {drv : DiskDriver} (F : gset Z) (V : Z -> list Z).

Lemma iunlock_runs s r ip i :
  txf F s V [] -> cache_rep V (k_inodes s) r (Some ip) -> open_at (k_inodes s) ip i -> LIcache ∉ k_held s -> LPtable ∉ k_held s ->
  runs (iunlock ip) s (fun _ s' => txf F s' V [] /\ fframe s s' /\ cache_rep V (k_inodes s') r None /\
    k_inodes s' = <[ip := iset_flags (clr_flag (i_flags i) I_BUSY) i]> (k_inodes s)).
Proof.
  intros Hx Hrep Hi Hl Hp. pose proof (cr_entry _ _ _ _ Hrep _ _ Hi) as [_ Hb _]. rewrite bool_decide_eq_true_2 in Hb by done.
  pose proof (iunlock_rep Hrep ip i eq_refl Hi) as Hrep'. destruct Hi as [Hi Hr]. pose proof (lookup_lt_Some _ _ _ Hi) as Hlt.
  eapply runs_eq_last; [apply (iunlock_eq s ip i); [done|lia|done..]|]. split_and!.
  - by eapply txf_same; [..|exact Hx].
  - exists (<[ip := iset_flags (clr_flag (i_flags i) I_BUSY) i]> (k_inodes s)). apply tframe_clean; [|done].
    apply (bframe_wake _ _ (set_inodes _ s)). reflexivity.
  - done.
  - done.
Qed.

Lemma iput_runs s r ip i :
  txf F s V [] -> cache_rep V (k_inodes s) r None -> open_at (k_inodes s) ip i -> LIcache ∉ k_held s ->
  di_nlink (disk_inode V (i_inum i)) <> 0 ->
  runs (iput ip) s (fun _ s' => txf F s' V [] /\ fframe s s' /\ cache_rep V (k_inodes s') (bump (i_inum i) (-1) r) None /\
    k_inodes s' = <[ip := iset_ref (i_ref i - 1) i]> (k_inodes s)).
Proof.
  intros Hx Hrep Hi Hl Hn. pose proof (cr_entry _ _ _ _ Hrep _ _ Hi) as [_ _ Hv].
  pose proof (iput_rep Hrep ip i eq_refl Hi) as Hrep'. destruct Hi as [Hi Hr].
  eapply runs_eq_last; [|split_and!; [by apply txf_set_inodes, Hx|apply fframe_set_inodes|exact Hrep'|done]].
  unfold iput, bind. rewrite acquire_free by done. unfold geti, nth_or_fault. cbn [k_inodes set_held]. rewrite Hi.
  replace ((i_ref i =? 1) && has (i_flags i) I_VALID && (i_nlink i =? 0)) with false.
  2:{ destruct (has (i_flags i) I_VALID); [|by rewrite andb_false_r]. specialize (Hv eq_refl).
      assert (i_nlink i <> 0) as E by (by rewrite <- Hv in Hn). apply Z.eqb_neq in E. by rewrite E, andb_false_r. }
  unfold ret. erewrite updi_eq by (simpl; exact Hi). rewrite (release_top _ (k_held s)) by done. by autorewrite with kset.
Qed.

Lemma iunlockput_runs s r ip i :
  txf F s V [] -> cache_rep V (k_inodes s) r (Some ip) -> open_at (k_inodes s) ip i -> LIcache ∉ k_held s -> LPtable ∉ k_held s ->
  di_nlink (disk_inode V (i_inum i)) <> 0 ->
  runs (iunlockput ip) s (fun _ s' => txf F s' V [] /\ fframe s s' /\ cache_rep V (k_inodes s') (bump (i_inum i) (-1) r) None /\
    forall j y, open_at (k_inodes s) j y -> (j = ip -> 1 < i_ref i) -> exists y', open_at (k_inodes s') j y' /\ i_inum y' = i_inum y).
Proof.
  intros Hx Hrep Hi Hl Hp Hn. pose proof (lookup_lt_Some _ _ _ (proj1 Hi)) as Hlt.
  eapply runs_step; [by apply (iunlock_runs s r ip i)|]. intros [] s1 (Hx1 & Hf1 & Hrep1 & Hin1).
  assert (open_at (k_inodes s1) ip (iset_flags (clr_flag (i_flags i) I_BUSY) i)) as Hi1.
  { rewrite Hin1. split; [by apply list_lookup_insert_eq|apply Hi]. }
  eapply runs_mono; [apply (iput_runs s1 r ip _ Hx1 Hrep1 Hi1); [by rewrite (fframe_held _ _ Hf1)|done]|].
  intros [] s2 (Hx2 & Hf2 & Hrep2 & Hin2). split_and!; [done|by etrans|done|]. intros j y [Hj Hy] Href.
  rewrite Hin2, Hin1, list_insert_insert_eq. destruct (decide (j = ip)) as [->|Hne].
  - assert (y = i) as -> by (destruct Hi; congruence). eexists. split; [split; [by apply list_lookup_insert_eq|]|done].
    cbn. specialize (Href eq_refl). lia.
  - exists y. split; [|done]. split; [by rewrite list_lookup_insert_ne|done].
Qed.
End steps.

(** ** Walking *)

(** The walk is at inode [n], to which it has a reference besides the [r] of before. *)
Record at_inode (F : gset Z) (V : Z -> list Z) (G : Z -> Prop) (r : Z -> Z) (ip : nat) (n : Z) (s : kstate) : Prop := {
  ai_txf : txf F s V [];
  ai_tree : tree s V G;
  ai_in : G n;
  ai_rep : cache_rep V (k_inodes s) (bump n 1 r) None;
  ai_open : exists i, open_at (k_inodes s) ip i /\ i_inum i = n;
  ai_icache : LIcache ∉ k_held s;
  ai_ptable : LPtable ∉ k_held s
}.

(** What [namex] leaves: a reference to the inode it returns, and no other. *)
Definition walked (F : gset Z) (V : Z -> list Z) (r : Z -> Z) (o : option Z) (res : option nat) (s : kstate) : Prop :=
  txf F s V [] /\
  match o with
  | Some n => exists ip i, res = Some ip /\ open_at (k_inodes s) ip i /\ i_inum i = n /\ cache_rep V (k_inodes s) (bump n 1 r) None
  | None => res = None /\ cache_rep V (k_inodes s) r None
  end.

Section walk.
Context {drv : DiskDriver} (dv : devsw) (F : gset Z) (V : Z -> list Z) (G : Z -> Prop) (r : Z -> Z) (Hroom : room r 2).

(** Giving the reference up. *)
Lemma unbump n : forall m, r m = bump n (-1) (bump n 1 r) m.
Proof. intros m. unfold bump. case_decide; [|done]. lia. Qed.

(** Locking the inode of the walk. *)
Lemma walk_lock s ip n :
  at_inode F V G r ip n s ->
  runs (ilock ip) s (fun _ s' => txf F s' V [] /\ tree s' V G /\ fframe s s' /\
    cache_rep V (k_inodes s') (bump n 1 r) (Some ip) /\
    exists x, open_at (k_inodes s') ip x /\ i_inum x = n /\ i_dev x = ROOTDEV /\ dinode_of x = disk_inode V n).
Proof.
  intros [Hx Ht Hn Hrep (i & Hi & En) Hl Hp]. pose proof (cr_entry _ _ _ _ Hrep _ _ Hi) as [Hd Hb _].
  destruct (tr_inode _ _ _ Ht n Hn) as (Hpos & Hhome & Hty & _).
  destruct (locked_inode Hrep ip i Hi) as (En' & Er & Ed & Ex & _ & _). pose proof (ilock_rep Hrep ip i eq_refl Hi) as Hrep'.
  destruct Hi as [Hi Hr]. eapply runs_mono; [apply (ilock_txf F s V [] ip i); try done|].
  - lia.
  - split_and!; [done|lia|by rewrite En].
  - void.
  - cbn. lia.
  - left. rewrite En in Ex. by rewrite <- Ex in Hty.
  - intros [] s' (Hx' & Hf & Hin). rewrite Hin. split_and!; try done; [by eapply fframe_tree|].
    exists (locked V i). rewrite <- En. split_and!; try done. split; [|by rewrite Er].
    apply list_lookup_insert_eq. by eapply lookup_lt_Some.
Qed.

(** The locked inode is let go. *)
Lemma walk_fail s ip n x {A} (a : A) :
  txf F s V [] -> tree s V G -> G n -> cache_rep V (k_inodes s) (bump n 1 r) (Some ip) -> open_at (k_inodes s) ip x -> i_inum x = n ->
  LIcache ∉ k_held s -> LPtable ∉ k_held s ->
  runs (iunlockput ip ;; ret a) s (fun a' s' => a' = a /\ txf F s' V [] /\ cache_rep V (k_inodes s') r None).
Proof.
  intros Hx Ht Hn Hrep Hi En Hl Hp. eapply runs_step.
  - apply (iunlockput_runs F V s _ ip x Hx Hrep Hi Hl Hp). rewrite En. apply (tr_inode _ _ _ Ht n Hn).
  - intros [] s' (Hx' & _ & Hrep' & _). apply runs_ret. split_and!; [done..|]. rewrite En in Hrep'.
    eapply cache_rep_ext; [apply (unbump n)|done].
Qed.

(** One component: the walk moves to the inode it names. *)
Lemma path_step {A} s ip n x name (k : nat -> K A) (fail : A) Q :
  txf F s V [] -> tree s V G -> G n -> cache_rep V (k_inodes s) (bump n 1 r) (Some ip) -> open_at (k_inodes s) ip x -> i_inum x = n ->
  LIcache ∉ k_held s -> LPtable ∉ k_held s -> i_dev x = ROOTDEV -> dinode_of x = disk_inode V n -> is_dir V n = true -> name_ok name ->
  match find_name name (dir_entries V (node V n)) 0 with
  | Some (_, m) => forall next s', at_inode F V G r next m s' -> runs (k next) s' Q
  | None => forall s', txf F s' V [] -> cache_rep V (k_inodes s') r None -> Q fail s'
  end ->
  runs (o <- dirlookup dv ip name ;;
        match o with
        | None => iunlockput ip ;; ret fail
        | Some (next, _) => iunlockput ip ;; k next
        end) s Q.
Proof using Hroom.
  intros Hx Ht Hn Hrep Hi En Hl Hp Hd Ex Hdir Hname HQ. destruct (node_dir s V n x Hd Ex) as (Ees & Hok & _).
  apply runs_bind. apply (dirlookup_split dv F s V ip x name); [done|apply Hi|by apply Hok, (tr_dir _ _ _ Ht)|apply Ht|done|].
  intros s1 Hx1 Hf1. rewrite Ees. pose proof (tframe_fframe _ _ Hf1) as Hff. apply (fframe_tree _ _ _ _ Hff) in Ht.
  rewrite <- (tframe_inodes _ _ Hf1) in Hrep, Hi. rewrite <- (tframe_held _ _ Hf1) in Hl, Hp.
  destruct (find_name name (dir_entries V (node V n)) 0) as [[j m]|] eqn:Ef; cbn [at_entry fmap option_fmap option_map].
  - rewrite Hd. assert (room (bump n 1 r) 1) as Hr1 by by apply room_bump.
    destruct (iget_rep Hrep m Hr1) as (next & l & y & Hg & Hy & Em & Hrep2 & Hkeep).
    eapply runs_eq; [by apply iget_ret|]. apply runs_ret. destruct (Hkeep ip x Hi) as (x2 & Hx2 & En2 & Efl).
    eapply runs_step.
    { apply (iunlockput_runs F V (set_inodes l s1) (bump m 1 (bump n 1 r)) ip x2); try done; [by apply txf_set_inodes|].
      rewrite En2, En. apply (tr_inode _ _ _ Ht n Hn). }
    intros [] s2 (Hxs & Hf2 & Hrep3 & Hkeep2). apply HQ.
    assert (fframe s1 s2) as Hf12 by (etrans; [apply (fframe_set_inodes l)|done]).
    rewrite En2, En in Hrep3. assert (cache_rep V (k_inodes s2) (bump m 1 r) None) as Hrep4.
    { eapply cache_rep_ext; [|exact Hrep3]. intros a. unfold bump. repeat case_decide; lia. }
    split; try done.
    + by eapply fframe_tree.
    + destruct (find_name_in _ _ _ _ _ Ef) as (de & Hde & Hu & <-). by apply (tr_closed _ _ _ Ht n).
    + destruct (Hkeep2 next y Hy) as (y' & Hy' & Ey); [|exists y'; split; [done|congruence]]. intros ->.
      rewrite (cr_count _ _ _ _ Hrep2 _ _ Hx2), En2, En. pose proof (cr_count _ _ _ _ Hrep _ _ Hi) as Hc. rewrite En in Hc.
      assert (y = x2) as -> by (destruct Hy, Hx2; cbn in *; congruence).
      assert (n = m) as <- by congruence. unfold bump in *. rewrite !decide_True in * by done. destruct Hi. lia.
    + by rewrite (fframe_held _ _ Hf12).
    + by rewrite (fframe_held _ _ Hf12).
  - apply runs_ret. eapply runs_mono; [by apply (walk_fail s1 ip n x fail)|]. intros a s2 (-> & Hx2 & Hrep2). by apply HQ.
Qed.

(** The name buffer after a walk to a parent has the last component. *)
Definition last_elem (par : bool) (es : list (list Z)) (name : list Z) : Prop :=
  par = true -> last es = Some (cstr DIRSIZ name).

Definition namex_post (par : bool) (n : Z) (es : list (list Z)) (res : option nat * list Z) (s : kstate) : Prop :=
  walked F V r (walk V par n es) res.1 s /\ (walk V par n es <> None -> last_elem par es res.2).

(** No component is left. *)
Lemma namex_end s ip n (par : bool) name :
  at_inode F V G r ip n s ->
  runs (if par then iput ip ;; ret (None, name) else ret (Some ip, name)) s (namex_post par n []).
Proof.
  intros [Hx Ht Hn Hrep (i & Hi & En) Hl Hp]. destruct par.
  - eapply runs_step; [apply (iput_runs F V s _ ip i Hx Hrep Hi Hl); rewrite En; apply (tr_inode _ _ _ Ht n Hn)|].
    intros [] s' (Hx' & _ & Hrep' & _). apply runs_ret. split; [|done]. split; [done|]. cbn. split; [done|].
    rewrite En in Hrep'. eapply cache_rep_ext; [apply (unbump n)|done].
  - apply runs_ret. split; [|done]. split; [done|]. cbn. by exists ip, i.
Qed.

Lemma namex_loop_walks par fuel : forall s ip n path name,
  at_inode F V G r ip n s -> Forall is_byte path -> Forall is_byte name -> length name = DIRSIZ -> (length path < fuel)%nat ->
  runs (namex_loop dv fuel ip path par name) s (namex_post par n (path_elems path)).
Proof using Hroom.
  induction fuel as [|fuel IH]; intros s ip n path name Hat Hpath Hname Hlen Hfuel; [lia|]. cbn [namex_loop].
  pose proof (skipelem_elems path name Hpath Hname Hlen) as Hs. destruct (skipelem path name) as [[path' name']|].
  2:{ rewrite Hs. by apply namex_end. }
  destruct Hs as (e & -> & (Hlen' & Hok & Ee) & Hpath' & Hlt & Hend).
  eapply runs_step; [by apply walk_lock|]. intros [] s1 (Hx1 & Ht1 & Hf1 & Hrep1 & x & Hi1 & En & Hd & Ex).
  destruct Hat as [Hx Ht Hn Hrep _ Hl Hp]. rewrite <- (fframe_held _ _ Hf1) in Hl, Hp.
  eapply runs_geti; [apply Hi1|]. destruct (node_dir s1 V n x Hd Ex) as (_ & _ & ->). unfold namex_post. cbn [walk].
  destruct (is_dir V n) eqn:Edir; cbn [negb].
  2:{ eapply runs_mono; [by apply (walk_fail s1 ip n x)|]. intros a s2 (-> & Hx2 & Hrep2). split; [|done]. by split. }
  assert (bool_decide (path_elems path' = []) = (byte_at path' 0 =? 0)) as ->.
  { destruct (byte_at path' 0 =? 0); [apply bool_decide_eq_true_2; tauto|apply bool_decide_eq_false_2]. intros E. apply Hend in E. done. }
  destruct (par && (byte_at path' 0 =? 0)) eqn:Epar.
  - eapply runs_step; [by apply (iunlock_runs F V s1 (bump n 1 r) ip x)|]. intros [] s2 (Hx2 & Hf2 & Hrep2 & Hin2). apply runs_ret. split.
    + split; [done|]. exists ip, (iset_flags (clr_flag (i_flags x) I_BUSY) x). split_and!; try done.
      rewrite Hin2. split; [apply list_lookup_insert_eq; by eapply lookup_lt_Some, Hi1|apply Hi1].
    + intros _ _. apply andb_true_iff in Epar as [_ E%Hend]. rewrite E. cbn [last snd]. by rewrite Ee.
  - apply (path_step s1 ip n x name' _ (None, name')); try done.
    rewrite (find_name_cstr name' e). 2:{ by rewrite <- Ee, cstr_idem. }
    destruct (find_name e (dir_entries V (node V n)) 0) as [[j m]|] eqn:Ef.
    + intros next s2 Hat. eapply runs_mono; [apply (IH s2 next m path' name' Hat Hpath'); [apply Hok|done|lia]|].
      intros res s3 [Hw Hlast]. split; [done|]. intros Hne Hpar. specialize (Hlast Hne Hpar).
      destruct (path_elems path'); [done|exact Hlast].
    + intros s2 Hx2 Hrep2. split; [|done]. by split.
Qed.

(** Where a path starts: at the root, or at the current directory. *)
Definition starts_at (s : kstate) (path : list Z) (n : Z) : Prop :=
  if byte_at path 0 =? SLASH then n = ROOTINO
  else exists p pr ip i, k_cur s = Some p /\ k_procs s !! p = Some pr /\ p_cwd pr = Some ip /\ open_at (k_inodes s) ip i /\ i_inum i = n.

(** C8. [namex] resolves path names. On a file system whose directories name allocated inodes, with room for two more inodes
    in the cache and no inode locked, it walks the components of the path from the root or the current directory: it returns
    the inode the path names, or for [nameiparent] the directory of the last component and that component in the name
    buffer, and nothing if a component is missing or is looked up in a file. It holds one more reference to the inode it
    returns, no reference to any other inode is kept or lost, and no block changes. *)
Theorem namex_resolves s path par name n :
  txf F s V [] -> tree s V G -> G n -> starts_at s path n -> cache_rep V (k_inodes s) r None ->
  LIcache ∉ k_held s -> LPtable ∉ k_held s -> Forall is_byte path -> Forall is_byte name -> length name = DIRSIZ ->
  runs (namex dv path par name) s (namex_post par n (path_elems path)).
Proof using Hroom.
  intros Hx Ht Hn Hstart Hrep Hl Hp Hpath Hname Hlen. unfold namex.
  assert (forall next s', txf F s' V [] -> fframe s s' -> cache_rep V (k_inodes s') (bump n 1 r) None ->
    (exists i, open_at (k_inodes s') next i /\ i_inum i = n) ->
    runs (namex_loop dv (S (length path)) next path par name) s' (namex_post par n (path_elems path))) as Hgo.
  { intros next s' Hx' Hf Hrep' Hi. apply namex_loop_walks; try done; [|lia].
    split; try done; [by eapply fframe_tree|by rewrite (fframe_held _ _ Hf)..]. }
  unfold starts_at in Hstart. destruct (byte_at path 0 =? SLASH).
  - subst n. assert (room r 1) as Hr1 by (destruct Hroom as (U & HU & Hk); exists U; split; [done|lia]).
    destruct (iget_rep Hrep ROOTINO Hr1) as (j & l & i & Hg & Hi & En & Hrep' & _).
    eapply runs_eq; [by apply iget_ret|]. apply Hgo; [by apply txf_set_inodes|apply fframe_set_inodes|done|by exists i].
  - destruct Hstart as (p & pr & ip & i & Hcur & Hpr & Hcwd & Hi & En). pose proof (idup_rep Hrep ip i Hi) as Hrep'. rewrite En in Hrep'.
    eapply runs_eq; [|apply (Hgo ip (set_inodes (<[ip := iset_ref (i_ref i + 1) i]> (k_inodes s)) s))].
    + unfold cwd, idup, bind, cur_proc, nth_or_fault. rewrite Hcur, Hpr, Hcwd. unfold ret. rewrite acquire_free by done.
      erewrite updi_eq by (simpl; apply Hi). rewrite (release_top _ (k_held s)) by done. by autorewrite with kset.
    + by apply txf_set_inodes.
    + apply fframe_set_inodes.
    + done.
    + exists (iset_ref (i_ref i + 1) i). split; [|exact En]. destruct Hi as [Hi Hr]. split; [|cbn; lia].
      apply list_lookup_insert_eq. by eapply lookup_lt_Some.
Qed.
End walk.

(** ** The small file system as a tree *)

Definition demo_G (n : Z) : Prop := n = 1 \/ n = 2.
Definition demo_refs (n : Z) : Z := if decide (n = 1 \/ n = 2) then 1 else 0.

Lemma demo_nodes : disk_inode demo_V 1 = demo_root /\ disk_inode demo_V 2 = demo_file.
Proof. split; vm_compute; reflexivity. Qed.

Lemma demo_tree : tree demo_i demo_V demo_G.
Proof.
  destruct demo_nodes as [E1 E2]. assert (forall n, demo_G n -> is_dir demo_V n = true -> n = 1) as Hdir.
  { intros n [->| ->]; [done|]. unfold is_dir. by rewrite E2. }
  split.
  - apply demo_i_free_map.
  - intros n [->| ->]; rewrite ?E1, ?E2; (split; [lia|]); (split; [split; by vm_compute|]); cbn; unfold T_DIR, T_FILE; lia.
  - intros n Hn Hd. rewrite (Hdir n Hn Hd). apply (dir_ok_dinode _ _ demo_dir_inode); [reflexivity|reflexivity|by rewrite dinode_of_node, E1|].
    exact (dir_ok_frame _ _ _ _ (fframe_set_inodes demo_icache demo_d) demo_d_dir).
  - intros n de Hn Hd. rewrite (Hdir n Hn Hd).
    replace (dir_entries demo_V (node demo_V 1)) with (dir_entries demo_V demo_dir_inode) by (vm_compute; reflexivity).
    rewrite demo_entries. intros Hde _. apply list_elem_of_fmap_1 in Hde as ([m nm] & -> & Hin).
    rewrite !elem_of_cons, elem_of_nil in Hin.
    destruct Hin as [[= -> ->]|[[= -> ->]|[[= -> ->]|[]]]]; [left; reflexivity|left; reflexivity|right; reflexivity].
Qed.

(** Its cache has a reference to "a", which is valid, and one to the root, which is not. *)
Lemma demo_open k i : open_at demo_icache k i -> (k = 0%nat /\ i = demo_cached) \/ (k = 1%nat /\ i = demo_unread).
Proof.
  intros [Hk Hr]. unfold demo_icache in Hk. apply list_lookup_insert_Some in Hk as [(<- & <- & _)|[_ Hk]]; [by left|].
  apply list_lookup_insert_Some in Hk as [(<- & <- & _)|[_ Hk]]; [by right|]. apply lookup_replicate in Hk as [-> _]. done.
Qed.

Lemma demo_cache_rep : cache_rep demo_V demo_icache demo_refs None.
Proof.
  assert (open_at demo_icache 0 demo_cached /\ open_at demo_icache 1 demo_unread) as [H0 H1] by done. split.
  - split.
    + unfold demo_icache. rewrite !length_insert. apply length_replicate.
    + intros k i Hk. unfold demo_icache in Hk. apply list_lookup_insert_Some in Hk as [(_ & <- & _)|[_ Hk]]; [done|].
      apply list_lookup_insert_Some in Hk as [(_ & <- & _)|[_ Hk]]; [done|]. by apply lookup_replicate in Hk as [-> _].
    + intros j k i x Hj Hk Hi Hx _. assert (open_at demo_icache j i) as Ho by done. assert (open_at demo_icache k x) as Ho' by done.
      apply demo_open in Ho as [[-> ->]|[-> ->]], Ho' as [[-> ->]|[-> ->]]; done.
  - intros k i [[-> ->]|[-> ->]]%demo_open; (split; [done|done|]); [|done]. intros _. symmetry. apply demo_nodes.
  - intros k i [[-> ->]|[-> ->]]%demo_open; done.
  - intros n Hn. unfold demo_refs in Hn. case_decide as E; [|done]. destruct E as [->| ->].
    + by exists 1%nat, demo_unread.
    + by exists 0%nat, demo_cached.
  - done.
Qed.

(** The path /a names inode 2. *)
Lemma namex_resolves_witness :
  runs (namex (drv := memide) no_dev [SLASH; 97; 0] false (replicate DIRSIZ 0)) demo_i (fun res s' => exists ip i,
    res.1 = Some ip /\ open_at (k_inodes s') ip i /\ i_inum i = 2 /\ i_ref i = 2).
Proof.
  assert (room demo_refs 2) as Hroom.
  { exists [1; 2]. split; [|vm_compute; lia]. intros n Hn. unfold demo_refs in Hn. case_decide as E; [|done].
    destruct E as [->| ->]; [left|right; left]. }
  eapply runs_mono.
  - apply (namex_resolves (drv := memide) no_dev ∅ demo_V demo_G demo_refs Hroom demo_i [SLASH; 97; 0] false (replicate DIRSIZ 0) 1).
    + apply demo_i_txf. vm_compute. lia.
    + exact demo_tree.
    + by left.
    + reflexivity.
    + exact demo_cache_rep.
    + apply not_elem_of_nil.
    + apply not_elem_of_nil.
    + apply (bool_decide_unpack _). by vm_compute.
    + apply (bool_decide_unpack _). by vm_compute.
    + reflexivity.
  - intros res s' [[_ Hw] _]. replace (walk demo_V false 1 (path_elems [SLASH; 97; 0])) with (Some 2) in Hw by (vm_compute; reflexivity).
    destruct Hw as (ip & i & Hres & Hi & En & Hrep). exists ip, i. split_and!; [done..|].
    rewrite (cr_count _ _ _ _ Hrep _ _ Hi), En. done.
Defined.
