(* ===== verification/Ulib.v ===== *)
(** * The user library (ulib/ulib.c, ulib/printf.c)

    User programs run over the system calls, which are an interface here: a world, and what [read], [write],
    [open] and the others do to it. A program stops in [exit] by giving up its world for good. *)

From Stdlib Require Import Ascii String.
From S2P Require Import Prelude Types Monad KString Print.

(** ** System calls *)

(** [struct stat]. *)
Record ustat := UStat { st_type : Z; st_dev : Z; st_ino : Z; st_nlink : Z; st_size : Z }.

(** The calls the programs below use. Strings are NUL-free byte lists; [u_read fd n] gives the bytes
    read, no more than [n], or [None] for -1. *)
Class Syscalls (W : Type) := {
  u_read : Z -> nat -> W -> option (list Z) * W;
  u_write : Z -> list Z -> W -> Z * W;
  u_open : list Z -> Z -> W -> Z * W;
  u_close : Z -> W -> Z * W;
  u_fstat : Z -> W -> option ustat * W;
  u_link : list Z -> list Z -> W -> Z * W;
  u_mkdir : list Z -> W -> Z * W;
  u_unlink : list Z -> W -> Z * W;
  u_kill : Z -> W -> Z * W;
  u_read_le : forall fd n w l w', u_read fd n w = (Some l, w') -> (length l <= n)%nat
}.

Definition O_RDONLY : Z := 0.

Section ulib.
Context {W : Type} {sys : Syscalls W}.

Definition U (A : Type) : Type := M W A.

Definition call {A} (f : W -> A * W) : U A := fun w => let '(a, w') := f w in Ret a w'.
Definition uexit {A} : U A := fun w => Sched w.

(** ** ulib.c: strings

    [t] is the array from the pointer on. *)

(** Copies up to and including the terminator of [t]. *)
Fixpoint strcpy_from (s : list Z) (a : nat) (t : list Z) : option (list Z) :=
  match t with
  | [] => None
  | c :: t => s' ← store s a c; if c =? 0 then Some s' else strcpy_from s' (S a) t
  end.

Definition strcpy (s t : list Z) : option (list Z) := strcpy_from s 0 t.

Fixpoint strcmp (p q : list Z) : option Z :=
  match p, q with
  | a :: p', b :: q' =>
      if negb (a =? 0) && (a =? b) then strcmp p' q' else Some (u8 a - u8 b)
  | _, _ => None
  end.

(** [strchr] gives the index of the first [c] before the terminator; the outer [None] is running off the
    array. *)
Fixpoint strchr (s : list Z) (c : Z) : option (option nat) :=
  match s with
  | [] => None
  | x :: s =>
      if x =? 0 then Some None
      else if x =? c then Some (Some 0%nat)
      else r ← strchr s c; Some (option_map S r)
  end.

(** [while('0' <= *s && *s <= '9') n = n*10 + *s++ - '0'] on an [int]. *)
Fixpoint atoi_from (n : Z) (s : list Z) : option Z :=
  match s with
  | [] => None
  | c :: s => if (48 <=? c) && (c <=? 57) then atoi_from (s32 (n * 10 + c - 48)) s else Some n
  end.
Definition atoi (s : list Z) : option Z := atoi_from 0 s.

(** [memmove] of the user library always copies upwards. *)
Definition umemmove (m : list Z) (dst src : nat) (n : Z) : option (list Z) := copy_up m dst src (Z.to_nat n).

(** ** ulib.c: input *)

(** [gets] into a buffer of [max] bytes: the characters it stores before the terminator. [k] is how many
    more fit, the terminator excluded. *)
Fixpoint ugets_loop (k : nat) (acc : list Z) : U (list Z) :=
  match k with
  | O => ret acc
  | S k =>
      r <- call (u_read 0 1) ;;
      match r with
      | Some [c] =>
          let acc := acc ++ [c] in
          if (c =? 10) || (c =? 13) then ret acc else ugets_loop k acc
      | _ => ret acc
      end
  end.

(** The buffer [gets] leaves: what does not fit faults. *)
Definition ugets (buf : list Z) (max : Z) : U (list Z) :=
  l <- ugets_loop (Z.to_nat (max - 1)) [] ;;
  if (length l <? length buf)%nat then ret (splice buf 0 (l ++ [0])) else fault.

Definition stat (n : list Z) : U (option ustat) :=
  fd <- call (u_open n O_RDONLY) ;;
  if fd <? 0 then ret None else
  r <- call (u_fstat fd) ;;
  call (u_close fd) ;;
  ret r.

(** ** printf.c *)

Definition uputc (fd c : Z) : U unit := call (u_write fd [u8 c]) ;; ret tt.
Definition uputs (fd : Z) (l : list Z) : U unit := foreach (uputc fd) l.

Definition udigits : list Z := bytes_of "0123456789ABCDEF".
Definition udigit (x : Z) : Z := nth (Z.to_nat x) udigits 0.

(** The contents of [buf], least significant digit first; the loop is the one of the kernel's [printint]. *)
Definition uprintint_buf (xx base : Z) (sgn : bool) : option (list Z) :=
  if sgn && (xx <? 0) then buf ← digits_loop 17 udigit base (u32 (- xx)) []; buf_put buf 45
  else digits_loop 17 udigit base (u32 xx) [].

Definition uprintint (fd xx base : Z) (sgn : bool) : U unit :=
  match uprintint_buf xx base sgn with
  | Some buf => uputs fd (rev buf)
  | None => fault
  end.

(** The directive [%c] with the arguments that are left. A missing argument or one of another type is
    undefined in C. *)
Definition udirective (fd c : Z) (ap : list varg) : U (list varg) :=
  if c =? 100 then match ap with VInt x :: ap => uprintint fd x 10 true ;; ret ap | _ => fault end
  else if (c =? 120) || (c =? 112) then match ap with VInt x :: ap => uprintint fd x 16 false ;; ret ap | _ => fault end
  else if c =? 115 then match ap with
    | VStr s :: ap => uputs fd (default null_str s) ;; ret ap
    | _ => fault
    end
  else if c =? 99 then match ap with VInt x :: ap => uputc fd x ;; ret ap | _ => fault end
  else if c =? 37 then uputc fd c ;; ret ap
  else uputc fd 37 ;; uputc fd c ;; ret ap.

(** The loop over the format; [st] is [state == '%']. *)
Fixpoint uprintf_loop (fd : Z) (st : bool) (fmt : list Z) (ap : list varg) : U unit :=
  match fmt with
  | [] => ret tt
  | c :: fmt =>
      if st then ap <- udirective fd c ap ;; uprintf_loop fd false fmt ap
      else if c =? 37 then uprintf_loop fd true fmt ap
      else uputc fd c ;; uprintf_loop fd false fmt ap
  end.

Definition uprintf (fd : Z) (fmt : list Z) (ap : list varg) : U unit := uprintf_loop fd false fmt ap.

End ulib.
