(* ===== verification/PrintProps.v ===== *)
(** * Numbers are printed in full (kernel/console.c, ulib/printf.c) and read back (ulib/ulib.c) *)

From S2P Require Import Prelude Types Monad Print Ulib.

(** ** What a printed number means *)

Definition dval (c : Z) : Z :=
  if (48 <=? c) && (c <=? 57) then c - 48 else if (97 <=? c) && (c <=? 102) then c - 87 else c - 55.

Definition number (base : Z) (l : list Z) : Z := fold_left (fun n c => n * base + dval c) l 0.

Definition value (base : Z) (l : list Z) : Z :=
  match l with
  | c :: l' => if c =? 45 then - number base l' else number base l
  | [] => 0
  end.

Lemma number_snoc base l c : number base (l ++ [c]) = number base l * base + dval c.
Proof. unfold number. by rewrite fold_left_app. Qed.

(** A table of digits. *)
Definition table (dg : Z -> Z) : Prop := forall d, 0 <= d < 16 -> dval (dg d) = d /\ dg d <> 45 /\ (d < 10 -> dg d = 48 + d).

Lemma small_cases (P : Z -> Prop) : Forall P (map Z.of_nat (seq 0 16)) -> forall d, 0 <= d < 16 -> P d.
Proof.
  rewrite Forall_forall. intros HP d Hd. apply HP. apply list_elem_of_In, in_map_iff. exists (Z.to_nat d).
  split; [lia|]. apply in_seq. lia.
Qed.

Lemma digit_table : table digit.
Proof. unfold table. apply small_cases. repeat (apply Forall_cons; split; [vm_compute; repeat split; congruence|]). done. Qed.
Lemma udigit_table : table udigit.
Proof. unfold table. apply small_cases. repeat (apply Forall_cons; split; [vm_compute; repeat split; congruence|]). done. Qed.

(** ** The loop of [printint] *)

Lemma digits_loop_ok dg base k : forall x buf fuel,
  table dg -> 2 <= base <= 16 -> 0 <= x < base ^ Z.of_nat (S k) -> (length buf + S k <= 16)%nat -> (k < fuel)%nat ->
  exists ds, digits_loop fuel dg base x buf = Some (buf ++ ds) /\ (1 <= length ds <= S k)%nat
    /\ number base (rev ds) = x /\ Forall (fun c => exists d, 0 <= d < base /\ c = dg d) ds.
Proof.
  induction k as [|k IH]; intros x buf fuel Hdg Hb Hx Hlen Hf; (destruct fuel as [|fuel]; [lia|]); cbn [digits_loop];
    unfold buf_put; rewrite (proj2 (Nat.ltb_lt _ 16)) by lia; cbn [mbind option_bind];
    pose proof (Z.mod_pos_bound x base ltac:(lia)); destruct (Hdg (x mod base) ltac:(lia)) as [Hv _];
    pose proof (Z.div_mod x base ltac:(lia)).
  - assert (x / base = 0) as E by (apply Z.div_small; lia). rewrite E. exists [dg (x mod base)].
    split; [done|]. split; [cbn; lia|]. split; [unfold number; cbn; lia|]. constructor; eauto.
  - destruct (x / base =? 0) eqn:E.
    { exists [dg (x mod base)]. split; [done|]. split; [cbn; lia|]. split; [unfold number; cbn; lia|]. constructor; eauto. }
    destruct (IH (x / base) (buf ++ [dg (x mod base)]) fuel Hdg Hb) as (ds & -> & Hl & Hn & Hds).
    + rewrite Nat2Z.inj_succ, Z.pow_succ_r in Hx by lia. split; [apply Z.div_pos; lia|]. apply Z.div_lt_upper_bound; lia.
    + rewrite length_app. cbn. lia.
    + lia.
    + exists (dg (x mod base) :: ds). rewrite <- app_assoc. split; [done|]. split; [cbn; lia|]. split.
      * cbn [rev]. rewrite number_snoc, Hn, Hv. lia.
      * constructor; eauto.
Qed.

(** What both [printint]s do, over their own digits. *)
Definition int_buf (dg : Z -> Z) (xx base : Z) (sign : bool) : option (list Z) :=
  if sign && (xx <? 0) then buf ← digits_loop 17 dg base (u32 (- xx)) []; buf_put buf 45
  else digits_loop 17 dg base (u32 xx) [].

Lemma value_digits dg base ds :
  table dg -> base <= 16 -> Forall (fun c => exists d, 0 <= d < base /\ c = dg d) ds -> value base ds = number base ds.
Proof.
  intros Hdg Hb Hds. destruct ds as [|c ds]; [done|]. apply Forall_cons in Hds as [(d & Hd & ->) _]. cbn.
  by rewrite (proj2 (Z.eqb_neq _ _)) by (apply Hdg; lia).
Qed.

Lemma int_buf_ok dg xx base sign :
  table dg -> -2147483648 <= xx < 2147483648 -> 5 <= base <= 16 ->
  exists buf, int_buf dg xx base sign = Some buf /\ (1 <= length buf <= 15)%nat
    /\ value base (rev buf) = (if sign then xx else u32 xx)
    /\ Forall (fun c => c = 45 \/ exists d, 0 <= d < base /\ c = dg d) buf
    /\ (0 <= xx -> number base (rev buf) = xx /\ Forall (fun c => exists d, 0 <= d < base /\ c = dg d) buf)
    /\ (sign = true -> xx < 0 -> exists ds, buf = ds ++ [45]).
Proof.
  intros Hdg Hx Hb. unfold int_buf.
  assert (forall x, 0 <= x < 4294967296 -> 0 <= x < base ^ Z.of_nat 14) as Hpow.
  { intros x ?. split; [lia|]. assert (5 ^ 14 <= base ^ 14) by (apply Z.pow_le_mono_l; lia). cbn in *. lia. }
  assert (forall ds, Forall (fun c => exists d, 0 <= d < base /\ c = dg d) ds -> Forall (fun c => c = 45 \/ exists d, 0 <= d < base /\ c = dg d) ds) as Hor.
  { intros ds Hds. eapply Forall_impl; [exact Hds|]. by right. }
  destruct (sign && (xx <? 0)) eqn:E.
  - apply andb_true_iff in E as [-> E].
    destruct (digits_loop_ok dg base 13 (u32 (- xx)) [] 17 Hdg) as (ds & -> & Hl & Hn & Hds);
      [lia|apply Hpow, u32_bound|cbn; lia|lia|].
    cbn [app mbind option_bind]. unfold buf_put. rewrite (proj2 (Nat.ltb_lt _ 16)) by lia. eexists. split; [done|].
    rewrite length_app, rev_app_distr. cbn [length rev app value]. rewrite Z.eqb_refl. split; [lia|].
    split; [rewrite Hn, u32_small by lia; lia|].
    split; [apply Forall_app; split; [by apply Hor|by constructor; [left|]]|split; [lia|eauto]].
  - destruct (digits_loop_ok dg base 13 (u32 xx) [] 17 Hdg) as (ds & -> & Hl & Hn & Hds);
      [lia|apply Hpow, u32_bound|cbn; lia|lia|].
    eexists. split; [done|]. cbn [app]. split; [lia|]. rewrite (value_digits dg); [|done|lia|by apply Forall_rev]. rewrite Hn.
    split; [destruct sign; [apply u32_small; cbn in E; lia|done]|]. split; [by apply Hor|].
    split; [intros ?; by rewrite u32_small by lia|]. intros -> Hneg. cbn in E. lia.
Qed.

(** ** [atoi] *)

Lemma atoi_from_digits l n rest :
  Forall (fun c => 48 <= c <= 57) l -> 0 <= n -> fold_left (fun n c => n * 10 + dval c) l n < 2147483648 ->
  atoi_from n (l ++ 0 :: rest) = Some (fold_left (fun n c => n * 10 + dval c) l n).
Proof.
  revert n. induction l as [|c l IH]; intros n Hl Hn Hlt; [done|]. apply Forall_cons in Hl as [Hc Hl]. cbn in *.
  rewrite (proj2 (Z.leb_le 48 c)), (proj2 (Z.leb_le c 57)) by lia. cbn [andb].
  assert (dval c = c - 48) as Hd by (unfold dval; rewrite (proj2 (Z.leb_le 48 c)), (proj2 (Z.leb_le c 57)) by lia; done).
  assert (forall l n, Forall (fun c => 48 <= c <= 57) l -> 0 <= n -> n <= fold_left (fun n c => n * 10 + dval c) l n) as Hmono.
  { clear. induction l as [|c l IH]; intros n Hl Hn; cbn; [lia|]. apply Forall_cons in Hl as [Hc Hl].
    assert (0 <= dval c) by (unfold dval; rewrite (proj2 (Z.leb_le 48 c)), (proj2 (Z.leb_le c 57)) by lia; cbn; lia).
    etransitivity; [|apply IH; [done|lia]]. lia. }
  pose proof (Hmono l (n * 10 + dval c) Hl ltac:(lia)). rewrite Hd in *.
  rewrite s32_small by lia. replace (n * 10 + c - 48) with (n * 10 + (c - 48)) by lia. apply IH; [done|lia|done].
Qed.

(** C10. [printint] of the kernel and of the user library, for every [int] and every base from 5 to 16 (the
    sources use 10 and 16): at most 15 of the 16 bytes of [buf] are used, and the characters printed are a
    numeral of [xx], or of [xx] as a [uint] without [sign], the least [int] included. What the user library
    prints in decimal for a number that is not negative is what its [atoi] reads back; for a negative one [atoi] stops at
    the sign and gives 0. *)
Theorem printint_bounds xx base sign :
  -2147483648 <= xx < 2147483648 -> 5 <= base <= 16 ->
  (exists buf, printint_buf xx base sign = Some buf /\ (1 <= length buf <= 15)%nat
     /\ value base (rev buf) = (if sign then xx else u32 xx))
  /\ (exists buf, uprintint_buf xx base sign = Some buf /\ (1 <= length buf <= 15)%nat
     /\ value base (rev buf) = (if sign then xx else u32 xx))
  /\ (0 <= xx -> exists buf, uprintint_buf xx 10 sign = Some buf /\ forall rest, atoi (rev buf ++ 0 :: rest) = Some xx)
  /\ (xx < 0 -> exists buf, uprintint_buf xx 10 true = Some buf /\ forall rest, atoi (rev buf ++ 0 :: rest) = Some 0).
Proof.
  intros Hx Hb. split; [|split; [|split]].
  - destruct (int_buf_ok digit xx base sign digit_table Hx Hb) as (buf & ? & ? & ? & _). by exists buf.
  - destruct (int_buf_ok udigit xx base sign udigit_table Hx Hb) as (buf & ? & ? & ? & _). by exists buf.
  - intros Hpos. destruct (int_buf_ok udigit xx 10 sign udigit_table Hx ltac:(lia)) as (buf & ? & _ & _ & _ & Hd & _).
    destruct (Hd Hpos) as [Hn Hds]. exists buf. split; [done|]. intros rest. rewrite <- Hn at 1.
    apply atoi_from_digits; [|lia|unfold number in Hn; lia]. apply Forall_rev. eapply Forall_impl; [exact Hds|].
    intros c (d & Hd10 & ->). destruct (udigit_table d) as (_ & _ & Hv); [lia|]. rewrite Hv by lia. lia.
  - intros Hneg. destruct (int_buf_ok udigit xx 10 true udigit_table Hx ltac:(lia)) as (buf & ? & _ & _ & _ & _ & Hs).
    destruct (Hs eq_refl Hneg) as [ds ->]. exists (ds ++ [45]). split; [done|]. intros rest. by rewrite rev_app_distr.
Qed.

Lemma printint_bounds_witness :
  (exists buf, printint_buf (-2147483648) 10 true = Some buf /\ (1 <= length buf <= 15)%nat
     /\ value 10 (rev buf) = -2147483648) /\
  (exists buf, uprintint_buf (-2147483648) 10 true = Some buf /\ forall rest, atoi (rev buf ++ 0 :: rest) = Some 0) /\
  (exists buf, uprintint_buf 2147483647 16 false = Some buf /\ (1 <= length buf <= 15)%nat
     /\ value 16 (rev buf) = 2147483647) /\
  (exists buf, uprintint_buf 2147483647 10 false = Some buf /\ forall rest, atoi (rev buf ++ 0 :: rest) = Some 2147483647).
Proof.
  destruct (printint_bounds (-2147483648) 10 true ltac:(lia) ltac:(lia)) as (H1 & _ & _ & H2).
  destruct (printint_bounds 2147483647 16 false ltac:(lia) ltac:(lia)) as (_ & H3 & H4 & _).
  split; [exact H1|]. split; [apply H2; lia|]. split; [exact H3|]. apply H4. lia.
Defined.

(** In base 4 the least [int] would not fit. *)
Lemma printint_base4 : printint_buf (-2147483648) 4 true = None.
Proof. vm_compute. reflexivity. Qed.
