(* ===== verification/Grep.v ===== *)
(** * grep (user/grep.c)

    The matcher is equivalent to a denotation of its regular expressions, and [grep] prints the lines
    that match. *)

From Stdlib Require Import Ascii String.
From S2P Require Import Prelude Types Monad KString Print Ulib.

Definition CARET : Z := 94.
Definition DOLLAR : Z := 36.
Definition DOT : Z := 46.
Definition STAR : Z := 42.
Definition NL : Z := 10.

(** ** The matcher: expression and text are C strings, without their terminator *)

(** [matchstar c re text], [here] being [matchhere(re, _)]. *)
Fixpoint matchstar (here : list Z -> bool) (c : Z) (text : list Z) : bool :=
  here text ||
  match text with
  | [] => false
  | x :: text' => ((x =? c) || (c =? DOT)) && matchstar here c text'
  end.

Fixpoint matchhere (re text : list Z) : bool :=
  match re with
  | [] => true
  | c :: re1 =>
      let plain :=
        match text with
        | [] => false
        | x :: text' => ((c =? DOT) || (c =? x)) && matchhere re1 text'
        end in
      match re1 with
      | [] => if c =? DOLLAR then match text with [] => true | _ => false end else plain
      | c1 :: re2 => if c1 =? STAR then matchstar (matchhere re2) c text else plain
      end
  end.

(** [do ... while( *text++ != 0)]: the empty suffix is tried too. *)
Fixpoint match_anywhere (re text : list Z) : bool :=
  matchhere re text || match text with [] => false | _ :: text' => match_anywhere re text' end.

Definition match_re (re text : list Z) : bool :=
  match re with
  | c :: re' => if c =? CARET then matchhere re' text else match_anywhere re text
  | [] => match_anywhere re text
  end.

(** ** grep *)

Definition BUFSZ : nat := 1024.

Section grep.
Context {W : Type} {sys : Syscalls W}.

Definition lift {A} (o : option A) : M W A := match o with Some x => ret x | None => fault end.

(** [while((q = strchr(p, newline)) != 0)]: where [p] stops, and the buffer. A line that matches gets its newline
    back, one that does not keeps the terminator. *)
Fixpoint grep_lines (fuel : nat) (re buf : list Z) (p : nat) : M W (nat * list Z) :=
  match fuel with
  | O => nofuel
  | S fuel =>
      r <- lift (strchr (drop p buf) NL) ;;
      match r with
      | None => ret (p, buf)
      | Some k =>
          let q := (p + k)%nat in
          if match_re re (take k (drop p buf)) then
            call (u_write 1 (take (S k) (drop p buf))) ;;
            grep_lines fuel re buf (S q)
          else grep_lines fuel re (<[q := 0]> buf) (S q)
      end
  end.

(** The loop over [read]; [m] bytes of [buf] are in use. *)
Fixpoint grep_loop (fuel : nat) (re : list Z) (fd : Z) (buf : list Z) (m : nat) : M W (list Z) :=
  match fuel with
  | O => nofuel
  | S fuel =>
      r <- call (u_read fd (BUFSZ - m)) ;;
      match r with
      | None | Some [] => ret buf
      | Some l =>
          let buf := splice buf m l in
          let m := (m + length l)%nat in
          let* (p, buf) := grep_lines (S BUFSZ) re buf 0 in
          let m := if (p =? 0)%nat then 0%nat else m in
          if (0 <? m)%nat then
            buf <- lift (umemmove buf 0 p (Z.of_nat (m - p))) ;;
            grep_loop fuel re fd buf (m - p)
          else grep_loop fuel re fd buf m
      end
  end.

(** [fuel] bounds the number of reads; the buffer is kept from one file to the next. *)
Definition grep (fuel : nat) (re : list Z) (fd : Z) (buf : list Z) : M W (list Z) := grep_loop fuel re fd buf 0.

Fixpoint grep_files (fuel : nat) (re : list Z) (files : list (list Z)) (buf : list Z) : M W unit :=
  match files with
  | [] => uexit
  | f :: files =>
      fd <- call (u_open f 0) ;;
      if fd <? 0 then uprintf 1 (bytes_of "grep: cannot open %s" ++ [NL]) [VStr (Some f)] ;; uexit else
      buf <- grep fuel re fd buf ;;
      call (u_close fd) ;;
      grep_files fuel re files buf
  end.

Definition zero_grep_buf : list Z := replicate BUFSZ 0.

Definition grep_main (fuel : nat) (argv : list (list Z)) : M W unit :=
  match argv with
  | [] | [_] => uprintf 2 (bytes_of "usage: grep pattern [file ...]" ++ [NL]) [] ;; uexit
  | [_; re] => grep fuel re 0 zero_grep_buf ;; uexit
  | _ :: re :: files => grep_files fuel re files zero_grep_buf
  end.
End grep.

(** ** Regular expressions *)

(** One item of an expression: a character or [.], starred or not. *)
Inductive item := One (c : Z) | Star (c : Z).

(** The items of an expression, and whether it ends in [$]. *)
Fixpoint parse (re : list Z) : list item * bool :=
  match re with
  | [] => ([], false)
  | c :: re1 =>
      let plain := let '(l, e) := parse re1 in (One c :: l, e) in
      match re1 with
      | [] => if c =? DOLLAR then ([], true) else plain
      | c1 :: re2 => if c1 =? STAR then let '(l, e) := parse re2 in (Star c :: l, e) else plain
      end
  end.

Definition accepts (c x : Z) : Prop := c = DOT \/ x = c.

(** The strings an item and a sequence of items stand for. *)
Definition item_lang (i : item) (t : list Z) : Prop :=
  match i with
  | One c => exists x, t = [x] /\ accepts c x
  | Star c => Forall (accepts c) t
  end.

Fixpoint lang (l : list item) (t : list Z) : Prop :=
  match l with
  | [] => t = []
  | i :: l => exists t1 t2, t = t1 ++ t2 /\ item_lang i t1 /\ lang l t2
  end.

(** The text has an occurrence of the expression: at its start if that begins with [^], at its end if that ends
    in [$]. *)
Definition re_matches (re text : list Z) : Prop :=
  let '(at_start, body) := match re with c :: re' => if c =? CARET then (true, re') else (false, re) | [] => (false, []) end in
  let '(l, at_end) := parse body in
  exists pre mid post, text = pre ++ mid ++ post /\ lang l mid /\
    (at_start = true -> pre = []) /\ (at_end = true -> post = []).

Definition here_spec (re text : list Z) : Prop :=
  exists mid post, text = mid ++ post /\ lang (fst (parse re)) mid /\ (snd (parse re) = true -> post = []).

Lemma accepts_spec c x : (x =? c) || (c =? DOT) = true <-> accepts c x.
Proof. unfold accepts. rewrite orb_true_iff, !Z.eqb_eq. tauto. Qed.

Lemma matchstar_spec here c text :
  matchstar here c text = true <-> exists t1 t2, text = t1 ++ t2 /\ Forall (accepts c) t1 /\ here t2 = true.
Proof.
  induction text as [|x text IH]; cbn [matchstar].
  - rewrite orb_false_r. split.
    + intros H. by exists [], [].
    + intros ([|? ?] & [|? ?] & [=] & _ & H). done.
  - rewrite orb_true_iff, andb_true_iff, accepts_spec, IH. split.
    + intros [H|(Hx & t1 & t2 & -> & H1 & H2)]; [by exists [], (x :: text)|].
      exists (x :: t1), t2. split; [done|]. split; [by constructor|done].
    + intros (t1 & t2 & E & H1 & H2). destruct t1 as [|y t1]; [left; by rewrite E|right].
      injection E as -> ->. apply Forall_cons in H1 as [Hx H1]. split; [done|]. by exists t1, t2.
Qed.

(** The step of the proof below for an expression that starts with a plain character. *)
Lemma plain_spec c re1 text (here1 : list Z -> bool) :
  (forall t, here1 t = true <-> here_spec re1 t) ->
  match text with [] => false | x :: text' => ((c =? DOT) || (c =? x)) && here1 text' end = true <->
  exists mid post, text = mid ++ post /\ lang (One c :: fst (parse re1)) mid /\ (snd (parse re1) = true -> post = []).
Proof.
  intros Hh. destruct text as [|x text].
  - split; [done|]. intros (mid & post & E & (t1 & t2 & -> & (x & -> & _) & _) & _). done.
  - rewrite andb_true_iff, orb_comm, (Z.eqb_sym c x), accepts_spec, Hh. split.
    + intros (Ha & mid & post & -> & Hl & Hp). exists (x :: mid), post. split; [done|]. split; [|done].
      exists [x], mid. split; [done|]. split; [by exists x|done].
    + intros (mid & post & E & (t1 & t2 & -> & (y & -> & Hy) & Hl) & Hp). injection E as -> ->.
      split; [done|]. by exists t2, post.
Qed.

Lemma here_spec_eq re text l e :
  parse re = (l, e) ->
  here_spec re text <-> exists mid post, text = mid ++ post /\ lang l mid /\ (e = true -> post = []).
Proof. intros E. unfold here_spec. by rewrite E. Qed.

Lemma matchhere_spec re text : matchhere re text = true <-> here_spec re text.
Proof.
  revert text. induction re as [re IH] using (induction_ltof1 _ (@length Z)). unfold ltof in IH. intros text.
  destruct re as [|c re1]; [split; [intros _; by exists [], text|done]|].
  assert (forall t, matchhere re1 t = true <-> here_spec re1 t) as H1 by (apply IH; cbn; lia).
  destruct re1 as [|c1 re2].
  - cbn [matchhere]. destruct (c =? DOLLAR) eqn:Ec.
    + rewrite (here_spec_eq _ _ [] true) by (cbn; by rewrite Ec). destruct text as [|x text]; split; try done.
      * intros _. by exists [], [].
      * intros (mid & post & E & -> & Hp). by rewrite Hp in E.
    + rewrite (here_spec_eq _ _ [One c] false) by (cbn; by rewrite Ec). by apply (plain_spec c [] text (matchhere [])).
  - cbn [matchhere]. destruct (c1 =? STAR) eqn:Ec.
    + rewrite (here_spec_eq _ _ (Star c :: fst (parse re2)) (snd (parse re2)))
        by (cbn [parse]; rewrite Ec; by destruct (parse re2)).
      rewrite matchstar_spec. split.
      * intros (t1 & t2 & -> & Hf & Hh). apply IH in Hh as (mid & post & -> & Hl & Hp); [|cbn; lia].
        exists (t1 ++ mid), post. split; [by rewrite app_assoc|]. split; [|done]. by exists t1, mid.
      * intros (mid & post & -> & (t1 & t2 & -> & Hf & Hl) & Hp). exists t1, (t2 ++ post).
        split; [by rewrite app_assoc|]. split; [done|]. apply IH; [cbn; lia|]. by exists t2, post.
    + rewrite (here_spec_eq _ _ (One c :: fst (parse (c1 :: re2))) (snd (parse (c1 :: re2))))
        by (cbn [parse] in *; rewrite Ec; by destruct (match re2 with [] => _ | _ => _ end)).
      by apply (plain_spec c (c1 :: re2) text (matchhere (c1 :: re2))).
Qed.

Lemma match_anywhere_spec re text :
  match_anywhere re text = true <-> exists pre rest, text = pre ++ rest /\ here_spec re rest.
Proof.
  induction text as [|x text IH]; cbn [match_anywhere]; rewrite orb_true_iff, matchhere_spec.
  - split.
    + intros [H|H]; [by exists [], []|done].
    + intros (pre & rest & E & H). left. by destruct pre, rest.
  - rewrite IH. split.
    + intros [H|(pre & rest & -> & H)]; [by exists [], (x :: text)|by exists (x :: pre), rest].
    + intros ([|y pre] & rest & E & H); [left; by rewrite E|right]. injection E as -> ->. by exists pre, rest.
Qed.

(** C34. grep's matcher decides the language of its regular expressions: [match] succeeds exactly when the text has
    an occurrence of the expression, read as a sequence of characters, dots and starred characters, anchored at
    the start by [^] and at the end by a final [$]. *)
Theorem match_decides_re re text : match_re re text = true <-> re_matches re text.
Proof.
  assert (forall re, match_anywhere re text = true <->
    exists pre mid post, text = pre ++ mid ++ post /\ lang (fst (parse re)) mid /\ (false = true -> pre = []) /\
      (snd (parse re) = true -> post = [])) as Hany.
  { intros r. rewrite match_anywhere_spec. split.
    - intros (pre & rest & -> & mid & post & -> & Hl & Hp). by exists pre, mid, post.
    - intros (pre & mid & post & -> & Hl & _ & Hp). exists pre, (mid ++ post). split; [done|]. by exists mid, post. }
  unfold match_re, re_matches. destruct re as [|c re]; [exact (Hany [])|]. destruct (c =? CARET).
  - rewrite matchhere_spec. unfold here_spec. destruct (parse re) as [l e]. cbn. split.
    + intros (mid & post & -> & Hl & Hp). by exists [], mid, post.
    + intros (pre & mid & post & -> & Hl & Hs & Hp). rewrite Hs by done. by exists mid, post.
  - rewrite Hany. by destruct (parse (c :: re)).
Qed.

(** ** What grep prints *)

(** A world with one input, delivered by successive reads, and a record of what is written. *)
Record stream := Stream { s_in : list (list Z); s_writes : list (Z * list Z) }.

Definition stream_read (n : nat) (w : stream) : option (list Z) * stream :=
  match s_in w with
  | [] => (Some [], w)
  | c :: cs => (Some (take n c), Stream (if (length c <=? n)%nat then cs else drop n c :: cs) (s_writes w))
  end.

Lemma stream_read_le n w l w' : stream_read n w = (Some l, w') -> (length l <= n)%nat.
Proof.
  unfold stream_read. destruct (s_in w); intros [= <- _]; [cbn; lia|]. rewrite length_take. lia.
Qed.

#[export] Instance stream_calls : Syscalls stream := {|
  u_read := fun _ n w => stream_read n w;
  u_write := fun fd l w => (Z.of_nat (length l), Stream (s_in w) (s_writes w ++ [(fd, l)]));
  u_open := fun _ _ w => (-1, w);
  u_close := fun _ w => (-1, w);
  u_fstat := fun _ w => (None, w);
  u_link := fun _ _ w => (-1, w);
  u_mkdir := fun _ w => (-1, w);
  u_unlink := fun _ w => (-1, w);
  u_kill := fun _ w => (-1, w);
  u_read_le := fun _ => stream_read_le
|}.

(** A line, and a text of lines. *)
Definition line_ok (l : list Z) : Prop := Forall (fun c => c <> 0 /\ c <> NL) l.
Definition text_of (ls : list (list Z)) : list Z := concat (map (fun l => l ++ [NL]) ls).
Definition printed (re : list Z) (ls : list (list Z)) : list (Z * list Z) :=
  map (fun l => (1, l ++ [NL])) (List.filter (match_re re) ls).
Definition wrote (w : stream) (l : list (Z * list Z)) : stream := Stream (s_in w) (s_writes w ++ l).

Lemma strchr_line l rest : line_ok l -> strchr (l ++ NL :: rest) NL = Some (Some (length l)).
Proof.
  induction l as [|c l IH]; [done|]. intros [[H1 H2] Hl]%Forall_cons. cbn [app strchr].
  apply Z.eqb_neq in H1 as ->. apply Z.eqb_neq in H2 as ->. by rewrite IH.
Qed.

Lemma strchr_end l rest : line_ok l -> strchr (l ++ 0 :: rest) NL = Some None.
Proof.
  induction l as [|c l IH]; [done|]. intros [[H1 H2] Hl]%Forall_cons. cbn [app strchr].
  apply Z.eqb_neq in H1 as ->. apply Z.eqb_neq in H2 as ->. by rewrite IH.
Qed.

Lemma take_line (l : list Z) rest : take (S (length l)) (l ++ NL :: rest) = l ++ [NL].
Proof. induction l as [|c l IH]; cbn; [done|]. by rewrite <- IH. Qed.

Lemma grep_lines_spec re ls t rest pre fuel w :
  Forall line_ok ls -> line_ok t -> (length ls < fuel)%nat ->
  exists pre', length pre' = (length pre + length (text_of ls))%nat /\
    grep_lines fuel re (pre ++ text_of ls ++ t ++ 0 :: rest) (length pre) w =
      Ret (length pre', pre' ++ t ++ 0 :: rest) (wrote w (printed re ls)).
Proof.
  revert pre fuel w. induction ls as [|l ls IH]; intros pre fuel w Hls Ht Hf.
  { exists pre. split; [cbn; lia|]. destruct fuel as [|fuel]; [lia|]. cbn [grep_lines]. unfold bind at 1.
    change (text_of [] ++ t ++ 0 :: rest) with (t ++ 0 :: rest).
    rewrite drop_app_length, (strchr_end _ _ Ht). cbn. destruct w. unfold wrote. cbn. by rewrite app_nil_r. }
  apply Forall_cons in Hls as [Hl Hls]. destruct fuel as [|fuel]; [lia|]. cbn [grep_lines length] in *.
  assert (text_of (l :: ls) ++ t ++ 0 :: rest = l ++ NL :: text_of ls ++ t ++ 0 :: rest) as ->
    by (unfold text_of; cbn; by rewrite <- !app_assoc).
  unfold bind at 1. rewrite drop_app_length, (strchr_line _ _ Hl). cbn [lift ret].
  rewrite take_app_length. unfold printed. cbn [List.filter].
  assert (forall x, pre ++ l ++ x :: text_of ls ++ t ++ 0 :: rest = (pre ++ l ++ [x]) ++ text_of ls ++ t ++ 0 :: rest)
    as Hre by (intros; by rewrite <- !app_assoc).
  assert (forall x : Z, length (pre ++ l ++ [x]) = S (length pre + length l)) as Hlen
    by (intros; rewrite !length_app; cbn; lia).
  destruct (match_re re l) eqn:Em.
  - unfold bind at 1, call. cbn [u_write stream_calls].
    destruct (IH (pre ++ l ++ [NL]) fuel (wrote w [(1, l ++ [NL])]) Hls Ht ltac:(lia)) as (pre' & Hp & E).
    exists pre'. split; [rewrite Hp, Hlen; unfold text_of; cbn; rewrite !length_app; cbn; lia|].
    rewrite Hre, <- (Hlen NL).
    replace (take (S (length l)) (l ++ NL :: text_of ls ++ t ++ 0 :: rest)) with (l ++ [NL]).
    2: { symmetry. exact (take_line l (text_of ls ++ t ++ 0 :: rest)). }
    refine (eq_trans E _). unfold wrote. cbn. by rewrite <- app_assoc.
  - destruct (IH (pre ++ l ++ [0]) fuel w Hls Ht ltac:(lia)) as (pre' & Hp & E).
    exists pre'. split; [rewrite Hp, Hlen; unfold text_of; cbn; rewrite !length_app; cbn; lia|].
    rewrite insert_app_r, <- (Nat.add_0_r (length l)), insert_app_r. cbn [insert list_insert].
    rewrite Nat.add_0_r, Hre, <- (Hlen 0). exact E.
Qed.

Lemma first_read buf d :
  length buf = BUFSZ -> buf !! length d = Some 0 -> splice buf 0 d = d ++ 0 :: drop (S (length d)) buf.
Proof. intros Hl H. unfold splice. rewrite take_0. cbn [app Nat.add]. by rewrite (drop_S _ _ _ H). Qed.

Lemma length_text ls : (length ls <= length (text_of ls))%nat.
Proof.
  induction ls as [|l ls IH]; [done|]. unfold text_of in *. cbn. rewrite !length_app. cbn. lia.
Qed.

(** C35. On an input of fewer than 1024 bytes without NUL that one [read] delivers into a buffer that has a NUL where
    the input ends (the zeroed buffer of the first file has), grep writes exactly the lines that match, in order and each
    with its newline. Only the lines that end in a newline count: the text after the last one is not looked at. *)
Theorem grep_prints re fd ls t buf0 fuel :
  Forall line_ok ls -> line_ok t -> text_of ls ++ t <> [] -> length buf0 = BUFSZ ->
  buf0 !! length (text_of ls ++ t) = Some 0 -> (2 <= fuel)%nat ->
  exists buf, grep fuel re fd buf0 (Stream [text_of ls ++ t] []) = Ret buf (Stream [] (printed re ls)).
Proof.
  intros Hls Ht Hne Hl0 Hz Hf. pose proof (lookup_lt_Some _ _ _ Hz) as Hlen. rewrite Hl0 in Hlen.
  destruct fuel as [|[|fuel]]; [lia..|]. unfold grep. cbn [grep_loop]. unfold bind at 1, call at 1.
  cbn [u_read stream_calls]. unfold stream_read at 1. cbn [s_in s_writes]. rewrite Nat.sub_0_r, take_ge by lia.
  replace (length (text_of ls ++ t) <=? BUFSZ)%nat with true by (symmetry; apply Nat.leb_le; lia).
  destruct (text_of ls ++ t) as [|c d] eqn:E; [done|]. rewrite <- E in *. rewrite first_read, <- app_assoc by done.
  destruct (grep_lines_spec re ls t (drop (S (length (text_of ls ++ t))) buf0) [] (S BUFSZ) (Stream [] []) Hls Ht)
    as (pre & Hp & EL).
  { pose proof (length_text ls). rewrite length_app in Hlen. lia. }
  cbn [app length Nat.add] in EL, Hp. unfold bind at 1. rewrite EL. cbn [Nat.add].
  set (buf := pre ++ t ++ 0 :: _). set (m := if (length pre =? 0)%nat then 0%nat else length (text_of ls ++ t)).
  destruct (0 <? m)%nat eqn:Em; [|by exists buf]. unfold umemmove. rewrite Nat2Z.id.
  assert (m <= length (text_of ls ++ t))%nat as Hm by (subst m; destruct (length pre =? 0)%nat; lia).
  assert (length (text_of ls ++ t) <= length buf)%nat as Hb by (subst buf; rewrite !length_app in *; cbn; lia).
  assert (length pre <= length (text_of ls ++ t))%nat as Hpl by (rewrite length_app; lia).
  rewrite (copy_up_eq buf buf 0 (length pre) (m - length pre)); [|done|lia..|done]. by eexists.
Qed.

Lemma grep_prints_witness :
  exists buf, grep 2 (bytes_of "^a*b$") 0 zero_grep_buf (Stream [text_of (map bytes_of ["aab"; "ab "; "b"]) ++ bytes_of "ab"] [])
    = Ret buf (Stream [] [(1, bytes_of "aab" ++ [NL]); (1, bytes_of "b" ++ [NL])]).
Proof.
  apply (grep_prints (bytes_of "^a*b$") 0 (map bytes_of ["aab"; "ab "; "b"]) (bytes_of "ab") zero_grep_buf 2); [| |done| | |lia].
  - by apply (bool_decide_unpack _).
  - by apply (bool_decide_unpack _).
  - apply length_replicate.
  - apply lookup_replicate_2. cbn. unfold BUFSZ. lia.
Defined.

(** Bytes of an earlier read that a shorter one does not overwrite are searched again: the line [bbb], read
    once, is printed twice. *)
Lemma grep_prints_stale_bytes :
  match grep 3 (bytes_of "b") 0 zero_grep_buf (Stream [text_of (map bytes_of ["abb"; "bbb"]); text_of [bytes_of "c"]] []) with
  | Ret _ w => s_writes w = map (fun l => (1, bytes_of l ++ [NL])) ["abb"; "bbb"; "b"; "bbb"]
  | _ => False
  end.
Proof. vm_compute. done. Qed.

(** The part of a line that comes without its newline is dropped when the read has no other newline. *)
Lemma grep_drops_split_line :
  match grep 3 (bytes_of "ab") 0 zero_grep_buf (Stream [bytes_of "a"; text_of [bytes_of "b"]] []) with
  | Ret _ w => s_writes w = []
  | _ => False
  end.
Proof. vm_compute. done. Qed.

(** A full buffer has no room for a terminator, and the search for a newline runs past its end. *)
Lemma grep_overruns_buffer :
  match grep 3 (bytes_of "x") 0 zero_grep_buf (Stream [replicate BUFSZ 97] []) with Fault _ => True | _ => False end.
Proof. vm_compute. done. Qed.
