(* ===== verification/Sh.v ===== *)
(** * The shell's parser (user/sh.c)

    A pointer into the command line is the text from it to the end of the line, [es]. The
    state of the parser is the cursor [*ps]; [panic] ends the process with its message. *)

From Stdlib Require Import Ascii String.
From S2P Require Import Prelude Types Monad KString Print Ulib.

(** A pointer into the line. *)
Definition ptr : Type := list Z.

(** [struct cmd] and the structures it stands for; the two strings of a pair are where a word starts and
    ends. *)
Inductive cmd :=
| EXEC (argv : list (ptr * ptr))
| REDIR (c : cmd) (file efile : ptr) (mode fd : Z)
| PIPE (left right : cmd)
| LIST (left right : cmd)
| BACK (c : cmd).

Definition MAXARGS : nat := 10.
Definition O_WRONLY : Z := 1.
Definition O_CREATE : Z := 512.

Definition SPACE : Z := 32.
Definition whitespace : list Z := [32; 9; 13; 10; 11].
Definition BAR : Z := 124.
Definition LPAREN : Z := 40.
Definition RPAREN : Z := 41.
Definition SEMI : Z := 59.
Definition AMP : Z := 38.
Definition LESS : Z := 60.
Definition GREATER : Z := 62.
Definition symbols : list Z := [LESS; BAR; GREATER; AMP; SEMI; LPAREN; RPAREN].
(** The token [gettoken] returns for a word, and for [>>]. *)
Definition WORD : Z := 97.
Definition APPEND : Z := 43.

Definition mem (c : Z) (l : list Z) : bool := existsb (Z.eqb c) l.
Definition is_space (c : Z) : bool := mem c whitespace.
Definition word_char (c : Z) : bool := negb (is_space c) && negb (mem c symbols).

Fixpoint skip (f : Z -> bool) (s : ptr) : ptr :=
  match s with
  | c :: s' => if f c then skip f s' else s
  | [] => []
  end.

(** The part of [gettoken] from [ret = *s] on: the token and where it ends. *)
Definition scan_token (s : ptr) : Z * ptr :=
  match s with
  | [] => (0, [])
  | c :: s1 =>
      if mem c [BAR; LPAREN; RPAREN; SEMI; AMP; LESS] then (c, s1)
      else if c =? GREATER then
        match s1 with
        | c1 :: s2 => if c1 =? GREATER then (APPEND, s2) else (c, s1)
        | [] => (c, s1)
        end
      else (WORD, skip word_char s)
  end.

Definition P (A : Type) : Type := M ptr A.
Definition cursor : P ptr := gets (fun s => s).
Definition set_cursor (s : ptr) : P unit := modify (fun _ => s).

(** The token, [*q] and [*eq]. *)
Definition gettoken : P (Z * ptr * ptr) :=
  s <- cursor ;;
  let q := skip is_space s in
  let '(tok, eq) := scan_token q in
  set_cursor (skip is_space eq) ;;
  ret (tok, q, eq).

Definition peek (toks : list Z) : P bool :=
  s <- cursor ;;
  let s := skip is_space s in
  set_cursor s ;;
  ret match s with [] => false | c :: _ => mem c toks end.

(** A redirection [parseredirs] wraps around its command: file, mode, descriptor. *)
Definition redir : Type := ptr * ptr * Z * Z.
Definition wrap (c : cmd) (rs : list redir) : cmd :=
  foldl (fun c '(q, eq, mode, fd) => REDIR c q eq mode fd) c rs.

(** What [parseredirs] adds, innermost first. The command it is given is a pointer to a structure that
    [parseexec] goes on filling in, so it is wrapped at the end. *)
Fixpoint redirs_loop (fuel : nat) (acc : list redir) : P (list redir) :=
  match fuel with
  | O => nofuel
  | S fuel =>
      b <- peek [LESS; GREATER] ;;
      if negb b then ret acc else
      let* (tok, _, _) := gettoken in
      let* (tok2, q, eq) := gettoken in
      if negb (tok2 =? WORD) then panic "missing file for redirection" else
      if tok =? LESS then redirs_loop fuel (acc ++ [(q, eq, O_RDONLY, 0)])
      else if tok =? GREATER then redirs_loop fuel (acc ++ [(q, eq, Z.lor O_WRONLY O_CREATE, 1)])
      else if tok =? APPEND then redirs_loop fuel (acc ++ [(q, eq, Z.lor O_WRONLY O_CREATE, 1)])
      else redirs_loop fuel acc
  end.

(** Every turn of the loop takes a character, so the length of the line is fuel enough. *)
Definition parseredirs : P (list redir) := s <- cursor ;; redirs_loop (S (length s)) [].

(** The loop of [parseexec]: [k] counts down from [MAXARGS] to the panic. *)
Fixpoint args_loop (k : nat) (argv : list (ptr * ptr)) (rs : list redir) : P (list (ptr * ptr) * list redir) :=
  b <- peek [BAR; RPAREN; AMP; SEMI] ;;
  if b then ret (argv, rs) else
  let* (tok, q, eq) := gettoken in
  if tok =? 0 then ret (argv, rs) else
  if negb (tok =? WORD) then panic "syntax" else
  match k with
  | S (S _ as k) =>
      rs' <- parseredirs ;;
      args_loop k (argv ++ [(q, eq)]) (rs ++ rs')
  | _ => panic "too many args"
  end.

(** [while(peek(ps, es, "&"))]. *)
Fixpoint back_loop (fuel : nat) (c : cmd) : P cmd :=
  match fuel with
  | O => nofuel
  | S fuel =>
      b <- peek [AMP] ;;
      if b then gettoken ;; back_loop fuel (BACK c) else ret c
  end.

Definition parseback (c : cmd) : P cmd := s <- cursor ;; back_loop (S (length s)) c.

Fixpoint parseline (fuel : nat) : P cmd :=
  match fuel with
  | O => nofuel
  | S fuel =>
      c <- parsepipe fuel ;;
      c <- parseback c ;;
      b <- peek [SEMI] ;;
      if b then gettoken ;; r <- parseline fuel ;; ret (LIST c r) else ret c
  end
with parsepipe (fuel : nat) : P cmd :=
  match fuel with
  | O => nofuel
  | S fuel =>
      c <- parseexec fuel ;;
      b <- peek [BAR] ;;
      if b then gettoken ;; r <- parsepipe fuel ;; ret (PIPE c r) else ret c
  end
with parseblock (fuel : nat) : P cmd :=
  match fuel with
  | O => nofuel
  | S fuel =>
      b <- peek [LPAREN] ;;
      if negb b then panic "parseblock" else
      gettoken ;;
      c <- parseline fuel ;;
      b <- peek [RPAREN] ;;
      if negb b then panic "syntax - missing )" else
      gettoken ;;
      rs <- parseredirs ;;
      ret (wrap c rs)
  end
with parseexec (fuel : nat) : P cmd :=
  match fuel with
  | O => nofuel
  | S fuel =>
      b <- peek [LPAREN] ;;
      if b then parseblock fuel else
      rs <- parseredirs ;;
      let* (argv, rs) := args_loop MAXARGS [] rs in
      ret (wrap (EXEC argv) rs)
  end.

(** ** NUL-terminating the words *)

(** [*p = 0], in the buffer that holds the line and its terminator. *)
Definition poke (len : nat) (p : ptr) (buf : list Z) : option (list Z) := store buf (len - length p) 0.

Fixpoint poke_all (len : nat) (ps : list ptr) (buf : list Z) : option (list Z) :=
  match ps with
  | [] => Some buf
  | p :: ps => buf' ← poke len p buf; poke_all len ps buf'
  end.

Fixpoint nulterminate (len : nat) (c : cmd) (buf : list Z) : option (list Z) :=
  match c with
  | EXEC argv => poke_all len (map snd argv) buf
  | REDIR c _ efile _ _ => buf' ← nulterminate len c buf; poke len efile buf'
  | PIPE l r | LIST l r => buf' ← nulterminate len l buf; nulterminate len r buf'
  | BACK c => nulterminate len c buf
  end.

(** Four calls at most are active for a character of the line. *)
Definition parse_fuel (s : list Z) : nat := 4 * length s + 4.

(** [parsecmd] on the string [s]: the command and what the buffer holds. With ["leftovers"] the shell prints
    the text from the cursor on before it panics with ["syntax"]. *)
Definition parsecmd (s : list Z) : P (cmd * list Z) :=
  set_cursor s ;;
  c <- parseline (parse_fuel s) ;;
  peek [] ;;
  rest <- cursor ;;
  if negb (bool_decide (rest = [])) then panic "leftovers" else
  match nulterminate (length s) c (s ++ [0]) with
  | Some buf => ret (c, buf)
  | None => fault
  end.

(** ** What a command means once its words are strings *)

Inductive tree :=
| TExec (argv : list (list Z))
| TRedir (t : tree) (file : list Z) (mode fd : Z)
| TPipe (left right : tree)
| TList (left right : tree)
| TBack (t : tree).

(** The string at a pointer into the buffer. *)
Definition string_in (len : nat) (buf : list Z) (p : ptr) : list Z := cstr len (drop (len - length p) buf).

Fixpoint view (len : nat) (buf : list Z) (c : cmd) : tree :=
  match c with
  | EXEC argv => TExec (map (fun w => string_in len buf (fst w)) argv)
  | REDIR c file _ mode fd => TRedir (view len buf c) (string_in len buf file) mode fd
  | PIPE l r => TPipe (view len buf l) (view len buf r)
  | LIST l r => TList (view len buf l) (view len buf r)
  | BACK c => TBack (view len buf c)
  end.
