(* ===== verification/ShProps.v ===== *)
(** * The shell's parser: totality, and parsing what is printed (user/sh.c) *)

From Stdlib Require Import Ascii String.
From S2P Require Import Prelude Types Monad KString Print Ulib Sh.

(** ** Every line is parsed or refused *)

(** [m] returns as [Q] says or panics; it does not fault and has fuel enough. *)
Definition safe {A} (m : P A) (s : ptr) (Q : A -> ptr -> Prop) : Prop :=
  match m s with Ret a s' => Q a s' | Panic _ _ => True | _ => False end.

Lemma safe_bind {A B} (m : P A) (f : A -> P B) s Q R :
  safe m s Q -> (forall a s', Q a s' -> safe (f a) s' R) -> safe (bind m f) s R.
Proof. unfold safe, bind. intros Hm Hf. destruct (m s); try done. by apply Hf. Qed.

Lemma safe_ret {A} (a : A) s (Q : A -> ptr -> Prop) : Q a s -> safe (ret a) s Q.
Proof. done. Qed.

Lemma safe_mono {A} (m : P A) s (Q R : A -> ptr -> Prop) : safe m s Q -> (forall a s', Q a s' -> R a s') -> safe m s R.
Proof. unfold safe. destruct (m s); auto. Qed.

Lemma safe_cursor {B} (f : ptr -> P B) s R : safe (f s) s R -> safe (bind cursor f) s R.
Proof. done. Qed.

Lemma skip_split f s : exists w, s = w ++ skip f s /\ Forall (fun c => f c = true) w.
Proof.
  induction s as [|c s (w & E & Hw)]; cbn; [by exists []|]. destruct (f c) eqn:Ef; [|by exists []].
  exists (c :: w). split; [cbn; by f_equal|by constructor].
Qed.

Lemma skip_head f s c r : skip f s = c :: r -> f c = false.
Proof.
  induction s as [|x s IH]; [done|]. cbn. destruct (f x) eqn:E; [done|]. by intros [= <- _].
Qed.

Lemma skip_suffix f s : skip f s `suffix_of` s.
Proof. destruct (skip_split f s) as (w & E & _). by exists w. Qed.

Lemma suffix_length_le (s s' : ptr) : s' `suffix_of` s -> (length s' <= length s)%nat.
Proof. apply suffix_length. Qed.

(** A word of the line [l]: from [fst] to [snd], as long as it can be. *)
Record word_of (l : ptr) (w : ptr * ptr) (x : list Z) : Prop := {
  wo_split : fst w = x ++ snd w;
  wo_chars : Forall (fun c => word_char c = true) x;
  wo_ne : x <> [];
  wo_end : forall c r, snd w = c :: r -> word_char c = false;
  wo_in : fst w `suffix_of` l
}.
Definition word_ok (l : ptr) (w : ptr * ptr) : Prop := exists x, word_of l w x.

Definition redir_ok (mode fd : Z) : Prop := (mode = O_RDONLY /\ fd = 0) \/ (mode = Z.lor O_WRONLY O_CREATE /\ fd = 1).

Fixpoint cmd_ok (l : ptr) (c : cmd) : Prop :=
  match c with
  | EXEC argv => Forall (word_ok l) argv /\ (length argv < MAXARGS)%nat
  | REDIR c file efile mode fd => cmd_ok l c /\ word_ok l (file, efile) /\ redir_ok mode fd
  | PIPE a b | LIST a b => cmd_ok l a /\ cmd_ok l b
  | BACK c => cmd_ok l c
  end.

(** What [gettoken] gives from [s]. *)
Definition token_post (l s : ptr) (a : Z * ptr * ptr) (s' : ptr) : Prop :=
  let '(tok, q, eq) := a in
  s' `suffix_of` s /\ (tok <> 0 -> (length s' < length s)%nat) /\ (tok = WORD -> word_ok l (q, eq)) /\
  (skip is_space s <> [] -> (length s' < length s)%nat).

Lemma scan_token_cases s :
  let '(tok, eq) := scan_token s in
  eq `suffix_of` s /\ (tok <> 0 -> s <> []) /\ (s <> [] -> (length eq < length s)%nat \/ (tok = WORD /\ is_space (hd 0 s) = true)) /\
  (tok = WORD -> eq = skip word_char s /\ mem (hd 0 s) symbols = false).
Proof.
  destruct s as [|c s1]; [cbn; repeat split; try done; by exists []|]. cbn [scan_token].
  destruct (mem c [BAR; LPAREN; RPAREN; SEMI; AMP; LESS]) eqn:E1.
  { split; [by exists [c]|]. split; [done|]. split; [intros _; left; cbn; lia|]. intros ->. done. }
  destruct (c =? GREATER) eqn:E2.
  { apply Z.eqb_eq in E2 as ->. destruct s1 as [|c1 s2]; [|destruct (c1 =? GREATER)].
    - split; [by exists [GREATER]|]. split; [done|]. split; [intros _; left; cbn; lia|done].
    - split; [by exists [GREATER; c1]|]. split; [done|]. split; [intros _; left; cbn; lia|done].
    - split; [by exists [GREATER]|]. split; [done|]. split; [intros _; left; cbn; lia|done]. }
  assert (mem c symbols = false) as Hs.
  { unfold mem, symbols in *. cbn [existsb] in *. rewrite E2. rewrite !orb_false_iff in *. tauto. }
  split; [apply skip_suffix|]. split; [done|]. split; [|done]. intros _. cbn [skip hd]. unfold word_char at 1.
  rewrite Hs. destruct (is_space c); [right; done|left]. cbn. pose proof (suffix_length_le _ _ (skip_suffix word_char s1)). lia.
Qed.

Lemma gettoken_safe l s : s `suffix_of` l -> safe gettoken s (token_post l s).
Proof.
  intros Hl. unfold gettoken. apply safe_cursor. pose proof (scan_token_cases (skip is_space s)) as H.
  destruct (scan_token (skip is_space s)) as [tok eq]. destruct H as (H1 & H2 & H3 & H4). cbn.
  pose proof (skip_suffix is_space s) as Hq. pose proof (skip_suffix is_space eq) as He.
  assert (skip is_space s <> [] -> (length (skip is_space eq) < length s)%nat) as Hlt.
  { intros Hn. apply suffix_length_le in Hq, He. destruct (H3 Hn) as [?|[_ Hs]]; [lia|].
    destruct (skip is_space s) as [|c r] eqn:E; [done|]. cbn [hd] in Hs. by rewrite (skip_head _ _ _ _ E) in Hs. }
  split; [by etrans; [|etrans]|]. split; [auto|]. split; [|done].
  intros Ht. destruct (H4 Ht) as [-> Hs]. destruct (skip_split word_char (skip is_space s)) as (x & E & Hx).
  exists x. split; cbn; [done|done| |by apply skip_head|by etrans].
  intros ->. cbn in E. assert (tok <> 0) as Hnz by (rewrite Ht; done).
  destruct (skip is_space s) as [|c r] eqn:Ec; [by apply H2 in Hnz|].
  pose proof (skip_head _ _ _ _ Ec) as Hsp. symmetry in E. apply skip_head in E. unfold word_char in E.
  cbn [hd] in Hs. by rewrite Hs, Hsp in E.
Qed.

Lemma peek_safe toks s :
  safe (peek toks) s (fun b s' => s' = skip is_space s /\ (b = true -> s' <> [] /\ mem (hd 0 s') toks = true)).
Proof.
  unfold peek. apply safe_cursor. cbn. split; [done|]. destruct (skip is_space s); done.
Qed.

Lemma skip_idem f s : skip f (skip f s) = skip f s.
Proof.
  destruct (skip f s) as [|c r] eqn:E; [done|]. cbn. by rewrite (skip_head _ _ _ _ E).
Qed.

Lemma peek_then {B} toks (f : bool -> P B) l s R :
  s `suffix_of` l ->
  (forall b s', s' `suffix_of` l -> (length s' <= length s)%nat -> skip is_space s' = s' ->
     (b = true -> s' <> [] /\ mem (hd 0 s') toks = true) -> safe (f b) s' R) ->
  safe (bind (peek toks) f) s R.
Proof.
  intros Hl Hf. eapply safe_bind; [apply peek_safe|]. intros b s' [-> Hb]. pose proof (skip_suffix is_space s) as Hs.
  apply Hf; [by etrans|by apply suffix_length_le|apply skip_idem|done].
Qed.

Lemma token_then {B} (f : Z * ptr * ptr -> P B) l s R :
  s `suffix_of` l ->
  (forall tok q eq s', s' `suffix_of` l -> (length s' <= length s)%nat ->
     (tok <> 0 -> (length s' < length s)%nat) -> (tok = WORD -> word_ok l (q, eq)) ->
     (skip is_space s <> [] -> (length s' < length s)%nat) -> safe (f (tok, q, eq)) s' R) ->
  safe (bind gettoken f) s R.
Proof.
  intros Hl Hf. eapply safe_bind; [by apply (gettoken_safe l)|]. intros [[tok q] eq] s' (H1 & H2 & H3 & H4).
  apply Hf; [by etrans|by apply suffix_length_le|done..].
Qed.

Definition redir_in (l : ptr) (r : redir) : Prop :=
  let '(q, eq, mode, fd) := r in word_ok l (q, eq) /\ redir_ok mode fd.

(** What a parsing function leaves: a cursor further on in the line. *)
Definition moved (l s s' : ptr) : Prop := s' `suffix_of` l /\ (length s' <= length s)%nat.

Lemma redirs_safe l fuel s acc :
  s `suffix_of` l -> (length s < fuel)%nat -> Forall (redir_in l) acc ->
  safe (redirs_loop fuel acc) s (fun rs s' => Forall (redir_in l) rs /\ moved l s s').
Proof.
  revert s acc. induction fuel as [|fuel IH]; intros s acc Hs Hf Ha; [lia|]. cbn [redirs_loop].
  apply (peek_then _ _ l); [done|]. intros b s1 Hs1 Hl1 Hk1 Hb. destruct b; cbn [negb].
  2: { apply safe_ret. split; [done|]. by split. }
  destruct (Hb eq_refl) as [Hne _]. apply (token_then _ l); [done|]. intros tok q0 eq0 s2 Hs2 Hl2 _ _ Hlt2. rewrite Hk1 in Hlt2.
  specialize (Hlt2 Hne). apply (token_then _ l); [done|]. intros tok2 q eq s3 Hs3 Hl3 _ Hw _.
  destruct (tok2 =? WORD) eqn:E; [|done]. cbn [negb]. apply Z.eqb_eq in E. specialize (Hw E).
  assert (forall mode fd, redir_ok mode fd -> Forall (redir_in l) (acc ++ [(q, eq, mode, fd)])) as Hacc.
  { intros mode fd Hr. apply Forall_app. split; [done|]. apply Forall_singleton. by split. }
  assert (forall acc', Forall (redir_in l) acc' ->
    safe (redirs_loop fuel acc') s3 (fun rs s' => Forall (redir_in l) rs /\ moved l s s')) as Hgo.
  { intros acc' Hacc'. eapply safe_mono; [apply IH; [done|lia|done]|]. intros rs s' [H1 [H2 H3]]. split; [done|]. split; [done|lia]. }
  destruct (tok =? LESS); [apply Hgo, Hacc; by left|].
  destruct (tok =? GREATER); [apply Hgo, Hacc; by right|].
  destruct (tok =? APPEND); [apply Hgo, Hacc; by right|by apply Hgo].
Qed.

Lemma parseredirs_safe l s :
  s `suffix_of` l -> safe parseredirs s (fun rs s' => Forall (redir_in l) rs /\ moved l s s').
Proof. intros Hs. apply safe_cursor. apply redirs_safe; [done|lia|done]. Qed.

Lemma args_safe l k s argv rs :
  s `suffix_of` l -> (length argv + k = MAXARGS)%nat -> (0 < k)%nat -> Forall (word_ok l) argv -> Forall (redir_in l) rs ->
  safe (args_loop k argv rs) s (fun a s' =>
    Forall (word_ok l) (fst a) /\ (length (fst a) < MAXARGS)%nat /\ Forall (redir_in l) (snd a) /\ moved l s s').
Proof.
  revert s argv rs. induction k as [|k IH]; intros s argv rs Hs Hk Hpos Ha Hr; [lia|]. cbn [args_loop].
  apply (peek_then _ _ l); [done|]. intros b s1 Hs1 Hl1 _ _. destruct b.
  { apply safe_ret. cbn. split; [done|]. split; [lia|]. split; [done|]. by split. }
  apply (token_then _ l); [done|]. intros tok q eq s2 Hs2 Hl2 _ Hw _. destruct (tok =? 0).
  { apply safe_ret. cbn. split; [done|]. split; [lia|]. split; [done|]. split; [done|lia]. }
  destruct (tok =? WORD) eqn:E; [|done]. cbn [negb]. apply Z.eqb_eq in E. destruct k as [|k]; [done|].
  eapply safe_bind; [by apply (parseredirs_safe l)|]. intros rs' s3 [Hr' [Hs3 Hl3]].
  eapply safe_mono; [apply IH; [done| |lia| |by apply Forall_app]|].
  - rewrite length_app. cbn. lia.
  - apply Forall_app. split; [done|]. apply Forall_singleton. auto.
  - intros a s' (H1 & H2 & H3 & [H4 H5]). split; [done|]. split; [done|]. split; [done|]. split; [done|lia].
Qed.

Lemma back_safe l fuel s c :
  s `suffix_of` l -> (length s < fuel)%nat -> cmd_ok l c ->
  safe (back_loop fuel c) s (fun c' s' => cmd_ok l c' /\ moved l s s').
Proof.
  revert s c. induction fuel as [|fuel IH]; intros s c Hs Hf Hc; [lia|]. cbn [back_loop].
  apply (peek_then _ _ l); [done|]. intros b s1 Hs1 Hl1 Hk1 Hb. destruct b; [|apply safe_ret; split; [done|by split]].
  destruct (Hb eq_refl) as [Hne _]. apply (token_then _ l); [done|]. intros tok q eq s2 Hs2 _ _ _ Hlt. rewrite Hk1 in Hlt.
  specialize (Hlt Hne). eapply safe_mono; [apply IH; [done|lia|done]|]. intros c' s' [H1 [H2 H3]].
  split; [done|]. split; [done|lia].
Qed.

Lemma wrap_ok l c rs : cmd_ok l c -> Forall (redir_in l) rs -> cmd_ok l (wrap c rs).
Proof.
  revert c. induction rs as [|[[[q eq] mode] fd] rs IH]; intros c Hc Hr; [done|].
  apply Forall_cons in Hr as [[H1 H2] Hr]. cbn. by apply IH.
Qed.

Definition parses (l : ptr) (m : P cmd) (s : ptr) : Prop := safe m s (fun c s' => cmd_ok l c /\ moved l s s').

Lemma then_token {B} (f : P B) l s R :
  s `suffix_of` l -> skip is_space s = s -> s <> [] ->
  (forall s', s' `suffix_of` l -> (length s' < length s)%nat -> safe f s' R) ->
  safe (bind gettoken (fun _ => f)) s R.
Proof.
  intros Hs Hk Hne Hf. apply (token_then _ l); [done|]. intros tok q eq s' Hs' _ _ _ Hlt. rewrite Hk in Hlt. auto.
Qed.

Lemma parsers_safe l fuel :
  (forall s, s `suffix_of` l -> (4 * length s + 4 <= fuel)%nat -> parses l (parseline fuel) s) /\
  (forall s, s `suffix_of` l -> (4 * length s + 3 <= fuel)%nat -> parses l (parsepipe fuel) s) /\
  (forall s, s `suffix_of` l -> (4 * length s + 1 <= fuel)%nat -> parses l (parseblock fuel) s) /\
  (forall s, s `suffix_of` l -> (4 * length s + 2 <= fuel)%nat -> parses l (parseexec fuel) s).
Proof.
  induction fuel as [|fuel (IHl & IHp & IHb & IHe)]; [repeat split; intros; lia|].
  unfold parses in *. cbn [parseline parsepipe parseblock parseexec]. repeat split; intros s Hs Hf.
  - eapply safe_bind; [apply IHp; [done|lia]|]. intros c s1 [Hc [Hs1 Hl1]].
    eapply safe_bind; [apply safe_cursor, (back_safe l); [done|lia|done]|]. intros c2 s2 [Hc2 [Hs2 Hl2]].
    apply (peek_then _ _ l); [done|]. intros b s3 Hs3 Hl3 Hk3 Hb. destruct b; [|apply safe_ret; split; [done|split; [done|lia]]].
    apply (then_token _ l); [done|done|by apply Hb|]. intros s4 Hs4 Hl4.
    eapply safe_bind; [apply IHl; [done|lia]|]. intros r s5 [Hr [Hs5 Hl5]]. apply safe_ret. split; [done|]. split; [done|lia].
  - eapply safe_bind; [apply IHe; [done|lia]|]. intros c s1 [Hc [Hs1 Hl1]].
    apply (peek_then _ _ l); [done|]. intros b s3 Hs3 Hl3 Hk3 Hb. destruct b; [|apply safe_ret; split; [done|split; [done|lia]]].
    apply (then_token _ l); [done|done|by apply Hb|]. intros s4 Hs4 Hl4.
    eapply safe_bind; [apply IHp; [done|lia]|]. intros r s5 [Hr [Hs5 Hl5]]. apply safe_ret. split; [done|]. split; [done|lia].
  - apply (peek_then _ _ l); [done|]. intros b s1 Hs1 Hl1 Hk1 Hb. destruct b; [|done]. cbn [negb].
    apply (then_token _ l); [done|done|by apply Hb|]. intros s2 Hs2 Hl2.
    eapply safe_bind; [apply IHl; [done|lia]|]. intros c s3 [Hc [Hs3 Hl3]].
    apply (peek_then _ _ l); [done|]. intros b s4 Hs4 Hl4 Hk4 Hb4. destruct b; [|done]. cbn [negb].
    apply (then_token _ l); [done|done|by apply Hb4|]. intros s5 Hs5 Hl5.
    eapply safe_bind; [by apply (parseredirs_safe l)|]. intros rs s6 [Hr [Hs6 Hl6]].
    apply safe_ret. split; [by apply wrap_ok|]. split; [done|lia].
  - apply (peek_then _ _ l); [done|]. intros b s1 Hs1 Hl1 Hk1 Hb. destruct b.
    { eapply safe_mono; [apply IHb; [done|lia]|]. intros c s' [H1 [H2 H3]]. split; [done|]. split; [done|lia]. }
    eapply safe_bind; [by apply (parseredirs_safe l)|]. intros rs s2 [Hr [Hs2 Hl2]].
    eapply safe_bind; [apply (args_safe l); [done|done|unfold MAXARGS; lia|done|done]|]. intros [argv rs'] s3 (H1 & H2 & H3 & [H4 H5]). cbn [fst snd] in *.
    apply safe_ret. split; [by apply wrap_ok|]. split; [done|lia].
Qed.

(** ** NUL-termination *)

(** The words of a command, before they are strings of their own. *)
Definition word (w : ptr * ptr) : list Z := take (length (fst w) - length (snd w)) (fst w).

Fixpoint words_of (c : cmd) : tree :=
  match c with
  | EXEC argv => TExec (map word argv)
  | REDIR c file efile mode fd => TRedir (words_of c) (word (file, efile)) mode fd
  | PIPE l r => TPipe (words_of l) (words_of r)
  | LIST l r => TList (words_of l) (words_of r)
  | BACK c => TBack (words_of c)
  end.

Lemma word_eq l w x : word_of l w x -> word w = x.
Proof.
  intros [H _ _ _ _]. unfold word. rewrite H, length_app. replace (_ + _ - _)%nat with (length x) by lia. apply take_app_length.
Qed.

(** The line with some of its bytes, none of them in a word, set to zero. *)
Record cut (l buf : list Z) : Prop := {
  cut_len : length buf = S (length l);
  cut_word : forall i c, l !! i = Some c -> word_char c = true -> buf !! i = Some c;
  cut_last : buf !! length l = Some 0
}.

(** Where the words of a command end. *)
Fixpoint ends (c : cmd) : list ptr :=
  match c with
  | EXEC argv => map snd argv
  | REDIR c _ efile _ _ => ends c ++ [efile]
  | PIPE l r | LIST l r => ends l ++ ends r
  | BACK c => ends c
  end.

Lemma poke_all_app len ps qs buf :
  poke_all len (ps ++ qs) buf = b ← poke_all len ps buf; poke_all len qs b.
Proof.
  revert buf. induction ps as [|p ps IH]; intros buf; [done|]. cbn. destruct (poke len p buf); cbn; [apply IH|done].
Qed.

Lemma nulterminate_ends len c buf : nulterminate len c buf = poke_all len (ends c) buf.
Proof.
  revert buf. induction c as [argv|c IH f e m d|a IHa b IHb|a IHa b IHb|c IH]; intros buf; cbn [nulterminate ends].
  - done.
  - rewrite poke_all_app, IH. destruct (poke_all len (ends c) buf) as [b|]; cbn; [|done]. by destruct (poke len e b).
  - rewrite poke_all_app, IHa. destruct (poke_all len (ends a) buf); cbn; [apply IHb|done].
  - rewrite poke_all_app, IHa. destruct (poke_all len (ends a) buf); cbn; [apply IHb|done].
  - apply IH.
Qed.

(** A place where a word can end. *)
Definition stop (l : list Z) (p : ptr) : Prop := p `suffix_of` l /\ forall c r, p = c :: r -> word_char c = false.

Lemma suffix_lookup (l p : list Z) : p `suffix_of` l -> l !! (length l - length p)%nat = head p.
Proof.
  intros [k ->]. rewrite length_app, lookup_app_r by lia.
  replace (_ + _ - _ - _)%nat with 0%nat by lia. by destruct p.
Qed.

Lemma poke_cut l p buf :
  cut l buf -> stop l p ->
  exists buf', poke (length l) p buf = Some buf' /\ cut l buf' /\
    buf' !! (length l - length p)%nat = Some 0 /\ forall i, buf !! i = Some 0 -> buf' !! i = Some 0.
Proof.
  intros [H1 H2 H3] [Hs Hp]. unfold poke, store. rewrite decide_True by lia. eexists. split; [reflexivity|].
  assert (forall i, buf !! i = Some 0 -> <[(length l - length p)%nat := 0]> buf !! i = Some 0) as Hz.
  { intros i Hi. destruct (decide (i = length l - length p)%nat) as [->|Hne].
    - apply list_lookup_insert_eq. lia.
    - by rewrite list_lookup_insert_ne. }
  split; [|split; [apply list_lookup_insert_eq; lia|done]]. split.
  - by rewrite length_insert.
  - intros i c Hi Hc. rewrite list_lookup_insert_ne; [by apply H2|]. intros <-.
    rewrite (suffix_lookup l p Hs) in Hi. destruct p as [|x p]; [done|]. injection Hi as ->. by rewrite (Hp c p eq_refl) in Hc.
  - auto.
Qed.

Lemma poke_all_cut l ps buf :
  cut l buf -> Forall (stop l) ps ->
  exists buf', poke_all (length l) ps buf = Some buf' /\ cut l buf' /\
    (forall p, p ∈ ps -> buf' !! (length l - length p)%nat = Some 0) /\ forall i, buf !! i = Some 0 -> buf' !! i = Some 0.
Proof.
  revert buf. induction ps as [|p ps IH]; intros buf Hc Hp.
  { exists buf. split; [done|]. split; [done|]. split; [|done]. intros p Hin. by apply elem_of_nil in Hin. }
  apply Forall_cons in Hp as [Hp Hps]. destruct (poke_cut l p buf Hc Hp) as (b1 & E1 & Hc1 & Hz1 & Hk1).
  destruct (IH b1 Hc1 Hps) as (b2 & E2 & Hc2 & Hz2 & Hk2). exists b2. cbn. rewrite E1. split; [exact E2|]. split; [done|].
  split; [|auto]. intros q [->|Hq]%elem_of_cons; auto.
Qed.

Lemma word_stop l w : word_ok l w -> stop l (snd w).
Proof. intros (x & [H1 _ _ H4 H5]). split; [|done]. etrans; [|exact H5]. rewrite H1. by exists x. Qed.

Lemma ends_stop l c : cmd_ok l c -> Forall (stop l) (ends c).
Proof.
  induction c as [argv|c IH f e m d|a IHa b IHb|a IHa b IHb|c IH]; cbn [cmd_ok ends].
  - intros [H _]. apply Forall_map. eapply Forall_impl; [exact H|]. apply word_stop.
  - intros (Hc & Hw & _). apply Forall_app. split; [auto|]. apply Forall_singleton. by apply (word_stop l (f, e)).
  - intros [Ha Hb]. apply Forall_app. auto.
  - intros [Ha Hb]. apply Forall_app. auto.
  - auto.
Qed.

Lemma cstr_word n x rest : Forall (fun c => c <> 0) x -> (length x <= n)%nat -> cstr n (x ++ 0 :: rest) = x.
Proof.
  intros Hx. revert n. induction Hx as [|c x Hc Hx IH]; intros n Hn.
  - by destruct n.
  - destruct n as [|n]; [cbn in Hn; lia|]. cbn [app cstr]. apply Z.eqb_neq in Hc as ->. f_equal. apply IH. cbn in Hn. lia.
Qed.

(** A word that has been cut off is the string at its pointer. *)
Lemma string_word l buf w x :
  Forall (fun c => c <> 0) l -> cut l buf -> word_of l w x -> buf !! (length l - length (snd w))%nat = Some 0 ->
  string_in (length l) buf (fst w) = x.
Proof.
  intros Hnz [H1 H2 _] [W1 W2 _ _ [pre W5]] Hz. unfold string_in.
  assert (length l = length pre + length x + length (snd w))%nat as Hl by (rewrite W5, W1, !length_app; lia).
  rewrite W1, length_app. replace (length l - _)%nat with (length pre) by lia.
  replace (length l - length (snd w))%nat with (length pre + length x)%nat in Hz by lia.
  assert (drop (length pre) buf = x ++ 0 :: drop (S (length pre + length x)) buf) as ->.
  { rewrite <- (take_drop (length x) (drop (length pre) buf)). f_equal.
    - apply list_eq. intros i. destruct (decide (i < length x)%nat) as [Hi|Hi].
      + rewrite lookup_take_lt, lookup_drop by done. destruct (lookup_lt_is_Some_2 x i Hi) as [c Hc]. rewrite Hc.
        apply H2; [|by eapply Forall_lookup_1 in Hc; [|exact W2]].
        rewrite W5, W1, lookup_app_r by lia. replace (_ + _ - _)%nat with i by lia. by rewrite lookup_app_l.
      + rewrite lookup_take_ge by lia. symmetry. apply lookup_ge_None. lia.
    - rewrite drop_drop. by apply drop_S. }
  apply cstr_word; [|lia]. apply Forall_forall. intros c Hc. rewrite Forall_forall in Hnz. apply Hnz.
  rewrite W5, W1. set_solver.
Qed.

Lemma view_words l buf c :
  Forall (fun c => c <> 0) l -> cut l buf -> cmd_ok l c ->
  (forall p, p ∈ ends c -> buf !! (length l - length p)%nat = Some 0) -> view (length l) buf c = words_of c.
Proof.
  intros Hnz Hcut.
  assert (forall w, word_ok l w -> buf !! (length l - length (snd w))%nat = Some 0 -> string_in (length l) buf (fst w) = word w)
    as Hw.
  { intros w (x & Hx) Hz. rewrite (word_eq l w x Hx). by apply string_word. }
  induction c as [argv|c IH f e m d|a IHa b IHb|a IHa b IHb|c IH]; cbn [cmd_ok ends view words_of].
  - intros [Hok _] Hz. f_equal. apply map_ext_Forall. rewrite Forall_forall in *. intros w Hin.
    apply Hw; [auto|]. apply Hz. by apply list_elem_of_fmap_2.
  - intros (Hc & Hok & _) Hz. rewrite IH; [|done|set_solver]. f_equal. apply (Hw (f, e)); [done|]. apply Hz. set_solver.
  - intros [Ha Hb] Hz. rewrite IHa, IHb; [done|done|set_solver|done|set_solver].
  - intros [Ha Hb] Hz. rewrite IHa, IHb; [done|done|set_solver|done|set_solver].
  - intros Hc Hz. by rewrite IH.
Qed.

Lemma cut_start l : cut l (l ++ [0]).
Proof.
  split.
  - rewrite length_app. cbn. lia.
  - intros i c Hi _. rewrite lookup_app_l; [done|]. by eapply lookup_lt_Some.
  - by rewrite lookup_app_r, Nat.sub_diag.
Qed.

(** What [parsecmd] makes of a tree it has built. *)
Lemma nulterminate_words l c :
  Forall (fun c => c <> 0) l -> cmd_ok l c ->
  exists buf, nulterminate (length l) c (l ++ [0]) = Some buf /\ view (length l) buf c = words_of c.
Proof.
  intros Hnz Hok. rewrite nulterminate_ends.
  destruct (poke_all_cut l (ends c) (l ++ [0]) (cut_start l) (ends_stop l c Hok)) as (buf & E & Hc & Hz & _).
  exists buf. split; [done|]. by apply view_words.
Qed.


