(* ===== verification/ShPrint.v ===== *)
(** * Printing a command and parsing it back (user/sh.c) *)

From Stdlib Require Import Ascii String.
From S2P Require Import Prelude Types Monad KString Print Ulib Sh ShProps.

(** ** Printing *)

Inductive token := W (w : list Z) | Y (c : Z).

Definition tok_str (t : token) : list Z := match t with W w => w ++ [SPACE] | Y c => [c; SPACE] end.
Definition text (ts : list token) : list Z := concat (map tok_str ts).

Definition paren (b : bool) (ts : list token) : list token := if b then Y LPAREN :: ts ++ [Y RPAREN] else ts.

Definition redir_toks (file : list Z) (mode : Z) : list token := [Y (if mode =? O_RDONLY then LESS else GREATER); W file].

(** [lvl] is what the grammar allows at this place: 0 a line, 1 what [&] follows, 2 a pipe, 3 what is
    between two bars. Parentheses make up the difference. *)
Fixpoint toks (lvl : nat) (t : tree) : list token :=
  match t with
  | TExec argv => map W argv
  | TRedir t file mode fd => toks 3 t ++ redir_toks file mode
  | TPipe l r => paren (2 <? lvl)%nat (toks 3 l ++ Y BAR :: toks 2 r)
  | TBack t => paren (1 <? lvl)%nat (toks 1 t ++ [Y AMP])
  | TList l r => paren (0 <? lvl)%nat (toks 1 l ++ Y SEMI :: toks 0 r)
  end.

Definition print (t : tree) : list Z := text (toks 0 t).

Definition is_word (w : list Z) : Prop := w <> [] /\ Forall (fun c => word_char c = true /\ c <> 0) w.

(** The commands the shell can have: words are words, fewer than ten arguments, and the two kinds of
    redirection. *)
Fixpoint tree_ok (t : tree) : Prop :=
  match t with
  | TExec argv => Forall is_word argv /\ (length argv < MAXARGS)%nat
  | TRedir t file mode fd => tree_ok t /\ is_word file /\ redir_ok mode fd
  | TPipe l r | TList l r => tree_ok l /\ tree_ok r
  | TBack t => tree_ok t
  end.

(** ** The lexer on printed text *)

Definition tok_ok (t : token) : Prop := match t with W w => is_word w | Y c => mem c symbols = true end.
Definition code (t : token) : Z := match t with W _ => WORD | Y c => c end.

Lemma text_cons t ts : text (t :: ts) = tok_str t ++ text ts.
Proof. done. Qed.

Lemma word_char_split c : word_char c = true -> is_space c = false /\ mem c symbols = false.
Proof. unfold word_char. rewrite andb_true_iff, !negb_true_iff. done. Qed.

Lemma symbol_not_space c : mem c symbols = true -> is_space c = false.
Proof.
  unfold mem, symbols. cbn [existsb]. rewrite !orb_true_iff, !Z.eqb_eq.
  intros [->|[->|[->|[->|[->|[->|[->|?]]]]]]]; done.
Qed.

Lemma text_head ts c r : Forall tok_ok ts -> text ts = c :: r -> is_space c = false.
Proof.
  intros Hts. destruct ts as [|[w|y] ts]; [done| |]; apply Forall_cons in Hts as [Ht _].
  - destruct w as [|x w]; [by destruct Ht|]. intros [= <- _]. destruct Ht as [_ [[Hx _] _]%Forall_cons].
    by apply word_char_split.
  - intros [= <- _]. by apply symbol_not_space.
Qed.

Lemma skip_text ts : Forall tok_ok ts -> skip is_space (text ts) = text ts.
Proof.
  intros Hts. destruct (text ts) as [|c r] eqn:E; [done|]. cbn [skip]. by rewrite (text_head ts c r Hts E).
Qed.

Lemma skip_word w rest : Forall (fun c => word_char c = true /\ c <> 0) w -> skip word_char (w ++ SPACE :: rest) = SPACE :: rest.
Proof. induction 1 as [|c w [Hc _] Hw IH]; [done|]. cbn [app skip]. by rewrite Hc. Qed.

Lemma scan_text t ts : tok_ok t -> scan_token (text (t :: ts)) = (code t, SPACE :: text ts).
Proof.
  intros Ht. rewrite text_cons. destruct t as [w|y].
  - destruct Ht as [Hne Hw]. cbn [tok_str]. rewrite <- app_assoc. cbn [app]. pose proof (skip_word w (text ts) Hw) as Hs.
    destruct w as [|c w]; [done|]. cbn [app scan_token] in *. apply Forall_cons in Hw as [[Hc _] _].
    apply word_char_split in Hc as [_ Hc]. unfold mem, symbols in Hc. cbn [existsb] in Hc. rewrite !orb_false_iff in Hc.
    replace (mem c [BAR; LPAREN; RPAREN; SEMI; AMP; LESS]) with false
      by (symmetry; unfold mem; cbn [existsb]; rewrite !orb_false_iff; tauto).
    replace (c =? GREATER) with false by (symmetry; tauto). cbn [code]. by rewrite Hs.
  - cbn [tok_ok] in Ht. unfold mem, symbols in Ht. cbn [existsb] in Ht. rewrite !orb_true_iff, !Z.eqb_eq in Ht.
    destruct Ht as [->|[->|[->|[->|[->|[->|[->|?]]]]]]]; done.
Qed.

Lemma gettoken_text t ts :
  tok_ok t -> Forall tok_ok ts ->
  gettoken (text (t :: ts)) = Ret (code t, text (t :: ts), SPACE :: text ts) (text ts).
Proof.
  intros Ht Hts. unfold gettoken, bind, cursor, gets. rewrite (skip_text (t :: ts)) by by constructor.
  rewrite scan_text by done. cbn. by rewrite skip_text.
Qed.

(** Whether the next token is one of these symbols. *)
Definition starts (l : list Z) (ts : list token) : bool := match ts with Y c :: _ => mem c l | _ => false end.

Lemma peek_text l ts :
  (forall c, mem c l = true -> mem c symbols = true) -> Forall tok_ok ts ->
  peek l (text ts) = Ret (starts l ts) (text ts).
Proof.
  intros Hl Hts. unfold peek, bind, cursor, gets. rewrite skip_text by done. unfold set_cursor, modify, ret. f_equal.
  destruct ts as [|[w|y] ts]; [done| |done]. apply Forall_cons in Hts as [[Hne Hw] _]. destruct w as [|c w]; [done|].
  cbn. apply Forall_cons in Hw as [[Hc _] _]. apply word_char_split in Hc as [_ Hc].
  destruct (mem c l) eqn:E; [|done]. apply Hl in E. congruence.
Qed.

Lemma word_text w ts : word (text (W w :: ts), SPACE :: text ts) = w.
Proof.
  unfold word. rewrite text_cons. cbn [fst snd tok_str]. rewrite <- app_assoc. cbn [app]. rewrite length_app.
  replace (_ + _ - _)%nat with (length w) by lia. apply take_app_length.
Qed.

(** ** The parser on printed text *)

Definition tredir : Type := list Z * Z * Z.
Definition rtoks (rs : list tredir) : list token := concat (map (fun '(f, mode, _) => redir_toks f mode) rs).
Definition twrap (t : tree) (rs : list tredir) : tree := foldl (fun t '(f, mode, fd) => TRedir t f mode fd) t rs.
Definition rword (r : redir) : tredir := let '(q, eq, mode, fd) := r in (word (q, eq), mode, fd).
Definition tredir_ok (r : tredir) : Prop := let '(f, mode, fd) := r in is_word f /\ redir_ok mode fd.

Lemma words_wrap c rs : words_of (wrap c rs) = twrap (words_of c) (map rword rs).
Proof. revert c. induction rs as [|[[[q eq] mode] fd] rs IH]; intros c; [done|]. cbn. apply IH. Qed.

Lemma rtoks_ok rs : Forall tredir_ok rs -> Forall tok_ok (rtoks rs).
Proof.
  induction 1 as [|[[f mode] fd] rs [Hf Hm] Hrs IH]; [done|]. cbn. constructor; [|by constructor].
  destruct Hm as [[-> _]|[-> _]]; done.
Qed.

Lemma length_text_ge ts : (length ts <= length (text ts))%nat.
Proof.
  induction ts as [|t ts IH]; [done|]. rewrite text_cons, length_app. destruct t as [w|c]; cbn; [rewrite length_app; cbn|]; lia.
Qed.

Lemma symbols_sub l : forallb (fun c => mem c symbols) l = true -> forall c, mem c l = true -> mem c symbols = true.
Proof.
  intros H c Hc. rewrite forallb_forall in H. unfold mem at 1 in Hc. apply existsb_exists in Hc as (x & Hx & ->%Z.eqb_eq). auto.
Qed.

Lemma redirs_text rs k fuel acc :
  Forall tredir_ok rs -> Forall tok_ok k -> starts [LESS; GREATER] k = false -> (length rs < fuel)%nat ->
  exists rs', redirs_loop fuel acc (text (rtoks rs ++ k)) = Ret (acc ++ rs') (text k) /\ map rword rs' = rs.
Proof.
  intros Hrs Hk Hend. revert fuel acc. induction Hrs as [|[[f mode] fd] rs [Hf Hm] Hrs IH]; intros fuel acc Hfuel;
    destruct fuel as [|fuel]; cbn in Hfuel; try lia; cbn [redirs_loop]; unfold bind at 1.
  - exists []. split; [|done]. rewrite peek_text; [|by apply symbols_sub|done]. cbn [rtoks map concat app]. rewrite Hend, app_nil_r. done.
  - assert (Forall tok_ok (rtoks rs ++ k)) as Hrk by (apply Forall_app; split; [by apply rtoks_ok|done]).
    set (y := if mode =? O_RDONLY then LESS else GREATER).
    change (text (rtoks ((f, mode, fd) :: rs) ++ k)) with (text (Y y :: W f :: rtoks rs ++ k)).
    assert (y = LESS \/ y = GREATER) as Hy by (unfold y; destruct (mode =? O_RDONLY); auto).
    assert (tok_ok (Y y)) as Hoky by (destruct Hy as [->| ->]; done).
    rewrite peek_text; [|by apply symbols_sub|constructor; [done|by constructor]]. cbn [starts].
    replace (mem y [LESS; GREATER]) with true by (destruct Hy as [->| ->]; done). cbn [negb].
    unfold bind at 1. rewrite gettoken_text; [|done|by constructor]. unfold bind at 1. rewrite gettoken_text by done.
    cbn [code]. rewrite Z.eqb_refl. cbn [negb].
    destruct (IH fuel (acc ++ [(text (W f :: rtoks rs ++ k), SPACE :: text (rtoks rs ++ k), mode, fd)]) ltac:(lia)) as (rs' & E & Hw).
    exists ((text (W f :: rtoks rs ++ k), SPACE :: text (rtoks rs ++ k), mode, fd) :: rs'). split.
    + rewrite <- app_assoc in E. cbn [app] in E. destruct Hm as [[-> ->]|[-> ->]]; exact E.
    + cbn [map rword]. by rewrite word_text, Hw.
Qed.

Lemma parseredirs_text rs k :
  Forall tredir_ok rs -> Forall tok_ok k -> starts [LESS; GREATER] k = false ->
  exists rs', parseredirs (text (rtoks rs ++ k)) = Ret rs' (text k) /\ map rword rs' = rs.
Proof.
  intros Hrs Hk Hend. unfold parseredirs, bind, cursor, gets. apply (redirs_text rs k _ []); [done..|].
  pose proof (length_text_ge (rtoks rs ++ k)) as Hl. rewrite length_app in Hl.
  assert (length rs <= length (rtoks rs))%nat; [|lia]. clear. induction rs as [|[[f mode] fd] rs IH]; cbn; [lia|].
  unfold rtoks in *. lia.
Qed.

Definition stops (k : list token) : Prop := k = [] \/ starts [BAR; RPAREN; AMP; SEMI] k = true.

Lemma stops_no_redir k : stops k -> starts [LESS; GREATER] k = false.
Proof.
  intros [->|H]; [done|]. destruct k as [|[w|c] k]; [done|done|]. cbn [starts] in *. unfold mem in *. cbn [existsb] in *.
  rewrite !orb_true_iff, !Z.eqb_eq in H. destruct H as [->|[->|[->|[->|?]]]]; done.
Qed.

(** The loop of [parseexec] on words, the redirections after the last of them and the end. *)
Lemma args_text args rs k m acc rs0 :
  Forall is_word args -> (length args < m)%nat -> Forall tredir_ok rs -> (args = [] -> rs = []) -> Forall tok_ok k -> stops k ->
  exists acc' rs', args_loop m acc rs0 (text (map W args ++ rtoks rs ++ k)) = Ret (acc ++ acc', rs0 ++ rs') (text k) /\
    map word acc' = args /\ map rword rs' = rs.
Proof.
  intros Hargs Hm Hrs Hnil Hk Hstop. revert m acc rs0 Hm.
  induction Hargs as [|a args Ha Hargs IH] in rs, Hrs, Hnil |- *; intros m acc rs0 Hm; destruct m as [|m]; cbn in Hm; try lia.
  - rewrite Hnil by done. exists [], []. split; [|done]. rewrite !app_nil_r. cbn [map rtoks concat app args_loop]. unfold bind at 1.
    rewrite peek_text; [|by apply symbols_sub|done]. destruct Hstop as [->|Hs]; [done|]. by rewrite Hs.
  - assert (Forall tok_ok (map W args ++ rtoks rs ++ k)) as Hok.
    { apply Forall_app. split; [by apply Forall_map|]. apply Forall_app. split; [by apply rtoks_ok|done]. }
    cbn [map app args_loop]. unfold bind at 1. rewrite peek_text; [|by apply symbols_sub|by constructor]. cbn [starts].
    unfold bind at 1. rewrite gettoken_text by done. cbn [code]. change (WORD =? 0) with false. cbn [negb Z.eqb].
    rewrite Z.eqb_refl. cbn [negb]. destruct m as [|m]; [lia|]. unfold bind at 1.
    set (p := (text (W a :: map W args ++ rtoks rs ++ k), SPACE :: text (map W args ++ rtoks rs ++ k))) in *.
    assert (word p = a) as Hp by apply word_text. destruct args as [|b args].
    + destruct (parseredirs_text rs k Hrs Hk (stops_no_redir k Hstop)) as (rs1 & E1 & Hw1).
      cbn [map app]. rewrite E1. destruct (IH [] (Forall_nil_2 _) (fun _ => eq_refl) (S m) (acc ++ [p]) (rs0 ++ rs1) ltac:(cbn; lia))
        as (acc' & rs' & E & Ha' & Hr'). cbn [map rtoks concat app] in E. exists (p :: acc'), (rs1 ++ rs').
      split; [etrans; [exact E|]; by rewrite <- !app_assoc|]. cbn [map]. rewrite Hp, Ha', map_app, Hw1, Hr', app_nil_r. done.
    + destruct (parseredirs_text [] (map W (b :: args) ++ rtoks rs ++ k) (Forall_nil_2 _) Hok eq_refl) as (rs1 & E1 & Hw1).
      change (rtoks [] ++ ?x) with x in E1. rewrite E1. destruct rs1; [|done]. rewrite app_nil_r.
      destruct (IH rs Hrs ltac:(done) (S m) (acc ++ [p]) rs0 ltac:(cbn in *; lia)) as (acc' & rs' & E & Ha' & Hr').
      exists (p :: acc'), rs'. split; [etrans; [exact E|]; by rewrite <- app_assoc|]. cbn [map]. by rewrite Hp, Ha'.
Qed.

Lemma toks_ok lvl t : tree_ok t -> Forall tok_ok (toks lvl t).
Proof.
  assert (forall b ts, Forall tok_ok ts -> Forall tok_ok (paren b ts)) as Hp.
  { intros b ts H. destruct b; [|done]. cbn. constructor; [done|]. apply Forall_app. split; [done|]. by constructor. }
  assert (forall l c r, mem c symbols = true -> Forall tok_ok l -> Forall tok_ok r -> Forall tok_ok (l ++ Y c :: r)) as Ha.
  { intros l c r Hc Hl Hr. apply Forall_app. split; [done|]. by constructor. }
  revert lvl. induction t as [argv|t IH f m d|l IHl r IHr|l IHl r IHr|t IH]; intros lvl; cbn [tree_ok toks].
  - intros [H _]. by apply Forall_map.
  - intros (Ht & Hf & Hr). apply Ha; [|auto|by constructor]. by destruct (m =? O_RDONLY).
  - intros [Hl Hr]. apply Hp, Ha; auto.
  - intros [Hl Hr]. apply Hp, Ha; auto.
  - intros Ht. apply Hp, Ha; auto.
Qed.

Definition exec_text (t : tree) : Prop := forall rs k n,
  Forall tredir_ok rs -> Forall tok_ok k -> stops k -> (4 * length (toks 3 t) + 2 <= n)%nat ->
  exists c, parseexec n (text (toks 3 t ++ rtoks rs ++ k)) = Ret c (text k) /\ words_of c = twrap t rs.
Definition pipe_text (t : tree) : Prop := forall k n,
  Forall tok_ok k -> stops k -> starts [BAR] k = false -> (4 * length (toks 2 t) + 3 <= n)%nat ->
  exists c, parsepipe n (text (toks 2 t ++ k)) = Ret c (text k) /\ words_of c = t.
Definition back_text (t : tree) : Prop := forall k n,
  Forall tok_ok k -> stops k -> starts [BAR] k = false -> (4 * length (toks 1 t) + 3 <= n)%nat ->
  exists c, bind (parsepipe n) parseback (text (toks 1 t ++ k)) = parseback c (text k) /\ words_of c = t.
Definition line_text (t : tree) : Prop := forall k n,
  Forall tok_ok k -> k = [] \/ starts [RPAREN] k = true -> (4 * length (toks 0 t) + 4 <= n)%nat ->
  exists c, parseline n (text (toks 0 t ++ k)) = Ret c (text k) /\ words_of c = t.

Lemma bind_bind {A B C} (m : P A) (f : A -> P B) (g : B -> P C) s :
  bind m (fun x => bind (f x) g) s = bind (bind m f) g s.
Proof. unfold bind. by destruct (m s). Qed.

Lemma sym_tok c k : mem c symbols = true -> Forall tok_ok k -> Forall tok_ok (Y c :: k).
Proof. by constructor. Qed.

Lemma step_token {B} (f : P B) c k :
  mem c symbols = true -> Forall tok_ok k -> bind gettoken (fun _ => f) (text (Y c :: k)) = f (text k).
Proof. intros Hc Hk. unfold bind. by rewrite gettoken_text. Qed.

Lemma step_peek {B} l (f : bool -> P B) k b :
  forallb (fun c => mem c symbols) l = true -> Forall tok_ok k -> starts l k = b ->
  bind (peek l) f (text k) = f b (text k).
Proof. intros Hl Hk <-. unfold bind. rewrite peek_text; [done|by apply symbols_sub|done]. Qed.

Lemma back_fuel f1 f2 c s : (length s < f1)%nat -> (length s < f2)%nat -> back_loop f1 c s = back_loop f2 c s.
Proof.
  revert f2 c s. induction f1 as [|f1 IH]; intros [|f2] c s H1 H2; try lia. cbn [back_loop]. unfold bind.
  pose proof (peek_safe [AMP] s) as Hp. unfold safe in Hp. destruct (peek [AMP] s) as [b s1|?|?|?|]; try done.
  destruct Hp as [-> Hb]. destruct b; [|done]. destruct (Hb eq_refl) as [Hne _]. clear Hb.
  pose proof (gettoken_safe (skip is_space s) (skip is_space s) ltac:(done)) as Hg. unfold safe in Hg.
  destruct (gettoken (skip is_space s)) as [[[tok q] eq] s2|?|?|?|]; try done. destruct Hg as (_ & _ & _ & Hlt).
  rewrite skip_idem in Hlt. specialize (Hlt Hne). pose proof (suffix_length_le _ _ (skip_suffix is_space s)). apply IH; lia.
Qed.

Lemma back_amp c k : Forall tok_ok k -> parseback c (text (Y AMP :: k)) = parseback (BACK c) (text k).
Proof.
  intros Hk. change (back_loop (S (length (text (Y AMP :: k)))) c (text (Y AMP :: k)) = back_loop (S (length (text k))) (BACK c) (text k)).
  cbn [back_loop]. rewrite (step_peek _ _ _ true); [|done|by apply sym_tok|done].
  rewrite step_token by done. apply (back_fuel _ (S (length (text k)))); [|lia]. rewrite text_cons. cbn. lia.
Qed.

Lemma back_end c k : Forall tok_ok k -> starts [AMP] k = false -> parseback c (text k) = Ret c (text k).
Proof.
  intros Hk Hs. change (back_loop (S (length (text k))) c (text k) = Ret c (text k)). cbn [back_loop]. by rewrite (step_peek _ _ _ false).
Qed.

Lemma pipe_of_exec t : toks 2 t = toks 3 t -> exec_text t -> pipe_text t.
Proof.
  intros E He k n Hk Hs Hb Hn. rewrite E in *. destruct n as [|n]; [lia|]. cbn [parsepipe].
  destruct (He [] k n (Forall_nil_2 _) Hk Hs ltac:(lia)) as (c & Ec & Hw). exists c. split; [|done].
  unfold bind at 1. change (rtoks [] ++ k) with k in Ec. rewrite Ec. by rewrite (step_peek _ _ _ false).
Qed.

Lemma back_of_pipe t : toks 1 t = toks 2 t -> pipe_text t -> back_text t.
Proof.
  intros E Hp k n Hk Hs Hb Hn. rewrite E in *. destruct (Hp k n Hk Hs Hb Hn) as (c & Ec & Hw). exists c. split; [|done].
  unfold bind at 1. by rewrite Ec.
Qed.

Lemma rparen_stops k : k = [] \/ starts [RPAREN] k = true ->
  stops k /\ starts [BAR] k = false /\ starts [AMP] k = false /\ starts [SEMI] k = false.
Proof.
  intros [->|H]; [by repeat split; left|]. destruct k as [|[w|c] k]; [done|done|]. cbn [starts] in H. unfold mem in H.
  cbn [existsb] in H. rewrite orb_false_r in H. apply Z.eqb_eq in H as ->. split; [by right|done].
Qed.

Lemma line_of_back t : toks 0 t = toks 1 t -> back_text t -> line_text t.
Proof.
  intros E Hb k n Hk Hend Hn. rewrite E in *. destruct n as [|n]; [lia|]. cbn [parseline].
  destruct (rparen_stops k Hend) as (Hs & HB & HA & HS).
  destruct (Hb k n Hk Hs HB ltac:(lia)) as (c & Ec & Hw). exists c. split; [|done].
  rewrite bind_bind. unfold bind at 1. rewrite Ec, (back_end c k Hk HA). by rewrite (step_peek _ _ _ false).
Qed.

Lemma exec_of_line t : tree_ok t -> toks 3 t = paren true (toks 0 t) -> line_text t -> exec_text t.
Proof.
  intros Hok E Hl rs k n Hrs Hk Hs Hn. rewrite E in *. cbn [paren] in *. cbn [length] in Hn. rewrite length_app in Hn. cbn [length] in Hn.
  assert (Forall tok_ok (rtoks rs ++ k)) as H1 by (apply Forall_app; split; [by apply rtoks_ok|done]).
  assert (Forall tok_ok (Y RPAREN :: rtoks rs ++ k)) as H2 by by apply sym_tok.
  assert (Forall tok_ok (toks 0 t ++ Y RPAREN :: rtoks rs ++ k)) as H3 by (apply Forall_app; split; [by apply toks_ok|done]).
  replace ((Y LPAREN :: toks 0 t ++ [Y RPAREN]) ++ rtoks rs ++ k) with (Y LPAREN :: toks 0 t ++ Y RPAREN :: rtoks rs ++ k)
    by (cbn; by rewrite <- app_assoc).
  destruct n as [|[|n]]; [lia..|]. cbn [parseexec parseblock].
  rewrite (step_peek _ _ _ true); [|done|by apply sym_tok|done]. rewrite (step_peek _ _ _ true); [|done|by apply sym_tok|done].
  cbn [negb]. rewrite step_token by done.
  destruct (Hl (Y RPAREN :: rtoks rs ++ k) n H2 ltac:(by right) ltac:(lia)) as (c & Ec & Hw). unfold bind at 1. rewrite Ec.
  rewrite (step_peek _ _ _ true) by done. cbn [negb]. rewrite step_token by done.
  destruct (parseredirs_text rs k Hrs Hk (stops_no_redir k Hs)) as (rs' & Er & Hr). unfold bind. rewrite Er.
  exists (wrap c rs'). split; [done|]. by rewrite words_wrap, Hw, Hr.
Qed.

Lemma exec_text_words argv : tree_ok (TExec argv) -> exec_text (TExec argv).
Proof.
  intros [Hw Hlen] rs k n Hrs Hk Hs Hn. cbn [toks] in *. destruct n as [|n]; [lia|]. cbn [parseexec].
  assert (Forall tok_ok (rtoks rs ++ k)) as H1 by (apply Forall_app; split; [by apply rtoks_ok|done]).
  assert (Forall tok_ok (map W argv ++ rtoks rs ++ k)) as H2 by (apply Forall_app; split; [by apply Forall_map|done]).
  rewrite (step_peek _ _ _ false); [|done|done|].
  2: { destruct argv; [|done]. destruct rs as [|[[f m] d] rs]; cbn.
    - destruct Hs as [->|Hs]; [done|]. destruct k as [|[w|c] k]; [done..|]. cbn [starts] in *. unfold mem in *. cbn [existsb] in *.
      rewrite !orb_true_iff, !Z.eqb_eq in Hs. destruct Hs as [->|[->|[->|[->|?]]]]; done.
    - by destruct (m =? O_RDONLY). }
  destruct argv as [|a argv].
  - destruct (parseredirs_text rs k Hrs Hk (stops_no_redir k Hs)) as (rs1 & E1 & Hr1). cbn [map app]. unfold bind at 1. rewrite E1.
    destruct (args_text [] [] k MAXARGS [] rs1 Hw Hlen (Forall_nil_2 _) (fun _ => eq_refl) Hk Hs) as (acc & rs2 & E2 & Ha & Hr2).
    change (map W [] ++ rtoks [] ++ k) with k in E2. unfold bind. rewrite E2. eexists. split; [reflexivity|].
    rewrite words_wrap, map_app, Hr1, Hr2, app_nil_r. cbn [words_of app]. by rewrite Ha.
  - destruct (parseredirs_text [] (map W (a :: argv) ++ rtoks rs ++ k) (Forall_nil_2 _) H2 eq_refl) as (rs1 & E1 & Hr1).
    change (rtoks [] ++ ?x) with x in E1. unfold bind at 1. rewrite E1. destruct rs1; [|done].
    destruct (args_text (a :: argv) rs k MAXARGS [] [] Hw Hlen Hrs ltac:(done) Hk Hs) as (acc & rs2 & E2 & Ha & Hr2).
    unfold bind. rewrite E2. eexists. split; [reflexivity|]. rewrite words_wrap. cbn [app words_of]. by rewrite Ha, Hr2.
Qed.

Definition texts (t : tree) : Prop := exec_text t /\ pipe_text t /\ back_text t /\ line_text t.

(** From the level a tree is printed at without parentheses to the others. *)
Lemma texts_exec t : toks 2 t = toks 3 t -> toks 1 t = toks 2 t -> toks 0 t = toks 1 t -> exec_text t -> texts t.
Proof.
  intros E2 E1 E0 He. assert (pipe_text t) as Hp by by apply pipe_of_exec.
  assert (back_text t) as Hb by by apply back_of_pipe. split; [done|]. split; [done|]. split; [done|]. by apply line_of_back.
Qed.

Lemma texts_line t :
  tree_ok t -> toks 3 t = paren true (toks 0 t) -> toks 2 t = toks 3 t -> toks 1 t = toks 2 t -> line_text t -> texts t.
Proof.
  intros Hok E3 E2 E1 Hl. assert (exec_text t) as He by by apply exec_of_line.
  assert (pipe_text t) as Hp by by apply pipe_of_exec. split; [done|]. split; [done|]. split; [|done]. by apply back_of_pipe.
Qed.

Lemma texts_back t :
  tree_ok t -> toks 3 t = paren true (toks 0 t) -> toks 2 t = toks 3 t -> toks 0 t = toks 1 t -> back_text t -> texts t.
Proof.
  intros Hok E3 E2 E0 Hb. assert (line_text t) as Hl by by apply line_of_back.
  assert (exec_text t) as He by by apply exec_of_line. split; [done|]. split; [by apply pipe_of_exec|done].
Qed.

Lemma texts_pipe t :
  tree_ok t -> toks 3 t = paren true (toks 0 t) -> toks 1 t = toks 2 t -> toks 0 t = toks 1 t -> pipe_text t -> texts t.
Proof.
  intros Hok E3 E1 E0 Hp. assert (back_text t) as Hb by by apply back_of_pipe.
  assert (line_text t) as Hl by by apply line_of_back. split; [by apply exec_of_line|done].
Qed.

Lemma list_text l r : tree_ok r -> back_text l -> line_text r -> line_text (TList l r).
Proof.
  intros Hok Hl Hr k n Hk Hend Hn. cbn [toks paren Nat.ltb Nat.leb] in *. rewrite length_app in Hn. cbn [length] in Hn.
  destruct n as [|n]; [lia|]. cbn [parseline]. rewrite <- app_assoc. cbn [app].
  assert (Forall tok_ok (toks 0 r ++ k)) as H1 by (apply Forall_app; split; [by apply toks_ok|done]).
  assert (Forall tok_ok (Y SEMI :: toks 0 r ++ k)) as H2 by by apply sym_tok.
  destruct (Hl (Y SEMI :: toks 0 r ++ k) n H2 ltac:(by right) eq_refl ltac:(lia)) as (c & Ec & Hc).
  destruct (Hr k n Hk Hend ltac:(lia)) as (d & Ed & Hd). exists (LIST c d). split; [|cbn; by rewrite Hc, Hd].
  rewrite bind_bind. unfold bind at 1. rewrite Ec, back_end by done. rewrite (step_peek _ _ _ true) by done.
  rewrite step_token by done. unfold bind. by rewrite Ed.
Qed.

Lemma bar_text l r : tree_ok r -> exec_text l -> pipe_text r -> pipe_text (TPipe l r).
Proof.
  intros Hok Hl Hr k n Hk Hend Hb Hn. cbn [toks paren Nat.ltb Nat.leb] in *. rewrite length_app in Hn. cbn [length] in Hn.
  destruct n as [|n]; [lia|]. cbn [parsepipe]. rewrite <- app_assoc. cbn [app].
  assert (Forall tok_ok (toks 2 r ++ k)) as H1 by (apply Forall_app; split; [by apply toks_ok|done]).
  assert (Forall tok_ok (Y BAR :: toks 2 r ++ k)) as H2 by by apply sym_tok.
  destruct (Hl [] (Y BAR :: toks 2 r ++ k) n (Forall_nil_2 _) H2 ltac:(by right) ltac:(lia)) as (c & Ec & Hc).
  change (rtoks [] ++ ?x) with x in Ec.
  destruct (Hr k n Hk Hend Hb ltac:(lia)) as (d & Ed & Hd). exists (PIPE c d). split; [|cbn; by rewrite Hc, Hd].
  unfold bind at 1. rewrite Ec. rewrite (step_peek _ _ _ true) by done. rewrite step_token by done. unfold bind. by rewrite Ed.
Qed.

Lemma amp_text t : back_text t -> back_text (TBack t).
Proof.
  intros Hb k n Hk Hend HB Hn. cbn [toks paren Nat.ltb Nat.leb] in *. rewrite length_app in Hn. cbn [length] in Hn.
  rewrite <- app_assoc. cbn [app]. destruct (Hb (Y AMP :: k) n ltac:(by apply sym_tok) ltac:(by right) eq_refl ltac:(lia)) as (c & Ec & Hc).
  exists (BACK c). split; [|cbn; by rewrite Hc]. etrans; [exact Ec|]. by apply back_amp.
Qed.

Lemma redir_text t f m d : tree_ok (TRedir t f m d) -> exec_text t -> exec_text (TRedir t f m d).
Proof.
  intros (Ht & Hf & Hm) He rs k n Hrs Hk Hs Hn. cbn [toks] in *. rewrite length_app in Hn.
  destruct (He ((f, m, d) :: rs) k n ltac:(constructor; [by split|done]) Hk Hs ltac:(lia)) as (c & Ec & Hc).
  exists c. split; [|done]. rewrite <- app_assoc. exact Ec.
Qed.

Lemma all_texts t : tree_ok t -> texts t.
Proof.
  induction t as [argv|t IH f m d|l IHl r IHr|l IHl r IHr|t IH]; intros Hok.
  - by apply texts_exec; [..|apply exec_text_words].
  - apply texts_exec; [done..|]. apply redir_text; [done|]. apply IH, Hok.
  - destruct Hok as [Hl Hr]. apply texts_pipe; [done..|]. apply bar_text; [done|by apply IHl|by apply IHr].
  - destruct Hok as [Hl Hr]. apply texts_line; [done..|]. apply list_text; [done|by apply IHl|by apply IHr].
  - apply texts_back; [done..|]. apply amp_text. by apply IH.
Qed.

Lemma print_no_nul t : tree_ok t -> Forall (fun c => c <> 0) (print t).
Proof.
  intros Hok. unfold print. pose proof (toks_ok 0 t Hok) as Hts. induction Hts as [|k ts Hk Hts IH]; [constructor|].
  rewrite text_cons. apply Forall_app. split; [|done]. destruct k as [w|c]; cbn [tok_str tok_ok] in *.
  - apply Forall_app. split; [|by repeat constructor]. destruct Hk as [_ Hw]. eapply Forall_impl; [exact Hw|]. by intros c [_ ?].
  - constructor; [|by repeat constructor]. intros ->. done.
Qed.

(** C36. Parsing a printed command gives the command back: for every command of the shell's language
    (words, redirections, pipes, lists, background, with parentheses where the grammar needs them) [parsecmd] builds
    its tree, and the strings its pointers see after NUL-termination are the words. *)
Theorem parse_print t s0 :
  tree_ok t -> exists c buf, parsecmd (print t) s0 = Ret (c, buf) [] /\ view (length (print t)) buf c = t.
Proof.
  intros Hok. destruct (all_texts t Hok) as (_ & _ & _ & Hl).
  destruct (Hl [] (parse_fuel (print t)) (Forall_nil_2 _) ltac:(by left)) as (c & Ec & Hw).
  { unfold parse_fuel, print. pose proof (length_text_ge (toks 0 t)). lia. }
  rewrite app_nil_r in Ec. fold (print t) in Ec. pose proof (print_no_nul t Hok) as Hnz.
  assert (cmd_ok (print t) c) as Hc.
  { destruct (parsers_safe (print t) (parse_fuel (print t))) as [Hs _]. specialize (Hs (print t) ltac:(done) ltac:(done)).
    unfold parses, safe in Hs. rewrite Ec in Hs. apply Hs. }
  destruct (nulterminate_words (print t) c Hnz Hc) as (buf & En & Hv). exists c, buf. rewrite Hv, Hw. split; [|done].
  unfold parsecmd, set_cursor, modify, bind at 1. unfold bind at 1. rewrite Ec. cbn [text map concat]. unfold bind at 1.
  cbn. by rewrite En.
Qed.

Lemma parse_print_witness :
  let t := TList (TBack (TPipe (TExec [bytes_of "ls"; bytes_of "-l"]) (TRedir (TList (TExec [bytes_of "wc"]) (TExec [])) (bytes_of "f") 513 1)))
                 (TExec [bytes_of "echo"]) in
  exists c buf, parsecmd (bytes_of "ls -l | ( wc ; ) > f & ; echo ") [] = Ret (c, buf) [] /\ view 30 buf c = t.
Proof.
  refine (parse_print (TList (TBack (TPipe (TExec [bytes_of "ls"; bytes_of "-l"])
    (TRedir (TList (TExec [bytes_of "wc"]) (TExec [])) (bytes_of "f") 513 1))) (TExec [bytes_of "echo"])) [] _).
  cbn -[bytes_of]. unfold is_word, MAXARGS, redir_ok. repeat split; try (by apply (bool_decide_unpack _)); cbn; try lia.
Defined.
