(* ===== verification/ShRun.v ===== *)
(** * The shell's commands at work (user/sh.c)

    [runcmd] and [main] over a model of a process: its descriptors, its directory, and what the
    shell and its children have started and printed. A child runs from the [fork] that makes it to the program it
    starts or to its [exit]; which programs are started, and with which descriptors, does not depend on how the
    processes are scheduled after that. *)

From Stdlib Require Import Ascii String.
From S2P Require Import Prelude Types Monad KString Print Ulib Sh ShProps.

(** What a descriptor stands for. *)
Inductive obj := OConsole | OPipeR (n : nat) | OPipeW (n : nat) | OFile (path : list Z) (mode : Z).

(** A program started: its arguments and its descriptors. *)
Record started := Started { x_argv : list (list Z); x_fds : list (option obj) }.

Record shell := Shell {
  sh_fds : list (option obj);
  sh_dir : list Z;
  sh_pipes : nat;               (* pipes made so far *)
  sh_forks : nat;               (* processes that can still be made *)
  sh_in : list Z;               (* what is left of standard input *)
  sh_out : list (Z * list Z);   (* what has been written *)
  sh_execs : list started
}.

Definition set_fds (f : list (option obj)) (w : shell) : shell :=
  Shell f (sh_dir w) (sh_pipes w) (sh_forks w) (sh_in w) (sh_out w) (sh_execs w).
Definition set_dir (d : list Z) (w : shell) : shell :=
  Shell (sh_fds w) d (sh_pipes w) (sh_forks w) (sh_in w) (sh_out w) (sh_execs w).

(** What the file system allows. *)
Class Files := {
  can_open : list Z -> Z -> bool;
  can_exec : list Z -> bool;
  can_chdir : list Z -> list Z -> bool
}.

Section run.
Context {F : Files}.

(** ** System calls *)

Definition lowest (fds : list (option obj)) : option nat := fst <$> list_find (fun o => o = None) fds.

(** The lowest free descriptor, for [o]; -1 when there is none. *)
Definition fd_alloc (o : obj) (w : shell) : Z * shell :=
  match lowest (sh_fds w) with
  | Some i => (Z.of_nat i, set_fds (<[i := Some o]> (sh_fds w)) w)
  | None => (-1, w)
  end.

Definition fd_obj (fd : Z) (w : shell) : option obj := if fd <? 0 then None else mjoin (sh_fds w !! Z.to_nat fd).

Definition fd_close (fd : Z) (w : shell) : Z * shell :=
  match fd_obj fd w with
  | Some _ => (0, set_fds (<[Z.to_nat fd := None]> (sh_fds w)) w)
  | None => (-1, w)
  end.

Definition fd_dup (fd : Z) (w : shell) : Z * shell :=
  match fd_obj fd w with Some o => fd_alloc o w | None => (-1, w) end.

Definition fd_open (path : list Z) (mode : Z) (w : shell) : Z * shell :=
  if can_open path mode then fd_alloc (OFile path mode) w else (-1, w).

(** Both ends, or -1. *)
Definition fd_pipe (w : shell) : option (Z * Z) * shell :=
  let n := sh_pipes w in
  let w' := Shell (sh_fds w) (sh_dir w) (S n) (sh_forks w) (sh_in w) (sh_out w) (sh_execs w) in
  let '(p0, w1) := fd_alloc (OPipeR n) w' in
  if p0 <? 0 then (None, w) else
  let '(p1, w2) := fd_alloc (OPipeW n) w1 in
  if p1 <? 0 then (None, w) else (Some (p0, p1), w2).

(** Standard input gives what it is asked for while it lasts; [write] is recorded. *)
Definition sh_read (n : nat) (w : shell) : option (list Z) * shell :=
  (Some (take n (sh_in w)),
   Shell (sh_fds w) (sh_dir w) (sh_pipes w) (sh_forks w) (drop n (sh_in w)) (sh_out w) (sh_execs w)).

Lemma sh_read_le n w l w' : sh_read n w = (Some l, w') -> (length l <= n)%nat.
Proof. intros [= <- _]. rewrite length_take. lia. Qed.

#[export] Instance shell_calls : Syscalls shell := {|
  u_read := fun _ => sh_read;
  u_write := fun fd l w => (Z.of_nat (length l),
    Shell (sh_fds w) (sh_dir w) (sh_pipes w) (sh_forks w) (sh_in w) (sh_out w ++ [(fd, l)]) (sh_execs w));
  u_open := fd_open;
  u_close := fd_close;
  u_fstat := fun _ w => (None, w);
  u_link := fun _ _ w => (-1, w);
  u_mkdir := fun _ w => (-1, w);
  u_unlink := fun _ w => (-1, w);
  u_kill := fun _ w => (-1, w);
  u_read_le := fun _ => sh_read_le
|}.

Definition NEWL : Z := 10.

(** [panic]: print and exit. *)
Definition sh_panic {A} (msg : list Z) : M shell A :=
  uprintf 2 (bytes_of "%s" ++ [NEWL]) [VStr (Some msg)] ;; uexit.

(** [if(fork1() == 0) child;]: the child has a copy of the descriptors and of the directory. A child that
    returned would go on as a second shell; none does. *)
Definition fork1 (child : M shell unit) : M shell unit := fun w =>
  match sh_forks w with
  | O => sh_panic (bytes_of "fork") w
  | S n =>
      match child (Shell (sh_fds w) (sh_dir w) (sh_pipes w) n (sh_in w) (sh_out w) (sh_execs w)) with
      | Sched w' => Ret tt (set_dir (sh_dir w) (set_fds (sh_fds w) w'))
      | Ret _ w' | Fault w' => Fault w'
      | Panic msg w' => Panic msg w'
      | NoFuel => NoFuel
      end
  end.

(** The child has run already. *)
Definition sh_wait : M shell unit := ret tt.

(** ** runcmd *)

(** [exec] of a program there is: it starts with the process's descriptors. *)
Definition sh_exec (argv : list (list Z)) : M shell unit := fun w =>
  match argv with
  | path :: _ =>
      if can_exec path then
        Sched (Shell (sh_fds w) (sh_dir w) (sh_pipes w) (sh_forks w) (sh_in w) (sh_out w)
                 (sh_execs w ++ [Started argv (sh_fds w)]))
      else Ret tt w
  | [] => Ret tt w
  end.

Fixpoint runcmd (t : tree) : M shell unit :=
  match t with
  | TExec [] => uexit
  | TExec (path :: args) =>
      sh_exec (path :: args) ;;
      uprintf 2 (bytes_of "exec %s failed" ++ [NEWL]) [VStr (Some path)] ;;
      uexit
  | TRedir t file mode fd =>
      call (fd_close fd) ;;
      r <- call (fd_open file mode) ;;
      if r <? 0 then uprintf 2 (bytes_of "open %s failed" ++ [NEWL]) [VStr (Some file)] ;; uexit else
      runcmd t ;;
      uexit
  | TList l r =>
      fork1 (runcmd l) ;;
      sh_wait ;;
      runcmd r ;;
      uexit
  | TPipe l r =>
      p <- call fd_pipe ;;
      match p with
      | None => sh_panic (bytes_of "pipe")
      | Some (p0, p1) =>
          fork1 (call (fd_close 1) ;; call (fd_dup p1) ;; call (fd_close p0) ;; call (fd_close p1) ;; runcmd l) ;;
          fork1 (call (fd_close 0) ;; call (fd_dup p0) ;; call (fd_close p0) ;; call (fd_close p1) ;; runcmd r) ;;
          call (fd_close p0) ;;
          call (fd_close p1) ;;
          sh_wait ;;
          sh_wait ;;
          uexit
      end
  | TBack t => fork1 (runcmd t) ;; uexit
  end.

(** ** The main loop *)

Definition NBUF_SH : nat := 100.

(** [getcmd]: the line, or [None] at the end of the input. *)
Definition getcmd (buf : list Z) : M shell (option (list Z)) :=
  uprintf 2 (bytes_of "$ ") [] ;;
  buf <- ugets (replicate (length buf) 0) (Z.of_nat (length buf)) ;;
  ret (if nth 0 buf 0 =? 0 then None else Some buf).

Definition shchdir (path : list Z) (w : shell) : Z * shell :=
  if can_chdir (sh_dir w) path then (0, set_dir path w) else (-1, w).

(** [runcmd(parsecmd(buf))] in the child, a panic of the parser included. *)
Definition run_line (line : list Z) : M shell unit := fun w =>
  match parsecmd line [] with
  | Ret (c, buf) _ => runcmd (view (length line) buf c) w
  | Panic msg rest =>
      if String.eqb msg "leftovers" then
        (uprintf 2 (bytes_of "leftovers: %s" ++ [NEWL]) [VStr (Some rest)] ;; sh_panic (bytes_of "syntax")) w
      else sh_panic (bytes_of msg) w
  | Sched _ | Fault _ => Fault w
  | NoFuel => NoFuel
  end.

(** [while((fd = open("console", O_RDWR)) >= 0)]. *)
Fixpoint open_console (fuel : nat) : M shell unit :=
  match fuel with
  | O => nofuel
  | S fuel =>
      fd <- call (fd_open (bytes_of "console") 2) ;;
      if fd <? 0 then ret tt
      else if 3 <=? fd then call (fd_close fd) ;; ret tt
      else open_console fuel
  end.

Fixpoint main_loop (fuel : nat) (buf : list Z) : M shell unit :=
  match fuel with
  | O => nofuel
  | S fuel =>
      r <- getcmd buf ;;
      match r with
      | None => uexit
      | Some buf =>
          let line := cstr (length buf) buf in
          if (nth 0 buf 0 =? 99) && (nth 1 buf 0 =? 100) && (nth 2 buf 0 =? 32) then
            let path := drop 3 (take (length line - 1) line) in
            r <- call (shchdir path) ;;
            (if r <? 0 then uprintf 2 (bytes_of "cannot cd %s" ++ [NEWL]) [VStr (Some path)] else ret tt) ;;
            main_loop fuel buf
          else
            fork1 (run_line line) ;;
            sh_wait ;;
            main_loop fuel buf
      end
  end.

(** [fuel] bounds the lines read; four descriptors are opened at most. *)
Definition sh_main (fuel : nat) : M shell unit := open_console 4 ;; main_loop fuel (replicate NBUF_SH 0).

End run.

(** ** What a command starts *)

Section refine.
Context {F : Files}.

(** The descriptors of a program: input, output, errors and nothing else. *)
Definition std (i o e : obj) : list (option obj) := Some i :: Some o :: Some e :: replicate 13 None.

(** The programs [t] starts with these descriptors, the next pipe being [p]; and the pipe after those it
    uses. *)
Fixpoint starts_of (t : tree) (i o e : obj) (p : nat) : list started * nat :=
  match t with
  | TExec [] => ([], p)
  | TExec (path :: args) => (if can_exec path then [Started (path :: args) (std i o e)] else [], p)
  | TRedir t f mode fd =>
      if can_open f mode then
        if fd =? 0 then starts_of t (OFile f mode) o e p else starts_of t i (OFile f mode) e p
      else ([], p)
  | TPipe l r =>
      let '(x1, p1) := starts_of l i (OPipeW p) e (S p) in
      let '(x2, p2) := starts_of r (OPipeR p) o e p1 in
      (x1 ++ x2, p2)
  | TList l r =>
      let '(x1, p1) := starts_of l i o e p in
      let '(x2, p2) := starts_of r i o e p1 in
      (x1 ++ x2, p2)
  | TBack t => starts_of t i o e p
  end.

(** The processes it needs. *)
Fixpoint forks_of (t : tree) : nat :=
  match t with
  | TExec _ => 0
  | TRedir t _ _ _ => forks_of t
  | TPipe l r => 2 + (forks_of l + forks_of r)
  | TList l r => 1 + (forks_of l + forks_of r)
  | TBack t => 1 + forks_of t
  end.

Definition set_out (x : list (Z * list Z)) (w : shell) : shell :=
  Shell (sh_fds w) (sh_dir w) (sh_pipes w) (sh_forks w) (sh_in w) x (sh_execs w).

(** [m] does nothing but print. *)
Definition quiet {A} (m : M shell A) : Prop := forall w, exists a x, m w = Ret a (set_out x w).

Lemma quiet_ret {A} (a : A) : quiet (ret a).
Proof. intros w. exists a, (sh_out w). by destruct w. Qed.

Lemma quiet_bind {A B} (m : M shell A) (f : A -> M shell B) : quiet m -> (forall a, quiet (f a)) -> quiet (bind m f).
Proof.
  intros Hm Hf w. destruct (Hm w) as (a & x & E). destruct (Hf a (set_out x w)) as (b & y & E2). exists b, y.
  unfold bind. by rewrite E, E2.
Qed.

Lemma quiet_putc fd c : quiet (uputc fd c).
Proof. intros w. by exists tt, (sh_out w ++ [(fd, [u8 c])]). Qed.

Lemma quiet_puts fd l : quiet (uputs fd l).
Proof.
  induction l as [|c l IH]; [apply quiet_ret|]. apply quiet_bind; [apply quiet_putc|]. intros _. exact IH.
Qed.

Lemma quiet_plain fd f ap k : forallb (fun c => negb (c =? 37)) f = true -> quiet (uprintf_loop fd false k ap) -> quiet (uprintf_loop fd false (f ++ k) ap).
Proof.
  intros Hf Hk. induction f as [|c f IH]; [done|]. cbn in Hf. apply andb_true_iff in Hf as [Hc Hf]. cbn [app uprintf_loop].
  apply negb_true_iff in Hc as ->. apply quiet_bind; [apply quiet_putc|]. intros _. by apply IH.
Qed.

Lemma quiet_s fd f g s :
  forallb (fun c => negb (c =? 37)) f = true -> forallb (fun c => negb (c =? 37)) g = true ->
  quiet (uprintf fd (f ++ [37; 115] ++ g) [VStr s]).
Proof.
  intros Hf Hg. apply quiet_plain; [done|]. cbn [app uprintf_loop Z.eqb]. apply quiet_bind.
  - change (udirective fd 115 [VStr s]) with (uputs (sys := shell_calls) fd (default null_str s) ;; ret (@nil varg)).
    apply quiet_bind; [apply quiet_puts|]. intros _. apply quiet_ret.
  - intros ap. rewrite <- (app_nil_r g). apply quiet_plain; [done|apply quiet_ret].
Qed.

(** How a run of [t] ends: in the programs it should have started, with no descriptors but the three. *)
Definition ran (t : tree) (i o e : obj) (w : shell) (r : outcome shell unit) : Prop :=
  exists w', r = Sched w' /\ sh_execs w' = sh_execs w ++ fst (starts_of t i o e (sh_pipes w)) /\
    sh_pipes w' = snd (starts_of t i o e (sh_pipes w)) /\ (sh_forks w <= sh_forks w' + forks_of t)%nat.

Definition runs_ok (t : tree) : Prop := forall i o e w,
  sh_fds w = std i o e -> (forks_of t <= sh_forks w)%nat -> ran t i o e w (runcmd t w).

Lemma exit_after {A} (m : M shell A) w x w' : m w = Ret x w' -> bind m (fun _ => uexit) w = (Sched w' : outcome shell unit).
Proof. intros E. unfold bind. by rewrite E. Qed.

Lemma run_exec argv : runs_ok (TExec argv).
Proof.
  intros i o e w Hw _. destruct argv as [|path args]; [exists w; cbn; rewrite app_nil_r; repeat split; lia|].
  cbn [runcmd starts_of forks_of]. unfold ran, bind at 1, sh_exec. cbn [starts_of]. destruct (can_exec path).
  - eexists. split; [reflexivity|]. cbn. rewrite Hw. repeat split; lia.
  - destruct (quiet_s 2 (bytes_of "exec ") (bytes_of " failed" ++ [NEWL]) (Some path) eq_refl eq_refl w) as (a & x & E).
    eexists. split; [exact (exit_after _ _ _ _ E)|]. cbn. rewrite app_nil_r. repeat split; lia.
Qed.

(** A child that runs [t] with its own descriptors. *)
Lemma fork_runs t (child : M shell unit) i o e w n :
  sh_forks w = S n -> (forks_of t <= n)%nat ->
  ran t i o e (Shell (sh_fds w) (sh_dir w) (sh_pipes w) n (sh_in w) (sh_out w) (sh_execs w))
    (child (Shell (sh_fds w) (sh_dir w) (sh_pipes w) n (sh_in w) (sh_out w) (sh_execs w))) ->
  exists w', fork1 child w = Ret tt w' /\ sh_fds w' = sh_fds w /\
    sh_execs w' = sh_execs w ++ fst (starts_of t i o e (sh_pipes w)) /\
    sh_pipes w' = snd (starts_of t i o e (sh_pipes w)) /\ (sh_forks w <= sh_forks w' + S (forks_of t))%nat.
Proof.
  intros Hn Hf (w' & E & H1 & H2 & H3). unfold fork1. rewrite Hn, E. eexists. split; [reflexivity|]. cbn in *.
  repeat split; [done|done|lia].
Qed.

Lemma run_then_exit t w : runs_ok t -> forall i o e, sh_fds w = std i o e -> (forks_of t <= sh_forks w)%nat ->
  ran t i o e w ((runcmd t ;; uexit) w).
Proof. intros Ht i o e Hw Hf. destruct (Ht i o e w Hw Hf) as (w' & E & H). exists w'. unfold bind. by rewrite E. Qed.

Lemma run_redir t f mode fd : runs_ok t -> redir_ok mode fd -> runs_ok (TRedir t f mode fd).
Proof.
  intros Ht Hm i o e w Hw Hf. cbn [forks_of] in Hf. destruct w as [fds d p n inp out ex]. cbn in Hw. subst fds.
  cbn [runcmd]. unfold bind at 1, call at 1. unfold ran. cbn [starts_of forks_of].
  assert (fd_close fd (Shell (std i o e) d p n inp out ex) =
    (0, Shell (if fd =? 0 then None :: drop 1 (std i o e) else Some i :: None :: drop 2 (std i o e)) d p n inp out ex)) as ->
    by (destruct Hm as [[_ ->]|[_ ->]]; done).
  unfold bind at 1, call at 1, fd_open. destruct (can_open f mode).
  - destruct Hm as [[_ ->]|[_ ->]]; cbn -[std runcmd starts_of];
      [exact (run_then_exit t (Shell (std (OFile f mode) o e) d p n inp out ex) Ht _ _ _ eq_refl Hf)|
       exact (run_then_exit t (Shell (std i (OFile f mode) e) d p n inp out ex) Ht _ _ _ eq_refl Hf)].
  - change (-1 <? 0) with true. cbn iota. match goal with |- context [bind _ _ ?w] => destruct
      (quiet_s 2 (bytes_of "open ") (bytes_of " failed" ++ [NEWL]) (Some f) eq_refl eq_refl w) as (a & x & E) end.
    eexists. split; [exact (exit_after _ _ _ _ E)|]. cbn. rewrite app_nil_r. repeat split; lia.
Qed.

Lemma run_list l r : runs_ok l -> runs_ok r -> runs_ok (TList l r).
Proof.
  intros Hl Hr i o e w Hw Hf. cbn [forks_of] in Hf. destruct (sh_forks w) as [|n] eqn:En; [lia|]. cbn [runcmd].
  destruct (fork_runs l (runcmd l) i o e w n En ltac:(lia)) as (w1 & E1 & F1 & X1 & P1 & N1).
  { apply Hl; cbn; [done|lia]. }
  unfold bind at 1. rewrite E1. unfold bind at 1, sh_wait, ret.
  destruct (run_then_exit r w1 Hr i o e ltac:(congruence) ltac:(lia)) as (w2 & E2 & X2 & P2 & N2). unfold ran. rewrite E2.
  exists w2. split; [done|]. cbn [starts_of forks_of]. rewrite X2, P2, X1, P1. destruct (starts_of l i o e (sh_pipes w)) as [x1 p1]. cbn.
  destruct (starts_of r i o e p1) as [x2 p2]. cbn. rewrite app_assoc. repeat split. lia.
Qed.

Lemma run_back t : runs_ok t -> runs_ok (TBack t).
Proof.
  intros Ht i o e w Hw Hf. cbn [forks_of] in Hf. destruct (sh_forks w) as [|n] eqn:En; [lia|]. cbn [runcmd].
  destruct (fork_runs t (runcmd t) i o e w n En ltac:(lia)) as (w1 & E1 & F1 & X1 & P1 & N1).
  { apply Ht; cbn; [done|lia]. }
  exists w1. unfold bind. rewrite E1. split; [done|]. cbn [starts_of forks_of]. repeat split; [done|done|lia].
Qed.

(** The descriptors after [pipe]. *)
Definition piped (i o e : obj) (p : nat) : list (option obj) :=
  Some i :: Some o :: Some e :: Some (OPipeR p) :: Some (OPipeW p) :: replicate 11 None.

Lemma pipe_left l i o e p w :
  sh_fds w = piped i o e p ->
  (call (fd_close 1) ;; call (fd_dup 4) ;; call (fd_close 3) ;; call (fd_close 4) ;; runcmd l) w =
  runcmd l (set_fds (std i (OPipeW p) e) w).
Proof. intros H. destruct w as [fds d q n inp out ex]. cbn in H. by subst fds. Qed.

Lemma pipe_right r i o e p w :
  sh_fds w = piped i o e p ->
  (call (fd_close 0) ;; call (fd_dup 3) ;; call (fd_close 3) ;; call (fd_close 4) ;; runcmd r) w =
  runcmd r (set_fds (std (OPipeR p) o e) w).
Proof. intros H. destruct w as [fds d q n inp out ex]. cbn in H. by subst fds. Qed.

Lemma pipe_parent i o e p w :
  sh_fds w = piped i o e p ->
  (call (fd_close 3) ;; call (fd_close 4) ;; sh_wait ;; sh_wait ;; uexit) w = Sched (set_fds (std i o e) w) :> outcome shell unit.
Proof. intros H. destruct w as [fds d q n inp out ex]. cbn in H. by subst fds. Qed.

Lemma run_pipe l r : runs_ok l -> runs_ok r -> runs_ok (TPipe l r).
Proof.
  intros Hl Hr i o e w Hw Hf. cbn [forks_of] in Hf. destruct w as [fds d p n inp out ex]. cbn in Hw, Hf. subst fds.
  destruct n as [|n]; [lia|]. set (w := Shell (std i o e) d p (S n) inp out ex).
  set (w1 := Shell (piped i o e p) d (S p) (S n) inp out ex). cbn [runcmd]. unfold bind at 1, call at 1.
  change (fd_pipe w) with (Some (3, 4), w1). cbn iota.
  destruct (fork_runs l _ i (OPipeW p) e w1 n eq_refl ltac:(lia)
    ltac:(rewrite (pipe_left l i o e p) by done; apply (Hl i (OPipeW p) e (Shell (std i (OPipeW p) e) d (S p) n inp out ex)); [done|cbn; lia]))
    as (w2 & E2 & F2 & X2 & P2 & N2).
  unfold bind at 1. rewrite E2. cbn in F2, N2, X2, P2. destruct (sh_forks w2) as [|n2] eqn:En2; [lia|].
  destruct (fork_runs r _ (OPipeR p) o e w2 n2 En2 ltac:(lia)
    ltac:(rewrite (pipe_right r i o e p) by done;
          apply (Hr (OPipeR p) o e (set_fds (std (OPipeR p) o e) (Shell (sh_fds w2) (sh_dir w2) (sh_pipes w2) n2 (sh_in w2) (sh_out w2) (sh_execs w2)))); [done|cbn; lia]))
    as (w3 & E3 & F3 & X3 & P3 & N3).
  unfold bind at 1. rewrite E3. exists (set_fds (std i o e) w3). rewrite (pipe_parent i o e p) by congruence. split; [done|].
  cbn [starts_of forks_of sh_pipes w sh_execs set_fds sh_forks]. rewrite X3, P3, X2, P2.
  destruct (starts_of l i (OPipeW p) e (S p)) as [x1 p1]. cbn. destruct (starts_of r (OPipeR p) o e p1) as [x2 p2]. cbn.
  rewrite app_assoc. repeat split. lia.
Qed.

Fixpoint redirs_ok (t : tree) : Prop :=
  match t with
  | TExec _ => True
  | TRedir t _ mode fd => redirs_ok t /\ redir_ok mode fd
  | TPipe l r | TList l r => redirs_ok l /\ redirs_ok r
  | TBack t => redirs_ok t
  end.

(** C38. [runcmd] starts what the command says: from a process with descriptors 0, 1 and 2, and processes enough, it
    ends having started exactly the programs of [starts_of], in which the two sides of every bar share a pipe of
    their own, redirections replace input or output, a failing [open] or [exec] drops its part only,
    and no program inherits any other descriptor. *)
Theorem runcmd_refines t i o e w :
  redirs_ok t -> sh_fds w = std i o e -> (forks_of t <= sh_forks w)%nat ->
  exists w', runcmd t w = Sched w' /\ sh_execs w' = sh_execs w ++ fst (starts_of t i o e (sh_pipes w)) /\
    sh_pipes w' = snd (starts_of t i o e (sh_pipes w)) /\ (sh_forks w <= sh_forks w' + forks_of t)%nat.
Proof.
  intros Ht. change (sh_fds w = std i o e -> (forks_of t <= sh_forks w)%nat -> ran t i o e w (runcmd t w)). revert i o e w.
  change (runs_ok t). induction t as [argv|t IH f m d|l IHl r IHr|l IHl r IHr|t IH].
  - apply run_exec.
  - destruct Ht. by apply run_redir; [apply IH|].
  - destruct Ht. by apply run_pipe; [apply IHl|apply IHr].
  - destruct Ht. by apply run_list; [apply IHl|apply IHr].
  - by apply run_back, IH.
Qed.
End refine.

(** [a < f | b | c]. *)
Definition all_files : Files := {| can_open := fun _ _ => true; can_exec := fun _ => true; can_chdir := fun _ _ => true |}.
Definition three : shell := Shell (std OConsole OConsole OConsole) [] 0 4 [] [] [].

Lemma runcmd_refines_witness :
  exists w', @runcmd all_files (TPipe (TRedir (TExec [bytes_of "a"]) (bytes_of "f") 0 0) (TPipe (TExec [bytes_of "b"]) (TExec [bytes_of "c"]))) three = Sched w' /\
    sh_execs w' = [Started [bytes_of "a"] (std (OFile (bytes_of "f") 0) (OPipeW 0) OConsole);
                   Started [bytes_of "b"] (std (OPipeR 0) (OPipeW 1) OConsole);
                   Started [bytes_of "c"] (std (OPipeR 1) OConsole OConsole)].
Proof.
  destruct (@runcmd_refines all_files (TPipe (TRedir (TExec [bytes_of "a"]) (bytes_of "f") 0 0) (TPipe (TExec [bytes_of "b"]) (TExec [bytes_of "c"])))
    OConsole OConsole OConsole three) as (w' & E & H & _).
  - repeat split. by left.
  - done.
  - cbn. lia.
  - exists w'. by split.
Defined.
