(* ===== verification/Utils.v ===== *)
(** * The small user programs (user/cat.c, wc.c, echo.c, ls.c, ln.c, mkdir.c, rm.c, kill.c) *)

From Stdlib Require Import Ascii String.
From S2P Require Import Prelude Types Monad KString Print Ulib Grep.

Section utils.
Context {W : Type} {sys : Syscalls W}.

Definition nl : list Z := [10].
Definition say (fd : Z) (msg : string) : M W unit := uprintf fd (bytes_of msg ++ nl) [].
Definition say_s (fd : Z) (msg : string) (s : list Z) : M W unit := uprintf fd (bytes_of msg ++ nl) [VStr (Some s)].

(** The argument loop of [main] in cat.c, wc.c and grep.c, with the name each program reports. *)
Fixpoint each_file (err : string) (body : Z -> list Z -> M W unit) (files : list (list Z)) : M W unit :=
  match files with
  | [] => uexit
  | f :: files =>
      fd <- call (u_open f 0) ;;
      if fd <? 0 then say_s 1 err f ;; uexit else
      body fd f ;;
      call (u_close fd) ;;
      each_file err body files
  end.

(** ** cat *)

Definition CATBUF : nat := 512.

(** [fuel] bounds the number of reads. *)
Fixpoint cat (fuel : nat) (fd : Z) : M W unit :=
  match fuel with
  | O => nofuel
  | S fuel =>
      r <- call (u_read fd CATBUF) ;;
      match r with
      | None => say 1 "cat: read error" ;; uexit
      | Some [] => ret tt
      | Some l => call (u_write 1 l) ;; cat fuel fd
      end
  end.

Definition cat_main (fuel : nat) (argv : list (list Z)) : M W unit :=
  match argv with
  | [] | [_] => cat fuel 0 ;; uexit
  | _ :: files => each_file "cat: cannot open %s" (fun fd _ => cat fuel fd) files
  end.

(** ** wc *)

(** The counters: lines, words, characters, and whether the last character was in a word. *)
Record counts := Counts { n_lines : Z; n_words : Z; n_chars : Z; in_word : bool }.

Definition separators : list Z := [32; 13; 9; 10; 11].

(** The body of the loop over [buf]; [strchr] does not find a NUL in the separators. The counters are [int]s. *)
Definition count (k : counts) (x : Z) : counts :=
  let c := s32 (n_chars k + 1) in
  let l := if x =? 10 then s32 (n_lines k + 1) else n_lines k in
  if existsb (Z.eqb x) separators then Counts l (n_words k) c false
  else if in_word k then Counts l (n_words k) c true
  else Counts l (s32 (n_words k + 1)) c true.

Fixpoint wc_loop (fuel : nat) (fd : Z) (k : counts) : M W (option counts) :=
  match fuel with
  | O => nofuel
  | S fuel =>
      r <- call (u_read fd CATBUF) ;;
      match r with
      | None => ret None
      | Some [] => ret (Some k)
      | Some l => wc_loop fuel fd (foldl count k l)
      end
  end.

Definition wc (fuel : nat) (fd : Z) (name : list Z) : M W unit :=
  r <- wc_loop fuel fd (Counts 0 0 0 false) ;;
  match r with
  | None => say 1 "wc: read error" ;; uexit
  | Some k => uprintf 1 (bytes_of "%d %d %d %s" ++ nl) [VInt (n_lines k); VInt (n_words k); VInt (n_chars k); VStr (Some name)]
  end.

Definition wc_main (fuel : nat) (argv : list (list Z)) : M W unit :=
  match argv with
  | [] | [_] => wc fuel 0 [] ;; uexit
  | _ :: files => each_file "wc: cannot open %s" (wc fuel) files
  end.

(** ** echo, ln, mkdir, rm, kill *)

Fixpoint echo_args (args : list (list Z)) : M W unit :=
  match args with
  | [] => uexit
  | a :: args =>
      uprintf 1 (bytes_of "%s%s") [VStr (Some a); VStr (Some (match args with [] => nl | _ => [32] end))] ;;
      echo_args args
  end.
Definition echo_main (argv : list (list Z)) : M W unit := echo_args (drop 1 argv).

Definition ln_main (argv : list (list Z)) : M W unit :=
  match argv with
  | [_; old; new] =>
      r <- call (u_link old new) ;;
      (if r <? 0 then uprintf 2 (bytes_of "link %s %s: failed" ++ nl) [VStr (Some old); VStr (Some new)] else ret tt) ;;
      uexit
  | _ => say 2 "Usage: ln old new" ;; uexit
  end.

(** The loop of mkdir and rm stops at the first failure. *)
Fixpoint until_failure (op : list Z -> W -> Z * W) (err : string) (files : list (list Z)) : M W unit :=
  match files with
  | [] => uexit
  | f :: files =>
      r <- call (op f) ;;
      if r <? 0 then say_s 2 err f ;; uexit else until_failure op err files
  end.

Definition mkdir_main (argv : list (list Z)) : M W unit :=
  if (length argv <? 2)%nat then say 2 "Usage: mkdir files..." ;; uexit
  else until_failure u_mkdir "mkdir: %s failed to create" (drop 1 argv).

Definition rm_main (argv : list (list Z)) : M W unit :=
  if (length argv <? 2)%nat then say 2 "Usage: rm files..." ;; uexit
  else until_failure u_unlink "rm: %s failed to delete" (drop 1 argv).

Fixpoint kill_args (args : list (list Z)) : M W unit :=
  match args with
  | [] => uexit
  | a :: args => pid <- lift (atoi (a ++ [0])) ;; call (u_kill pid) ;; kill_args args
  end.

(** The usage test is [argc < 1]. *)
Definition kill_main (argv : list (list Z)) : M W unit :=
  if (length argv <? 1)%nat then say 2 "usage: kill pid..." ;; uexit else kill_args (drop 1 argv).

(** ** ls *)

Definition DIRSIZ_LS : nat := 14.
Definition LSBUF : nat := 512.

(** What follows the last slash. *)
Fixpoint after_slash (path : list Z) : list Z :=
  match path with
  | [] => []
  | c :: rest => if existsb (Z.eqb 47) rest then after_slash rest else if c =? 47 then rest else path
  end.

(** Names of fewer than fourteen bytes are padded with blanks in a static buffer. *)
Definition fmtname (path : list Z) : list Z :=
  let p := after_slash path in
  if (DIRSIZ_LS <=? length p)%nat then p else p ++ replicate (DIRSIZ_LS - length p) 32.

Definition ls_entry (path : list Z) (st : ustat) : M W unit :=
  uprintf 1 (bytes_of "%s %d %d %d" ++ nl)
    [VStr (Some (fmtname path)); VInt (s16 (st_type st)); VInt (s32 (st_ino st)); VInt (s32 (st_size st))].

(** The loop over the entries of the directory open as [fd]; [prefix] is the path and a slash. *)
Fixpoint ls_dir (fuel : nat) (fd : Z) (prefix : list Z) : M W unit :=
  match fuel with
  | O => nofuel
  | S fuel =>
      r <- call (u_read fd 16) ;;
      match r with
      | Some de =>
          if negb (length de =? 16)%nat then ret tt else
          if get16 de 0 =? 0 then ls_dir fuel fd prefix else
          let name := prefix ++ cstr DIRSIZ_LS (drop 2 de) in
          st <- stat name ;;
          (match st with
           | None => say_s 1 "ls: cannot stat %s" name
           | Some st => ls_entry name st
           end) ;;
          ls_dir fuel fd prefix
      | None => ret tt
      end
  end.

Definition T_DIR_U : Z := 1.
Definition T_FILE_U : Z := 2.

Definition ls (fuel : nat) (path : list Z) : M W unit :=
  fd <- call (u_open path 0) ;;
  if fd <? 0 then say_s 2 "ls: cannot open %s" path else
  st <- call (u_fstat fd) ;;
  match st with
  | None => say_s 2 "ls: cannot stat %s" path ;; call (u_close fd) ;; ret tt
  | Some st =>
      (if st_type st =? T_FILE_U then ls_entry path st
       else if st_type st =? T_DIR_U then
         if (LSBUF <? length path + 1 + DIRSIZ_LS + 1)%nat then say 1 "ls: path too long"
         else ls_dir fuel fd (path ++ [47])
       else ret tt) ;;
      call (u_close fd) ;;
      ret tt
  end.

Fixpoint ls_args (fuel : nat) (args : list (list Z)) : M W unit :=
  match args with
  | [] => uexit
  | a :: args => ls fuel a ;; ls_args fuel args
  end.

Definition ls_main (fuel : nat) (argv : list (list Z)) : M W unit :=
  if (length argv <? 2)%nat then ls fuel [46] ;; uexit else ls_args fuel (drop 1 argv).

End utils.

(** ** What cat and wc do to a stream, however it is cut into reads *)

Lemma stream_read_spec n w :
  (0 < n)%nat -> Forall (fun c => c <> []) (s_in w) ->
  exists l w', stream_read n w = (Some l, w') /\ concat (s_in w) = l ++ concat (s_in w') /\ s_writes w' = s_writes w /\
    Forall (fun c => c <> []) (s_in w') /\ (l = [] -> s_in w = []) /\ (l <> [] -> (length (concat (s_in w')) < length (concat (s_in w)))%nat).
Proof.
  intros Hn Hne. unfold stream_read. destruct w as [cs out]. cbn [s_in s_writes] in *. destruct cs as [|c cs].
  { exists [], (Stream [] out). by repeat split. }
  apply Forall_cons in Hne as [Hc Hcs]. assert (take n c <> []) as Ht by (destruct c, n; try done; lia).
  assert (length (take n c) <> 0)%nat as Hl by (by destruct (take n c)).
  destruct (Nat.leb_spec (length c) n) as [Hle|Hlt]; eexists _, _; (split; [reflexivity|]); cbn.
  - rewrite take_ge by lia. repeat split; [done|done|rewrite length_app; rewrite take_ge in Hl by lia; lia].
  - rewrite app_assoc, take_drop. repeat split; [constructor; [|done]|done|].
    + intros E. apply (f_equal length) in E. rewrite length_drop in E. cbn in E. lia.
    + rewrite !length_app, length_drop. lia.
Qed.

(** The bytes written to descriptor 1. *)
Definition written_to_1 (w : list (Z * list Z)) : list Z := concat (map (fun '(fd, l) => if fd =? 1 then l else []) w).

Lemma cat_copies fuel fd w :
  Forall (fun c => c <> []) (s_in w) -> (length (concat (s_in w)) < fuel)%nat ->
  exists w', cat fuel fd w = Ret tt w' /\ written_to_1 (s_writes w') = written_to_1 (s_writes w) ++ concat (s_in w).
Proof.
  revert w. induction fuel as [|fuel IH]; intros w Hne Hf; [lia|]. cbn [cat]. unfold bind at 1, call at 1. cbn [u_read stream_calls].
  destruct (stream_read_spec CATBUF w ltac:(unfold CATBUF; lia) Hne) as (l & w1 & -> & Hcat & Hw & Hne1 & Hnil & Hlt).
  destruct l as [|x l].
  { exists w1. rewrite Hnil by done. rewrite Hw. by rewrite app_nil_r. }
  specialize (Hlt ltac:(done)). unfold bind at 1, call at 1. cbn [u_write stream_calls].
  destruct (IH (Stream (s_in w1) (s_writes w1 ++ [(1, x :: l)]))) as (w2 & E & Hout); [done|cbn; lia|].
  exists w2. rewrite E. split; [done|]. rewrite Hout. cbn [s_in s_writes]. unfold written_to_1. rewrite Hw, map_app, concat_app, Hcat. cbn.
  by rewrite app_nil_r, <- app_assoc.
Qed.

Lemma wc_counts fuel fd w k :
  Forall (fun c => c <> []) (s_in w) -> (length (concat (s_in w)) < fuel)%nat ->
  exists w', wc_loop fuel fd k w = Ret (Some (foldl count k (concat (s_in w)))) w'.
Proof.
  revert w k. induction fuel as [|fuel IH]; intros w k Hne Hf; [lia|]. cbn [wc_loop]. unfold bind at 1, call at 1. cbn [u_read stream_calls].
  destruct (stream_read_spec CATBUF w ltac:(unfold CATBUF; lia) Hne) as (l & w1 & -> & Hcat & Hw & Hne1 & Hnil & Hlt).
  destruct l as [|x l].
  { exists w1. by rewrite Hnil. }
  specialize (Hlt ltac:(done)). destruct (IH w1 (foldl count k (x :: l)) Hne1 ltac:(lia)) as (w2 & E). exists w2. rewrite E.
  by rewrite Hcat, foldl_app.
Qed.
