(* ===== verification/UserProcs.v ===== *)
(** * User programs that make processes (user/init.c, schedtest.c, forktest.c, stressfs.c, zombie.c)

    A program is one process: [u_fork] returns what [fork] returns in the process followed, 0 in a child, and a
    theorem for every answer of the calls is about parents and children alike. *)

From Stdlib Require Import Ascii String.
From S2P Require Import Prelude Types Monad KString Print Ulib Grep Utils.

(** [struct pstat] (include/pstat.h). *)
Record pstat := Pstat { ps_inuse : list Z; ps_tickets : list Z; ps_pid : list Z; ps_ticks : list Z }.

(** The calls the other programs do not make. [u_exec] says whether the program was started. *)
Class ProcCalls (W : Type) := {
  u_fork : W -> Z * W;
  u_wait : W -> Z * W;
  u_getpid : W -> Z * W;
  u_sleep : Z -> W -> Z * W;
  u_exec : list Z -> list (list Z) -> W -> bool * W;
  u_dup : Z -> W -> Z * W;
  u_mknod : list Z -> Z -> Z -> W -> Z * W;
  u_getpinfo : W -> option pstat * W
}.

Section programs.
Context {W : Type} {sys : Syscalls W} {psys : ProcCalls W}.

(** [exec] does not return when it starts the program. *)
Definition exec_or_return (path : list Z) (argv : list (list Z)) : M W unit :=
  ok <- call (u_exec path argv) ;; if ok then uexit else ret tt.

(** ** init *)

(** [O_RDWR], and [O_CREATE | O_RDWR]. *)
Definition mode_rdwr : Z := 2.
Definition mode_create : Z := 514.
Definition init_argv : list (list Z) := [bytes_of "sh"].

(** [while((wpid=wait()) >= 0 && wpid != pid)]. *)
Fixpoint init_wait (fuel : nat) (pid : Z) : M W unit :=
  match fuel with
  | O => nofuel
  | S fuel =>
      wpid <- call u_wait ;;
      if (0 <=? wpid) && negb (wpid =? pid) then say 1 "zombie!" ;; init_wait fuel pid else ret tt
  end.

(** [fuel] bounds the shells started and the processes one round waits for. *)
Fixpoint init_loop (fuel : nat) : M W unit :=
  match fuel with
  | O => nofuel
  | S fuel =>
      say 1 "init: starting sh" ;;
      pid <- call u_fork ;;
      if pid <? 0 then say 1 "init: fork failed" ;; uexit else
      if pid =? 0 then
        exec_or_return (bytes_of "sh") init_argv ;;
        say 1 "init: exec sh failed" ;;
        uexit
      else
        init_wait (S fuel) pid ;;
        init_loop fuel
  end.

Definition init_console : M W unit :=
  fd <- call (u_open (bytes_of "console") mode_rdwr) ;;
  (if fd <? 0 then
     call (u_mknod (bytes_of "console") 1 1) ;;
     call (u_open (bytes_of "console") mode_rdwr) ;;
     ret tt
   else ret tt) ;;
  call (u_dup 0) ;;
  call (u_dup 0) ;;
  ret tt.

Definition init_main (fuel : nat) : M W unit := init_console ;; init_loop fuel.

(** ** zombie and forktest *)

Definition zombie_main : M W unit :=
  pid <- call u_fork ;;
  (if 0 <? pid then call (u_sleep 5) ;; ret tt else ret tt) ;;
  uexit.

Definition N_FORKS : nat := 1000.

(** forktest's own [printf] only writes the format. *)
Definition ft_printf (fd : Z) (s : list Z) : M W unit := call (u_write fd s) ;; ret tt.
Definition ft_say (s : string) : M W unit := ft_printf 1 (bytes_of s ++ nl).

(** The first loop from [n], with [k] turns left: the value of [n] after it. *)
Fixpoint ft_forks (k n : nat) : M W nat :=
  match k with
  | O => ret n
  | S k =>
      pid <- call u_fork ;;
      if pid <? 0 then ret n else
      if pid =? 0 then uexit else
      ft_forks k (S n)
  end.

Fixpoint ft_waits (n : nat) : M W unit :=
  match n with
  | O => ret tt
  | S n =>
      r <- call u_wait ;;
      if r <? 0 then ft_say "wait stopped early" ;; uexit else ft_waits n
  end.

Definition forktest : M W unit :=
  ft_say "fork test" ;;
  n <- ft_forks N_FORKS 0 ;;
  if (n =? N_FORKS)%nat then ft_say "fork claimed to work N times!" ;; uexit else
  ft_waits n ;;
  r <- call u_wait ;;
  if negb (r =? -1) then ft_say "wait got too many" ;; uexit else
  ft_say "fork test OK".

Definition forktest_main : M W unit := forktest ;; uexit.

(** ** stressfs *)

(** [for(i = 0; i < 4; i++) if(fork() > 0) break]. *)
Fixpoint st_forks (k : nat) (i : Z) : M W Z :=
  match k with
  | O => ret i
  | S k => pid <- call u_fork ;; if 0 <? pid then ret i else st_forks k (i + 1)
  end.

Definition stress_path (i : Z) : list Z := bytes_of "stressfs" ++ [u8 (48 + i)].

Definition stressfs_main : M W unit :=
  say 1 "stressfs starting" ;;
  let data := replicate 512 97 in
  i <- st_forks 4 0 ;;
  uprintf 1 (bytes_of "write %d" ++ nl) [VInt i] ;;
  let path := stress_path i in
  fd <- call (u_open path mode_create) ;;
  foreach (fun _ => call (u_write fd data) ;; ret tt) (seq 0 20) ;;
  call (u_close fd) ;;
  say 1 "read" ;;
  fd <- call (u_open path O_RDONLY) ;;
  foreach (fun _ => call (u_read fd 512) ;; ret tt) (seq 0 20) ;;
  call (u_close fd) ;;
  call u_wait ;;
  uexit.

(** ** schedtest *)

Definition TIMESTEPS : nat := 100.
Definition LTICKS (x : Z) : Z := x * 1000000.
Definition N_C_PROCS : nat := 3.
Definition NPROC_U : nat := 64.

(** [spin] writes nothing but its locals. *)
Definition spin (J : Z) : M W unit := ret tt.

(** An element of an array; an index outside it faults. *)
Definition elem (l : list Z) (j : Z) : M W Z := if j <? 0 then fault else lift (l !! Z.to_nat j).

Definition print_info (p : pstat) (j : Z) : M W unit :=
  pid <- elem (ps_pid p) j ;;
  ticks <- elem (ps_ticks p) j ;;
  uprintf 1 (bytes_of "%d" ++ [9] ++ bytes_of "%d" ++ [9]) [VInt pid; VInt ticks] ;;
  u <- elem (ps_inuse p) j ;;
  uprintf 1 (bytes_of (if u =? 1 then "YES" else "NO")) [] ;;
  uprintf 1 nl [].

(** From index [i], with [k] left. *)
Fixpoint find_pid_from (k : nat) (i : Z) (p : pstat) (pid : Z) : M W Z :=
  match k with
  | O => ret (-1)
  | S k => x <- elem (ps_pid p) i ;; if x =? pid then ret i else find_pid_from k (i + 1) p pid
  end.
Definition find_pid (p : pstat) (pid : Z) : M W Z := find_pid_from NPROC_U 0 p pid.

(** [pid_chds[i] = fork()] for [i] from 1; the child spins and exits. *)
Fixpoint sched_forks (k : nat) : M W (list Z) :=
  match k with
  | O => ret []
  | S k =>
      pid <- call u_fork ;;
      if pid =? 0 then spin (LTICKS 5) ;; uexit else
      rest <- sched_forks k ;;
      ret (pid :: rest)
  end.

Fixpoint sched_print (p : pstat) (pids : list Z) : M W unit :=
  match pids with
  | [] => ret tt
  | pid :: pids => j <- find_pid p pid ;; print_info p j ;; sched_print p pids
  end.

(** [all_done &= !pstat.inuse[j]]. *)
Fixpoint sched_done (p : pstat) (pids : list Z) (all : bool) : M W bool :=
  match pids with
  | [] => ret all
  | pid :: pids => j <- find_pid p pid ;; u <- elem (ps_inuse p) j ;; sched_done p pids (all && (u =? 0))
  end.

(** The loop over [t], with [k] turns left. *)
Fixpoint sched_loop (k : nat) (pids : list Z) : M W unit :=
  match k with
  | O => ret tt
  | S k =>
      r <- call u_getpinfo ;;
      match r with
      | None => say 1 "getpinfo failed"
      | Some p =>
          sched_print p pids ;;
          d <- sched_done p (drop 1 pids) true ;;
          if (d : bool) then ret tt else
          spin (LTICKS 1) ;;
          uprintf 1 nl [] ;;
          sched_loop k pids
      end
  end.

(** [for (i = 1; pid_chds[i] > 0 && i < N_C_PROCS; i++)]: the element is read before the index is tested. *)
Fixpoint sched_kill (fuel : nat) (i : Z) (pids : list Z) : M W unit :=
  match fuel with
  | O => nofuel
  | S fuel =>
      x <- elem pids i ;;
      if (0 <? x) && (i <? Z.of_nat N_C_PROCS) then call (u_kill x) ;; sched_kill fuel (i + 1) pids else ret tt
  end.

(** [while(wait() != -1)]; [fuel] bounds the children. *)
Fixpoint wait_all (fuel : nat) : M W unit :=
  match fuel with
  | O => nofuel
  | S fuel => r <- call u_wait ;; if r =? -1 then ret tt else wait_all fuel
  end.

Definition schedtest_main (fuel : nat) : M W unit :=
  me <- call u_getpid ;;
  kids <- sched_forks (N_C_PROCS - 1) ;;
  let pids := me :: kids in
  say 1 "PIDs of child processes:" ;;
  foreach (fun pid => uprintf 1 (bytes_of "- pid %d" ++ nl) [VInt pid]) pids ;;
  uprintf 1 nl [] ;;
  uprintf 1 (bytes_of "PID" ++ [9] ++ bytes_of "TICKS" ++ [9] ++ bytes_of "IN USE" ++ nl) [] ;;
  spin (LTICKS 1) ;;
  sched_loop TIMESTEPS pids ;;
  sched_kill (S N_C_PROCS) 1 pids ;;
  wait_all fuel ;;
  uexit.

End programs.

(** ** The life of a process as a script

    What [fork] and [wait] answer in turn, the descriptors, the device nodes there are, and what is written to descriptor 1. *)

Record life := Life {
  lf_fds : list (option (list Z)); lf_nodes : list (list Z); lf_forks : list Z; lf_waits : list Z; lf_out : list Z
}.

Definition lset_fds (x : list (option (list Z))) (w : life) : life := Life x (lf_nodes w) (lf_forks w) (lf_waits w) (lf_out w).
Definition lset_out (x : list Z) (w : life) : life := Life (lf_fds w) (lf_nodes w) (lf_forks w) (lf_waits w) x.

(** The lowest free descriptor. *)
Definition life_alloc (path : list Z) (w : life) : Z * life :=
  match list_find (fun o => o = None) (lf_fds w) with
  | Some (i, _) => (Z.of_nat i, lset_fds (<[i := Some path]> (lf_fds w)) w)
  | None => (-1, w)
  end.

#[export] Instance life_calls : Syscalls life.
Proof.
  refine {|
    u_read := fun _ _ w => (None, w);
    u_write := fun fd l w => (Z.of_nat (length l), if fd =? 1 then lset_out (lf_out w ++ l) w else w);
    u_open := fun path _ w => if bool_decide (path ∈ lf_nodes w) then life_alloc path w else (-1, w);
    u_close := fun fd w => (0, w);
    u_fstat := fun _ w => (None, w);
    u_link := fun _ _ w => (-1, w);
    u_mkdir := fun _ w => (-1, w);
    u_unlink := fun _ w => (-1, w);
    u_kill := fun _ w => (0, w)
  |}. done.
Defined.

#[export] Instance life_procs : ProcCalls life := {|
  u_fork := fun w => match lf_forks w with
    | [] => (-1, w)
    | x :: r => (x, Life (lf_fds w) (lf_nodes w) r (lf_waits w) (lf_out w)) end;
  u_wait := fun w => match lf_waits w with
    | [] => (-1, w)
    | x :: r => (x, Life (lf_fds w) (lf_nodes w) (lf_forks w) r (lf_out w)) end;
  u_getpid := fun w => (1, w);
  u_sleep := fun _ w => (0, w);
  u_exec := fun _ _ w => (true, w);
  u_dup := fun fd w => match mjoin (lf_fds w !! Z.to_nat fd) with Some p => life_alloc p w | None => (-1, w) end;
  u_mknod := fun path _ _ w => (0, Life (lf_fds w) (path :: lf_nodes w) (lf_forks w) (lf_waits w) (lf_out w));
  u_getpinfo := fun w => (None, w)
|}.

(** Printing a text without directives. *)
Lemma uprintf_plain f w :
  forallb (fun c => negb (c =? 37) && (0 <=? c) && (c <? 256)) f = true ->
  uprintf 1 f [] w = Ret tt (lset_out (lf_out w ++ f) w).
Proof.
  unfold uprintf. revert w. induction f as [|c f IH]; intros w Hf.
  { cbn. rewrite app_nil_r. by destruct w. }
  cbn in Hf. apply andb_true_iff in Hf as [[[Hc H0]%andb_true_iff H1]%andb_true_iff Hf].
  cbn [uprintf_loop]. apply negb_true_iff in Hc as ->. unfold bind, uputc, call. cbn.
  assert (u8 c = c) as -> by (unfold u8; apply Z.mod_small; lia). rewrite IH by done. cbn. by rewrite <- app_assoc.
Qed.

Lemma say_eq msg w :
  forallb (fun c => negb (c =? 37) && (0 <=? c) && (c <? 256)) (bytes_of msg ++ nl) = true ->
  say 1 msg w = Ret tt (lset_out (lf_out w ++ bytes_of msg ++ nl) w).
Proof. intros Hm. by apply uprintf_plain. Qed.

(** *** init *)

Definition console : list Z := bytes_of "console".

(** Whether or not the console is there at first, it ends up as the three standard descriptors. *)
Lemma init_console_fds w :
  lf_fds w = replicate 16 None ->
  exists nodes, init_console w
    = Ret tt (Life (Some console :: Some console :: Some console :: replicate 13 None) nodes (lf_forks w) (lf_waits w) (lf_out w)).
Proof.
  intros Hw. destruct w as [fds nodes forks waits out]. cbn in Hw. subst fds.
  unfold init_console, bind, call. cbn [u_open life_calls lf_nodes]. case_bool_decide as Hn.
  - exists nodes. reflexivity.
  - exists (console :: nodes). cbn [Z.ltb Z.compare u_mknod life_procs lf_nodes].
    rewrite bool_decide_eq_true_2 by (cbn [lf_nodes]; left). reflexivity.
Qed.

(** A shell: its process, and the orphans that init reaps before it. *)
Definition shell_ok (r : Z * list Z) : Prop := 0 < fst r /\ Forall (fun o => 0 <= o /\ o <> fst r) (snd r).

Definition starting : list Z := bytes_of "init: starting sh" ++ nl.
Definition zombies (n : nat) : list Z := concat (replicate n (bytes_of "zombie!" ++ nl)).
Definition session (r : Z * list Z) : list Z := starting ++ zombies (length (snd r)).

Lemma init_wait_reaps fuel pid os rest fds nodes forks out :
  (length os < fuel)%nat -> 0 < pid -> Forall (fun o => 0 <= o /\ o <> pid) os ->
  init_wait fuel pid (Life fds nodes forks (os ++ pid :: rest) out)
  = Ret tt (Life fds nodes forks rest (out ++ zombies (length os))).
Proof.
  intros Hf Hp Hos. revert fuel out Hf. induction Hos as [|o os [Ho Hne] _ IH]; intros fuel out Hf; (destruct fuel as [|fuel]; [cbn in Hf; lia|]).
  - cbn [init_wait app]. unfold bind, call. cbn [u_wait life_procs lf_waits]. rewrite Z.eqb_refl, andb_false_r. unfold ret, zombies. cbn.
    by rewrite app_nil_r.
  - cbn [init_wait app]. unfold bind at 1, call. cbn [u_wait life_procs lf_waits lf_fds lf_nodes lf_forks lf_out].
    rewrite (proj2 (Z.leb_le _ _)), (proj2 (Z.eqb_neq _ _)) by done. cbn [negb andb]. unfold bind at 1. rewrite say_eq by done.
    unfold lset_out. cbn [lf_fds lf_nodes lf_forks lf_waits lf_out]. rewrite IH by (cbn in Hf; lia). do 2 f_equal.
    unfold zombies. cbn [length replicate concat]. by rewrite <- !app_assoc.
Qed.

(** init starts one shell after another, a new one exactly when the last has died, and says so for every orphan it reaps. *)
Lemma init_loop_serves rounds : forall fuel fds nodes out,
  (length rounds + length (concat (map snd rounds)) < fuel)%nat -> Forall shell_ok rounds ->
  init_loop fuel (Life fds nodes (map fst rounds ++ [-1]) (concat (map (fun r => snd r ++ [fst r]) rounds)) out)
  = Sched (Life fds nodes [] [] (out ++ concat (map session rounds) ++ starting ++ bytes_of "init: fork failed" ++ nl)).
Proof.
  induction rounds as [|[pid os] rounds IH]; intros fuel fds nodes out Hf Hok; (destruct fuel as [|fuel]; [cbn in Hf; lia|]).
  - cbn [init_loop map app]. unfold bind at 1. rewrite say_eq by done. unfold bind, call. cbn [u_fork life_procs lset_out lf_forks Z.ltb Z.compare].
    rewrite say_eq by done. unfold lset_out, uexit. cbn [lf_fds lf_nodes lf_forks lf_waits lf_out map concat app]. by rewrite <- !app_assoc.
  - apply Forall_cons in Hok as [[Hp Hos] Hok]. cbn [fst snd] in *. cbn [init_loop map app concat]. unfold bind at 1. rewrite say_eq by done.
    unfold bind at 1, call. cbn [u_fork life_procs lset_out lf_forks lf_fds lf_nodes lf_waits lf_out fst snd].
    rewrite (proj2 (Z.ltb_ge _ _)), (proj2 (Z.eqb_neq _ _)) by lia. unfold bind at 1. cbn [map concat snd length] in Hf. rewrite length_app in Hf.
    rewrite <- app_assoc. cbn [app]. rewrite init_wait_reaps by (done || lia). rewrite IH by (done || lia). do 2 f_equal.
    unfold session, starting. cbn [snd]. by rewrite <- !app_assoc.
Qed.

Lemma init_serves fuel rounds w :
  lf_fds w = replicate 16 None -> lf_forks w = map fst rounds ++ [-1] ->
  lf_waits w = concat (map (fun r => snd r ++ [fst r]) rounds) -> Forall shell_ok rounds ->
  (length rounds + length (concat (map snd rounds)) < fuel)%nat ->
  exists w', init_main fuel w = Sched w' /\ lf_fds w' = Some console :: Some console :: Some console :: replicate 13 None /\
    lf_out w' = lf_out w ++ concat (map session rounds) ++ starting ++ bytes_of "init: fork failed" ++ nl.
Proof.
  intros Hf Hk Hw Hok Hfuel. destruct (init_console_fds w Hf) as [nodes E]. eexists. unfold init_main, bind. rewrite E, Hk, Hw.
  by rewrite init_loop_serves.
Qed.

(** *** forktest *)

Lemma ft_forks_counts (pids : list Z) : forall k n fds nodes waits out,
  (length pids < k)%nat -> Forall (fun p => 0 < p) pids ->
  ft_forks k n (Life fds nodes (pids ++ [-1]) waits out) = Ret (n + length pids)%nat (Life fds nodes [] waits out).
Proof.
  induction pids as [|p pids IH]; intros k n fds nodes waits out Hk Hp; (destruct k as [|k]; [cbn in Hk; lia|]).
  - cbn. by rewrite Nat.add_0_r.
  - apply Forall_cons in Hp as [Hp Hps]. cbn [ft_forks app]. unfold bind, call. cbn [u_fork life_procs lf_forks lf_fds lf_nodes lf_waits lf_out].
    rewrite (proj2 (Z.ltb_ge _ _)), (proj2 (Z.eqb_neq _ _)) by lia. rewrite IH by (done || cbn in Hk; lia). f_equal. cbn. lia.
Qed.

Lemma ft_waits_all (ws : list Z) : forall fds nodes forks rest out,
  Forall (fun x => 0 <= x) ws ->
  ft_waits (length ws) (Life fds nodes forks (ws ++ rest) out) = Ret tt (Life fds nodes forks rest out).
Proof.
  induction ws as [|x ws IH]; intros fds nodes forks rest out Hw; [done|]. apply Forall_cons in Hw as [Hx Hws].
  cbn [length ft_waits app]. unfold bind, call. cbn [u_wait life_procs lf_waits]. rewrite (proj2 (Z.ltb_ge _ _)) by done. by apply IH.
Qed.

(** When the processes run out before the thousandth, and every child is waited for, the test passes. *)
Lemma forktest_passes pids ws fds nodes out :
  (length pids < N_FORKS)%nat -> Forall (fun p => 0 < p) pids -> Forall (fun x => 0 <= x) ws -> length ws = length pids ->
  runs forktest (Life fds nodes (pids ++ [-1]) ws out) (fun _ w' =>
    lf_out w' = (out ++ bytes_of "fork test" ++ nl) ++ bytes_of "fork test OK" ++ nl).
Proof.
  intros Hn Hp Hw Hl. unfold forktest. eapply runs_eq; [reflexivity|]. eapply runs_eq; [by apply ft_forks_counts|].
  cbn [Nat.add]. rewrite (proj2 (Nat.eqb_neq _ _)) by lia.
  pose proof (ft_waits_all ws fds nodes [] [] (out ++ bytes_of "fork test" ++ nl) Hw) as E. rewrite app_nil_r in E.
  rewrite <- Hl. eapply runs_eq; [exact E|].
  eapply runs_eq; [reflexivity|]. eapply runs_eq_last; [reflexivity|]. reflexivity.
Qed.

(** *** schedtest *)

(** With both children made, the last loop kills them and then reads past the array. *)
Lemma sched_kill_reads_past (w : life) a b c :
  0 < b -> 0 < c -> exists w', sched_kill (S N_C_PROCS) 1 [a; b; c] w = Fault w'.
Proof.
  intros Hb Hc. exists w. destruct b as [|b|b]; [lia| |lia]. destruct c as [|c|c]; [lia| |lia]. reflexivity.
Qed.

(** [find_pid] is the first slot with this pid, or -1. *)
Lemma find_pid_first {W} p pid (w : W) :
  length (ps_pid p) = NPROC_U ->
  find_pid p pid w = Ret (match list_find (fun x => x = pid) (ps_pid p) with Some (i, _) => Z.of_nat i | None => -1 end) w.
Proof.
  intros Hl. assert (forall k i, (i + k = NPROC_U)%nat ->
    find_pid_from k (Z.of_nat i) p pid w
    = Ret (match list_find (fun x => x = pid) (drop i (ps_pid p)) with Some (m, _) => Z.of_nat (i + m) | None => -1 end) w) as Hk.
  { induction k as [|k IH]; intros i Hi; cbn [find_pid_from].
    - rewrite drop_ge by lia. done.
    - destruct (lookup_lt_is_Some_2 (ps_pid p) i) as [x Hx]; [lia|]. unfold bind, elem. rewrite (proj2 (Z.ltb_ge _ _)) by lia.
      unfold lift. rewrite Nat2Z.id, Hx. unfold ret. rewrite (drop_S _ x) by done. cbn [list_find].
      destruct (decide (x = pid)) as [->|Hne]; [rewrite Z.eqb_refl; by rewrite Nat.add_0_r|].
      rewrite (proj2 (Z.eqb_neq _ _)) by done. replace (Z.of_nat i + 1) with (Z.of_nat (S i)) by lia. rewrite IH by lia.
      destruct (list_find _ (drop (S i) (ps_pid p))) as [[m y]|]; cbn; [|done]. f_equal. lia. }
  exact (Hk NPROC_U 0%nat eq_refl).
Qed.
