(* ===== verification/UserTests.v ===== *)
(** * The kernel's tests (user/usertests.c)

    The tests of the file system, of pipes and of processes, over the system calls of Ulib.v and UserProcs.v. As there, a program
    is one process, and [fork] returns what it returns in the process followed. A loop that a process never leaves is [nofuel]. *)

From Stdlib Require Import Ascii String.
From S2P Require Import Prelude Types Monad KString Fs Kalloc Print Ulib Utils UserProcs.

(** The calls only the tests make; [pipe] gives both descriptors, or [None] for -1. *)
Class TestCalls (W : Type) := {
  u_chdir : list Z -> W -> Z * W;
  u_pipe : W -> option (Z * Z) * W
}.

(** The process's own memory. [sbrk] gives a pointer, [u_peek] a byte and [u_poke] whether the store is done; an access that
    traps kills the process. [u_link_ptr] is [link] with a pointer that need not be to a string. *)
Class MemCalls (W : Type) := {
  u_sbrk : Z -> W -> Z * W;
  u_peek : Z -> W -> option Z * W;
  u_poke : Z -> Z -> W -> bool * W;
  u_link_ptr : list Z -> Z -> W -> Z * W
}.

(** The globals [buf] and [uninit] of the program, and the system. *)
Record ut (W : Type) := Ut { ut_buf : list Z; ut_uninit : list Z; ut_w : W }.
Arguments Ut {W}.
Arguments ut_buf {W}.
Arguments ut_uninit {W}.
Arguments ut_w {W}.

Section lifted.
Context {W : Type}.

Definition on_system {A} (f : W -> A * W) (s : ut W) : A * ut W :=
  let '(a, w) := f (ut_w s) in (a, Ut (ut_buf s) (ut_uninit s) w).

#[export] Instance ut_sys {sys : Syscalls W} : Syscalls (ut W).
Proof.
  refine {|
    u_read := fun fd n => on_system (u_read fd n);
    u_write := fun fd l => on_system (u_write fd l);
    u_open := fun p m => on_system (u_open p m);
    u_close := fun fd => on_system (u_close fd);
    u_fstat := fun fd => on_system (u_fstat fd);
    u_link := fun a b => on_system (u_link a b);
    u_mkdir := fun p => on_system (u_mkdir p);
    u_unlink := fun p => on_system (u_unlink p);
    u_kill := fun p => on_system (u_kill p)
  |}.
  intros fd n w l w' E. unfold on_system in E. destruct (u_read fd n (ut_w w)) as [r w2] eqn:Er. injection E as -> _.
  by eapply u_read_le.
Defined.

#[export] Instance ut_procs {psys : ProcCalls W} : ProcCalls (ut W) := {|
  u_fork := on_system u_fork;
  u_wait := on_system u_wait;
  u_getpid := on_system u_getpid;
  u_sleep := fun n => on_system (u_sleep n);
  u_exec := fun p a => on_system (u_exec p a);
  u_dup := fun fd => on_system (u_dup fd);
  u_mknod := fun p a b => on_system (u_mknod p a b);
  u_getpinfo := on_system u_getpinfo
|}.

#[export] Instance ut_calls {tsys : TestCalls W} : TestCalls (ut W) := {|
  u_chdir := fun p => on_system (u_chdir p);
  u_pipe := on_system u_pipe
|}.

#[export] Instance ut_mem {msys : MemCalls W} : MemCalls (ut W) := {|
  u_sbrk := fun n => on_system (u_sbrk n);
  u_peek := fun a => on_system (u_peek a);
  u_poke := fun a x => on_system (u_poke a x);
  u_link_ptr := fun p a => on_system (u_link_ptr p a)
|}.
End lifted.

Section tests.
Context {W : Type} {sys : Syscalls W} {psys : ProcCalls W} {tsys : TestCalls W}.

Definition T (A : Type) : Type := M (ut W) A.

Definition O_RDWR_U : Z := 2.
Definition O_WRONLY_U : Z := 1.
Definition O_CREATE_U : Z := 512.

(** ** Calls with literal arguments *)

Definition t_open (p : string) (mode : Z) : T Z := call (u_open (bytes_of p) mode).
Definition t_close (fd : Z) : T Z := call (u_close fd).
Definition t_write (fd : Z) (s : string) : T Z := call (u_write fd (bytes_of s)).
Definition t_link (a b : string) : T Z := call (u_link (bytes_of a) (bytes_of b)).
Definition t_unlink (p : string) : T Z := call (u_unlink (bytes_of p)).
Definition t_mkdir (p : string) : T Z := call (u_mkdir (bytes_of p)).
Definition t_chdir (p : string) : T Z := call (u_chdir (bytes_of p)).

(** A message without a newline, and with a number. *)
Definition put (msg : string) : T unit := uprintf 1 (bytes_of msg) [].
Definition say_d (msg : string) (x : Z) : T unit := uprintf 1 (bytes_of msg ++ nl) [VInt x].

(** [if(c){ printf(1, msg); exit(); }]. *)
Definition die_if (c : bool) (msg : string) : T unit := if c then say 1 msg ;; uexit else ret tt.
Definition die_if_put (c : bool) (msg : string) : T unit := if c then put msg ;; uexit else ret tt.

(** ** The global [buf] *)

Definition BUF : nat := 8192.
Definition get_buf : T (list Z) := gets ut_buf.
Definition put_buf (l : list Z) : T unit := modify (fun s => Ut (splice (ut_buf s) 0 l) (ut_uninit s) (ut_w s)).

(** [read(fd, buf, n)] and [write(fd, buf, n)]. *)
Definition read_buf (fd : Z) (n : nat) : T Z :=
  r <- call (u_read fd n) ;;
  match r with
  | Some l => put_buf l ;; ret (Z.of_nat (length l))
  | None => ret (-1)
  end.
Definition write_buf (fd : Z) (n : nat) : T Z := b <- get_buf ;; call (u_write fd (take n b)).

(** Reading into a local array [b]: the result and the array. *)
Definition read_local (fd : Z) (b : list Z) (n : nat) : T (Z * list Z) :=
  r <- call (u_read fd n) ;;
  match r with
  | Some l => ret (Z.of_nat (length l), splice b 0 l)
  | None => ret (-1, b)
  end.

(** A character is signed. *)
Definition s8 (x : Z) : Z := if x <? 128 then x else x - 256.

(** A loop that goes on with [inl] and ends with [inr]; [fuel] bounds its turns. *)
Fixpoint iter {A B} (fuel : nat) (body : A -> T (A + B)) (a : A) : T B :=
  match fuel with
  | O => nofuel
  | S fuel =>
      r <- body a ;;
      match r with inl a => iter fuel body a | inr b => ret b end
  end.

(** [for(i = 0; i < n; i++)]. *)
Definition for_ (n : Z) (body : Z -> T unit) : T unit := foreach body (seqZ 0 n).

(** [for(;;);]. *)
Definition forever {A} : T A := nofuel.

(** ** Simple file system tests *)

Definition opentest : T unit :=
  say 1 "open test" ;;
  fd <- t_open "echo" 0 ;;
  die_if (fd <? 0) "open echo failed!" ;;
  t_close fd ;;
  fd <- t_open "doesnotexist" 0 ;;
  die_if (0 <=? fd) "open doesnotexist succeeded!" ;;
  say 1 "open test ok".

Definition writetest : T unit :=
  say 1 "small file test" ;;
  fd <- t_open "small" (Z.lor O_CREATE_U O_RDWR_U) ;;
  (if 0 <=? fd then say 1 "creat small succeeded; ok"
   else say 1 "error: creat small failed!" ;; uexit) ;;
  for_ 100 (fun i =>
    r <- t_write fd "aaaaaaaaaa" ;;
    (if negb (r =? 10) then say_d "error: write aa %d new file failed" i ;; uexit else ret tt) ;;
    r <- t_write fd "bbbbbbbbbb" ;;
    (if negb (r =? 10) then say_d "error: write bb %d new file failed" i ;; uexit else ret tt)) ;;
  say 1 "writes ok" ;;
  t_close fd ;;
  fd <- t_open "small" O_RDONLY ;;
  (if 0 <=? fd then say 1 "open small succeeded ok"
   else say 1 "error: open small failed!" ;; uexit) ;;
  i <- read_buf fd 2000 ;;
  (if i =? 2000 then say 1 "read succeeded ok" else say 1 "read failed" ;; uexit) ;;
  t_close fd ;;
  r <- t_unlink "small" ;;
  die_if (r <? 0) "unlink small failed" ;;
  say 1 "small file test ok".

(** [((int* )buf)[0]]. *)
Definition buf_int : T Z := b <- get_buf ;; ret (s32 (get32 b 0)).

(** [fuel] bounds the reads. *)
Definition writetest1 (fuel : nat) : T unit :=
  say 1 "big files test" ;;
  fd <- t_open "big" (Z.lor O_CREATE_U O_RDWR_U) ;;
  die_if (fd <? 0) "error: creat big failed!" ;;
  for_ MAXFILE (fun i =>
    put_buf (le32 i) ;;
    r <- write_buf fd 512 ;;
    if negb (r =? 512) then uprintf 1 (bytes_of "error: write big file failed" ++ nl) [VInt i] ;; uexit else ret tt) ;;
  t_close fd ;;
  fd <- t_open "big" O_RDONLY ;;
  die_if (fd <? 0) "error: open big failed!" ;;
  iter fuel (fun n =>
    i <- read_buf fd 512 ;;
    if i =? 0 then
      (if n =? MAXFILE - 1 then uprintf 1 (bytes_of "read only %d blocks from big") [VInt n] ;; uexit else ret (inr tt))
    else if negb (i =? 512) then say_d "read failed %d" i ;; uexit
    else
      x <- buf_int ;;
      if negb (x =? n) then
        uprintf 1 (bytes_of "read content of block %d is %d" ++ nl) [VInt n; VInt x] ;; uexit
      else ret (inl (n + 1))) 0 ;;
  t_close fd ;;
  r <- t_unlink "big" ;;
  die_if (r <? 0) "unlink big failed" ;;
  say 1 "big files ok".

(** The path ['a', '0' + i] in the global [name], which no other test uses. *)
Definition a_name (i : Z) : list Z := [97; 48 + i].

Definition createtest : T unit :=
  say 1 "many creates, followed by unlink test" ;;
  for_ 52 (fun i =>
    fd <- call (u_open (a_name i) (Z.lor O_CREATE_U O_RDWR_U)) ;;
    t_close fd ;; ret tt) ;;
  for_ 52 (fun i => call (u_unlink (a_name i)) ;; ret tt) ;;
  say 1 "many creates, followed by unlink; ok".

Definition dirtest : T unit :=
  say 1 "mkdir test" ;;
  r <- t_mkdir "dir0" ;;
  die_if (r <? 0) "mkdir failed" ;;
  r <- t_chdir "dir0" ;;
  die_if (r <? 0) "chdir dir0 failed" ;;
  r <- t_chdir ".." ;;
  die_if (r <? 0) "chdir .. failed" ;;
  r <- t_unlink "dir0" ;;
  die_if (r <? 0) "unlink dir0 failed" ;;
  say 1 "mkdir test".

Definition echoargv : list (list Z) := map bytes_of ["echo"; "ALL"; "TESTS"; "PASSED"].

Definition exectest : T unit :=
  say 1 "exec test" ;;
  exec_or_return (bytes_of "echo") echoargv ;;
  say 1 "exec echo failed" ;;
  uexit.

(** ** Pipes and processes *)

(** The bytes [seq], [seq + 1], ... as characters. *)
Definition seq_bytes (seq : Z) (n : nat) : list Z := map (fun k => u8 (seq + k)) (seqZ 0 (Z.of_nat n)).

(** [(buf[i] & 0xff) != (seq++ & 0xff)] for no element. *)
Fixpoint seq_matches (l : list Z) (seq : Z) : bool :=
  match l with
  | [] => true
  | x :: l => (Z.land x 255 =? Z.land seq 255) && seq_matches l (seq + 1)
  end.

Definition pipe1_child (r w : Z) : T unit :=
  t_close r ;;
  for_ 5 (fun n =>
    put_buf (seq_bytes (1033 * n) 1033) ;;
    x <- write_buf w 1033 ;;
    die_if (negb (x =? 1033)) "pipe1 oops 1") ;;
  uexit.

(** A turn of the reader, with [seq], [total] and [cc]; [None] for the [return] in the loop. *)
Definition pipe1_step (r : Z) (x : Z * Z * Z) : T (Z * Z * Z + option Z) :=
  let '(seq, total, cc) := x in
  n <- read_buf r (Z.to_nat cc) ;;
  if 0 <? n then
    b <- get_buf ;;
    if negb (seq_matches (take (Z.to_nat n) b) seq) then say 1 "pipe1 oops 2" ;; ret (inr None)
    else
      let cc := cc * 2 in
      ret (inl (seq + n, total + n, if Z.of_nat BUF <? cc then Z.of_nat BUF else cc))
  else ret (inr (Some total)).

Definition pipe1_reader (fuel : nat) (r : Z) : T (option Z) := iter fuel (pipe1_step r) (0, 0, 1).

Definition pipe1 (fuel : nat) : T unit :=
  p <- call u_pipe ;;
  match p with
  | None => say 1 "pipe() failed" ;; uexit
  | Some (r, w) =>
      pid <- call u_fork ;;
      if pid =? 0 then pipe1_child r w
      else if 0 <? pid then
        t_close w ;;
        o <- pipe1_reader fuel r ;;
        match o with
        | None => ret tt
        | Some total =>
            (if negb (total =? 5 * 1033) then say_d "pipe1 oops 3 total %d" total ;; uexit else ret tt) ;;
            t_close r ;;
            call u_wait ;;
            say 1 "pipe1 ok"
        end
      else say 1 "fork() failed" ;; uexit
  end.

(** [pfds] is what the array holds when [pipe] fails. *)
Definition preempt (pfds : Z * Z) : T unit :=
  put "preempt: " ;;
  pid1 <- call u_fork ;;
  if pid1 =? 0 then forever else
  pid2 <- call u_fork ;;
  if pid2 =? 0 then forever else
  p <- call u_pipe ;;
  let '(r, w) := default pfds p in
  pid3 <- call u_fork ;;
  if pid3 =? 0 then
    t_close r ;;
    x <- t_write w "x" ;;
    (if negb (x =? 1) then put "preempt write error" else ret tt) ;;
    t_close w ;;
    forever
  else
  t_close w ;;
  n <- read_buf r BUF ;;
  if negb (n =? 1) then put "preempt read error" else
  t_close r ;;
  put "kill... " ;;
  call (u_kill pid1) ;;
  call (u_kill pid2) ;;
  call (u_kill pid3) ;;
  put "wait... " ;;
  call u_wait ;;
  call u_wait ;;
  call u_wait ;;
  say 1 "preempt ok".

(** One turn of the loop; [false] for a [return] in it. *)
Definition exitwait_step (i : Z) : T (Z + bool) :=
  if i <? 100 then
    pid <- call u_fork ;;
    if pid <? 0 then say 1 "fork failed" ;; ret (inr false) else
    if negb (pid =? 0) then
      r <- call u_wait ;;
      if negb (r =? pid) then say 1 "wait wrong pid" ;; ret (inr false) else ret (inl (i + 1))
    else uexit
  else ret (inr true).

Definition exitwait : T unit :=
  ok <- iter 101 exitwait_step 0 ;;
  if (ok : bool) then say 1 "exitwait ok" else ret tt.

(** ** More file system tests *)

(** How often [c] occurs. *)
Definition count_char (c : Z) (l : list Z) : Z := Z.of_nat (length (List.filter (Z.eqb c) l)).

(** [pid == 0 ? 'c' : 'p']. *)
Definition who (pid : Z) : Z := if pid =? 0 then 99 else 112.

(** The writes: until one fails. *)
Definition sharedfd_writes (fd : Z) (b : list Z) : T unit :=
  iter 1001 (fun i =>
    if i <? 1000 then
      r <- call (u_write fd b) ;;
      if negb (r =? 10) then say 1 "fstests: write sharedfd failed" ;; ret (inr tt) else ret (inl (i + 1))
    else ret (inr tt)) 0.

(** [fuel] bounds the reads. All ten bytes of the array are counted, however many were read. *)
Definition sharedfd (fuel : nat) : T unit :=
  say 1 "sharedfd test" ;;
  t_unlink "sharedfd" ;;
  fd <- t_open "sharedfd" (Z.lor O_CREATE_U O_RDWR_U) ;;
  if fd <? 0 then put "fstests: cannot open sharedfd for writing" else
  pid <- call u_fork ;;
  let b := replicate 10 (who pid) in
  sharedfd_writes fd b ;;
  (if pid =? 0 then uexit else call u_wait ;; ret tt) ;;
  t_close fd ;;
  fd <- t_open "sharedfd" 0 ;;
  if fd <? 0 then say 1 "fstests: cannot open sharedfd for reading" else
  let* (nc, np) := iter fuel (fun '(nc, np, b) =>
    let* (n, b) := read_local fd b 10 in
    if 0 <? n then ret (inl (nc + count_char 99 b, np + count_char 112 b, b)) else ret (inr (nc, np))) (0, 0, b) in
  t_close fd ;;
  t_unlink "sharedfd" ;;
  if (nc =? 10000) && (np =? 10000) then say 1 "sharedfd ok"
  else uprintf 1 (bytes_of "sharedfd oops %d %d" ++ nl) [VInt nc; VInt np] ;; uexit.

(** One of the two files read back: the total. *)
Definition twofiles_read (fuel : nat) (fd c : Z) : T Z :=
  iter fuel (fun total =>
    n <- read_buf fd BUF ;;
    if 0 <? n then
      b <- get_buf ;;
      die_if (negb (forallb (Z.eqb c) (take (Z.to_nat n) b))) "wrong char" ;;
      ret (inl (total + n))
    else ret (inr total)) 0.

Definition twofiles (fuel : nat) : T unit :=
  say 1 "twofiles test" ;;
  t_unlink "f1" ;;
  t_unlink "f2" ;;
  pid <- call u_fork ;;
  die_if (pid <? 0) "fork failed" ;;
  fd <- t_open (if negb (pid =? 0) then "f1" else "f2") (Z.lor O_CREATE_U O_RDWR_U) ;;
  die_if (fd <? 0) "create failed" ;;
  put_buf (replicate 512 (who pid)) ;;
  for_ 12 (fun _ =>
    n <- write_buf fd 500 ;;
    if negb (n =? 500) then say_d "write failed %d" n ;; uexit else ret tt) ;;
  t_close fd ;;
  (if negb (pid =? 0) then call u_wait ;; ret tt else uexit) ;;
  for_ 2 (fun i =>
    fd <- t_open (if negb (i =? 0) then "f1" else "f2") 0 ;;
    total <- twofiles_read fuel fd (if negb (i =? 0) then 112 else 99) ;;
    t_close fd ;;
    if negb (total =? 12 * 500) then say_d "wrong length %d" total ;; uexit else ret tt) ;;
  t_unlink "f1" ;;
  t_unlink "f2" ;;
  say 1 "twofiles ok".

(** The path [c, '0' + i]. *)
Definition c_name (c i : Z) : list Z := [c; 48 + i].

(** [N] is 20. *)
Definition N_CD : Z := 20.

(** The file should be there exactly when [i] is 0 or at least [N/2]. *)
Definition createdelete_check (c i : Z) : T unit :=
  fd <- call (u_open (c_name c i) 0) ;;
  (if ((i =? 0) || (N_CD / 2 <=? i)) && (fd <? 0) then say_s 1 "oops createdelete %s didn't exist" (c_name c i) ;; uexit
   else if ((1 <=? i) && (i <? N_CD / 2)) && (0 <=? fd) then say_s 1 "oops createdelete %s did exist" (c_name c i) ;; uexit
   else ret tt) ;;
  if 0 <=? fd then t_close fd ;; ret tt else ret tt.

Definition createdelete : T unit :=
  say 1 "createdelete test" ;;
  pid <- call u_fork ;;
  die_if (pid <? 0) "fork failed" ;;
  for_ N_CD (fun i =>
    fd <- call (u_open (c_name (who pid) i) (Z.lor O_CREATE_U O_RDWR_U)) ;;
    die_if (fd <? 0) "create failed" ;;
    t_close fd ;;
    if (0 <? i) && (i mod 2 =? 0) then
      r <- call (u_unlink (c_name (who pid) (i / 2))) ;;
      die_if (r <? 0) "unlink failed"
    else ret tt) ;;
  (if pid =? 0 then uexit else call u_wait ;; ret tt) ;;
  for_ N_CD (fun i => createdelete_check 112 i ;; createdelete_check 99 i) ;;
  for_ N_CD (fun i => call (u_unlink (c_name 112 i)) ;; call (u_unlink (c_name 99 i)) ;; ret tt) ;;
  say 1 "createdelete ok".

Definition unlinkread : T unit :=
  say 1 "unlinkread test" ;;
  fd <- t_open "unlinkread" (Z.lor O_CREATE_U O_RDWR_U) ;;
  die_if (fd <? 0) "create unlinkread failed" ;;
  t_write fd "hello" ;;
  t_close fd ;;
  fd <- t_open "unlinkread" O_RDWR_U ;;
  die_if (fd <? 0) "open unlinkread failed" ;;
  r <- t_unlink "unlinkread" ;;
  die_if (negb (r =? 0)) "unlink unlinkread failed" ;;
  fd1 <- t_open "unlinkread" (Z.lor O_CREATE_U O_RDWR_U) ;;
  t_write fd1 "yyy" ;;
  t_close fd1 ;;
  n <- read_buf fd BUF ;;
  die_if_put (negb (n =? 5)) "unlinkread read failed" ;;
  b <- get_buf ;;
  die_if (negb (byte_at b 0 =? 104)) "unlinkread wrong data" ;;
  n <- write_buf fd 10 ;;
  die_if (negb (n =? 10)) "unlinkread write failed" ;;
  t_close fd ;;
  t_unlink "unlinkread" ;;
  say 1 "unlinkread ok".

Definition linktest : T unit :=
  say 1 "linktest" ;;
  t_unlink "lf1" ;;
  t_unlink "lf2" ;;
  fd <- t_open "lf1" (Z.lor O_CREATE_U O_RDWR_U) ;;
  die_if (fd <? 0) "create lf1 failed" ;;
  r <- t_write fd "hello" ;;
  die_if (negb (r =? 5)) "write lf1 failed" ;;
  t_close fd ;;
  r <- t_link "lf1" "lf2" ;;
  die_if (r <? 0) "link lf1 lf2 failed" ;;
  t_unlink "lf1" ;;
  r <- t_open "lf1" 0 ;;
  die_if (0 <=? r) "unlinked lf1 but it is still there!" ;;
  fd <- t_open "lf2" 0 ;;
  die_if (fd <? 0) "open lf2 failed" ;;
  n <- read_buf fd BUF ;;
  die_if (negb (n =? 5)) "read lf2 failed" ;;
  t_close fd ;;
  r <- t_link "lf2" "lf2" ;;
  die_if (0 <=? r) "link lf2 lf2 succeeded! oops" ;;
  t_unlink "lf2" ;;
  r <- t_link "lf2" "lf1" ;;
  die_if (0 <=? r) "link non-existant succeeded! oops" ;;
  r <- t_link "." "lf1" ;;
  die_if (0 <=? r) "link . lf1 succeeded! oops" ;;
  say 1 "linktest ok".

(** The directory listing of [concreate]: the marks [fa], the count [n] and the entry [de] last read. *)
Definition concreate_list (fuel : nat) (fd : Z) (de : list Z) : T Z :=
  iter fuel (fun '(fa, n, de) =>
    let* (r, de) := read_local fd de 16 in
    if 0 <? r then
      let name := drop 2 de in
      if get16 de 0 =? 0 then ret (inl (fa, n, de)) else
      if (byte_at name 0 =? 67) && (byte_at name 2 =? 0) then
        let i := s8 (byte_at name 1) - 48 in
        if (i <? 0) || (40 <=? i) then say_s 1 "concreate weird file %s" (cstr 14 name) ;; uexit else
        if negb (byte_at fa (Z.to_nat i) =? 0) then say_s 1 "concreate duplicate file %s" (cstr 14 name) ;; uexit else
        ret (inl (<[Z.to_nat i := 1]> fa, n + 1, de))
      else ret (inl (fa, n, de))
    else ret (inr n)) (replicate 40 0, 0, de).

(** [de] is what the local structure holds at first. *)
Definition concreate (fuel : nat) (de : list Z) : T unit :=
  say 1 "concreate test" ;;
  for_ 40 (fun i =>
    let file := c_name 67 i in
    call (u_unlink file) ;;
    pid <- call u_fork ;;
    (if negb (pid =? 0) && (i mod 3 =? 1) then call (u_link (bytes_of "C0") file) ;; ret tt
     else if (pid =? 0) && (i mod 5 =? 1) then call (u_link (bytes_of "C0") file) ;; ret tt
     else
       fd <- call (u_open file (Z.lor O_CREATE_U O_RDWR_U)) ;;
       (if fd <? 0 then say_s 1 "concreate create %s failed" file ;; uexit else ret tt) ;;
       t_close fd ;; ret tt) ;;
    if pid =? 0 then uexit else call u_wait ;; ret tt) ;;
  fd <- t_open "." 0 ;;
  n <- concreate_list fuel fd de ;;
  t_close fd ;;
  die_if (negb (n =? 40)) "concreate not enough files in directory listing" ;;
  for_ 40 (fun i =>
    let file := c_name 67 i in
    pid <- call u_fork ;;
    die_if (pid <? 0) "fork failed" ;;
    (if ((i mod 3 =? 0) && (pid =? 0)) || ((i mod 3 =? 1) && negb (pid =? 0)) then
       for_ 4 (fun _ => fd <- call (u_open file 0) ;; t_close fd ;; ret tt)
     else for_ 4 (fun _ => call (u_unlink file) ;; ret tt)) ;;
    if pid =? 0 then uexit else call u_wait ;; ret tt) ;;
  say 1 "concreate ok".

(** [x] is an [unsigned int]. *)
Definition linkunlink : T unit :=
  say 1 "linkunlink test" ;;
  t_unlink "x" ;;
  pid <- call u_fork ;;
  die_if (pid <? 0) "fork failed" ;;
  iter 101 (fun '(i, x) =>
    if i <? 100 then
      let x := u32 (x * 1103515245 + 12345) in
      (if x mod 3 =? 0 then fd <- t_open "x" (Z.lor O_RDWR_U O_CREATE_U) ;; t_close fd
       else if x mod 3 =? 1 then t_link "cat" "x"
       else t_unlink "x") ;;
      ret (inl (i + 1, x))
    else ret (inr tt)) (0, if negb (pid =? 0) then 1 else 97) ;;
  (if negb (pid =? 0) then call u_wait ;; ret tt else uexit) ;;
  say 1 "linkunlink ok".

Definition x_name (i : Z) : list Z := [120; 48 + i / 64; 48 + i mod 64].

Definition bigdir : T unit :=
  say 1 "bigdir test" ;;
  t_unlink "bd" ;;
  fd <- t_open "bd" O_CREATE_U ;;
  die_if (fd <? 0) "bigdir create failed" ;;
  t_close fd ;;
  for_ 500 (fun i =>
    r <- call (u_link (bytes_of "bd") (x_name i)) ;;
    die_if (negb (r =? 0)) "bigdir link failed") ;;
  t_unlink "bd" ;;
  for_ 500 (fun i =>
    r <- call (u_unlink (x_name i)) ;;
    die_if_put (negb (r =? 0)) "bigdir unlink failed") ;;
  say 1 "bigdir ok".

(** The first part makes the directories and files. *)
Definition subdir_make : T unit :=
  say 1 "subdir test" ;;
  t_unlink "ff" ;;
  r <- t_mkdir "dd" ;;
  die_if (negb (r =? 0)) "subdir mkdir dd failed" ;;
  fd <- t_open "dd/ff" (Z.lor O_CREATE_U O_RDWR_U) ;;
  die_if (fd <? 0) "create dd/ff failed" ;;
  t_write fd "ff" ;;
  t_close fd ;;
  r <- t_unlink "dd" ;;
  die_if (0 <=? r) "unlink dd (non-empty dir) succeeded!" ;;
  r <- t_mkdir "/dd/dd" ;;
  die_if (negb (r =? 0)) "subdir mkdir dd/dd failed" ;;
  fd <- t_open "dd/dd/ff" (Z.lor O_CREATE_U O_RDWR_U) ;;
  die_if (fd <? 0) "create dd/dd/ff failed" ;;
  t_write fd "FF" ;;
  t_close fd ;;
  fd <- t_open "dd/dd/../ff" 0 ;;
  die_if (fd <? 0) "open dd/dd/../ff failed" ;;
  cc <- read_buf fd BUF ;;
  b <- get_buf ;;
  die_if (negb (cc =? 2) || negb (byte_at b 0 =? 102)) "dd/dd/../ff wrong content" ;;
  t_close fd ;;
  r <- t_link "dd/dd/ff" "dd/dd/ffff" ;;
  die_if (negb (r =? 0)) "link dd/dd/ff dd/dd/ffff failed" ;;
  r <- t_unlink "dd/dd/ff" ;;
  die_if (negb (r =? 0)) "unlink dd/dd/ff failed" ;;
  r <- t_open "dd/dd/ff" O_RDONLY ;;
  die_if (0 <=? r) "open (unlinked) dd/dd/ff succeeded".

(** The second walks through them, tries what must fail, and removes them. *)
Definition subdir_try : T unit :=
  r <- t_chdir "dd" ;;
  die_if (negb (r =? 0)) "chdir dd failed" ;;
  r <- t_chdir "dd/../../dd" ;;
  die_if (negb (r =? 0)) "chdir dd/../../dd failed" ;;
  r <- t_chdir "dd/../../../dd" ;;
  die_if (negb (r =? 0)) "chdir dd/../../dd failed" ;;
  r <- t_chdir "./.." ;;
  die_if (negb (r =? 0)) "chdir ./.. failed" ;;
  fd <- t_open "dd/dd/ffff" 0 ;;
  die_if (fd <? 0) "open dd/dd/ffff failed" ;;
  n <- read_buf fd BUF ;;
  die_if (negb (n =? 2)) "read dd/dd/ffff wrong len" ;;
  t_close fd ;;
  r <- t_open "dd/dd/ff" O_RDONLY ;;
  die_if (0 <=? r) "open (unlinked) dd/dd/ff succeeded!" ;;
  r <- t_open "dd/ff/ff" (Z.lor O_CREATE_U O_RDWR_U) ;;
  die_if (0 <=? r) "create dd/ff/ff succeeded!" ;;
  r <- t_open "dd/xx/ff" (Z.lor O_CREATE_U O_RDWR_U) ;;
  die_if (0 <=? r) "create dd/xx/ff succeeded!" ;;
  r <- t_open "dd" O_CREATE_U ;;
  die_if (0 <=? r) "create dd succeeded!" ;;
  r <- t_open "dd" O_RDWR_U ;;
  die_if (0 <=? r) "open dd rdwr succeeded!" ;;
  r <- t_open "dd" O_WRONLY_U ;;
  die_if (0 <=? r) "open dd wronly succeeded!" ;;
  r <- t_link "dd/ff/ff" "dd/dd/xx" ;;
  die_if (r =? 0) "link dd/ff/ff dd/dd/xx succeeded!" ;;
  r <- t_link "dd/xx/ff" "dd/dd/xx" ;;
  die_if (r =? 0) "link dd/xx/ff dd/dd/xx succeeded!" ;;
  r <- t_link "dd/ff" "dd/dd/ffff" ;;
  die_if (r =? 0) "link dd/ff dd/dd/ffff succeeded!" ;;
  r <- t_mkdir "dd/ff/ff" ;;
  die_if (r =? 0) "mkdir dd/ff/ff succeeded!" ;;
  r <- t_mkdir "dd/xx/ff" ;;
  die_if (r =? 0) "mkdir dd/xx/ff succeeded!" ;;
  r <- t_mkdir "dd/dd/ffff" ;;
  die_if (r =? 0) "mkdir dd/dd/ffff succeeded!" ;;
  r <- t_unlink "dd/xx/ff" ;;
  die_if (r =? 0) "unlink dd/xx/ff succeeded!" ;;
  r <- t_unlink "dd/ff/ff" ;;
  die_if (r =? 0) "unlink dd/ff/ff succeeded!" ;;
  r <- t_chdir "dd/ff" ;;
  die_if (r =? 0) "chdir dd/ff succeeded!" ;;
  r <- t_chdir "dd/xx" ;;
  die_if (r =? 0) "chdir dd/xx succeeded!" ;;
  r <- t_unlink "dd/dd/ffff" ;;
  die_if (negb (r =? 0)) "unlink dd/dd/ff failed" ;;
  r <- t_unlink "dd/ff" ;;
  die_if (negb (r =? 0)) "unlink dd/ff failed" ;;
  r <- t_unlink "dd" ;;
  die_if (r =? 0) "unlink non-empty dd succeeded!" ;;
  r <- t_unlink "dd/dd" ;;
  die_if (r <? 0) "unlink dd/dd failed" ;;
  r <- t_unlink "dd" ;;
  die_if (r <? 0) "unlink dd failed" ;;
  say 1 "subdir ok".

Definition subdir : T unit := subdir_make ;; subdir_try.

(** [for(sz = 499; sz < 12*512; sz += 471)]. *)
Definition bigwrite : T unit :=
  say 1 "bigwrite test" ;;
  t_unlink "bigwrite" ;;
  iter 13 (fun sz =>
    if sz <? 12 * 512 then
      fd <- t_open "bigwrite" (Z.lor O_CREATE_U O_RDWR_U) ;;
      die_if (fd <? 0) "cannot create bigwrite" ;;
      for_ 2 (fun _ =>
        cc <- write_buf fd (Z.to_nat sz) ;;
        if negb (cc =? sz) then uprintf 1 (bytes_of "write(%d) ret %d" ++ nl) [VInt sz; VInt cc] ;; uexit else ret tt) ;;
      t_close fd ;;
      t_unlink "bigwrite" ;;
      ret (inl (sz + 471))
    else ret (inr tt)) 499 ;;
  say 1 "bigwrite ok".

(** The file read back in pieces of 300 bytes: the total. *)
Definition bigfile_read (fuel : nat) (fd : Z) : T Z :=
  iter fuel (fun '(i, total) =>
    cc <- read_buf fd 300 ;;
    die_if (cc <? 0) "read bigfile failed" ;;
    if cc =? 0 then ret (inr total) else
    die_if (negb (cc =? 300)) "short read bigfile" ;;
    b <- get_buf ;;
    die_if (negb (s8 (byte_at b 0) =? i / 2) || negb (s8 (byte_at b 299) =? i / 2)) "read bigfile wrong data" ;;
    ret (inl (i + 1, total + cc))) (0, 0).

Definition bigfile (fuel : nat) : T unit :=
  say 1 "bigfile test" ;;
  t_unlink "bigfile" ;;
  fd <- t_open "bigfile" (Z.lor O_CREATE_U O_RDWR_U) ;;
  die_if_put (fd <? 0) "cannot create bigfile" ;;
  for_ 20 (fun i =>
    put_buf (replicate 600 i) ;;
    r <- write_buf fd 600 ;;
    die_if (negb (r =? 600)) "write bigfile failed") ;;
  t_close fd ;;
  fd <- t_open "bigfile" 0 ;;
  die_if (fd <? 0) "cannot open bigfile" ;;
  total <- bigfile_read fuel fd ;;
  t_close fd ;;
  die_if (negb (total =? 20 * 600)) "read bigfile wrong total" ;;
  t_unlink "bigfile" ;;
  say 1 "bigfile test ok".

Definition fourteen : T unit :=
  say 1 "fourteen test" ;;
  r <- t_mkdir "12345678901234" ;;
  die_if (negb (r =? 0)) "mkdir 12345678901234 failed" ;;
  r <- t_mkdir "12345678901234/123456789012345" ;;
  die_if (negb (r =? 0)) "mkdir 12345678901234/123456789012345 failed" ;;
  fd <- t_open "123456789012345/123456789012345/123456789012345" O_CREATE_U ;;
  die_if (fd <? 0) "create 123456789012345/123456789012345/123456789012345 failed" ;;
  t_close fd ;;
  fd <- t_open "12345678901234/12345678901234/12345678901234" 0 ;;
  die_if (fd <? 0) "open 12345678901234/12345678901234/12345678901234 failed" ;;
  t_close fd ;;
  r <- t_mkdir "12345678901234/12345678901234" ;;
  die_if (r =? 0) "mkdir 12345678901234/12345678901234 succeeded!" ;;
  r <- t_mkdir "123456789012345/12345678901234" ;;
  die_if (r =? 0) "mkdir 12345678901234/123456789012345 succeeded!" ;;
  say 1 "fourteen ok".

Definition rmdot : T unit :=
  say 1 "rmdot test" ;;
  r <- t_mkdir "dots" ;;
  die_if (negb (r =? 0)) "mkdir dots failed" ;;
  r <- t_chdir "dots" ;;
  die_if (negb (r =? 0)) "chdir dots failed" ;;
  r <- t_unlink "." ;;
  die_if (r =? 0) "rm . worked!" ;;
  r <- t_unlink ".." ;;
  die_if (r =? 0) "rm .. worked!" ;;
  r <- t_chdir "/" ;;
  die_if (negb (r =? 0)) "chdir / failed" ;;
  r <- t_unlink "dots/." ;;
  die_if (r =? 0) "unlink dots/. worked!" ;;
  r <- t_unlink "dots/.." ;;
  die_if (r =? 0) "unlink dots/.. worked!" ;;
  r <- t_unlink "dots" ;;
  die_if (negb (r =? 0)) "unlink dots failed!" ;;
  say 1 "rmdot ok".

Definition dirfile : T unit :=
  say 1 "dir vs file" ;;
  fd <- t_open "dirfile" O_CREATE_U ;;
  die_if (fd <? 0) "create dirfile failed" ;;
  t_close fd ;;
  r <- t_chdir "dirfile" ;;
  die_if (r =? 0) "chdir dirfile succeeded!" ;;
  fd <- t_open "dirfile/xx" 0 ;;
  die_if (0 <=? fd) "create dirfile/xx succeeded!" ;;
  fd <- t_open "dirfile/xx" O_CREATE_U ;;
  die_if (0 <=? fd) "create dirfile/xx succeeded!" ;;
  r <- t_mkdir "dirfile/xx" ;;
  die_if (r =? 0) "mkdir dirfile/xx succeeded!" ;;
  r <- t_unlink "dirfile/xx" ;;
  die_if (r =? 0) "unlink dirfile/xx succeeded!" ;;
  r <- t_link "README" "dirfile/xx" ;;
  die_if (r =? 0) "link to dirfile/xx succeeded!" ;;
  r <- t_unlink "dirfile" ;;
  die_if (negb (r =? 0)) "unlink dirfile failed!" ;;
  fd <- t_open "." O_RDWR_U ;;
  die_if (0 <=? fd) "open . for writing succeeded!" ;;
  fd <- t_open "." 0 ;;
  r <- t_write fd "x" ;;
  die_if (0 <? r) "write . succeeded!" ;;
  t_close fd ;;
  say 1 "dir vs file OK".

Definition iref : T unit :=
  say 1 "empty file name" ;;
  for_ (50 + 1) (fun i =>
    r <- t_mkdir "irefd" ;;
    die_if (negb (r =? 0)) "mkdir irefd failed" ;;
    r <- t_chdir "irefd" ;;
    die_if (negb (r =? 0)) "chdir irefd failed" ;;
    t_mkdir EmptyString ;;
    t_link "README" EmptyString ;;
    fd <- t_open EmptyString O_CREATE_U ;;
    (if 0 <=? fd then t_close fd else ret 0) ;;
    fd <- t_open "xx" O_CREATE_U ;;
    (if 0 <=? fd then t_close fd else ret 0) ;;
    t_unlink "xx" ;;
    ret tt) ;;
  t_chdir "/" ;;
  say 1 "empty file name OK".

(** ** Processes, arguments, blocks *)

(** The loops are those of user/forktest.c, with the library's [printf]. *)
Fixpoint ut_waits (n : nat) : T unit :=
  match n with
  | O => ret tt
  | S n =>
      r <- call u_wait ;;
      die_if (r <? 0) "wait stopped early" ;;
      ut_waits n
  end.

Definition ut_forktest : T unit :=
  say 1 "fork test" ;;
  n <- ft_forks 1000 0 ;;
  die_if (n =? 1000)%nat "fork claimed to work 1000 times!" ;;
  ut_waits n ;;
  r <- call u_wait ;;
  die_if (negb (r =? -1)) "wait got too many" ;;
  say 1 "fork test OK".

Definition bsstest : T unit :=
  say 1 "bss test" ;;
  u <- gets ut_uninit ;;
  die_if (negb (forallb (Z.eqb 0) u)) "bss test failed" ;;
  say 1 "bss test ok".

Definition MAXARG_U : nat := 32.
Definition bigargs : list (list Z) :=
  replicate (MAXARG_U - 1) (bytes_of "bigargs test: failed" ++ nl ++ replicate 199 32).

Definition bigargtest : T unit :=
  t_unlink "bigarg-ok" ;;
  pid <- call u_fork ;;
  (if pid =? 0 then
     say 1 "bigarg test" ;;
     exec_or_return (bytes_of "echo") bigargs ;;
     say 1 "bigarg test ok" ;;
     fd <- t_open "bigarg-ok" O_CREATE_U ;;
     t_close fd ;;
     uexit
   else if pid <? 0 then say 1 "bigargtest: fork failed" ;; uexit
   else ret tt) ;;
  call u_wait ;;
  fd <- t_open "bigarg-ok" 0 ;;
  die_if (fd <? 0) "bigarg test failed!" ;;
  t_close fd ;;
  t_unlink "bigarg-ok" ;;
  ret tt.

(** The name of file [n]: its digits, as characters. *)
Definition f_name (n : Z) : list Z :=
  [102; u8 (48 + n / 1000); u8 (48 + n mod 1000 / 100); u8 (48 + n mod 100 / 10); u8 (48 + n mod 10)].

(** [fuel] bounds the files made, and the writes to each. The result is [nfiles]. *)
Definition fsfull_fill (fuel : nat) : T Z :=
  iter fuel (fun nfiles =>
    let name := f_name nfiles in
    say_s 1 "writing %s" name ;;
    fd <- call (u_open name (Z.lor O_CREATE_U O_RDWR_U)) ;;
    if fd <? 0 then say_s 1 "open %s failed" name ;; ret (inr nfiles) else
    total <- iter fuel (fun total =>
      cc <- write_buf fd 512 ;;
      if cc <? 512 then ret (inr total) else ret (inl (total + cc))) 0 ;;
    say_d "wrote %d bytes" total ;;
    t_close fd ;;
    if total =? 0 then ret (inr nfiles) else ret (inl (nfiles + 1))) 0.

Definition fsfull (fuel : nat) : T unit :=
  say 1 "fsfull test" ;;
  nfiles <- fsfull_fill fuel ;;
  foreach (fun n => call (u_unlink (f_name n)) ;; ret tt) (rev (seqZ 0 (nfiles + 1))) ;;
  say 1 "fsfull test finished".

(** [randstate] is an [unsigned long]: the number and the new state. *)
Definition rand (randstate : Z) : Z * Z :=
  let r := u64 (randstate * 1664525 + 1013904223) in (u32 r, r).

(** ** Memory *)

Context {msys : MemCalls W}.

(** The argument is an [int]. *)
Definition sbrk_u (n : Z) : T Z := call (u_sbrk (s32 n)).
Definition peek (a : Z) : T Z := o <- call (u_peek a) ;; match o with Some x => ret (s8 x) | None => uexit end.
Definition poke_u (a x : Z) : T unit := ok <- call (u_poke a x) ;; if (ok : bool) then ret tt else uexit.

Definition BIG : Z := 100 * 1024 * 1024.

(** [sbrk(BIG - (uint)a)]. *)
Definition to_big (a : Z) : T Z := sbrk_u (u32 (BIG - u32 a)).

(** [(char* )0xffffffff], which the tests take for the failure of [sbrk]. *)
Definition bad_ptr : Z := 4294967295.

(** One byte at a time, and after [fork]: where the break is then. *)
Definition sbrk_bytes : T unit :=
  a <- sbrk_u 0 ;;
  a <- iter 5001 (fun '(i, a) =>
    if i <? 5000 then
      b <- sbrk_u 1 ;;
      (if negb (b =? a) then
         uprintf 1 (bytes_of "sbrk test failed %d %x %x" ++ nl) [VInt i; VInt a; VInt b] ;; uexit
       else ret tt) ;;
      poke_u b 1 ;;
      ret (inl (i + 1, u64 (b + 1)))
    else ret (inr a)) (0, a) ;;
  pid <- call u_fork ;;
  die_if (pid <? 0) "sbrk test fork failed" ;;
  sbrk_u 1 ;;
  c <- sbrk_u 1 ;;
  die_if (negb (c =? u64 (a + 1))) "sbrk test failed post-fork" ;;
  (if pid =? 0 then uexit else ret tt) ;;
  call u_wait ;;
  ret tt.

(** A big address space, a page given back and taken again, and everything given back. *)
Definition sbrk_big (oldbrk : Z) : T unit :=
  a <- sbrk_u 0 ;;
  p <- to_big a ;;
  die_if (negb (p =? a)) "sbrk test failed to grow big address space; enough phys mem?" ;;
  let lastaddr := BIG - 1 in
  poke_u lastaddr 99 ;;
  a <- sbrk_u 0 ;;
  c <- sbrk_u (-4096) ;;
  die_if (c =? bad_ptr) "sbrk could not deallocate" ;;
  c <- sbrk_u 0 ;;
  (if negb (c =? u64 (a - 4096)) then
     uprintf 1 (bytes_of "sbrk deallocation produced wrong address, a %x c %x" ++ nl) [VInt a; VInt c] ;; uexit
   else ret tt) ;;
  a <- sbrk_u 0 ;;
  c <- sbrk_u 4096 ;;
  wrong <- (if negb (c =? a) then ret true else x <- sbrk_u 0 ;; ret (negb (x =? u64 (a + 4096)))) ;;
  (if (wrong : bool) then
     uprintf 1 (bytes_of "sbrk re-allocation failed, a %x c %x" ++ nl) [VInt a; VInt c] ;; uexit
   else ret tt) ;;
  x <- peek lastaddr ;;
  die_if (x =? 99) "sbrk de-allocation didn't really deallocate" ;;
  a <- sbrk_u 0 ;;
  b <- sbrk_u 0 ;;
  c <- sbrk_u (- (b - oldbrk)) ;;
  if negb (c =? a) then
    uprintf 1 (bytes_of "sbrk downsize failed, a %x c %x" ++ nl) [VInt a; VInt c] ;; uexit
  else ret tt.

(** [for(a = KERNBASE; a < KERNBASE+2000000; a += 50000)]: a child tries to read the kernel's memory. *)
Definition sbrk_kernel : T unit :=
  foreach (fun k =>
    let a := KERNBASE + 50000 * k in
    ppid <- call u_getpid ;;
    pid <- call u_fork ;;
    die_if (pid <? 0) "fork failed" ;;
    (if pid =? 0 then
       x <- peek a ;;
       uprintf 1 (bytes_of "oops could read %x = %x" ++ nl) [VInt a; VInt x] ;;
       call (u_kill ppid) ;;
       uexit
     else ret tt) ;;
    call u_wait ;;
    ret tt) (seqZ 0 40).

(** The children that take the memory, until they are killed: [pids]. *)
Definition sbrk_hogs (r w : Z) : T (list Z) :=
  iter 11 (fun pids =>
    if (length pids <? 10)%nat then
      pid <- call u_fork ;;
      (if pid =? 0 then a <- sbrk_u 0 ;; to_big a ;; t_write w "x" ;; forever else ret tt) ;;
      (if negb (pid =? -1) then call (u_read r 1) ;; ret tt else ret tt) ;;
      ret (inl (pids ++ [pid]))
    else ret (inr pids)) [].

Definition sbrktest : T unit :=
  say 1 "sbrk test" ;;
  oldbrk <- sbrk_u 0 ;;
  sbrk_bytes ;;
  sbrk_big oldbrk ;;
  sbrk_kernel ;;
  p <- call u_pipe ;;
  match p with
  | None => say 1 "pipe() failed" ;; uexit
  | Some (r, w) =>
      pids <- sbrk_hogs r w ;;
      c <- sbrk_u 4096 ;;
      foreach (fun pid => if pid =? -1 then ret tt else call (u_kill pid) ;; call u_wait ;; ret tt) pids ;;
      die_if (c =? bad_ptr) "failed sbrk leaked memory" ;;
      b <- sbrk_u 0 ;;
      (if oldbrk <? b then b <- sbrk_u 0 ;; sbrk_u (- (b - oldbrk)) else ret 0) ;;
      say 1 "sbrk test OK"
  end.

(** The inline assembly is for 32 bits only. *)
Definition validateint (p : Z) : T unit := ret tt.

(** [for(p = 0; p <= (uint)hi; p += 4096)] with [hi = 1100*1024]. *)
Definition validatetest : T unit :=
  say 1 "validate test" ;;
  foreach (fun k =>
    let p := 4096 * k in
    pid <- call u_fork ;;
    (if pid =? 0 then validateint p ;; uexit else ret tt) ;;
    call (u_sleep 0) ;;
    call (u_sleep 0) ;;
    call (u_kill pid) ;;
    call u_wait ;;
    r <- call (u_link_ptr (bytes_of "nosuchfile") p) ;;
    die_if (negb (r =? -1)) "link should not succeed") (seqZ 0 276) ;;
  say 1 "validate ok".
End tests.
