(* ===== verification/UserTestsProps.v ===== *)
(** * What the tests of user/usertests.c accept

    [rfs] is a file system as the tests expect it, a tree of files and directories without blocks: the tests of the file system
    run through on it and report success. The reader of [pipe1] accepts exactly the bytes the writer sends, however the
    pipe splits them; [exitwait] passes when [wait] returns the child. *)

From Stdlib Require Import Ascii String.
From S2P Require Import Prelude Types Monad KString FsPath Print Ulib Utils UserProcs UserTests.

(** ** A reference file system *)

(** Directories have entries, files have bytes. *)
Record rnode := RNode { rn_dir : bool; rn_ents : list (list Z * nat); rn_data : list Z }.

(** An open file: its node, offset, and whether it can be read and written. *)
Record ropen := ROpen { ro_node : nat; ro_off : nat; ro_read : bool; ro_write : bool }.

Record rfs := RFs { rf_nodes : list rnode; rf_cwd : nat; rf_fds : list (option ropen); rf_out : list Z }.

Definition rset_node (n : nat) (x : rnode) (s : rfs) : rfs := RFs (<[n := x]> (rf_nodes s)) (rf_cwd s) (rf_fds s) (rf_out s).
Definition radd_node (x : rnode) (s : rfs) : rfs := RFs (rf_nodes s ++ [x]) (rf_cwd s) (rf_fds s) (rf_out s).
Definition rset_fds (x : list (option ropen)) (s : rfs) : rfs := RFs (rf_nodes s) (rf_cwd s) x (rf_out s).

Fixpoint rfind (e : list Z) (l : list (list Z * nat)) : option nat :=
  match l with
  | [] => None
  | (x, n) :: l => if bool_decide (x = e) then Some n else rfind e l
  end.

Definition rent (s : rfs) (n : nat) (e : list Z) : option nat :=
  match rf_nodes s !! n with Some x => if rn_dir x then rfind e (rn_ents x) else None | None => None end.
Fixpoint rwalk (s : rfs) (n : nat) (es : list (list Z)) : option nat :=
  match es with
  | [] => Some n
  | e :: es => match rent s n e with Some m => rwalk s m es | None => None end
  end.

Definition is_rdir (s : rfs) (n : nat) : bool := match rf_nodes s !! n with Some x => rn_dir x | None => false end.
Definition rstart (s : rfs) (p : list Z) : nat := match p with x :: _ => if x =? 47 then 0%nat else rf_cwd s | [] => rf_cwd s end.
Definition rresolve (s : rfs) (p : list Z) : option nat := rwalk s (rstart s p) (path_elems p).

(** The directory of the last component, and the component. *)
Definition rparent (s : rfs) (p : list Z) : option (nat * list Z) :=
  match rev (path_elems p) with
  | [] => None
  | e :: r => match rwalk s (rstart s p) (rev r) with Some d => if is_rdir s d then Some (d, e) else None | None => None end
  end.

Definition radd_ent (d : nat) (e : list Z) (n : nat) (s : rfs) : rfs :=
  match rf_nodes s !! d with Some x => rset_node d (RNode true (rn_ents x ++ [(e, n)]) []) s | None => s end.
Definition rdel_ent (d : nat) (e : list Z) (s : rfs) : rfs :=
  match rf_nodes s !! d with
  | Some x => rset_node d (RNode true (List.filter (fun y => negb (bool_decide (fst y = e))) (rn_ents x)) []) s
  | None => s
  end.

Definition ralloc (n : nat) (mode : Z) (s : rfs) : Z * rfs :=
  match list_find (fun o => o = None) (rf_fds s) with
  | Some (i, _) =>
      (Z.of_nat i, rset_fds (<[i := Some (ROpen n 0 (negb (has mode 1)) (has mode 1 || has mode 2))]> (rf_fds s)) s)
  | None => (-1, s)
  end.

Definition r_open (p : list Z) (mode : Z) (s : rfs) : Z * rfs :=
  if has mode 512 then
    match rparent s p with
    | None => (-1, s)
    | Some (d, e) =>
        match rent s d e with
        | Some n => if is_rdir s n then (-1, s) else ralloc n mode s
        | None => ralloc (length (rf_nodes s)) mode (radd_ent d e (length (rf_nodes s)) (radd_node (RNode false [] []) s))
        end
    end
  else
    match rresolve s p with
    | None => (-1, s)
    | Some n => if is_rdir s n && negb (mode =? 0) then (-1, s) else ralloc n mode s
    end.

Definition r_mkdir (p : list Z) (s : rfs) : Z * rfs :=
  match rparent s p with
  | None => (-1, s)
  | Some (d, e) =>
      match rent s d e with
      | Some _ => (-1, s)
      | None =>
          let n := length (rf_nodes s) in
          (0, radd_ent d e n (radd_node (RNode true [([46], n); ([46; 46], d)] []) s))
      end
  end.

Definition r_link (a b : list Z) (s : rfs) : Z * rfs :=
  match rresolve s a with
  | None => (-1, s)
  | Some n =>
      if is_rdir s n then (-1, s) else
      match rparent s b with
      | None => (-1, s)
      | Some (d, e) => match rent s d e with Some _ => (-1, s) | None => (0, radd_ent d e n s) end
      end
  end.

(** A directory is removed when it has no entries but the two it is made with. *)
Definition r_unlink (p : list Z) (s : rfs) : Z * rfs :=
  match rparent s p with
  | None => (-1, s)
  | Some (d, e) =>
      if bool_decide (e = [46]) || bool_decide (e = [46; 46]) then (-1, s) else
      match rent s d e with
      | None => (-1, s)
      | Some n =>
          match rf_nodes s !! n with
          | None => (-1, s)
          | Some x => if rn_dir x && (2 <? length (rn_ents x))%nat then (-1, s) else (0, rdel_ent d e s)
          end
      end
  end.

Definition r_chdir (p : list Z) (s : rfs) : Z * rfs :=
  match rresolve s p with
  | Some n => if is_rdir s n then (0, RFs (rf_nodes s) n (rf_fds s) (rf_out s)) else (-1, s)
  | None => (-1, s)
  end.

Definition r_file (fd : Z) (s : rfs) : option (nat * ropen * rnode) :=
  o ← rf_fds s !! Z.to_nat fd; f ← o; x ← rf_nodes s !! ro_node f; Some (Z.to_nat fd, f, x).

Definition rmove (i : nat) (f : ropen) (n : nat) (s : rfs) : rfs :=
  rset_fds (<[i := Some (ROpen (ro_node f) (ro_off f + n) (ro_read f) (ro_write f))]> (rf_fds s)) s.

Definition r_read (fd : Z) (n : nat) (s : rfs) : option (list Z) * rfs :=
  if fd <? 0 then (None, s) else
  match r_file fd s with
  | Some (i, f, x) =>
      if ro_read f then let l := take n (drop (ro_off f) (rn_data x)) in (Some l, rmove i f (length l) s) else (None, s)
  | None => (None, s)
  end.

Definition r_write (fd : Z) (l : list Z) (s : rfs) : Z * rfs :=
  if fd =? 1 then (Z.of_nat (length l), RFs (rf_nodes s) (rf_cwd s) (rf_fds s) (rf_out s ++ l)) else
  if fd <? 0 then (-1, s) else
  match r_file fd s with
  | Some (i, f, x) =>
      if ro_write f then
        (Z.of_nat (length l),
         rset_node (ro_node f) (RNode false [] (take (ro_off f) (rn_data x) ++ l ++ drop (ro_off f + length l) (rn_data x)))
           (rmove i f (length l) s))
      else (-1, s)
  | None => (-1, s)
  end.

Definition r_close (fd : Z) (s : rfs) : Z * rfs :=
  if fd <? 0 then (-1, s) else
  match r_file fd s with Some (i, _, _) => (0, rset_fds (<[i := None]> (rf_fds s)) s) | None => (-1, s) end.

#[export] Instance rfs_calls : Syscalls rfs.
Proof.
  refine {|
    u_read := r_read;
    u_write := r_write;
    u_open := r_open;
    u_close := r_close;
    u_fstat := fun _ w => (None, w);
    u_link := r_link;
    u_mkdir := r_mkdir;
    u_unlink := r_unlink;
    u_kill := fun _ w => (-1, w)
  |}.
  intros fd n w l w'. unfold r_read. destruct (fd <? 0); [done|]. destruct (r_file fd w) as [[[i f] x]|]; [|done].
  destruct (ro_read f); [|done]. intros [= <- _]. rewrite length_take. lia.
Defined.

#[export] Instance rfs_tests : TestCalls rfs := {| u_chdir := r_chdir; u_pipe := fun w => (None, w) |}.

(** The root has the files the tests look for, and the three standard descriptors are open. *)
Definition rfs0 : rfs :=
  RFs [RNode true [([46], 0%nat); ([46; 46], 0%nat); (bytes_of "echo", 1%nat); (bytes_of "README", 2%nat)] [];
       RNode false [] []; RNode false [] []] 0
    (replicate 3 (Some (ROpen 1 0 false false)) ++ replicate 13 None) [].

Definition lines (l : list string) : list Z := concat (map (fun m => bytes_of m ++ nl) l).

Definition fs_tests : M (ut rfs) unit :=
  opentest ;; dirtest ;; rmdot ;; fourteen ;; subdir ;; linktest ;; unlinkread ;; dirfile.

(** The tests run through on it, and say so. *)
Lemma fs_tests_pass :
  exists s', fs_tests (Ut (replicate 16 0) [] rfs0) = Ret tt s' /\
    rf_out (ut_w s') = lines ["open test"; "open test ok"; "mkdir test"; "mkdir test"; "rmdot test"; "rmdot ok";
      "fourteen test"; "fourteen ok"; "subdir test"; "subdir ok"; "linktest"; "linktest ok"; "unlinkread test"; "unlinkread ok";
      "dir vs file"; "dir vs file OK"].
Proof. eexists. split; [vm_compute; reflexivity|vm_compute; reflexivity]. Qed.

(** ** Pipes *)

Lemma seq_matches_app l1 l2 seq : seq_matches (l1 ++ l2) seq = seq_matches l1 seq && seq_matches l2 (seq + Z.of_nat (length l1)).
Proof.
  revert seq. induction l1 as [|x l1 IH]; intros seq; cbn [app seq_matches length]; [by rewrite Z.add_0_r|].
  rewrite IH, <- andb_assoc. do 3 f_equal. lia.
Qed.

(** A stream of bytes matches exactly when it is the one that is counted. *)
Lemma seq_matches_iff l seq : Forall is_byte l -> seq_matches l seq = true <-> l = seq_bytes seq (length l).
Proof.
  intros Hl. revert seq. induction Hl as [|x l Hx Hl IH]; intros seq; [done|]. cbn [seq_matches length].
  assert (seq_bytes seq (S (length l)) = u8 seq :: seq_bytes (seq + 1) (length l)) as ->.
  { unfold seq_bytes. rewrite Nat2Z.inj_succ, seqZ_cons by lia. cbn [map]. rewrite Z.add_0_r, Z.pred_succ. f_equal.
    assert (seqZ (Z.succ 0) (Z.of_nat (length l)) = Z.add 1 <$> seqZ 0 (Z.of_nat (length l))) as -> by by rewrite fmap_add_seqZ.
    etrans; [apply (map_map (Z.add 1))|]. apply map_ext. intros k. f_equal. lia. }
  rewrite andb_true_iff, IH, Z.eqb_eq. change 255 with (Z.ones 8). rewrite !Z.land_ones by lia. change (2 ^ 8) with 256.
  unfold is_byte in Hx. rewrite (Z.mod_small x) by lia. fold (u8 seq). split; [intros [-> <-]; done|]. by intros [= -> <-].
Qed.

Section pipe.
Context {W : Type} {sys : Syscalls W} (r : Z) (rest : W -> list Z).

(** Reading [r] gives a part of what is left in the pipe, and nothing only at the end. *)
Hypothesis read_rest : forall n w, (0 < n)%nat ->
  exists c w', u_read r n w = (Some c, w') /\ rest w = c ++ rest w' /\ (c = [] -> rest w = []).

(** Printing a text without directives returns. *)
Lemma print_runs (f : list Z) (s : ut W) : forallb (fun c => negb (c =? 37)) f = true -> runs (uprintf 1 f []) s (fun _ _ => True).
Proof using.
  unfold uprintf. revert s. induction f as [|c f IH]; intros s Hf; [by apply runs_ret|]. cbn [forallb] in Hf.
  apply andb_true_iff in Hf as [Hc Hf]. apply negb_true_iff in Hc. cbn [uprintf_loop]. rewrite Hc.
  destruct (u_write 1 [u8 c] s) as [a s'] eqn:E. eapply runs_eq; [unfold uputc, bind, call; rewrite E; reflexivity|]. by apply IH.
Qed.

(** The verdict of the reader, whatever the sizes of the pieces. *)
Lemma reader_loop fuel : forall seq total cc (s : ut W),
  0 < cc <= Z.of_nat BUF -> length (ut_buf s) = BUF -> (length (rest (ut_w s)) < fuel)%nat ->
  runs (iter fuel (pipe1_step r) (seq, total, cc)) s (fun o _ =>
    o = if seq_matches (rest (ut_w s)) seq then Some (total + Z.of_nat (length (rest (ut_w s)))) else None).
Proof using read_rest.
  induction fuel as [|fuel IH]; intros seq total cc s Hcc Hbuf Hf; [lia|]. cbn [iter pipe1_step].
  destruct (read_rest (Z.to_nat cc) (ut_w s)) as (c & w' & Er & Erest & Hend); [lia|].
  pose proof (u_read_le _ _ _ _ _ Er) as Hle. apply runs_assoc.
  eapply runs_eq with (a := Z.of_nat (length c)) (s' := Ut (splice (ut_buf s) 0 c) (ut_uninit s) w').
  { unfold read_buf, bind, call. cbn [u_read ut_sys]. unfold on_system. rewrite Er. done. }
  destruct (Z.ltb_spec 0 (Z.of_nat (length c))) as [Hpos|Hz].
  2:{ apply runs_bind, runs_ret, runs_ret. assert (c = []) as -> by (destruct c; [done|cbn in Hz; lia]).
      rewrite (Hend eq_refl). cbn. f_equal. lia. }
  apply runs_assoc. eapply runs_eq; [reflexivity|]. cbn [ut_buf]. rewrite Nat2Z.id.
  assert (take (length c) (splice (ut_buf s) 0 c) = c) as ->.
  { unfold splice. rewrite take_0, app_nil_l. by apply take_app_length. }
  rewrite Erest, seq_matches_app. destruct (seq_matches c seq) eqn:Em; cbn [negb andb].
  - apply runs_bind, runs_ret. eapply runs_mono; [apply IH|].
    + destruct (Z.ltb_spec (Z.of_nat BUF) (cc * 2)); unfold BUF in *; lia.
    + cbn [ut_buf]. rewrite length_splice; [done|]. rewrite Hbuf. unfold BUF in *. lia.
    + cbn [ut_w]. rewrite Erest, length_app in Hf. lia.
    + cbn [ut_w]. intros o s' ->. destruct (seq_matches (rest w') _); [|done]. rewrite length_app. f_equal. lia.
  - apply runs_assoc. eapply runs_step; [by apply print_runs|]. intros [] s' _. by apply runs_bind, runs_ret, runs_ret.
Qed.

(** The reader counts [N] bytes exactly when the pipe delivers the first [N] of the sequence, in pieces of any size, and
    nothing else; [pipe1] asks for the 5165 that its child writes. *)
Lemma pipe1_reader_exact fuel N (s : ut W) :
  length (ut_buf s) = BUF -> (length (rest (ut_w s)) < fuel)%nat -> Forall is_byte (rest (ut_w s)) ->
  runs (pipe1_reader fuel r) s (fun o _ => o = Some (Z.of_nat N) <-> rest (ut_w s) = seq_bytes 0 N).
Proof using read_rest.
  intros Hbuf Hf Hb. eapply runs_mono; [by apply (reader_loop fuel 0 0 1)|]. intros o _ ->.
  assert (length (seq_bytes 0 N) = N) as HN by (unfold seq_bytes; rewrite length_map, length_seqZ; lia).
  pose proof (seq_matches_iff (rest (ut_w s)) 0 Hb) as Hm. destruct (seq_matches _ 0).
  - destruct Hm as [Hm _]. specialize (Hm eq_refl). split.
    + intros [= E]. rewrite Hm. f_equal. lia.
    + intros E. by rewrite E, HN.
  - split; [done|]. intros E. destruct Hm as [_ Hm]. discriminate Hm. by rewrite E, HN.
Qed.
End pipe.

Lemma seq_bytes_app a n m : seq_bytes a (n + m) = seq_bytes a n ++ seq_bytes (a + Z.of_nat n) m.
Proof.
  unfold seq_bytes. rewrite Nat2Z.inj_add, seqZ_app, map_app by lia. f_equal.
  assert (seqZ (0 + Z.of_nat n) (Z.of_nat m) = Z.add (Z.of_nat n) <$> seqZ 0 (Z.of_nat m)) as ->
    by (rewrite fmap_add_seqZ; f_equal; lia).
  etrans; [apply (map_map (Z.add (Z.of_nat n)))|]. apply map_ext. intros k. f_equal. lia.
Qed.

(** The five writes of the child are the bytes the reader looks for. *)
Lemma pipe1_child_sends : concat (map (fun n => seq_bytes (1033 * n) 1033) (seqZ 0 5)) = seq_bytes 0 (5 * 1033).
Proof.
  change (seqZ 0 5) with [0; 1; 2; 3; 4]. cbn [map concat]. rewrite app_nil_r.
  change (5 * 1033)%nat with (1033 + (1033 + (1033 + (1033 + 1033))))%nat. by rewrite !seq_bytes_app.
Qed.

(** ** Processes *)

(** The script of UserProcs.v under the globals of the tests. *)
Definition ut_life (b u : list Z) (fds : list (option (list Z))) nodes forks waits out : ut life :=
  Ut b u (Life fds nodes forks waits out).

Lemma ut_print f b u fds nodes forks waits out :
  forallb (fun c => negb (c =? 37) && (0 <=? c) && (c <? 256)) f = true ->
  uprintf 1 f [] (ut_life b u fds nodes forks waits out) = Ret tt (ut_life b u fds nodes forks waits (out ++ f)).
Proof.
  unfold uprintf. revert out. induction f as [|c f IH]; intros out Hf; [by rewrite app_nil_r|].
  cbn [forallb] in Hf. apply andb_true_iff in Hf as [[[Hc H0]%andb_true_iff H1]%andb_true_iff Hf].
  cbn [uprintf_loop]. apply negb_true_iff in Hc as ->. unfold bind, uputc, call, ut_life, on_system. cbn.
  assert (u8 c = c) as -> by (unfold u8; apply Z.mod_small; lia).
  etrans; [apply (IH (out ++ [c]) Hf)|by rewrite <- app_assoc].
Qed.

(** [exitwait] passes when each [wait] returns the child just made. *)
Lemma exitwait_step_next i p pids waits b u fds nodes out :
  i < 100 -> 0 < p ->
  exitwait_step i (ut_life b u fds nodes (p :: pids) (p :: waits) out) = Ret (inl (i + 1)) (ut_life b u fds nodes pids waits out).
Proof.
  intros Hi Hp. unfold exitwait_step. rewrite (proj2 (Z.ltb_lt i 100)) by lia. unfold bind at 1, call.
  change (u_fork (ut_life b u fds nodes (p :: pids) (p :: waits) out)) with (p, ut_life b u fds nodes pids (p :: waits) out).
  cbv beta iota. rewrite (proj2 (Z.ltb_ge p 0)), (proj2 (Z.eqb_neq p 0)) by lia. cbn [negb]. unfold bind, call.
  change (u_wait (ut_life b u fds nodes pids (p :: waits) out)) with (p, ut_life b u fds nodes pids waits out).
  cbv beta iota. by rewrite Z.eqb_refl.
Qed.

Lemma exitwait_loop_counts (pids : list Z) : forall fuel i b u fds nodes out,
  Forall (fun p => 0 < p) pids -> i + Z.of_nat (length pids) = 100 -> (length pids < fuel)%nat ->
  iter fuel exitwait_step i (ut_life b u fds nodes pids pids out) = Ret true (ut_life b u fds nodes [] [] out).
Proof.
  induction pids as [|p pids IH]; intros fuel i b u fds nodes out Hp Hi Hf; (destruct fuel as [|fuel]; [cbn in Hf; lia|]);
    cbn [iter length] in *; unfold bind.
  - assert (i = 100) as -> by lia. done.
  - apply Forall_cons in Hp as [Hp Hps]. rewrite exitwait_step_next by (done || lia). apply IH; [done|lia|lia].
Qed.

Lemma exitwait_passes pids b u fds nodes out :
  Forall (fun p => 0 < p) pids -> length pids = 100%nat ->
  exitwait (ut_life b u fds nodes pids pids out) = Ret tt (ut_life b u fds nodes [] [] (out ++ bytes_of "exitwait ok" ++ nl)).
Proof.
  intros Hp Hl. unfold exitwait, bind. rewrite exitwait_loop_counts by (done || lia). by apply ut_print.
Qed.
