(* ===== verification/Umalloc.v ===== *)
(** * The user-level allocator (ulib/umalloc.c)

    A process's memory as the allocator uses it: at an address, the [ptr] and the [size] of the header stored
    there. Reading a header that nothing was stored in faults, so a run that returns has read only what the
    allocator or its client wrote. *)

From S2P Require Import Prelude Types Monad.

(** [sizeof(Header)]. *)
Definition HEADER : Z := 16.

(** [u_brk] and [u_limit] are the end of the process and how far the kernel lets it grow. *)
Record heap := Heap {
  u_ptr : gmap Z Z;
  u_size : gmap Z Z;
  u_freep : Z;
  u_brk : Z;
  u_limit : Z
}.

Definition H (A : Type) : Type := M heap A.

Definition get_ptr (p : Z) : H Z := fun h => match u_ptr h !! p with Some x => Ret x h | None => Fault h end.
Definition get_size (p : Z) : H Z := fun h => match u_size h !! p with Some x => Ret x h | None => Fault h end.

(** The header at [p] lies in the process. *)
Definition in_heap (p : Z) (h : heap) : bool := (0 <=? p) && (p + HEADER <=? u_brk h).
Definition set_ptr (p x : Z) : H unit := fun h =>
  if in_heap p h then Ret tt (Heap (<[p := x]> (u_ptr h)) (u_size h) (u_freep h) (u_brk h) (u_limit h)) else Fault h.
Definition set_size (p x : Z) : H unit := fun h =>
  if in_heap p h then Ret tt (Heap (u_ptr h) (<[p := x]> (u_size h)) (u_freep h) (u_brk h) (u_limit h)) else Fault h.
Definition set_freep (p : Z) : H unit := modify (fun h => Heap (u_ptr h) (u_size h) p (u_brk h) (u_limit h)).
Definition set_brk (b : Z) (h : heap) : heap := Heap (u_ptr h) (u_size h) (u_freep h) b (u_limit h).

(** The system call [sbrk(n)] as the process sees it: the old break as an [int], or -1. The kernel's [growproc] is in
    Proc.v; here [u_limit] stands for the pages it has left. [sz + n] wraps at 32 bits in [growproc]; a size that
    wraps below (growing) or above (shrinking) the old one leaves it, and a process cannot shrink to nothing. *)
Definition sbrk (n : Z) : H Z := fun h =>
  let sz := u_brk h in
  let new := u32 (sz + n) in
  let old := s32 sz in
  if 0 <? n then
    if new <? sz then Ret old h
    else if u_limit h <? new then Ret (-1) h
    else Ret old (set_brk new h)
  else if n <? 0 then
    if sz <=? new then Ret old h
    else if new =? 0 then Ret (-1) h
    else Ret old (set_brk new h)
  else Ret old h.

Section umalloc.
(** The address of the static header [base]. *)
Context (BASE : Z).

(** [for(p = freep; !(bp > p && bp < p->s.ptr); p = p->s.ptr)]: where the block belongs. *)
Fixpoint free_find (fuel : nat) (bp p : Z) : H Z :=
  match fuel with
  | O => nofuel
  | S fuel =>
      next <- get_ptr p ;;
      if (p <? bp) && (bp <? next) then ret p
      else if (next <=? p) && ((p <? bp) || (bp <? next)) then ret p
      else free_find fuel bp next
  end.

(** The block at [x] goes before the free block at [next], and becomes one with it when they touch:
    [if(x + x->s.size == next) { x->s.size += next->s.size; x->s.ptr = next->s.ptr; } else x->s.ptr = next;] *)
Definition link (x next : Z) : H unit :=
  size <- get_size x ;;
  if x + HEADER * size =? next then
    nsize <- get_size next ;;
    set_size x (u32 (size + nsize)) ;;
    nnext <- get_ptr next ;;
    set_ptr x nnext
  else set_ptr x next.

(** [fuel] bounds the walk along the free list. *)
Definition free (fuel : nat) (ap : Z) : H unit :=
  let bp := ap - HEADER in
  start <- gets u_freep ;;
  p <- free_find fuel bp start ;;
  next <- get_ptr p ;;
  link bp next ;;
  link p bp ;;
  set_freep p.

(** 0 when [sbrk] fails. [sbrk] takes an [int]. *)
Definition morecore (fuel : nat) (nu : Z) : H Z :=
  let nu := if nu <? 4096 then 4096 else nu in
  p <- sbrk (s32 (nu * HEADER)) ;;
  if p =? -1 then ret 0 else
  set_size p nu ;;
  free fuel (p + HEADER) ;;
  gets u_freep.

(** The body of [if(p->s.size >= nunits)]. *)
Definition carve (nunits prevp p size : Z) : H Z :=
  p <- (if size =? nunits then
          next <- get_ptr p ;;
          set_ptr prevp next ;;
          ret p
        else
          set_size p (size - nunits) ;;
          let p := p + HEADER * (size - nunits) in
          set_size p nunits ;;
          ret p) ;;
  set_freep prevp ;;
  ret (p + HEADER).

(** [for(p = prevp->s.ptr; ; prevp = p, p = p->s.ptr)]. *)
Fixpoint malloc_loop (fuel : nat) (nunits prevp p : Z) : H Z :=
  match fuel with
  | O => nofuel
  | S fuel =>
      size <- get_size p ;;
      if nunits <=? size then carve nunits prevp p size else
      freep <- gets u_freep ;;
      if p =? freep then
        p <- morecore fuel nunits ;;
        if p =? 0 then ret 0 else
        next <- get_ptr p ;;
        malloc_loop fuel nunits p next
      else
        next <- get_ptr p ;;
        malloc_loop fuel nunits p next
  end.

(** [nbytes] is a [uint], the sum is computed in [size_t]. *)
Definition nunits_for (nbytes : Z) : Z := u32 ((nbytes + HEADER - 1) / HEADER + 1).

Definition malloc (fuel : nat) (nbytes : Z) : H Z :=
  freep <- gets u_freep ;;
  prevp <- (if freep =? 0 then
              set_freep BASE ;;
              set_ptr BASE BASE ;;
              set_size BASE 0 ;;
              ret BASE
            else ret freep) ;;
  p <- get_ptr prevp ;;
  malloc_loop fuel (nunits_for nbytes) prevp p.
End umalloc.

(** [malloc] of almost 4GB: the size in bytes does not fit [sbrk]'s [int], so the process grows by 16 bytes
    and the caller gets a pointer to its very end. *)
Lemma malloc_huge :
  exists h, malloc 64 20 4294967295 (Heap ∅ ∅ 0 12288 2147483647) = Ret 12304 h /\ u_brk h = 12304.
Proof. eexists. split; vm_compute; reflexivity. Qed.
