(* ===== verification/UmallocProps.v ===== *)
(** * The user-level allocator is safe

    The free list is a cycle through the static header and the free blocks in address order, no two of which
    touch. [wf h N A] says so of a heap with free list [N] (the static header first, as a block of size 0) and
    blocks [A] in the hands of the client. *)

From S2P Require Import Prelude Types Monad Umalloc.

(** A block: the address of its header and its size in headers. *)
Definition bend (b : Z * Z) : Z := b.1 + HEADER * b.2.
Definition disj (b c : Z * Z) : Prop := bend b <= c.1 \/ bend c <= b.1.

(** [l] is what one meets following pointers from [a]. *)
Fixpoint path (m : gmap Z Z) (a : Z) (l : list Z) : Prop :=
  match l with
  | [] => True
  | x :: l => m !! a = Some x /\ path m x l
  end.

Fixpoint lastd (a : Z) (l : list Z) : Z :=
  match l with [] => a | x :: l => lastd x l end.

Lemma path_app m a l1 l2 : path m a (l1 ++ l2) <-> path m a l1 /\ path m (lastd a l1) l2.
Proof. revert a. induction l1 as [|x l1 IH]; intros a; cbn; [tauto|]. rewrite IH. tauto. Qed.

Lemma lastd_app a l1 l2 : lastd a (l1 ++ l2) = lastd (lastd a l1) l2.
Proof. revert a. induction l1; cbn; auto. Qed.

Lemma path_ext m m' a l :
  (forall x, x ∈ removelast (a :: l) -> m' !! x = m !! x) -> path m a l -> path m' a l.
Proof.
  revert a. induction l as [|y l IH]; intros a Hm; [done|]. intros [Ha Hp]. split.
  - rewrite Hm; [done|]. left.
  - apply IH; [|done]. intros x Hx. apply Hm. by right.
Qed.

Lemma path_insert m a l x v : x ∉ removelast (a :: l) -> path m a l -> path (<[x := v]> m) a l.
Proof. intros Hx. apply path_ext. intros y Hy. rewrite lookup_insert_ne; [done|]. by intros ->. Qed.

Definition sizes (m : gmap Z Z) (l : list (Z * Z)) : Prop := Forall (fun b => m !! b.1 = Some b.2) l.

(** Ascending, and with room between neighbours. *)
Fixpoint gaps (lo : Z) (l : list (Z * Z)) : Prop :=
  match l with
  | [] => True
  | b :: l => lo < b.1 /\ 1 <= b.2 /\ gaps (bend b) l
  end.

(** A block before a list it may touch. *)
Definition join (b : Z * Z) (l : list (Z * Z)) : list (Z * Z) :=
  match l with
  | c :: l' => if bend b =? c.1 then (b.1, b.2 + c.2) :: l' else b :: l
  | [] => [b]
  end.

Lemma gaps_weaken lo lo' l : gaps lo l -> lo' <= lo -> gaps lo' l.
Proof. destruct l; cbn; [done|]. intros (? & ? & ?) ?. repeat split; [lia|done|done]. Qed.

Lemma gaps_above lo l : gaps lo l -> Forall (fun b => lo < b.1 /\ 1 <= b.2) l.
Proof.
  revert lo. induction l as [|b l IH]; intros lo; [done|]. cbn. intros (? & ? & Hl). constructor; [done|].
  eapply Forall_impl; [apply (IH _ Hl)|]. cbn. unfold bend, HEADER. intros. lia.
Qed.

Lemma gaps_app lo l1 b l2 : gaps lo (l1 ++ b :: l2) <-> gaps lo (l1 ++ [b]) /\ gaps (bend b) l2.
Proof. revert lo. induction l1 as [|c l1 IH]; intros lo; cbn; [tauto|]. rewrite IH. tauto. Qed.

Section props.
Context (BASE : Z).

Definition first (l : list (Z * Z)) : Z := match l with [] => BASE | b :: _ => b.1 end.

(** [l] is the end of the free list, from its first block back to the static header. *)
Definition linked (h : heap) (l : list (Z * Z)) : Prop :=
  sizes (u_size h) l /\ match l with [] => True | b :: l => path (u_ptr h) b.1 (map fst l ++ [BASE]) end.

(** [h'] is [h] but for what is stored at [x]. *)
Definition only_at (x : Z) (h h' : heap) : Prop :=
  (forall a, a <> x -> u_ptr h' !! a = u_ptr h !! a /\ u_size h' !! a = u_size h !! a)
  /\ u_freep h' = u_freep h /\ u_brk h' = u_brk h /\ u_limit h' = u_limit h.

Lemma sizes_insert m l x v : x ∉ map fst l -> sizes m l -> sizes (<[x := v]> m) l.
Proof.
  intros Hx. unfold sizes. rewrite !Forall_forall. intros Hl b Hb. rewrite lookup_insert_ne; [by apply Hl|].
  intros ->. apply Hx. by apply list_elem_of_fmap_2.
Qed.

Lemma above_not_in x (l : list (Z * Z)) : Forall (fun b => x < b.1) l -> x ∉ map fst l.
Proof.
  rewrite Forall_forall. intros Hl Hx. apply list_elem_of_fmap_1 in Hx as (b & -> & Hb).
  specialize (Hl b Hb). cbn in Hl. lia.
Qed.

Lemma link_ok h x s l :
  linked h l -> Forall (fun b => x < b.1) l -> (l = [] -> BASE < x + HEADER * s) ->
  u_size h !! x = Some s -> Forall (fun b => 0 <= s + b.2 < 4294967296) l -> in_heap x h = true ->
  exists h', link x (first l) h = Ret tt h' /\ linked h' (join (x, s) l) /\ only_at x h h'.
Proof.
  intros [Hsz Hl] Hlt Hnil Hx Hsum Hin. unfold link, bind, get_size. rewrite Hx.
  pose proof (above_not_in _ _ Hlt) as Hne.
  destruct l as [|[y t] l]; unfold join; change (bend (x, s)) with (x + HEADER * s); cbn [first fst snd].
  { rewrite (proj2 (Z.eqb_neq _ _)) by (specialize (Hnil eq_refl); lia). unfold set_ptr. rewrite Hin.
    eexists. split; [done|]. split; [split; cbn|split; [|done]].
    - by apply Forall_singleton.
    - by rewrite lookup_insert_eq.
    - intros a Ha. cbn. by rewrite lookup_insert_ne by done. }
  apply Forall_cons in Hsum as [? Hsum]. cbn in Hne. apply not_elem_of_cons in Hne as [Hxy Hne].
  destruct (x + HEADER * s =? y) eqn:E.
  - apply Forall_cons in Hsz as [Hy Hsz]. cbn in Hy. rewrite Hy. unfold set_size at 1. rewrite Hin.
    unfold get_ptr at 1. cbn [u_ptr fst] in *.
    destruct (map fst l ++ [BASE]) as [|z q] eqn:Eq; [by destruct l|]. destruct Hl as [Hyz Hq]. rewrite Hyz.
    unfold set_ptr, in_heap in *. cbn [u_brk]. rewrite Hin.
    eexists. split; [done|]. split; [split; cbn|split; [|done]].
    + rewrite u32_small by (cbn in *; lia). apply Forall_cons. cbn. rewrite lookup_insert_eq. split; [done|].
      by apply sizes_insert.
    + rewrite Eq. split; [by rewrite lookup_insert_eq|]. apply path_insert; [|done].
      by rewrite <- Eq, removelast_last.
    + intros a Ha. cbn. by rewrite !lookup_insert_ne by done.
  - unfold set_ptr. rewrite Hin. eexists. split; [done|]. split; [split; cbn|split; [|done]].
    + by apply Forall_cons.
    + split; [by rewrite lookup_insert_eq|]. apply path_insert; [|done].
      rewrite app_comm_cons, removelast_last. by apply not_elem_of_cons.
    + intros a Ha. cbn. by rewrite lookup_insert_ne by done.
Qed.

(** ** Finding the place of a block *)

Lemma split_at lo l bp :
  gaps lo l -> bp ∉ map fst l ->
  exists l1 l2, l = l1 ++ l2 /\ Forall (fun b => b.1 < bp) l1 /\ Forall (fun b => bp < b.1) l2.
Proof.
  revert lo. induction l as [|b l IH]; intros lo Hg Hbp; [by exists [], []|].
  cbn in *. destruct Hg as (? & ? & Hg). apply not_elem_of_cons in Hbp as [Hb Hbp].
  destruct (decide (b.1 < bp)).
  - destruct (IH _ Hg Hbp) as (l1 & l2 & -> & H1 & H2). exists (b :: l1), l2. by repeat constructor.
  - exists [], (b :: l). split; [done|]. split; [done|]. constructor; [lia|].
    eapply Forall_impl; [apply (gaps_above _ _ Hg)|]. cbn. unfold bend, HEADER. intros. lia.
Qed.

Lemma node_split x (l : list (Z * Z)) :
  x ∈ BASE :: map fst l -> exists l1 l2, l = l1 ++ l2 /\ x = lastd BASE (map fst l1).
Proof.
  rewrite elem_of_cons. intros [->|Hx]; [by exists [], l|].
  apply list_elem_of_fmap_1 in Hx as (b & -> & Hb). apply list_elem_of_split in Hb as (l1 & l2 & ->).
  exists (l1 ++ [b]), l2. rewrite <- app_assoc. split; [done|]. by rewrite map_app, lastd_app.
Qed.

Lemma find_up h bp l p z k :
  path (u_ptr h) p (map fst l ++ [z]) -> gaps p l -> p < bp -> Forall (fun b => b.1 < bp) l ->
  bp < z \/ z = BASE -> BASE <= p ->
  free_find (S (length l) + k) bp p h = Ret (lastd p (map fst l)) h.
Proof.
  revert p. induction l as [|[x s] l IH]; intros p Hp Hg Hlt Hl Hz HB.
  - destruct Hp as [Hp _]. cbn. unfold bind, get_ptr. rewrite Hp. rewrite (proj2 (Z.ltb_lt p bp)) by lia.
    destruct (bp <? z) eqn:E; [done|]. cbn. apply Z.ltb_ge in E.
    by rewrite (proj2 (Z.leb_le z p)) by lia.
  - destruct Hp as [Hp Hq]. apply Forall_cons in Hl as [Hx Hl]. destruct Hg as (Hpx & ? & Hg). cbn in *.
    unfold bind, get_ptr. rewrite Hp.
    rewrite (proj2 (Z.ltb_lt p bp)), (proj2 (Z.ltb_ge bp x)), (proj2 (Z.leb_gt x p)) by lia.
    cbn [andb]. apply IH; try done; try lia.
    eapply gaps_weaken; [exact Hg|]. unfold bend, HEADER. cbn. lia.
Qed.

Lemma find_down h bp l p k :
  path (u_ptr h) p (map fst l ++ [BASE]) -> gaps p l -> BASE < bp < p ->
  free_find (S (length l) + k) bp p h = free_find k bp BASE h.
Proof.
  revert p. induction l as [|[x s] l IH]; intros p Hp Hg Hlt; destruct Hp as [Hp Hq];
    cbn [length plus free_find]; unfold bind, get_ptr; rewrite Hp; rewrite (proj2 (Z.ltb_ge p bp)) by lia; cbn [andb orb].
  - by rewrite (proj2 (Z.ltb_ge bp BASE)), andb_false_r by lia.
  - destruct Hg as (Hpx & ? & Hg). cbn in *. rewrite (proj2 (Z.leb_gt x p)) by lia. cbn [andb].
    apply IH; [done| |lia]. eapply gaps_weaken; [exact Hg|]. unfold bend, HEADER. cbn. lia.
Qed.

Lemma gaps_suffix lo a l1 l2 :
  gaps lo (l1 ++ l2) -> a <= lo -> gaps (lastd a (map fst l1)) l2 /\ a <= lastd a (map fst l1).
Proof.
  revert lo a. induction l1 as [|b l1 IH]; intros lo a; cbn.
  - intros Hg ?. split; [by eapply gaps_weaken|lia].
  - intros (? & ? & Hg) ?. destruct (IH (bend b) b.1 Hg) as [Hg1 Hle]; [unfold bend, HEADER; lia|]. split; [done|lia].
Qed.

Lemma lastd_lt a bp (l : list (Z * Z)) : a < bp -> Forall (fun b => b.1 < bp) l -> lastd a (map fst l) < bp.
Proof. revert a. induction l as [|b l IH]; intros a Ha Hl; [done|]. apply Forall_cons in Hl as [? ?]. cbn. by apply IH. Qed.

Lemma lastd_le a lo l : gaps lo l -> a <= lo -> Forall (fun b => b.1 <= lastd a (map fst l)) l.
Proof.
  revert a lo. induction l as [|b l IH]; intros a lo Hg Ha; [done|]. destruct Hg as (? & ? & Hg). cbn.
  assert (b.1 <= bend b) by (unfold bend, HEADER; lia). constructor.
  - apply (gaps_suffix (bend b) b.1 l []); [|done]. by rewrite app_nil_r.
  - by eapply IH.
Qed.

Lemma gaps_prefix lo l1 l2 : gaps lo (l1 ++ l2) -> gaps lo l1.
Proof. revert lo. induction l1; intros lo; cbn; [done|]. intros (? & ? & ?). eauto. Qed.

(** The walk from a node below [bp] ends at the last one below [bp]. *)
Lemma find_below h G1 G2 F2 bp k :
  path (u_ptr h) BASE (map fst (G1 ++ G2 ++ F2) ++ [BASE]) -> gaps BASE (G1 ++ G2 ++ F2) -> BASE < bp ->
  Forall (fun b => b.1 < bp) (G1 ++ G2) -> Forall (fun b => bp < b.1) F2 ->
  free_find (S (length G2) + k) bp (lastd BASE (map fst G1)) h = Ret (lastd BASE (map fst (G1 ++ G2))) h.
Proof.
  intros Hp Hg HB Hlt Hgt. apply Forall_app in Hlt as [Hlt1 Hlt2].
  rewrite !map_app, <- !app_assoc in Hp. apply path_app in Hp as [_ Hp]. apply path_app in Hp as [Hp1 Hp2].
  destruct (gaps_suffix _ _ _ _ Hg (Z.le_refl _)) as [Hg2 Hle].
  rewrite map_app, lastd_app. apply (find_up h bp G2 _ (first F2)); try done.
  - apply path_app. split; [done|]. by destruct F2; destruct Hp2 as [? _].
  - by eapply gaps_prefix.
  - by apply lastd_lt.
  - destruct F2 as [|b F2]; [by right|]. apply Forall_cons in Hgt as [? _]. by left.
Qed.

(** The walk from any node does. *)
Lemma free_find_ok h F bp fuel :
  path (u_ptr h) BASE (map fst F ++ [BASE]) -> gaps BASE F -> u_freep h ∈ BASE :: map fst F ->
  bp ∉ map fst F -> BASE < bp -> (2 * length F + 2 <= fuel)%nat ->
  exists F1 F2, F = F1 ++ F2 /\ Forall (fun b => b.1 < bp) F1 /\ Forall (fun b => bp < b.1) F2
    /\ free_find fuel bp (u_freep h) h = Ret (lastd BASE (map fst F1)) h.
Proof.
  intros Hp Hg Hst Hbp HB Hfuel.
  assert (u_freep h <> bp) as Hne.
  { intros E. rewrite E in Hst. apply elem_of_cons in Hst as [?|?]; [lia|done]. }
  apply node_split in Hst as (G1 & G2 & E & Hst). rewrite Hst in *.
  destruct (split_at _ _ bp Hg Hbp) as (F1 & F2 & EF & H1 & H2). exists F1, F2. do 3 (split; [done|]).
  destruct (decide (lastd BASE (map fst G1) < bp)) as [Hlt|Hge].
  - assert (exists G, F1 = G1 ++ G) as [G ->].
    { rewrite EF in E. apply app_eq_inv in E as [(G & E1 & E2)|(G & E1 & E2)].
      - subst. by exists G.
      - subst. exists []. rewrite app_nil_r. destruct G as [|b G]; [by rewrite app_nil_r|]. exfalso.
        apply Forall_cons in H2 as [Hb _].
        assert (gaps BASE (F1 ++ b :: G)) as Hg' by (eapply gaps_prefix; by rewrite <- app_assoc).
        pose proof (lastd_le BASE _ _ Hg' (Z.le_refl _)) as Hle. apply Forall_app in Hle as [_ Hle].
        apply Forall_cons in Hle as [Hle _]. lia. }
    rewrite EF in Hp, Hg, Hfuel. rewrite <- app_assoc in Hp, Hg. rewrite !length_app in Hfuel.
    replace fuel with (S (length G) + (fuel - S (length G)))%nat by lia. by eapply find_below.
  - assert (length F1 <= length F /\ length G2 <= length F)%nat as [? ?].
    { split; [rewrite EF|rewrite E]; rewrite length_app; lia. }
    replace fuel with (S (length G2) + (S (length F1) + (fuel - S (length G2) - S (length F1))))%nat by lia.
    rewrite find_down; [|rewrite E, map_app, <- app_assoc in Hp; by apply path_app in Hp as [_ Hp]| |lia].
    + rewrite EF in Hp, Hg. by apply (find_below h [] F1 F2).
    + rewrite E in Hg. by destruct (gaps_suffix _ _ _ _ Hg (Z.le_refl _)).
Qed.

(** ** The invariant *)

Fixpoint pairwise (A : list (Z * Z)) : Prop :=
  match A with [] => True | a :: A => Forall (disj a) A /\ pairwise A end.

Record wf (h : heap) (F A : list (Z * Z)) : Prop := {
  wf_linked : linked h ((BASE, 0) :: F);
  wf_gaps : gaps (BASE + HEADER - 1) F;
  wf_free : Forall (fun b => bend b <= u_brk h) F;
  wf_sizes : sizes (u_size h) A;
  wf_live : Forall (fun a => BASE + HEADER <= a.1 /\ 1 <= a.2 /\ bend a <= u_brk h /\ Forall (disj a) F) A;
  wf_apart : pairwise A;
  wf_freep : u_freep h ∈ BASE :: map fst F;
  wf_base : 0 < BASE /\ BASE + HEADER <= u_brk h <= u_limit h /\ u_limit h < 2147483648
}.

(** What is stored in the blocks [A] is the same. *)
Definition same (A : list (Z * Z)) (h h' : heap) : Prop :=
  Forall (fun a => forall x, a.1 <= x < bend a -> u_ptr h' !! x = u_ptr h !! x /\ u_size h' !! x = u_size h !! x) A.

Definition units (l : list (Z * Z)) : Z := foldr (fun b n => b.2 + n) 0 l.

Lemma units_app l1 l2 : units (l1 ++ l2) = units l1 + units l2.
Proof. induction l1; cbn; [done|]. unfold units in *. lia. Qed.

Lemma units_join b l : units (join b l) = b.2 + units l.
Proof. destruct l as [|c l]; cbn; [done|]. case_match; cbn; unfold units in *; lia. Qed.

Lemma join_hd b l : Forall (fun c => 0 <= c.2) l -> exists s l', join b l = (b.1, s) :: l' /\ b.2 <= s.
Proof.
  destruct l as [|c l]; cbn; intros Hl; [exists b.2, []; by destruct b|].
  apply Forall_cons in Hl as [? _]. case_match; [exists (b.2 + c.2), l|exists b.2, (c :: l); destruct b]; split; auto; lia.
Qed.

Lemma join_Forall (P : Z * Z -> Prop) b l :
  P b -> Forall P l -> (forall c, c ∈ l -> bend b = c.1 -> P (b.1, b.2 + c.2)) -> Forall P (join b l).
Proof.
  intros Hb Hl Hj. destruct l as [|c l]; [by constructor|]. cbn. apply Forall_cons in Hl as [Hc Hl].
  case_match eqn:E; [|by repeat constructor]. constructor; [|done]. apply Hj; [left|]. lia.
Qed.

Lemma bend_join b c : bend b = c.1 -> bend (b.1, b.2 + c.2) = bend c.
Proof. unfold bend, HEADER. cbn. lia. Qed.

Lemma disj_join a b l :
  1 <= a.2 -> disj a b -> Forall (disj a) l -> Forall (disj a) (join b l).
Proof.
  intros Ha Hb Hl. apply join_Forall; [done|done|]. intros c Hc E.
  pose proof (proj1 (Forall_forall _ _) Hl c Hc) as Hd. revert Hb Hd E. unfold disj, bend, HEADER. cbn. lia.
Qed.

Lemma gaps_join lo b l :
  lo < b.1 -> 1 <= b.2 -> gaps lo l -> Forall (fun c => bend b <= c.1) l -> gaps lo (join b l).
Proof.
  intros Hlo Hb Hg Hl. destruct l as [|c l]; [by cbn|]. apply Forall_cons in Hl as [Hc Hl].
  destruct Hg as (? & ? & Hg). cbn. case_match eqn:E; cbn.
  - repeat split; try lia. rewrite bend_join by lia. done.
  - repeat split; try done. lia.
Qed.

Lemma linked_replace h h' N0 c J c' J' :
  linked h (N0 ++ c :: J) -> linked h' (c' :: J') -> c'.1 = c.1 ->
  (forall a, a ∈ map fst N0 -> u_ptr h' !! a = u_ptr h !! a /\ u_size h' !! a = u_size h !! a) ->
  linked h' (N0 ++ c' :: J').
Proof.
  intros [Hs Hp] [Hs' Hp'] E Ha. apply Forall_app in Hs as [Hs0 _]. split.
  - apply Forall_app. split; [|done]. rewrite Forall_forall in *. intros n Hn.
    rewrite (proj2 (Ha n.1 (list_elem_of_fmap_2 _ _ _ Hn))). by apply Hs0.
  - destruct N0 as [|n N0]; [done|]. cbn in *. rewrite map_app in *. cbn in *.
    rewrite <- app_assoc in *. cbn in *.
    change (c'.1 :: map fst J' ++ [BASE]) with ([c'.1] ++ map fst J' ++ [BASE]).
    change (c.1 :: map fst J ++ [BASE]) with ([c.1] ++ map fst J ++ [BASE]) in Hp.
    rewrite app_assoc in *. apply path_app in Hp as [Hp _]. apply path_app. rewrite E, lastd_app. cbn.
    split; [|by rewrite <- E]. eapply path_ext; [|exact Hp]. intros x Hx.
    rewrite app_comm_cons, removelast_last in Hx. by apply Ha.
Qed.

(** ** Freeing a block *)

Definition small (b : Z * Z) : Prop := 0 <= b.2 < 1073741824.

(** The end of [free], once the node [c] before the block is found. *)
Lemma free_mem h N0 c J b :
  linked h (N0 ++ c :: J) -> Forall (fun n => n.1 < c.1) N0 -> c.1 < b.1 -> Forall (fun n => b.1 < n.1) J ->
  BASE < b.1 -> u_size h !! b.1 = Some b.2 -> in_heap b.1 h = true -> in_heap c.1 h = true ->
  small b -> small c -> Forall small J ->
  exists h', (next <- get_ptr c.1 ;; link b.1 next ;; link c.1 b.1 ;; set_freep c.1) h = Ret tt h'
    /\ linked h' (N0 ++ join c (join b J))
    /\ (forall a, a <> b.1 -> a <> c.1 -> u_ptr h' !! a = u_ptr h !! a /\ u_size h' !! a = u_size h !! a)
    /\ u_freep h' = c.1 /\ u_brk h' = u_brk h /\ u_limit h' = u_limit h.
Proof.
  intros Hl HN0 Hcb HJ HB Hsz Hinb Hinc Hsb Hsc HsJ.
  pose proof Hl as [Hls Hlp]. apply Forall_app in Hls as [_ Hls]. apply Forall_cons in Hls as [Hc HJs].
  assert (path (u_ptr h) c.1 (map fst J ++ [BASE])) as Hcp.
  { destruct N0 as [|n N0]; [done|]. cbn in Hlp. rewrite map_app, <- app_assoc in Hlp.
    apply path_app in Hlp as [_ Hlp]. by destruct Hlp. }
  assert (get_ptr c.1 h = Ret (first J) h /\ linked h J) as [Hget HJl].
  { unfold get_ptr. destruct J; destruct Hcp as [-> Hcp]; repeat split; done. }
  assert (exists h1, link b.1 (first J) h = Ret tt h1 /\ linked h1 (join b J) /\ only_at b.1 h h1) as (h1 & E1 & L1 & O1).
  { replace (join b J) with (join (b.1, b.2) J) by (by destruct b). apply link_ok; try done.
    - intros _. unfold small, HEADER in *. lia.
    - eapply Forall_impl; [exact HsJ|]. unfold small in *. intros. lia. }
  destruct O1 as (O1 & O1f & O1b & O1l). destruct (join_hd b J) as (s & l' & Ej & Hs).
  { eapply Forall_impl; [exact HsJ|]. unfold small. intros. lia. }
  assert (exists h2, link c.1 (first (join b J)) h1 = Ret tt h2 /\ linked h2 (join c (join b J)) /\ only_at c.1 h1 h2)
    as (h2 & E2 & L2 & O2).
  { replace (join c) with (join (c.1, c.2)) by (by destruct c). apply link_ok; try done.
    - apply join_Forall; [done| |done]. eapply Forall_impl; [exact HJ|]. cbn. lia.
    - by rewrite Ej.
    - rewrite (proj2 (O1 c.1 ltac:(lia))). done.
    - unfold small in *. apply join_Forall; [lia| |].
      + eapply Forall_impl; [exact HsJ|]. cbn. lia.
      + intros d Hd _. pose proof (proj1 (Forall_forall _ _) HsJ d Hd). cbn in *. lia.
    - unfold in_heap in *. by rewrite O1b. }
  destruct O2 as (O2 & O2f & O2b & O2l). replace (first (join b J)) with b.1 in E2 by (by rewrite Ej).
  unfold bind. rewrite Hget, E1, E2. eexists. split; [done|]. cbn. split; [|repeat split; try congruence].
  - destruct (join_hd c (join b J)) as (s' & l2 & Ej2 & _).
    { apply join_Forall; unfold small in *; [lia| |]; [|intros d Hd _; pose proof (proj1 (Forall_forall _ _) HsJ d Hd); cbn in *; lia].
      eapply Forall_impl; [exact HsJ|]. cbn. lia. }
    rewrite Ej2 in *. eapply linked_replace; [exact Hl|exact L2|done|]. cbn. intros a Ha.
    apply list_elem_of_fmap_1 in Ha as (n & -> & Hn). pose proof (proj1 (Forall_forall _ _) HN0 n Hn) as Hlt. cbn in Hlt.
    destruct (O1 n.1) as [<- <-]; [lia|]. apply O2. lia.
  - rewrite (proj1 (O2 a ltac:(done))). by apply O1.
  - rewrite (proj2 (O2 a ltac:(done))). by apply O1.
Qed.

(** The free list with [b] in it, given its blocks below and above. *)
Definition put (b : Z * Z) (F1 F2 : list (Z * Z)) : list (Z * Z) :=
  match reverse F1 with
  | [] => join b F2
  | c :: R => reverse R ++ join c (join b F2)
  end.

Lemma put_snoc b F0 c F2 : put b (F0 ++ [c]) F2 = F0 ++ join c (join b F2).
Proof. unfold put. rewrite reverse_snoc. by rewrite reverse_involutive. Qed.

Lemma wf_small h F A b : wf h F A -> b ∈ F \/ b ∈ A -> small b /\ in_heap b.1 h = true /\ BASE + HEADER <= b.1 /\ 1 <= b.2 /\ bend b <= u_brk h.
Proof.
  intros Hwf Hb. destruct (wf_base _ _ _ Hwf) as (? & ? & ?).
  assert (BASE + HEADER <= b.1 /\ 1 <= b.2 /\ bend b <= u_brk h) as Hb'.
  { destruct Hb as [Hb|Hb].
    - pose proof (proj1 (Forall_forall _ _) (wf_free _ _ _ Hwf) b Hb).
      pose proof (proj1 (Forall_forall _ _) (gaps_above _ _ (wf_gaps _ _ _ Hwf)) b Hb). cbn in *. lia.
    - pose proof (proj1 (Forall_forall _ _) (wf_live _ _ _ Hwf) b Hb) as (? & ? & ? & ?). cbn in *. lia. }
  unfold small, in_heap, bend, HEADER in *. repeat split; lia.
Qed.

Lemma put_Forall (P : Z * Z -> Prop) b F1 F2 :
  P b -> Forall P (F1 ++ F2) -> (forall c d, P c -> P d -> bend c = d.1 -> P (c.1, c.2 + d.2)) -> Forall P (put b F1 F2).
Proof.
  intros Hb HF Hj. apply Forall_app in HF as [H1 H2].
  assert (Forall P (join b F2)) as Hjb.
  { apply join_Forall; [done|done|]. intros c Hc. apply Hj; [done|]. by apply (proj1 (Forall_forall _ _) H2). }
  destruct F1 as [|c F0 _] using rev_ind; [done|]. rewrite put_snoc.
  apply Forall_app in H1 as [H0 Hc]. apply Forall_cons in Hc as [Hc _]. apply Forall_app. split; [done|].
  apply join_Forall; [done|done|]. intros d Hd. apply Hj; [done|]. by apply (proj1 (Forall_forall _ _) Hjb).
Qed.

Lemma put_gaps lo b F1 F2 :
  gaps lo (F1 ++ F2) -> lo < b.1 -> 1 <= b.2 -> Forall (fun c => bend c <= b.1) F1 ->
  Forall (fun c => bend b <= c.1) F2 -> gaps lo (put b F1 F2).
Proof.
  intros Hg Hlo Hb H1 H2. destruct F1 as [|c F0 _] using rev_ind; [by apply gaps_join|].
  rewrite put_snoc. apply Forall_app in H1 as [H0 Hc]. apply Forall_cons in Hc as [Hc _].
  rewrite <- app_assoc in Hg. cbn in Hg. clear H0. revert lo Hlo Hg. induction F0 as [|d F0 IH]; intros lo Hlo Hg; cbn in *.
  - destruct Hg as (? & ? & Hg). assert (1 <= b.2 /\ c.1 < bend c) as [_ ?] by (unfold bend, HEADER; lia).
    assert (gaps lo (join b F2)) as Hgb.
    { apply gaps_join; try done. eapply gaps_weaken; [exact Hg|]. lia. }
    apply gaps_join; try done. apply join_Forall; [done| |done].
    eapply Forall_impl; [apply (gaps_above _ _ Hg)|]. cbn. intros. lia.
  - destruct Hg as (? & ? & Hg). repeat split; try done. apply IH; [|done].
    apply gaps_app in Hg as [Hg _]. pose proof (gaps_above _ _ Hg) as Ha. apply Forall_app in Ha as [_ Ha].
    apply Forall_cons in Ha as [Ha _]. unfold bend, HEADER in *. lia.
Qed.

Lemma put_units b F1 F2 : units (put b F1 F2) = units (F1 ++ F2) + b.2.
Proof.
  destruct F1 as [|c F0 _] using rev_ind; [unfold put; cbn; rewrite units_join; unfold units; cbn; lia|].
  rewrite put_snoc, !units_app, !units_join. cbn. lia.
Qed.

Lemma put_length b F1 F2 : (length (put b F1 F2) <= S (length (F1 ++ F2)))%nat.
Proof.
  assert (forall b l, length (join b l) <= S (length l))%nat as Hj.
  { intros ? [|? ?]; cbn; [lia|]. case_match; cbn; lia. }
  destruct F1 as [|c F0 _] using rev_ind; [apply Hj|]. rewrite put_snoc, !length_app. cbn.
  pose proof (Hj c (join b F2)). pose proof (Hj b F2). lia.
Qed.

(** A free list with [b] in it has a block as large. *)
Lemma put_has b F1 F2 : Forall (fun c => 0 <= c.2) (F1 ++ F2) -> 0 <= b.2 -> Exists (fun c => b.2 <= c.2) (put b F1 F2).
Proof.
  intros HF Hb. apply Forall_app in HF as [H1 H2]. destruct (join_hd b F2 H2) as (s & l & E & Hs).
  destruct F1 as [|c F0 _] using rev_ind; [unfold put; cbn; rewrite E; by left|].
  rewrite put_snoc, E. apply Forall_app in H1 as [_ Hc]. apply Forall_cons in Hc as [Hc _].
  apply Exists_app. right. cbn. case_match; cbn; [left; cbn; lia|right; by left].
Qed.

Lemma join_first b l : exists s l', join b l = (b.1, s) :: l'.
Proof. destruct l as [|c l]; cbn; [exists b.2, []; by destruct b|]. destruct b. case_match; eauto. Qed.

Lemma gaps_lt lo l c : gaps lo (l ++ [c]) -> Forall (fun d => d.1 < c.1) l.
Proof.
  revert lo. induction l as [|d l IH]; intros lo; [done|]. cbn. intros (? & ? & Hg). constructor; [|by eapply IH].
  pose proof (gaps_above _ _ Hg) as Ha. apply Forall_app in Ha as [_ Ha]. apply Forall_cons in Ha as [Ha _].
  unfold bend, HEADER in *. lia.
Qed.

Lemma free_step h F1 F2 A b (t := lastd BASE (map fst F1)) :
  wf h (F1 ++ F2) (b :: A) -> Forall (fun c => c.1 < b.1) F1 -> Forall (fun c => b.1 < c.1) F2 ->
  exists h', (next <- get_ptr t ;; link b.1 next ;; link t b.1 ;; set_freep t) h = Ret tt h'
    /\ linked h' ((BASE, 0) :: put b F1 F2)
    /\ (forall a, a <> b.1 -> a <> t -> u_ptr h' !! a = u_ptr h !! a /\ u_size h' !! a = u_size h !! a)
    /\ u_freep h' = t /\ t ∈ BASE :: map fst (put b F1 F2) /\ u_brk h' = u_brk h /\ u_limit h' = u_limit h.
Proof.
  intros Hwf H1 H2. destruct (wf_base _ _ _ Hwf) as (? & ? & ?).
  destruct (wf_small _ _ _ b Hwf) as (Hbs & Hbin & Hb1 & _); [right; left|].
  pose proof (wf_sizes _ _ _ Hwf) as Hsz. apply Forall_cons in Hsz as [Hsz _].
  assert (Forall small F2) as Hs2.
  { apply Forall_forall. intros c Hc. apply (wf_small _ _ _ c Hwf). left. apply elem_of_app. by right. }
  pose proof (wf_linked _ _ _ Hwf) as Hl. unfold HEADER in *. subst t.
  destruct F1 as [|c F0 _] using rev_ind.
  - destruct (free_mem h [] (BASE, 0) F2 b) as (h' & Hr & Hl' & Ha & Hf & Hbl); try done; try (cbn; lia).
    { unfold in_heap, HEADER. cbn. lia. }
    destruct (join_first b F2) as (s & l & E). rewrite E in Hl'. cbn in Hl'. unfold bend in Hl'. cbn in Hl'.
    rewrite (proj2 (Z.eqb_neq _ _)) in Hl' by lia. unfold put. cbn. rewrite E. exists h'.
    split; [done|]. split; [done|]. split; [done|]. split; [done|]. split; [left|done].
  - apply Forall_app in H1 as [_ Hc]. apply Forall_cons in Hc as [Hc _].
    destruct (wf_small _ _ _ c Hwf) as (Hcs & Hcin & Hc1 & _); [left; rewrite <- app_assoc; apply elem_of_app; right; left|].
    pose proof (wf_gaps _ _ _ Hwf) as Hg. rewrite <- app_assoc in Hg. cbn in Hg. apply gaps_app in Hg as [Hg _].
    rewrite map_app, lastd_app. cbn. rewrite put_snoc.
    destruct (free_mem h ((BASE, 0) :: F0) c F2 b) as (h' & Hr & Hl' & Ha & Hf & Hbl); try done; try lia.
    { cbn. by rewrite <- app_assoc in Hl. }
    { constructor; [cbn; unfold HEADER in *; lia|]. by eapply gaps_lt. }
    exists h'. split; [done|]. split; [done|]. split; [done|]. split; [done|]. split; [|done].
    right. rewrite map_app. apply elem_of_app. right. destruct (join_first c (join b F2)) as (s & l & ->). left.
Qed.

Lemma disj_sym a b : disj a b -> disj b a.
Proof. unfold disj. tauto. Qed.

Lemma disj_lt a b : disj a b -> 1 <= a.2 -> 1 <= b.2 -> a.1 < b.1 -> bend a <= b.1.
Proof. unfold disj, bend, HEADER. lia. Qed.

Lemma same_at h h' A x y :
  (forall a, a <> x -> a <> y -> u_ptr h' !! a = u_ptr h !! a /\ u_size h' !! a = u_size h !! a) ->
  (forall z, z = x \/ z = y -> Forall (fun a => z < a.1 \/ bend a <= z) A) -> same A h h'.
Proof.
  intros Ha Hz. apply Forall_forall. intros a Hin z Hza.
  pose proof (proj1 (Forall_forall _ _) (Hz x (or_introl eq_refl)) a Hin).
  pose proof (proj1 (Forall_forall _ _) (Hz y (or_intror eq_refl)) a Hin). cbn in *. apply Ha; lia.
Qed.

Lemma same_sizes h h' A : same A h h' -> Forall (fun a => 1 <= a.2) A -> sizes (u_size h) A -> sizes (u_size h') A.
Proof.
  unfold same, sizes. rewrite !Forall_forall. intros Hs H1 Hsz a Ha. rewrite <- (Hsz a Ha).
  apply (Hs a Ha). specialize (H1 a Ha). unfold bend, HEADER. cbn in *. lia.
Qed.

(** A node of the free list, and the header of a live block, lie outside the other live blocks. *)
Lemma node_outside h F A x : wf h F A -> x ∈ BASE :: map fst F -> Forall (fun a => x < a.1 \/ bend a <= x) A.
Proof.
  intros Hwf Hx. eapply Forall_impl; [apply (wf_live _ _ _ Hwf)|]. intros a (Ha & ? & ? & Hd).
  apply elem_of_cons in Hx as [->|Hx]; [unfold HEADER in *; lia|].
  apply list_elem_of_fmap_1 in Hx as (c & -> & Hc). destruct (wf_small _ _ _ c Hwf (or_introl Hc)) as (_ & _ & _ & ? & _).
  pose proof (proj1 (Forall_forall _ _) Hd c Hc) as Hac. unfold disj, bend, HEADER in *. lia.
Qed.

Lemma header_outside h F A b : wf h F (b :: A) -> Forall (fun a => b.1 < a.1 \/ bend a <= b.1) A.
Proof.
  intros Hwf. destruct (wf_apart _ _ _ Hwf) as [Hd _]. pose proof (wf_live _ _ _ Hwf) as Hl.
  apply Forall_cons in Hl as [(_ & Hb & _) Hl]. rewrite Forall_forall in *. intros a Ha.
  destruct (Hl a Ha) as (_ & ? & _). specialize (Hd a Ha). unfold disj, bend, HEADER in *. lia.
Qed.

Lemma lastd_in a l : lastd a l ∈ a :: l.
Proof. revert a. induction l as [|x l IH]; intros a; cbn; [left|]. right. apply IH. Qed.

Lemma free_wf h h' F1 F2 A b :
  wf h (F1 ++ F2) (b :: A) -> Forall (fun c => c.1 < b.1) F1 -> Forall (fun c => b.1 < c.1) F2 ->
  same A h h' -> linked h' ((BASE, 0) :: put b F1 F2) -> u_freep h' ∈ BASE :: map fst (put b F1 F2) ->
  u_brk h' = u_brk h -> u_limit h' = u_limit h -> wf h' (put b F1 F2) A.
Proof.
  intros Hwf H1 H2 Hs Hl Hf Hb Hlim. pose proof (wf_live _ _ _ Hwf) as Hlive.
  apply Forall_cons in Hlive as [(Hb1 & Hb2 & Hb3 & Hbd) Hlive].
  destruct (wf_apart _ _ _ Hwf) as [Hdb Hap]. pose proof (wf_sizes _ _ _ Hwf) as Hsz. apply Forall_cons in Hsz as [_ Hsz].
  assert (forall c, c ∈ F1 ++ F2 -> 1 <= c.2 /\ disj b c) as HF.
  { intros c Hc. split; [by apply (wf_small _ _ _ c Hwf (or_introl Hc))|]. by apply (proj1 (Forall_forall _ _) Hbd). }
  split; try done; rewrite ?Hb, ?Hlim.
  - apply put_gaps; [apply (wf_gaps _ _ _ Hwf)|unfold HEADER in *; lia|done| |].
    + rewrite Forall_forall in *. intros c Hc. destruct (HF c); [apply elem_of_app; by left|].
      apply disj_lt; [by apply disj_sym|done|done|by apply H1].
    + rewrite Forall_forall in *. intros c Hc. destruct (HF c); [apply elem_of_app; by right|].
      apply disj_lt; [done|done|done|by apply H2].
  - apply put_Forall; [done|apply (wf_free _ _ _ Hwf)|]. intros c d _ ? E. by rewrite bend_join.
  - eapply same_sizes; [exact Hs| |done]. eapply Forall_impl; [exact Hlive|]. cbn. tauto.
  - rewrite Forall_forall in *. intros a Ha. destruct (Hlive a Ha) as (? & ? & ? & Had). repeat split; try done.
    apply put_Forall; [by apply disj_sym, Hdb|done|]. intros c d. unfold disj, bend, HEADER. cbn. lia.
  - apply (wf_base _ _ _ Hwf).
Qed.

Lemma free_ok h F A b fuel :
  wf h F (b :: A) -> (2 * length F + 2 <= fuel)%nat ->
  exists h' F', free fuel (b.1 + HEADER) h = Ret tt h' /\ wf h' F' A /\ same A h h'
    /\ units F' = units F + b.2 /\ (length F' <= S (length F))%nat /\ Exists (fun c => b.2 <= c.2) F'
    /\ u_brk h' = u_brk h /\ u_limit h' = u_limit h.
Proof.
  intros Hwf Hfuel. pose proof (wf_live _ _ _ Hwf) as Hlive. apply Forall_cons in Hlive as [(Hb1 & Hb2 & Hb3 & Hbd) Hlive].
  destruct (free_find_ok h F b.1 fuel) as (F1 & F2 & -> & H1 & H2 & Hfind).
  { apply (wf_linked _ _ _ Hwf). }
  { eapply gaps_weaken; [apply (wf_gaps _ _ _ Hwf)|]. unfold HEADER. lia. }
  { apply (wf_freep _ _ _ Hwf). }
  { intros Hin. pose proof (node_outside _ _ _ _ Hwf (list_elem_of_further _ _ _ Hin)) as Ho.
    apply Forall_cons in Ho as [Ho _]. unfold bend, HEADER in *. lia. }
  { unfold HEADER in *. lia. }
  { done. }
  destruct (free_step h F1 F2 A b Hwf H1 H2) as (h' & Hrun & Hlk & Ha & Hfp & Hnode & Hbrk & Hlim).
  assert (same A h h') as Hsame.
  { eapply same_at; [exact Ha|]. intros z [->| ->]; [by eapply header_outside|].
    assert (Forall (fun a => lastd BASE (map fst F1) < a.1 \/ bend a <= lastd BASE (map fst F1)) (b :: A)) as Ho.
    { eapply node_outside; [exact Hwf|]. rewrite map_app. pose proof (lastd_in BASE (map fst F1)). set_solver. }
    by apply Forall_cons in Ho as [_ Ho]. }
  exists h', (put b F1 F2). split.
  { unfold free. replace (b.1 + HEADER - HEADER) with b.1 by lia. unfold bind at 1, gets.
    unfold bind at 1. by rewrite Hfind. }
  split; [|split; [done|split; [apply put_units|split; [apply put_length|split; [|done]]]]].
  - eapply free_wf; try done. by rewrite Hfp.
  - apply put_has; [|lia]. apply Forall_forall. intros c Hc.
    destruct (wf_small _ _ _ c Hwf (or_introl Hc)) as (_ & _ & _ & ? & _). lia.
Qed.

(** ** Growing the process *)

Lemma grown_wf h F A nu (h' := Heap (u_ptr h) (<[u_brk h := nu]> (u_size h)) (u_freep h) (u_brk h + HEADER * nu) (u_limit h)) :
  wf h F A -> 1 <= nu -> u_brk h + HEADER * nu <= u_limit h -> wf h' F ((u_brk h, nu) :: A) /\ same A h h'.
Proof.
  intros Hwf Hnu Hlim. pose proof (wf_live _ _ _ Hwf) as Hlive. destruct (wf_base _ _ _ Hwf) as (? & [? ?] & ?).
  assert (u_brk h ∉ map fst ((BASE, 0) :: F)) as Hnode.
  { cbn. rewrite not_elem_of_cons. split; [unfold HEADER in *; lia|]. intros Hin.
    apply list_elem_of_fmap_1 in Hin as (c & E & Hc). destruct (wf_small _ _ _ c Hwf (or_introl Hc)) as (_ & _ & _ & ? & ?).
    unfold bend, HEADER in *. lia. }
  assert (u_brk h ∉ map fst A) as HA.
  { intros Hin. apply list_elem_of_fmap_1 in Hin as (c & E & Hc).
    destruct (wf_small _ _ _ c Hwf (or_intror Hc)) as (_ & _ & _ & ? & ?). unfold bend, HEADER in *. lia. }
  destruct (wf_linked _ _ _ Hwf) as [Hs Hp]. split.
  - split; cbn; try apply Hwf.
    + split; [by apply sizes_insert|done].
    + eapply Forall_impl; [apply (wf_free _ _ _ Hwf)|]. cbn. unfold HEADER in *. intros. lia.
    + apply Forall_cons. cbn. rewrite lookup_insert_eq. split; [done|]. apply sizes_insert; [done|]. apply Hwf.
    + constructor; cbn.
      * repeat split; try done. eapply Forall_impl; [apply (wf_free _ _ _ Hwf)|]. cbn. by right.
      * eapply Forall_impl; [exact Hlive|]. cbn. intros a (? & ? & ? & ?). repeat split; try done. unfold HEADER in *. lia.
    + split; [|apply Hwf]. eapply Forall_impl; [exact Hlive|]. cbn. intros a (? & ? & ? & ?). by right.
    + repeat split; try done. unfold HEADER in *. lia.
  - apply (same_at h h' A (u_brk h) (u_brk h)).
    + intros a Ha _. cbn. by rewrite lookup_insert_ne.
    + intros z Hz. assert (z = u_brk h) as -> by tauto. eapply Forall_impl; [exact Hlive|]. cbn. tauto.
Qed.

Lemma same_trans A h1 h2 h3 : same A h1 h2 -> same A h2 h3 -> same A h1 h3.
Proof.
  unfold same. rewrite !Forall_forall. intros H12 H23 a Ha x Hx. destruct (H12 a Ha x Hx) as [<- <-]. exact (H23 a Ha x Hx).
Qed.

(** The units asked of the kernel for a block of [n]. *)
Definition core (n : Z) : Z := if n <? 4096 then 4096 else n.

Lemma sbrk_grow h n :
  0 < u_brk h < 2147483648 -> 0 < n < 2147483648 ->
  sbrk n h = if u_limit h <? u_brk h + n then Ret (-1) h else Ret (u_brk h) (set_brk (u_brk h + n) h).
Proof.
  intros Hb Hn. unfold sbrk. rewrite s32_small, u32_small by lia.
  by rewrite (proj2 (Z.ltb_lt 0 n)), (proj2 (Z.ltb_ge _ (u_brk h))) by lia.
Qed.

Lemma morecore_ok h F A n fuel :
  wf h F A -> 1 <= n < 134217728 -> (2 * length F + 2 <= fuel)%nat ->
  if u_limit h <? u_brk h + HEADER * core n then morecore fuel n h = Ret 0 h
  else exists h' F', morecore fuel n h = Ret (u_freep h') h' /\ wf h' F' A /\ same A h h'
    /\ units F' = units F + core n /\ (length F' <= S (length F))%nat /\ Exists (fun c => n <= c.2) F'
    /\ u_brk h' = u_brk h + HEADER * core n /\ u_limit h' = u_limit h.
Proof.
  intros Hwf Hn Hfuel. destruct (wf_base _ _ _ Hwf) as (? & [? ?] & ?).
  assert (4096 <= core n < 134217728 /\ n <= core n) as [Hc Hnc] by (unfold core; destruct (n <? 4096) eqn:?; lia).
  pose proof (sbrk_grow h (HEADER * core n)) as Hsb. unfold HEADER in *. specialize (Hsb ltac:(lia) ltac:(lia)).
  unfold morecore. fold (core n). rewrite (Z.mul_comm (core n)), s32_small by (unfold HEADER in *; lia).
  destruct (u_limit h <? _) eqn:El; [unfold bind, HEADER; by rewrite Hsb|]. apply Z.ltb_ge in El.
  destruct (grown_wf h F A (core n) Hwf) as [Hwf1 Hs1]; [lia|done|].
  destruct (free_ok _ F A (u_brk h, core n) fuel Hwf1 Hfuel) as (h' & F' & Hrun & Hwf' & Hs' & Hu & Hlen & Hex & Hbrk & Hlim).
  exists h', F'. split; [|split; [done|split; [|split; [done|split; [done|split; [|done]]]]]].
  - unfold bind. unfold HEADER at 1. rewrite Hsb, (proj2 (Z.eqb_neq _ (-1))) by lia.
    unfold set_size, in_heap, set_brk, HEADER in *. cbn [u_brk u_ptr u_size u_freep u_limit fst] in *.
    rewrite (proj2 (Z.leb_le 0 _)), (proj2 (Z.leb_le _ (u_brk h + _))) by lia. cbn [andb]. by rewrite Hrun.
  - exact (same_trans _ _ _ _ Hs1 Hs').
  - apply (Exists_impl _ _ _ Hex). intros c. cbn. lia.
Qed.

(** ** Taking a block *)

(** What is left of a free block of which [n] units are taken. *)
Definition rest (n : Z) (b : Z * Z) : list (Z * Z) := if b.2 =? n then [] else [(b.1, b.2 - n)].
Definition taken (n : Z) (b : Z * Z) : Z * Z := (b.1 + HEADER * (b.2 - n), n).

(** The nodes around the free block [b]. *)
Lemma wf_around h F1 b F2 A :
  wf h (F1 ++ b :: F2) A ->
  linked h (b :: F2) /\ Forall (fun c => bend b < c.1) F2 /\ Forall (fun c => c.1 < b.1) ((BASE, 0) :: F1).
Proof.
  intros Hwf. pose proof (wf_gaps _ _ _ Hwf) as Hg. apply gaps_app in Hg as [Hg1 Hg2].
  destruct (wf_small _ _ _ b Hwf) as (_ & _ & ? & _); [left; apply elem_of_app; right; left|].
  destruct (wf_linked _ _ _ Hwf) as [Hs Hp]. apply Forall_cons in Hs as [_ Hs]. apply Forall_app in Hs as [_ Hs].
  split; [split; [done|]|split].
  - cbn in Hp. rewrite map_app, <- app_assoc in Hp. apply path_app in Hp as [_ Hp]. by destruct Hp.
  - eapply Forall_impl; [apply (gaps_above _ _ Hg2)|]. cbn. tauto.
  - constructor; [cbn; unfold HEADER in *; lia|]. by eapply gaps_lt.
Qed.

Lemma snoc_node lo F1 :
  gaps lo F1 -> BASE <= lo ->
  exists N0 c, (BASE, 0) :: F1 = N0 ++ [c] /\ c.1 = lastd BASE (map fst F1) /\ Forall (fun n => n.1 < c.1) N0.
Proof.
  intros Hg Hlo. destruct F1 as [|c F0 _] using rev_ind; [by exists [], (BASE, 0)|].
  exists ((BASE, 0) :: F0), c. rewrite map_app, lastd_app. split; [done|]. split; [done|].
  pose proof (gaps_above _ _ Hg) as Ha. apply Forall_app in Ha as [_ Ha]. apply Forall_cons in Ha as [Ha _].
  constructor; [cbn; lia|]. by eapply gaps_lt.
Qed.

Lemma carve_exact h F1 b F2 A (t := lastd BASE (map fst F1))
    (h' := Heap (<[t := first F2]> (u_ptr h)) (u_size h) t (u_brk h) (u_limit h)) :
  wf h (F1 ++ b :: F2) A -> carve b.2 t b.1 b.2 h = Ret (b.1 + HEADER) h' /\ linked h' ((BASE, 0) :: F1 ++ F2).
Proof.
  intros Hwf. destruct (wf_around _ _ _ _ _ Hwf) as ([Hbs Hbp] & Hup & Hdown).
  destruct (wf_base _ _ _ Hwf) as (? & ? & ?). destruct (snoc_node _ F1 (gaps_prefix _ _ _ (wf_gaps _ _ _ Hwf))) as (N0 & c & E & Ec & Hlt); [unfold HEADER; lia|].
  fold t in Ec.
  pose proof (wf_linked _ _ _ Hwf) as Hl. rewrite app_comm_cons, E, <- app_assoc in Hl. cbn in Hl.
  assert (in_heap t h = true /\ t < b.1) as [Hin Htb].
  { rewrite E in Hdown. apply Forall_app in Hdown as [_ Hd]. apply Forall_cons in Hd as [Hd _].
    destruct (wf_small _ _ _ b Hwf) as (_ & Hin & _ & _); [left; apply elem_of_app; right; left|].
    assert (BASE <= t). { apply (gaps_suffix (BASE + HEADER - 1) BASE F1 (b :: F2)); [apply Hwf|unfold HEADER; lia]. }
    split; [|lia]. unfold in_heap, HEADER in *. lia. }
  assert (u_ptr h !! b.1 = Some (first F2) /\ path (u_ptr h) (first F2) (tail (map fst F2 ++ [BASE]))) as [Hb Hq].
  { by destruct F2; destruct Hbp. }
  split.
  - unfold carve. rewrite Z.eqb_refl. unfold bind, get_ptr. rewrite Hb. unfold set_ptr. by rewrite Hin.
  - rewrite app_comm_cons, E, <- app_assoc. cbn. eapply linked_replace; [exact Hl| |done|].
    + destruct Hl as [Hs _]. apply Forall_app in Hs as [_ Hs]. apply Forall_cons in Hs as [Hc _].
      apply Forall_cons in Hbs as [_ Hs2]. split; [by apply Forall_cons|]. cbn. rewrite Ec.
      replace (map fst F2 ++ [BASE]) with (first F2 :: tail (map fst F2 ++ [BASE])) by (by destruct F2).
      split; [by rewrite lookup_insert_eq|]. apply path_insert; [|done].
      replace (first F2 :: tail (map fst F2 ++ [BASE])) with (map fst F2 ++ [BASE]) by (by destruct F2).
      rewrite removelast_last. apply above_not_in. eapply Forall_impl; [exact Hup|]. cbn.
      unfold bend, HEADER. pose proof (wf_small _ _ _ b Hwf ltac:(set_solver)) as (_ & _ & _ & ? & _). intros. lia.
    + intros a Ha. cbn. rewrite lookup_insert_ne; [done|]. intros <-.
      apply list_elem_of_fmap_1 in Ha as (n & Hn & Ha). pose proof (proj1 (Forall_forall _ _) Hlt n Ha). cbn in *. lia.
Qed.

Lemma carve_split h F1 b F2 A n (t := lastd BASE (map fst F1)) (x := (taken n b).1)
    (h' := Heap (u_ptr h) (<[x := n]> (<[b.1 := b.2 - n]> (u_size h))) t (u_brk h) (u_limit h)) :
  wf h (F1 ++ b :: F2) A -> 1 <= n < b.2 ->
  carve n t b.1 b.2 h = Ret (x + HEADER) h' /\ linked h' ((BASE, 0) :: F1 ++ (b.1, b.2 - n) :: F2).
Proof.
  intros Hwf Hn. destruct (wf_around _ _ _ _ _ Hwf) as ([Hbs Hbp] & Hup & Hdown).
  pose proof (wf_small _ _ _ b Hwf ltac:(set_solver)) as (_ & Hin & ? & ? & ?). destruct (wf_base _ _ _ Hwf) as (? & ? & ?).
  pose proof (wf_linked _ _ _ Hwf) as Hl. rewrite app_comm_cons in Hl. split.
  - unfold carve. rewrite (proj2 (Z.eqb_neq b.2 n)) by lia. unfold bind, set_size. rewrite Hin.
    unfold in_heap at 1. cbn [u_brk]. subst x. unfold taken. cbn [fst]. unfold bend, HEADER in *.
    rewrite (proj2 (Z.leb_le 0 _)), (proj2 (Z.leb_le _ (u_brk h))) by lia. done.
  - rewrite app_comm_cons. eapply linked_replace; [exact Hl| |done|].
    + split; cbn; [|done]. apply Forall_cons in Hbs as [_ Hs2]. apply Forall_cons. cbn. split.
      * rewrite lookup_insert_ne, lookup_insert_eq; [done|]. subst x. unfold taken, HEADER. cbn. lia.
      * apply sizes_insert; [|apply sizes_insert; [|done]]; apply above_not_in; eapply Forall_impl; try exact Hup;
          subst x; unfold taken, bend, HEADER in *; cbn; intros; lia.
    + intros a Ha. apply list_elem_of_fmap_1 in Ha as (c & -> & Ha).
      pose proof (proj1 (Forall_forall _ _) Hdown c Ha) as Hlt. cbn in Hlt |- *. split; [done|].
      rewrite !lookup_insert_ne; [done| |]; subst x; unfold taken, HEADER; cbn; lia.
Qed.

Lemma carve_linked h F1 b F2 A n (t := lastd BASE (map fst F1)) :
  wf h (F1 ++ b :: F2) A -> 1 <= n <= b.2 ->
  exists h', carve n t b.1 b.2 h = Ret ((taken n b).1 + HEADER) h' /\ linked h' ((BASE, 0) :: F1 ++ rest n b ++ F2)
    /\ u_size h' !! (taken n b).1 = Some n
    /\ (forall a, a <> t -> ~ (b.1 <= a < bend b) -> u_ptr h' !! a = u_ptr h !! a /\ u_size h' !! a = u_size h !! a)
    /\ u_freep h' = t /\ u_brk h' = u_brk h /\ u_limit h' = u_limit h.
Proof.
  intros Hwf Hn. destruct (decide (b.2 = n)) as [<-|Hne]; unfold rest.
  - destruct (carve_exact _ _ _ _ _ Hwf) as [Hr Hl]. rewrite Z.eqb_refl. unfold taken. cbn [fst].
    rewrite Z.sub_diag, Z.mul_0_r, Z.add_0_r. eexists. split; [exact Hr|]. split; [exact Hl|].
    destruct (wf_around _ _ _ _ _ Hwf) as ([Hbs _] & _ & _). apply Forall_cons in Hbs as [Hbs _].
    cbn. split; [done|]. split; [|done]. intros a Ha _. by rewrite lookup_insert_ne.
  - destruct (carve_split _ _ _ _ _ n Hwf) as [Hr Hl]; [lia|]. rewrite (proj2 (Z.eqb_neq b.2 n)) by done.
    eexists. split; [exact Hr|]. split; [exact Hl|]. cbn. split; [by rewrite lookup_insert_eq|].
    split; [|done]. intros a _ Ha. split; [done|]. rewrite !lookup_insert_ne; [done| |];
      intros <-; apply Ha; unfold bend, HEADER; lia.
Qed.

Lemma gaps_rest lo F1 b F2 n : gaps lo (F1 ++ b :: F2) -> 1 <= n <= b.2 -> gaps lo (F1 ++ rest n b ++ F2).
Proof.
  intros Hg Hn. revert lo Hg. induction F1 as [|c F1 IH]; intros lo Hg; cbn in *.
  - destruct Hg as (? & ? & Hg). unfold rest. case_match eqn:E; cbn.
    + eapply gaps_weaken; [exact Hg|]. unfold bend, HEADER. lia.
    + repeat split; [done|lia|]. eapply gaps_weaken; [exact Hg|]. unfold bend, HEADER. cbn. lia.
  - destruct Hg as (? & ? & Hg). repeat split; try done. by apply IH.
Qed.

Lemma gaps_before lo F1 b F2 : gaps lo (F1 ++ b :: F2) -> Forall (fun c => bend c < b.1) F1.
Proof.
  revert lo. induction F1 as [|c F1 IH]; intros lo; [done|]. cbn. intros (? & ? & Hg). constructor; [|by eapply IH].
  pose proof (gaps_above _ _ Hg) as Ha. apply Forall_app in Ha as [_ Ha]. by apply Forall_cons in Ha as [[Ha _] _].
Qed.

Lemma rest_Forall (P : Z * Z -> Prop) n b F1 F2 :
  Forall P F1 -> Forall P F2 -> (n < b.2 -> P (b.1, b.2 - n)) -> n <= b.2 -> Forall P (F1 ++ rest n b ++ F2).
Proof.
  intros H1 H2 Hb Hn. rewrite !Forall_app. repeat split; try done. unfold rest. case_match; constructor; [|done].
  apply Hb. lia.
Qed.

Lemma carve_ok h F1 b F2 A n :
  wf h (F1 ++ b :: F2) A -> 1 <= n <= b.2 ->
  exists h', carve n (lastd BASE (map fst F1)) b.1 b.2 h = Ret ((taken n b).1 + HEADER) h'
    /\ wf h' (F1 ++ rest n b ++ F2) (taken n b :: A) /\ same A h h' /\ u_brk h' = u_brk h /\ u_limit h' = u_limit h.
Proof.
  intros Hwf Hn. destruct (carve_linked _ _ _ _ _ n Hwf Hn) as (h' & Hr & Hl & Hsz & Ha & Hf & Hb & Hlim).
  pose proof (wf_small _ _ _ b Hwf ltac:(set_solver)) as (_ & _ & Hb1 & _ & Hbe).
  pose proof (wf_gaps _ _ _ Hwf) as Hg. destruct (wf_around _ _ _ _ _ Hwf) as (_ & Hup & _).
  pose proof (gaps_before _ _ _ _ Hg) as Hdown. pose proof (wf_live _ _ _ Hwf) as Hlive.
  pose proof (wf_free _ _ _ Hwf) as Hfree. apply Forall_app in Hfree as [Hfr1 Hfr2]. apply Forall_cons in Hfr2 as [_ Hfr2].
  assert (Forall (disj b) A) as HbA.
  { eapply Forall_impl; [exact Hlive|]. cbn. intros a (_ & _ & _ & Hd). apply disj_sym.
    apply Forall_app in Hd as [_ Hd]. by apply Forall_cons in Hd as [Hd _]. }
  assert (same A h h') as Hs.
  { assert (lastd BASE (map fst F1) ∈ BASE :: map fst (F1 ++ b :: F2)) as Ht.
    { rewrite map_app. pose proof (lastd_in BASE (map fst F1)). set_solver. }
    pose proof (node_outside _ _ _ _ Hwf Ht) as Ho. unfold same. rewrite Forall_forall in *. intros a Hin x Hx.
    specialize (Ho a Hin). specialize (HbA a Hin). unfold disj, bend, HEADER in *. apply Ha; lia. }
  exists h'. split; [done|]. split; [|done]. split; rewrite ?Hb, ?Hlim, ?Hf; try apply Hwf.
  - done.
  - by apply gaps_rest.
  - apply rest_Forall; [done|done| |lia]. unfold bend, HEADER in *. cbn. lia.
  - apply Forall_cons. split; [done|]. eapply same_sizes; [exact Hs| |apply Hwf].
    eapply Forall_impl; [exact Hlive|]. cbn. tauto.
  - constructor.
    + unfold taken, bend, HEADER in *. cbn. repeat split; try lia.
      apply rest_Forall; [| | |lia]; unfold disj, bend, HEADER; cbn.
      * eapply Forall_impl; [exact Hdown|]. unfold bend, HEADER. cbn. intros. lia.
      * eapply Forall_impl; [exact Hup|]. unfold bend, HEADER. cbn. intros. lia.
      * lia.
    + rewrite Forall_forall in *. intros a Hin. destruct (Hlive a Hin) as (? & ? & ? & Hd). repeat split; try done.
      specialize (HbA a Hin). apply Forall_app in Hd as [Hd1 Hd2]. apply Forall_cons in Hd2 as [_ Hd2].
      apply rest_Forall; try done; [|lia]. unfold disj, bend, HEADER in *. cbn. lia.
  - split; [|apply Hwf]. eapply Forall_impl; [exact HbA|]. unfold disj, taken, bend, HEADER. cbn. lia.
  - pose proof (lastd_in BASE (map fst F1)). rewrite map_app. set_solver.
Qed.

(** ** The search *)

(** What the loop does when it is back where it started. *)
Definition regrow (fuel : nat) (n : Z) : H Z :=
  p <- morecore fuel n ;;
  if p =? 0 then ret 0 else
  next <- get_ptr p ;;
  malloc_loop fuel n p next.

(** One turn round the nodes [G], of which the last is [freep]. *)
Lemma walk h n G : forall g prev fuel,
  path (u_ptr h) prev (map fst (g :: G)) -> sizes (u_size h) (g :: G) ->
  lastd prev (map fst (g :: G)) = u_freep h -> Forall (fun c => c.1 <> u_freep h) (removelast (g :: G)) ->
  (length (g :: G) <= fuel)%nat ->
  (exists G1 b G2, g :: G = G1 ++ b :: G2 /\ n <= b.2
     /\ malloc_loop fuel n prev g.1 h = carve n (lastd prev (map fst G1)) b.1 b.2 h)
  \/ (Forall (fun c => c.2 < n) (g :: G) /\ malloc_loop fuel n prev g.1 h = regrow (fuel - length (g :: G)) n h).
Proof.
  induction G as [|g' G IH]; intros g prev fuel Hp Hs Hlast Hne Hfuel; (destruct fuel as [|fuel]; [cbn in Hfuel; lia|]);
    apply Forall_cons in Hs as [Hg Hs]; cbn [malloc_loop]; unfold bind, gets, get_size; rewrite Hg;
    (destruct (n <=? g.2) eqn:E; [left; exists []; eexists _, _; split; [done|]; split; [lia|done]|]).
  - right. cbn in Hlast. rewrite Hlast, Z.eqb_refl. split; [constructor; [lia|done]|].
    cbn. by rewrite Nat.sub_0_r.
  - cbn in Hne. apply Forall_cons in Hne as [Hng Hne]. rewrite (proj2 (Z.eqb_neq _ _)) by done.
    destruct Hp as [_ Hp]. pose proof Hp as [Hgp _]. unfold get_ptr. cbn in Hgp. rewrite Hgp.
    destruct (IH g' g.1 fuel Hp Hs Hlast Hne) as [(G1 & b & G2 & EG & Hn & ->)|[Hall ->]]; [cbn in *; lia| |].
    + left. exists (g :: G1), b, G2. cbn. rewrite EG. done.
    + right. split; [constructor; [lia|done]|]. done.
Qed.

Lemma lastd_fresh a l : NoDup l -> lastd a l ∉ removelast l.
Proof.
  revert a. induction l as [|x l IH]; intros a Hnd; [apply not_elem_of_nil|]. apply NoDup_cons in Hnd as [Hx Hnd].
  destruct l as [|y l]; [apply not_elem_of_nil|]. cbn [removelast lastd] in *.
  apply not_elem_of_cons. split; [|by apply (IH x)].
  intros E. apply Hx. rewrite <- E. apply (lastd_in y l).
Qed.

Lemma gaps_nodup lo l : gaps lo l -> NoDup (map fst l).
Proof.
  revert lo. induction l as [|b l IH]; intros lo; cbn; [constructor|]. intros (? & ? & Hg).
  apply NoDup_cons. split; [|by eapply IH]. apply above_not_in. eapply Forall_impl; [apply (gaps_above _ _ Hg)|].
  cbn. unfold bend, HEADER. intros. lia.
Qed.

Lemma rotate_found F1 F2 G1 b G2 :
  F2 ++ (BASE, 0) :: F1 = G1 ++ b :: G2 -> 1 <= b.2 ->
  exists l1 l2, F1 ++ F2 = l1 ++ b :: l2 /\ lastd (lastd BASE (map fst F1)) (map fst G1) = lastd BASE (map fst l1).
Proof.
  intros E Hb. apply app_eq_inv in E as [(l & -> & E)|(l & -> & E)].
  - destruct l as [|x l]; cbn in E; injection E as -> E; [cbn in Hb; lia|].
    exists (F1 ++ G1), l. by rewrite map_app, lastd_app, <- app_assoc.
  - destruct l as [|x l]; cbn in E; injection E as <- E; [cbn in Hb; lia|].
    subst F1. exists l, (G2 ++ F2). split; [by rewrite <- app_assoc|]. by rewrite (map_app _ F2), lastd_app.
Qed.

Lemma fresh_last h l : NoDup (map fst l) -> lastd (u_freep h) (map fst l) = u_freep h ->
  Forall (fun c : Z * Z => c.1 <> u_freep h) (removelast l).
Proof.
  intros Hnd Hl. apply Forall_forall. intros c Hc E. apply (lastd_fresh (u_freep h) _ Hnd). rewrite Hl, <- E.
  clear -Hc. induction l as [|x l IH]; [by apply elem_of_nil in Hc|]. destruct l as [|y l]; [by apply elem_of_nil in Hc|].
  cbn [removelast map] in *. apply elem_of_cons in Hc as [->|Hc]; [left|right; by apply IH].
Qed.

(** The same turn, of a well-formed heap: a large enough block, or none. *)
Lemma turn h F A n fuel :
  wf h F A -> 1 <= n -> (S (length F) <= fuel)%nat ->
  (exists F1 b F2, F = F1 ++ b :: F2 /\ n <= b.2
     /\ (p <- get_ptr (u_freep h) ;; malloc_loop fuel n (u_freep h) p) h = carve n (lastd BASE (map fst F1)) b.1 b.2 h)
  \/ (Forall (fun c => c.2 < n) F
     /\ (p <- get_ptr (u_freep h) ;; malloc_loop fuel n (u_freep h) p) h = regrow (fuel - S (length F)) n h).
Proof.
  intros Hwf Hn Hfuel. destruct (node_split _ _ (wf_freep _ _ _ Hwf)) as (F1 & F2 & -> & Hfp).
  destruct (wf_linked _ _ _ Hwf) as [Hs Hp]. cbn in Hp. rewrite map_app, <- app_assoc in Hp.
  apply path_app in Hp as [Hp1 Hp2]. rewrite <- Hfp in Hp2. apply Forall_cons in Hs as [HsB Hs]. apply Forall_app in Hs as [Hs1 Hs2].
  assert (path (u_ptr h) (u_freep h) (map fst (F2 ++ (BASE, 0) :: F1))) as Hpath.
  { rewrite map_app. cbn. change (BASE :: map fst F1) with ([BASE] ++ map fst F1). rewrite app_assoc.
    apply path_app. split; [done|]. by rewrite lastd_app. }
  assert (NoDup (map fst (F2 ++ (BASE, 0) :: F1))) as Hnd.
  { rewrite map_app. cbn. rewrite Permutation_app_comm. cbn. rewrite <- map_app. apply NoDup_cons. split.
    - apply above_not_in. eapply Forall_impl; [apply (gaps_above _ _ (wf_gaps _ _ _ Hwf))|]. cbn. unfold HEADER. intros. lia.
    - eapply gaps_nodup. apply Hwf. }
  assert (lastd (u_freep h) (map fst (F2 ++ (BASE, 0) :: F1)) = u_freep h) as Hlast.
  { rewrite map_app, lastd_app. cbn. by rewrite Hfp. }
  assert (sizes (u_size h) (F2 ++ (BASE, 0) :: F1)) as Hsz by (apply Forall_app; split; [done|by constructor]).
  assert (length (F2 ++ (BASE, 0) :: F1) = S (length (F1 ++ F2))) as Hlen by (rewrite !length_app; cbn; lia).
  pose proof (fresh_last h _ Hnd Hlast) as Hfresh.
  destruct (F2 ++ (BASE, 0) :: F1) as [|g G] eqn:EG; [by destruct F2|].
  unfold bind, get_ptr. rewrite (proj1 Hpath). rewrite <- Hlen in *.
  destruct (walk h n G g (u_freep h) fuel Hpath Hsz Hlast Hfresh Hfuel) as [(G1 & b & G2 & E & Hb & ->)|[Hall ->]].
  - left. rewrite E in EG. destruct (rotate_found _ _ _ _ _ EG) as (l1 & l2 & -> & El); [lia|].
    exists l1, b, l2. rewrite Hfp, El. done.
  - right. split; [|done]. rewrite <- EG in Hall. apply Forall_app in Hall as [? Hall]. apply Forall_cons in Hall as [_ ?].
    by apply Forall_app.
Qed.

(** ** [malloc] *)

Lemma units_rest F1 b F2 n : units (F1 ++ rest n b ++ F2) + n = units (F1 ++ b :: F2).
Proof. rewrite !units_app. unfold rest. case_match eqn:E; cbn; unfold units; lia. Qed.

Lemma loop_ok h F A n fuel :
  wf h F A -> 1 <= n < 134217728 -> (4 * length F + 8 <= fuel)%nat ->
  (Forall (fun c => c.2 < n) F /\ u_limit h < u_brk h + HEADER * core n
     /\ (p <- get_ptr (u_freep h) ;; malloc_loop fuel n (u_freep h) p) h = Ret 0 h)
  \/ (exists h' F' x, (p <- get_ptr (u_freep h) ;; malloc_loop fuel n (u_freep h) p) h = Ret (x + HEADER) h'
     /\ wf h' F' ((x, n) :: A) /\ same A h h' /\ (length F' <= S (length F))%nat
     /\ HEADER * (units F' + n) - u_brk h' = HEADER * units F - u_brk h /\ u_limit h' = u_limit h).
Proof.
  intros Hwf Hn Hfuel. destruct (turn h F A n fuel Hwf) as [(F1 & b & F2 & -> & Hb & ->)|[Hall ->]]; [lia|lia| |].
  - right. destruct (carve_ok _ _ _ _ _ n Hwf) as (h' & -> & Hwf' & Hs & Hbrk & Hlim); [lia|].
    exists h', (F1 ++ rest n b ++ F2), (taken n b).1. split; [done|]. split; [exact Hwf'|]. split; [done|]. split.
    + rewrite !length_app. unfold rest. case_match; cbn; lia.
    + split; [|done]. rewrite units_rest, Hbrk. done.
  - pose proof (morecore_ok h F A n (fuel - S (length F)) Hwf Hn) as Hm. unfold regrow, bind.
    destruct (u_limit h <? _) eqn:El.
    + left. rewrite Hm by lia. split; [done|]. split; [lia|done].
    + right. destruct Hm as (h1 & F' & -> & Hwf1 & Hs1 & Hu1 & Hlen1 & Hex & Hbrk1 & Hlim1); [lia|].
      assert (u_freep h1 <> 0) as Hf.
      { destruct (wf_base _ _ _ Hwf1) as (? & _ & _). pose proof (wf_freep _ _ _ Hwf1) as Hin.
        apply elem_of_cons in Hin as [->|Hin]; [lia|]. apply list_elem_of_fmap_1 in Hin as (c & -> & Hc).
        destruct (wf_small _ _ _ c Hwf1 (or_introl Hc)) as (_ & _ & ? & _). unfold HEADER in *. lia. }
      rewrite (proj2 (Z.eqb_neq _ 0)) by done.
      change (match get_ptr (u_freep h1) h1 with Ret a s' => malloc_loop (fuel - S (length F)) n (u_freep h1) a s'
        | Panic m s' => Panic m s' | Sched s' => Sched s' | Fault s' => Fault s' | NoFuel => NoFuel end)
        with ((p <- get_ptr (u_freep h1) ;; malloc_loop (fuel - S (length F)) n (u_freep h1) p) h1).
      destruct (turn h1 F' A n (fuel - S (length F)) Hwf1) as [(F1 & b & F2 & -> & Hb & ->)|[Hall1 _]]; [lia|lia| |].
      2: { exfalso. apply Exists_exists in Hex as (c & Hc & ?). pose proof (proj1 (Forall_forall _ _) Hall1 c Hc). cbn in *. lia. }
      destruct (carve_ok _ _ _ _ _ n Hwf1) as (h' & -> & Hwf' & Hs & Hbrk & Hlim); [lia|].
      exists h', (F1 ++ rest n b ++ F2), (taken n b).1. split; [done|]. split; [exact Hwf'|]. split; [by eapply same_trans|]. split.
      * rewrite !length_app in *. unfold rest. cbn in Hlen1. case_match; cbn; lia.
      * split; [|congruence]. rewrite units_rest, Hbrk. unfold HEADER in *. lia.
Qed.

(** Before the first call there is no free list. *)
Definition fresh (h : heap) : Prop :=
  u_freep h = 0 /\ 0 < BASE /\ BASE + HEADER <= u_brk h <= u_limit h /\ u_limit h < 2147483648.

(** A heap between two calls. *)
Definition ready (h : heap) (F A : list (Z * Z)) : Prop := wf h F A \/ (fresh h /\ F = [] /\ A = []).

Lemma freep_nonzero h F A : wf h F A -> u_freep h <> 0.
Proof.
  intros Hwf. destruct (wf_base _ _ _ Hwf) as (? & _ & _). pose proof (wf_freep _ _ _ Hwf) as Hin.
  apply elem_of_cons in Hin as [->|Hin]; [lia|]. apply list_elem_of_fmap_1 in Hin as (c & -> & Hc).
  destruct (wf_small _ _ _ c Hwf (or_introl Hc)) as (_ & _ & ? & _). unfold HEADER in *. lia.
Qed.

Lemma nunits_for_spec n :
  0 <= n < 2147483600 -> 1 <= nunits_for n < 134217728 /\ n + HEADER <= HEADER * nunits_for n < n + 2 * HEADER.
Proof.
  intros Hn. unfold nunits_for, HEADER. pose proof (Z.div_mod (n + 16 - 1) 16 ltac:(lia)).
  pose proof (Z.mod_pos_bound (n + 16 - 1) 16 ltac:(lia)). rewrite u32_small; lia.
Qed.

Definition init (h : heap) : heap :=
  Heap (<[BASE := BASE]> (u_ptr h)) (<[BASE := 0]> (u_size h)) BASE (u_brk h) (u_limit h).

(** The list [malloc] makes on the first call. *)
Definition started (h : heap) : heap := if u_freep h =? 0 then init h else h.

Lemma malloc_start h F A nbytes fuel (h1 := started h) :
  ready h F A -> wf h1 F A /\ same A h h1 /\ u_brk h1 = u_brk h /\ u_limit h1 = u_limit h /\
  malloc BASE fuel nbytes h = (p <- get_ptr (u_freep h1) ;; malloc_loop fuel (nunits_for nbytes) (u_freep h1) p) h1.
Proof.
  subst h1. unfold started, malloc, bind, gets. intros [Hwf|((Hf & HB & Hbrk & Hlim) & -> & ->)].
  - rewrite (proj2 (Z.eqb_neq _ 0)) by (by eapply freep_nonzero). split; [done|].
    split; [apply Forall_forall; auto|done].
  - rewrite Hf. cbn [Z.eqb]. split; [|split; [by constructor|do 2 (split; [done|])]].
    + split; cbn; try (by constructor). split; cbn; [apply Forall_singleton|split; [|done]]; by rewrite lookup_insert_eq.
    + assert (in_heap BASE h = true) as Hin by (unfold in_heap, HEADER in *; lia). unfold in_heap in Hin.
      unfold set_freep, modify, set_ptr, set_size, in_heap. cbn [u_brk u_ptr u_size u_freep u_limit]. rewrite Hin.
      cbn [u_brk u_ptr u_size u_freep u_limit]. rewrite Hin. done.
Qed.

Lemma malloc_ok h F A nbytes fuel (n := nunits_for nbytes) :
  ready h F A -> 0 <= nbytes < 2147483600 -> (4 * length F + 8 <= fuel)%nat ->
  (Forall (fun c => c.2 < n) F /\ u_limit h < u_brk h + HEADER * core n
     /\ malloc BASE fuel nbytes h = Ret 0 (started h) /\ wf (started h) F A /\ same A h (started h))
  \/ (exists h' F' x, malloc BASE fuel nbytes h = Ret (x + HEADER) h'
     /\ wf h' F' ((x, n) :: A) /\ same A h h' /\ (length F' <= S (length F))%nat
     /\ HEADER * (units F' + n) - u_brk h' = HEADER * units F - u_brk h /\ u_limit h' = u_limit h).
Proof.
  intros Hr Hnb Hfuel. destruct (nunits_for_spec nbytes Hnb) as [Hn _].
  destruct (malloc_start h F A nbytes fuel Hr) as (Hwf & Hs & Hb & Hl & ->). fold n.
  destruct (loop_ok _ F A n fuel Hwf Hn Hfuel) as [(? & ? & ->)|(h' & F' & x & -> & ? & Hs' & ? & ? & ?)]; [left|right].
  - rewrite <- Hb, <- Hl. done.
  - exists h', F', x. rewrite <- Hb, <- Hl. do 2 (split; [done|]). split; [by eapply same_trans|done].
Qed.

(** ** Clients *)

Lemma pairwise_perm A B : A ≡ₚ B -> pairwise A -> pairwise B.
Proof.
  induction 1 as [|x A B HAB IH|x y A|]; cbn; auto.
  - intros [Hx HA]. split; [by rewrite <- HAB|auto].
  - rewrite !Forall_cons. intros ((Hyx & Hy) & Hx & HA). repeat split; auto. by apply disj_sym.
Qed.

Lemma wf_perm h F A B : A ≡ₚ B -> wf h F A -> wf h F B.
Proof.
  intros HAB Hwf. split; try apply Hwf.
  - unfold sizes. rewrite <- HAB. apply Hwf.
  - rewrite <- HAB. apply Hwf.
  - eapply pairwise_perm; [exact HAB|]. apply Hwf.
Qed.

(** What a program does with the allocator: it asks for memory, gives back memory it has, and writes into the
    memory it has. *)
Inductive op := Malloc (nbytes : Z) | Free (p : Z) | Store (p x y : Z).

(** The blocks a program has, as pointers and sizes in bytes. *)
Definition header_of (b : Z * Z) : Z * Z := (b.1 - HEADER, nunits_for b.2).

Fixpoint drop_block (p : Z) (live : list (Z * Z)) : option (list (Z * Z)) :=
  match live with
  | [] => None
  | b :: l => if b.1 =? p then Some l else l' ← drop_block p l; Some (b :: l')
  end.

Definition owns (p : Z) (live : list (Z * Z)) : bool :=
  existsb (fun b => (b.1 <=? p) && (p + HEADER <=? b.1 + b.2)) live.

Fixpoint client (fuel : nat) (ops : list op) (live : list (Z * Z)) : H (list (Z * Z)) :=
  match ops with
  | [] => ret live
  | Malloc nbytes :: ops => p <- malloc BASE fuel nbytes ;; client fuel ops (if p =? 0 then live else (p, nbytes) :: live)
  | Free p :: ops =>
      match drop_block p live with
      | Some live => free fuel p ;; client fuel ops live
      | None => client fuel ops live
      end
  | Store p x y :: ops =>
      (if owns p live then set_ptr p x ;; set_size p y else ret tt) ;; client fuel ops live
  end.

Definition op_ok (o : op) : Prop := match o with Malloc n => 0 <= n < 2147483600 | _ => True end.

Lemma drop_block_perm p live l : drop_block p live = Some l -> exists n, live ≡ₚ (p, n) :: l.
Proof.
  revert l. induction live as [|[q n] live IH]; intros l; cbn; [done|].
  destruct (q =? p) eqn:E; [intros [= <-]; apply Z.eqb_eq in E as ->; by exists n|].
  destruct (drop_block p live) as [l'|] eqn:El; cbn; [|done]. intros [= <-].
  destruct (IH l' eq_refl) as [m Hm]. exists m. rewrite Hm. by rewrite (perm_swap (p, m)).
Qed.

(** A program's own stores keep the heap well-formed. *)
Lemma store_wf h F A p x y :
  wf h F A -> Exists (fun a => a.1 < p /\ p + HEADER <= bend a) A ->
  wf (Heap (<[p := x]> (u_ptr h)) (<[p := y]> (u_size h)) (u_freep h) (u_brk h) (u_limit h)) F A.
Proof.
  intros Hwf Hp. apply Exists_exists in Hp as (a & Ha & Hp). unfold HEADER in Hp.
  pose proof (proj1 (Forall_forall _ _) (wf_live _ _ _ Hwf) a Ha) as (? & ? & ? & Hd).
  assert (p ∉ BASE :: map fst F) as Hnode.
  { intros Hin. pose proof (node_outside _ _ _ _ Hwf Hin) as Ho. pose proof (proj1 (Forall_forall _ _) Ho a Ha). cbn in *. lia. }
  assert (p ∉ map fst A) as HA.
  { intros Hin. apply list_elem_of_fmap_1 in Hin as (b & -> & Hb). destruct (decide (b = a)) as [->|Hne]; [lia|].
    apply list_elem_of_split in Hb as (l1 & l2 & ->).
    pose proof (wf_perm h F _ _ (Permutation_sym (Permutation_middle l1 l2 b)) Hwf) as Hwf'.
    pose proof (header_outside _ _ _ _ Hwf') as Ho. assert (a ∈ l1 ++ l2) as Hin by set_solver.
    pose proof (proj1 (Forall_forall _ _) Ho a Hin). cbn in *. lia. }
  destruct (wf_linked _ _ _ Hwf) as [Hs Hq]. split; cbn; try apply Hwf.
  - split; cbn; [by apply sizes_insert|]. apply path_insert; [|done]. by rewrite app_comm_cons, removelast_last.
  - apply sizes_insert; [done|]. apply Hwf.
Qed.

Lemma owns_inside p live :
  Forall (fun b => 0 <= b.2 < 2147483600) live -> owns p live = true -> Exists (fun a => a.1 < p /\ p + HEADER <= bend a) (map header_of live).
Proof.
  intros Hl Hp. apply existsb_exists in Hp as (b & Hb & Hp). apply list_elem_of_In in Hb.
  apply Exists_exists. exists (header_of b). split; [by apply list_elem_of_fmap_2|].
  destruct (nunits_for_spec b.2) as [_ Hn]; [by apply (proj1 (Forall_forall _ _) Hl)|].
  unfold header_of, bend, HEADER in *. cbn. lia.
Qed.

Lemma client_ok fuel ops : forall h F live,
  ready h F (map header_of live) -> Forall (fun b => 0 <= b.2 < 2147483600) live -> Forall op_ok ops ->
  (4 * (length F + length ops) + 8 <= fuel)%nat ->
  runs (client fuel ops live) h (fun live' h' =>
    (exists F', ready h' F' (map header_of live')) /\ Forall (fun b => 0 <= b.2 < 2147483600) live').
Proof.
  induction ops as [|o ops IH]; intros h F live Hr Hl Hops Hfuel; [apply runs_ret; split; [by exists F|done]|].
  apply Forall_cons in Hops as [Ho Hops]. cbn [length] in Hfuel. destruct o as [nbytes|p|p x y]; cbn [client].
  - destruct (malloc_ok h F _ nbytes fuel Hr Ho) as [(_ & _ & Hrun & Hwf & _)|(h' & F' & x & Hrun & Hwf & _ & Hlen & _)];
      [lia|eapply runs_eq; [exact Hrun|]..].
    + apply (IH _ F); try done; [by left|lia].
    + destruct (wf_small _ _ _ (x, nunits_for nbytes) Hwf) as (_ & _ & Hx & _); [right; left|].
      destruct (wf_base _ _ _ Hwf) as (? & _ & _). unfold HEADER in *. cbn in Hx.
      rewrite (proj2 (Z.eqb_neq _ 0)) by lia. apply (IH _ F'); try done; [left|by constructor|lia].
      cbn. unfold header_of at 1, HEADER. cbn. by rewrite Z.add_simpl_r.
  - destruct (drop_block p live) as [l|] eqn:E; [|apply (IH _ F); [done..|lia]].
    destruct (drop_block_perm _ _ _ E) as [n Hp]. rewrite Hp in Hl. apply Forall_cons in Hl as [Hn Hl].
    destruct Hr as [Hwf|(_ & _ & Hnil)]; [|apply map_eq_nil in Hnil; by subst live].
    apply (wf_perm _ _ _ (header_of (p, n) :: map header_of l)) in Hwf; [|by rewrite Hp].
    destruct (free_ok h F _ _ fuel Hwf) as (h' & F' & Hrun & Hwf' & _ & _ & Hlen & _); [lia|].
    unfold header_of in Hrun. cbn in Hrun. rewrite Z.sub_add in Hrun. eapply runs_eq; [exact Hrun|].
    apply (IH _ F'); try done; [by left|lia].
  - destruct (owns p live) eqn:E; [|apply runs_bind, runs_ret, (IH _ F); [done..|lia]].
    pose proof (owns_inside _ _ Hl E) as Hex.
    destruct Hr as [Hwf|(_ & _ & Hnil)]; [|apply map_eq_nil in Hnil; by subst live].
    pose proof (store_wf _ _ _ p x y Hwf Hex) as Hwf'.
    assert (in_heap p h = true) as Hin.
    { apply Exists_exists in Hex as (a & Ha & Hp). destruct (wf_small _ _ _ a Hwf (or_intror Ha)) as (_ & _ & ? & _ & ?).
      destruct (wf_base _ _ _ Hwf) as (? & _ & _). unfold in_heap, HEADER in *. lia. }
    eapply runs_eq; [|apply (IH _ F); [left; exact Hwf'|done..|lia]].
    unfold bind, set_ptr, set_size, in_heap in *. rewrite Hin. cbn [u_brk]. by rewrite Hin.
Qed.
End props.

Lemma pairwise_lookup A i j a b :
  pairwise A -> A !! i = Some a -> A !! j = Some b -> i <> j -> disj a b.
Proof.
  revert i j. induction A as [|c A IH]; intros i j; [done|]. intros [Hc HA] Hi Hj Hij.
  destruct i as [|i], j as [|j]; cbn in Hi, Hj; [done|..].
  - injection Hi as ->. eapply Forall_lookup_1; eauto.
  - injection Hj as ->. apply disj_sym. eapply Forall_lookup_1; eauto.
  - eapply IH; eauto.
Qed.



(** C6. [malloc] of fewer than 2^31 - 48 bytes on a heap between two calls. ([malloc_huge] shows what happens above.)
    Either it returns 0, no free block is large enough, the kernel would not let the process grow by what is needed, and
    the heap is as before; or it returns the address after the header of a block of the size asked for, rounded up to
    headers with one for itself, that the client did not have: the heap with this block added to the client's is
    well-formed, so it overlaps neither a live block nor a free one, what is stored in the live blocks is untouched, and
    the units of the free list, of the new block and of the growth of the process balance. *)
Theorem malloc_cases BASE h F A nbytes fuel (n := nunits_for nbytes) :
  ready BASE h F A -> 0 <= nbytes < 2147483600 -> (4 * length F + 8 <= fuel)%nat ->
  n = (nbytes + 2 * HEADER - 1) / HEADER /\
  ((Forall (fun c => c.2 < n) F /\ u_limit h < u_brk h + HEADER * core n
     /\ malloc BASE fuel nbytes h = Ret 0 (started BASE h) /\ wf BASE (started BASE h) F A /\ same A h (started BASE h))
  \/ (exists h' F' x, malloc BASE fuel nbytes h = Ret (x + HEADER) h'
     /\ wf BASE h' F' ((x, n) :: A) /\ same A h h'
     /\ HEADER * (units F' + n) - u_brk h' = HEADER * units F - u_brk h /\ u_limit h' = u_limit h)).
Proof.
  intros Hr Hnb Hfuel. split.
  - subst n. unfold nunits_for, HEADER. replace (nbytes + 2 * 16 - 1) with (nbytes + 16 - 1 + 1 * 16) by lia.
    rewrite Z.div_add by lia. apply u32_small. pose proof (Z.div_pos (nbytes + 16 - 1) 16).
    pose proof (Z.div_le_upper_bound (nbytes + 16 - 1) 16 134217728). lia.
  - destruct (malloc_ok BASE h F A nbytes fuel Hr Hnb Hfuel) as [?|(h' & F' & x & ? & ? & ? & _ & ? & ?)]; [by left|right].
    by exists h', F', x.
Qed.

Lemma malloc_cases_witness :
  malloc 4096 40 100 (Heap ∅ ∅ 0 12288 1000000) <> NoFuel /\
  (nunits_for 100 = (100 + 2 * HEADER - 1) / HEADER /\
  ((Forall (fun c : Z * Z => c.2 < nunits_for 100) [] /\ 1000000 < 12288 + HEADER * core (nunits_for 100)
     /\ malloc 4096 40 100 (Heap ∅ ∅ 0 12288 1000000) = Ret 0 (started 4096 (Heap ∅ ∅ 0 12288 1000000))
     /\ wf 4096 (started 4096 (Heap ∅ ∅ 0 12288 1000000)) [] []
     /\ same [] (Heap ∅ ∅ 0 12288 1000000) (started 4096 (Heap ∅ ∅ 0 12288 1000000)))
  \/ (exists h' F' x, malloc 4096 40 100 (Heap ∅ ∅ 0 12288 1000000) = Ret (x + HEADER) h'
     /\ wf 4096 h' F' [(x, nunits_for 100)] /\ same [] (Heap ∅ ∅ 0 12288 1000000) h'
     /\ HEADER * (units F' + nunits_for 100) - u_brk h' = HEADER * units [] - 12288 /\ u_limit h' = 1000000))).
Proof.
  split; [vm_compute; discriminate|].
  apply (malloc_cases 4096 (Heap ∅ ∅ 0 12288 1000000) [] [] 100 40).
  - right. unfold fresh, HEADER. cbn. repeat split; lia.
  - lia.
  - cbn. lia.
Defined.
