(* ===== verification/Mkfs.v ===== *)
(** * The file-system builder (tools/mkfs.c)

    mkfs writes an image file by sectors; the image is a map from sectors to their 512 bytes. It runs
    on a little-endian host, where [xint] and [xshort] change nothing. A failed [assert] or system call ends the run. *)

From Stdlib Require Import Ascii String.
From S2P Require Import Prelude Types Monad KString Print Fs FsDir.

Definition nblocks : Z := 985.
Definition nlog : Z := LOGSIZE.
Definition ninodes : Z := 200.
Definition fs_size : Z := 1024.

(** The image and the globals [freeblock], [usedblocks], [bitblocks], [freeinode]. *)
Record image := Image {
  g_sect : gmap Z (list Z);
  g_freeblock : Z;
  g_usedblocks : Z;
  g_bitblocks : Z;
  g_freeinode : Z
}.

Definition gset_sect (x : gmap Z (list Z)) (g : image) : image :=
  Image x (g_freeblock g) (g_usedblocks g) (g_bitblocks g) (g_freeinode g).

Definition I (A : Type) : Type := M image A.

(** [assert]. *)
Definition check (b : bool) : I unit := if b then ret tt else panic "assertion failed".

(** [xshort] and [xint]: the bytes of a number, least significant first, read as a number. *)
Definition xshort (x : Z) : Z := get16 (le16 x) 0.
Definition xint (x : Z) : Z := get32 (le32 x) 0.

Definition wsect (sec : Z) (buf : list Z) : I unit := modify (fun g => gset_sect (<[sec := buf]> (g_sect g)) g).

(** Reading a sector past the end of the image fails. *)
Definition rsect (sec : Z) : I (list Z) := fun g =>
  match g_sect g !! sec with Some buf => Ret buf g | None => Panic "read" g end.

Definition i2b (inum : Z) : Z := inum / IPB + 2.

Definition winode (inum : Z) (d : dinode) : I unit :=
  buf <- rsect (i2b inum) ;;
  wsect (i2b inum) (put_dinode buf (Z.to_nat (inum mod IPB) * 64) d).

Definition rinode (inum : Z) : I dinode :=
  buf <- rsect (i2b inum) ;;
  ret (get_dinode buf (Z.to_nat (inum mod IPB) * 64)).

Definition ialloc (type : Z) : I Z :=
  inum <- gets g_freeinode ;;
  modify (fun g => Image (g_sect g) (g_freeblock g) (g_usedblocks g) (g_bitblocks g) (u32 (g_freeinode g + 1))) ;;
  winode inum (Dinode (xshort type) 0 0 (xshort 1) (xint 0) (replicate 13 0)) ;;
  ret inum.

(** [for(i = 0; i < used; i++) buf[i/8] |= 1 << (i%8)]. *)
Definition used_bits (used : nat) : list Z :=
  foldl (fun buf i => <[(i / 8)%nat := Z.lor (byte_at buf (i / 8)) (Z.shiftl 1 (Z.of_nat (i mod 8)))]> buf)
    (replicate 512 0) (seq 0 used).

Definition balloc (used : Z) : I unit :=
  check (used <? 512 * 8) ;;
  wsect (ninodes / IPB + 3) (used_bits (Z.to_nat used)).

(** [freeblock++] and [usedblocks++]. *)
Definition take_block : I Z :=
  b <- gets g_freeblock ;;
  modify (fun g => Image (g_sect g) (u32 (b + 1)) (u32 (g_usedblocks g + 1)) (g_bitblocks g) (g_freeinode g)) ;;
  ret b.

(** The block of the file that holds block number [fbn], allocated if need be; the inode after that. *)
Definition iblock_of (din : dinode) (fbn : Z) : I (Z * dinode) :=
  if fbn <? NDIRECT then
    let n := Z.to_nat fbn in
    if xint (nth n (di_addrs din) 0) =? 0 then
      b <- take_block ;;
      let din := Dinode (di_type din) (di_major din) (di_minor din) (di_nlink din) (di_size din) (<[n := xint b]> (di_addrs din)) in
      ret (xint (nth n (di_addrs din) 0), din)
    else ret (xint (nth n (di_addrs din) 0), din)
  else
    let n := Z.to_nat NDIRECT in
    din <- (if xint (nth n (di_addrs din) 0) =? 0 then
              b <- take_block ;;
              ret (Dinode (di_type din) (di_major din) (di_minor din) (di_nlink din) (di_size din) (<[n := xint b]> (di_addrs din)))
            else ret din) ;;
    let ind := xint (nth n (di_addrs din) 0) in
    indirect <- rsect ind ;;
    let k := (4 * Z.to_nat (fbn - NDIRECT))%nat in
    indirect <- (if get32 indirect k =? 0 then
                   b <- take_block ;;
                   let indirect := put32 indirect k (xint b) in
                   wsect ind indirect ;;
                   ret indirect
                 else ret indirect) ;;
    ret (xint (get32 indirect k), din).

(** The loop of [iappend] over the bytes [p] that are left. *)
Fixpoint iappend_loop (fuel : nat) (din : dinode) (off : Z) (p : list Z) : I (dinode * Z) :=
  match fuel with
  | O => nofuel
  | S fuel =>
      if (length p =? 0)%nat then ret (din, off) else
      let fbn := off / 512 in
      check (fbn <? MAXFILE) ;;
      let* (x, din) := iblock_of din fbn in
      let n1 := Z.to_nat (Z.min (Z.of_nat (length p)) ((fbn + 1) * 512 - off)) in
      buf <- rsect x ;;
      wsect x (splice buf (Z.to_nat (off - fbn * 512)) (take n1 p)) ;;
      iappend_loop fuel din (u32 (off + Z.of_nat n1)) (drop n1 p)
  end.

(** Every turn takes a byte or more. *)
Definition iappend (inum : Z) (p : list Z) : I unit :=
  din <- rinode inum ;;
  let off := xint (di_size din) in
  let* (din, off) := iappend_loop (S (length p)) din off p in
  winode inum (Dinode (di_type din) (di_major din) (di_minor din) (di_nlink din) (xint off) (di_addrs din)).

(** A directory entry, its name cut or padded to fourteen bytes. *)
Definition dirent (inum : Z) (name : list Z) : option (list Z) :=
  n ← strncpy (replicate DIRSIZ 0) (name ++ [0]) DIRSIZ; Some (le16 (xshort inum) ++ n).

Definition add_entry (dir inum : Z) (name : list Z) : I unit :=
  match dirent inum name with Some de => iappend dir de | None => fault end.

(** [read(fd, buf, 512)] until the end of the file. *)
Fixpoint chunks (fuel : nat) (data : list Z) : list (list Z) :=
  match fuel with
  | O => []
  | S fuel => match data with [] => [] | _ => take 512 data :: chunks fuel (drop 512 data) end
  end.

(** [strncmp(name, "fs/", 3)]. *)
Definition strip_fs (name : list Z) : list Z :=
  if bool_decide (take 3 name = bytes_of "fs/") then drop 3 name else name.

(** One file named on the command line. *)
Definition add_file (rootino : Z) (f : list Z * list Z) : I unit :=
  let '(path, data) := f in
  let name := strip_fs path in
  check (negb (existsb (Z.eqb 47) name)) ;;
  inum <- ialloc 2 ;;
  add_entry rootino inum name ;;
  foreach (iappend inum) (chunks (S (length data)) data).

(** The whole program, on the paths and contents of the files it is given. *)
Definition mkfs (files : list (list Z * list Z)) : I unit :=
  let bitblocks := fs_size / (512 * 8) + 1 in
  let usedblocks := ninodes / IPB + 3 + bitblocks in
  modify (fun g => Image (g_sect g) usedblocks usedblocks bitblocks 1) ;;
  check (nblocks + usedblocks + nlog =? fs_size) ;;
  foreach (fun i => wsect (Z.of_nat i) (replicate 512 0)) (seq 0 (Z.to_nat (nblocks + usedblocks + nlog))) ;;
  wsect 1 (splice (replicate 512 0) 0 (le32 (xint fs_size) ++ le32 (xint nblocks) ++ le32 (xint ninodes) ++ le32 (xint nlog))) ;;
  rootino <- ialloc T_DIR ;;
  check (rootino =? ROOTINO) ;;
  add_entry rootino rootino [46] ;;
  add_entry rootino rootino [46; 46] ;;
  foreach (add_file rootino) files ;;
  din <- rinode rootino ;;
  let off := xint (di_size din) in
  let off := (off / BSIZE + 1) * BSIZE in
  winode rootino (Dinode (di_type din) (di_major din) (di_minor din) (di_nlink din) (xint off) (di_addrs din)) ;;
  used <- gets g_usedblocks ;;
  balloc used.

(** An image file before the run. *)
Definition empty_image : image := Image ∅ 0 0 0 1.

(** What the inode of the root directory says after the run. *)
Definition root_after (files : list (list Z * list Z)) : option (Z * list Z) :=
  match mkfs files empty_image with
  | Ret _ g => buf ← g_sect g !! i2b ROOTINO; let d := get_dinode buf (Z.to_nat (ROOTINO mod IPB) * 64) in Some (di_size d, di_addrs d)
  | _ => None
  end.

(** With one file the directory's size is rounded up to its one block. With thirty the entries fill the block, the size is
    rounded up to a second one, and there is none: block 1 of the directory is not mapped. *)
Lemma mkfs_root_one : root_after [(bytes_of "fs/cat", [1; 2; 3])] = Some (512, 29 :: replicate 12 0).
Proof. vm_compute. reflexivity. Qed.

Lemma mkfs_root_hole : root_after (map (fun i => ([97 + Z.of_nat i], [])) (seq 0 30)) = Some (1024, 29 :: replicate 12 0).
Proof. vm_compute. reflexivity. Qed.
