(* ===== verification/MkfsImage.v ===== *)
(** * The blocks of the files mkfs writes (tools/mkfs.c)

    [afile] is a file as mkfs lays it out: its bytes, the blocks that hold them in order, and the indirect block.
    [img g fs] says that the image [g] holds the files [fs], on blocks of their own, with nothing but zeroes from
    [freeblock] on. [iappend_loop] keeps it ([iappend_loop_ok]). *)

From S2P Require Import Prelude Types Monad Bio BioSpec Log LogSpec TxSpec KString Print Fs FsDir FsBlocks FsInode.
From S2P Require Import FsInodeOps FsFile FsFileOps Mkfs.

Definition view (g : image) (sec : Z) : list Z := default zero_block (g_sect g !! sec).

Record afile := AFile { a_data : list Z; a_bl : list Z; a_ib : Z }.

Definition blocks (f : afile) : list Z := (if a_ib f =? 0 then [] else [a_ib f]) ++ a_bl f.
Definition addrs (f : afile) : list Z := take 12 (a_bl f ++ replicate 12 0) ++ [a_ib f].

Definition pad (l : list Z) : list Z := l ++ replicate (512 - length l) 0.
Definition chunk (k : nat) (data : list Z) : list Z := take 512 (drop (512 * k) data).

Record arep (V : Z -> list Z) (f : afile) : Prop := {
  ar_max : (length (a_data f) <= 140 * 512)%nat;
  ar_cap : (length (a_data f) <= 512 * length (a_bl f))%nat;
  ar_chunk : forall k b, a_bl f !! k = Some b -> V b = pad (chunk k (a_data f));
  ar_ind : if (length (a_bl f) <=? 12)%nat then a_ib f = 0
           else a_ib f <> 0 /\ length (V (a_ib f)) = 512%nat
                /\ forall k, (k < 128)%nat -> get32 (V (a_ib f)) (4 * k) = default 0 (a_bl f !! (12 + k)%nat)
}.

(** No block more than the bytes need. *)
Definition sized (f : afile) : Prop := length (a_bl f) = ((length (a_data f) + 511) / 512)%nat.

Definition all_blocks (fs : list afile) : list Z := concat (map blocks fs).

Record img (g : image) (fs : list afile) : Prop := {
  im_full : forall sec, 0 <= sec < 1024 -> exists buf, g_sect g !! sec = Some buf /\ length buf = 512%nat;
  im_used : g_usedblocks g = g_freeblock g;
  im_free : g_freeblock g = 29 + Z.of_nat (length (all_blocks fs));
  im_zero : forall sec, g_freeblock g <= sec < 1024 -> view g sec = zero_block;
  im_rep : Forall (arep (view g)) fs;
  im_range : Forall (fun b => 29 <= b < g_freeblock g) (all_blocks fs);
  im_nodup : NoDup (all_blocks fs)
}.

(** ** Sectors *)

Lemma xint_small x : 0 <= x < 4294967296 -> xint x = x.
Proof.
  intros Hx. unfold xint. change (le32 x) with (splice (replicate 4 0) 0 (le32 x)).
  change (get32 (put32 (replicate 4 0) 0 x) 0 = x). rewrite get32_put32_same by (cbn; lia). by apply u32_small.
Qed.

Lemma rsect_eq g fs sec : img g fs -> 0 <= sec < 1024 -> rsect sec g = Ret (view g sec) g /\ length (view g sec) = 512%nat.
Proof.
  intros Hi Hs. destruct (im_full _ _ Hi sec Hs) as (buf & Hb & Hl). unfold rsect, view. by rewrite Hb.
Qed.

Lemma view_wsect g sec buf x : view (gset_sect (<[sec := buf]> (g_sect g)) g) x = upd (view g) sec buf x.
Proof.
  unfold view, upd. cbn. destruct (decide (x = sec)) as [->|Hne].
  - rewrite lookup_insert_eq. done.
  - rewrite lookup_insert_ne by done. done.
Qed.

Lemma arep_ext V V' f : (forall b, b ∈ blocks f -> V' b = V b) -> arep V f -> arep V' f.
Proof.
  intros HV [H1 H2 H3 H4]. unfold blocks in HV. split; try done.
  - intros k b Hb. rewrite HV; [by apply H3|]. apply elem_of_app. right. by eapply list_elem_of_lookup_2.
  - destruct (length (a_bl f) <=? 12)%nat; [done|]. destruct H4 as (Hne & Hl & Hg).
    rewrite HV; [done|]. apply elem_of_app. left. rewrite (proj2 (Z.eqb_neq _ _)) by done. left.
Qed.

(** ** Replacing one file of the list *)

Lemma all_blocks_split fs j f :
  fs !! j = Some f -> exists l1 l2, all_blocks fs = l1 ++ blocks f ++ l2
    /\ (forall f', all_blocks (<[j := f']> fs) = l1 ++ blocks f' ++ l2)
    /\ (forall h, h ∈ l1 ++ l2 -> h ∈ all_blocks fs).
Proof.
  intros Hj. exists (all_blocks (take j fs)), (all_blocks (drop (S j) fs)).
  assert (forall l1 (l2 : list afile), all_blocks (l1 ++ l2) = all_blocks l1 ++ all_blocks l2) as Happ.
  { intros l1 l2. unfold all_blocks. by rewrite map_app, concat_app. }
  assert (all_blocks fs = all_blocks (take j fs) ++ blocks f ++ all_blocks (drop (S j) fs)) as E.
  { rewrite <- (take_drop_middle fs j f) at 1 by done. by rewrite Happ. }
  split; [done|]. split.
  - intros f'. rewrite insert_take_drop by by eapply lookup_lt_Some. by rewrite Happ.
  - intros h. rewrite E, !elem_of_app. tauto.
Qed.

Lemma in_all_blocks fs k h b : fs !! k = Some h -> b ∈ blocks h -> b ∈ all_blocks fs.
Proof.
  intros Hk Hb. destruct (all_blocks_split fs k h Hk) as (l1 & l2 & -> & _). rewrite !elem_of_app. tauto.
Qed.

Lemma all_blocks_disjoint fs i k f h b :
  NoDup (all_blocks fs) -> fs !! i = Some f -> fs !! k = Some h -> i <> k -> b ∈ blocks f -> b ∈ blocks h -> False.
Proof.
  revert i k. induction fs as [|x fs IH]; intros i k Hnd Hi Hk Hne Hf Hh; [done|].
  unfold all_blocks in Hnd. cbn in Hnd. fold (all_blocks fs) in Hnd. apply NoDup_app in Hnd as (_ & Hd & Hnd).
  destruct i as [|i], k as [|k]; cbn in Hi, Hk; [done|..].
  - injection Hi as ->. apply (Hd b Hf). by eapply in_all_blocks.
  - injection Hk as ->. apply (Hd b Hh). by eapply in_all_blocks.
  - eapply (IH i k); eauto.
Qed.

Lemma nodup_blocks g fs j f : img g fs -> fs !! j = Some f -> NoDup (blocks f).
Proof.
  intros Hi Hj. pose proof (im_nodup _ _ Hi) as Hnd. destruct (all_blocks_split fs j f Hj) as (l1 & l2 & E & _).
  rewrite E in Hnd. apply NoDup_app in Hnd as (_ & _ & Hnd). by apply NoDup_app in Hnd as (Hnd & _).
Qed.

Lemma img_update g g' fs j f f' news :
  img g fs -> fs !! j = Some f -> blocks f' ≡ₚ news ++ blocks f -> NoDup news ->
  (forall b, b ∈ news -> g_freeblock g <= b < g_freeblock g') ->
  g_freeblock g' = g_freeblock g + Z.of_nat (length news) -> g_usedblocks g' = g_freeblock g' ->
  (forall sec, 0 <= sec < 1024 -> exists buf, g_sect g' !! sec = Some buf /\ length buf = 512%nat) ->
  (forall sec, sec ∉ blocks f' -> view g' sec = view g sec) -> arep (view g') f' ->
  img g' (<[j := f']> fs).
Proof.
  intros Hi Hj Hp Hnd Hnew Hfb Hu Hfull HV Hrep.
  destruct (all_blocks_split fs j f Hj) as (l1 & l2 & E & E' & Hin).
  pose proof (im_range _ _ Hi) as Hr. rewrite Forall_forall in Hr. pose proof (im_nodup _ _ Hi) as Hn.
  assert (all_blocks (<[j := f']> fs) ≡ₚ news ++ all_blocks fs) as Hperm.
  { rewrite E', E, Hp. rewrite !(Permutation_app_comm l1), <- !app_assoc. done. }
  assert (forall b, b ∈ blocks f' -> b ∈ news \/ b ∈ blocks f) as Hb'.
  { intros b. rewrite Hp, elem_of_app. done. }
  split; [done|done| | | | |].
  - rewrite Hperm, length_app, Hfb, (im_free _ _ Hi). lia.
  - intros sec Hs. rewrite HV; [apply Hi; lia|]. intros Hb. destruct (Hb' _ Hb) as [Hb1|Hb1].
    + specialize (Hnew _ Hb1). lia.
    + assert (sec ∈ all_blocks fs) as Hb2 by (rewrite E, !elem_of_app; tauto). specialize (Hr _ Hb2). cbn in Hr. lia.
  - apply Forall_lookup. intros k h Hk. destruct (decide (k = j)) as [->|Hne].
    + rewrite list_lookup_insert_eq in Hk by by eapply lookup_lt_Some. by injection Hk as <-.
    + rewrite list_lookup_insert_ne in Hk by done. pose proof (Forall_lookup_1 _ _ _ _ (im_rep _ _ Hi) Hk) as Hh.
      eapply arep_ext; [|exact Hh]. intros b Hb. apply HV. intros Hbf.
      destruct (Hb' _ Hbf) as [Hb1|Hb1]; [|by eapply (all_blocks_disjoint fs k j)].
      specialize (Hnew _ Hb1). specialize (Hr b (in_all_blocks _ _ _ _ Hk Hb)). cbn in Hr. lia.
  - rewrite Hperm. apply Forall_app. split; apply Forall_forall; intros b Hb.
    + specialize (Hnew _ Hb). pose proof (im_free _ _ Hi). lia.
    + specialize (Hr _ Hb). cbn in Hr. lia.
  - rewrite Hperm. apply NoDup_app. split; [done|]. split; [|done]. intros b Hb1 Hb2.
    specialize (Hnew _ Hb1). specialize (Hr _ Hb2). cbn in Hr. lia.
Qed.

(** ** [iblock_of]: the block for the next byte *)

Definition mk (d : dinode) (f : afile) : dinode :=
  Dinode (di_type d) (di_major d) (di_minor d) (di_nlink d) (di_size d) (addrs f).

Lemma length_addrs f : length (addrs f) = 13%nat.
Proof. unfold addrs. rewrite length_app, length_take, length_app, length_replicate. cbn [length]. lia. Qed.

Lemma lookup_addrs f n : (n < 12)%nat -> addrs f !! n = Some (default 0 (a_bl f !! n)).
Proof.
  intros Hn. unfold addrs. rewrite lookup_app_l by (rewrite length_take, length_app, length_replicate; lia).
  rewrite lookup_take_lt by done. destruct (a_bl f !! n) as [b|] eqn:E.
  - by rewrite (lookup_app_l_Some _ _ _ _ E).
  - apply lookup_ge_None in E. rewrite lookup_app_r by done. rewrite lookup_replicate_2 by lia. done.
Qed.

Lemma lookup_addrs_ib f : addrs f !! 12%nat = Some (a_ib f).
Proof. unfold addrs. rewrite lookup_app_r; rewrite length_take, length_app, length_replicate, Nat.min_l by lia; done. Qed.

Lemma nth_addrs f n : (n < 12)%nat -> nth n (addrs f) 0 = default 0 (a_bl f !! n).
Proof. intros Hn. apply nth_lookup_Some. by apply lookup_addrs. Qed.
Lemma nth_addrs_ib f : nth 12 (addrs f) 0 = a_ib f.
Proof. apply nth_lookup_Some, lookup_addrs_ib. Qed.

Lemma addrs_snoc f b : (length (a_bl f) < 12)%nat ->
  <[length (a_bl f) := b]> (addrs f) = addrs (AFile (a_data f) (a_bl f ++ [b]) (a_ib f)).
Proof.
  intros Hl. apply list_eq. intros n. destruct (decide (n < 13)%nat) as [Hn|Hn].
  2: { rewrite !lookup_ge_None_2; [done|rewrite length_addrs; lia|rewrite length_insert, length_addrs; lia]. }
  destruct (decide (n = 12)%nat) as [->|Hne].
  { rewrite list_lookup_insert_ne by lia. by rewrite !lookup_addrs_ib. }
  destruct (decide (n = length (a_bl f))) as [->|Hnl].
  - rewrite list_lookup_insert_eq by (rewrite length_addrs; lia). rewrite lookup_addrs by done. cbn.
    by rewrite lookup_app_r, Nat.sub_diag by lia.
  - rewrite list_lookup_insert_ne by done. rewrite !lookup_addrs by lia. cbn. do 2 f_equal.
    destruct (decide (n < length (a_bl f))%nat); [by rewrite lookup_app_l|].
    rewrite !lookup_ge_None_2; [done|rewrite length_app; cbn; lia|lia].
Qed.

Lemma addrs_ib f b : <[12%nat := b]> (addrs f) = addrs (AFile (a_data f) (a_bl f) b).
Proof.
  unfold addrs. cbn [a_bl a_ib]. assert (length (take 12 (a_bl f ++ replicate 12 0)) = 12%nat) as Hl.
  { rewrite length_take, length_app, length_replicate. lia. }
  rewrite insert_app_r_alt by lia. by rewrite Hl.
Qed.

(** A block past the twelfth does not show in the inode. *)
Lemma addrs_far f b : (12 <= length (a_bl f))%nat -> addrs (AFile (a_data f) (a_bl f ++ [b]) (a_ib f)) = addrs f.
Proof. intros Hl. unfold addrs. cbn. rewrite <- app_assoc, !take_app_le by lia. done. Qed.

Lemma take_block_eq g fs :
  img g fs -> g_freeblock g < 1024 ->
  take_block g = Ret (g_freeblock g) (Image (g_sect g) (g_freeblock g + 1) (g_usedblocks g + 1) (g_bitblocks g) (g_freeinode g)).
Proof.
  intros Hi Hfb. unfold take_block, bind, gets, modify. pose proof (im_free _ _ Hi). rewrite (im_used _ _ Hi), u32_small by lia. done.
Qed.

(** The metadata blocks and the counters [iappend] does not touch. *)
Definition same_low (g g' : image) : Prop :=
  (g_bitblocks g' = g_bitblocks g /\ g_freeinode g' = g_freeinode g) /\ forall sec, sec < 29 -> view g' sec = view g sec.

#[global] Instance same_low_preorder : PreOrder same_low.
Proof. split; [done|]. intros g1 g2 g3 [[? ?] Hv1] [[? ?] Hv2]. split; [split; congruence|]. intros sec Hs. rewrite Hv2; auto. Qed.

Section iblock.
Context (g : image) (fs : list afile) (j : nat) (f : afile) (d : dinode).
Context (Hi : img g fs) (Hj : fs !! j = Some f).

Lemma file_rep : arep (view g) f.
Proof. by apply (Forall_lookup_1 _ _ _ _ (im_rep _ _ Hi) Hj). Qed.

Lemma file_block b : b ∈ blocks f -> 29 <= b < g_freeblock g.
Proof.
  intros Hb. by apply (proj1 (Forall_forall _ _) (im_range _ _ Hi)), (in_all_blocks _ _ _ _ Hj).
Qed.

Lemma bl_block k b : a_bl f !! k = Some b -> 29 <= b < g_freeblock g.
Proof. intros Hb. apply file_block. unfold blocks. apply elem_of_app. right. by eapply list_elem_of_lookup_2. Qed.

Lemma ib_block : a_ib f <> 0 -> 29 <= a_ib f < g_freeblock g.
Proof. intros Hb. apply file_block. unfold blocks. rewrite (proj2 (Z.eqb_neq _ _)) by done. left. Qed.

Lemma iblock_old k b :
  a_bl f !! k = Some b -> (k < 140)%nat -> g_freeblock g <= 1024 -> iblock_of (mk d f) (Z.of_nat k) g = Ret (b, mk d f) g.
Proof.
  intros Hb Hk Hfb. pose proof (bl_block _ _ Hb). unfold iblock_of, NDIRECT. cbn [mk di_addrs].
  destruct (Z.ltb_spec (Z.of_nat k) 12).
  - rewrite Nat2Z.id, nth_addrs, Hb by lia. cbn [default from_option id]. rewrite xint_small by lia.
    by rewrite (proj2 (Z.eqb_neq _ _)) by lia.
  - change (Z.to_nat 12) with 12%nat. rewrite nth_addrs_ib. pose proof file_rep as Hrep. pose proof (ar_ind _ _ Hrep) as Hind.
    apply lookup_lt_Some in Hb as Hlt. rewrite (proj2 (Nat.leb_gt _ _)) in Hind by lia. destruct Hind as (Hib & _ & Hg).
    pose proof (ib_block Hib). unfold bind, ret. rewrite xint_small, (proj2 (Z.eqb_neq _ _)) by lia.
    cbn [mk di_addrs]. rewrite ?nth_addrs_ib, xint_small by lia. destruct (rsect_eq g fs (a_ib f) Hi) as [-> _]; [lia|].
    replace (4 * Z.to_nat (Z.of_nat k - 12))%nat with (4 * (k - 12))%nat by lia.
    assert (get32 (view g (a_ib f)) (4 * (k - 12)) = b) as Hgk.
    { rewrite Hg by lia. replace (12 + (k - 12))%nat with k by lia. by rewrite Hb. }
    rewrite Hgk, (proj2 (Z.eqb_neq _ _)) by lia. by rewrite Hgk, xint_small by lia.
Qed.

(** A new block at the end of the file. *)
Definition plus_block (b ib : Z) : afile := AFile (a_data f) (a_bl f ++ [b]) ib.

Context (Hlen : length (a_data f) = (512 * length (a_bl f))%nat) (Hmax : (length (a_bl f) < 140)%nat).
Context (Hroom : g_freeblock g + 2 <= 1024).

(** The new block is empty and still zero. *)
Lemma chunk_end : chunk (length (a_bl f)) (a_data f) = [].
Proof. unfold chunk. rewrite drop_ge by lia. done. Qed.

Lemma plus_chunks V b :
  (forall k b, a_bl f !! k = Some b -> V b = view g b) -> V b = zero_block ->
  forall k c, (a_bl f ++ [b]) !! k = Some c -> V c = pad (chunk k (a_data f)).
Proof.
  intros HV Hb k c. destruct (decide (k < length (a_bl f))%nat) as [Hk|Hk].
  - rewrite lookup_app_l by done. intros Hc. rewrite (HV _ _ Hc). by apply (ar_chunk _ _ file_rep).
  - rewrite lookup_app_r by lia. intros Hc. apply list_lookup_singleton_Some in Hc as [Hk0 <-].
    replace k with (length (a_bl f)) by lia. by rewrite chunk_end, Hb.
Qed.

Definition taken (n : Z) : image :=
  Image (g_sect g) (g_freeblock g + n) (g_freeblock g + n) (g_bitblocks g) (g_freeinode g).

Lemma iblock_direct (b := g_freeblock g) :
  (length (a_bl f) < 12)%nat ->
  iblock_of (mk d f) (Z.of_nat (length (a_bl f))) g = Ret (b, mk d (plus_block b (a_ib f))) (taken 1)
  /\ img (taken 1) (<[j := plus_block b (a_ib f)]> fs).
Proof.
  intros Hl. pose proof (im_free _ _ Hi) as Hfree. pose proof (im_used _ _ Hi) as Hused. split.
  - unfold iblock_of, NDIRECT. rewrite (proj2 (Z.ltb_lt _ _)) by lia. cbn [mk di_addrs]. rewrite Nat2Z.id.
    rewrite nth_addrs, lookup_ge_None_2 by lia. cbn [default from_option id]. rewrite xint_small by lia. cbn [Z.eqb].
    unfold bind. rewrite (take_block_eq g fs Hi) by lia. unfold ret, taken, b. rewrite Hused. 
    rewrite !(xint_small (g_freeblock g)) by lia. rewrite addrs_snoc by done.
    fold (plus_block (g_freeblock g) (a_ib f)). rewrite nth_addrs by done. cbn [plus_block a_bl].
    rewrite lookup_app_r, Nat.sub_diag by lia. cbn [lookup list_lookup default from_option id].
    by rewrite xint_small by lia.
  - pose proof (ar_ind _ _ file_rep) as Hind. rewrite (proj2 (Nat.leb_le _ _)) in Hind by lia.
    apply (img_update g (taken 1) fs j f _ [b]); try done.
    + unfold blocks. cbn [plus_block a_bl a_ib]. rewrite Hind. cbn. by rewrite Permutation_app_comm.
    + apply NoDup_singleton.
    + intros c Hc. apply list_elem_of_singleton in Hc as ->. cbn. lia.
    + apply Hi.
    + split; cbn [plus_block a_data a_bl a_ib].
      * apply file_rep.
      * rewrite length_app. cbn [length]. lia.
      * apply plus_chunks; [done|]. by apply (im_zero _ _ Hi); lia.
      * rewrite length_app. cbn [length]. by rewrite (proj2 (Nat.leb_le _ _)) by lia.
Qed.

(** The indirect block [ib] with the new block entered: the files after that. *)
Definition entered (ib b : Z) (c : list Z) (n : Z) : image :=
  gset_sect (<[ib := put32 c (4 * (length (a_bl f) - 12)) b]> (g_sect g)) (taken n).

Lemma view_entered ib b c n x : view (entered ib b c n) x = upd (view g) ib (put32 c (4 * (length (a_bl f) - 12)) b) x.
Proof. apply (view_wsect (taken n)). Qed.

Lemma ind_entered c b :
  length c = 512%nat -> (12 <= length (a_bl f))%nat -> 0 <= b < 4294967296 ->
  (forall m, (m < 128)%nat -> get32 c (4 * m) = default 0 (a_bl f !! (12 + m)%nat)) ->
  let c' := put32 c (4 * (length (a_bl f) - 12)) b in
  length c' = 512%nat /\ forall m, (m < 128)%nat -> get32 c' (4 * m) = default 0 ((a_bl f ++ [b]) !! (12 + m)%nat).
Proof.
  intros Hc Hl Hb Hg. cbv zeta. split; [by rewrite length_put32 by lia|]. intros m Hm.
  destruct (decide (12 + m = length (a_bl f))%nat) as [E|E].
  - replace m with (length (a_bl f) - 12)%nat by lia. rewrite get32_put32_same by lia.
    replace (12 + (length (a_bl f) - 12))%nat with (length (a_bl f)) by lia.
    rewrite lookup_app_r, Nat.sub_diag by lia. cbn [lookup list_lookup default from_option id]. by apply u32_small.
  - rewrite get32_put32_other by lia. rewrite Hg by done. f_equal.
    destruct (decide (12 + m < length (a_bl f))%nat); [by rewrite lookup_app_l|].
    rewrite !lookup_ge_None_2; [done|rewrite length_app; cbn [length]; lia|lia].
Qed.

(** [c] is what the indirect block [ib] holds, and [news] are the blocks taken for this one. *)
Lemma img_entered ib b c news (n := Z.of_nat (length news)) :
  (12 <= length (a_bl f))%nat -> 29 <= ib < 1024 -> c = view g ib ->
  (forall m, (m < 128)%nat -> get32 c (4 * m) = default 0 (a_bl f !! (12 + m)%nat)) ->
  blocks (plus_block b ib) ≡ₚ news ++ blocks f -> NoDup news -> b ∈ news -> ib <> b -> (forall k, a_bl f !! k <> Some ib) ->
  (forall x, x ∈ news -> g_freeblock g <= x < g_freeblock g + n) ->
  n <= 2 -> img (entered ib b c n) (<[j := plus_block b ib]> fs).
Proof.
  intros Hl Hib Hc Hg Hp Hnd Hb Hne Hnib Hnew Hn. pose proof (im_free _ _ Hi). pose proof (Hnew _ Hb) as Hbr.
  destruct (rsect_eq g fs ib Hi) as [_ Hcl]; [lia|]. rewrite <- Hc in Hcl.
  destruct (ind_entered c b Hcl Hl) as [Hcl' Hg']; [lia|done|].
  apply (img_update g _ fs j f _ news); try done.
  - intros sec Hs. cbn. destruct (decide (sec = ib)) as [->|Hx].
    + rewrite lookup_insert_eq. eauto.
    + rewrite lookup_insert_ne by done. by apply (im_full _ _ Hi).
  - intros sec Hs. rewrite view_entered, upd_ne; [done|]. intros ->. apply Hs. unfold blocks. cbn [plus_block a_ib].
    rewrite (proj2 (Z.eqb_neq _ _)) by lia. apply elem_of_app. left. by left.
  - split; cbn [plus_block a_data a_bl a_ib].
    + apply file_rep.
    + rewrite length_app. cbn [length]. lia.
    + apply plus_chunks; intros; rewrite view_entered, upd_ne; try done; [by intros ->; eapply Hnib|].
      by apply (im_zero _ _ Hi); lia.
    + rewrite length_app. cbn [length]. rewrite (proj2 (Nat.leb_gt _ _)) by lia. rewrite view_entered, upd_eq.
      split; [lia|done].
Qed.

Lemma iblock_first (ib := g_freeblock g) (b := g_freeblock g + 1) :
  length (a_bl f) = 12%nat ->
  iblock_of (mk d f) (Z.of_nat (length (a_bl f))) g = Ret (b, mk d (plus_block b ib)) (entered ib b zero_block 2)
  /\ img (entered ib b zero_block 2) (<[j := plus_block b ib]> fs).
Proof.
  intros Hl. pose proof (im_free _ _ Hi) as Hfree. pose proof (im_used _ _ Hi) as Hused.
  assert (view g ib = zero_block) as Hz by (apply (im_zero _ _ Hi); lia).
  pose proof (ar_ind _ _ file_rep) as Hind. rewrite (proj2 (Nat.leb_le _ _)) in Hind by lia.
  destruct (im_full _ _ Hi ib) as (buf & Hbuf & _); [lia|]. unfold view in Hz. rewrite Hbuf in Hz. change (buf = zero_block) in Hz. subst buf.
  split.
  - rewrite Hl. change (Z.of_nat 12) with 12. unfold iblock_of, NDIRECT. cbn [Z.ltb Z.compare Pos.compare Pos.compare_cont].
    cbn [mk di_addrs]. change (Z.to_nat 12) with 12%nat. rewrite nth_addrs_ib, Hind.
    rewrite xint_small by lia. cbn [Z.eqb]. unfold bind.
    rewrite (take_block_eq g fs Hi) by lia. unfold ret. cbn [di_addrs]. rewrite Hused.
    rewrite !(xint_small (g_freeblock g)) by lia. rewrite addrs_ib, nth_addrs_ib. cbn [a_ib].
    rewrite !(xint_small (g_freeblock g)) by lia. unfold rsect. cbn [g_sect].
    unfold ib in Hbuf. rewrite Hbuf, get32_zero_block. cbn [Z.eqb]. unfold take_block, wsect, bind, gets, modify, ret, gset_sect.
    cbn [g_freeblock g_usedblocks g_sect g_bitblocks g_freeinode]. rewrite (u32_small (_ + 1 + 1)) by lia.
    cbv beta iota. rewrite (xint_small (_ + 1)) by lia. rewrite get32_put32_same by (unfold zero_block; rewrite length_replicate; lia).
    rewrite u32_small, xint_small by lia. unfold entered, taken, gset_sect, plus_block, mk. cbn.
    rewrite Hl. f_equal; [|f_equal; lia]. do 2 f_equal. unfold addrs. cbn. rewrite <- app_assoc, !take_app_le by lia. done.
  - apply (img_entered ib b zero_block [ib; b]).
    + lia.
    + lia.
    + unfold view. by rewrite Hbuf.
    + intros m Hm. rewrite get32_zero_block, lookup_ge_None_2 by lia. done.
    + unfold blocks. cbn [plus_block a_ib a_bl]. assert (ib <> 0) as Hn0 by lia.
      rewrite Hind, (proj2 (Z.eqb_neq ib 0) Hn0). cbn [Z.eqb app].
      constructor. by rewrite Permutation_app_comm.
    + apply NoDup_cons. split; [|apply NoDup_singleton]. intros Hin%list_elem_of_singleton. lia.
    + right. left.
    + lia.
    + intros k Hk. apply bl_block in Hk. lia.
    + intros x. rewrite !elem_of_cons. cbn. intros [->|[->|[]%elem_of_nil]]; lia.
    + cbn. lia.
Qed.

Lemma iblock_next (b := g_freeblock g) (c := view g (a_ib f)) :
  (12 < length (a_bl f))%nat ->
  iblock_of (mk d f) (Z.of_nat (length (a_bl f))) g = Ret (b, mk d (plus_block b (a_ib f))) (entered (a_ib f) b c 1)
  /\ img (entered (a_ib f) b c 1) (<[j := plus_block b (a_ib f)]> fs).
Proof.
  intros Hl. pose proof (im_free _ _ Hi) as Hfree. pose proof (im_used _ _ Hi) as Hused.
  pose proof (ar_ind _ _ file_rep) as Hind. rewrite (proj2 (Nat.leb_gt _ _)) in Hind by lia. destruct Hind as (Hib & Hcl & Hg).
  pose proof (ib_block Hib) as Hr. fold c in Hcl, Hg.
  assert (forall k, a_bl f !! k <> Some (a_ib f)) as Hnib.
  { intros k Hk. pose proof (nodup_blocks g fs j f Hi Hj) as Hnd.
    unfold blocks in Hnd. rewrite (proj2 (Z.eqb_neq _ _)) in Hnd by done. cbn in Hnd. apply NoDup_cons in Hnd as [Hn _].
    apply Hn. by eapply list_elem_of_lookup_2. }
  split.
  - unfold iblock_of, NDIRECT. rewrite (proj2 (Z.ltb_ge _ _)) by lia.
    cbn [mk di_addrs]. change (Z.to_nat 12) with 12%nat. rewrite nth_addrs_ib.
    rewrite xint_small, (proj2 (Z.eqb_neq _ _)) by lia. unfold bind, ret. cbn [mk di_addrs].
    rewrite nth_addrs_ib, xint_small by lia. destruct (rsect_eq g fs (a_ib f) Hi) as [-> _]; [lia|]. fold c.
    replace (4 * Z.to_nat (Z.of_nat (length (a_bl f)) - 12))%nat with (4 * (length (a_bl f) - 12))%nat by lia.
    rewrite Hg by lia. rewrite lookup_ge_None_2 by lia. cbn [default from_option id Z.eqb].
    rewrite (take_block_eq g fs Hi) by lia. unfold wsect, modify.
    rewrite (xint_small (g_freeblock g)) by lia. rewrite get32_put32_same by lia. rewrite u32_small, xint_small by lia.
    unfold entered, taken, gset_sect, mk, plus_block. cbn. rewrite Hused. do 3 f_equal. symmetry. by apply addrs_far; lia.
  - apply (img_entered (a_ib f) b c [b]); try done; try lia.
    + unfold blocks. cbn [plus_block a_ib a_bl]. rewrite (proj2 (Z.eqb_neq _ _)) by done. 
      rewrite (Permutation_app_comm (a_bl f)). apply perm_swap.
    + apply NoDup_singleton.
    + left.
    + intros x. rewrite elem_of_cons. cbn. intros [->|[]%elem_of_nil]. lia.
Qed.

(** Past the last block one is allocated, with the indirect block before the thirteenth. *)
Lemma iblock_new :
  exists b ib g', iblock_of (mk d f) (Z.of_nat (length (a_bl f))) g = Ret (b, mk d (plus_block b ib)) g'
    /\ img g' (<[j := plus_block b ib]> fs) /\ same_low g g' /\ g_freeblock g' <= g_freeblock g + 2.
Proof.
  destruct (decide (length (a_bl f) < 12)%nat) as [Hl|Hl].
  { destruct (iblock_direct Hl) as [E Hi']. do 3 eexists. split; [exact E|]. split; [done|]. split; [done|]. cbn. lia. }
  assert (forall ib b c n, 29 <= ib -> same_low g (entered ib b c n)) as Hsame.
  { intros ib b c n Hib. split; [done|]. intros sec Hs. rewrite view_entered. apply upd_ne. lia. }
  pose proof (im_free _ _ Hi). destruct (decide (length (a_bl f) = 12)%nat) as [Hl12|Hl12].
  - destruct (iblock_first Hl12) as [E Hi']. do 3 eexists. split; [exact E|]. split; [done|].
    split; [apply Hsame; lia|]. cbn. lia.
  - destruct (iblock_next) as [E Hi']; [lia|]. do 3 eexists. split; [exact E|]. split; [done|]. split; [|cbn; lia].
    apply Hsame, ib_block. pose proof (ar_ind _ _ file_rep) as Hind. rewrite (proj2 (Nat.leb_gt _ _)) in Hind by lia. apply Hind.
Qed.
End iblock.

(** ** Writing the next bytes *)

Lemma chunk_splice data q k :
  (512 * k <= length data)%nat -> (length data + length q <= 512 * (k + 1))%nat ->
  splice (pad (chunk k data)) (length data - 512 * k) q = pad (chunk k (data ++ q)).
Proof.
  intros Hk Hq. unfold chunk. rewrite drop_app_le by done. set (r := drop (512 * k) data).
  assert (length r = length data - 512 * k)%nat as Hr by (unfold r; by rewrite length_drop).
  rewrite !take_ge by (rewrite ?length_app; lia). unfold pad, splice. rewrite <- Hr, take_app_length.
  rewrite <- drop_drop, drop_app_length, drop_replicate, length_app, <- !app_assoc. do 3 f_equal. lia.
Qed.

Lemma chunk_before data q k : (512 * (k + 1) <= length data)%nat -> chunk k (data ++ q) = chunk k data.
Proof. intros Hk. unfold chunk. rewrite drop_app_le by lia. apply take_app_le. rewrite length_drop. lia. Qed.

Definition plus_data (f : afile) (q : list Z) : afile := AFile (a_data f ++ q) (a_bl f) (a_ib f).

Lemma length_chunk k data : (length (chunk k data) <= 512)%nat.
Proof. unfold chunk. rewrite length_take. lia. Qed.

Lemma length_pad l : (length l <= 512)%nat -> length (pad l) = 512%nat.
Proof. intros Hl. unfold pad. rewrite length_app, length_replicate. lia. Qed.

Lemma write_chunk g fs j f k b q (buf := splice (view g b) (length (a_data f) - 512 * k) q) :
  img g fs -> fs !! j = Some f -> length (a_bl f) = (k + 1)%nat -> (k < 140)%nat -> a_bl f !! k = Some b ->
  (512 * k <= length (a_data f))%nat -> (length (a_data f) + length q <= 512 * (k + 1))%nat ->
  img (gset_sect (<[b := buf]> (g_sect g)) g) (<[j := plus_data f q]> fs).
Proof.
  intros Hi Hj Hbl Hk Hb Hlo Hhi. pose proof (file_rep g fs j f Hi Hj) as Hrep.
  assert (buf = pad (chunk k (a_data f ++ q))) as Hbuf.
  { unfold buf. rewrite (ar_chunk _ _ Hrep k b Hb). by apply chunk_splice. }
  pose proof (nodup_blocks g fs j f Hi Hj) as Hnd. unfold blocks in Hnd. apply NoDup_app in Hnd as (_ & Hib & Hnd).
  apply (img_update g _ fs j f _ []); try done.
  - apply NoDup_nil_2.
  - intros x []%elem_of_nil.
  - cbn. lia.
  - apply Hi.
  - intros sec Hs. cbn. destruct (decide (sec = b)) as [->|Hx].
    + rewrite lookup_insert_eq. eexists. split; [done|]. rewrite Hbuf. apply length_pad, length_chunk.
    + rewrite lookup_insert_ne by done. by apply (im_full _ _ Hi).
  - intros sec Hs. rewrite view_wsect, upd_ne; [done|]. intros ->. apply Hs. unfold blocks. cbn [plus_data a_bl].
    apply elem_of_app. right. by eapply list_elem_of_lookup_2.
  - split; cbn [plus_data a_data a_bl a_ib].
    + rewrite length_app. lia.
    + rewrite length_app. lia.
    + intros m c Hc. rewrite view_wsect. destruct (decide (m = k)) as [->|Hne].
      * rewrite Hb in Hc. injection Hc as <-. by rewrite upd_eq.
      * assert (c <> b) as Hcb by (intros ->; by apply Hne, (NoDup_lookup _ _ _ _ Hnd Hc)).
        apply lookup_lt_Some in Hc as Hm. rewrite upd_ne, chunk_before by (done || lia). by apply (ar_chunk _ _ Hrep).
    + pose proof (ar_ind _ _ Hrep) as Hind. destruct (_ <=? _)%nat; [done|]. destruct Hind as (Hn & Hl & Hg).
      rewrite view_wsect, upd_ne; [done|]. intros E. apply (Hib (a_ib f)).
      { rewrite (proj2 (Z.eqb_neq _ _)) by done. left. } { rewrite E. by eapply list_elem_of_lookup_2. }
Qed.

(** ** [iappend] *)

Ltac divs n := pose proof (Nat.div_mod_eq n 512); pose proof (Nat.mod_upper_bound n 512 ltac:(lia)).

(** The blocks a file of [n] bytes takes. *)
Definition need (n : nat) : nat :=
  let m := ((n + 511) / 512)%nat in (m + if (m <=? 12)%nat then 0 else 1)%nat.

Lemma need_mono n m : (n <= m)%nat -> (need n <= need m)%nat.
Proof.
  intros Hn. unfold need. assert ((n + 511) / 512 <= (m + 511) / 512)%nat by (apply Nat.Div0.div_le_mono; lia).
  destruct (Nat.leb_spec ((n + 511) / 512) 12), (Nat.leb_spec ((m + 511) / 512) 12); lia.
Qed.

Lemma length_blocks g fs j f :
  img g fs -> fs !! j = Some f -> sized f -> length (blocks f) = need (length (a_data f)).
Proof.
  intros Hi Hj Hs. pose proof (ar_ind _ _ (file_rep g fs j f Hi Hj)) as Hind. unfold blocks, need. rewrite <- Hs.
  destruct (Nat.leb_spec (length (a_bl f)) 12).
  - rewrite Hind. cbn. lia.
  - destruct Hind as [Hn _]. rewrite (proj2 (Z.eqb_neq _ _)) by done. cbn. lia.
Qed.

(** What a file grows by is what the free blocks shrink by. *)
Lemma free_after g fs j f g' f' :
  img g fs -> fs !! j = Some f -> sized f -> img g' (<[j := f']> fs) -> sized f' ->
  g_freeblock g' = g_freeblock g + Z.of_nat (need (length (a_data f'))) - Z.of_nat (need (length (a_data f))).
Proof.
  intros Hi Hj Hs Hi' Hs'. rewrite (im_free _ _ Hi), (im_free _ _ Hi').
  destruct (all_blocks_split fs j f Hj) as (l1 & l2 & E & E' & _). rewrite E, E', !length_app.
  rewrite <- (length_blocks g fs j f), <- (length_blocks g' (<[j:=f']> fs) j f'); try done; [lia|].
  apply list_lookup_insert_eq. by eapply lookup_lt_Some.
Qed.

(** The block for the next byte of the file: the last one it has, if it is not full, or a new one. *)
Lemma iblock_end g fs j f d (k := (length (a_data f) / 512)%nat) :
  img g fs -> fs !! j = Some f -> sized f -> (length (a_data f) < 140 * 512)%nat -> g_freeblock g <= 1014 ->
  exists b f1 g1, iblock_of (mk d f) (Z.of_nat k) g = Ret (b, mk d f1) g1 /\ img g1 (<[j := f1]> fs) /\ same_low g g1
    /\ a_data f1 = a_data f /\ length (a_bl f1) = (k + 1)%nat /\ a_bl f1 !! k = Some b /\ 29 <= b < 1024.
Proof.
  intros Hi Hj Hs Hmax Hfb. unfold sized in Hs. divs (length (a_data f)). divs (length (a_data f) + 511)%nat.
  destruct (decide (length (a_bl f) = k)) as [Hk|Hk].
  - destruct (iblock_new g fs j f d Hi Hj) as (b & ib & g1 & E & Hi1 & Hl & Hfb1); [lia..|]. rewrite Hk in E.
    assert (a_bl (plus_block f b ib) !! k = Some b) as Hb.
    { rewrite <- Hk. cbn [plus_block a_bl]. rewrite lookup_app_r by lia. by rewrite Nat.sub_diag. }
    assert (<[j := plus_block f b ib]> fs !! j = Some (plus_block f b ib)) as Hj1
      by (apply list_lookup_insert_eq; by eapply lookup_lt_Some).
    exists b, (plus_block f b ib), g1. split_and!; try done.
    + cbn [plus_block a_bl]. rewrite length_app. cbn [length]. lia.
    + by apply (bl_block _ _ _ _ Hi1 Hj1 _ _ Hb).
    + pose proof (bl_block _ _ _ _ Hi1 Hj1 _ _ Hb). lia.
  - destruct (lookup_lt_is_Some_2 (a_bl f) k) as [b Hb]; [lia|]. exists b, f, g. pose proof (bl_block g fs j f Hi Hj k b Hb).
    split_and!; try done; try lia.
    + apply (iblock_old g fs j f d Hi Hj); [done|lia|lia].
    + by rewrite list_insert_id.
Qed.

Lemma iappend_loop_ok fuel : forall g fs j f d p,
  (length p < fuel)%nat -> img g fs -> fs !! j = Some f -> sized f -> (length (a_data f) + length p <= 140 * 512)%nat ->
  g_freeblock g + Z.of_nat (need (length (a_data f) + length p)) - Z.of_nat (need (length (a_data f))) <= 1014 ->
  exists f' g', iappend_loop fuel (mk d f) (Z.of_nat (length (a_data f))) p g
      = Ret (mk d f', Z.of_nat (length (a_data f) + length p)) g'
    /\ img g' (<[j := f']> fs) /\ a_data f' = a_data f ++ p /\ sized f' /\ same_low g g'.
Proof.
  induction fuel as [|fuel IH]; intros g fs j f d p Hfuel Hi Hj Hs Hmax Hroom; [lia|]. cbn [iappend_loop].
  destruct (Nat.eqb_spec (length p) 0) as [Hp|Hp].
  { destruct p; [|done]. exists f, g. rewrite Nat.add_0_r, app_nil_r, list_insert_id by done. done. }
  pose proof (need_mono (length (a_data f)) (length (a_data f) + length p) ltac:(lia)) as Hmono.
  set (k := (length (a_data f) / 512)%nat). divs (length (a_data f)). fold k in H.
  replace (Z.of_nat (length (a_data f)) / 512) with (Z.of_nat k) by (unfold k; rewrite Nat2Z.inj_div; lia).
  unfold check, MAXFILE, NDIRECT, NINDIRECT. rewrite (proj2 (Z.ltb_lt _ _)) by lia.
  destruct (iblock_end g fs j f d Hi Hj Hs) as (b & f1 & g1 & E & Hi1 & Hl1 & Hd1 & Hbl & Hb & Hbr); [lia|lia|].
  fold k in E, Hbl, Hb. set (n1 := Z.to_nat (Z.min _ _)). assert (n1 = Nat.min (length p) (512 * (k + 1) - length (a_data f))) as Hn1 by lia.
  assert (<[j := f1]> fs !! j = Some f1) as Hj1 by (apply list_lookup_insert_eq; by eapply lookup_lt_Some).
  pose proof (write_chunk g1 _ j f1 k b (take n1 p) Hi1 Hj1 Hbl) as Hw. rewrite Hd1, length_take in Hw.
  specialize (Hw ltac:(lia) Hb ltac:(lia) ltac:(lia)). rewrite list_insert_insert_eq in Hw.
  destruct (rsect_eq g1 _ b Hi1 ltac:(lia)) as [Er _]. set (g2 := gset_sect _ _) in Hw. set (f2 := plus_data f1 (take n1 p)) in Hw.
  assert (length (a_data f2) = length (a_data f) + n1)%nat as Hl2 by (cbn; rewrite length_app, Hd1, length_take; lia).
  assert (sized f2) as Hs2.
  { unfold sized. rewrite Hl2. cbn [f2 plus_data a_bl]. rewrite Hbl. apply (Nat.div_unique _ _ _ (length (a_data f) + n1 + 511 - 512 * (k + 1))); lia. }
  assert (<[j := f2]> fs !! j = Some f2) as Hj2 by (apply list_lookup_insert_eq; by eapply lookup_lt_Some).
  destruct (IH g2 (<[j := f2]> fs) j f2 d (drop n1 p)) as (f' & g' & E' & Hi' & Hd' & Hs' & Hl'); [rewrite length_drop; lia|done..| | |].
  { rewrite Hl2, length_drop. lia. }
  { rewrite (free_after g fs j f g2 f2) by done. rewrite Hl2, length_drop.
    replace (length (a_data f) + n1 + (length p - n1))%nat with (length (a_data f) + length p)%nat by lia. lia. }
  rewrite Hl2, length_drop in E'. rewrite list_insert_insert_eq in Hi'. exists f', g'. split_and!; try done.
  - unfold bind, ret. rewrite E, Er. unfold wsect, modify. rewrite u32_small by lia.
    replace (Z.to_nat (Z.of_nat (length (a_data f)) - Z.of_nat k * 512)) with (length (a_data f) - 512 * k)%nat by lia.
    replace (Z.of_nat (length (a_data f)) + Z.of_nat n1) with (Z.of_nat (length (a_data f) + n1)) by lia.
    etrans; [exact E'|]. do 2 f_equal. f_equal. lia.
  - rewrite Hd'. cbn [f2 plus_data a_data]. by rewrite Hd1, <- app_assoc, take_drop.
  - etrans; [exact Hl1|]. etrans; [|exact Hl']. split; [done|]. intros sec Hsec. unfold g2. rewrite view_wsect. apply upd_ne. lia.
Qed.
