(* ===== verification/MkfsProps.v ===== *)
(** * The image mkfs builds is one the kernel reads (tools/mkfs.c, kernel/fs.c)

    [laid g fs] adds the inodes and the superblock to [img]: file number [j] of [fs] is inode [j + 1], file 0 is the root
    directory, and the inodes after the last file are free. *)

From S2P Require Import Prelude Types Monad Bio BioSpec Log LogSpec TxSpec KString Print Fs FsDir FsBlocks FsInode.
From S2P Require Import FsInodeOps FsFile FsFileOps FsFileProps FsDirProps Crash Mkfs MkfsImage.

Definition ftype (j : nat) : Z := if (j =? 0)%nat then T_DIR else 2.
Definition inode_for (j : nat) (f : afile) : dinode := mk (Dinode (ftype j) 0 0 1 (Z.of_nat (length (a_data f))) []) f.

Definition sb_bytes : list Z :=
  splice (replicate 512 0) 0 (le32 (xint fs_size) ++ le32 (xint nblocks) ++ le32 (xint ninodes) ++ le32 (xint nlog)).

Record laid (g : image) (fs : list afile) : Prop := {
  dsk_img : img g fs;
  dsk_sized : Forall sized fs;
  dsk_next : g_freeinode g = 1 + Z.of_nat (length fs);
  dsk_max : (length fs <= 199)%nat;
  dsk_inode : forall j f, fs !! j = Some f -> disk_inode (view g) (Z.of_nat j + 1) = inode_for j f;
  dsk_free : forall n, g_freeinode g <= n < 200 -> di_type (disk_inode (view g) n) = 0;
  dsk_sb : view g 1 = sb_bytes
}.

(** ** Inodes *)

Lemma iblock_range n : 0 <= n < 200 -> 2 <= i2b n < 27.
Proof. intros Hn. unfold i2b, IPB. pose proof (Z.div_lt_upper_bound n 8 25). pose proof (Z.div_pos n 8). lia. Qed.

(** Changing a metadata block. *)
Lemma img_low g fs sec buf :
  img g fs -> sec < 29 -> length buf = 512%nat -> img (gset_sect (<[sec := buf]> (g_sect g)) g) fs.
Proof.
  intros Hi Hs Hb. pose proof (im_range _ _ Hi) as Hr. pose proof (im_free _ _ Hi). split; try apply Hi.
  - intros x Hx. cbn. destruct (decide (x = sec)) as [->|Hne]; [rewrite lookup_insert_eq; eauto|].
    rewrite lookup_insert_ne by done. by apply (im_full _ _ Hi).
  - intros x Hx. cbn in Hx. rewrite view_wsect, upd_ne by lia. by apply (im_zero _ _ Hi).
  - apply Forall_lookup. intros k f Hk. eapply arep_ext; [|by apply (Forall_lookup_1 _ _ _ _ (im_rep _ _ Hi) Hk)].
    intros b Hb'. rewrite view_wsect, upd_ne; [done|]. rewrite Forall_forall in Hr.
    specialize (Hr b (in_all_blocks _ _ _ _ Hk Hb')). cbn in Hr. lia.
Qed.

Lemma addrs_range g fs j f : img g fs -> fs !! j = Some f -> g_freeblock g <= 1024 -> Forall (fun a => 0 <= a < 4294967296) (addrs f).
Proof.
  intros Hi Hj Hfb. pose proof (file_block g fs j f Hi Hj) as Hr. unfold addrs. apply Forall_app. split.
  - apply Forall_take, Forall_app. split; [|apply Forall_replicate; lia].
    apply Forall_forall. intros b Hb. assert (b ∈ blocks f) as Hb' by (apply elem_of_app; by right). specialize (Hr _ Hb'). lia.
  - apply Forall_singleton. destruct (decide (a_ib f = 0)) as [->|Hn]; [lia|]. pose proof (ib_block g fs j f Hi Hj Hn). lia.
Qed.

Lemma inode_for_ok g fs j f d :
  img g fs -> fs !! j = Some f -> g_freeblock g <= 1024 -> dinode_ok d -> dinode_ok (mk d f).
Proof.
  intros Hi Hj Hfb [? ? ? ? ? _]. split; try done. split; [apply length_addrs|]. cbn. by eapply addrs_range.
Qed.

Lemma view_winode g n x m :
  view (gset_sect (<[i2b n := put_dinode (view g (i2b n)) (dinode_off n) x]> (g_sect g)) g) m = write_inode (view g) n x m.
Proof. apply view_wsect. Qed.

Lemma winode_eq g fs n x :
  img g fs -> 0 <= n < 200 -> dinode_ok x ->
  let g' := gset_sect (<[i2b n := put_dinode (view g (i2b n)) (dinode_off n) x]> (g_sect g)) g in
  winode n x g = Ret tt g' /\ img g' fs /\ disk_inode (view g') n = x
  /\ (forall m, 0 <= m -> m <> n -> disk_inode (view g') m = disk_inode (view g) m)
  /\ (forall sec, sec < 2 \/ 27 <= sec -> view g' sec = view g sec).
Proof.
  intros Hi Hn Hx g'. pose proof (iblock_range n Hn) as Hb. destruct (rsect_eq g fs (i2b n) Hi) as [Er Hl]; [lia|].
  pose proof (dk_addrs _ Hx) as [Ha _].
  assert (forall m, disk_inode (view g') m = disk_inode (write_inode (view g) n x) m) as Ev.
  { intros m. unfold disk_inode. by rewrite <- view_winode. }
  split_and!.
  - unfold winode, bind. by rewrite Er.
  - apply img_low; [done|lia|]. rewrite length_put_dinode; [done| |done]. rewrite Hl. apply dinode_off_bound.
  - rewrite Ev. by apply disk_inode_same.
  - intros m Hm Hne. rewrite Ev. apply disk_inode_other; try done. lia.
  - intros sec Hs. unfold g'. rewrite view_winode. apply upd_ne. unfold iblock. change (IBLOCK n) with (i2b n). lia.
Qed.

(** ** The disk as the bytes of its files *)

Definition total (ds : list (list Z)) : nat := sum_list_with (fun d => need (length d)) ds.
Definition holds (g : image) (ds : list (list Z)) : Prop := exists fs, laid g fs /\ map a_data fs = ds.

Lemma total_app ds ds' : total (ds ++ ds') = (total ds + total ds')%nat.
Proof. apply sum_list_with_app. Qed.

Lemma total_insert ds j d x :
  ds !! j = Some d -> (total (<[j := x]> ds) + need (length d) = total ds + need (length x))%nat.
Proof.
  intros Hj. rewrite insert_take_drop by by eapply lookup_lt_Some. rewrite <- (take_drop_middle ds j d) at 3 by done.
  rewrite !total_app. unfold total. cbn [sum_list_with]. lia.
Qed.

Lemma disk_freeblock g fs : laid g fs -> g_freeblock g = 29 + Z.of_nat (total (map a_data fs)).
Proof.
  intros Hd. rewrite (im_free _ _ (dsk_img _ _ Hd)). f_equal. f_equal. unfold total, all_blocks.
  assert (Forall (fun f => length (blocks f) = need (length (a_data f))) fs) as Hf.
  { apply Forall_lookup. intros j f Hj. eapply length_blocks; [apply Hd|done|]. by apply (Forall_lookup_1 _ _ _ _ (dsk_sized _ _ Hd) Hj). }
  clear Hd. induction Hf as [|f l Hf _ IH]; [done|]. cbn [map concat sum_list_with]. by rewrite length_app, Hf, IH.
Qed.

Lemma inode_for_dinode_ok g fs j f :
  img g fs -> fs !! j = Some f -> g_freeblock g <= 1024 -> dinode_ok (inode_for j f).
Proof.
  intros Hi Hj Hfb. pose proof (ar_max _ _ (file_rep g fs j f Hi Hj)).
  split; cbn; try (unfold ftype, T_DIR; destruct (j =? 0)%nat; lia); try lia.
  split; [apply length_addrs|by eapply addrs_range].
Qed.

Lemma rinode_disk g fs j f :
  laid g fs -> fs !! j = Some f -> rinode (Z.of_nat j + 1) g = Ret (inode_for j f) g.
Proof.
  intros Hd Hj. apply lookup_lt_Some in Hj as Hl. pose proof (dsk_max _ _ Hd). unfold rinode, bind.
  destruct (rsect_eq g fs (i2b (Z.of_nat j + 1)) (dsk_img _ _ Hd)) as [-> _].
  { pose proof (iblock_range (Z.of_nat j + 1)). lia. }
  unfold ret. by rewrite <- (dsk_inode _ _ Hd j f Hj).
Qed.

(** A file replaced by one of the same number. *)
Lemma disk_insert g fs j f' g' gw :
  laid g fs -> (j < length fs)%nat -> same_low g g' -> sized f' -> img gw (<[j := f']> fs) ->
  g_freeinode gw = g_freeinode g' -> disk_inode (view gw) (Z.of_nat j + 1) = inode_for j f' ->
  (forall m, 0 <= m -> m <> Z.of_nat j + 1 -> disk_inode (view gw) m = disk_inode (view g') m) ->
  (forall sec, sec < 2 \/ 27 <= sec -> view gw sec = view g' sec) -> laid gw (<[j := f']> fs).
Proof.
  intros Hd Hj [[_ Hfi] Hv] Hs Hi Hfw Hsame Hother Hlow. pose proof (dsk_max _ _ Hd). pose proof (dsk_next _ _ Hd) as Hn.
  assert (forall m, 0 <= m < 200 -> m <> Z.of_nat j + 1 -> disk_inode (view gw) m = disk_inode (view g) m) as Hin.
  { intros m Hm Hne. rewrite Hother by (lia || done). unfold disk_inode. rewrite Hv; [done|].
    pose proof (iblock_range m Hm). unfold iblock. change (IBLOCK m) with (i2b m). lia. }
  split; [done| | | | | |].
  - apply Forall_insert; [apply Hd|done].
  - by rewrite length_insert, Hfw, Hfi.
  - by rewrite length_insert.
  - intros k h Hk. destruct (decide (k = j)) as [->|Hne].
    + rewrite list_lookup_insert_eq in Hk by done. by injection Hk as <-.
    + rewrite list_lookup_insert_ne in Hk by done. apply lookup_lt_Some in Hk as Hkl. rewrite Hin by lia. by apply Hd.
  - intros n Hr. rewrite Hfw, Hfi in Hr. rewrite Hin by lia. by apply Hd.
  - rewrite Hlow, Hv by lia. apply Hd.
Qed.

Lemma iappend_holds g ds j d p :
  holds g ds -> ds !! j = Some d -> (length d + length p <= 140 * 512)%nat -> (total (<[j := d ++ p]> ds) <= 985)%nat ->
  exists g', iappend (Z.of_nat j + 1) p g = Ret tt g' /\ holds g' (<[j := d ++ p]> ds).
Proof.
  intros (fs & Hd & <-) Hj Hmax Htot. apply list_lookup_fmap_Some in Hj as (f & -> & Hj).
  pose proof (disk_freeblock g fs Hd) as Hfb. pose proof (total_insert (map a_data fs) j (a_data f) (a_data f ++ p)) as Ht.
  rewrite list_lookup_fmap, Hj in Ht. specialize (Ht eq_refl). rewrite length_app in Ht.
  assert (sized f) as Hs by by apply (Forall_lookup_1 _ _ _ _ (dsk_sized _ _ Hd) Hj).
  unfold iappend, bind. rewrite (rinode_disk g fs j f Hd Hj). unfold inode_for. cbn [mk di_size].
  pose proof (dsk_img _ _ Hd) as Hi. rewrite xint_small by lia. fold (inode_for j f).
  destruct (iappend_loop_ok (S (length p)) g fs j f (inode_for j f) p) as (f' & g' & E & Hi' & Hd' & Hs' & Hl'); try done; [lia..|].
  change (mk (inode_for j f) f) with (inode_for j f) in E. rewrite E. 
  assert (<[j := f']> fs !! j = Some f') as Hj' by (apply list_lookup_insert_eq; by eapply lookup_lt_Some).
  apply lookup_lt_Some in Hj as Hlt. pose proof (dsk_max _ _ Hd) as Hm.
  pose proof (free_after g fs j f g' f' Hi Hj Hs Hi' Hs') as Hfa. rewrite Hd', length_app in Hfa.
  destruct (winode_eq g' _ (Z.of_nat j + 1) (inode_for j f') Hi') as (Ew & Hiw & Hsame & Hother & Hlow).
  { lia. } { eapply inode_for_dinode_ok; [exact Hi'|done|lia]. }
  eexists. split.
  { unfold inode_for in Ew |- *. cbn [mk di_type di_major di_minor di_nlink di_addrs] in Ew |- *. rewrite xint_small by lia.
    rewrite <- length_app, <- Hd'. exact Ew. }
  exists (<[j := f']> fs). split; [|etrans; [apply list_fmap_insert|by rewrite Hd']].
  by eapply (disk_insert g fs j f' g').
Qed.

Definition no_file : afile := AFile [] [] 0.

Lemma img_counters g fs fi : img g fs -> img (Image (g_sect g) (g_freeblock g) (g_usedblocks g) (g_bitblocks g) fi) fs.
Proof. intros []. by split. Qed.

Lemma img_no_file g fs : img g fs -> img g (fs ++ [no_file]).
Proof.
  intros [H1 H2 H3 H4 H5 H6 H7].
  assert (all_blocks (fs ++ [no_file]) = all_blocks fs) as E.
  { unfold all_blocks. rewrite map_app, concat_app. cbn. by rewrite !app_nil_r. }
  split; rewrite ?E; try done. apply Forall_app. split; [done|]. apply Forall_singleton.
  split; cbn [no_file a_data a_bl a_ib length]; [lia|lia|intros ? ? Hn; by rewrite lookup_nil in Hn|done].
Qed.

Lemma ialloc_holds g ds :
  holds g ds -> (length ds < 199)%nat ->
  exists g', ialloc (ftype (length ds)) g = Ret (Z.of_nat (length ds) + 1) g' /\ holds g' (ds ++ [[]]).
Proof.
  intros (fs & Hd & <-) Hl. rewrite length_map in *. pose proof (dsk_next _ _ Hd) as Hn.
  set (g0 := Image (g_sect g) (g_freeblock g) (g_usedblocks g) (g_bitblocks g) (g_freeinode g + 1)).
  assert (img g0 fs) as Hi0 by (apply (img_counters g), Hd).
  destruct (winode_eq g0 fs (Z.of_nat (length fs) + 1) (inode_for (length fs) no_file) Hi0) as (Ew & Hiw & Hsame & Hother & Hlow).
  { lia. }
  { split; cbn; try (unfold ftype, T_DIR; destruct (_ =? 0)%nat; lia); try lia. split; [done|]. repeat constructor; lia. }
  set (gw := gset_sect _ _) in *. exists gw. split.
  - unfold ialloc, bind, gets, modify. rewrite u32_small by lia. fold g0. rewrite Hn.
    replace (1 + Z.of_nat (length fs)) with (Z.of_nat (length fs) + 1) by lia.
    replace (Dinode _ _ _ _ _ _) with (inode_for (length fs) no_file); [by rewrite Ew|].
    unfold inode_for, ftype. by destruct (_ =? 0)%nat.
  - exists (fs ++ [no_file]). split; [|by rewrite map_app]. split.
    + by apply img_no_file.
    + apply Forall_app. split; [apply Hd|]. by apply Forall_singleton.
    + rewrite length_app. cbn. lia.
    + rewrite length_app. cbn. lia.
    + intros j f [Hj|[Hj E]]%lookup_app_Some.
      * apply lookup_lt_Some in Hj as Hlt. rewrite Hother by lia. by apply (dsk_inode _ _ Hd).
      * apply list_lookup_singleton_Some in E as [E <-]. by replace j with (length fs) by lia.
    + intros n Hr. cbn in Hr. rewrite Hother by lia. apply (dsk_free _ _ Hd). lia.
    + rewrite Hlow by lia. apply Hd.
Qed.

(** ** Directory entries and files *)

Definition entry (inum : Z) (name : list Z) : list Z := le16 (xshort inum) ++ padded DIRSIZ (name ++ [0]).

Lemma dirent_eq inum name : dirent inum name = Some (entry inum name).
Proof.
  unfold dirent, strncpy. rewrite strncpy_from_eq; [|done|right; apply elem_of_app; right; by left].
  cbn [mbind option_bind]. do 2 f_equal. unfold splice. rewrite take_0, drop_ge; [by rewrite app_nil_r|].
  rewrite length_padded. done.
Qed.

Lemma length_entry inum name : length (entry inum name) = 16%nat.
Proof. unfold entry. rewrite length_app, length_padded. done. Qed.

Lemma foreach_chunks fuel : forall g ds j d data,
  (length data < fuel)%nat -> holds g ds -> ds !! j = Some d -> (length d + length data <= 140 * 512)%nat ->
  (total (<[j := d ++ data]> ds) <= 985)%nat ->
  exists g', foreach (iappend (Z.of_nat j + 1)) (chunks fuel data) g = Ret tt g' /\ holds g' (<[j := d ++ data]> ds).
Proof.
  induction fuel as [|fuel IH]; intros g ds j d data Hf Hh Hj Hmax Htot; [lia|].
  destruct data as [|x data]; [exists g; rewrite app_nil_r, list_insert_id by done; done|]. cbn [chunks].
  set (all := x :: data) in *. pose proof (take_drop 512 all) as Etd.
  assert (length (take 512 all) + length (drop 512 all) = length all)%nat as El by (rewrite <- length_app; by f_equal).
  assert (0 < length (take 512 all))%nat as Hpos by (cbn; lia).
  destruct (iappend_holds g ds j d (take 512 all) Hh Hj) as (g1 & E1 & Hh1); [lia| |].
  { pose proof (total_insert ds j d (d ++ take 512 all) Hj). pose proof (total_insert ds j d (d ++ all) Hj).
    pose proof (need_mono (length (d ++ take 512 all)) (length (d ++ all))) as Hm. rewrite !length_app in *. lia. }
  destruct (IH g1 (<[j := d ++ take 512 all]> ds) j (d ++ take 512 all) (drop 512 all)) as (g2 & E2 & Hh2); [lia|done| | | |].
  - apply list_lookup_insert_eq. by eapply lookup_lt_Some.
  - rewrite length_app. lia.
  - by rewrite list_insert_insert_eq, <- app_assoc, Etd.
  - exists g2. rewrite list_insert_insert_eq, <- app_assoc, Etd in Hh2. split; [|done]. cbn [foreach]. unfold bind. by rewrite E1.
Qed.

Lemma add_entry_holds g root ds inum name :
  holds g (root :: ds) -> (length root + 16 <= 140 * 512)%nat -> (total ((root ++ entry inum name) :: ds) <= 985)%nat ->
  exists g', add_entry 1 inum name g = Ret tt g' /\ holds g' ((root ++ entry inum name) :: ds).
Proof.
  intros Hh Hmax Htot. unfold add_entry. rewrite dirent_eq.
  apply (iappend_holds g (root :: ds) 0 root (entry inum name) Hh eq_refl); [by rewrite length_entry|done].
Qed.

(** A file mkfs takes: no slash in its name, and not too long. *)
Definition file_fits (f : list Z * list Z) : Prop :=
  existsb (Z.eqb 47) (strip_fs (fst f)) = false /\ (length (snd f) <= 140 * 512)%nat.

Lemma total_cons d ds : total (d :: ds) = (need (length d) + total ds)%nat.
Proof. done. Qed.

Lemma add_file_holds g root ds f (n := Z.of_nat (length ds) + 2) :
  holds g (root :: ds) -> (length ds < 198)%nat -> file_fits f -> (length root + 16 <= 140 * 512)%nat ->
  (total ((root ++ entry n (strip_fs (fst f))) :: ds ++ [snd f]) <= 985)%nat ->
  exists g', add_file 1 f g = Ret tt g' /\ holds g' ((root ++ entry n (strip_fs (fst f))) :: ds ++ [snd f]).
Proof.
  intros Hh Hl [Hname Hlen] Hmax Htot. destruct f as [path data]. cbn [fst snd] in *. set (e := entry n (strip_fs path)) in *.
  assert (total ((root ++ e) :: ds ++ [[]]) <= 985)%nat as Htot1.
  { rewrite total_cons, total_app in *. change (total [[]]) with 0%nat. lia. }
  destruct (ialloc_holds g (root :: ds) Hh) as (g1 & E1 & Hh1); [cbn [length]; lia|].
  destruct (add_entry_holds g1 root (ds ++ [[]]) n (strip_fs path) Hh1 Hmax Htot1) as (g2 & E2 & Hh2).
  assert (<[S (length ds) := [] ++ data]> ((root ++ e) :: ds ++ [[]]) = (root ++ e) :: ds ++ [data]) as Eins.
  { change ((root ++ e) :: <[length ds := data]> (ds ++ [[]]) = (root ++ e) :: ds ++ [data]). f_equal.
    rewrite insert_app_r_alt, Nat.sub_diag by lia. done. }
  destruct (foreach_chunks (S (length data)) g2 ((root ++ e) :: ds ++ [[]]) (S (length ds)) [] data) as (g3 & E3 & Hh3).
  - lia.
  - done.
  - rewrite lookup_cons_ne_0, lookup_app_r by (cbn [Nat.pred]; lia). cbn [Nat.pred]. by rewrite Nat.sub_diag.
  - cbn [length]. lia.
  - by rewrite Eins.
  - rewrite Eins in Hh3. exists g3. split; [|done].
    unfold add_file, check, bind. rewrite Hname. cbn [negb ret]. unfold ret. 
    change 2 with (ftype (length (root :: ds))) at 1. rewrite E1.
    replace (Z.of_nat (length (root :: ds)) + 1) with n by (cbn [length]; unfold n; lia). rewrite E2.
    by replace (Z.of_nat (S (length ds)) + 1) with n in E3 by (unfold n; lia).
Qed.

(** The entries of the files from inode [inum] on. *)
Fixpoint entries (inum : Z) (files : list (list Z * list Z)) : list Z :=
  match files with [] => [] | f :: r => entry inum (strip_fs (fst f)) ++ entries (inum + 1) r end.

Lemma length_entries files inum : length (entries inum files) = (16 * length files)%nat.
Proof. revert inum. induction files as [|f r IH]; intros inum; [done|]. cbn [entries length]. rewrite length_app, length_entry, IH. lia. Qed.

Lemma add_files_holds files : forall g root ds,
  holds g (root :: ds) -> (length ds + length files <= 198)%nat -> Forall file_fits files ->
  (length root + 16 * length files <= 140 * 512)%nat ->
  (total ((root ++ entries (Z.of_nat (length ds) + 2) files) :: ds ++ map snd files) <= 985)%nat ->
  exists g', foreach (add_file 1) files g = Ret tt g'
    /\ holds g' ((root ++ entries (Z.of_nat (length ds) + 2) files) :: ds ++ map snd files).
Proof.
  induction files as [|f r IH]; intros g root ds Hh Hl Hok Hmax Htot.
  { exists g. cbn [entries map]. by rewrite !app_nil_r. }
  apply Forall_cons in Hok as [Hf Hr]. cbn [entries map length foreach] in *.
  set (n := Z.of_nat (length ds) + 2) in *. set (e := entry n (strip_fs (fst f))) in *.
  replace (n + 1) with (Z.of_nat (length (ds ++ [snd f])) + 2) in * by (rewrite length_app; cbn [length]; lia).
  rewrite app_assoc in Htot |- *. replace (ds ++ snd f :: map snd r) with ((ds ++ [snd f]) ++ map snd r) in * by (by rewrite <- app_assoc).
  destruct (add_file_holds g root ds f Hh) as (g1 & E1 & Hh1); [lia|done|lia| |].
  { fold n e. rewrite total_cons, total_app in Htot |- *.
    pose proof (need_mono (length (root ++ e)) (length ((root ++ e) ++ entries (Z.of_nat (length (ds ++ [snd f])) + 2) r))) as Hm.
    rewrite (length_app (root ++ e)) in *. rewrite total_app in Htot. lia. }
  fold n e in Hh1. destruct (IH g1 (root ++ e) (ds ++ [snd f]) Hh1) as (g2 & E2 & Hh2); [|done| |done|].
  - rewrite length_app. cbn [length]. lia.
  - rewrite length_app. unfold e. rewrite length_entry. lia.
  - exists g2. split; [|done]. unfold bind. by rewrite E1.
Qed.

(** ** The empty file system *)

Lemma zero_sects l : forall g,
  exists m, foreach (fun i => wsect (Z.of_nat i) (replicate 512 0)) l g = Ret tt (gset_sect m g)
    /\ forall i, m !! Z.of_nat i = if decide (i ∈ l) then Some zero_block else g_sect g !! Z.of_nat i.
Proof.
  induction l as [|x l IH]; intros g; [exists (g_sect g); by destruct g|].
  destruct (IH (gset_sect (<[Z.of_nat x := replicate 512 0]> (g_sect g)) g)) as (m & E & Hm).
  exists m. split; [exact E|]. intros i. rewrite Hm. cbn. destruct (decide (i = x)) as [->|Hne].
  - rewrite (decide_True (P := x ∈ x :: l)) by left. rewrite lookup_insert_eq. by case_decide.
  - rewrite lookup_insert_ne by lia. by repeat case_decide; set_solver.
Qed.

(** After the zeroes and the superblock. *)
Lemma start_laid m :
  (forall sec, 0 <= sec < 1024 -> m !! sec = Some zero_block) -> laid (Image (<[1 := sb_bytes]> m) 29 29 1 1) [].
Proof.
  intros Hm. set (g := Image _ _ _ _ _).
  assert (forall sec, 0 <= sec < 1024 -> sec <> 1 -> view g sec = zero_block) as Hz.
  { intros sec Hs Hne. unfold view. cbn. by rewrite lookup_insert_ne, Hm. }
  assert (img g []) as Hi.
  { split; try done; [| |constructor..].
    - intros sec Hs. cbn. destruct (decide (sec = 1)) as [->|Hne]; [rewrite lookup_insert_eq|rewrite lookup_insert_ne, Hm by done]; eauto.
    - intros sec Hs. apply Hz; cbn in Hs; lia. }
  split; [done|constructor|done|cbn; lia|intros j f Hj; by rewrite lookup_nil in Hj| |].
  - intros n Hn. cbn in Hn. unfold disk_inode. pose proof (iblock_range n).
    rewrite Hz by (unfold iblock; change (IBLOCK n) with (i2b n); lia).
    unfold get_dinode. cbn [di_type]. unfold get16, byte_at, zero_block. pose proof (dinode_off_bound n).
    by rewrite !lookup_replicate_2 by lia.
  - unfold view. cbn. by rewrite lookup_insert_eq.
Qed.

(** The entries of the root directory. *)
Definition root_data (files : list (list Z * list Z)) : list Z :=
  (entry 1 [46] ++ entry 1 [46; 46]) ++ entries 2 files.

(** What fits on the disk: 198 files in the 200 inodes, and the blocks before the log. *)
Definition fits (files : list (list Z * list Z)) : Prop :=
  (length files <= 198)%nat /\ Forall file_fits files /\ (total (root_data files :: map snd files) <= 985)%nat.

Lemma length_root_data files : length (root_data files) = (32 + 16 * length files)%nat.
Proof. unfold root_data. by rewrite !length_app, !length_entry, length_entries. Qed.

(** ** The whole run *)

Definition final_size (j : nat) (f : afile) : Z :=
  let n := Z.of_nat (length (a_data f)) in if (j =? 0)%nat then (n / 512 + 1) * 512 else n.
Definition final_inode (j : nat) (f : afile) : dinode := mk (Dinode (ftype j) 0 0 1 (final_size j f) []) f.

(** The image when mkfs is done. *)
Record made (g : image) (fs : list afile) : Prop := {
  md_img : img g fs;
  md_sized : Forall sized fs;
  md_room : g_freeblock g <= 1014;
  md_inode : forall j f, fs !! j = Some f -> disk_inode (view g) (Z.of_nat j + 1) = final_inode j f;
  md_free : forall n, Z.of_nat (length fs) < n < 200 -> di_type (disk_inode (view g) n) = 0;
  md_sb : view g 1 = sb_bytes;
  md_map : view g 28 = used_bits (Z.to_nat (g_freeblock g))
}.

Lemma length_used_bits n : length (used_bits n) = 512%nat.
Proof.
  unfold used_bits. generalize (seq 0 n). intros l. assert (length (replicate 512 0) = 512%nat) as H by done.
  revert H. generalize (replicate 512 0). induction l as [|i l IH]; intros d Hd; [done|]. cbn. apply IH. by rewrite length_insert.
Qed.

Definition finish : I unit :=
  din <- rinode ROOTINO ;;
  let off := xint (di_size din) in
  let off := (off / BSIZE + 1) * BSIZE in
  winode ROOTINO (Dinode (di_type din) (di_major din) (di_minor din) (di_nlink din) (xint off) (di_addrs din)) ;;
  used <- gets g_usedblocks ;;
  balloc used.

Lemma finish_made g fs f :
  laid g fs -> fs !! 0%nat = Some f -> (length (a_data f) < 140 * 512)%nat -> g_freeblock g <= 1014 ->
  runs finish g (fun _ g' => made g' fs).
Proof.
  intros Hd Hf Hlen Hfb. pose proof (dsk_img _ _ Hd) as Hi. pose proof (dsk_next _ _ Hd) as Hn. pose proof (im_free _ _ Hi).
  unfold finish. eapply runs_eq; [exact (rinode_disk g fs 0 f Hd Hf)|]. cbv zeta. cbn [inode_for mk di_size di_type di_major di_minor di_nlink di_addrs].
  assert (0 <= Z.of_nat (length (a_data f)) / 512 < 140) by (split; [apply Z.div_pos|apply Z.div_lt_upper_bound]; lia).
  unfold BSIZE. rewrite !xint_small by (rewrite ?xint_small; lia).
  change (Dinode _ _ _ _ _ _) with (final_inode 0 f).
  destruct (winode_eq g fs ROOTINO (final_inode 0 f) Hi) as (Ew & Hiw & Hsame & Hother & Hlow); [unfold ROOTINO; lia| |].
  { split; [by split..| |split; [apply length_addrs|eapply addrs_range; [exact Hi|done|lia]]].
    cbn [final_inode mk di_size]. unfold final_size. cbn [Nat.eqb]. lia. }
  eapply runs_eq; [exact Ew|]. set (gw := gset_sect _ _) in *. eapply runs_eq; [done|]. cbn [gw gset_sect g_usedblocks].
  rewrite (im_used _ _ Hi). unfold balloc, check. rewrite (proj2 (Z.ltb_lt _ _)) by lia. eapply runs_eq; [done|].
  change (ninodes / IPB + 3) with 28. apply runs_modify. set (g' := gset_sect _ gw).
  assert (forall sec, sec <> 28 -> view g' sec = view gw sec) as Hv.
  { intros sec Hs. unfold g'. rewrite view_wsect. by apply upd_ne. }
  assert (forall n, 0 <= n < 200 -> disk_inode (view g') n = disk_inode (view gw) n) as Hv'.
  { intros n Hr. unfold disk_inode. rewrite Hv; [done|]. pose proof (iblock_range n Hr). unfold iblock. change (IBLOCK n) with (i2b n). lia. }
  split.
  - apply img_low; [done|lia|apply length_used_bits].
  - apply Hd.
  - done.
  - intros j h Hj. apply lookup_lt_Some in Hj as Hjl. pose proof (dsk_max _ _ Hd). rewrite Hv' by lia.
    destruct (decide (j = 0%nat)) as [->|Hne].
    + rewrite Hf in Hj. injection Hj as <-. exact Hsame.
    + unfold ROOTINO in *. rewrite Hother by lia. rewrite (dsk_inode _ _ Hd j h Hj). unfold final_inode, final_size.
      by rewrite (proj2 (Nat.eqb_neq _ _) Hne).
  - intros n Hr. rewrite Hv' by lia. unfold ROOTINO in *. apply lookup_lt_Some in Hf as Hf0. rewrite Hother by lia. apply (dsk_free _ _ Hd). lia.
  - rewrite Hv, Hlow by lia. apply Hd.
  - unfold g'. rewrite view_wsect, upd_eq. done.
Qed.

Lemma mkfs_made files :
  fits files ->
  runs (mkfs files) empty_image (fun _ g => exists fs, made g fs /\ map a_data fs = root_data files :: map snd files).
Proof.
  intros (Hn & Hok & Htot). unfold mkfs. cbv zeta. 
  change (ninodes / IPB + 3 + (fs_size / (512 * 8) + 1)) with 29. change (fs_size / (512 * 8) + 1) with 1.
  eapply runs_eq; [done|]. eapply runs_eq; [done|]. change (Z.to_nat _) with 1024%nat. cbn [g_sect empty_image].
  destruct (zero_sects (seq 0 1024) (Image ∅ 29 29 1 1)) as (m & E & Hm). eapply runs_eq; [exact E|].
  fold sb_bytes. eapply runs_eq; [done|].
  assert (holds (Image (<[1 := sb_bytes]> m) 29 29 1 1) []) as Hh0.
  { exists []. split; [|done]. apply start_laid. intros sec Hs. specialize (Hm (Z.to_nat sec)).
    rewrite Z2Nat.id in Hm by lia. rewrite Hm, decide_True; [done|]. apply elem_of_seq. lia. }
  destruct (ialloc_holds _ _ Hh0) as (g1 & E1 & Hh1); [cbn; lia|]. eapply runs_eq; [exact E1|]. eapply runs_eq; [done|].
  destruct (add_entry_holds g1 [] [] 1 [46] Hh1) as (g2 & E2 & Hh2); [cbn [length]; lia|vm_compute; lia|].
  eapply runs_eq; [exact E2|].
  destruct (add_entry_holds g2 _ [] 1 [46; 46] Hh2) as (g3 & E3 & Hh3); [rewrite length_app, length_entry; cbn [length]; lia|vm_compute; lia|].
  eapply runs_eq; [exact E3|].
  pose proof (length_root_data files) as Hrl.
  destruct (add_files_holds files g3 _ [] Hh3) as (g4 & E4 & Hh4); [cbn [length]; lia|done| |done|].
  { rewrite !length_app, !length_entry. cbn [length]. lia. }
  eapply runs_eq; [exact E4|]. destruct Hh4 as (fs & Hd & Hfs). destruct fs as [|f fs]; [done|]. pose proof Hfs as [= Hf0 _].
  eapply runs_mono; [apply (finish_made g4 (f :: fs) f Hd eq_refl)|].
  - assert (a_data f = root_data files) as -> by exact Hf0. lia.
  - rewrite (disk_freeblock _ _ Hd), Hfs. change (total _) with (total (root_data files :: map snd files)). lia.
  - intros [] g' Hmd. exists (f :: fs). split; [exact Hmd|exact Hfs].
Qed.

(** ** What the kernel makes of it *)

Lemma bit_used_bits n b : (n <= 4096)%nat -> bit_set (used_bits n) b = bool_decide (b < n)%nat.
Proof.
  intros Hn. induction n as [|n IH]; [unfold used_bits; cbn [seq foldl]|].
  - rewrite bool_decide_eq_false_2 by lia. unfold bit_set, byte_at. destruct (decide (b / 8 < 512)%nat).
    + by rewrite lookup_replicate_2.
    + by rewrite lookup_ge_None_2 by (rewrite length_replicate; lia).
  - assert (used_bits (S n) = set_bit (used_bits n) n) as ->.
    { unfold used_bits. rewrite seq_S, foldl_app. done. }
    rewrite bit_set_set, IH by (rewrite ?length_used_bits; apply Nat.Div0.div_lt_upper_bound || idtac; lia).
    destruct (decide (b = n)) as [E|E]; [symmetry; apply bool_decide_eq_true_2; lia|].
    apply bool_decide_ext. lia.
Qed.

Section kernel.
Context (g : image) (fs : list afile) (s : kstate).
Context (Hm : made g fs) (Hst : l_start (k_log s) = 1014).

Lemma made_sb : sb_of (view g) = Superblock 1024 985 200 10.
Proof using Hm. unfold sb_of. rewrite (md_sb _ _ Hm). vm_compute. reflexivity. Qed.

Lemma made_bitmap b : 0 <= b < 1024 -> bitmap_block (view g) b = 28.
Proof using Hm.
  intros Hb. unfold bitmap_block. rewrite made_sb. cbn [sb_ninodes]. unfold BBLOCK. change (200 / IPB) with 25.
  unfold BPB, BSIZE. rewrite Z.div_small; lia.
Qed.

Lemma made_used b : 0 <= b < 1024 -> used (view g) b = bool_decide (b < g_freeblock g).
Proof using Hm.
  intros Hb. unfold used. rewrite made_bitmap, (md_map _ _ Hm) by done. pose proof (md_room _ _ Hm).
  rewrite bit_used_bits by lia. unfold BPB, BSIZE. rewrite Z.mod_small by lia. apply bool_decide_ext. lia.
Qed.

Lemma made_len x : 0 <= x < 1024 -> length (view g x) = 512%nat.
Proof using Hm. intros Hx. by apply (rsect_eq g fs x (md_img _ _ Hm)). Qed.

Lemma made_data_start : data_start (view g) = 29.
Proof using Hm. unfold data_start. rewrite made_sb, made_bitmap; cbn; lia. Qed.

Lemma made_free_map : free_map_ok s (view g).
Proof using Hm Hst.
  pose proof (im_free _ _ (md_img _ _ Hm)). split; [split|..]; rewrite ?Hst, ?made_data_start, ?made_sb; cbn [sb_size sb_ninodes sb_nlog]; try lia.
  - rewrite made_bitmap; lia.
  - intros x Hx. apply made_len. unfold home in Hx. lia.
  - intros x Hx. rewrite made_used by lia. apply bool_decide_eq_true_2. lia.
Qed.

Lemma made_own b : 29 <= b < g_freeblock g -> own_block s (view g) b.
Proof using Hm Hst.
  intros Hb. pose proof (md_room _ _ Hm). split; [unfold data_block; rewrite made_data_start, Hst; lia|].
  rewrite made_used by lia. apply bool_decide_eq_true_2. lia.
Qed.

Context (j : nat) (f : afile) (i : inode) (Hj : fs !! j = Some f) (Hdev : i_dev i = ROOTDEV).
Context (Hi : dinode_of i = disk_inode (view g) (Z.of_nat j + 1)).

Lemma made_fields : i_type i = ftype j /\ i_size i = final_size j f /\ i_addrs i = addrs f.
Proof using Hm Hj Hi. rewrite (md_inode _ _ Hm j f Hj) in Hi. by injection Hi as -> _ _ _ -> ->. Qed.

(** Slot 12 is the indirect block; the others are the blocks of the file in order. *)
Lemma made_slot n :
  (n < nslots)%nat -> slot (view g) i n = if decide (n = 12)%nat then a_ib f else default 0 (a_bl f !! (if (n <? 12)%nat then n else n - 1)%nat).
Proof using Hm Hj Hi.
  destruct made_fields as (_ & _ & Ha). intros Hn. unfold slot, ind_block, nslots in *. rewrite Ha, lookup_addrs_ib.
  cbn [default from_option id]. pose proof (ar_ind _ _ (file_rep g fs j f (md_img _ _ Hm) Hj)) as Hind.
  case_decide as E; [subst; cbn [Nat.ltb Nat.leb]; by rewrite lookup_addrs_ib|].
  destruct (Nat.ltb_spec n 13), (Nat.ltb_spec n 12); try lia; [by rewrite lookup_addrs|].
  destruct (Nat.leb_spec (length (a_bl f)) 12).
  - rewrite Hind. cbn [Z.eqb]. by rewrite lookup_ge_None_2 by lia.
  - destruct Hind as (Hnz & _ & Hg). rewrite (proj2 (Z.eqb_neq _ _)) by done. rewrite Hg by lia. do 2 f_equal. lia.
Qed.

Lemma made_file_ok : file_ok s (view g) i.
Proof using Hm Hst Hj Hi Hdev.
  pose proof (md_img _ _ Hm) as Himg. pose proof (nodup_blocks g fs j f Himg Hj) as Hnd.
  apply NoDup_app in Hnd as (_ & Hib & Hnd).
  assert (forall k, a_ib f <> 0 -> default 0 (a_bl f !! k) <> a_ib f) as Hne.
  { intros k Hn E. apply (Hib (a_ib f)); [rewrite (proj2 (Z.eqb_neq _ _)) by done; left|].
    destruct (a_bl f !! k) eqn:Ek; [|done]. cbn in E. subst. by eapply list_elem_of_lookup_2. }
  split; [done|destruct made_fields as (_ & _ & ->); apply length_addrs| |].
  - intros n Hn. rewrite made_slot by done. case_decide.
    + intros Hnz. by apply made_own, (ib_block g fs j f Himg Hj).
    + destruct (a_bl f !! _) as [b|] eqn:Eb; [|done]. intros _. by apply made_own, (bl_block g fs j f Himg Hj _ _ Eb).
  - intros n m Hn Hk. rewrite !made_slot by done. repeat case_decide; try congruence.
    + intros E Hnz. exfalso. by eapply Hne.
    + intros E Hnz. exfalso. rewrite E in Hnz. by eapply Hne.
    + destruct (a_bl f !! _) as [b|] eqn:Eb; [|done]. destruct (a_bl f !! (if (m <? 12)%nat then _ else _)) as [c|] eqn:Ec.
      2: { intros -> Hnz. done. }
      cbn [default from_option id]. intros -> _. pose proof (NoDup_lookup _ _ _ _ Hnd Eb Ec).
      destruct (Nat.ltb_spec n 12), (Nat.ltb_spec m 12); lia.
Qed.

Lemma made_baddr bn : 0 <= bn < 140 -> baddr (view g) i bn = default 0 (a_bl f !! Z.to_nat bn).
Proof using Hm Hj Hi.
  intros Hb. unfold baddr, bslot, NDIRECT. destruct (Z.ltb_spec bn 12).
  - rewrite made_slot by (unfold nslots; lia). rewrite decide_False by lia. by rewrite (proj2 (Nat.ltb_lt _ _)) by lia.
  - rewrite made_slot by (unfold nslots; lia). rewrite decide_False by lia. rewrite (proj2 (Nat.ltb_ge _ _)) by lia.
    do 2 f_equal. lia.
Qed.

Lemma made_block x : (x < 512 * length (a_bl f))%nat -> (x < 140 * 512)%nat ->
  exists b, a_bl f !! (x / 512)%nat = Some b /\ baddr (view g) i (Z.of_nat x / BSIZE) = b.
Proof using Hm Hj Hi.
  intros Hx Hmax. divs x. destruct (lookup_lt_is_Some_2 (a_bl f) (x / 512)) as [b Hb]; [lia|]. exists b. split; [done|].
  unfold BSIZE. change 512 with (Z.of_nat 512). rewrite <- Nat2Z.inj_div, made_baddr by lia. by rewrite Nat2Z.id, Hb.
Qed.

(** The bytes of the file, and zeroes to the end of its last block. *)
Lemma made_fbyte x : (x < 512 * length (a_bl f))%nat -> (x < 140 * 512)%nat ->
  fbyte (view g) i (Z.of_nat x) = byte_at (a_data f) x.
Proof using Hm Hj Hi.
  intros Hx Hmax. destruct (made_block x Hx Hmax) as (b & Hb & Eb). unfold fbyte. rewrite Eb.
  rewrite (ar_chunk _ _ (file_rep g fs j f (md_img _ _ Hm) Hj) _ _ Hb). divs x.
  unfold BSIZE. change 512 with (Z.of_nat 512). rewrite <- Nat2Z.inj_mod, Nat2Z.id. unfold byte_at, pad.
  assert (length (chunk (x / 512) (a_data f)) = Nat.min 512 (length (a_data f) - 512 * (x / 512))) as Hl
    by (unfold chunk; by rewrite length_take, length_drop).
  destruct (decide (x < length (a_data f))%nat).
  - rewrite lookup_app_l by lia. unfold chunk. rewrite lookup_take_lt, lookup_drop by lia. do 2 f_equal. lia.
  - rewrite lookup_app_r, lookup_replicate_2, (lookup_ge_None_2 (a_data f)) by lia. done.
Qed.

Lemma made_cap : (length (a_data f) <= 512 * length (a_bl f))%nat /\ (length (a_data f) <= 140 * 512)%nat.
Proof using Hm Hj. pose proof (file_rep g fs j f (md_img _ _ Hm) Hj) as Hrep. split; apply Hrep. Qed.

(** Reading inside the bytes the file was made of gives them back. *)
Lemma made_bytes off n :
  (off + n <= length (a_data f))%nat -> file_bytes (view g) i (Z.of_nat off) n = take n (drop off (a_data f)).
Proof using Hm Hj Hi.
  intros Hn. destruct made_cap. apply list_eq. intros k. unfold file_bytes. destruct (decide (k < n)%nat) as [Hk|Hk].
  - rewrite list_lookup_fmap, lookup_seq_lt by done. cbn [fmap option_fmap option_map]. rewrite Nat.add_0_l.
    rewrite <- Nat2Z.inj_add, made_fbyte by lia. rewrite lookup_take_lt, lookup_drop by done. unfold byte_at.
    destruct (lookup_lt_is_Some_2 (a_data f) (off + k)) as [v ->]; [lia|]. done.
  - rewrite !lookup_ge_None_2; [done| |]; rewrite ?length_take, ?length_drop, ?length_map, ?length_seq; lia.
Qed.

Lemma made_regular :
  (length (a_data f) mod 512 <> 0)%nat \/ j <> 0%nat -> regular s (view g) i.
Proof using Hm Hst Hj Hi Hdev.
  intros Hne. destruct made_fields as (Ht & Hs & _). destruct made_cap as [Hcap Hmax].
  pose proof (Forall_lookup_1 _ _ _ _ (md_sized _ _ Hm) Hj) as Hsz. unfold sized in Hsz.
  divs (length (a_data f)). divs (length (a_data f) + 511)%nat.
  assert (0 <= i_size i <= 512 * Z.of_nat (length (a_bl f)) /\ i_size i <= 140 * 512) as [Hs1 Hs2].
  { rewrite Hs. unfold final_size. change 512 with (Z.of_nat 512). rewrite <- Nat2Z.inj_div. destruct (Nat.eqb_spec j 0); lia. }
  split.
  - rewrite Ht. unfold ftype. by destruct (_ =? _)%nat.
  - apply made_file_ok.
  - unfold MAXFILE, NDIRECT, NINDIRECT, BSIZE. lia.
  - intros x Hx. destruct (made_block (Z.to_nat x)) as (b & Hb & Eb); [lia..|].
    rewrite Z2Nat.id in Eb by lia. rewrite Eb. pose proof (bl_block g fs j f (md_img _ _ Hm) Hj _ _ Hb). lia.
Qed.
End kernel.

(** ** The root directory *)

Fixpoint entry_list (inum : Z) (files : list (list Z * list Z)) : list (list Z) :=
  match files with [] => [] | f :: r => entry inum (strip_fs (fst f)) :: entry_list (inum + 1) r end.
Definition root_entries (files : list (list Z * list Z)) : list (list Z) :=
  entry 1 [46] :: entry 1 [46; 46] :: entry_list 2 files.

Lemma root_data_entries files : root_data files = concat (root_entries files).
Proof.
  unfold root_data, root_entries. cbn [concat]. rewrite <- app_assoc. do 2 f_equal.
  generalize 2. induction files as [|f r IH]; intros n; cbn; [done|by rewrite IH].
Qed.

Lemma length_root_entries files : length (root_entries files) = (2 + length files)%nat.
Proof. cbn. do 2 f_equal. generalize 2. induction files as [|f r IH]; intros n; cbn; [done|by rewrite IH]. Qed.

Lemma root_entries_16 files : Forall (fun e => length e = 16%nat) (root_entries files).
Proof.
  constructor; [apply length_entry|constructor; [apply length_entry|]]. generalize 2.
  induction files as [|f r IH]; intros n; constructor; [apply length_entry|apply IH].
Qed.

Lemma concat_16 (l : list (list Z)) k e :
  Forall (fun e => length e = 16%nat) l -> l !! k = Some e -> take 16 (drop (16 * k) (concat l)) = e.
Proof.
  intros Hl. revert k. induction Hl as [|x l Hx Hl IH]; intros k Hk; [done|]. destruct k as [|k].
  - injection Hk as ->. cbn [concat]. rewrite Nat.mul_0_r, drop_0, take_app_le by lia. rewrite take_ge by lia. done.
  - cbn [concat]. rewrite drop_app_ge by lia. replace (16 * S k - length x)%nat with (16 * k)%nat by lia. by apply IH.
Qed.

(** The name the directory has for a file: what is left of the path without [fs/], up to fourteen bytes. *)
Definition stored_name (f : list Z * list Z) : list Z := cstr DIRSIZ (strip_fs (fst f) ++ [0]).
Definition distinct_names (files : list (list Z * list Z)) : Prop := NoDup ([46] :: [46; 46] :: map stored_name files).

Lemma entry_parts inum name :
  0 < inum < 65536 -> de_inum (entry inum name) = inum /\ cstr DIRSIZ (de_name (entry inum name)) = cstr DIRSIZ (name ++ [0]).
Proof.
  intros Hi. split.
  - assert (forall l, get16 (le16 inum ++ l) 0 = inum) as Hg.
    { intros l. unfold get16, le16. cbn. rewrite (Z.mod_small (inum / 256)) by (split; [apply Z.div_pos; lia|apply Z.div_lt_upper_bound; lia]).
      pose proof (Z.div_mod inum 256 ltac:(lia)). lia. }
    unfold de_inum, entry, xshort. rewrite <- (app_nil_r (le16 inum)), Hg. apply Hg.
  - change (de_name (entry inum name)) with (padded DIRSIZ (name ++ [0])).
    rewrite <- (app_nil_r (padded _ _)). apply cstr_padded.
Qed.

Lemma find_entry name e inum nm es k :
  e = entry inum nm -> 0 < inum < 65536 ->
  find_name name (e :: es) k = if decide (cstr DIRSIZ (nm ++ [0]) = cstr DIRSIZ name) then Some (k, inum) else find_name name es (S k).
Proof.
  intros -> Hi. destruct (entry_parts inum nm Hi) as [E1 E2]. cbn [find_name]. unfold has_name, in_use. rewrite E1, E2.
  rewrite (proj2 (Z.eqb_neq inum 0)) by lia. cbn [negb andb]. by case_bool_decide; case_decide.
Qed.

Lemma find_entry_list files : forall name k f inum pos,
  NoDup (map stored_name files) -> files !! k = Some f -> cstr DIRSIZ name = stored_name f ->
  0 < inum -> inum + Z.of_nat (length files) < 65536 ->
  find_name name (entry_list inum files) pos = Some ((pos + k)%nat, inum + Z.of_nat k).
Proof.
  induction files as [|f0 r IH]; intros name k f inum pos Hnd Hk Hn Hi Hb; [done|]. cbn [map] in Hnd.
  apply NoDup_cons in Hnd as [Hnot Hnd]. cbn [entry_list length] in *. rewrite (find_entry name _ inum (strip_fs (fst f0))) by (done || lia).
  change (cstr DIRSIZ (strip_fs (fst f0) ++ [0])) with (stored_name f0). rewrite Hn. destruct k as [|k].
  - injection Hk as ->. rewrite decide_True by done. do 2 f_equal; lia.
  - cbn in Hk. rewrite decide_False.
    + rewrite (IH name k f (inum + 1) (S pos)) by (done || lia). do 2 f_equal; lia.
    + intros E. apply Hnot. rewrite E. apply list_elem_of_In, in_map, list_elem_of_In. by eapply list_elem_of_lookup_2.
Qed.

(** With distinct names every file is found under its own inode. *)
Lemma root_own files name k f :
  distinct_names files -> (length files <= 198)%nat -> files !! k = Some f -> cstr DIRSIZ name = stored_name f ->
  find_name name (root_entries files) 0 = Some ((2 + k)%nat, 2 + Z.of_nat k).
Proof.
  unfold distinct_names. rewrite !NoDup_cons, not_elem_of_cons. intros ((_ & H1) & H2 & Hnd) Hl Hk Hn. unfold root_entries.
  assert (stored_name f ∈ map stored_name files) as Hin.
  { apply list_elem_of_In, in_map, list_elem_of_In. by eapply list_elem_of_lookup_2. }
  rewrite (find_entry name _ 1 [46]) by (done || lia). rewrite decide_False by (rewrite Hn; intros E; apply H1; change ([46] = stored_name f) in E; by rewrite E).
  rewrite (find_entry name _ 1 [46; 46]) by (done || lia). rewrite decide_False by (rewrite Hn; intros E; apply H2; change ([46; 46] = stored_name f) in E; by rewrite E).
  apply (find_entry_list files name k f); [done|done|done|lia|lia].
Qed.

(** Names of bytes. *)
Definition names_ok (files : list (list Z * list Z)) : Prop := Forall (fun f => Forall is_byte (fst f)) files.

Lemma entry_bytes inum name : Forall is_byte name -> Forall is_byte (entry inum name).
Proof.
  intros Hn. unfold entry. apply Forall_app. split.
  - unfold is_byte. constructor; [|constructor; [|done]]; apply Z.mod_pos_bound; lia.
  - apply padded_bytes. apply Forall_app. split; [done|]. constructor; [unfold is_byte; lia|done].
Qed.

Lemma root_data_bytes files : names_ok files -> Forall is_byte (root_data files).
Proof.
  intros Hn. unfold root_data. apply Forall_app. split.
  { apply Forall_app. split; apply entry_bytes; repeat constructor; unfold is_byte; lia. }
  generalize 2. induction Hn as [|f r Hf _ IH]; intros n; [constructor|]. cbn [entries]. apply Forall_app. split; [|done].
  apply entry_bytes. unfold strip_fs. case_bool_decide; [by apply Forall_drop|done].
Qed.

Section root.
Context (g : image) (fs : list afile) (s : kstate) (files : list (list Z * list Z)) (i : inode).
Context (Hm : made g fs) (Hst : l_start (k_log s) = 1014) (Hfs : map a_data fs = root_data files :: map snd files).
Context (Hdev : i_dev i = ROOTDEV) (Hi : dinode_of i = disk_inode (view g) ROOTINO).
Context (Hnames : names_ok files) (Hpart : (length files mod 32 <> 30)%nat).

Lemma root_file : exists f, fs !! 0%nat = Some f /\ a_data f = root_data files.
Proof using Hfs. clear - Hfs. destruct fs as [|f r]; [done|]. exists f. by injection Hfs. Qed.

Lemma root_partial : (length (root_data files) mod 512 <> 0)%nat.
Proof using Hpart.
  rewrite length_root_data. pose proof (Nat.div_mod_eq (length files) 32).
  pose proof (Nat.mod_upper_bound (length files) 32 ltac:(lia)). divs (32 + 16 * length files)%nat. lia.
Qed.

(** The size is that of the blocks, so the directory goes on with unused entries. *)
Lemma root_size :
  exists f, fs !! 0%nat = Some f /\ a_data f = root_data files /\ i_size i = 512 * Z.of_nat (length (a_bl f))
    /\ (length (a_bl f) <= 140)%nat.
Proof using Hm Hfs Hi Hpart.
  destruct root_file as (f & Hf & Hd). exists f. split; [done|]. split; [done|].
  destruct (made_fields g fs Hm 0 f i Hf Hi) as (_ & -> & _). unfold final_size. cbn [Nat.eqb].
  pose proof (Forall_lookup_1 _ _ _ _ (md_sized _ _ Hm) Hf) as Hsz. unfold sized in Hsz. destruct (made_cap g fs Hm 0 f Hf) as [Hc1 Hc2].
  pose proof root_partial as Hp. rewrite <- Hd in Hp. divs (length (a_data f)). divs (length (a_data f) + 511)%nat.
  change 512 with (Z.of_nat 512). rewrite <- Nat2Z.inj_div. lia.
Qed.

Lemma root_byte x : 0 <= x < i_size i -> fbyte (view g) i x = byte_at (root_data files) (Z.to_nat x).
Proof using Hm Hfs Hi Hpart.
  intros Hx. destruct root_size as (f & Hf & Hd & Hs & Hl). rewrite <- Hd.
  rewrite <- (made_fbyte g fs Hm 0 f i Hf Hi) by lia. f_equal. lia.
Qed.

Lemma root_dir_ok : dir_ok s (view g) i.
Proof using Hm Hst Hfs Hi Hdev Hpart Hnames.
  destruct root_size as (f & Hf & Hd & Hs & Hl). split.
  - destruct (made_fields g fs Hm 0 f i Hf Hi) as (-> & _ & _). done.
  - apply (made_regular g fs s Hm Hst 0 f i Hf Hdev Hi). left. rewrite Hd. apply root_partial.
  - rewrite Hs. replace (512 * _) with ((32 * Z.of_nat (length (a_bl f))) * 16) by lia. apply Z.mod_mul. lia.
  - intros x Hx. rewrite root_byte by done. unfold byte_at. destruct (root_data files !! Z.to_nat x) eqn:E; [|cbn; unfold is_byte; lia].
    by apply (Forall_lookup_1 _ _ _ _ (root_data_bytes _ Hnames) E).
Qed.

Lemma root_dir_entries : exists n, dir_entries (view g) i = root_entries files ++ replicate n (replicate 16 0).
Proof using Hm Hfs Hi Hpart.
  destruct root_size as (f & Hf & Hd & Hs & Hl). destruct (made_cap g fs Hm 0 f Hf) as [Hc1 Hc2].
  rewrite Hd, length_root_data in Hc1, Hc2.
  assert (dir_len i = 32 * length (a_bl f))%nat as Hdl.
  { unfold dir_len. rewrite Hs. replace (512 * _) with ((32 * Z.of_nat (length (a_bl f))) * 16) by lia. rewrite Z.div_mul; lia. }
  pose proof (length_root_entries files) as Hrl. exists (dir_len i - length (root_entries files))%nat.
  apply list_eq. intros k. destruct (decide (k < dir_len i)%nat) as [Hk|Hk].
  2: { rewrite !lookup_ge_None_2; [done| |]; rewrite ?length_app, ?length_replicate, ?length_dir_entries; lia. }
  rewrite lookup_dir_entries by done. destruct (decide (k < length (root_entries files))%nat) as [Hke|Hke].
  - rewrite lookup_app_l by done. destruct (lookup_lt_is_Some_2 _ _ Hke) as [e He]. rewrite He. f_equal. unfold dir_entry.
    replace (16 * Z.of_nat k) with (Z.of_nat (16 * k)) by lia.
    rewrite (made_bytes g fs Hm 0 f i Hf Hi) by (rewrite Hd, length_root_data; lia).
    rewrite Hd, root_data_entries. apply concat_16; [apply root_entries_16|done].
  - rewrite lookup_app_r, lookup_replicate_2 by lia. f_equal. unfold dir_entry, file_bytes.
    apply list_eq. intros m. destruct (decide (m < 16)%nat) as [Hm16|Hm16].
    + rewrite list_lookup_fmap, lookup_seq_lt, lookup_replicate_2 by done. cbn [fmap option_fmap option_map]. f_equal.
      rewrite root_byte by lia. unfold byte_at. rewrite lookup_ge_None_2; [done|]. rewrite length_root_data. lia.
    + rewrite !lookup_ge_None_2; [done| |]; rewrite ?length_map, ?length_seq, ?length_replicate; lia.
Qed.

Lemma root_find name : find_name name (dir_entries (view g) i) 0 = find_name name (root_entries files) 0.
Proof using Hm Hfs Hi Hpart.
  destruct root_dir_entries as [n ->]. rewrite find_name_app. destruct (find_name name (root_entries files) 0); [done|].
  generalize (0 + length (root_entries files))%nat. induction n as [|n IH]; intros k; cbn [replicate find_name]; [done|]. apply IH.
Qed.
End root.

(** ** Properties *)

Lemma made_booted g fs : made g fs -> idle (booted (Disk (g_sect g) 1024 []) 1014 10) (view g).
Proof.
  intros Hm. apply (booted_idle (Disk (g_sect g) 1024 [])); cbn [d_size]; try lia.
  - apply (made_len g fs Hm).
  - change (dblk _ 1014) with (view g 1014). rewrite (im_zero _ _ (md_img _ _ Hm)); [done|]. pose proof (md_room _ _ Hm). lia.
Qed.

Section theorems.
Context {drv : DiskDriver} (dv : devsw).

(** C15. mkfs, given files that fit, makes an image that the kernel reads. The superblock describes it, and a kernel that
    boots from it finds an empty log. The bitmap marks exactly the blocks in use, all before the log; it does not
    mark the log. Every file has the inode after that of the file before it, and [readi] at any offset of that inode
    returns the bytes the file was made of. *)
Theorem mkfs_readable files :
  fits files ->
  exists g, mkfs files empty_image = Ret tt g /\
    sb_of (view g) = Superblock 1024 985 200 10 /\ idle (booted (Disk (g_sect g) 1024 []) 1014 10) (view g) /\
    (g_usedblocks g <= 1014 /\ forall b, 0 <= b < 1024 -> used (view g) b = bool_decide (b < g_usedblocks g)) /\
    forall F s ip i j path data off n (len := Z.of_nat (length data)),
      l_start (k_log s) = 1014 -> txf F s (view g) [] -> k_inodes s !! ip = Some i -> i_dev i = ROOTDEV ->
      files !! j = Some (path, data) -> dinode_of i = disk_inode (view g) (Z.of_nat j + 2) ->
      0 <= off <= len -> 0 <= n -> off + n < 4294967296 ->
      i_type i = T_FILE /\ i_nlink i = 1 /\ i_size i = len /\
      runs (readi dv ip off n) s (fun r s' =>
        r = (Z.min n (len - off), take (Z.to_nat n) (drop (Z.to_nat off) data)) /\ txf F s' (view g) []).
Proof.
  intros Hfits. destruct (mkfs_made files Hfits) as ([] & g & E & fs & Hm & Hfs). exists g. split; [done|].
  pose proof (md_img _ _ Hm) as Hi. rewrite (im_used _ _ Hi).
  split; [by eapply made_sb|]. split; [by eapply made_booted|]. split; [split; [apply Hm|by apply (made_used g fs)]|].
  intros F s ip i j path data off n len Hst Hx Hip Hdev Hj Hd Hoff Hn Hsum.
  destruct (fs !! S j) as [f|] eqn:Hf.
  2: { apply (f_equal length) in Hfs. apply lookup_ge_None in Hf. apply lookup_lt_Some in Hj. cbn in Hfs. rewrite !length_map in Hfs. lia. }
  assert (a_data f = data) as Hdata.
  { assert (map a_data fs !! S j = Some data) as Hk.
    { rewrite Hfs. change (map snd files !! j = Some data). by rewrite list_lookup_fmap, Hj. }
    rewrite list_lookup_fmap, Hf in Hk. by injection Hk. }
  replace (Z.of_nat j + 2) with (Z.of_nat (S j) + 1) in Hd by lia.
  pose proof (md_inode _ _ Hm (S j) f Hf) as Hino. rewrite <- Hd in Hino.
  assert (i_size i = len) as Hsz by (unfold len; rewrite <- Hdata; exact (f_equal di_size Hino)).
  split; [exact (f_equal di_type Hino)|]. split; [exact (f_equal di_nlink Hino)|]. split; [done|].
  eapply runs_mono; [apply (readi_txf F dv s (view g) ip i off n Hx Hip)|].
  - apply (made_regular g fs s Hm Hst (S j) f i Hf Hdev Hd). by right.
  - by apply (made_free_map g fs).
  - lia.
  - lia.
  - intros r s' (-> & Hx' & _). split; [|done]. unfold read_result. rewrite Hsz, u32_small by lia.
    rewrite !(proj2 (Z.ltb_ge _ _)) by lia. cbn [orb]. cbv zeta. f_equal.
    rewrite <- (Z2Nat.id off) at 1 by lia. rewrite (made_bytes g fs Hm (S j) f i Hf Hd) by (rewrite Hdata; lia). rewrite Hdata.
    destruct (decide (n <= len - off)); [by rewrite Z.min_l by lia|]. rewrite !take_ge; [done|rewrite length_drop; lia..].
Qed.

(** C7. The root directory of the image, for files that fit the disk and whose number is not 30 above a multiple of 32 (with
    30, 62, ... files the entries fill their blocks, and the size mkfs stores covers a block that the directory does not
    have): [dirlookup] of the kernel finds exactly what the list of entries mkfs wrote says, "." and ".." first, and a name
    that is not in the list is not found. If the names, cut to fourteen bytes, are distinct and none of them is "."
    or "..", each file is found, in the entry of its position and with the inode of its position; of files with equal
    names the first is found. *)
Theorem mkfs_lookup files :
  fits files -> names_ok files -> (length files mod 32 <> 30)%nat ->
  exists g, mkfs files empty_image = Ret tt g /\
    (forall name k f, distinct_names files -> files !! k = Some f -> cstr DIRSIZ name = stored_name f ->
       find_name name (root_entries files) 0 = Some ((2 + k)%nat, 2 + Z.of_nat k)) /\
    forall F s dp i name,
      l_start (k_log s) = 1014 -> txf F s (view g) [] -> k_inodes s !! dp = Some i -> i_dev i = ROOTDEV ->
      dinode_of i = disk_inode (view g) ROOTINO -> name_ok name -> LIcache ∉ k_held s ->
      match find_name name (root_entries files) 0 with
      | Some (k, inum) => forall j l, iget_result ROOTDEV inum (k_inodes s) = Some (j, l) ->
          runs (dirlookup dv dp name) s (fun r s' => r = Some (j, 16 * Z.of_nat k) /\ k_inodes s' = l /\ txf F s' (view g) [])
      | None => runs (dirlookup dv dp name) s (fun r s' => r = None /\ k_inodes s' = k_inodes s /\ txf F s' (view g) [])
      end.
Proof.
  intros Hfits Hnames Hpart. destruct (mkfs_made files Hfits) as ([] & g & E & fs & Hm & Hfs). exists g. split; [done|].
  split; [intros name k f Hd Hk Hn; apply (root_own files name k f); [done|apply Hfits|done|done]|].
  intros F s dp i name Hst Hx Hdp Hdev Hi Hn Hl.
  pose proof (root_dir_ok g fs s files i Hm Hst Hfs Hdev Hi Hnames Hpart) as Hd.
  rewrite <- (root_find g fs files i Hm Hfs Hi Hpart).
  destruct (find_name name (dir_entries (view g) i) 0) as [[k inum]|] eqn:Ef.
  - intros j l Hr. apply (dirlookup_split dv F s (view g) dp i); [done..|by apply (made_free_map g fs)|done|].
    intros s' Hx' Hf. rewrite Ef, Hdev. cbn [at_entry fmap option_fmap option_map].
    eapply runs_eq; [apply iget_ret; [by rewrite (tframe_held _ _ Hf)|by rewrite (tframe_inodes _ _ Hf)]|].
    apply runs_ret. split_and!; [done|done|]. by apply txf_set_inodes.
  - apply (dirlookup_split dv F s (view g) dp i); [done..|by apply (made_free_map g fs)|done|].
    intros s' Hx' Hf. rewrite Ef. apply runs_ret. split_and!; [done|by apply tframe_inodes|done].
Qed.
End theorems.

(** One file of three bytes. The log's first block is free in the bitmap. *)
Definition cat_file : list (list Z * list Z) := [([102; 115; 47; 99; 97; 116], [1; 2; 3])].

Lemma cat_fits : fits cat_file.
Proof. split; [cbn; lia|]. split; [|vm_compute; lia]. constructor; [|done]. split; [done|cbn [cat_file snd length]; lia]. Qed.

(** The kernel booted from the image, with inode [n] in slot 0 of the inode cache. *)
Definition cached_from (g : image) (n : Z) : inode :=
  load_dinode (disk_inode (view g) n) (Inode ROOTDEV n 1 I_VALID 0 0 0 0 0 []).
Definition kernel_from (g : image) (n : Z) : kstate :=
  set_inodes [cached_from g n; Inode 0 0 0 0 0 0 0 0 0 []] (booted (Disk (g_sect g) 1024 []) 1014 10).

Lemma from_dinode g n : dinode_of (cached_from g n) = disk_inode (view g) n.
Proof. done. Qed.

Lemma kernel_from_txf g n : mkfs cat_file empty_image = Ret tt g -> txf ∅ (kernel_from g n) (view g) [].
Proof.
  intros E. destruct (mkfs_made cat_file cat_fits) as ([] & g' & E' & fs & Hm & _).
  rewrite E in E'. injection E' as <-. apply txf_set_inodes, idle_txf; [by eapply made_booted|done].
Qed.

(** Reading the file from offset 1 gives its last two bytes, and the log's first block is free in the bitmap. *)
Lemma mkfs_readable_witness :
  exists g, mkfs cat_file empty_image = Ret tt g /\ used (view g) 1014 = false /\
    runs (readi (drv := memide) no_dev 0 1 100) (kernel_from g 2) (fun r _ => r = (2, [2; 3])).
Proof.
  destruct (mkfs_readable (drv := memide) no_dev cat_file cat_fits) as (g & E & _ & _ & (Hle & Hu) & Hread).
  exists g. split; [done|]. split; [rewrite Hu by lia; apply bool_decide_eq_false_2; lia|].
  destruct (Hread ∅ (kernel_from g 2) 0%nat (cached_from g 2) 0%nat [102; 115; 47; 99; 97; 116] [1; 2; 3] 1 100) as (_ & _ & _ & Hr);
    [done|by apply kernel_from_txf|done|done|done|apply from_dinode|cbn; lia|lia|lia|].
  eapply runs_mono; [exact Hr|]. by intros r s' [-> _].
Defined.

(** The name "cat" is found at the third entry, with a reference to inode 2. *)
Lemma mkfs_lookup_witness :
  exists g, mkfs cat_file empty_image = Ret tt g /\
    runs (dirlookup (drv := memide) no_dev 0 [99; 97; 116; 0]) (kernel_from g ROOTINO) (fun r _ => r = Some (1%nat, 32)).
Proof.
  destruct (mkfs_lookup (drv := memide) no_dev cat_file cat_fits) as (g & E & Hown & Hfind).
  - repeat constructor; unfold is_byte; lia.
  - done.
  - exists g. split; [done|].
    specialize (Hfind ∅ (kernel_from g ROOTINO) 0%nat (cached_from g ROOTINO) [99; 97; 116; 0] eq_refl
      (kernel_from_txf g ROOTINO E) eq_refl eq_refl (from_dinode g ROOTINO)).
    assert (find_name [99; 97; 116; 0] (root_entries cat_file) 0 = Some (2%nat, 2)) as Ef.
    { apply (Hown _ 0%nat ([102; 115; 47; 99; 97; 116], [1; 2; 3])); [|reflexivity|reflexivity].
      by apply (bool_decide_unpack _). }
    rewrite Ef in Hfind. eapply runs_mono; [apply Hfind; [| |done]|].
    + split; [repeat constructor; unfold is_byte; lia|right; by apply (list_elem_of_lookup_2 _ 3)].
    + by apply not_elem_of_nil.
    + by intros r s' [-> _].
Defined.
