(* ===== verification/Mp.v ===== *)
(** * Finding the processors (kernel/mp.c, kernel/acpi.c)

    The tables are read from physical memory, through the kernel's mapping of it. [cpus] is the list of the APIC
    identifiers found, in order; more than [NCPU] of them are stores past the end of the array. *)

From Stdlib Require Import Ascii String.
From S2P Require Import Prelude Types Monad Sched KString Mem Kalloc Vm Port Print Irq.

Definition NCPU : nat := 8.
Definition MPPROC : Z := 0.
Definition MPBUS : Z := 1.
Definition MPIOAPIC : Z := 2.
Definition MPIOINTR : Z := 3.
Definition MPLINTR : Z := 4.
Definition MPBOOT : Z := 2.
Definition sizeof_mp : Z := 16.
Definition sizeof_mpconf : Z := 44.
Definition sizeof_mpproc : Z := 20.
Definition sizeof_mpioapic : Z := 8.

Section mp.
Context {D : Devices}.

Definition load8 (a : Z) : K Z := l <- load_bytes a 1 ;; ret (le_val l).
Definition load16 (a : Z) : K Z := l <- load_bytes a 2 ;; ret (le_val l).
Definition load32 (a : Z) : K Z := l <- load_bytes a 4 ;; ret (le_val l).

(** [memcmp(a, l, n) == 0]. *)
Definition mem_is (a : Z) (l : list Z) : K bool := r <- load_bytes a (length l) ;; ret (bool_decide (r = l)).

(** ** kernel/mp.c *)

Definition sum (addr : Z) (len : Z) : K Z :=
  l <- load_bytes addr (Z.to_nat len) ;; ret (u8 (foldl Z.add 0 l)).

(** [mpsearch1] from [p]; [n] structures fit in the range. *)
Fixpoint mpsearch1_loop (n : nat) (p : Z) : K (option Z) :=
  match n with
  | O => ret None
  | S n =>
      b <- mem_is p (bytes_of "_MP_") ;;
      c <- (if b then sum p sizeof_mp else ret 1) ;;
      if c =? 0 then ret (Some p) else mpsearch1_loop n (p + sizeof_mp)
  end.
Definition mpsearch1 (a len : Z) : K (option Z) := mpsearch1_loop (Z.to_nat ((len + 15) / 16)) (p2v a).

Definition mpsearch : K (option Z) :=
  let bda := p2v 1024 in
  hi <- load8 (bda + 15) ;;
  lo <- load8 (bda + 14) ;;
  let p := u32 (Z.shiftl (Z.lor (Z.shiftl hi 8) lo) 4) in
  r <- (if negb (p =? 0) then mpsearch1 p 1024
        else hi <- load8 (bda + 20) ;; lo <- load8 (bda + 19) ;;
             mpsearch1 (u32 (u32 (Z.lor (Z.shiftl hi 8) lo * 1024) - 1024)) 1024) ;;
  match r with
  | Some mp => ret (Some mp)
  | None => mpsearch1 983040 65536
  end.

(** The configuration table and the floating structure. *)
Definition mpconfig : K (option (Z * Z)) :=
  mp <- mpsearch ;;
  match mp with
  | None => ret None
  | Some mp =>
      physaddr <- load32 (mp + 4) ;;
      if physaddr =? 0 then ret None else
      let conf := p2v physaddr in
      b <- mem_is conf (bytes_of "PCMP") ;;
      if negb b then ret None else
      v <- load8 (conf + 6) ;;
      if negb (v =? 1) && negb (v =? 4) then ret None else
      len <- load16 (conf + 4) ;;
      c <- sum conf len ;;
      if negb (c =? 0) then ret None else ret (Some (conf, mp))
  end.

(** [cpus[ncpu].apicid = id; ncpu++]. *)
Definition add_cpu (apicid : Z) (cpus : list Z) : K (list Z) :=
  if (NCPU <=? length cpus)%nat then fault else
  upd_dev (fun v => vset_ncpu (v_ncpu v + 1) v) ;;
  ret (cpus ++ [apicid]).

(** The loop over the table: the processors found, and the boot processor. An entry of unknown type clears
    [ismp] and leaves [p] where it is. *)
Fixpoint mpinit_loop (fuel : nat) (p e : Z) (cpus : list Z) (bcpu : nat) : K (list Z * nat) :=
  match fuel with
  | O => nofuel
  | S fuel =>
      if e <=? p then ret (cpus, bcpu) else
      t <- load8 p ;;
      if t =? MPPROC then
        apicid <- load8 (p + 1) ;;
        flags <- load8 (p + 3) ;;
        n <- gets (fun s => v_ncpu (k_dev s)) ;;
        cprintf "mpinit ncpu=%d apicid=%d
" [VInt n; VInt apicid] ;;
        let bcpu := if has flags MPBOOT then length cpus else bcpu in
        cpus <- add_cpu apicid cpus ;;
        mpinit_loop fuel (p + sizeof_mpproc) e cpus bcpu
      else if t =? MPIOAPIC then
        apicno <- load8 (p + 1) ;;
        upd_dev (vset_ioapicid apicno) ;;
        mpinit_loop fuel (p + sizeof_mpioapic) e cpus bcpu
      else if (t =? MPBUS) || (t =? MPIOINTR) || (t =? MPLINTR) then mpinit_loop fuel (p + 8) e cpus bcpu
      else
        cprintf "mpinit: unknown config type %x
" [VInt t] ;;
        upd_dev (vset_ismp 0) ;;
        mpinit_loop fuel p e cpus bcpu
  end.

(** A table has at most 64 KB, in entries of eight bytes or more. *)
Definition mp_fuel : nat := 8193.

Definition mpinit (cpus : list Z) : K (list Z * nat) :=
  c <- mpconfig ;;
  match c with
  | None => ret (cpus, 0%nat)
  | Some (conf, mp) =>
      upd_dev (vset_ismp 1) ;;
      la <- load32 (conf + 36) ;;
      upd_dev (vset_lapic (IO2V la)) ;;
      len <- load16 (conf + 4) ;;
      let* (cpus, bcpu) := mpinit_loop mp_fuel (conf + sizeof_mpconf) (conf + len) cpus 0 in
      ismp <- gets (fun s => v_ismp (k_dev s)) ;;
      if ismp =? 0 then
        upd_dev (vset_ncpu 1) ;;
        upd_dev (vset_lapic 0) ;;
        upd_dev (vset_ioapicid 0) ;;
        ret (cpus, bcpu)
      else
        imcrp <- load8 (mp + 12) ;;
        (if negb (imcrp =? 0) then
           outb 34 112 ;;
           x <- inb 35 ;;
           outb 35 (Z.lor x 1)
         else ret tt) ;;
        ret (cpus, bcpu)
  end.

(** ** kernel/acpi.c *)

Definition sizeof_rdsp : Z := 36.
Definition sizeof_rsdt : Z := 36.
Definition sizeof_madt : Z := 44.
Definition TYPE_LAPIC : Z := 0.
Definition TYPE_IOAPIC : Z := 1.
Definition APIC_LAPIC_ENABLED : Z := 1.
Definition sizeof_madt_lapic : Z := 8.
Definition sizeof_madt_ioapic : Z := 12.
Definition PHYSLIMIT : Z := 2147483648.

(** [for (p = p2v(base); len >= sizeof(struct acpi_rdsp); len -= 4, p += 4)]. *)
Fixpoint scan_rdsp_loop (n : nat) (p len : Z) : K (option Z) :=
  match n with
  | O => ret None
  | S n =>
      if len <? sizeof_rdsp then ret None else
      b <- mem_is p (bytes_of "RSD PTR ") ;;
      c <- (if b then l <- load_bytes p 20 ;; ret (Z.land (foldl Z.add 0 l) 255) else ret 1) ;;
      if c =? 0 then ret (Some p) else scan_rdsp_loop n (p + 4) (len - 4)
  end.
Definition scan_rdsp (base len : Z) : K (option Z) := scan_rdsp_loop (Z.to_nat (len / 4 + 1)) (p2v base) len.

Definition find_rdsp : K (option Z) :=
  w <- load16 (p2v 1038) ;;
  let pa := Z.shiftl w 4 in
  r <- (if negb (pa =? 0) then scan_rdsp pa 1024 else ret None) ;;
  match r with
  | Some rdsp => ret (Some rdsp)
  | None => scan_rdsp 917504 131072
  end.

(** The loop over the table. An entry of length zero leaves [p] where it is. *)
Fixpoint madt_loop (fuel : nat) (p e : Z) (nioapic : Z) (cpus : list Z) : K (list Z) :=
  match fuel with
  | O => nofuel
  | S fuel =>
      if e <=? p then ret cpus else
      if e - p <? 2 then ret cpus else
      len <- load8 (p + 1) ;;
      if e - p <? len then ret cpus else
      t <- load8 p ;;
      if (t =? TYPE_LAPIC) && (sizeof_madt_lapic <=? len) then
        flags <- load32 (p + 4) ;;
        if has flags APIC_LAPIC_ENABLED then
          id <- load8 (p + 3) ;;
          n <- gets (fun s => v_ncpu (k_dev s)) ;;
          cprintf "acpi: cpu#%d apicid %d
" [VInt n; VInt id] ;;
          cpus <- add_cpu id cpus ;;
          madt_loop fuel (p + len) e nioapic cpus
        else madt_loop fuel (p + len) e nioapic cpus
      else if (t =? TYPE_IOAPIC) && (sizeof_madt_ioapic <=? len) then
        addr <- load32 (p + 4) ;;
        id <- load8 (p + 2) ;;
        base <- load32 (p + 8) ;;
        cprintf "acpi: ioapic#%d @%x id=%d base=%d
" [VInt (s32 nioapic); VInt (s32 addr); VInt id; VInt (s32 base)] ;;
        (if negb (nioapic =? 0) then cprintf "warning: multiple ioapics are not supported" []
         else upd_dev (vset_ioapicid id)) ;;
        madt_loop fuel (p + len) e (nioapic + 1) cpus
      else madt_loop fuel (p + len) e nioapic cpus
  end.

(** Whether it succeeded, and the processors. [fuel] bounds the entries of the table. *)
Definition acpi_config_smp (fuel : nat) (madt : option Z) : K (bool * list Z) :=
  match madt with
  | None => ret (false, [])
  | Some madt =>
      length <- load32 (madt + 4) ;;
      if length <? sizeof_madt then ret (false, []) else
      lapic_addr <- load32 (madt + 36) ;;
      let p := madt + sizeof_madt in
      cpus <- madt_loop fuel p (p + length - sizeof_madt) 0 [] ;;
      n <- gets (fun s => v_ncpu (k_dev s)) ;;
      if negb (n =? 0) then
        upd_dev (vset_ismp 1) ;;
        upd_dev (vset_lapic (IO2V lapic_addr)) ;;
        ret (true, cpus)
      else ret (false, cpus)
  end.

(** The loop over the [count] entries of the root table; [None] for one that is not mapped. *)
Fixpoint rsdt_loop (n : nat) (entry : Z) (madt : option Z) : K (option (option Z)) :=
  match n with
  | O => ret (Some madt)
  | S n =>
      a <- load32 entry ;;
      if PHYSLIMIT <? a then ret None else
      b <- mem_is (p2v a) (bytes_of "APIC") ;;
      rsdt_loop n (entry + 4) (if b then Some (p2v a) else madt)
  end.

Definition notmapped : K (bool * list Z) :=
  cprintf "acpi: tables above 0x%x not mapped.
" [VInt (s32 PHYSLIMIT)] ;;
  ret (false, []).

(** [find_rdsp()] without a result is used as the address 0. *)
Definition acpiinit (fuel : nat) : K (bool * list Z) :=
  rdsp <- find_rdsp ;;
  match rdsp with
  | None => fault
  | Some rdsp =>
      a <- load32 (rdsp + 16) ;;
      if PHYSLIMIT <? a then notmapped else
      let rsdt := p2v a in
      length <- load32 (rsdt + 4) ;;
      let count := u32 (length - sizeof_rsdt) / 4 in
      m <- rsdt_loop (Z.to_nat count) (rsdt + sizeof_rsdt) None ;;
      match m with
      | None => notmapped
      | Some madt => acpi_config_smp fuel madt
      end
  end.

End mp.
