(* ===== verification/Main.v ===== *)
(** * Starting the kernel (kernel/main.c; seginit of kernel/vm64.c, cpunum of kernel/lapic.c)

    The code the boot processor runs from [main] to the scheduler. *)

From Stdlib Require Import Ascii String.
From S2P Require Import Prelude Types Monad Sched Bio KString Log Fs FsDir Mem Kalloc Vm Pipe File Proc.
From S2P Require Import Port Print Irq Console Ide Mp.

(** What the linker places in the kernel image: the code other processors start in, their 32-bit entry
    point, and the trap vectors. *)
Class Linked := {
  entryother : list Z;
  entry32mp : Z;
  vectors : nat -> Z
}.

Definition SEG_KCODE : Z := 1.
Definition SEG_KDATA : Z := 2.
Definition SEG_KCPU : Z := 3.
Definition SEG_TSS : Z := 6.

Section main.
Context {drv : DiskDriver} (dv : devsw) {L : Layout} {I : Image} {D : Devices} {B : Linked}.

Definition store32 (a v : Z) : K unit := store_bytes a (le_bytes 4 (u32 v)).

(** ** seginit *)

(** Gate [n] of the interrupt table: four words. *)
Definition mkgate (idt : Z) (n : nat) (kva pl : Z) (trap : bool) : K unit :=
  let a := idt + 4 * (Z.of_nat n * 4) in
  let trap := if trap then 36608 else 36352 in
  store32 a (Z.lor (Z.land kva 65535) (Z.shiftl (Z.shiftl SEG_KCODE 3) 16)) ;;
  store32 (a + 4) (Z.lor (Z.lor (Z.land kva 4294901760) trap) (Z.shiftl (Z.land pl 3) 13)) ;;
  store32 (a + 8) (Z.shiftr kva 32) ;;
  store32 (a + 12) 0.

(** [cpunum] with interrupts off: the index of the processor whose identifier the local APIC reports. *)
Definition cpunum (cpus : list Z) : K nat :=
  d <- gets k_dev ;;
  if v_lapic d =? 0 then ret 0%nat else
  v <- lapicr Lapic.ID ;;
  ret (default 0%nat (fst <$> list_find (fun a => a = Z.shiftr v 24) (take (Z.to_nat (v_ncpu d)) cpus))).

(** The local page of the processor; [lidt], [lgdt], [ltr] and [wrmsr] load the addresses given. *)
Definition seginit : K Z :=
  idt <- kalloc ;;
  fill_bytes idt 0 PGBYTES ;;
  foreach (fun n => mkgate idt n (vectors n) 0 false) (seq 0 256) ;;
  mkgate idt 64 (vectors 64) 3 true ;;
  local <- kalloc ;;
  fill_bytes local 0 PGBYTES ;;
  let gdt := local in
  let tss := local + 1024 in
  store32 (tss + 4 * 16) 6815744 ;;
  modify (set_cur None) ;;
  store64 gdt 0 ;;
  store64 (entry gdt SEG_KCODE) 9174325022162944 ;;
  store64 (entry gdt SEG_UCODE) 9279878138429440 ;;
  store64 (entry gdt SEG_KDATA) 160528697655296 ;;
  store64 (entry gdt SEG_KCPU) 0 ;;
  store64 (entry gdt SEG_UDATA) 266081813921792 ;;
  store64 (entry gdt SEG_TSS)
    (u64 (Z.lor (Z.lor (Z.lor 103 (Z.shiftl (Z.land tss 16777215) 16)) (Z.shiftl 233 40))
                (Z.shiftl (Z.land (Z.shiftr tss 24) 255) 56))) ;;
  store64 (entry gdt (SEG_TSS + 1)) (Z.shiftr tss 32) ;;
  ret local.

(** ** main.c *)

(** One of the other processors: its stack and entry point below the start code, and the signal to start. The
    processor sets [started] in [mpmain], which the loop after the signal waits for. *)
Definition startother (code : Z) (apicid : Z) : K unit :=
  stack <- kalloc ;;
  store32 (code - 4) 32768 ;;
  store32 (code - 8) (v2p entry32mp) ;;
  store64 (code - 16) (u64 (stack + KSTACKSIZE)) ;;
  lapicstartap apicid (v2p code).

Definition startothers (cpus : list Z) : K unit :=
  let code := p2v 28672 in
  store_bytes code entryother ;;
  d <- gets k_dev ;;
  foreach (fun '(i, apicid) =>
      me <- cpunum cpus ;;
      if (i =? me)%nat then ret tt else startother code apicid)
    (imap pair (take (Z.to_nat (v_ncpu d)) cpus)).

Definition mpmain (id : Z) : K unit :=
  cprintf "cpu%d: starting
" [VInt id].

(** [fuel] bounds the waits for devices and the entries of the ACPI table. [kpdpt_page] of the image is the
    page [kvmalloc] allocates. The result is the list of processors; [scheduler] comes next. *)
Definition main (fuel : nat) : K (list Z) :=
  uartearlyinit ;;
  kinit1 kend (p2v 4194304) ;;
  kvmalloc ;;
  let* (ok, cpus) := acpiinit fuel in
  cpus <- (if ok then ret cpus else (let* (cpus, _) := mpinit cpus in ret cpus)) ;;
  lapicinit fuel ;;
  seginit ;;
  me <- cpunum cpus ;;
  cprintf "
cpu%d: starting xv6

" [VInt (Z.of_nat me)] ;;
  picinit ;;
  ioapicinit ;;
  consoleinit ;;
  uartinit ;;
  pinit ;;
  binit ;;
  fileinit ;;
  iinit ;;
  ideinit fuel ;;
  d <- gets k_dev ;;
  (if v_ismp d =? 0 then timerinit else ret tt) ;;
  startothers cpus ;;
  kinit2 (p2v 4194304) (p2v PHYSTOP) ;;
  userinit dv ;;
  mpmain (Z.of_nat me) ;;
  ret cpus.

(** The other processors, up to the scheduler. *)
Definition mpenter (fuel : nat) (cpus : list Z) : K unit :=
  seginit ;;
  lapicinit fuel ;;
  me <- cpunum cpus ;;
  mpmain (Z.of_nat me).

End main.
