(* ===== verification/Boot.v ===== *)
(** * The boot loader (kernel/bootmain.c)

    It reads the kernel from the disk into physical memory with programmed I/O. Addresses here are physical; the memory is the one
    the kernel will find. *)

From Stdlib Require Import Ascii String.
From S2P Require Import Prelude Types Monad Mem Port.

Definition SECTSIZE : Z := 512.
Definition MBMAGIC : Z := 464367618.

(** [struct mbheader]: eight words. *)
Record mbheader := Mbheader {
  mb_magic : Z; mb_flags : Z; mb_checksum : Z; mb_header_addr : Z; mb_load_addr : Z; mb_load_end_addr : Z;
  mb_bss_end_addr : Z; mb_entry_addr : Z
}.

Section boot.
Context {D : Devices}.

Definition peek32 (a : Z) : K Z := l <- load_bytes a 4 ;; ret (le_val l).

(** [fuel] bounds the polls of the status port. *)
Fixpoint waitdisk (fuel : nat) : K unit :=
  match fuel with
  | O => nofuel
  | S fuel => st <- inb 503 ;; if Z.land st 192 =? 64 then ret tt else waitdisk fuel
  end.

Definition readsect (fuel : nat) (dst offset : Z) : K unit :=
  waitdisk fuel ;;
  outb 498 1 ;;
  outb 499 offset ;;
  outb 500 (Z.shiftr offset 8) ;;
  outb 501 (Z.shiftr offset 16) ;;
  outb 502 (Z.lor (Z.shiftr offset 24) 224) ;;
  outb 503 32 ;;
  waitdisk fuel ;;
  l <- insl 496 (Z.to_nat (SECTSIZE / 4)) ;;
  store_bytes dst (concat (map (le_bytes 4) l)).

(** [for(; pa < epa; pa += SECTSIZE, offset++)]. *)
Fixpoint readseg_loop (n fuel : nat) (pa epa offset : Z) : K unit :=
  match n with
  | O => nofuel
  | S n =>
      if epa <=? pa then ret tt else
      readsect fuel pa offset ;;
      readseg_loop n fuel (pa + SECTSIZE) epa (u32 (offset + 1))
  end.

(** A sector at a time: at most one more than [count] fills. *)
Definition readseg (fuel : nat) (pa count offset : Z) : K unit :=
  let epa := pa + count in
  let pa := pa - offset mod SECTSIZE in
  readseg_loop (Z.to_nat (count / SECTSIZE + 3)) fuel pa epa (u32 (offset / SECTSIZE + 1)).

(** The index of the multiboot header among the words from [x] on. *)
Fixpoint find_header (n : nat) (k : nat) (x : Z) : K (option nat) :=
  match n with
  | O => ret None
  | S n =>
      a <- peek32 (x + 4 * Z.of_nat k) ;;
      if a =? MBMAGIC then
        b <- peek32 (x + 4 * Z.of_nat k + 4) ;;
        c <- peek32 (x + 4 * Z.of_nat k + 8) ;;
        if u32 (a + b + c) =? 0 then ret (Some k) else find_header n (S k) x
      else find_header n (S k) x
  end.

Definition load_header (a : Z) : K mbheader :=
  m0 <- peek32 a ;; m1 <- peek32 (a + 4) ;; m2 <- peek32 (a + 8) ;; m3 <- peek32 (a + 12) ;;
  m4 <- peek32 (a + 16) ;; m5 <- peek32 (a + 20) ;; m6 <- peek32 (a + 24) ;; m7 <- peek32 (a + 28) ;;
  ret (Mbheader m0 m1 m2 m3 m4 m5 m6 m7).

(** The entry point it jumps to, or [None] when it gives up. The header is read again from the scratch space each
    time it is used; loading the kernel over it changes what the later uses see. *)
Definition bootmain (fuel : nat) : K (option Z) :=
  let x := 65536 in
  readseg fuel x 8192 0 ;;
  k <- find_header 2048 0 x ;;
  match k with
  | None => ret None
  | Some n =>
      let a := x + 4 * Z.of_nat n in
      hdr <- load_header a ;;
      if negb (has (mb_flags hdr) 65536) then ret None else
      if mb_header_addr hdr <? mb_load_addr hdr then ret None else
      if mb_load_end_addr hdr <? mb_load_addr hdr then ret None else
      readseg fuel (mb_load_addr hdr) (mb_load_end_addr hdr - mb_load_addr hdr)
        (u32 (Z.of_nat n * 4 - (mb_header_addr hdr - mb_load_addr hdr))) ;;
      hdr <- load_header a ;;
      (if mb_load_end_addr hdr <? mb_bss_end_addr hdr then
         fill_bytes (mb_load_end_addr hdr) 0 (Z.to_nat (mb_bss_end_addr hdr - mb_load_end_addr hdr))
       else ret tt) ;;
      hdr <- load_header a ;;
      ret (Some (mb_entry_addr hdr))
  end.

End boot.
